(* ===== verification/_CoqProject ===== *)
-Q . S2P
Prelude.v
GoStrings.v
ApiCodes.v
PathFacts.v
ComposeSafety.v
ComposeSafetyFacts.v
GoRegexp.v
HostGuard.v
GoTime.v
TaskModel.v
TaskRefs.v
ShellPlaces.v
ShellFacts.v
TaskRender.v
TaskYaml.v
TaskParse.v
TaskFormat.v
TaskWf.v
TaskParseFacts.v
TaskRoundtrip.v
TaskRenderFacts.v
ClusterFSM.v
ClusterFSMFacts.v
ClusterQuorum.v
ClusterTokens.v
ClusterTaskStore.v
ClusterTaskStoreFacts.v
RunStore.v
TaskPlan.v
TaskPlanFacts.v
Interact.v
World.v
FileCall.v
ComposeCall.v
ComposeManager.v
ComposeManagerFacts.v
ComposePlaces.v
FileGuard.v
RunProg.v
JobProg.v
JobOutput.v
JobNode.v
JobRunners.v
JobFile.v
JobStack.v
JobPackages.v
JobPackagesFacts.v
Disk.v
FileGuardFacts.v
JobFileFacts.v
JobHost.v
JobHostFacts.v
JobFacts.v
JobRunnersFacts.v
JobStackFacts.v
JobLive.v
TaskRun.v
TaskRunSpec.v
TaskRunFacts.v
TaskRerun.v
TaskSupervise.v
TaskSuperviseFacts.v
ApiProg.v
TaskApi.v
ApiHost.v
ApiHostFacts.v
ApiFacts.v
TaskWaves.v
TaskWitness.v
ClusterWitness.v
JobWitness.v
RunWitness.v
StepWitness.v
ApiWitness.v
AuthGuards.v
AuthApi.v
AuthHost.v
AuthFacts.v
AuthWitness.v
