(* ===== verification/Prelude.v ===== *)
(** * SFPanel group tasks: a verification development

    SFPanel is a server panel; several panels form a cluster, and a *group
    task* is a YAML document of steps (packages, services, commands, files,
    stacks, restarts) run on many of its nodes.  The development models the
    way of a task from its document to the host of each node, and the part of
    the cluster it stands on: the replicated state machine, the tokens nodes
    join with, the quorum guards and the store of tasks and runs.  It models
    too what stands in front of all of it: the panel's sign-in with its
    sessions, and the requests nodes sign to each other.

    ** The way of a task

    An operator's document comes in by the task API ([TaskApi.CreateTask]), is
    read ([TaskParse.Parse]) and kept in the task store of the leader
    ([ClusterTaskStore], entries of the state machine of [ClusterFSM]).  A run
    of it is previewed and planned ([TaskApi.PlanRun], [TaskPlan.planRun]:
    waves of nodes, each node's steps rendered by [TaskRender.Render]),
    confirmed, claimed in the start gate and recorded ([TaskApi.StartRun]).
    The leader's supervisor ([TaskSupervise.superviseOnce]) gives the run a
    runner ([TaskRun.runTask]), which goes wave by wave, posts each step of
    each node as a job and records how it ended.  The node takes a job
    ([JobNode.StartJob]), runs it by the runner of its kind (JobRunners,
    JobPackages, JobFile, JobStack) and answers how it stands
    ([JobNode.GetJob]).  A file step goes through the file manager's guard
    ([FileGuard.validatePathForWrite]), a stack step through the compose gate
    ([ComposeSafety.Analyze]) and the manager of stacks (ComposeManager).  A
    run that failed is run again from there ([TaskApi.RerunRun],
    [TaskRerun.rerunFrom]), and one under way is stopped ([TaskApi.StopRun]).

    ** Files and sources (paths under src/internal)

    - Prelude: results, messages, tactics, the hint database [go].  GoStrings,
      GoRegexp, GoTime: what the code uses of Go's strings, strconv, regexp
      and time.  ApiCodes: api/response/errors.go.  Interact: programs as
      trees of calls, their executions, and the logic [wp] that shows what
      every execution does; World: programs in a world with a state, which may
      stop them at any call, and the logic [wpc] with a condition that holds
      wherever one is cut off.  RunProg, JobProg, FileCall (os, syscall) and
      ComposeCall (the compose tool and the Docker engine) are their calls.
    - TaskModel (tasks/model.go, job.go), TaskRefs (the patterns of parse.go),
      ShellPlaces (shellpos.go), TaskRender (render.go), TaskYaml (the YAML
      library's interface), TaskParse (parse.go), TaskFormat (format.go);
      TaskWf is the type invariant of a task and the logic its
      proof uses.
    - ClusterFSM (cluster/types.go, raft_fsm.go), ClusterQuorum (quorum.go,
      labels.go), ClusterTokens (token.go), ClusterTaskStore (tasks_store.go);
      RunStore is the interface runStore of feature/tasks/env.go, and the task
      store an instance of it.
    - TaskPlan (feature/tasks/plan.go), TaskRun (run.go, with the calls of
      env.go in RunProg), TaskRerun (rerun.go), TaskSupervise (supervise.go
      and launch of handler.go); TaskRunSpec is the state machine of a node's
      record a runner keeps to.
    - ApiProg (the calls of a handler: runEnv and taskStore of env.go, the start
      gate of feature/cluster/task_gate.go, headMu, the agent installs) and
      TaskApi (feature/tasks/handler.go, tasks/builtin.go); ApiHost is a leader
      with all its goroutines over one store of runs: the handlers, the
      engine's writes of heads and records, agent installs and restarts.
    - HostGuard (common/sysguard, UnitGuard of feature/services), JobProg (the
      calls of feature/taskjob and the statements on its table), JobOutput and
      JobNode (store.go, handler.go and the recovery of reboot.go); JobHost is
      the node with all its goroutines, the abstract machine of its jobs and
      the laws of a runner; JobLive its runs that go on for ever.
    - The runners: JobRunners (command.go, service.go, reboot.go), JobPackages
      (packages.go), JobFile (file.go) and JobStack (stack.go).  FileGuard is
      the write guard of feature/files (handler.go, attrs.go); Disk a disk
      whose names and data reach it in no order of their own, which a write
      is shown safe on.
    - ComposeSafety (composex/safety.go) is the gate in front of every compose
      document; ComposeManager (docker/compose.go) keeps the stacks and runs
      the compose tool; ComposePlaces has where it writes.  PathFacts has what
      path.Clean does to a path.
    - AuthGuards has what the sign-in keeps in memory and what the middleware
      lets pass (the login limit, bounds and policy of feature/auth/handler.go
      and bounds.go; internal/auth: totp.go, wsticket.go, proxyauth.go,
      wsauth.go, wsupgrade.go, stepup.go; api/middleware: auth.go, csrf.go,
      agent.go); AuthApi the handlers of feature/auth (handler.go, refresh.go,
      recovery.go, sessions.go) with auth/cookies.go and jwt.go; AuthHost is a
      panel with all its requests over one database and its memory.
    - The files in Facts, TaskRoundtrip, TaskWaves and the hosts (JobHost,
      ApiHost, AuthHost) hold the theorems; those in Witness apply them to
      concrete data.

    A record of a struct has its fields with a prefix of the type; a method
    that changes its receiver gives the new state; a Go error is [Err] or
    [Some].  Code that talks to the world (the runner, the node's handlers) is
    a [prog]: a theorem on it holds whatever its calls answer, but for what
    its hypotheses say ([relied]: a node's record as read is one a leader may
    have left; [no_planted]: no protected place is a link, and links are
    planted only while a file step makes its directories; [unit_recorded]:
    the panel is not stopped between a package transaction's start and the
    record of its unit; [steady]: a stack's compose file does not move under
    an operation, which resolves it twice; [checks_from]: internal requests
    are checked one after another, each nonce within 0.9 s of its stamp;
    [fair]: the scheduler starves no goroutine and calls are answered).

    What a panel keeps in memory goes with a restart, and the theorems count
    that in: the login limit's table (a restart is one of the times it forgets
    an address), the nonces of internal requests and the second factor's spent
    codes (their theorems are of the time between two restarts).  One operation
    on such a table is one step; an attempt that found its entry before the
    address was cleared counts as made before that.  The limit's pruner is two
    steps, its look and its deletion.  A server that boots as an agent forgets
    its accounts, and as a panel again is set up anew: the first-run setup is
    bounded between two such times.  A backup restored over the database
    (feature/system) begins another history, and is in no model here.

    ** What the theorems show

    - Documents: a parsed task is well formed and [Parse] answers a task or
      problems; a formatted task reads back; the placement scan answers on
      every text; a well-formed task renders unless an input is missing, and a
      quoted value is one the shell reads back.
    - Runs: a plan places each node once, in order; jobs are posted only for
      steps recorded starting, in the order of waves and steps, never after a
      stop; a record only moves forward; a run succeeds only with all its
      nodes; a wait ends; a rerun skips what had succeeded; a leader has one
      runner for each run and none when it does not lead; an install left by
      a leader change is ended whole.
    - The API: two task runs under way never hold one node, through any
      interleaving of a leader's goroutines; a start puts what its request
      orders and launches what the store acknowledged; its confirmed steps are
      those its preview showed; a rerun starts each node where it failed; no
      handler stores a document that does not parse, nor one over a built-in
      or an imported task.
    - Nodes: a node runs one job at a time through any interleaving and any
      restart; its table refines an abstract machine in which only a listed job
      that has ended is forgotten; a job is started once
      for each time it is recorded; a start alone does one of the things it
      says; every job left at boot is settled; every request is answered; a
      log is read to its end.
    - Steps: a service step passes the unit guard; a stack step the name and
      compose guards, and writes in its own directory; a file step writes no
      protected place and makes no directory below a protected one, does what it says, and leaves its
      path with the old file or the new one wherever it is cut off; a packages
      step starts each phase once over any restarts.
    - Cluster: replicas of a log agree; the state stays well formed and a
      command changes what it names; a snapshot restores; a token admits once;
      leaving keeps the quorum; labels keep to their schema; the store keeps
      names unique, reads back what was written and prunes only what no kept
      run needs.

    - Sign-in: a session opens only with the limit's leave, the password and
      the second factor; an account is changed only as its checks grant; a
      refresh rotates its token in one committed transaction.  Through any
      interleaving of the panel's requests and its restarts a refresh token is
      rotated away once, a family has one live token and its own user, an
      ended session stays ended, one first-run setup makes an admin until the
      accounts are forgotten, and a code of the second factor is taken once in its period.  The login limit
      bounds the attempts of an address by how often it forgets it, and a
      header a node signed admits one request.  AuthWitness has runs that show what the code does not keep: a
      code taken again in the next period, a recovery code that admits two
      sign-ins at once, a second factor replaced with no proof of the one
      there, a nonce forgotten a moment early.

    - Compose: a document's forbidden findings are exactly the paths of the
      panel's secrets it binds; both tiers go by where a path leads; the order
      of a map changes nothing.  A stack comes up only after a resolved
      document of it was judged (the one brought up, where the host keeps
      still), a name no stack may have reaches nothing, files change only in the stack's own directory,
      and a rollback brings it up only with every image tagged back.

    ** Interfaces to code outside the repository

    bcrypt, the signing and reading of a JWT, the check of a TOTP code,
    RFC 3339, [YamlLib], [YamlScalars] and [Unmarshal] (gopkg.in/yaml.v3), [Codec], [StoreJSON] and
    the snapshot's JSON (encoding/json), HMAC, SHA-256 and random bytes,
    [net.SplitHostPort] and [net.ParseIP], Raft's outcome of a write, the
    answers of a node over HTTP, of systemd, of SQLite, of the kernel on
    files, of the Docker engine and of the compose tool.  Each is a
    parameter with its documented behaviour as a law of a class, and each law
    is shown satisfiable by a small instance.  Inside the development
    [RunnerLaws] is what a node's jobs rely on of a step's runner,
    and [RunStore] what the supervisor relies on of the store.

    The panel of AuthHost draws no random token and no family twice, and the
    hashes of the tokens it draws are new; a transaction reads one state of the
    database and, where it wrote, commits only onto that state, as SQLite has
    it; an operation on a map under its lock is one step; the clock does not go
    back.

    The leader of ApiHost is one process with one store: an ID of a run is
    minted once, what a request to order a run asks is answered at one moment,
    the agent installs change only runs of their own kind, and the end of a
    left install is one step under headMu.

    ** Fuel

    The scan of a command has fuel [scan_fuel] from the text's length and the
    nesting limit, proved enough.  The runner's start takes [startAttempts]
    posts, as the code does.  Its polls of one job have [rc_fuel], and
    [wait_returns] gives the fuel that is enough; the goroutines of a wave run
    on fuel too, and the polls of a unit or a package transaction on the
    node's ([watch_unit], [wait_tx]): out of
    it a program is [Stuck] and has no answer, so the theorems on what a
    program does hold of every execution as far as it went.  [agent_waves]
    has the number of its nodes, and an order is proved to be found.  Reading
    a log has one read for each byte at most.  Integers are Go's int64 values
    as [Z]; where overflow is looked at (durations, [strconv]) the bounds are
    written out, and a timeout in whole seconds is rounded up exactly, as the
    code's float64 does below 97 days.

    ** Not modelled

    - Git import, the run stream and the ticker of the supervisor: I/O around
      what is modelled.
    - The package manager's transactions behind a packages step
      (feature/packages) and the redaction of output
      (api/response/sanitize.go) are the host's answers and a parameter.
    - Of docker/compose.go, ListProjectsWithStatus and the setters of the
      manager's collaborators; of feature/files, the pages around the guard.
    - Locks that guard one map or file (a method under one lock is one step;
      [headMu] is looser in TaskRun than in the code, as head writes interleave
      call by call; in ApiHost it is a lock), logging, and HTTP bodies.
    - Of the HTTP server, the relay of a request to another node, the audit and
      request logs and the headers of responses; of feature/auth, the tickers
      around the two prunings.
    - Raft, gRPC, certificates, and the panel's other pages (disks, network,
      firewall, alerts): calls to libraries and host commands with little
      logic of their own. *)

From Stdlib Require Export ZArith Lia Ascii String.
From stdpp Require Export base gmap strings list sorting pretty.

#[global] Open Scope Z_scope.
#[global] Open Scope list_scope.

(** ** Notations of the development *)

Declare Scope go_scope.
Delimit Scope go_scope with go.

(** Go's [bool] operators and string equality on the model's values. *)
Notation "s ==s t" := (String.eqb s t) (at level 70, no associativity) : go_scope.
#[global] Open Scope go_scope.

(** String concatenation computes on its first argument. *)
#[global] Arguments String.append !s1 s2 / : simpl nomatch.

(** ** Results: a Go [(T, error)] pair where exactly one side is used *)

Inductive result (E A : Type) : Type :=
| Ok (a : A)
| Err (e : E).
Arguments Ok {E A} a.
Arguments Err {E A} e.

Definition result_bind {E A B} (r : result E A) (f : A -> result E B) : result E B :=
  match r with
  | Ok a => f a
  | Err e => Err e
  end.

Notation "x <-? r ;; k" :=
  (result_bind r (fun x => k)) (at level 100, r at next level, right associativity) : go_scope.

Definition is_ok {E A} (r : result E A) : bool :=
  match r with Ok _ => true | Err _ => false end.

(** ** Messages: [fmt.Sprintf] kept as its template and its arguments

    The texts the program builds for people are kept unrendered, so that the
    model says which message is given with which values and leaves the bytes
    of the verbs ([%q]'s table of printable runes above all) alone. *)

Inductive message : Type :=
| Sprintf (template : string) (args : list fmt_arg)
with fmt_arg : Type :=
| FStr (s : string)
| FInt (z : Z)
| FMsg (m : message).

(** ** Tactics *)

(** Splits every [match] and [if] of the goal, keeping the equations. *)
Ltac go_cases :=
  repeat (case_match; simplify_eq/=; try done).

(** Reads boolean tests of the code as propositions. *)
Ltac go_bools :=
  repeat match goal with
  | H : andb _ _ = true |- _ => apply andb_true_iff in H as [? ?]
  | H : orb _ _ = false |- _ => apply orb_false_iff in H as [? ?]
  | H : negb _ = true |- _ => apply negb_true_iff in H
  | H : negb _ = false |- _ => apply negb_false_iff in H
  | H : String.eqb _ _ = true |- _ => apply String.eqb_eq in H
  | H : String.eqb _ _ = false |- _ => apply String.eqb_neq in H
  | H : Ascii.eqb _ _ = true |- _ => apply Ascii.eqb_eq in H
  | H : Ascii.eqb _ _ = false |- _ => apply Ascii.eqb_neq in H
  | H : Z.ltb _ _ = true |- _ => apply Z.ltb_lt in H
  | H : Z.ltb _ _ = false |- _ => apply Z.ltb_ge in H
  | H : Z.leb _ _ = true |- _ => apply Z.leb_le in H
  | H : Z.leb _ _ = false |- _ => apply Z.leb_gt in H
  | H : Z.eqb _ _ = true |- _ => apply Z.eqb_eq in H
  | H : Z.eqb _ _ = false |- _ => apply Z.eqb_neq in H
  | H : Nat.ltb _ _ = true |- _ => apply Nat.ltb_lt in H
  | H : Nat.ltb _ _ = false |- _ => apply Nat.ltb_ge in H
  | H : Nat.leb _ _ = true |- _ => apply Nat.leb_le in H
  | H : Nat.leb _ _ = false |- _ => apply Nat.leb_gt in H
  | H : Nat.eqb _ _ = true |- _ => apply Nat.eqb_eq in H
  | H : Nat.eqb _ _ = false |- _ => apply Nat.eqb_neq in H
  end.

(** ** Hint databases

    [go] collects the closing lemmas of the runtime layer; [go_rw] its
    rewriting equations. *)
Create HintDb go discriminated.
Create Rewrite HintDb go_rw.

(** ** Generic lemmas on lists *)

(** [slices.Contains] on strings. *)
Definition slices_contains (l : list string) (s : string) : bool :=
  existsb (String.eqb s) l.
#[global] Arguments slices_contains : simpl never.

Lemma slices_contains_spec l s : slices_contains l s = true <-> s ∈ l.
Proof.
  unfold slices_contains. rewrite existsb_exists, list_elem_of_In. split.
  - by intros (x & Hx & ->%String.eqb_eq).
  - intros H. exists s. by rewrite String.eqb_refl.
Qed.

Lemma slices_contains_false l s : slices_contains l s = false <-> s ∉ l.
Proof. rewrite <-slices_contains_spec. by destruct (slices_contains l s). Qed.

#[export] Hint Resolve -> slices_contains_spec : go.
#[export] Hint Resolve <- slices_contains_spec : go.

Lemma string_eqb_sym (a b : string) : (a ==s b) = (b ==s a).
Proof. apply String.eqb_sym. Qed.

(** The order [<] of Go strings: bytewise. *)
Definition str_ltb (a b : string) : bool := String.ltb a b.

(** ** Maps filtered and listed *)

Lemma map_to_list_filter_perm {A} (P : string * A -> Prop) `{!forall kv, Decision (P kv)} (m : gmap string A) :
  map_to_list (filter P m) ≡ₚ filter P (map_to_list m).
Proof.
  apply NoDup_Permutation.
  - apply NoDup_map_to_list.
  - apply NoDup_filter, NoDup_map_to_list.
  - intros [k v]. rewrite elem_of_map_to_list, map_lookup_filter_Some, list_elem_of_filter, elem_of_map_to_list.
    naive_solver.
Qed.
