(* ===== verification/GoStrings.v ===== *)
(** * The Go standard library on strings, as far as the program uses it

    A Go string is a sequence of bytes: [string] of the Standard Library, whose
    characters are the bytes.  Package [strings], [strconv.Itoa] and
    [strconv.Atoi], [path.Clean] and the pieces of [unicode/utf8] the code
    calls. *)

From S2P Require Import Prelude.

(** ** Slicing: [s[n:]], [s[:n]], [s[i]] *)

Definition newline : ascii := "010"%char.

Fixpoint sdrop (n : nat) (s : string) : string :=
  match n, s with
  | O, _ => s
  | S _, EmptyString => EmptyString
  | S n, String _ s => sdrop n s
  end.

Fixpoint stake (n : nat) (s : string) : string :=
  match n, s with
  | O, _ => EmptyString
  | S _, EmptyString => EmptyString
  | S n, String c s => String c (stake n s)
  end.

Fixpoint srev_onto (s acc : string) : string :=
  match s with
  | EmptyString => acc
  | String c s => srev_onto s (String c acc)
  end.
Definition srev (s : string) : string := srev_onto s EmptyString.

Definition bytes_of (l : list nat) : string :=
  string_of_list_ascii (map ascii_of_nat l).

(** ** Prefixes, suffixes, search *)

Definition hasPrefix (s p : string) : bool := String.prefix p s.

Definition trimPrefix (s p : string) : string :=
  if hasPrefix s p then sdrop (String.length p) s else s.

Definition hasSuffix (s p : string) : bool :=
  (String.length p <=? String.length s)%nat &&
  (sdrop (String.length s - String.length p) s ==s p).

Definition trimSuffix (s p : string) : string :=
  if hasSuffix s p then stake (String.length s - String.length p) s else s.

Fixpoint indexByte (s : string) (c : ascii) : option nat :=
  match s with
  | EmptyString => None
  | String d s => if Ascii.eqb d c then Some 0%nat else S <$> indexByte s c
  end.

Fixpoint lastIndexByte (s : string) (c : ascii) : option nat :=
  match s with
  | EmptyString => None
  | String d s =>
      match lastIndexByte s c with
      | Some i => Some (S i)
      | None => if Ascii.eqb d c then Some 0%nat else None
      end
  end.

(** [strings.IndexAny] for a set of ASCII characters. *)
Fixpoint indexAny (s chars : string) : option nat :=
  match s with
  | EmptyString => None
  | String d s =>
      if existsb (Ascii.eqb d) (list_ascii_of_string chars) then Some 0%nat
      else S <$> indexAny s chars
  end.

Definition containsAny (s chars : string) : bool :=
  match indexAny s chars with Some _ => true | None => false end.

Fixpoint contains (s sub : string) : bool :=
  String.prefix sub s ||
  match s with
  | EmptyString => false
  | String _ s => contains s sub
  end.

(** [strings.Count] of a one-byte substring. *)
Fixpoint countByte (s : string) (c : ascii) : nat :=
  match s with
  | EmptyString => 0
  | String d s => (if Ascii.eqb d c then 1 else 0) + countByte s c
  end.

(** [strings.ReplaceAll] of a one-byte substring. *)
Fixpoint replaceByte (s : string) (c : ascii) (by_ : string) : string :=
  match s with
  | EmptyString => EmptyString
  | String d s => if Ascii.eqb d c then by_ +:+ replaceByte s c by_ else String d (replaceByte s c by_)
  end.

(** [strings.Split] and [strings.SplitN] at a one-byte separator. *)
Fixpoint splitByte (s : string) (c : ascii) : list string :=
  match s with
  | EmptyString => [""]
  | String d s =>
      if Ascii.eqb d c then "" :: splitByte s c
      else match splitByte s c with
           | [] => [String d ""]
           | w :: ws => String d w :: ws
           end
  end.

(** [n] pieces at most, as [SplitN(s, sep, n)] for [n > 0]. *)
Fixpoint splitByteN (n : nat) (s : string) (c : ascii) : list string :=
  match n with
  | O => []
  | S O => [s]
  | S n' =>
      match indexByte s c with
      | None => [s]
      | Some i => stake i s :: splitByteN n' (sdrop (S i) s) c
      end
  end.

(** [strings.Cut] at a one-byte separator: before, after, found. *)
Definition cutByte (s : string) (c : ascii) : string * string * bool :=
  match indexByte s c with
  | None => (s, "", false)
  | Some i => (stake i s, sdrop (S i) s, true)
  end.

Fixpoint join (l : list string) (sep : string) : string :=
  match l with
  | [] => ""
  | [a] => a
  | a :: l => a +:+ sep +:+ join l sep
  end.

(** [strings.FieldsFunc]: the maximal runs of characters [f] is false on. *)
Fixpoint fieldsFunc_aux (s : string) (f : ascii -> bool) (cur : string) : list string :=
  match s with
  | EmptyString => if cur ==s "" then [] else [srev cur]
  | String c s =>
      if f c then (if cur ==s "" then [] else [srev cur]) ++ fieldsFunc_aux s f ""
      else fieldsFunc_aux s f (String c cur)
  end.
Definition fieldsFunc (s : string) (f : ascii -> bool) : list string := fieldsFunc_aux s f "".

(** ** White space: [strings.TrimSpace]

    [unicode.IsSpace] in UTF-8: the ASCII spaces, U+0085, U+00A0, U+1680,
    U+2000 to U+200A, U+2028, U+2029, U+202F, U+205F and U+3000.  A string
    starts (ends) with a space rune exactly when it starts (ends) with one of
    these encodings. *)
Definition space_encodings : list string :=
  map bytes_of
    ([[9]; [10]; [11]; [12]; [13]; [32]; [194; 133]; [194; 160]; [225; 154; 128]]
     ++ map (fun k => [226; 128; k]) (seq 128 11)
     ++ [[226; 128; 168]; [226; 128; 169]; [226; 128; 175]; [226; 129; 159]; [227; 128; 128]])%nat.

Fixpoint strip_any (fuel : nat) (encs : list string) (s : string) : string :=
  match fuel with
  | O => s
  | S fuel =>
      match find (fun e => String.prefix e s) encs with
      | Some e => strip_any fuel encs (sdrop (String.length e) s)
      | None => s
      end
  end.

Definition trimLeftSpace (s : string) : string :=
  strip_any (String.length s) space_encodings s.
Definition trimRightSpace (s : string) : string :=
  srev (strip_any (String.length s) (map srev space_encodings) (srev s)).
Definition trimSpace (s : string) : string := trimRightSpace (trimLeftSpace s).

(** [strings.TrimRight] for a set of ASCII characters. *)
Fixpoint trimLeftAny (s cutset : string) : string :=
  match s with
  | String d s' => if existsb (Ascii.eqb d) (list_ascii_of_string cutset) then trimLeftAny s' cutset else s
  | EmptyString => EmptyString
  end.
Definition trimRightAny (s cutset : string) : string := srev (trimLeftAny (srev s) cutset).

(** [strings.CutPrefix]: what follows the prefix, if it is there. *)
Definition cutPrefix (s p : string) : option string :=
  if hasPrefix s p then Some (sdrop (String.length p) s) else None.

(** [strings.TrimLeft(s, "\t")]. *)
Fixpoint trimLeftByte (s : string) (c : ascii) : string :=
  match s with
  | String d s' => if Ascii.eqb d c then trimLeftByte s' c else s
  | EmptyString => EmptyString
  end.

(** ** Characters *)

Definition byte_in (c : ascii) (lo hi : ascii) : bool :=
  (nat_of_ascii lo <=? nat_of_ascii c)%nat && (nat_of_ascii c <=? nat_of_ascii hi)%nat.
Definition is_digit (c : ascii) : bool := byte_in c "0" "9".
Definition is_lower (c : ascii) : bool := byte_in c "a" "z".
Definition is_upper (c : ascii) : bool := byte_in c "A" "Z".
Definition is_letter (c : ascii) : bool := is_lower c || is_upper c.
Definition is_alnum (c : ascii) : bool := is_letter c || is_digit c.

(** [utf8.RuneStart]. *)
Definition runeStart (c : ascii) : bool :=
  negb (Z.land (Z.of_nat (nat_of_ascii c)) 192 =? 128).

(** [for cut > 0 && !utf8.RuneStart(s[cut]) { cut-- }]. *)
Fixpoint cut_back (s : string) (cut : nat) : nat :=
  match cut with
  | O => O
  | S cut' =>
      match String.get cut s with
      | Some c => if runeStart c then cut else cut_back s cut'
      | None => cut
      end
  end.

(** [strings.ToLower], [strings.ToUpper] and [strings.EqualFold], as far as a
    text of ASCII characters can tell their result: beside the letters of
    ASCII, the few runes whose lower case, upper case or simple folding is one
    ([special], by their encodings). *)
Definition ascii_lower (c : ascii) : ascii :=
  if is_upper c then ascii_of_nat (nat_of_ascii c + 32) else c.
Definition ascii_upper (c : ascii) : ascii :=
  if is_lower c then ascii_of_nat (nat_of_ascii c - 32) else c.
Fixpoint rune_map (one : ascii -> ascii) (special : list (string * ascii)) (skip : nat) (s : string) : string :=
  match s with
  | EmptyString => EmptyString
  | String c s' =>
      match skip with
      | S skip => rune_map one special skip s'
      | O =>
          match find (fun e => String.prefix e.1 s) special with
          | Some e => String e.2 (rune_map one special (String.length e.1 - 1) s')
          | None => String (one c) (rune_map one special 0 s')
          end
      end
  end.
Definition ToLower (s : string) : string :=
  rune_map ascii_lower [(bytes_of [196; 176], "i"%char); (bytes_of [226; 132; 170], "k"%char)]%nat 0 s.
Definition ToUpper (s : string) : string :=
  rune_map ascii_upper [(bytes_of [196; 177], "I"%char); (bytes_of [197; 191], "S"%char)]%nat 0 s.
Definition fold_case (s : string) : string :=
  rune_map ascii_lower [(bytes_of [226; 132; 170], "k"%char); (bytes_of [197; 191], "s"%char)]%nat 0 s.
Definition EqualFold (s t : string) : bool := fold_case s ==s fold_case t.

(** [sort.Strings]: bytewise. *)
Definition str_le (a b : string) : Prop := String.leb a b = true.
#[export] Instance str_le_dec : RelDecision str_le := fun a b => decide (String.leb a b = true).
Definition sort_Strings (l : list string) : list string := merge_sort str_le l.

(** ** Numbers: [strconv.Itoa], [strconv.Atoi] *)

Definition digit_char (d : Z) : ascii := ascii_of_nat (Z.to_nat (48 + d)).

(** The digits of [n >= 0] before [acc]; [fuel] bounds the number of them. *)
Fixpoint dec_go (fuel : nat) (n : Z) (acc : string) : string :=
  match fuel with
  | O => acc
  | S fuel =>
      let acc := String (digit_char (n mod 10)) acc in
      if n <? 10 then acc else dec_go fuel (n / 10) acc
  end.
Definition dec (n : Z) : string := dec_go (S (Z.to_nat (Z.log2 n))) n "".

Definition itoa (z : Z) : string := if z <? 0 then "-" +:+ dec (- z) else dec z.

Definition digit_val (c : ascii) : Z := Z.of_nat (nat_of_ascii c) - 48.

Fixpoint digits_val (s : string) (acc : Z) : option Z :=
  match s with
  | EmptyString => Some acc
  | String c s => if is_digit c then digits_val s (acc * 10 + digit_val c) else None
  end.

(** [strconv.Atoi]: an optional sign, then digits, in the range of a 64-bit
    [int]. *)
Definition atoi (s : string) : option Z :=
  let mag '(neg, body) :=
    if body ==s "" then None
    else match digits_val body 0 with
         | None => None
         | Some n =>
             let v := if neg : bool then - n else n in
             if (- 2 ^ 63 <=? v) && (v <? 2 ^ 63) then Some v else None
         end in
  match s with
  | String "-" b => mag (true, b)
  | String "+" b => mag (false, b)
  | _ => mag (false, s)
  end.

(** ** [path.Clean], [path.IsAbs]

    The documented rules on the elements between slashes: empty elements and
    [.] go, an inner [..] takes the element before it with it, a [..] at the
    root goes, and nothing left is [.]. *)
Fixpoint clean_elems (rooted : bool) (out : list string) (elems : list string) : list string :=
  match elems with
  | [] => rev out
  | e :: elems =>
      if (e ==s "") || (e ==s ".") then clean_elems rooted out elems
      else if e ==s ".." then
        match out with
        | [] => clean_elems rooted (if rooted then [] else [".."]) elems
        | o :: out' =>
            if o ==s ".." then clean_elems rooted (".." :: out) elems
            else clean_elems rooted out' elems
        end
      else clean_elems rooted (e :: out) elems
  end.

Definition isAbs (p : string) : bool := hasPrefix p "/".

Definition path_Clean (p : string) : string :=
  let rooted := isAbs p in
  let body := join (clean_elems rooted [] (splitByte p "/")) "/" in
  if rooted then "/" +:+ body
  else if body ==s "" then "." else body.

(** [filepath.Dir], [filepath.Base] and [filepath.Join] on Linux. *)
Definition path_Dir (p : string) : string :=
  path_Clean (match lastIndexByte p "/" with Some i => stake (S i) p | None => "" end).
Definition path_Base (p : string) : string :=
  if p ==s "" then "."
  else
    let p := trimRightAny p "/" in
    let b := match lastIndexByte p "/" with Some i => sdrop (S i) p | None => p end in
    if b ==s "" then "/" else b.
Fixpoint path_Join (l : list string) : string :=
  match l with
  | [] => ""
  | e :: l' => if e ==s "" then path_Join l' else path_Clean (join l "/")
  end.

(** ** Lemmas *)

Lemma sapp_assoc (a b c : string) : (a +:+ b) +:+ c = a +:+ (b +:+ c).
Proof. induction a as [|x a IH]; simpl; [done|]. by f_equal. Qed.

Lemma sapp_nil_r (a : string) : a +:+ "" = a.
Proof. induction a as [|x a IH]; simpl; [done|]. by f_equal. Qed.

Lemma slength_app (a b : string) :
  String.length (a +:+ b) = (String.length a + String.length b)%nat.
Proof. induction a as [|x a IH]; simpl; [done|]. by rewrite IH. Qed.

Lemma sdrop_app (a b : string) : sdrop (String.length a) (a +:+ b) = b.
Proof. by induction a. Qed.

Lemma sdrop_0 s : sdrop 0 s = s.
Proof. by destruct s. Qed.

Lemma stake_app (a b : string) : stake (String.length a) (a +:+ b) = a.
Proof. induction a as [|x a IH]; simpl; [by destruct b|]. by f_equal. Qed.

Lemma stake_sdrop n s : stake n s +:+ sdrop n s = s.
Proof.
  revert n; induction s as [|c s IH]; intros [|n]; simpl; try done.
  by rewrite IH.
Qed.

Lemma hasPrefix_app (a b : string) : hasPrefix (a +:+ b) a = true.
Proof.
  unfold hasPrefix. induction a as [|x a IH]; simpl; [by destruct b|].
  by destruct (ascii_dec x x).
Qed.

Lemma hasPrefix_spec s p : hasPrefix s p = true <-> exists t, s = p +:+ t.
Proof.
  split; [|intros [t ->]; apply hasPrefix_app].
  unfold hasPrefix. revert s. induction p as [|x p IH]; intros s H; [by exists s|].
  destruct s as [|y s]; simpl in H; [done|].
  destruct (ascii_dec x y) as [->|]; [|done].
  destruct (IH _ H) as [t ->]. by exists t.
Qed.

Lemma trimPrefix_app (p s : string) : trimPrefix (p +:+ s) p = s.
Proof. unfold trimPrefix. by rewrite hasPrefix_app, sdrop_app. Qed.

Lemma sapp_inj_l (p a b : string) : p +:+ a = p +:+ b -> a = b.
Proof. induction p as [|x p IH]; simpl; [done|]. intros [=]. auto. Qed.

#[export] Hint Rewrite sapp_assoc sapp_nil_r slength_app sdrop_app stake_app : go_rw.
#[export] Hint Resolve hasPrefix_app trimPrefix_app : go.

Lemma srev_onto_app s acc : srev_onto s acc = srev s +:+ acc.
Proof.
  unfold srev. revert acc. induction s as [|c s IH]; intros acc; simpl; [done|].
  rewrite IH, (IH (String c "")), sapp_assoc. done.
Qed.

Lemma srev_cons c s : srev (String c s) = srev s +:+ String c "".
Proof. unfold srev at 1. simpl. apply srev_onto_app. Qed.

Lemma srev_app a b : srev (a +:+ b) = srev b +:+ srev a.
Proof.
  induction a as [|c a IH]; simpl; [by rewrite sapp_nil_r|].
  by rewrite !srev_cons, IH, sapp_assoc.
Qed.

Lemma srev_involutive s : srev (srev s) = s.
Proof.
  induction s as [|c s IH]; [done|]. by rewrite srev_cons, srev_app, IH.
Qed.

Lemma indexByte_cons d s c : indexByte (String d s) c = if Ascii.eqb d c then Some 0%nat else S <$> indexByte s c.
Proof. simpl. destruct (Ascii.eqb d c); [done|]. by destruct (indexByte s c). Qed.
Lemma indexByte_app a b c : indexByte a c = None -> indexByte b c = None -> indexByte (a +:+ b) c = None.
Proof.
  induction a as [|d a IH]; [done|]. simpl "+:+". rewrite !indexByte_cons. destruct (Ascii.eqb d c); [done|].
  intros Ha Hb. by rewrite IH by (done || by destruct (indexByte a c)).
Qed.

Lemma indexByte_Some s c i :
  indexByte s c = Some i ->
  s = stake i s +:+ String c (sdrop (S i) s) /\ indexByte (stake i s) c = None.
Proof.
  revert i; induction s as [|d s IH]; intros i H; simpl in *; [done|].
  destruct (Ascii.eqb d c) eqn:E.
  - apply Ascii.eqb_eq in E as ->. injection H as <-. by destruct s.
  - destruct (indexByte s c) as [j|]; simplify_eq/=.
    destruct (IH j eq_refl) as [H1 H2]. split; [by f_equal|]. by rewrite E, H2.
Qed.

Lemma indexByte_app_None a c s :
  indexByte a c = None -> indexByte (a +:+ String c s) c = Some (String.length a).
Proof.
  induction a as [|d a IH]; simpl; intros H.
  - by rewrite Ascii.eqb_refl.
  - destruct (Ascii.eqb d c); [done|]. destruct (indexByte a c); [done|].
    by rewrite IH.
Qed.

(** ** Decimal digits *)

Lemma digit_char_spec d :
  0 <= d < 10 -> is_digit (digit_char d) = true /\ digit_val (digit_char d) = d.
Proof.
  intros H. unfold digit_char.
  assert (d ∈ seqZ 0 10) as Hd by (apply elem_of_seqZ; lia).
  repeat (apply elem_of_cons in Hd as [->|Hd]; [by vm_compute|]).
  by apply elem_of_nil in Hd.
Qed.

(** [dec_go] puts at least one digit before [acc], and reading them back, most
    significant first, rebuilds [n]. *)
Lemma dec_go_length fuel n acc :
  (String.length acc < String.length (dec_go (S fuel) n acc))%nat.
Proof.
  revert n acc. induction fuel as [|fuel IH]; intros n acc.
  - simpl. destruct (n <? 10); simpl; lia.
  - change (dec_go (S (S fuel)) n acc) with
      (let acc := String (digit_char (n mod 10)) acc in
       if n <? 10 then acc else dec_go (S fuel) (n / 10) acc).
    simpl. destruct (n <? 10); simpl; [lia|].
    etrans; [|apply IH]. simpl. lia.
Qed.

Lemma dec_go_fuel fuel n acc :
  0 <= n < 2 ^ Z.of_nat fuel -> 0 < n ->
  forall fuel', (fuel <= fuel')%nat -> dec_go fuel' n acc = dec_go fuel n acc.
Proof.
  revert n acc. induction fuel as [|fuel IH]; intros n acc Hn Hp fuel' Hf; [lia|].
  destruct fuel' as [|fuel']; [lia|]. simpl.
  destruct (n <? 10) eqn:E; go_bools; [done|].
  apply IH; [|apply Z.div_str_pos; lia|lia].
  rewrite Nat2Z.inj_succ, Z.pow_succ_r in Hn by lia. split; [apply Z.div_pos; lia|].
  apply Z.div_lt_upper_bound; lia.
Qed.

(** ** Lengths, characters and cuts *)

Lemma stake_length n s : String.length (stake n s) = (n `min` String.length s)%nat.
Proof. revert n. induction s as [|c s IH]; intros [|n]; simpl; try done. by rewrite IH. Qed.

Lemma sdrop_length n s : String.length (sdrop n s) = (String.length s - n)%nat.
Proof. revert n. induction s as [|c s IH]; intros [|n]; simpl; auto. Qed.

Lemma sdrop_sdrop n m s : sdrop n (sdrop m s) = sdrop (m + n) s.
Proof. revert m. induction s as [|c s IH]; intros [|m]; simpl; auto; by destruct n. Qed.

Lemma stake_all n s : (String.length s <= n)%nat -> stake n s = s.
Proof. revert n. induction s as [|c s IH]; intros [|n] H; simpl in *; try done; [lia|]. rewrite IH; [done|lia]. Qed.

Lemma stake_stake n m s : (n <= m)%nat -> stake n (stake m s) = stake n s.
Proof.
  revert n m. induction s as [|c s IH]; intros [|n] [|m] H; simpl; try done; [lia|]. rewrite IH; [done|lia].
Qed.

Lemma sget_sdrop i n s : String.get i (sdrop n s) = String.get (n + i) s.
Proof. revert n. induction s as [|c s IH]; intros [|n]; simpl; auto; by destruct i. Qed.

Lemma sget_stake i n s : (i < n)%nat -> String.get i (stake n s) = String.get i s.
Proof.
  revert i n. induction s as [|c s IH]; intros i [|n] H; simpl; try lia; [done|]. destruct i; [done|]. apply IH. lia.
Qed.

Lemma sget_lt i s c : String.get i s = Some c -> (i < String.length s)%nat.
Proof. revert i. induction s as [|d s IH]; intros [|i] H; simpl in *; try done; [lia|]. apply IH in H. lia. Qed.

Lemma sget_some i s : (i < String.length s)%nat -> is_Some (String.get i s).
Proof. revert i. induction s as [|d s IH]; intros [|i] H; simpl in *; try lia; [eauto|]. apply IH. lia. Qed.

(** The last occurrence of a byte. *)
Lemma lastIndexByte_spec s c :
  match lastIndexByte s c with
  | Some i => String.get i s = Some c
  | None => forall i, String.get i s <> Some c
  end.
Proof.
  induction s as [|d s IH]; simpl; [by intros [|i]|]. destruct (lastIndexByte s c) as [i|]; [done|].
  destruct (Ascii.eqb d c) eqn:E; [by apply Ascii.eqb_eq in E as ->|]. apply Ascii.eqb_neq in E.
  intros [|i]; simpl; [congruence|apply IH].
Qed.

(** The cut goes back to a character's first byte, or to the start. *)
Lemma cut_back_spec s cut :
  (cut < String.length s)%nat ->
  (cut_back s cut <= cut)%nat /\
  (cut_back s cut = 0%nat \/ exists c, String.get (cut_back s cut) s = Some c /\ runeStart c = true) /\
  forall i c, (cut_back s cut < i <= cut)%nat -> String.get i s = Some c -> runeStart c = false.
Proof.
  induction cut as [|cut IH]; intros Hl; cbn [cut_back].
  { split_and!; [lia|by left|lia]. }
  destruct (String.get (S cut) s) as [c|] eqn:Eg; [destruct (runeStart c) eqn:Er|].
  - split_and!; [lia|right; eauto|lia].
  - destruct IH as (H1 & H2 & H3); [lia|]. split_and!; [lia|done|]. intros i c' Hi Hc.
    destruct (decide (i = S cut)) as [->|]; [congruence|]. apply (H3 i); [lia|done].
  - destruct (sget_some (S cut) s Hl). congruence.
Qed.

(** ** Sorted texts *)

#[export] Instance str_le_trans : Transitive str_le.
Proof. intros a b c H1%Is_true_true H2%Is_true_true. apply Is_true_true. by etrans. Qed.
#[export] Instance str_le_antisym : AntiSymm (=) str_le.
Proof. intros a b. apply String.leb_antisym. Qed.
#[export] Instance str_le_total : Total str_le.
Proof. intros a b. apply String.leb_total. Qed.

(** Sorting forgets the order. *)
Lemma sort_Strings_perm l l' : l ≡ₚ l' -> sort_Strings l = sort_Strings l'.
Proof.
  intros H. apply (Sorted_unique str_le); [apply Sorted_merge_sort, _..|].
  unfold sort_Strings. by rewrite !merge_sort_Permutation.
Qed.

Lemma hasSuffix_split s p : hasSuffix s p = true -> exists t, s = t +:+ p.
Proof.
  unfold hasSuffix. intros H. go_bools. exists (stake (String.length s - String.length p) s).
  rewrite <-H0 at 2. by rewrite stake_sdrop.
Qed.

Lemma hasSuffix_app t p : hasSuffix (t +:+ p) p = true.
Proof.
  unfold hasSuffix. rewrite slength_app.
  replace (String.length t + String.length p - String.length p)%nat with (String.length t) by lia.
  rewrite sdrop_app, String.eqb_refl, andb_true_r. apply Nat.leb_le. lia.
Qed.

Lemma trimSuffix_app t p : trimSuffix (t +:+ p) p = t.
Proof.
  unfold trimSuffix. rewrite hasSuffix_app, slength_app.
  replace (String.length t + String.length p - String.length p)%nat with (String.length t) by lia.
  apply stake_app.
Qed.

Lemma list_ascii_app a b : list_ascii_of_string (a +:+ b) = list_ascii_of_string a ++ list_ascii_of_string b.
Proof. induction a as [|c a IH]; [done|]. simpl. by rewrite IH. Qed.
