(* ===== verification/ApiCodes.v ===== *)
(** * The error codes the components answer with (internal/api/response/errors.go) *)

From S2P Require Import Prelude.

Definition ErrInvalidRequest : string := "INVALID_REQUEST".
Definition ErrInternalError : string := "INTERNAL_ERROR".
Definition ErrDBError : string := "DB_ERROR".
Definition ErrInvalidName : string := "INVALID_NAME".
Definition ErrPermissionDenied : string := "PERMISSION_DENIED".
Definition ErrServiceProtected : string := "SERVICE_PROTECTED".
Definition ErrServiceConfirmRequired : string := "SERVICE_CONFIRM_REQUIRED".
Definition ErrTaskJobClusterOnly : string := "TASK_JOB_CLUSTER_ONLY".
Definition ErrTaskNodeBusy : string := "TASK_NODE_BUSY".
Definition ErrTaskJobNotFound : string := "TASK_JOB_NOT_FOUND".
Definition ErrTaskJobRunning : string := "TASK_JOB_RUNNING".
Definition ErrTaskRebootPVEHost : string := "TASK_REBOOT_PVE_HOST".
Definition ErrTaskRebootUnsupported : string := "TASK_REBOOT_UNSUPPORTED".
Definition ErrAgentInstallLeaderChanged : string := "AGENT_INSTALL_LEADER_CHANGED".
Definition ErrInvalidPath : string := "INVALID_PATH".
Definition ErrFileError : string := "FILE_ERROR".
Definition ErrInvalidPackageName : string := "INVALID_PACKAGE_NAME".
Definition ErrInvalidYAML : string := "INVALID_YAML".
Definition ErrComposeError : string := "COMPOSE_ERROR".
Definition ErrComposeRisky : string := "COMPOSE_RISKY".
Definition ErrComposeForbidden : string := "COMPOSE_FORBIDDEN".
Definition ErrDockerUnavailable : string := "DOCKER_UNAVAILABLE".
Definition ErrUpdateInProgress : string := "UPDATE_IN_PROGRESS".
Definition ErrClusterAgentAuthFailed : string := "CLUSTER_AGENT_AUTH_FAILED".
Definition ErrClusterNodeUnreachable : string := "CLUSTER_NODE_UNREACHABLE".
Definition ErrClusterCARotating : string := "CLUSTER_CA_ROTATING".
Definition ErrTaskRunActive : string := "TASK_RUN_ACTIVE".
Definition ErrAgentInstallActive : string := "AGENT_INSTALL_ACTIVE".
Definition ErrAgentInstallNotRerunnable : string := "AGENT_INSTALL_NOT_RERUNNABLE".
Definition ErrAgentInstallLogGone : string := "AGENT_INSTALL_LOG_GONE".
Definition ErrTaskInvalid : string := "TASK_INVALID".
Definition ErrTaskTooLarge : string := "TASK_TOO_LARGE".
Definition ErrTaskNameTaken : string := "TASK_NAME_TAKEN".
Definition ErrTaskNotFound : string := "TASK_NOT_FOUND".
Definition ErrTaskRunNotFound : string := "TASK_RUN_NOT_FOUND".
Definition ErrTaskReadOnly : string := "TASK_READ_ONLY".
Definition ErrTaskManagersNotReady : string := "TASK_MANAGERS_NOT_READY".
Definition ErrTaskInputMissing : string := "TASK_INPUT_MISSING".
Definition ErrTaskNoTargets : string := "TASK_NO_TARGETS".
Definition ErrTaskTooManyTargets : string := "TASK_TOO_MANY_TARGETS".
Definition ErrTaskTargetBusy : string := "TASK_TARGET_BUSY".
Definition ErrTaskPlanChanged : string := "TASK_PLAN_CHANGED".
Definition ErrTaskRebootBusy : string := "TASK_REBOOT_BUSY".
Definition ErrTaskClusterChanging : string := "TASK_CLUSTER_CHANGING".
Definition ErrMissingFields : string := "MISSING_FIELDS".
Definition ErrRateLimited : string := "RATE_LIMITED".
Definition ErrInvalidCredentials : string := "INVALID_CREDENTIALS".
Definition ErrTOTPRequired : string := "TOTP_REQUIRED".
Definition ErrInvalidTOTP : string := "INVALID_TOTP".
Definition ErrTokenError : string := "TOKEN_ERROR".
Definition ErrInvalidToken : string := "INVALID_TOKEN".
Definition ErrNoUser : string := "NO_USER".
Definition ErrUserNotFound : string := "USER_NOT_FOUND".
Definition ErrInvalidPassword : string := "INVALID_PASSWORD".
Definition ErrWeakPassword : string := "WEAK_PASSWORD".
Definition ErrHashError : string := "HASH_ERROR".
Definition ErrAlreadySetup : string := "ALREADY_SETUP".
Definition ErrMissingToken : string := "MISSING_TOKEN".
Definition ErrTOTPError : string := "TOTP_ERROR".
Definition ErrCSRFTokenMissing : string := "CSRF_TOKEN_MISSING".
Definition ErrCSRFTokenMismatch : string := "CSRF_TOKEN_MISMATCH".
