(* ===== verification/PathFacts.v ===== *)
(** * Paths as the kernel reads them

    A path is its elements between slashes; [walk] follows them as the kernel
    does where nothing is a link.  [path.Clean] of an absolute path writes out
    where it leads, so two spellings of a directory clean alike. *)

From S2P Require Import Prelude GoStrings.

Definition slash : ascii := "/".
Definition elems (p : string) : list string := splitByte p slash.

(** One element followed from [cur]. *)
Definition walk_step (cur : list string) (e : string) : list string :=
  if (e ==s "") || (e ==s ".") then cur
  else if e ==s ".." then removelast cur
  else cur ++ [e].
Definition walk (cur es : list string) : list string := fold_left walk_step es cur.
(** Where an absolute path leads. *)
Definition place (p : string) : list string := walk [] (elems p).
(** A place written out. *)
Definition spell (l : list string) : string := "/" +:+ join l "/".

(** An element of a place. *)
Definition plain_elem (e : string) : Prop := e <> "" /\ e <> "." /\ e <> ".." /\ indexByte e slash = None.

Lemma splitByte_noslash s c : indexByte s c = None -> splitByte s c = [s].
Proof.
  induction s as [|d s IH]; [done|]. rewrite indexByte_cons. simpl. destruct (Ascii.eqb d c); [done|].
  intros H. rewrite IH; [done|]. by destruct (indexByte s c).
Qed.

Lemma splitByte_app s c t : splitByte (s +:+ String c t) c = splitByte s c ++ splitByte t c.
Proof.
  induction s as [|d s IH]; simpl; [by rewrite Ascii.eqb_refl|]. destruct (Ascii.eqb d c); [by rewrite IH|].
  rewrite IH. by destruct (splitByte s c) eqn:E; [destruct s; simpl in E; repeat case_match|].
Qed.

Lemma splitByte_elem s c e : e ∈ splitByte s c -> indexByte e c = None.
Proof.
  revert e. induction s as [|d s IH]; intros e; simpl; [by intros ->%list_elem_of_singleton|].
  destruct (Ascii.eqb d c) eqn:E; [intros [->|?]%elem_of_cons; [done|auto]|].
  destruct (splitByte s c) as [|w ws]; intros [->|He]%elem_of_cons.
  - simpl. by rewrite E.
  - by apply elem_of_nil in He.
  - rewrite indexByte_cons, E. by rewrite (IH w (list_elem_of_here _ _)).
  - apply IH. by right.
Qed.

Lemma join_cons e l : l <> [] -> join (e :: l) "/" = e +:+ String slash (join l "/").
Proof. by destruct l. Qed.

Lemma elems_join l : l <> [] -> Forall (fun e => indexByte e slash = None) l -> elems (join l "/") = l.
Proof.
  unfold elems. induction l as [|e l IH]; [done|]. intros _ [He Hl]%Forall_cons.
  destruct (decide (l = [])) as [->|Hne]; [by apply splitByte_noslash|].
  rewrite join_cons by done. rewrite splitByte_app, IH by done. by rewrite splitByte_noslash.
Qed.

Lemma plain_elems_slash l : Forall plain_elem l -> Forall (fun e => indexByte e slash = None) l.
Proof. intros H. eapply Forall_impl; [exact H|]. by intros e (_ & _ & _ & ?). Qed.

Lemma spell_inj l1 l2 : Forall plain_elem l1 -> Forall plain_elem l2 -> spell l1 = spell l2 -> l1 = l2.
Proof.
  intros H1 H2 [= E]. pose proof (plain_elems_slash _ H1) as P1. pose proof (plain_elems_slash _ H2) as P2.
  assert (Hnil : forall l, Forall plain_elem l -> join l "/" = "" -> l = []).
  { intros [|e l] Hl Hj; [done|]. apply Forall_cons in Hl as [(Hne & _) _].
    destruct l; [done|]. rewrite join_cons in Hj by done. by destruct e. }
  destruct (decide (l1 = [])) as [->|N1]; [simpl in E; by rewrite (Hnil l2)|].
  destruct (decide (l2 = [])) as [->|N2]; [simpl in E; by rewrite (Hnil l1)|].
  rewrite <-(elems_join l1), <-(elems_join l2), E by done. done.
Qed.

(** ** Cleaning is walking *)

Lemma walk_plain cur es :
  Forall plain_elem cur -> Forall (fun e => indexByte e slash = None) es -> Forall plain_elem (walk cur es).
Proof.
  revert cur. induction es as [|e es IH]; intros cur Hc He; [done|]. apply Forall_cons in He as [He Hes].
  apply IH; [|done]. unfold walk_step. destruct (e ==s "") eqn:E1; [done|]. destruct (e ==s ".") eqn:E2; [done|].
  destruct (e ==s "..") eqn:E3; go_bools; simpl.
  - destruct cur as [|x cur _] using rev_ind; [done|]. rewrite removelast_last. by apply Forall_app in Hc as [? _].
  - apply Forall_app. split; [done|]. by repeat constructor.
Qed.

Lemma place_plain p : Forall plain_elem (place p).
Proof. apply walk_plain; [constructor|]. apply Forall_forall. intros e. apply splitByte_elem. Qed.

Lemma clean_elems_walk out es :
  Forall plain_elem out -> Forall (fun e => indexByte e slash = None) es ->
  clean_elems true out es = walk (rev out) es.
Proof.
  revert out. induction es as [|e es IH]; intros out Ho He; [done|]. apply Forall_cons in He as [He Hes].
  cbn [clean_elems]. change (walk (rev out) (e :: es)) with (walk (walk_step (rev out) e) es). unfold walk_step.
  destruct (e ==s "") eqn:E1; [by apply IH|]. destruct (e ==s ".") eqn:E2; [by apply IH|].
  destruct (e ==s "..") eqn:E3; simpl.
  - destruct out as [|o out]; [by rewrite (IH [])|]. apply Forall_cons in Ho as [(_ & _ & Hdd & _) Ho].
    apply String.eqb_neq in Hdd. rewrite Hdd. simpl. rewrite removelast_last. by apply IH.
  - go_bools. rewrite IH; [done| |done]. by repeat constructor.
Qed.

Lemma path_Clean_place p : isAbs p = true -> path_Clean p = spell (place p).
Proof.
  intros Ha. unfold path_Clean. rewrite Ha, clean_elems_walk; [done|constructor|].
  apply Forall_forall. intros e. apply splitByte_elem.
Qed.

Lemma elems_spell l : l <> [] -> Forall plain_elem l -> elems (spell l) = "" :: l.
Proof.
  intros Hne Hl. unfold spell, elems. change ("/" +:+ join l "/") with ("" +:+ String slash (join l "/")).
  rewrite splitByte_app. simpl. f_equal. apply elems_join; [done|by apply plain_elems_slash].
Qed.

Lemma walk_plain_id cur l : Forall plain_elem l -> walk cur l = cur ++ l.
Proof.
  revert cur. induction l as [|e l IH]; intros cur Hl; [by rewrite app_nil_r|].
  apply Forall_cons in Hl as [(H1 & H2 & H3 & _) Hl]. change (walk cur (e :: l)) with (walk (walk_step cur e) l).
  unfold walk_step. apply String.eqb_neq in H1, H2, H3. rewrite H1, H2, H3. simpl. rewrite IH by done.
  by rewrite <-app_assoc.
Qed.

Lemma place_spell l : Forall plain_elem l -> place (spell l) = l.
Proof.
  intros Hl. destruct (decide (l = [])) as [->|Hne]; [done|]. unfold place. rewrite elems_spell by done.
  change (walk [] ("" :: l)) with (walk [] l). by apply walk_plain_id.
Qed.

(** ** Directories *)

(** [clean == b] or a path under it, on places. *)
Lemma spell_under l b :
  Forall plain_elem l -> Forall plain_elem b -> b <> [] ->
  (spell l ==s spell b) || hasPrefix (spell l) (spell b +:+ "/") = true <-> b `prefix_of` l.
Proof.
  intros Hl Hb Hne. rewrite orb_true_iff, String.eqb_eq. split.
  - intros [E|[t E]%hasPrefix_spec]; [assert (l = b) as -> by (by apply spell_inj); done|].
    rewrite sapp_assoc in E. assert (El : elems (spell l) = elems (spell b) ++ elems t).
    { rewrite E. apply splitByte_app. }
    destruct (decide (l = [])) as [->|Hln].
    { exfalso. unfold spell in E. simpl in E. apply (f_equal String.length) in E. simpl in E.
      rewrite slength_app in E. destruct b as [|e b]; [done|]. apply Forall_cons in Hb as [(He & _) _].
      destruct b; [destruct e; [done|simpl in E; lia]|]. rewrite join_cons in E by done.
      rewrite slength_app in E. simpl in E. lia. }
    rewrite !elems_spell in El by done. simplify_eq/=. by exists (elems t).
  - intros [r ->]. destruct (decide (r = [])) as [->|Hr]; [left; by rewrite app_nil_r|right].
    apply hasPrefix_spec. exists (join r "/"). clear Hl. unfold spell. rewrite !sapp_assoc. f_equal.
    clear Hb. induction b as [|e b IH]; [done|]. destruct (decide (b = [])) as [->|Hbn].
    + simpl. by destruct r.
    + change ((e :: b) ++ r) with (e :: (b ++ r)). rewrite !join_cons; [|done|by destruct b].
      rewrite IH by done. by rewrite !sapp_assoc.
Qed.

(** ** Parents and last elements *)

Lemma plain_snoc l e : Forall plain_elem (l ++ [e]) <-> Forall plain_elem l /\ plain_elem e.
Proof. rewrite Forall_app, Forall_singleton. done. Qed.

Lemma lastIndexByte_last s e c : indexByte e c = None -> lastIndexByte (s +:+ String c e) c = Some (String.length s).
Proof.
  intros He. assert (Hn : lastIndexByte e c = None).
  { induction e as [|d e IH]; [done|]. rewrite indexByte_cons in He. simpl. destruct (Ascii.eqb d c); [done|].
    rewrite IH; [done|]. by destruct (indexByte e c). }
  induction s as [|d s IH]; simpl; [by rewrite Hn, Ascii.eqb_refl|by rewrite IH].
Qed.

(** A place's spelling, cut at its last element. *)
Definition stem (l : list string) : string := if l is [] then "" else spell l.
Lemma spell_snoc l e : spell (l ++ [e]) = stem l +:+ String slash e.
Proof.
  unfold stem. destruct l as [|a l]; [done|]. revert a. induction l as [|b l IH]; intros a; [done|].
  specialize (IH b). unfold spell in *. simpl app in *. rewrite !(join_cons a) by done.
  change ("/" +:+ a +:+ String slash (join (b :: l ++ [e]) "/"))
    with ("/" +:+ a +:+ ("/" +:+ join (b :: l ++ [e]) "/")). rewrite IH. by rewrite !sapp_assoc.
Qed.

Lemma isAbs_spell l : isAbs (spell l) = true.
Proof. apply hasPrefix_spec. by eexists. Qed.
Lemma path_Clean_spell l : Forall plain_elem l -> path_Clean (spell l) = spell l.
Proof. intros H. rewrite path_Clean_place by apply isAbs_spell. by rewrite place_spell. Qed.

Lemma place_app p e : isAbs p = true -> place (p +:+ String slash e) = walk (place p) (elems e).
Proof. intros _. unfold place, elems, slash. rewrite splitByte_app. unfold walk. by rewrite fold_left_app. Qed.
Lemma place_app_stem l e : Forall plain_elem l -> place (stem l +:+ String slash e) = walk l (elems e).
Proof.
  intros Hl. destruct l as [|a l]; [done|]. unfold stem. rewrite place_app by apply isAbs_spell. by rewrite place_spell.
Qed.
Lemma isAbs_stem l e : isAbs (stem l +:+ String slash e) = true.
Proof. destruct l; [apply hasPrefix_spec; by eexists|]. apply hasPrefix_spec. unfold stem, spell. rewrite sapp_assoc. by eexists. Qed.

Lemma path_Dir_spell l e : Forall plain_elem (l ++ [e]) -> path_Dir (spell (l ++ [e])) = spell l.
Proof.
  intros [Hl (_ & _ & _ & He)]%plain_snoc. unfold path_Dir. rewrite spell_snoc, lastIndexByte_last by done.
  replace (stake (S (String.length (stem l))) (stem l +:+ String slash e)) with (stem l +:+ String slash "").
  - rewrite path_Clean_place, place_app_stem by (done || apply isAbs_stem). done.
  - generalize (stem l). intros s. induction s as [|c s IH]; [done|]. simpl. f_equal. exact IH.
Qed.
Lemma path_Dir_removelast l : Forall plain_elem l -> path_Dir (spell l) = spell (removelast l).
Proof.
  destruct l as [|e l _] using rev_ind; [done|]. intros H. rewrite path_Dir_spell by done. by rewrite removelast_last.
Qed.

Lemma path_Join_spell l e : Forall plain_elem (l ++ [e]) -> path_Join [spell l; e] = spell (l ++ [e]).
Proof.
  intros H. pose proof H as [Hl (He & H1 & H2 & H3)]%plain_snoc. unfold path_Join. change (spell l ==s "") with false. cbv iota.
  change (join [spell l; e] "/") with (spell l +:+ "/" +:+ e). change ("/" +:+ e) with (String slash e).
  rewrite path_Clean_place, place_app by (apply hasPrefix_spec; unfold spell; rewrite ?sapp_assoc; by eexists).
  rewrite place_spell by done. unfold elems. rewrite splitByte_noslash by done. unfold walk, walk_step. simpl.
  apply String.eqb_neq in He, H1, H2. by rewrite He, H1, H2.
Qed.
Lemma path_Join_place p l : isAbs p = true -> Forall plain_elem l -> path_Join (p :: l) = spell (place p ++ l).
Proof.
  intros Ha Hl. assert (Hne : (p ==s "") = false) by (by destruct p). unfold path_Join. rewrite Hne.
  destruct (decide (l = [])) as [->|Hn]; [by rewrite app_nil_r; apply path_Clean_place|]. rewrite join_cons by done.
  assert (Ha' : isAbs (p +:+ String slash (join l "/")) = true).
  { apply hasPrefix_spec in Ha as [t ->]. apply hasPrefix_spec. rewrite sapp_assoc. by eexists. }
  rewrite path_Clean_place, place_app by done. rewrite elems_join by (done || by apply plain_elems_slash).
  by rewrite walk_plain_id.
Qed.
Lemma path_Join_one p : p <> "" -> path_Join [p] = path_Clean p.
Proof. intros H. unfold path_Join. apply String.eqb_neq in H. by rewrite H. Qed.

Lemma trimLeftAny_slash s c : Ascii.eqb c slash = false -> trimLeftAny (String c s) "/" = String c s.
Proof. intros H. simpl. unfold slash in H. by rewrite H. Qed.
Lemma srev_last e : e <> "" -> exists c t, srev e = String c t /\ e = srev t +:+ String c "".
Proof.
  intros H. destruct (srev e) as [|c t] eqn:E.
  - exfalso. apply H. rewrite <-(srev_involutive e), E. done.
  - exists c, t. split; [done|]. rewrite <-(srev_involutive e), E. apply srev_cons.
Qed.

Lemma trimRight_slash s e : e <> "" -> indexByte e slash = None -> trimRightAny (s +:+ e) "/" = s +:+ e.
Proof.
  intros Hne Hs. unfold trimRightAny. rewrite srev_app. destruct (srev_last e Hne) as (c & t & E & Ee). rewrite E.
  simpl "+:+". rewrite trimLeftAny_slash.
  - change (String c (t +:+ srev s)) with (String c t +:+ srev s). rewrite <-E, <-srev_app. apply srev_involutive.
  - rewrite Ee in Hs. destruct (Ascii.eqb c slash) eqn:Ec; [|done].
    apply Ascii.eqb_eq in Ec as ->. exfalso. revert Hs. generalize (srev t). intros u.
    induction u as [|d u IH]; [done|]. simpl "+:+". rewrite indexByte_cons. destruct (Ascii.eqb d slash); [done|].
    intros H. apply IH. by destruct (indexByte _ _).
Qed.

Lemma path_Base_spell l e : Forall plain_elem (l ++ [e]) -> path_Base (spell (l ++ [e])) = e.
Proof.
  intros [Hl (He & _ & _ & Hs)]%plain_snoc. unfold path_Base. rewrite spell_snoc.
  assert (Hne : (stem l +:+ String slash e ==s "") = false).
  { apply String.eqb_neq. intros E. apply (f_equal String.length) in E. rewrite slength_app in E. simpl in E. lia. }
  rewrite Hne. change (String slash e) with ("/" +:+ e). rewrite <-sapp_assoc, trimRight_slash by done.
  rewrite sapp_assoc. change ("/" +:+ e) with (String slash e). rewrite lastIndexByte_last by done.
  replace (sdrop (S (String.length (stem l))) (stem l +:+ String slash e)) with e.
  - apply String.eqb_neq in He. by rewrite He.
  - generalize (stem l). intros s. induction s as [|c s IH]; [by destruct e|done].
Qed.
