(* ===== verification/ComposeSafety.v ===== *)
(** * What a compose document asks of its host (internal/composex/safety.go)

    The gate in front of `docker compose`: the patterns that hand a container
    the host, in two tiers.  A document is read by yaml.v3 into Go values; the
    decoder is a parameter, and a Go map is the list of its entries in the
    order it is ranged over. *)

From S2P Require Import Prelude GoStrings.

(** A decoded value, by the types the code asserts. *)
Inductive yval : Type :=
| YBool (b : bool)
| YStr (s : string)
| YList (l : list yval)
| YMap (m : list (string * yval))
| YOther.
Notation ymap := (list (string * yval)).

Definition field (m : ymap) (k : string) : yval :=
  match find (fun kv => kv.1 ==s k) m with Some kv => kv.2 | None => YOther end.
(** [v.(string)], the empty text when it is none. *)
Definition as_str (v : yval) : string := match v with YStr s => s | _ => "" end.
Definition as_map (v : yval) : option ymap := match v with YMap m => Some m | _ => None end.
Definition as_list (v : yval) : list yval := match v with YList l => l | _ => [] end.

Record Finding : Type := mkFinding {
  fd_Service : string; fd_Rule : string; fd_Detail : string; fd_Message : message;
}.
Record Report : Type := mkReport { rp_Forbidden : list Finding; rp_Risky : list Finding }.
Definition risky (r : Report) (f : Finding) : Report := mkReport (rp_Forbidden r) (rp_Risky r ++ [f]).
Definition forbidden (r : Report) (f : Finding) : Report := mkReport (rp_Forbidden r ++ [f]) (rp_Risky r).

(** ** Host paths *)

Definition cleanBindPath (p : string) : string :=
  let clean := path_Clean (trimSpace p) in
  let clean := if (clean ==s "") || (clean ==s ".") then "/" else clean in
  if (clean ==s "/var/run") || hasPrefix clean "/var/run/" then sdrop (String.length "/var") clean else clean.

Definition under (clean b : string) : bool := (clean ==s b) || hasPrefix clean (b +:+ "/").

Definition secret_dirs : list string := ["/etc/sfpanel"; "/var/lib/sfpanel"; "/root/.ssh"; "/etc/sudoers.d"].
Definition forbiddenBind (p : string) : bool := existsb (under (cleanBindPath p)) secret_dirs.

Definition dangerous_dirs : list string :=
  ["/etc"; "/root"; "/home"; "/boot"; "/proc"; "/sys"; "/dev"; "/var/lib/sfpanel"; "/etc/sfpanel"; "/usr"; "/bin"; "/sbin";
   "/lib"; "/lib64"; "/var/lib/docker"; "/run/containerd"].
Definition isDangerousBind (p : string) : bool :=
  let clean := cleanBindPath p in
  if clean ==s "/" then true
  else if existsb (under clean) dangerous_dirs then true
  else clean ==s "/run/docker.sock".

Record bindMount : Type := mkBindMount { bm_Source : string; bm_Target : string }.
Definition mount_message (b : bindMount) (subject : message) : message :=
  if bm_Target b ==s "" then Sprintf "%s binds sensitive host path %q" [FMsg subject; FStr (bm_Source b)]
  else Sprintf "%s binds sensitive host path %q at %q" [FMsg subject; FStr (bm_Source b); FStr (bm_Target b)].

(** A volumes entry's mount; [None] is one passed over for its type. *)
Definition entry_mount (entry : yval) : option bindMount :=
  match entry with
  | YStr e =>
      let parts := splitByteN 3 e ":" in
      Some (mkBindMount (trimSpace (default "" (parts !! 0%nat)))
              (match parts !! 1%nat with Some t => trimSpace t | None => "" end))
  | YMap e =>
      let t := as_str (field e "type") in
      if negb (EqualFold t "bind") && negb (t ==s "") then None
      else Some (mkBindMount (trimSpace (as_str (field e "source"))) (trimSpace (as_str (field e "target"))))
  | _ => Some (mkBindMount "" "")
  end.
Definition bindMounts (v : yval) : list bindMount :=
  omap (fun entry =>
    m ← entry_mount entry;
    if (bm_Source m ==s "") || negb (hasPrefix (bm_Source m) "/") then None else Some m) (as_list v).

(** The tiers on a list of mounts. *)
Definition judge_mounts (svc : string) (subject : message) (r : Report) (mounts : list bindMount) : Report :=
  fold_left (fun r m =>
    let f := mkFinding svc "bind" (bm_Source m) (mount_message m subject) in
    if forbiddenBind (bm_Source m) then forbidden r f
    else if isDangerousBind (bm_Source m) then risky r f
    else r) mounts r.

(** ** A service *)

Definition isPrivileged (v : yval) : bool :=
  match v with
  | YBool b => b
  | YStr s => slices_contains ["true"; "1"; "yes"; "y"; "on"] (ToLower (trimSpace s))
  | _ => false
  end.

Definition hostModeKeys : list string :=
  ["pid"; "network"; "ipc"; "uts"; "pid_mode"; "network_mode"; "ipc_mode"; "userns_mode"].
Definition says_host (v : yval) : bool := match v with YStr s => EqualFold s "host" | _ => false end.

Definition canon_cap (v : yval) : string := trimPrefix (ToUpper (trimSpace (as_str v))) "CAP_".
Definition bad_cap (canon : string) : bool := slices_contains ["ALL"; "SYS_ADMIN"; "SYS_MODULE"; "SYS_PTRACE"] canon.
Definition canon_group (v : yval) : string := ToLower (trimSpace (as_str v)).
Definition bad_group (name : string) : bool :=
  slices_contains ["docker"; "disk"; "sudo"; "wheel"; "root"; "kvm"] name.

Definition split_opt (trimmed : string) : string * string :=
  match indexAny trimmed ":=" with
  | Some i => (trimSpace (stake i trimmed), trimSpace (sdrop (S i) trimmed))
  | None => (trimmed, "")
  end.
Definition bad_opt (trimmed : string) : bool :=
  let '(key, val) := split_opt trimmed in
  slices_contains ["apparmor"; "seccomp"; "systempaths"] (ToLower key) && EqualFold val "unconfined".

Definition device_texts (l : list yval) : list string :=
  omap (fun d => match d with YStr s => Some (trimSpace s) | _ => None end) l.

(** The findings of the risky tier that are no mounts, in order. *)
Definition service_risks (svcName : string) (svc : ymap) : list Finding :=
  (if isPrivileged (field svc "privileged") then
     [mkFinding svcName "privileged" "true" (Sprintf "service %q sets privileged: true" [FStr svcName])]
   else []) ++
  omap (fun key =>
    if says_host (field svc key) then
      Some (mkFinding svcName "namespace" (key +:+ ": host") (Sprintf "service %q sets %s: host" [FStr svcName; FStr key]))
    else None) hostModeKeys ++
  omap (fun c =>
    let canon := canon_cap c in
    if bad_cap canon then
      Some (mkFinding svcName "capability" canon
              (Sprintf "service %q requests disallowed capability %s" [FStr svcName; FStr canon]))
    else None) (as_list (field svc "cap_add")) ++
  omap (fun g =>
    let name := canon_group g in
    if bad_group name then
      Some (mkFinding svcName "group" name
              (Sprintf "service %q joins host group %q via group_add" [FStr svcName; FStr name]))
    else None) (as_list (field svc "group_add")) ++
  omap (fun s =>
    let trimmed := trimSpace (as_str s) in
    if bad_opt trimmed then
      Some (mkFinding svcName "security-opt" trimmed
              (Sprintf "service %q disables %q sandbox" [FStr svcName; FStr trimmed]))
    else None) (as_list (field svc "security_opt")).

Definition device_risks (svcName : string) (svc : ymap) : list Finding :=
  match as_list (field svc "devices") with
  | [] => []
  | devices =>
      [mkFinding svcName "device" (join (device_texts devices) ", ")
         (Sprintf "service %q declares devices: passthrough not allowed" [FStr svcName])]
  end.

Definition analyzeService (r : Report) (svcName : string) (svc : ymap) : Report :=
  let r := fold_left risky (service_risks svcName svc) r in
  let r := judge_mounts svcName (Sprintf "service %q" [FStr svcName]) r (bindMounts (field svc "volumes")) in
  fold_left risky (device_risks svcName svc) r.

(** ** The top level *)

Definition forbiddenTopLevel (r : Report) (kind name hostPath : string) : Report :=
  let p := trimSpace hostPath in
  if negb (hasPrefix p "/") || negb (forbiddenBind p) then r
  else forbidden r (mkFinding name "bind" p
         (Sprintf "top-level %s %q binds sensitive host path %q" [FStr kind; FStr name; FStr p])).

Definition sortedKeys (m : ymap) : list string := sort_Strings (map fst m).

(** The host path a top-level entry names. *)
Definition file_of (entry : yval) : option string := (fun e => as_str (field e "file")) <$> as_map entry.
Definition device_of (entry : yval) : option string :=
  vol ← as_map entry; opts ← as_map (field vol "driver_opts"); Some (as_str (field opts "device")).
Definition judge_entries (kind : string) (path_of : yval -> option string) (r : Report) (v : yval) : Report :=
  match as_map v with
  | None => r
  | Some entries =>
      fold_left (fun r name =>
        match path_of (field entries name) with
        | Some p => forbiddenTopLevel r kind name p
        | None => r
        end) (sortedKeys entries) r
  end.
Definition analyzeTopLevel (r : Report) (doc : ymap) : Report :=
  let r := judge_entries "secrets" file_of r (field doc "secrets") in
  let r := judge_entries "configs" file_of r (field doc "configs") in
  judge_entries "volume" device_of r (field doc "volumes").

(** ** A document *)

Inductive AnalyzeError : Type := ErrComposeYAML (e : string) | ErrNoServices.

Definition analyzeServices (r : Report) (services : ymap) : Report :=
  fold_left (fun r name =>
    match field services name with
    | YMap svc => analyzeService r name svc
    | _ => r
    end) (sortedKeys services) r.

Section Document.
(** [yaml.Unmarshal] into a [map[string]interface{}]; an empty document is
    the empty map. *)
Variable Unmarshal : string -> result string ymap.

Definition Analyze (content : string) : result AnalyzeError Report :=
  match Unmarshal content with
  | Err e => Err (ErrComposeYAML e)
  | Ok doc =>
      match field doc "services" with
      | YMap services => Ok (analyzeTopLevel (analyzeServices (mkReport [] []) services) doc)
      | _ => Err ErrNoServices
      end
  end.

(** The messages of [Report.Error], joined by "; "; [None] is no error. *)
Definition Report_Error (r : Report) (acknowledged : bool) : option (list message) :=
  match map fd_Message (rp_Forbidden r) ++ (if acknowledged then [] else map fd_Message (rp_Risky r)) with
  | [] => None
  | msgs => Some msgs
  end.

Definition ValidateAdvancedCompose (content : string) : option (AnalyzeError + list message) :=
  match Analyze content with
  | Err e => Some (inl e)
  | Ok r => inr <$> Report_Error r true
  end.
End Document.

Definition AnalyzeCreate (name network : string) (binds : list string) : Report :=
  let trimmed := trimSpace name in
  let subject := if negb (trimmed ==s "") then Sprintf "container %q" [FStr trimmed] else Sprintf "the new container" [] in
  let r := judge_mounts name subject (mkReport [] []) (bindMounts (YList (map YStr binds))) in
  if EqualFold (trimSpace network) "host" then
    risky r (mkFinding name "namespace" "network: host" (Sprintf "%s joins the host network" [FMsg subject]))
  else r.
