(* ===== verification/ComposeSafetyFacts.v ===== *)
(** * The gate in front of compose lets no secret through

    The tiers go by where a path leads, however it is spelled; the forbidden
    findings are exactly the host paths of the panel's secrets a document
    binds, by whichever of the ways compose has; and a document is reported on
    alike in whatever order its maps are ranged over. *)

From S2P Require Import Prelude GoStrings PathFacts ComposeSafety.

(** ** Texts without their spaces *)

Lemma sapp_snoc_split (e w t : string) (c : ascii) :
  e +:+ w = t +:+ String c "" -> indexByte e c = None -> exists t', w = t' +:+ String c "".
Proof.
  revert t. induction e as [|d e IH]; intros t E Hi; [by exists t|]. rewrite indexByte_cons in Hi.
  destruct (Ascii.eqb d c) eqn:Edc; [done|]. destruct (indexByte e c) eqn:Ei; [done|].
  destruct t as [|x t]; simpl in E; injection E as -> E.
  - by rewrite Ascii.eqb_refl in Edc.
  - by apply (IH t).
Qed.

Lemma prefix_app s p : String.prefix p s = true -> s = p +:+ sdrop (String.length p) s.
Proof. intros H. destruct (proj1 (hasPrefix_spec s p) H) as [t ->]. by rewrite sdrop_app. Qed.

Lemma strip_any_last fuel encs t c :
  Forall (fun e => indexByte e c = None) encs -> exists t', strip_any fuel encs (t +:+ String c "") = t' +:+ String c "".
Proof.
  intros He. revert t. induction fuel as [|fuel IH]; intros t; simpl; [by exists t|].
  destruct (find _ encs) as [e|] eqn:Ef; [|by exists t]. apply List.find_some in Ef as [Hin Hp].
  rewrite Forall_forall in He. specialize (He e (proj2 (list_elem_of_In _ _) Hin)).
  pose proof (prefix_app _ _ Hp) as E. symmetry in E. apply sapp_snoc_split in E as [t' ->]; [apply IH|done].
Qed.

Lemma trimLeftSpace_slash s : hasPrefix s "/" = true -> trimLeftSpace s = s.
Proof. intros [t ->]%hasPrefix_spec. reflexivity. Qed.

(** A text that starts with a slash starts with it still. *)
Lemma trimSpace_slash s : hasPrefix s "/" = true -> hasPrefix (trimSpace s) "/" = true.
Proof.
  intros H. unfold trimSpace. rewrite trimLeftSpace_slash by done. apply hasPrefix_spec in H as [t ->].
  unfold trimRightSpace. change ("/" +:+ t) with (String "/" t). rewrite srev_cons.
  destruct (strip_any_last (String.length (String "/" t)) (map srev space_encodings) (srev t) "/") as [t' ->].
  { apply Forall_forall. intros e. rewrite list_elem_of_In.
    assert (Hb : forallb (fun e => match indexByte e "/" with None => true | Some _ => false end)
      (map srev space_encodings) = true) by (vm_compute; reflexivity).
    rewrite forallb_forall in Hb. intros He. specialize (Hb e He). by destruct (indexByte e "/"). }
  rewrite srev_app. apply hasPrefix_spec. by exists (srev t').
Qed.

(** ** The tiers by places *)

(** The host directory a mount's path reaches, [/var/run] being [/run]. *)
Definition aliased (l : list string) : list string :=
  match l with
  | a :: b :: r => if (a ==s "var") && (b ==s "run") then "run" :: r else l
  | _ => l
  end.
Definition host_place (p : string) : list string := aliased (place (trimSpace p)).

Lemma aliased_plain l : Forall plain_elem l -> Forall plain_elem (aliased l).
Proof.
  intros H. unfold aliased. destruct l as [|a [|b r]]; try done. case_match; [|done].
  apply Forall_cons in H as [_ [_ H]%Forall_cons]. by repeat constructor.
Qed.
Lemma host_place_plain p : Forall plain_elem (host_place p).
Proof. apply aliased_plain, place_plain. Qed.

Ltac plain_elems := repeat constructor; vm_compute; congruence.

Lemma spell_aliased l :
  Forall plain_elem l ->
  (if (spell l ==s "/var/run") || hasPrefix (spell l) "/var/run/" then sdrop 4 (spell l) else spell l) = spell (aliased l).
Proof.
  intros Hl. pose proof (spell_under l ["var"; "run"] Hl) as Hu.
  change (spell ["var"; "run"]) with "/var/run" in Hu. change ("/var/run" +:+ "/") with "/var/run/" in Hu.
  destruct (_ || _) eqn:E.
  - destruct (proj1 (Hu ltac:(plain_elems) ltac:(done)) eq_refl) as [r ->]. simpl app. unfold aliased. simpl.
    by destruct r.
  - unfold aliased. destruct l as [|a [|b r]]; try done. case_match eqn:E'; [|done].
    apply andb_true_iff in E' as [->%String.eqb_eq ->%String.eqb_eq].
    assert (false = true) as [=]; apply Hu; [plain_elems|done|by exists r].
Qed.

Lemma cleanBindPath_place p : isAbs (trimSpace p) = true -> cleanBindPath p = spell (host_place p).
Proof.
  intros Ha. unfold cleanBindPath. rewrite path_Clean_place by done.
  replace ((spell (place (trimSpace p)) ==s "") || (spell (place (trimSpace p)) ==s ".")) with false by done.
  apply spell_aliased, place_plain.
Qed.

Definition secret_places : list (list string) :=
  [["etc"; "sfpanel"]; ["var"; "lib"; "sfpanel"]; ["root"; ".ssh"]; ["etc"; "sudoers.d"]].
Definition dangerous_places : list (list string) :=
  [["etc"]; ["root"]; ["home"]; ["boot"]; ["proc"]; ["sys"]; ["dev"]; ["var"; "lib"; "sfpanel"]; ["etc"; "sfpanel"];
   ["usr"]; ["bin"]; ["sbin"]; ["lib"]; ["lib64"]; ["var"; "lib"; "docker"]; ["run"; "containerd"]].
Definition in_place (dirs : list (list string)) (l : list string) : Prop := exists d, d ∈ dirs /\ d `prefix_of` l.

Lemma existsb_under dirs l :
  Forall plain_elem l -> Forall (fun d => d <> [] /\ Forall plain_elem d) dirs ->
  existsb (under (spell l)) (map spell dirs) = true <-> in_place dirs l.
Proof.
  intros Hl. induction dirs as [|d dirs IH]; intros Hd; simpl.
  - split; [done|]. by intros (d & ?%elem_of_nil & _).
  - apply Forall_cons in Hd as [[Hne Hp] Hd]. unfold under at 1.
    rewrite orb_true_iff, (spell_under l d), IH by done. unfold in_place. split.
    + intros [H|(d' & H1 & H2)]; [exists d; split; [left|done]|exists d'; split; [by right|done]].
    + intros (d' & [->|H1]%elem_of_cons & H2); [by left|right; by exists d'].
Qed.

Lemma places_plain :
  Forall (fun d => d <> [] /\ Forall plain_elem d) secret_places /\
  Forall (fun d => d <> [] /\ Forall plain_elem d) dangerous_places.
Proof. split; repeat (constructor; [split; [done|plain_elems]|]); constructor. Qed.

Lemma forbiddenBind_places p :
  isAbs (trimSpace p) = true -> forbiddenBind p = true <-> in_place secret_places (host_place p).
Proof.
  intros Ha. unfold forbiddenBind. rewrite cleanBindPath_place by done.
  change secret_dirs with (map spell secret_places). apply existsb_under; [apply host_place_plain|apply places_plain].
Qed.

(** Both tiers go by the directory a host path reaches, however it is spelled:
    forbidden are the panel's secrets and all below them, dangerous the root,
    the listed directories and all below them, and the docker socket. *)
Theorem bind_tiers_places p :
  isAbs (trimSpace p) = true ->
  (forbiddenBind p = true <-> in_place secret_places (host_place p)) /\
  (isDangerousBind p = true <->
     host_place p = [] \/ in_place dangerous_places (host_place p) \/ host_place p = ["run"; "docker.sock"]).
Proof.
  intros Ha. split; [by apply forbiddenBind_places|]. unfold isDangerousBind. rewrite cleanBindPath_place by done.
  pose proof (host_place_plain p) as Hl.
  assert (Hsp : forall l, Forall plain_elem l -> (spell (host_place p) ==s spell l) = true <-> host_place p = l).
  { intros l Hp. rewrite String.eqb_eq. split; [by apply spell_inj|by intros ->]. }
  pose proof (Hsp [] (Forall_nil_2 _)) as H0. pose proof (Hsp ["run"; "docker.sock"] ltac:(plain_elems)) as H1.
  change (spell []) with "/" in H0. change (spell ["run"; "docker.sock"]) with "/run/docker.sock" in H1.
  change dangerous_dirs with (map spell dangerous_places).
  pose proof (existsb_under dangerous_places _ Hl (proj2 places_plain)) as H2.
  destruct (spell (host_place p) ==s "/"); [tauto|].
  destruct (existsb _ _); [tauto|]. destruct (spell (host_place p) ==s "/run/docker.sock"); tauto.
Qed.

(** ** The forbidden findings *)

Lemma fold_risky_forbidden fs r : rp_Forbidden (fold_left risky fs r) = rp_Forbidden r.
Proof. revert r. induction fs as [|f fs IH]; intros r; simpl; [done|]. by rewrite IH. Qed.

Lemma judge_mounts_forbidden svc subject ms r f :
  f ∈ rp_Forbidden (judge_mounts svc subject r ms) <->
  f ∈ rp_Forbidden r \/
  exists m, m ∈ ms /\ forbiddenBind (bm_Source m) = true /\ f = mkFinding svc "bind" (bm_Source m) (mount_message m subject).
Proof.
  unfold judge_mounts. revert r. induction ms as [|m ms IH]; intros r; simpl.
  { split; [by left|]. by intros [|(? & ?%elem_of_nil & _)]. }
  rewrite IH. setoid_rewrite elem_of_cons. destruct (forbiddenBind (bm_Source m)) eqn:E; [simpl; rewrite elem_of_app, list_elem_of_singleton|destruct (isDangerousBind _); simpl];
    naive_solver congruence.
Qed.

Lemma sortedKeys_elem (m : ymap) k : k ∈ sortedKeys m <-> exists v, (k, v) ∈ m.
Proof.
  unfold sortedKeys, sort_Strings. rewrite merge_sort_Permutation, list_elem_of_fmap. split.
  - intros ([k' v] & -> & H). by exists v.
  - intros [v H]. by exists (k, v).
Qed.
Lemma field_key m k : field m k <> YOther -> k ∈ sortedKeys m.
Proof.
  unfold field. intros H. apply sortedKeys_elem. destruct (find _ m) as [[k' v]|] eqn:E; [|done].
  apply List.find_some in E as [Hin E%String.eqb_eq]. simpl in E. subst k'. exists v. by apply list_elem_of_In.
Qed.

(** A fold over keys adds to the forbidden findings what each key does. *)
Lemma fold_forbidden (step : Report -> string -> Report) (P : string -> Finding -> Prop) keys r f :
  (forall r k f, f ∈ rp_Forbidden (step r k) <-> f ∈ rp_Forbidden r \/ P k f) ->
  f ∈ rp_Forbidden (fold_left step keys r) <-> f ∈ rp_Forbidden r \/ exists k, k ∈ keys /\ P k f.
Proof.
  intros Hs. revert r. induction keys as [|k keys IH]; intros r; simpl.
  { split; [by left|]. by intros [|(? & ?%elem_of_nil & _)]. }
  rewrite IH, Hs. setoid_rewrite elem_of_cons. naive_solver.
Qed.

(** A host path a document puts into a container, and how. *)
Inductive binds (doc : ymap) : string -> Prop :=
| binds_short services name svc l e :
    field doc "services" = YMap services -> field services name = YMap svc -> field svc "volumes" = YList l ->
    YStr e ∈ l -> binds doc (trimSpace (cutByte e ":").1.1)
| binds_long services name svc l e :
    field doc "services" = YMap services -> field services name = YMap svc -> field svc "volumes" = YList l ->
    YMap e ∈ l -> (as_str (field e "type") = "" \/ EqualFold (as_str (field e "type")) "bind" = true) ->
    binds doc (trimSpace (as_str (field e "source")))
| binds_file kind entries name entry :
    kind ∈ ["secrets"; "configs"] -> field doc kind = YMap entries -> field entries name = YMap entry ->
    binds doc (trimSpace (as_str (field entry "file")))
| binds_device vols name vol opts :
    field doc "volumes" = YMap vols -> field vols name = YMap vol -> field vol "driver_opts" = YMap opts ->
    binds doc (trimSpace (as_str (field opts "device"))).

(** One of them that is the panel's own. *)
Definition secret_path (p : string) : Prop := hasPrefix p "/" = true /\ in_place secret_places (host_place p).

Lemma secret_path_forbidden p : hasPrefix p "/" && forbiddenBind p = true <-> secret_path p.
Proof.
  unfold secret_path. rewrite andb_true_iff. split; intros [H1 H2]; (split; [done|]);
    (apply forbiddenBind_places; [by apply trimSpace_slash|done]).
Qed.

Lemma split_first e : default "" (splitByteN 3 e ":" !! 0%nat) = (cutByte e ":").1.1.
Proof. unfold cutByte. simpl. by destruct (indexByte e ":"). Qed.

#[local] Arguments splitByteN : simpl never.

Lemma bindMounts_elem v m :
  m ∈ bindMounts v <->
  exists l entry, v = YList l /\ entry ∈ l /\ entry_mount entry = Some m /\ hasPrefix (bm_Source m) "/" = true.
Proof.
  unfold bindMounts. rewrite list_elem_of_omap. split.
  - intros (entry & Hin & H). destruct v as [| |l| |]; try by apply elem_of_nil in Hin.
    destruct (entry_mount entry) as [m'|] eqn:E; [|done]. simpl in H. destruct (_ || _) eqn:Eb; [done|].
    simplify_eq/=. go_bools. by exists l, entry.
  - intros (l & entry & -> & Hin & E & Hp). exists entry. split; [done|]. rewrite E. cbn [mbind option_bind].
    assert (Hne : bm_Source m <> "") by (intros Hm; by rewrite Hm in Hp). apply String.eqb_neq in Hne.
    by rewrite Hne, Hp.
Qed.

Lemma forbiddenTopLevel_forbidden r kind name p f :
  f ∈ rp_Forbidden (forbiddenTopLevel r kind name p) <->
  f ∈ rp_Forbidden r \/ secret_path (trimSpace p) /\
    f = mkFinding name "bind" (trimSpace p)
          (Sprintf "top-level %s %q binds sensitive host path %q" [FStr kind; FStr name; FStr (trimSpace p)]).
Proof.
  unfold forbiddenTopLevel. pose proof (secret_path_forbidden (trimSpace p)) as Hs.
  destruct (hasPrefix (trimSpace p) "/"), (forbiddenBind (trimSpace p)); simpl in *;
    rewrite ?elem_of_app, ?list_elem_of_singleton; naive_solver.
Qed.

Lemma judge_entries_forbidden kind path_of r v f :
  f ∈ rp_Forbidden (judge_entries kind path_of r v) <->
  f ∈ rp_Forbidden r \/
  exists entries name p, v = YMap entries /\ name ∈ sortedKeys entries /\ path_of (field entries name) = Some p /\
    secret_path (trimSpace p) /\
    f = mkFinding name "bind" (trimSpace p)
          (Sprintf "top-level %s %q binds sensitive host path %q" [FStr kind; FStr name; FStr (trimSpace p)]).
Proof.
  unfold judge_entries. destruct v as [| | |entries|]; simpl; try naive_solver.
  rewrite (fold_forbidden _ (fun name f => exists p, path_of (field entries name) = Some p /\ secret_path (trimSpace p) /\
    f = mkFinding name "bind" (trimSpace p)
          (Sprintf "top-level %s %q binds sensitive host path %q" [FStr kind; FStr name; FStr (trimSpace p)]))).
  - naive_solver.
  - intros r' k f'. destruct (path_of _); [rewrite forbiddenTopLevel_forbidden|]; naive_solver.
Qed.

Lemma analyzeService_forbidden r name svc f :
  f ∈ rp_Forbidden (analyzeService r name svc) <->
  f ∈ rp_Forbidden r \/
  exists m, m ∈ bindMounts (field svc "volumes") /\ forbiddenBind (bm_Source m) = true /\
    f = mkFinding name "bind" (bm_Source m) (mount_message m (Sprintf "service %q" [FStr name])).
Proof. unfold analyzeService. by rewrite fold_risky_forbidden, judge_mounts_forbidden, fold_risky_forbidden. Qed.

Lemma analyzeServices_forbidden r services f :
  f ∈ rp_Forbidden (analyzeServices r services) <->
  f ∈ rp_Forbidden r \/
  exists name svc m, field services name = YMap svc /\ m ∈ bindMounts (field svc "volumes") /\
    forbiddenBind (bm_Source m) = true /\
    f = mkFinding name "bind" (bm_Source m) (mount_message m (Sprintf "service %q" [FStr name])).
Proof.
  unfold analyzeServices.
  rewrite (fold_forbidden _ (fun name f => exists svc m, field services name = YMap svc /\
    m ∈ bindMounts (field svc "volumes") /\ forbiddenBind (bm_Source m) = true /\
    f = mkFinding name "bind" (bm_Source m) (mount_message m (Sprintf "service %q" [FStr name])))).
  - split; [naive_solver|]. intros [?|(name & svc & m & H1 & H2)]; [by left|right].
    exists name. split; [by apply field_key; rewrite H1|]. eauto.
  - intros r' k f'. destruct (field services k); try naive_solver. rewrite analyzeService_forbidden. naive_solver.
Qed.

(** What is looked at is bound. *)
Lemma mounts_bind doc services name svc m :
  field doc "services" = YMap services -> field services name = YMap svc -> m ∈ bindMounts (field svc "volumes") ->
  binds doc (bm_Source m) /\ hasPrefix (bm_Source m) "/" = true.
Proof.
  intros Hs Hsvc (l & entry & Hl & Hin & He & Hp)%bindMounts_elem. split; [|done].
  destruct entry as [|e| |e|]; simpl in He; simplify_eq/=.
  - rewrite split_first. by eapply binds_short.
  - destruct (_ && _) eqn:Et; simplify_eq/=. eapply binds_long; [done..|].
    apply andb_false_iff in Et as [Et|Et]; go_bools; auto.
Qed.

Lemma file_of_binds doc kind entries name p :
  kind ∈ ["secrets"; "configs"] -> field doc kind = YMap entries -> file_of (field entries name) = Some p -> binds doc (trimSpace p).
Proof.
  intros Hk He Hp. unfold file_of in Hp. destruct (field entries name) as [| | |entry|] eqn:En; try done. simplify_eq/=.
  by eapply binds_file.
Qed.

Lemma device_of_binds doc vols name p :
  field doc "volumes" = YMap vols -> device_of (field vols name) = Some p -> binds doc (trimSpace p).
Proof.
  intros Hv Hp. unfold device_of in Hp. destruct (field vols name) as [| | |vol|] eqn:En; try done. simpl in Hp.
  destruct (field vol "driver_opts") as [| | |opts|] eqn:Eo; try done. simplify_eq/=. by eapply binds_device.
Qed.

(** What is bound is looked at. *)
Definition looked_at (doc services : ymap) (p : string) : Prop :=
  (exists name svc m, field services name = YMap svc /\ m ∈ bindMounts (field svc "volumes") /\ bm_Source m = p) \/
  (exists kind entries name q, kind ∈ ["secrets"; "configs"] /\ field doc kind = YMap entries /\ name ∈ sortedKeys entries /\
     file_of (field entries name) = Some q /\ trimSpace q = p) \/
  (exists vols name q, field doc "volumes" = YMap vols /\ name ∈ sortedKeys vols /\
     device_of (field vols name) = Some q /\ trimSpace q = p).
Lemma binds_looked_at doc services p :
  field doc "services" = YMap services -> binds doc p -> hasPrefix p "/" = true -> looked_at doc services p.
Proof.
  intros Es Hb Hp.
  assert (Hmount : forall name svc l entry m, field services name = YMap svc -> field svc "volumes" = YList l -> entry ∈ l ->
    entry_mount entry = Some m -> bm_Source m = p -> looked_at doc services p).
  { intros name svc l entry m Hsvc Hl Hin He <-. left. exists name, svc, m. split_and!; [done| |done]. apply bindMounts_elem. by exists l, entry. }
  destruct Hb as [services' name svc l e H1 H2 H3 H4|services' name svc l e H1 H2 H3 H4 H5|kind entries name entry H1 H2 H3|vols name vol opts H1 H2 H3].
  - rewrite Es in H1. simplify_eq. eapply (Hmount name svc l (YStr e)); [done..|]. simpl. by rewrite <-(split_first e).
  - rewrite Es in H1. simplify_eq. eapply (Hmount name svc l (YMap e)); [done..| |].
    + simpl. by destruct H5 as [-> | ->]; rewrite ?andb_false_r.
    + done.
  - right. left. exists kind, entries, name, (as_str (field entry "file")).
    split_and!; [done|done|by apply field_key; rewrite H3|by rewrite H3|done].
  - right. right. exists vols, name, (as_str (field opts "device")).
    split_and!; [done|by apply field_key; rewrite H2| |done]. unfold device_of. rewrite H2. simpl. by rewrite H3.
Qed.

(** C38: the forbidden findings of a readable document name exactly the paths of the
    panel's secrets it binds, by a short or long volume entry of a service, the
    file of a secret or config, or the device of a named volume. *)
Theorem Analyze_forbidden Unmarshal content r :
  Analyze Unmarshal content = Ok r ->
  exists doc, Unmarshal content = Ok doc /\
    forall p, (exists f, f ∈ rp_Forbidden r /\ fd_Detail f = p) <-> binds doc p /\ secret_path p.
Proof.
  unfold Analyze. destruct (Unmarshal content) as [doc|]; [|done]. destruct (field doc "services") as [| | |services|] eqn:Es; try done.
  intros [= <-]. exists doc. split; [done|]. intros p. unfold analyzeTopLevel.
  setoid_rewrite judge_entries_forbidden. setoid_rewrite judge_entries_forbidden. setoid_rewrite judge_entries_forbidden.
  setoid_rewrite analyzeServices_forbidden. simpl. split.
  - intros (f & [[[[Hn|Hsv]|Hsec]|Hcfg]|Hvol] & <-); [by apply elem_of_nil in Hn|..].
    + destruct Hsv as (name & svc & m & Hsvc & Hm & Hf & ->). destruct (mounts_bind _ _ _ _ _ Es Hsvc Hm) as [Hb Hp].
      split; [done|]. apply secret_path_forbidden. simpl. by rewrite Hp, Hf.
    + destruct Hsec as (entries & name & q & Hv & _ & Hq & Hs & ->). split; [|done]. eapply file_of_binds; [|done..]. set_solver.
    + destruct Hcfg as (entries & name & q & Hv & _ & Hq & Hs & ->). split; [|done]. eapply file_of_binds; [|done..]. set_solver.
    + destruct Hvol as (entries & name & q & Hv & _ & Hq & Hs & ->). split; [|done]. by eapply device_of_binds.
  - intros [Hb Hs]. pose proof Hs as [Hp Hf]%secret_path_forbidden%andb_true_iff.
    destruct (binds_looked_at _ _ _ Es Hb Hp) as [(name & svc & m & H1 & H2 & <-)|[(kind & entries & name & q & H1 & H2 & H3 & H4 & <-)|(vols & name & q & H1 & H2 & H3 & <-)]].
    + eexists. split; [left; left; left; right; by exists name, svc, m|done].
    + set_unfold in H1. destruct H1 as [->|[->|[]]]; eexists.
      * split; [left; left; right; by exists entries, name, q|done].
      * split; [left; right; by exists entries, name, q|done].
    + eexists. split; [right; by exists vols, name, q|done].
Qed.

(** ** Whatever the order of the maps *)

(** The same value, or the same map ranged over in another order. *)
Inductive alike : yval -> yval -> Prop :=
| alike_same v : alike v v
| alike_map m m' : m ≡ₚ m' -> NoDup (map fst m) -> alike (YMap m) (YMap m').

Lemma field_perm (m m' : ymap) k : m ≡ₚ m' -> NoDup (map fst m) -> field m k = field m' k.
Proof.
  intros Hp Hn. unfold field. assert (Hf : forall m k v, NoDup (map fst m) -> (k, v) ∈ m ->
    find (fun kv : string * yval => kv.1 ==s k) m = Some (k, v)).
  { clear. induction m as [|[k' v'] m IH]; intros k v Hn Hin; [by apply elem_of_nil in Hin|]. simpl in *.
    apply NoDup_cons in Hn as [Hk Hn]. apply elem_of_cons in Hin as [[= -> ->]|Hin]; [by rewrite String.eqb_refl|].
    destruct (k' ==s k) eqn:E; [|by apply IH]. apply String.eqb_eq in E as ->. destruct Hk.
    apply list_elem_of_fmap. by exists (k, v). }
  assert (Hn' : NoDup (map fst m')) by (by rewrite <-Hp).
  destruct (find _ m) as [[k1 v1]|] eqn:E1.
  - apply List.find_some in E1 as [Hin E%String.eqb_eq]. simpl in E. subst k1.
    rewrite (Hf m' k v1); [done..|]. rewrite <-Hp. by apply list_elem_of_In.
  - destruct (find _ m') as [[k2 v2]|] eqn:E2; [|done]. apply List.find_some in E2 as [Hin E%String.eqb_eq].
    simpl in E. subst k2. rewrite (Hf m k v2) in E1; [done..|]. rewrite Hp. by apply list_elem_of_In.
Qed.

Lemma sortedKeys_perm (m m' : ymap) : m ≡ₚ m' -> sortedKeys m = sortedKeys m'.
Proof. intros H. apply sort_Strings_perm. by rewrite H. Qed.

Lemma judge_entries_alike kind path_of r v v' : alike v v' -> judge_entries kind path_of r v = judge_entries kind path_of r v'.
Proof.
  intros [|m m' Hp Hn]; [done|]. unfold judge_entries. cbn [as_map]. rewrite (sortedKeys_perm m m') by done.
  revert r. induction (sortedKeys m') as [|k keys IH]; intros r'; [done|]. simpl.
  rewrite (field_perm m m' k) by done. apply IH.
Qed.

(** A document is reported on alike in whatever order its services, secrets, configs
    and volumes are ranged over. *)
Theorem Analyze_any_order U U' content doc doc' :
  U content = Ok doc -> U' content = Ok doc' -> (forall k, alike (field doc k) (field doc' k)) ->
  Analyze U content = Analyze U' content.
Proof.
  intros E E' Ha. unfold Analyze. rewrite E, E'. unfold analyzeTopLevel.
  destruct (Ha "services") as [v|m m' Hp Hn].
  - destruct v as [| | |services|]; try done. f_equal. by rewrite !(judge_entries_alike _ _ _ _ _ (Ha _)).
  - f_equal. rewrite !(judge_entries_alike _ _ _ _ _ (Ha _)).
    assert (Hs : analyzeServices (mkReport [] []) m = analyzeServices (mkReport [] []) m'); [|by rewrite Hs].
    unfold analyzeServices. rewrite (sortedKeys_perm m m') by done. generalize (mkReport [] []).
    induction (sortedKeys m') as [|k keys IH]; intros r'; [done|]. simpl.
  rewrite (field_perm m m' k) by done. apply IH.
Qed.
