(* ===== verification/GoRegexp.v ===== *)
(** * Go's [regexp] on the patterns of the program

    Regular expressions over bytes (every class of the program's patterns is
    of ASCII characters, so a rune outside ASCII is in none of them and bytes
    are enough), a matcher by derivatives for the anchored [^...$] patterns,
    proved to decide the language the expression denotes. *)

From S2P Require Import Prelude GoStrings.

(** ** Syntax and language *)

Inductive re : Type :=
| REmpty                       (* no text *)
| REps                         (* the empty text *)
| RClass (f : ascii -> bool)   (* one character of a class *)
| RCat (r1 r2 : re)
| RAlt (r1 r2 : re)
| RStar (r : re).

Inductive in_re : list ascii -> re -> Prop :=
| in_eps : in_re [] REps
| in_class c f : f c = true -> in_re [c] (RClass f)
| in_cat s1 s2 r1 r2 : in_re s1 r1 -> in_re s2 r2 -> in_re (s1 ++ s2) (RCat r1 r2)
| in_alt_l s r1 r2 : in_re s r1 -> in_re s (RAlt r1 r2)
| in_alt_r s r1 r2 : in_re s r2 -> in_re s (RAlt r1 r2)
| in_star_nil r : in_re [] (RStar r)
| in_star_app s1 s2 r : in_re s1 r -> in_re s2 (RStar r) -> in_re (s1 ++ s2) (RStar r).

(** Derived forms: a character, a literal, [r+], [r?], [r{n}], [r{0,n}],
    [r{m,n}]. *)
Definition rChar (c : ascii) : re := RClass (Ascii.eqb c).
Fixpoint rLit (s : string) : re :=
  match s with
  | EmptyString => REps
  | String c s => RCat (rChar c) (rLit s)
  end.
Definition rPlus (r : re) : re := RCat r (RStar r).
Fixpoint rRep (n : nat) (r : re) : re :=
  match n with O => REps | S n => RCat r (rRep n r) end.
Fixpoint rUpTo (n : nat) (r : re) : re :=
  match n with O => REps | S n => RAlt REps (RCat r (rUpTo n r)) end.
Definition rBetween (m n : nat) (r : re) : re := RCat (rRep m r) (rUpTo (n - m) r).

(** ** The matcher *)

Fixpoint nullable (r : re) : bool :=
  match r with
  | REmpty | RClass _ => false
  | REps | RStar _ => true
  | RCat r1 r2 => nullable r1 && nullable r2
  | RAlt r1 r2 => nullable r1 || nullable r2
  end.

(** Smart constructors keep derivatives small. *)
Definition mkCat (r1 r2 : re) : re :=
  match r1 with
  | REmpty => REmpty
  | REps => r2
  | _ => RCat r1 r2
  end.
Definition mkAlt (r1 r2 : re) : re :=
  match r1, r2 with
  | REmpty, r => r
  | r, REmpty => r
  | _, _ => RAlt r1 r2
  end.

Fixpoint deriv (c : ascii) (r : re) : re :=
  match r with
  | REmpty | REps => REmpty
  | RClass f => if f c then REps else REmpty
  | RCat r1 r2 =>
      if nullable r1 then mkAlt (mkCat (deriv c r1) r2) (deriv c r2)
      else mkCat (deriv c r1) r2
  | RAlt r1 r2 => mkAlt (deriv c r1) (deriv c r2)
  | RStar r => mkCat (deriv c r) (RStar r)
  end.

Fixpoint re_match (r : re) (s : list ascii) : bool :=
  match s with
  | [] => nullable r
  | c :: s => re_match (deriv c r) s
  end.

(** [MatchString] of [^r$]. *)
Definition matchString (r : re) (s : string) : bool := re_match r (list_ascii_of_string s).

(** ** The matcher decides the language *)

Lemma in_re_empty s : ~ in_re s REmpty.
Proof. inversion 1. Qed.

Lemma in_re_eps s : in_re s REps <-> s = [].
Proof. split; [by inversion 1|intros ->; constructor]. Qed.

Lemma in_re_class s f : in_re s (RClass f) <-> exists c, s = [c] /\ f c = true.
Proof. split; [inversion 1; eauto|intros (c & -> & ?); by constructor]. Qed.

Lemma in_re_cat s r1 r2 :
  in_re s (RCat r1 r2) <-> exists s1 s2, s = s1 ++ s2 /\ in_re s1 r1 /\ in_re s2 r2.
Proof. split; [inversion 1; eauto 6|intros (? & ? & -> & ? & ?); by constructor]. Qed.

Lemma in_re_alt s r1 r2 : in_re s (RAlt r1 r2) <-> in_re s r1 \/ in_re s r2.
Proof. split; [inversion 1; auto|intros [?|?]; [by apply in_alt_l|by apply in_alt_r]]. Qed.

Lemma in_mkCat s r1 r2 : in_re s (mkCat r1 r2) <-> in_re s (RCat r1 r2).
Proof.
  destruct r1; simpl; try done; rewrite in_re_cat.
  - split; [by intros ?%in_re_empty|by intros (? & ? & _ & ?%in_re_empty & _)].
  - split; [intros; exists [], s; eauto using in_eps|].
    by intros (? & ? & -> & ->%in_re_eps & ?).
Qed.

Lemma in_mkAlt s r1 r2 : in_re s (mkAlt r1 r2) <-> in_re s (RAlt r1 r2).
Proof.
  rewrite in_re_alt. pose proof (in_re_empty s).
  destruct r1; simpl; [|destruct r2; simpl; rewrite ?in_re_alt..]; tauto.
Qed.

Lemma nullable_spec r : nullable r = true <-> in_re [] r.
Proof.
  induction r as [| |f|r1 IH1 r2 IH2|r1 IH1 r2 IH2|r IH]; simpl.
  - split; [done|by intros ?%in_re_empty].
  - split; [constructor|done].
  - split; [done|by intros (? & ? & _)%in_re_class].
  - rewrite andb_true_iff, IH1, IH2, in_re_cat. split.
    + intros [? ?]. by exists [], [].
    + by intros (s1 & s2 & [-> ->]%eq_sym%app_eq_nil & ? & ?).
  - by rewrite orb_true_iff, IH1, IH2, in_re_alt.
  - split; [constructor|done].
Qed.

(** A nonempty word of [r*] starts with a nonempty word of [r]. *)
Lemma in_star_cons c s r :
  in_re (c :: s) (RStar r) <->
  exists s1 s2, s = s1 ++ s2 /\ in_re (c :: s1) r /\ in_re s2 (RStar r).
Proof.
  split.
  - intros H. remember (c :: s) as w eqn:Ew. remember (RStar r) as q eqn:Eq.
    revert Ew. induction H as [| | | | | |s1 s2 r' H1 _ H2 IH2]; simplify_eq/=; try done.
    intros E. destruct s1 as [|d s1]; simplify_eq/=; [by apply IH2|].
    by exists s1, s2.
  - intros (s1 & s2 & -> & ? & ?). by apply (in_star_app (c :: s1)).
Qed.

Lemma deriv_spec c r s : in_re s (deriv c r) <-> in_re (c :: s) r.
Proof.
  revert s. induction r as [| |f|r1 IH1 r2 IH2|r1 IH1 r2 IH2|r IH]; intros s; simpl.
  - split; by intros ?%in_re_empty.
  - split; [by intros ?%in_re_empty|by intros ?%in_re_eps].
  - rewrite in_re_class. destruct (f c) eqn:E.
    + rewrite in_re_eps. split; [intros ->; eauto|by intros (? & [= -> ->] & ?)].
    + split; [by intros ?%in_re_empty|]. intros (? & [= -> ->] & ?). congruence.
  - assert (Hc : in_re s (mkCat (deriv c r1) r2) <->
      exists s1 s2, s = s1 ++ s2 /\ in_re (c :: s1) r1 /\ in_re s2 r2).
    { rewrite in_mkCat, in_re_cat. by setoid_rewrite IH1. }
    rewrite in_re_cat. destruct (nullable r1) eqn:E.
    + rewrite in_mkAlt, in_re_alt, Hc, IH2. split.
      * intros [(s1 & s2 & -> & ? & ?)|?]; [by exists (c :: s1), s2|].
        exists [], (c :: s). by rewrite <-nullable_spec.
      * intros ([|d s1] & s2 & E2 & ? & ?); simplify_eq/=; [by right|].
        left. by exists s1, s2.
    + rewrite Hc. split.
      * intros (s1 & s2 & -> & ? & ?). by exists (c :: s1), s2.
      * intros ([|d s1] & s2 & E2 & H1 & ?); simplify_eq/=; [|by exists s1, s2].
        apply nullable_spec in H1. congruence.
  - by rewrite in_mkAlt, !in_re_alt, IH1, IH2.
  - rewrite in_mkCat, in_re_cat, in_star_cons. by setoid_rewrite IH.
Qed.

Lemma re_match_spec r s : re_match r s = true <-> in_re s r.
Proof.
  revert r. induction s as [|c s IH]; intros r; simpl.
  - apply nullable_spec.
  - by rewrite IH, deriv_spec.
Qed.

(** ** What the words of a pattern look like *)

(** Every character of a word of [r] satisfies [P]. *)
Fixpoint re_all (P : ascii -> Prop) (r : re) : Prop :=
  match r with
  | REmpty | REps => True
  | RClass f => forall c, f c = true -> P c
  | RCat r1 r2 | RAlt r1 r2 => re_all P r1 /\ re_all P r2
  | RStar r => re_all P r
  end.

Lemma re_all_spec P r s : in_re s r -> re_all P r -> Forall P s.
Proof.
  induction 1; simpl; intros Hr; decompose_Forall_hyps; auto.
  - destruct Hr. apply Forall_app; auto.
  - destruct Hr; auto.
  - destruct Hr; auto.
  - apply Forall_app; auto.
Qed.

Lemma in_star_class s f : in_re s (RStar (RClass f)) <-> Forall (fun c => f c = true) s.
Proof.
  split.
  - intros H. apply (re_all_spec _ _ _ H). simpl. auto.
  - induction 1 as [|c s Hc _ IH]; [constructor|].
    by apply (in_star_app [c]); [constructor|].
Qed.

Lemma in_rUpTo_class s n f :
  in_re s (rUpTo n (RClass f)) <-> (length s <= n)%nat /\ Forall (fun c => f c = true) s.
Proof.
  revert s; induction n as [|n IH]; intros s; simpl.
  - rewrite in_re_eps. split; [by intros ->|]. intros [? _]. apply nil_length_inv. lia.
  - rewrite in_re_alt, in_re_eps, in_re_cat. split.
    + intros [->|(s1 & s2 & -> & (c & -> & ?)%in_re_class & [? ?]%IH)]; simpl; [split; [lia|done]|].
      split; [lia|by constructor].
    + intros [Hl Hf]. destruct s as [|c s]; [by left|right]. simpl in Hl.
      apply Forall_cons in Hf as [? ?]. exists [c], s. split; [done|].
      split; [by constructor|]. apply IH. split; [lia|done].
Qed.
