(* ===== verification/HostGuard.v ===== *)
(** * What the panel does not do to its host

    internal/common/sysguard (the protected units and the policy on a host's
    own units) and [UnitGuard] of internal/feature/services, the guard the
    Services page and a task's service step share.  A unit name reaches the
    policy only after [validServiceName], so its characters are ASCII and
    lower case is that of ASCII. *)

From S2P Require Import Prelude GoStrings GoRegexp ApiCodes.

(** ** The host (internal/common/platform) *)

Definition StackNetplan : string := "netplan".
Definition StackIfupdown2 : string := "ifupdown2".
Definition StackIfupdown : string := "ifupdown".

(** The fields of [platform.Info] the guards read. *)
Record Info : Type := mkInfo { pi_PVE : bool; pi_NetworkStack : string }.

Definition IfupdownNetworking (i : Info) : bool :=
  (pi_NetworkStack i ==s StackIfupdown) || (pi_NetworkStack i ==s StackIfupdown2).

(** ** Units the panel itself needs (sysguard.go) *)

Fixpoint toLower (s : string) : string :=
  match s with
  | EmptyString => EmptyString
  | String c s => String (ascii_lower c) (toLower s)
  end.

Definition protectedSystemdUnits : list string :=
  ["sfpanel.service"; "dbus.service"; "systemd-journald.service"].

(** Also [normalizeUnit] of hostunits.go: the same few lines. *)
Definition normalizeUnit (name : string) : string :=
  let name := toLower name in
  if hasSuffix name ".service" then name else name +:+ ".service".

Definition IsProtectedSystemdUnit (name : string) : bool :=
  if name ==s "" then false
  else slices_contains protectedSystemdUnits (normalizeUnit name).

(** ** Units the host and its guests need (hostunits.go) *)

Definition ActionStop : string := "stop".
Definition ActionRestart : string := "restart".
Definition ActionDisable : string := "disable".
Definition TierConfirm : string := "confirm".
Definition TierRefuse : string := "refuse".

Record unitRule : Type := mkUnitRule {
  ur_stop : string;
  ur_restart : string;
  ur_disable : string;
  ur_hint : string;
  ur_signals : bool;
}.

Definition refuseAll : unitRule := mkUnitRule TierRefuse TierRefuse TierRefuse "" false.
Definition confirmAll : unitRule := mkUnitRule TierConfirm TierConfirm TierConfirm "" false.
Definition refuseStopOff : unitRule := mkUnitRule TierRefuse "" TierRefuse "" false.
Definition confirmStopOff : unitRule := mkUnitRule TierConfirm "" TierConfirm "" false.
Definition clusterStack : unitRule := mkUnitRule TierRefuse TierConfirm TierRefuse "" true.
Definition haService : unitRule := mkUnitRule TierConfirm TierConfirm TierConfirm "" true.
Definition ifupdownNetwork : unitRule := mkUnitRule TierRefuse TierRefuse TierRefuse "ifreload -a" false.

(** The units of a Proxmox VE host, each key once. *)
Definition pveUnits : list (string * unitRule) :=
  [("pve-cluster.service", clusterStack);
   ("corosync.service", clusterStack);
   ("watchdog-mux.service", mkUnitRule TierRefuse TierRefuse TierRefuse "" true);
   ("pve-firewall.service", refuseStopOff);
   ("proxmox-firewall.service", refuseStopOff);
   ("pve-guests.service", mkUnitRule "" "" TierRefuse "" false);
   ("pve-ha-lrm.service", haService);
   ("pve-ha-crm.service", haService);
   ("pveproxy.service", confirmAll);
   ("pvedaemon.service", confirmAll);
   ("pvestatd.service", confirmAll);
   ("pvescheduler.service", confirmAll);
   ("spiceproxy.service", confirmAll);
   ("qmeventd.service", confirmAll);
   ("lxcfs.service", confirmAll);
   ("lxc.service", confirmAll)].

Definition table_get {A} (t : list (string * A)) (k : string) : option A :=
  snd <$> find (fun kv => kv.1 ==s k) t.

Definition hostUnitRule (info : Info) (unit_ : string) : option unitRule :=
  if slices_contains protectedSystemdUnits unit_ then Some refuseAll
  else if (unit_ ==s "networking.service") && IfupdownNetworking info then Some ifupdownNetwork
  else if (unit_ ==s "ssh.service") || (unit_ ==s "sshd.service") then Some confirmStopOff
  else if pi_PVE info then table_get pveUnits unit_
  else None.

(** The tier, [""] when the action goes ahead, and the hint. *)
Definition UnitPolicy (info : Info) (unit_ action : string) : string * string :=
  match hostUnitRule info (normalizeUnit unit_) with
  | None => ("", "")
  | Some r =>
      let tier :=
        if action ==s ActionStop then ur_stop r
        else if action ==s ActionRestart then ur_restart r
        else if action ==s ActionDisable then ur_disable r
        else "" in
      if tier ==s "" then ("", "") else (tier, ur_hint r)
  end.

(** The tiers of every action, those with none left out. *)
Definition UnitProtection (info : Info) (unit_ : string) : list (string * string) :=
  omap (fun action =>
    let tier := (UnitPolicy info unit_ action).1 in
    if tier ==s "" then None else Some (action, tier)) [ActionStop; ActionRestart; ActionDisable].

(** ** The guard of a unit action (internal/feature/services/handler.go) *)

Record Refusal : Type := mkRefusal {
  rf_Status : Z;
  rf_Code : string;
  rf_Message : message;
  rf_Details : list (string * string);
}.

Definition validServiceName : re :=
  RCat (RClass is_alnum)
    (RCat (RStar (RClass (fun c => is_alnum c || existsb (Ascii.eqb c) ["@"; "."; "_"; ":"; "-"]%char)))
       (rLit ".service")).

Definition UnitGuard (info : Info) (name action : string) (confirmed : bool) : option Refusal :=
  if negb (matchString validServiceName name) then
    Some (mkRefusal 400 ErrInvalidName (Sprintf "Invalid service name" []) [])
  else if (action ==s "start") || (action ==s "enable") then None
  else if negb ((action ==s ActionStop) || (action ==s ActionRestart) || (action ==s ActionDisable)) then
    Some (mkRefusal 400 ErrInvalidRequest (Sprintf "Unknown service action %q" [FStr action]) [])
  else if IsProtectedSystemdUnit name then
    Some (mkRefusal 403 ErrPermissionDenied
            (Sprintf "Refusing to %s protected unit %q via the panel API" [FStr action; FStr name]) [])
  else
    let '(tier, hint) := UnitPolicy info name action in
    if tier ==s TierRefuse then
      let msg := Sprintf "Refusing to %s %s: the host, its cluster or its guests depend on it" [FStr action; FStr name] in
      Some (mkRefusal 403 ErrServiceProtected
              (if negb (hint ==s "")
               then Sprintf "%s. To apply network changes, run '%s' instead" [FMsg msg; FStr hint]
               else msg)
              [("unit", name); ("hint", hint)])
    else if tier ==s TierConfirm then
      if negb confirmed then
        Some (mkRefusal 409 ErrServiceConfirmRequired
                (Sprintf "Type %s to confirm: it is needed to manage this host or run its guests" [FStr name])
                [("unit", name)])
      else None
    else None.
