(* ===== verification/GoTime.v ===== *)
(** * Go's [time.Duration]: [String] and [ParseDuration]

    A duration is its count of nanoseconds.  [ParseDuration] turns a fraction
    into nanoseconds in [float64]; the model rounds as IEEE 754 binary64 does
    (every operand is a positive normal number, so one rounding function to
    53 bits, ties to even, is the whole of it). *)

From S2P Require Import Prelude GoStrings.

Definition Duration : Type := Z.
Definition Nanosecond : Duration := 1.
Definition Microsecond : Duration := 1000.
Definition Millisecond : Duration := 1000000.
Definition Second : Duration := 1000000000.
Definition Minute : Duration := 60 * Second.
Definition Hour : Duration := 60 * Minute.

(** A [time.Time] is its nanoseconds since Go's zero time. *)
Definition Time : Type := Z.
Definition IsZero (t : Time) : bool := t =? 0.

(** ** Positive float64 values *)

Record f64 : Type := mkF64 { mant : Z; expo : Z }.

(** [n/d] to the nearest integer, ties to even. *)
Definition round_even (n d : Z) : Z :=
  let q := n / d in
  let r := n mod d in
  if 2 * r <? d then q
  else if d <? 2 * r then q + 1
  else if Z.even q then q else q + 1.

(** The float64 nearest to [n/d], for [n > 0] and [d > 0]. *)
Definition f64_round (n d : Z) : f64 :=
  let e0 := Z.log2 n - Z.log2 d - 52 in
  let e := if n * 2 ^ Z.max 0 (- (52 + e0)) <? d * 2 ^ Z.max 0 (52 + e0) then e0 - 1 else e0 in
  mkF64 (round_even (n * 2 ^ Z.max 0 (- e)) (d * 2 ^ Z.max 0 e)) e.

Definition f64_of_Z (n : Z) : f64 := f64_round n 1.
Definition f64_mul (a b : f64) : f64 :=
  let e := expo a + expo b in
  f64_round (mant a * mant b * 2 ^ Z.max 0 e) (2 ^ Z.max 0 (- e)).
Definition f64_div (a b : f64) : f64 :=
  let e := expo a - expo b in
  f64_round (mant a * 2 ^ Z.max 0 e) (mant b * 2 ^ Z.max 0 (- e)).
(** [uint64(x)]. *)
Definition f64_trunc (a : f64) : Z :=
  mant a * 2 ^ Z.max 0 (expo a) / 2 ^ Z.max 0 (- expo a).

(** ** [ParseDuration] *)

Fixpoint leadingInt (s : string) (x : Z) : option (Z * string) :=
  match s with
  | EmptyString => Some (x, s)
  | String c s' =>
      if is_digit c then
        if 2 ^ 63 / 10 <? x then None
        else
          let x := x * 10 + digit_val c in
          if 2 ^ 63 <? x then None else leadingInt s' x
      else Some (x, s)
  end.

(** The digits' value, the power of ten below it, and the rest. *)
Fixpoint leadingFraction (s : string) (x scale : Z) (overflow : bool) : Z * Z * string :=
  match s with
  | EmptyString => (x, scale, s)
  | String c s' =>
      if is_digit c then
        if overflow then leadingFraction s' x scale true
        else if (2 ^ 63 - 1) / 10 <? x then leadingFraction s' x scale true
        else
          let y := x * 10 + digit_val c in
          if 2 ^ 63 <? y then leadingFraction s' x scale true
          else leadingFraction s' y (scale * 10) false
      else (x, scale, s)
  end.

Fixpoint unit_len (s : string) : nat :=
  match s with
  | EmptyString => 0
  | String c s => if Ascii.eqb c "." || is_digit c then 0 else S (unit_len s)
  end.

Definition unitMap (u : string) : option Z :=
  if u ==s "ns" then Some Nanosecond
  else if u ==s "us" then Some Microsecond
  else if u ==s bytes_of [194; 181; 115]%nat then Some Microsecond (* U+00B5 *)
  else if u ==s bytes_of [206; 188; 115]%nat then Some Microsecond (* U+03BC *)
  else if u ==s "ms" then Some Millisecond
  else if u ==s "s" then Some Second
  else if u ==s "m" then Some Minute
  else if u ==s "h" then Some Hour
  else None.

(** The value of [v] units and the fraction [f/scale] of one. *)
Definition segment_value (v f scale unit : Z) : option Z :=
  if 2 ^ 63 / unit <? v then None
  else
    let v := v * unit in
    if 0 <? f then
      let v := v + f64_trunc (f64_mul (f64_of_Z f) (f64_div (f64_of_Z unit) (f64_of_Z scale))) in
      if 2 ^ 63 <? v then None else Some v
    else Some v.

Definition starts_number (s : string) : bool :=
  match s with
  | EmptyString => false
  | String c _ => Ascii.eqb c "." || is_digit c
  end.

(** One number and its unit off the front of [s]. *)
Definition parse_segment (s : string) : option (Z * string) :=
  if negb (starts_number s) then None
  else
    match leadingInt s 0 with
    | None => None
    | Some (v, s1) =>
        let pre := negb (String.length s1 =? String.length s)%nat in
        let '(f, scale, s2, post) :=
          match s1 with
          | String "." s1' =>
              let '(f, scale, s2) := leadingFraction s1' 0 1 false in
              (f, scale, s2, negb (String.length s2 =? String.length s1')%nat)
          | _ => (0, 1, s1, false)
          end in
        if negb (pre || post) then None
        else
          let i := unit_len s2 in
          if (i =? 0)%nat then None
          else
            match unitMap (stake i s2) with
            | None => None
            | Some unit =>
                match segment_value v f scale unit with
                | None => None
                | Some v => Some (v, sdrop i s2)
                end
            end
    end.

(** The segments of [s] added to [d]; each is at least one byte. *)
Fixpoint parse_segments (fuel : nat) (s : string) (d : Z) : option Z :=
  match s with
  | EmptyString => Some d
  | _ =>
      match fuel with
      | O => None
      | S fuel =>
          match parse_segment s with
          | None => None
          | Some (v, s') =>
              let d := d + v in
              if 2 ^ 63 <? d then None else parse_segments fuel s' d
          end
      end
  end.

Definition ParseDuration (s : string) : option Duration :=
  let '(neg, s) :=
    match s with
    | String "-" s' => (true, s')
    | String "+" s' => (false, s')
    | _ => (false, s)
    end in
  if s ==s "0" then Some 0
  else if s ==s "" then None
  else
    match parse_segments (String.length s) s 0 with
    | None => None
    | Some d =>
        if neg : bool then Some (- d)
        else if 2 ^ 63 - 1 <? d then None else Some d
    end.

(** ** [Duration.String] *)

(** The low [prec] digits of [v], without trailing zeros, before [acc]; and
    the rest of [v]. *)
Fixpoint fmtFrac_digits (prec : nat) (v : Z) (print : bool) (acc : string) : string * Z * bool :=
  match prec with
  | O => (acc, v, print)
  | S prec =>
      let digit := v mod 10 in
      let print := print || negb (digit =? 0) in
      let acc := if print : bool then String (digit_char digit) acc else acc in
      fmtFrac_digits prec (v / 10) print acc
  end.

Definition fmtFrac (prec : nat) (v : Z) (acc : string) : string * Z :=
  let '(s, v, print) := fmtFrac_digits prec v false acc in
  ((if print : bool then String "." s else s), v).

Definition duration_magnitude (u : Z) : string :=
  if u <? Second then
    if u =? 0 then "0s"
    else
      let '(prec, suffix) :=
        if u <? Microsecond then (0%nat, "ns")
        else if u <? Millisecond then (3%nat, bytes_of [194; 181; 115]%nat)
        else (6%nat, "ms") in
      let '(s, v) := fmtFrac prec u suffix in dec v +:+ s
  else
    let '(s, u) := fmtFrac 9 u "s" in
    let secs := dec (u mod 60) +:+ s in
    let mins := u / 60 in
    if 0 <? mins then
      let s := dec (mins mod 60) +:+ String "m" secs in
      let hours := mins / 60 in
      if 0 <? hours then dec hours +:+ String "h" s else s
    else secs.

Definition duration_String (d : Duration) : string :=
  if d <? 0 then String "-" (duration_magnitude (- d)) else duration_magnitude d.

(** ** Durations round trip through their text

    [ParseDuration] reads back what [Duration.String] and its shortened form
    print, for every positive 64-bit duration. *)

(** ** Exact float64 arithmetic on integers below [2^53] *)

(** [x] is the integer [q], written with no rounding. *)
Definition f64_is (x : f64) (q : Z) : Prop :=
  0 < q /\ expo x <= 0 /\ mant x = q * 2 ^ (- expo x).

Lemma round_even_exact n d q : 0 < d -> n = q * d -> round_even n d = q.
Proof.
  intros Hd ->. unfold round_even. rewrite Z.div_mul, Z.mod_mul by lia.
  destruct (Z.ltb_spec (2 * 0) d); lia.
Qed.

Lemma f64_round_exact n d q :
  0 < d -> 0 < q < 2 ^ 53 -> n = q * d -> f64_is (f64_round n d) q.
Proof.
  intros Hd Hq Hn. assert (Hn0 : 0 < n) by nia.
  unfold f64_round. set (e0 := Z.log2 n - Z.log2 d - 52).
  set (e := if _ <? _ then _ else _).
  assert (He : e <= 0).
  { pose proof (Z.log2_spec n Hn0) as [Hn1 Hn2]. pose proof (Z.log2_spec d Hd) as [Hd1 Hd2].
    assert (Hqd : n < d * 2 ^ 53) by (subst n; nia).
    assert (Hlt : Z.log2 n < Z.log2 d + 54).
    { apply Z.log2_lt_pow2; [lia|]. replace (Z.log2 d + 54) with (Z.succ (Z.log2 d) + 53) by lia.
      pose proof (Z.log2_nonneg d). rewrite Z.pow_add_r by lia. lia. }
    subst e. destruct (Z.eq_dec e0 1) as [E|E].
    - rewrite E. simpl Z.max. rewrite Z.pow_0_r, Z.mul_1_r.
      rewrite (proj2 (Z.ltb_lt _ _)); [lia|]. exact Hqd.
    - assert (e0 <= 0) by lia. destruct (_ <? _); lia. }
  repeat split; simpl; try lia.
  rewrite (Z.max_l 0 e), (Z.max_r 0 (- e)), Z.pow_0_r, Z.mul_1_r by lia.
  apply round_even_exact; [done|]. subst n. lia.
Qed.

Lemma f64_of_Z_exact q : 0 < q < 2 ^ 53 -> f64_is (f64_of_Z q) q.
Proof. intros. apply f64_round_exact; lia. Qed.

Lemma f64_mul_exact a b p q :
  f64_is a p -> f64_is b q -> p * q < 2 ^ 53 -> f64_is (f64_mul a b) (p * q).
Proof.
  intros (Hp & Ha & Ea) (Hq & Hb & Eb) Hlt. unfold f64_mul.
  apply f64_round_exact; [apply Z.pow_pos_nonneg; lia|nia|].
  rewrite Ea, Eb, (Z.max_l 0 (_ + _)), (Z.max_r 0 (- _)) by lia.
  rewrite Z.opp_add_distr, Z.pow_add_r by lia. ring.
Qed.

Lemma f64_div_exact a b p q :
  f64_is a (q * p) -> f64_is b p -> 0 < q < 2 ^ 53 -> f64_is (f64_div a b) q.
Proof.
  intros (Hp & Ha & Ea) (Hq & Hb & Eb) Hlt. unfold f64_div.
  apply f64_round_exact.
  - apply Z.mul_pos_pos; [rewrite Eb|]; [apply Z.mul_pos_pos; [done|]|];
      apply Z.pow_pos_nonneg; lia.
  - done.
  - rewrite Ea, Eb.
    destruct (Z.le_gt_cases 0 (expo a - expo b)).
    + rewrite (Z.max_r 0 (expo a - expo b)), (Z.max_l 0 (- _)), Z.pow_0_r by lia.
      replace (- expo b) with (- expo a + (expo a - expo b)) by lia.
      rewrite (Z.pow_add_r 2 (- expo a) (expo a - expo b)) by lia. ring.
    + rewrite (Z.max_l 0 (expo a - expo b)), (Z.max_r 0 (- _)), Z.pow_0_r by lia.
      replace (- expo a) with (- expo b + - (expo a - expo b)) by lia.
      rewrite (Z.pow_add_r 2 (- expo b)) by lia. ring.
Qed.

Lemma f64_trunc_exact a q : f64_is a q -> f64_trunc a = q.
Proof.
  intros (Hq & He & E). unfold f64_trunc.
  rewrite (Z.max_l 0 (expo a)), (Z.max_r 0 (- _)), E, Z.pow_0_r, Z.mul_1_r by lia.
  apply Z.div_mul. apply Z.pow_nonzero; lia.
Qed.

(** ** Reading digits *)

Lemma leadingInt_digit c s x :
  is_digit c = true -> 0 <= digit_val c -> x * 10 + digit_val c <= 2 ^ 63 ->
  leadingInt (String c s) x = leadingInt s (x * 10 + digit_val c).
Proof.
  intros Hc Hd Hle. simpl. rewrite Hc.
  rewrite !(proj2 (Z.ltb_ge _ _)); [done|lia|].
  apply Z.div_le_lower_bound; lia.
Qed.

Lemma leadingInt_dec_go fuel n acc :
  0 <= n <= 2 ^ 63 -> n < 10 ^ Z.of_nat fuel ->
  leadingInt (dec_go fuel n acc) 0 = leadingInt acc n.
Proof.
  revert n acc. induction fuel as [|fuel IH]; intros n acc Hn Hf.
  - simpl in Hf. by replace n with 0 by lia.
  - pose proof (digit_char_spec (n mod 10) (Z.mod_pos_bound n 10 eq_refl)) as [Hc Hv].
    pose proof (Z.mod_pos_bound n 10 eq_refl). pose proof (Z.div_mod n 10 ltac:(lia)) as Hdm.
    simpl. destruct (Z.ltb_spec n 10).
    + rewrite leadingInt_digit; rewrite ?Hv; try lia; [|done].
      by rewrite Z.mod_small by lia.
    + rewrite Nat2Z.inj_succ, Z.pow_succ_r in Hf by lia.
      rewrite IH; [|split; [apply Z.div_pos; lia|]; apply Z.div_le_upper_bound; lia|
        apply Z.div_lt_upper_bound; lia].
      rewrite leadingInt_digit; rewrite ?Hv; try lia; [|done].
      f_equal. lia.
Qed.

Lemma dec_go_app fuel n acc : dec_go fuel n acc = dec_go fuel n "" +:+ acc.
Proof.
  revert n acc. induction fuel as [|fuel IH]; intros n acc; simpl; [done|].
  destruct (n <? 10); [done|].
  rewrite IH, (IH _ (String _ "")), sapp_assoc. done.
Qed.

Lemma dec_bound n : 0 <= n -> n < 10 ^ Z.of_nat (S (Z.to_nat (Z.log2 n))).
Proof.
  intros Hn. destruct (Z.eq_dec n 0) as [->|]; [done|].
  rewrite Nat2Z.inj_succ, Z2Nat.id by apply Z.log2_nonneg.
  pose proof (Z.log2_spec n ltac:(lia)). pose proof (Z.log2_nonneg n).
  assert (2 ^ Z.succ (Z.log2 n) <= 10 ^ Z.succ (Z.log2 n)) by (apply Z.pow_le_mono_l; lia).
  lia.
Qed.

Lemma leadingInt_dec n rest :
  0 <= n <= 2 ^ 63 -> leadingInt (dec n +:+ rest) 0 = leadingInt rest n.
Proof.
  intros Hn. unfold dec. rewrite <-dec_go_app. apply leadingInt_dec_go; [done|].
  apply dec_bound. lia.
Qed.

(** [s] starts with a digit. *)
Definition head_digit (s : string) : bool :=
  match s with String c _ => is_digit c | EmptyString => false end.

Lemma leadingInt_stop s n : head_digit s = false -> leadingInt s n = Some (n, s).
Proof. destruct s as [|c s]; simpl; [done|]. by intros ->. Qed.

Lemma dec_length n : (0 < String.length (dec n))%nat.
Proof. unfold dec. pose proof (dec_go_length (Z.to_nat (Z.log2 n)) n ""). simpl in *. lia. Qed.

Lemma dec_go_digit fuel n acc :
  0 <= n -> head_digit (dec_go (S fuel) n acc) = true.
Proof.
  revert n acc. induction fuel as [|fuel IH]; intros n acc Hn.
  - simpl. pose proof (digit_char_spec (n mod 10) (Z.mod_pos_bound n 10 eq_refl)) as [Hc _].
    by destruct (n <? 10).
  - change (dec_go (S (S fuel)) n acc) with
      (let acc := String (digit_char (n mod 10)) acc in
       if n <? 10 then acc else dec_go (S fuel) (n / 10) acc).
    pose proof (digit_char_spec (n mod 10) (Z.mod_pos_bound n 10 eq_refl)) as [Hc _].
    cbv zeta. destruct (n <? 10); [done|]. apply IH. apply Z.div_pos; lia.
Qed.

Lemma dec_starts_number n rest : 0 <= n -> starts_number (dec n +:+ rest) = true.
Proof.
  intros Hn. unfold dec. rewrite <-dec_go_app.
  pose proof (dec_go_digit (Z.to_nat (Z.log2 n)) n rest Hn) as H.
  destruct (dec_go _ n rest) as [|c s]; [done|]. simpl in *. by rewrite H, orb_true_r.
Qed.

(** ** Reading a fraction *)

Lemma leadingFraction_digit c s x scale :
  is_digit c = true -> 0 <= digit_val c -> x * 10 + digit_val c <= 2 ^ 63 -> x < 10 ^ 17 ->
  leadingFraction (String c s) x scale false = leadingFraction s (x * 10 + digit_val c) (scale * 10) false.
Proof.
  intros Hc Hd Hle Hx. simpl. rewrite Hc.
  by rewrite !(proj2 (Z.ltb_ge _ _)) by (apply Z.div_le_lower_bound || idtac; lia).
Qed.

Lemma leadingFraction_stop s x scale :
  head_digit s = false -> leadingFraction s x scale false = (x, scale, s).
Proof. destruct s as [|c s]; simpl; [done|]. by intros ->. Qed.

(** Once printing, [k] digits are put before [acc], and read back in front of
    it. *)
Lemma fmtFrac_digits_true k v acc x scale :
  (k <= 9)%nat -> 0 <= v -> 0 <= x -> x * 10 ^ Z.of_nat k < 10 ^ 17 ->
  exists D, fmtFrac_digits k v true acc = (D, v / 10 ^ Z.of_nat k, true) /\
    leadingFraction D x scale false =
    leadingFraction acc (x * 10 ^ Z.of_nat k + v mod 10 ^ Z.of_nat k) (scale * 10 ^ Z.of_nat k) false.
Proof.
  revert v acc x scale. induction k as [|k IH]; intros v acc x scale Hk Hv Hx Hb.
  - exists acc. simpl. rewrite Z.div_1_r, Z.mod_1_r, !Z.mul_1_r, Z.add_0_r. done.
  - rewrite Nat2Z.inj_succ, Z.pow_succ_r in * by lia.
    assert (Hp : 0 < 10 ^ Z.of_nat k) by (apply Z.pow_pos_nonneg; lia).
    pose proof (digit_char_spec (v mod 10) (Z.mod_pos_bound v 10 eq_refl)) as [Hc Hd].
    pose proof (Z.mod_pos_bound v 10 eq_refl).
    destruct (IH (v / 10) (String (digit_char (v mod 10)) acc) x scale) as (D & E & L);
      [lia|apply Z.div_pos; lia|lia|nia|].
    exists D. simpl. rewrite E, L. split.
    { rewrite Z.div_div by lia. done. }
    pose proof (Z.mod_pos_bound (v / 10) (10 ^ Z.of_nat k) Hp).
    assert (10 ^ Z.of_nat k <= 10 ^ 8) by (apply Z.pow_le_mono_r; lia).
    rewrite leadingFraction_digit; rewrite ?Hd; try lia; [|done].
    rewrite (Z.rem_mul_r v 10) by lia. f_equal; lia.
Qed.

Lemma fmtFrac_spec k v acc :
  (k <= 9)%nat -> 0 <= v ->
  head_digit acc = false ->
  exists s, fmtFrac k v acc = (s, v / 10 ^ Z.of_nat k) /\
    ((v mod 10 ^ Z.of_nat k = 0 /\ s = acc) \/
     exists D j f, s = String "." D /\ (0 < j <= k)%nat /\ 0 < f /\
       leadingFraction D 0 1 false = (f, 10 ^ Z.of_nat j, acc) /\
       f * 10 ^ Z.of_nat (k - j) = v mod 10 ^ Z.of_nat k).
Proof.
  intros Hk Hv Hacc. unfold fmtFrac.
  assert (Hgen : exists D, 
    (fmtFrac_digits k v false acc = (acc, v / 10 ^ Z.of_nat k, false) /\
       v mod 10 ^ Z.of_nat k = 0) \/
    exists j f, fmtFrac_digits k v false acc = (D, v / 10 ^ Z.of_nat k, true) /\
       (0 < j <= k)%nat /\ 0 < f /\
       leadingFraction D 0 1 false = (f, 10 ^ Z.of_nat j, acc) /\
       f * 10 ^ Z.of_nat (k - j) = v mod 10 ^ Z.of_nat k).
  { revert v Hv. induction k as [|k IH]; intros v Hv.
    - exists "". left. simpl. by rewrite Z.div_1_r, Z.mod_1_r.
    - rewrite Nat2Z.inj_succ, Z.pow_succ_r by lia.
      assert (Hp : 0 < 10 ^ Z.of_nat k) by (apply Z.pow_pos_nonneg; lia).
      pose proof (Z.mod_pos_bound v 10 eq_refl).
      rewrite (Z.rem_mul_r v 10) by lia. rewrite <-Z.div_div by lia. simpl.
      destruct (Z.eqb_spec (v mod 10) 0) as [E|E]; simpl.
      + destruct (IH ltac:(lia) (v / 10)) as (D & [[-> ->]|(j & f & -> & Hj & Hf & L & Ef)]);
          [apply Z.div_pos; lia|exists ""; left; split; [done|lia]|].
        exists D. right. exists j, f. repeat split; try lia; try done.
        rewrite Nat.sub_succ_l by lia. rewrite Nat2Z.inj_succ, Z.pow_succ_r by lia. lia.
      + destruct (fmtFrac_digits_true k (v / 10) (String (digit_char (v mod 10)) acc) 0 1)
          as (D & -> & L); [lia|apply Z.div_pos; lia|lia|lia|].
        exists D. right. exists (S k), (v mod 10 + 10 * (v / 10 mod 10 ^ Z.of_nat k)).
        pose proof (Z.mod_pos_bound (v / 10) (10 ^ Z.of_nat k) Hp).
        assert (10 ^ Z.of_nat k <= 10 ^ 8) by (apply Z.pow_le_mono_r; lia).
        pose proof (digit_char_spec (v mod 10) (Z.mod_pos_bound v 10 eq_refl)) as [Hc Hd].
        repeat split; try lia.
        * rewrite L, leadingFraction_digit; rewrite ?Hd; try lia; [|done].
          rewrite Nat2Z.inj_succ, Z.pow_succ_r by lia.
          rewrite leadingFraction_stop by done. f_equal. f_equal; lia.
        * rewrite Nat.sub_diag. simpl. lia. }
  destruct Hgen as (D & [[-> E]|(j & f & -> & Hj & Hf & L & E)]).
  - exists acc. split; [done|]. by left.
  - exists (String "." D). split; [done|]. right. by exists D, j, f.
Qed.

(** ** One segment: a number and its unit *)

(** [s] has no digit and no dot, so all of it is read as a unit. *)
Definition unit_text (u : string) : Prop := unit_len u = String.length u /\ u <> "".

Lemma unit_len_app u rest :
  unit_len u = String.length u ->
  unit_len (u +:+ rest) = (String.length u + unit_len rest)%nat.
Proof.
  induction u as [|c u IH]; simpl; [done|].
  destruct (Ascii.eqb c "." || is_digit c); [done|]. intros [=]. by rewrite IH.
Qed.

Lemma unit_text_head u rest : unit_text u -> head_digit (u +:+ rest) = false.
Proof.
  intros [Hu Hn]. destruct u as [|c u]; [done|]. simpl in *.
  destruct (is_digit c); [|done]. by rewrite orb_true_r in Hu.
Qed.

Lemma unit_text_dot u rest {A} (k : string -> A) (e : A) :
  unit_text u ->
  match u +:+ rest with String "." s => k s | _ => e end = e.
Proof.
  intros [Hu Hn]. destruct u as [|c u]; [done|]. simpl in *.
  destruct (Ascii.eqb c ".") eqn:E; [done|].
  destruct c as [[] [] [] [] [] [] [] []]; done.
Qed.

Lemma parse_segment_int n u unit rest :
  unit_text u -> unit_len rest = 0%nat -> unitMap u = Some unit -> 0 < unit ->
  0 <= n -> n * unit <= 2 ^ 63 ->
  parse_segment (dec n +:+ u +:+ rest) = Some (n * unit, rest).
Proof.
  intros Hu Hr Hm Hp Hn Hle. unfold parse_segment.
  rewrite dec_starts_number by done. simpl.
  rewrite leadingInt_dec, leadingInt_stop by (apply unit_text_head || nia; done).
  rewrite (unit_text_dot u rest (fun s1' => _)) by done.
  rewrite (proj2 (Nat.eqb_neq _ _)) by (pose proof (dec_length n); autorewrite with go_rw; lia).
  simpl. destruct Hu as [Hl Hne]. rewrite unit_len_app, Hr, Nat.add_0_r by done.
  destruct (Nat.eqb_spec (String.length u) 0); [by destruct u|].
  rewrite stake_app, sdrop_app, Hm. unfold segment_value.
  rewrite (proj2 (Z.ltb_ge _ _)); [done|]. apply Z.div_le_lower_bound; lia.
Qed.

(** The fraction of a unit that is a power of ten is exact. *)
Lemma segment_value_frac n f k j r :
  0 <= n -> (0 < j <= k)%nat -> (k <= 9)%nat -> 0 < f -> 
  f * 10 ^ Z.of_nat (k - j) = r -> r < 10 ^ Z.of_nat k ->
  n * 10 ^ Z.of_nat k + r <= 2 ^ 63 ->
  segment_value n f (10 ^ Z.of_nat j) (10 ^ Z.of_nat k) = Some (n * 10 ^ Z.of_nat k + r).
Proof.
  intros Hn Hj Hk Hf Er Hr Hle. unfold segment_value.
  assert (H0 : 0 < 10 ^ Z.of_nat (k - j)) by (apply Z.pow_pos_nonneg; lia).
  assert (Hjp : 0 < 10 ^ Z.of_nat j) by (apply Z.pow_pos_nonneg; lia).
  assert (Hkp : 10 ^ Z.of_nat k <= 10 ^ 9) by (apply Z.pow_le_mono_r; lia).
  assert (Hsplit : 10 ^ Z.of_nat k = 10 ^ Z.of_nat (k - j) * 10 ^ Z.of_nat j).
  { rewrite <-Z.pow_add_r by lia. f_equal. lia. }
  rewrite (proj2 (Z.ltb_ge _ _)) by (apply Z.div_le_lower_bound; nia).
  rewrite (proj2 (Z.ltb_lt _ _)) by done.
  erewrite (f64_trunc_exact _ r).
  { rewrite (proj2 (Z.ltb_ge _ _)); [done|lia]. }
  rewrite <-Er. apply f64_mul_exact; [apply f64_of_Z_exact; nia| |nia].
  apply (f64_div_exact _ _ (10 ^ Z.of_nat j)); [|apply f64_of_Z_exact; nia|nia].
  rewrite <-Hsplit. apply f64_of_Z_exact. nia.
Qed.

Lemma parse_segment_frac n v k u :
  unit_text u -> unitMap u = Some (10 ^ Z.of_nat k) -> (k <= 9)%nat ->
  0 <= n -> 0 <= v -> n * 10 ^ Z.of_nat k + v mod 10 ^ Z.of_nat k <= 2 ^ 63 ->
  exists s, fmtFrac k v u = (s, v / 10 ^ Z.of_nat k) /\
    parse_segment (dec n +:+ s) = Some (n * 10 ^ Z.of_nat k + v mod 10 ^ Z.of_nat k, "").
Proof.
  intros Hu Hm Hk Hn Hv Hle.
  assert (Hp : 0 < 10 ^ Z.of_nat k) by (apply Z.pow_pos_nonneg; lia).
  pose proof (Z.mod_pos_bound v _ Hp) as Hmod.
  assert (Hh : head_digit u = false) by (rewrite <-(sapp_nil_r u); by apply unit_text_head).
  destruct (fmtFrac_spec k v u Hk Hv Hh) as (s & Es & [[E ->]|(D & j & f & -> & Hj & Hf & L & E)]).
  - exists u. split; [done|]. rewrite <-(sapp_nil_r u), E, Z.add_0_r.
    apply parse_segment_int; try done; lia.
  - exists (String "." D). split; [done|]. unfold parse_segment.
    rewrite dec_starts_number by done. simpl.
    rewrite leadingInt_dec by nia. simpl leadingInt. cbv iota beta.
    assert ((String.length (String "." D) =? String.length (dec n +:+ String "." D))%nat = false) as ->.
    { apply Nat.eqb_neq. pose proof (dec_length n). autorewrite with go_rw. lia. }
    rewrite L. simpl. destruct Hu as [Hl Hne]. rewrite Hl.
    destruct (Nat.eqb_spec (String.length u) 0); [by destruct u|].
    pose proof (stake_app u "") as E1. pose proof (sdrop_app u "") as E2.
    rewrite sapp_nil_r in E1, E2. rewrite E1, E2, Hm.
    rewrite (segment_value_frac n f k j (v mod 10 ^ Z.of_nat k)); try done; lia.
Qed.

(** ** Sequences of segments *)

Lemma parse_segments_mono fuel fuel' s d r :
  parse_segments fuel s d = Some r -> (fuel <= fuel')%nat -> parse_segments fuel' s d = Some r.
Proof.
  revert fuel' s d. induction fuel as [|fuel IH]; intros fuel' s d; destruct s as [|c s]; simpl.
  - by destruct fuel'.
  - done.
  - by destruct fuel'.
  - destruct fuel' as [|fuel']; [lia|]. intros H Hle. simpl.
    destruct (parse_segment _) as [[v s']|]; [|done].
    destruct (_ <? _); [done|]. apply IH; [done|lia].
Qed.

Lemma parse_segments_step fuel s v s' d :
  parse_segment s = Some (v, s') -> d + v <= 2 ^ 63 ->
  parse_segments (S fuel) s d = parse_segments fuel s' (d + v).
Proof.
  intros H Hle. destruct s as [|c s]; [done|]. simpl. rewrite H.
  by rewrite (proj2 (Z.ltb_ge _ _)) by lia.
Qed.

Lemma parse_segments_nil fuel d : parse_segments fuel "" d = Some d.
Proof. by destruct fuel. Qed.

(** A text of digits and units is not a sign and not ["0"]. *)
Lemma ParseDuration_segments n rest d fuel :
  0 <= n -> rest <> "" -> (fuel <= String.length (dec n +:+ rest))%nat -> d < 2 ^ 63 ->
  parse_segments fuel (dec n +:+ rest) 0 = Some d ->
  ParseDuration (dec n +:+ rest) = Some d.
Proof.
  intros Hn Hr Hf Hd H.
  pose proof (dec_starts_number n rest Hn) as Hs. pose proof (dec_length n) as Hl.
  assert (Hlen : (2 <= String.length (dec n +:+ rest))%nat).
  { autorewrite with go_rw. destruct rest; [done|]. simpl. lia. }
  pose proof (parse_segments_mono _ _ _ _ _ H Hf) as H'.
  destruct (dec n +:+ rest) as [|c s]; [done|]. unfold ParseDuration.
  assert ((String c s ==s "0") = false) as E0 by (apply String.eqb_neq; intros [= -> ->]; simpl in *; lia).
  assert (Hsign : c <> "-"%char /\ c <> "+"%char) by (split; intros ->; done).
  assert (Hgo : (if String c s ==s "0" then Some 0 else if String c s ==s "" then None
    else match parse_segments (String.length (String c s)) (String c s) 0 with
         | None => None | Some d => if 2 ^ 63 - 1 <? d then None else Some d end) = Some d).
  { rewrite E0. simpl (String c s ==s ""). rewrite H'. by rewrite (proj2 (Z.ltb_ge _ _)) by lia. }
  destruct Hsign as [H1 H2].
  destruct c as [[] [] [] [] [] [] [] []]; try exact Hgo; done.
Qed.

(** ** Printing and reading back *)

Lemma unit_text_s : unit_text "s". Proof. by split. Qed.
Lemma unit_text_m : unit_text "m". Proof. by split. Qed.
Lemma unit_text_h : unit_text "h". Proof. by split. Qed.
#[local] Hint Resolve unit_text_s unit_text_m unit_text_h : go.

Lemma head_digit_unit_len s : head_digit s = true -> unit_len s = 0%nat.
Proof. destruct s as [|c s]; simpl; [done|]. intros ->. by rewrite orb_true_r. Qed.

Lemma dec_head_digit n rest : 0 <= n -> head_digit (dec n +:+ rest) = true.
Proof.
  intros Hn. unfold dec. rewrite <-dec_go_app.
  pose proof (dec_go_digit (Z.to_nat (Z.log2 n)) n rest Hn) as H.
  by destruct (dec_go _ n rest).
Qed.

(** The units below a second, by magnitude. *)
Lemma parse_subsecond u k suffix :
  0 < u < Second -> unit_text suffix -> unitMap suffix = Some (10 ^ Z.of_nat k) -> (k <= 9)%nat ->
  ParseDuration (let '(s, v) := fmtFrac k u suffix in dec v +:+ s) = Some u.
Proof.
  unfold Second. intros Hu Ht Hm Hk.
  assert (Hp : 0 < 10 ^ Z.of_nat k) by (apply Z.pow_pos_nonneg; lia).
  pose proof (Z.div_mod u (10 ^ Z.of_nat k) ltac:(lia)) as Hdm.
  destruct (parse_segment_frac (u / 10 ^ Z.of_nat k) u k suffix) as (s & -> & Hs);
    try done; try lia; [apply Z.div_pos; lia|].
  assert (Hne : s <> "").
  { intros ->. rewrite sapp_nil_r in Hs. unfold parse_segment in Hs. revert Hs.
    destruct (negb _); [done|].
    pose proof (leadingInt_dec (u / 10 ^ Z.of_nat k) "") as E. rewrite sapp_nil_r in E.
    rewrite E by (split; [apply Z.div_pos; lia|apply Z.div_le_upper_bound; nia]). simpl.
    by destruct (negb _). }
  apply (ParseDuration_segments _ _ _ 1); try lia; try done.
  { apply Z.div_pos; lia. }
  { autorewrite with go_rw. pose proof (dec_length (u / 10 ^ Z.of_nat k)). lia. }
  rewrite (parse_segments_step _ _ _ _ _ Hs) by lia. rewrite parse_segments_nil. f_equal. lia.
Qed.

Lemma parse_minutes n rest :
  0 <= n -> n * Minute <= 2 ^ 63 -> head_digit rest = true ->
  parse_segment (dec n +:+ String "m" rest) = Some (n * Minute, rest).
Proof. intros. apply (parse_segment_int n "m"); try done; auto using head_digit_unit_len with go. Qed.

Lemma parse_hours n rest :
  0 <= n -> n * Hour <= 2 ^ 63 -> head_digit rest = true ->
  parse_segment (dec n +:+ String "h" rest) = Some (n * Hour, rest).
Proof. intros. apply (parse_segment_int n "h"); try done; auto using head_digit_unit_len with go. Qed.

(** Seconds, with minutes and hours before them. *)
Lemma parse_from_second u :
  Second <= u < 2 ^ 63 -> ParseDuration (duration_magnitude u) = Some u.
Proof.
  unfold Second. intros Hu. unfold duration_magnitude.
  rewrite (proj2 (Z.ltb_ge _ _)) by (unfold Second; lia).
  set (n := u / 10 ^ Z.of_nat 9 mod 60).
  pose proof (Z.mod_pos_bound (u / 10 ^ Z.of_nat 9) 60 eq_refl) as Hn. fold n in Hn.
  pose proof (Z.mod_pos_bound u (10 ^ Z.of_nat 9) eq_refl) as Hr.
  destruct (parse_segment_frac n u 9 "s") as (s & -> & Hs); try (done || lia).
  fold n. pose proof (Z.div_mod u (10 ^ Z.of_nat 9) ltac:(lia)) as H1.
  set (u1 := u / 10 ^ Z.of_nat 9) in *. set (frac := u mod 10 ^ Z.of_nat 9) in *.
  pose proof (Z.div_mod u1 60 ltac:(lia)) as H2. fold n in H2.
  pose proof (Z.mod_pos_bound (u1 / 60) 60 eq_refl) as Hm.
  pose proof (Z.div_mod (u1 / 60) 60 ltac:(lia)) as H3.
  pose proof (dec_length n) as L1. pose proof (dec_length (u1 / 60 mod 60)) as L2.
  assert (0 <= u1 / 60) by (apply Z.div_pos; lia).
  assert (0 <= u1 / 60 / 60) by (apply Z.div_pos; lia).
  change (10 ^ Z.of_nat 9) with 1000000000 in *.
  destruct (Z.ltb_spec 0 (u1 / 60)); [destruct (Z.ltb_spec 0 (u1 / 60 / 60))|].
  - apply (ParseDuration_segments _ _ _ 3); try lia; try done.
    { pose proof (dec_length (u1 / 60 / 60)). repeat (autorewrite with go_rw; simpl). lia. }
    erewrite parse_segments_step;
      [|apply parse_hours; [lia|unfold Hour, Minute, Second; lia|apply dec_head_digit; lia]
       |unfold Hour, Minute, Second; lia].
    erewrite parse_segments_step;
      [|apply parse_minutes; [lia|unfold Minute, Second; lia|apply dec_head_digit; lia]
       |unfold Hour, Minute, Second; lia].
    rewrite (parse_segments_step _ _ _ _ _ Hs), parse_segments_nil; unfold Hour, Minute, Second;
      [f_equal|]; lia.
  - assert (u1 / 60 / 60 = 0) by lia.
    apply (ParseDuration_segments _ _ _ 2); try lia; try done.
    { repeat (autorewrite with go_rw; simpl). lia. }
    erewrite parse_segments_step;
      [|apply parse_minutes; [lia|unfold Minute, Second; lia|apply dec_head_digit; lia]
       |unfold Hour, Minute, Second; lia].
    rewrite (parse_segments_step _ _ _ _ _ Hs), parse_segments_nil; unfold Hour, Minute, Second;
      [f_equal|]; lia.
  - assert (u1 / 60 = 0) by lia.
    assert (Hne : s <> "").
    { intros ->. rewrite sapp_nil_r in Hs. revert Hs. unfold parse_segment.
      destruct (negb _); [done|].
      pose proof (leadingInt_dec n "") as E. rewrite sapp_nil_r in E. rewrite E by lia. simpl.
      by destruct (negb _). }
    apply (ParseDuration_segments _ _ _ 1); try lia; try done.
    { autorewrite with go_rw. lia. }
    rewrite (parse_segments_step _ _ _ _ _ Hs), parse_segments_nil; [f_equal|]; lia.
Qed.

Lemma ParseDuration_String d :
  0 < d < 2 ^ 63 -> ParseDuration (duration_String d) = Some d.
Proof.
  intros Hd. unfold duration_String. rewrite (proj2 (Z.ltb_ge _ _)) by lia.
  destruct (Z.ltb_spec d Second) as [Hs|Hs]; [|apply parse_from_second; lia].
  unfold duration_magnitude. rewrite (proj2 (Z.ltb_lt _ _)) by done.
  destruct (Z.eqb_spec d 0); [lia|].
  destruct (d <? Microsecond); [|destruct (d <? Millisecond)];
    (apply parse_subsecond; [lia|by split|done|lia]).
Qed.

Lemma unit_len_le t : (unit_len t <= String.length t)%nat.
Proof. induction t as [|d t IH]; simpl; [done|]. destruct (_ || _); lia. Qed.

Lemma unit_len_app_lt t w :
  (unit_len t < String.length t)%nat -> unit_len (t +:+ w) = unit_len t.
Proof.
  induction t as [|d t IH]; simpl; [lia|]. destruct (_ || _); [done|].
  intros. rewrite IH; lia.
Qed.

Lemma stake_app_le i t w : (i <= String.length t)%nat -> stake i (t +:+ w) = stake i t.
Proof.
  revert i; induction t as [|d t IH]; intros i; simpl.
  - intros. replace i with 0%nat by lia. by destruct w.
  - destruct i as [|i]; [done|]. intros. simpl. rewrite IH by lia. done.
Qed.

Lemma sdrop_app_le i t w : (i <= String.length t)%nat -> sdrop i (t +:+ w) = sdrop i t +:+ w.
Proof.
  revert i; induction t as [|d t IH]; intros i; simpl.
  - intros. replace i with 0%nat by lia. by destruct w.
  - destruct i as [|i]; [done|]. intros. simpl. apply IH. lia.
Qed.


(** ** Every segment shortens the text, so the length is fuel enough *)

Lemma leadingInt_shorter s x n s' :
  leadingInt s x = Some (n, s') -> (String.length s' <= String.length s)%nat.
Proof.
  revert x. induction s as [|c s IH]; intros x; simpl; [by intros [= _ <-]|].
  destruct (is_digit c); [|by intros [= _ <-]].
  destruct (_ <? _); [done|]. destruct (_ <? _); [done|]. intros H%IH. lia.
Qed.

Lemma leadingFraction_shorter s x scale o :
  (String.length (leadingFraction s x scale o).2 <= String.length s)%nat.
Proof.
  revert x scale o. induction s as [|c s IH]; intros x scale o; simpl; [done|].
  destruct (is_digit c); [|done].
  destruct o; [|destruct (_ <? _); [|destruct (_ <? _)]]; (etrans; [apply IH|lia]).
Qed.

Lemma slength_sdrop i s : String.length (sdrop i s) = (String.length s - i)%nat.
Proof. revert i; induction s as [|c s IH]; intros [|i]; simpl; try lia. apply IH. Qed.

Lemma parse_segment_shorter s v s' :
  parse_segment s = Some (v, s') -> (String.length s' < String.length s)%nat.
Proof.
  unfold parse_segment. destruct (negb _); [done|].
  destruct (leadingInt s 0) as [[n s1]|] eqn:EI; [|done]. apply leadingInt_shorter in EI.
  set (q := match s1 with String "." s1' => _ | _ => _ end).
  assert (Hq : (String.length q.1.2 <= String.length s1)%nat).
  { subst q. destruct s1 as [|x s1]; [done|].
    pose proof (leadingFraction_shorter s1 0 1 false) as Hf.
    destruct (leadingFraction s1 0 1 false) as [[f sc] s2]. simpl in *.
    destruct x as [[] [] [] [] [] [] [] []]; simpl; lia. }
  destruct q as [[[f sc] s2] post]. simpl in *. destruct (negb _); [done|].
  destruct (Nat.eqb_spec (unit_len s2) 0); [done|]. destruct (unitMap _); [|done].
  destruct (segment_value _ _ _ _); [|done]. intros [= _ <-].
  rewrite slength_sdrop. pose proof (unit_len_le s2). lia.
Qed.

Lemma parse_segments_fuel fuel s d r :
  parse_segments fuel s d = Some r -> parse_segments (String.length s) s d = Some r.
Proof.
  revert s d. induction fuel as [|fuel IH]; intros s d; [by destruct s|].
  destruct s as [|c s]; [done|]. intros H.
  change (String.length (String c s)) with (S (String.length s)).
  cbn [parse_segments] in *. destruct (parse_segment _) as [[v s']|] eqn:E; [|done].
  apply parse_segment_shorter in E. simpl in E. destruct (_ <? _); [done|].
  apply IH in H. apply (parse_segments_mono _ _ _ _ _ H). lia.
Qed.

(** ** Dropping a whole zero unit from the end

    [x0s] after a unit letter adds nothing: reading [t ++ c ++ "0s"] and
    [t ++ c] give the same value. *)

Section TrimZero.
Context (c : ascii) (z : string).
Hypothesis (Hdigit : is_digit c = false) (Hdot : Ascii.eqb c "." = false).
Hypothesis (Hz : unit_len z = 0%nat).
Hypothesis (Hzero : parse_segment z = Some (0, "")).

Lemma leadingInt_app t x :
  leadingInt (t +:+ String c z) x =
  (fun '(v, t') => (v, t' +:+ String c z)) <$> leadingInt t x.
Proof using Hdigit.
  revert x; induction t as [|d t IH]; intros x; simpl; [by rewrite Hdigit|].
  destruct (is_digit d); [|done]. destruct (_ <? _); [done|]. by destruct (_ <? _).
Qed.

Lemma leadingFraction_app t x scale o :
  leadingFraction (t +:+ String c z) x scale o =
  let '(f, sc, t') := leadingFraction t x scale o in (f, sc, t' +:+ String c z).
Proof using Hdigit.
  revert x scale o; induction t as [|d t IH]; intros x scale o; simpl; [by rewrite Hdigit|].
  destruct (is_digit d); [|done]. destruct o; [done|].
  destruct (_ <? _); [done|]. by destruct (_ <? _).
Qed.

Lemma starts_number_app t w :
  starts_number (t +:+ String c w) = starts_number (t +:+ String c "").
Proof using. by destruct t. Qed.

(** One segment off [t ++ c ++ z]: either it ends inside [t], or it takes
    the [c] and leaves [z], where [t ++ c] leaves nothing. *)
Lemma parse_segment_app t v s' :
  parse_segment (t +:+ String c z) = Some (v, s') ->
  (exists t', s' = t' +:+ String c z /\ parse_segment (t +:+ String c "") = Some (v, t' +:+ String c "")) \/
  (s' = z /\ parse_segment (t +:+ String c "") = Some (v, "")).
Proof using Hdigit Hdot Hz.
  unfold parse_segment. rewrite starts_number_app.
  destruct (negb (starts_number _)); [done|].
  assert (leadingInt (t +:+ String c "") 0 =
    (fun '(v, t') => (v, t' +:+ String c "")) <$> leadingInt t 0) as ->.
  { clear -Hdigit. generalize 0. induction t as [|d t IH]; intros x; simpl; [by rewrite Hdigit|].
    destruct (is_digit d); [|done]. destruct (_ <? _); [done|]. by destruct (_ <? _). }
  rewrite leadingInt_app. destruct (leadingInt t 0) as [[n t1]|]; simpl; [|done].
  assert (forall w, (String.length (t1 +:+ String c w) =? String.length (t +:+ String c w))%nat
    = (String.length t1 =? String.length t)%nat) as Hpre.
  { intros w. autorewrite with go_rw. apply eq_true_iff_eq. rewrite !Nat.eqb_eq. lia. }
  rewrite !Hpre. clear Hpre.
  set (frac w := match t1 +:+ String c w with
    | String "." s1' => let '(f, scale, s2) := leadingFraction s1' 0 1 false in
        (f, scale, s2, negb (String.length s2 =? String.length s1')%nat)
    | _ => (0, 1, t1 +:+ String c w, false) end).
  assert (exists f sc t2 post, forall w, unit_len w = 0%nat -> frac w = (f, sc, t2 +:+ String c w, post))
    as (f & sc & t2 & post & Hfrac).
  { subst frac. destruct t1 as [|d t1].
    - exists 0, 1, "", false. intros w _. simpl.
      destruct c as [[] [] [] [] [] [] [] []]; done.
    - destruct (Ascii.eqb_spec d ".") as [->|Hd].
      + destruct (leadingFraction t1 0 1 false) as [[f sc] t2] eqn:E.
        exists f, sc, t2, (negb (String.length t2 =? String.length t1)%nat).
        intros w _. simpl.
        assert (leadingFraction (t1 +:+ String c w) 0 1 false = (f, sc, t2 +:+ String c w)) as ->.
        { revert E. clear -Hdigit. generalize 0 1 false.
          induction t1 as [|d t1 IH]; intros x scale o; simpl; [by rewrite Hdigit; intros [= -> -> <-]|].
          destruct (is_digit d); [|by intros [= -> -> <-]]. destruct o; [apply IH|].
          destruct (_ <? _); [apply IH|]. destruct (_ <? _); apply IH. }
        do 2 f_equal. autorewrite with go_rw. apply eq_true_iff_eq. rewrite !Nat.eqb_eq. lia.
      + exists 0, 1, (String d t1), false. intros w _. simpl.
        destruct d as [[] [] [] [] [] [] [] []]; done. }
  fold (frac z) (frac ""). rewrite (Hfrac z Hz), (Hfrac "" eq_refl).
  destruct (negb _); [done|].
  destruct (decide (unit_len t2 < String.length t2)%nat) as [Hlt|Hge].
  - rewrite !unit_len_app_lt, !stake_app_le, !sdrop_app_le by lia.
    destruct (_ =? _)%nat; [done|]. destruct (unitMap _); [|done].
    destruct (segment_value _ _ _ _); [|done]. intros [= -> <-]. left. by eexists.
  - pose proof (unit_len_le t2).
    assert (Hw : forall w, unit_len w = 0%nat ->
      unit_len (t2 +:+ String c w) = String.length (t2 +:+ String c "")).
    { intros w Hw. rewrite unit_len_app by lia. simpl. rewrite Hdot, Hdigit, Hw. simpl.
      autorewrite with go_rw. done. }
    rewrite (Hw z Hz), (Hw "" eq_refl).
    assert (t2 +:+ String c z = (t2 +:+ String c "") +:+ z) as -> by (by rewrite sapp_assoc).
    rewrite stake_app, sdrop_app.
    pose proof (stake_app (t2 +:+ String c "") "") as E1.
    pose proof (sdrop_app (t2 +:+ String c "") "") as E2. rewrite sapp_nil_r in E1, E2.
    rewrite E1, E2.
    destruct (_ =? _)%nat; [done|]. destruct (unitMap _); [|done].
    destruct (segment_value _ _ _ _); [|done]. intros [= -> <-]. by right.
Qed.

Lemma parse_segments_trim fuel t d r :
  parse_segments fuel (t +:+ String c z) d = Some r ->
  parse_segments fuel (t +:+ String c "") d = Some r.
Proof using Hdigit Hdot Hz Hzero.
  revert t d. induction fuel as [|fuel IH]; intros t d H; [by destruct t|].
  assert (Hcase : exists v s', parse_segment (t +:+ String c z) = Some (v, s') /\
    d + v <= 2 ^ 63 /\ parse_segments fuel s' (d + v) = Some r).
  { destruct (t +:+ String c z) as [|a s] eqn:E; [by destruct t|]. cbn [parse_segments] in H.
    destruct (parse_segment (String a s)) as [[v s']|]; [|done]. destruct (2 ^ 63 <? d + v) eqn:E3; [done|]. go_bools.
    by exists v, s'. }
  destruct Hcase as (v & s' & Hs & Hle & Hrest).
  apply parse_segment_app in Hs as [(t' & -> & Hs)|[-> Hs]].
  - rewrite (parse_segments_step _ _ _ _ _ Hs) by done. by apply IH.
  - rewrite (parse_segments_step _ _ _ _ _ Hs) by done. rewrite parse_segments_nil.
    destruct fuel as [|fuel]; [by destruct z|].
    rewrite (parse_segments_step _ _ _ _ _ Hzero) in Hrest by lia.
    rewrite parse_segments_nil, Z.add_0_r in Hrest. done.
Qed.
End TrimZero.

(** What [ParseDuration] of an unsigned text comes to. *)
Definition unsigned_duration (s : string) : option Duration :=
  if s ==s "0" then Some 0
  else if s ==s "" then None
  else match parse_segments (String.length s) s 0 with
       | None => None
       | Some d => if 2 ^ 63 - 1 <? d then None else Some d
       end.

Lemma ParseDuration_unsigned s :
  starts_number s = true -> ParseDuration s = unsigned_duration s.
Proof.
  destruct s as [|c s]; [done|]. simpl. intros H.
  destruct c as [[] [] [] [] [] [] [] []]; done.
Qed.

Lemma ParseDuration_trim t c z d :
  is_digit c = false -> Ascii.eqb c "." = false -> unit_len z = 0%nat -> z <> "" ->
  parse_segment z = Some (0, "") -> starts_number t = true ->
  ParseDuration (t +:+ String c z) = Some d -> ParseDuration (t +:+ String c "") = Some d.
Proof.
  intros Hc Hdot Hz Hne Hzero Hs. 
  assert (Hs' : forall w, starts_number (t +:+ w) = true) by (by destruct t).
  rewrite !ParseDuration_unsigned by done. unfold unsigned_duration.
  assert (forall w, ((t +:+ String c w) ==s "0") = false) as Hn0.
  { intros w. apply String.eqb_neq. destruct t as [|d' [|e t]]; done. }
  assert (forall w, ((t +:+ String c w) ==s "") = false) as Hne0 by (by destruct t).
  rewrite !Hn0, !Hne0.
  destruct (parse_segments _ (t +:+ String c z) 0) as [r|] eqn:E; [|done].
  intros Hd.
  by rewrite (parse_segments_fuel _ _ _ _ (parse_segments_trim c z Hc Hdot Hz Hzero _ _ _ _ E)).
Qed.

(** ** The text of a positive duration starts with a digit *)

Lemma fmtFrac_nonneg prec v acc : 0 <= v -> 0 <= (fmtFrac prec v acc).2.
Proof.
  unfold fmtFrac. intros Hv.
  assert (forall print acc, 0 <= (fmtFrac_digits prec v print acc).1.2) as H.
  { revert v Hv. induction prec as [|prec IH]; intros v Hv print acc0; cbn [fmtFrac_digits]; [done|].
    cbv zeta. apply IH. by apply Z.div_pos. }
  specialize (H false acc). by destruct (fmtFrac_digits _ _ _ _) as [[s w] print].
Qed.

Lemma duration_String_starts d : 0 < d -> starts_number (duration_String d) = true.
Proof.
  intros Hd. unfold duration_String. rewrite (proj2 (Z.ltb_ge _ _)) by lia. unfold duration_magnitude.
  destruct (d <? Second).
  - destruct (Z.eqb_spec d 0); [lia|]. destruct (if d <? Microsecond then _ else _) as [prec suffix].
    pose proof (fmtFrac_nonneg prec d suffix ltac:(lia)). destruct (fmtFrac _ _ _). by apply dec_starts_number.
  - pose proof (fmtFrac_nonneg 9 d "s" ltac:(lia)). destruct (fmtFrac _ _ _) as [s u]. simpl in *. cbv zeta.
    destruct (0 <? u / 60); [destruct (0 <? u / 60 / 60)|]; apply dec_starts_number;
      first [by apply Z.mod_pos_bound | repeat apply Z.div_pos; lia].
Qed.

(** A suffix cut off leaves what comes before it. *)
