(* ===== verification/TaskModel.v ===== *)
(** * The group-task model (internal/tasks/model.go, job.go)

    A Go slice that is [nil] and one that is empty are told apart where the
    program does (a packages list, a target list): those are [option]s of
    lists.  The pointers of a step and of a job are [option]s; [Kind] names
    the one that is set. *)

From S2P Require Import Prelude GoStrings GoTime.

Definition MaxDocumentBytes : nat := 64 * 1024.
Definition MaxSteps : nat := 50.

Definition DefaultCommandTimeout : Duration := 10 * Minute.
Definition DefaultRebootWait : Duration := 10 * Minute.

Definition StepPackages : string := "packages".
Definition StepService : string := "service".
Definition StepCommand : string := "command".
Definition StepFile : string := "file".
Definition StepStack : string := "stack".
Definition StepReboot : string := "reboot".

Definition stepKinds : list string :=
  [StepPackages; StepService; StepCommand; StepFile; StepStack; StepReboot].
Definition serviceActions : list string := ["start"; "stop"; "restart"; "enable"; "disable"].
Definition nodeKinds : list string := ["manager"; "agent"].

Record Input : Type := mkInput {
  in_Name : string;
  in_Label : string;
  in_Default : string;
  in_Required : bool;
  in_Raw : bool;
}.

Record Targets : Type := mkTargets {
  tg_Groups : option (list string);
  tg_Kinds : option (list string);
  tg_Nodes : option (list string);
}.

Record PackagesStep : Type := mkPackagesStep {
  pk_Update : bool;
  pk_UpgradeAll : bool;
  pk_Upgrade : option (list string);
  pk_Install : option (list string);
  pk_Remove : option (list string);
}.

Record ServiceStep : Type := mkServiceStep { sv_Name : string; sv_Action : string }.

Record CommandStep : Type := mkCommandStep {
  cm_Run : string;
  cm_Script : string;
  cm_Timeout : Duration;
}.

Record FileStep : Type := mkFileStep {
  fl_Path : string;
  fl_Content : string;
  fl_Mode : string;
  fl_Owner : string;
}.

Record StackStep : Type := mkStackStep { st_Name : string; st_Compose : string; st_Up : bool }.

Record RebootStep : Type := mkRebootStep { rb_OnlyIfRequired : bool; rb_Wait : Duration }.

Record Step : Type := mkStep {
  sp_Name : string;
  sp_ContinueOnError : bool;
  sp_Kind : string;
  sp_Packages : option PackagesStep;
  sp_Service : option ServiceStep;
  sp_Command : option CommandStep;
  sp_File : option FileStep;
  sp_Stack : option StackStep;
  sp_Reboot : option RebootStep;
}.

Record Task : Type := mkTask {
  tk_Name : string;
  tk_Description : string;
  tk_Inputs : list Input;
  tk_Targets : Targets;
  tk_Batch : Z;
  tk_StopOnFailure : bool;
  tk_Steps : list Step;
}.

Record Problem : Type := mkProblem { pr_Line : Z; pr_Message : message }.

(** ** Jobs (job.go) *)

Definition JobRunning : string := "running".
Definition JobSucceeded : string := "succeeded".
Definition JobFailed : string := "failed".
Definition JobInterrupted : string := "interrupted".
Definition JobCancelled : string := "cancelled".
Definition JobRebooting : string := "rebooting".

Record JobSpec : Type := mkJobSpec {
  js_ID : string;
  js_RunID : string;
  js_Task : string;
  js_Step : Z;
  js_Kind : string;
  js_Confirmed : bool;
  js_Packages : option PackagesStep;
  js_Service : option ServiceStep;
  js_Command : option CommandStep;
  js_File : option FileStep;
  js_Stack : option StackStep;
  js_Reboot : option RebootStep;
}.

(** A node's answer about a job: its state and a piece of its output. *)
Record JobHolder : Type := mkJobHolder { jh_JobID : string; jh_RunID : string; jh_Task : string }.
Record JobView : Type := mkJobView {
  jv_ID : string;
  jv_RunID : string;
  jv_Kind : string;
  jv_Status : string;
  jv_Changed : bool;
  jv_ExitCode : option Z;
  jv_Summary : string;
  jv_Output : string;
  jv_NextSkip : Z;
  jv_Done : bool;
  jv_StartedAt : Time;
  jv_EndedAt : Time;
  jv_Holder : option JobHolder;
}.

(** A node's verdict on a step before a run. *)
Record CheckVerdict : Type := mkCheckVerdict {
  cv_Step : Z;
  cv_Refused : bool;
  cv_Code : string;
  cv_Reason : string;
  cv_NeedsConfirm : bool;
}.

#[export] Instance Input_eq_dec : EqDecision Input.
Proof. solve_decision. Defined.
#[export] Instance Targets_eq_dec : EqDecision Targets.
Proof. solve_decision. Defined.
#[export] Instance PackagesStep_eq_dec : EqDecision PackagesStep.
Proof. solve_decision. Defined.
#[export] Instance ServiceStep_eq_dec : EqDecision ServiceStep.
Proof. solve_decision. Defined.
#[export] Instance CommandStep_eq_dec : EqDecision CommandStep.
Proof. solve_decision. Defined.
#[export] Instance FileStep_eq_dec : EqDecision FileStep.
Proof. solve_decision. Defined.
#[export] Instance StackStep_eq_dec : EqDecision StackStep.
Proof. solve_decision. Defined.
#[export] Instance RebootStep_eq_dec : EqDecision RebootStep.
Proof. solve_decision. Defined.
#[export] Instance Step_eq_dec : EqDecision Step.
Proof. solve_decision. Defined.
#[export] Instance Task_eq_dec : EqDecision Task.
Proof. solve_decision. Defined.
