(* ===== verification/TaskRefs.v ===== *)
(** * References and the patterns of a task document (parse.go)

    [referencePattern], [validPackageName] and [validInputName], and
    [FindAllStringSubmatchIndex] of the first. *)

From S2P Require Import Prelude GoStrings GoRegexp.

(** ** The patterns, as the source writes them *)

Definition validPackageName : re :=
  RCat (RClass is_alnum)
    (RStar (RClass (fun c => is_alnum c || existsb (Ascii.eqb c) ["."; "_"; "+"; "-"]%char))).

Definition is_ident_start (c : ascii) : bool := is_letter c || Ascii.eqb c "_".
Definition is_ident_char (c : ascii) : bool := is_alnum c || Ascii.eqb c "_".

Definition rIdent : re := RCat (RClass is_ident_start) (RStar (RClass is_ident_char)).
Definition validInputName : re := rIdent.

(** [\s]: tab, newline, form feed, carriage return, space. *)
Definition is_re_space (c : ascii) : bool :=
  existsb (Ascii.eqb c) (map ascii_of_nat [9; 10; 12; 13; 32]%nat).

Definition referencePattern : re :=
  RCat (rLit "{{") (RCat (RStar (RClass is_re_space))
    (RCat (RCat rIdent (RStar (RCat (rChar ".") rIdent)))
      (RCat (RStar (RClass is_re_space)) (rLit "}}")))).

Definition refNodeName : string := "node.name".
Definition refNodeAddress : string := "node.address".

(** ** Matching a reference at the front of a text

    The pattern's match at a position is unique, so greedy scanning is the
    whole of Go's leftmost-first search: braces, spaces, identifiers joined
    by dots, spaces, braces.  What is returned is the name and the length of
    the match. *)

Fixpoint span (f : ascii -> bool) (s : list ascii) : list ascii * list ascii :=
  match s with
  | [] => ([], [])
  | c :: s' => if f c then (fun '(a, b) => (c :: a, b)) (span f s') else ([], s)
  end.

Definition scan_ident (s : list ascii) : option (list ascii * list ascii) :=
  match s with
  | c :: s' => if is_ident_start c then let '(a, b) := span is_ident_char s' in Some (c :: a, b) else None
  | [] => None
  end.

(** [(\.ident)*], as far as it goes. *)
Fixpoint scan_dotted (fuel : nat) (s : list ascii) : list ascii * list ascii :=
  match fuel, s with
  | S fuel, "."%char :: s' =>
      match scan_ident s' with
      | Some (a, b) => let '(more, rest) := scan_dotted fuel b in ("."%char :: a ++ more, rest)
      | None => ([], s)
      end
  | _, _ => ([], s)
  end.

Definition match_ref (s : list ascii) : option (list ascii * nat) :=
  match s with
  | "{"%char :: "{"%char :: s1 =>
      let '(sp1, s2) := span is_re_space s1 in
      match scan_ident s2 with
      | None => None
      | Some (a, s3) =>
          let '(more, s4) := scan_dotted (length s3) s3 in
          let '(sp2, s5) := span is_re_space s4 in
          match s5 with
          | "}"%char :: "}"%char :: _ =>
              Some (a ++ more, 4 + length sp1 + length a + length more + length sp2)%nat
          | _ => None
          end
      end
  | _ => None
  end.

(** A match of [referencePattern]: its name and where it starts and ends
    ([m[0]], [m[1]], [s[m[2]:m[3]]]). *)
Record ref_match : Type := mkRefMatch { rm_name : string; rm_start : nat; rm_end : nat }.

(** All matches from offset [off] on, left to right and not overlapping;
    [skip] characters still belong to the match before. *)
Fixpoint find_refs (s : list ascii) (off skip : nat) : list ref_match :=
  match s with
  | [] => []
  | _ :: s' =>
      match skip with
      | S skip => find_refs s' (S off) skip
      | O =>
          match match_ref s with
          | Some (name, len) =>
              mkRefMatch (string_of_list_ascii name) off (off + len) :: find_refs s' (S off) (pred len)
          | None => find_refs s' (S off) 0
          end
      end
  end.

Definition findAllRefs (s : string) : list ref_match := find_refs (list_ascii_of_string s) 0 0.

(** [hasRef]: [referencePattern.MatchString]. *)
Definition hasRef (s : string) : bool :=
  match findAllRefs s with [] => false | _ => true end.

(** ** The scanner finds what the pattern says *)

Lemma span_spec f s a b :
  span f s = (a, b) -> s = a ++ b /\ Forall (fun c => f c = true) a /\
    (match b with [] => True | c :: _ => f c = false end).
Proof.
  revert a b. induction s as [|c s IH]; simpl; intros a b H.
  - injection H as <- <-. by repeat split.
  - destruct (f c) eqn:E.
    + destruct (span f s) as [a' b'] eqn:Es. injection H as <- <-.
      destruct (IH _ _ eq_refl) as (-> & ? & ?). repeat split; try done. by constructor.
    + injection H as <- <-. by repeat split.
Qed.

Lemma span_app f a b :
  Forall (fun c => f c = true) a -> (match b with [] => True | c :: _ => f c = false end) ->
  span f (a ++ b) = (a, b).
Proof.
  intros Ha Hb. induction Ha as [|c a Hc _ IH]; simpl; [|by rewrite Hc, IH].
  destruct b as [|c b]; simpl; [done|]. by rewrite Hb.
Qed.

Definition ident (a : list ascii) : Prop := in_re a rIdent.

Lemma ident_inv a :
  ident a <-> exists c a', a = c :: a' /\ is_ident_start c = true /\
    Forall (fun c => is_ident_char c = true) a'.
Proof.
  unfold ident, rIdent. rewrite in_re_cat. split.
  - intros (s1 & s2 & -> & (c & -> & Hc)%in_re_class & H2%in_star_class). by exists c, s2.
  - intros (c & a' & -> & Hc & Ha). exists [c], a'. rewrite in_re_class, in_star_class. eauto.
Qed.

Definition not_ident_next (b : list ascii) : Prop :=
  match b with [] => True | c :: _ => is_ident_char c = false end.

Lemma scan_ident_spec s a b :
  scan_ident s = Some (a, b) <-> s = a ++ b /\ ident a /\ not_ident_next b.
Proof.
  split.
  - destruct s as [|c s]; simpl; [done|]. destruct (is_ident_start c) eqn:Ec; [|done].
    destruct (span _ s) as [a' b'] eqn:Es. intros [= <- <-].
    apply span_spec in Es as (-> & Ha & Hb). repeat split; [|by destruct b'].
    apply ident_inv. eauto.
  - intros (-> & (c & a' & -> & Hc & Ha)%ident_inv & Hb). simpl.
    by rewrite Hc, span_app.
Qed.

(** Dotted tails: what [scan_dotted] reads, and that it stops only where no
    dotted identifier follows. *)
Definition dotted (a : list ascii) : Prop := in_re a (RStar (RCat (rChar ".") rIdent)).

Lemma in_rChar s c : in_re s (rChar c) <-> s = [c].
Proof.
  unfold rChar. rewrite in_re_class. split.
  - by intros (d & -> & ->%Ascii.eqb_eq).
  - intros ->. exists c. by rewrite Ascii.eqb_refl.
Qed.

Lemma in_rLit s w : in_re s (rLit w) <-> s = list_ascii_of_string w.
Proof.
  revert s. induction w as [|c w IH]; intros s; simpl; [apply in_re_eps|].
  rewrite in_re_cat. split.
  - by intros (s1 & s2 & -> & ->%in_rChar & ->%IH).
  - intros ->. exists [c], (list_ascii_of_string w). rewrite in_rChar, IH. eauto.
Qed.

Lemma dotted_nil : dotted []. Proof. constructor. Qed.

Lemma dotted_cons a m : ident a -> dotted m -> dotted ("."%char :: a ++ m).
Proof.
  intros Ha Hm. apply (in_star_app ("."%char :: a)); [|done].
  apply in_re_cat. exists ["."%char], a. by rewrite in_rChar.
Qed.

Lemma dotted_inv m :
  dotted m -> m = [] \/ exists a m', m = "."%char :: a ++ m' /\ ident a /\ dotted m'.
Proof.
  destruct m as [|c m]; [by left|]. intros (s1 & s2 & -> & H1 & H2)%in_star_cons. right.
  apply in_re_cat in H1 as (x & a & E & ->%in_rChar & Ha). injection E as -> ->. eauto.
Qed.

Lemma scan_dotted_sound fuel s m b :
  scan_dotted fuel s = (m, b) -> s = m ++ b /\ dotted m.
Proof.
  revert s m b. induction fuel as [|fuel IH]; intros s m b; simpl.
  { intros [= <- <-]. split; [done|apply dotted_nil]. }
  destruct s as [|c s].
  { intros [= <- <-]. split; [done|apply dotted_nil]. }
  destruct (ascii_dec c ".") as [->|Hc].
  - destruct (scan_ident s) as [[a b']|] eqn:E.
    + destruct (scan_dotted fuel b') as [more rest] eqn:Es. intros [= <- <-].
      apply scan_ident_spec in E as (-> & Ha & _). apply IH in Es as (-> & Hm).
      split; [simpl; by rewrite <-app_assoc|]. by apply dotted_cons.
    + intros [= <- <-]. split; [done|apply dotted_nil].
  - assert (forall A (x y : A), match c with "."%char => x | _ => y end = y) as Hm
      by (destruct c as [[] [] [] [] [] [] [] []]; done).
    rewrite Hm. intros [= <- <-]. split; [done|apply dotted_nil].
Qed.

(** Facts on single characters, decided over the 256 of them. *)
Definition all_ascii : list ascii := map ascii_of_nat (seq 0 256).

Lemma all_ascii_spec c : c ∈ all_ascii.
Proof.
  apply list_elem_of_fmap. exists (nat_of_ascii c). split; [by rewrite ascii_nat_embedding|].
  apply elem_of_seq. pose proof (nat_ascii_bounded c). lia.
Qed.

Lemma ascii_forall (P : ascii -> bool) : forallb P all_ascii = true -> forall c, P c = true.
Proof. intros H c. rewrite forallb_forall in H. apply H, list_elem_of_In, all_ascii_spec. Qed.

(** A decidable fact on every character, checked by evaluation. *)
Ltac ascii_fact P c H :=
  pose proof (ascii_forall P eq_refl c) as H; cbv beta in H.

Lemma ident_start_not_space c : is_ident_start c = true -> is_re_space c = false.
Proof.
  ascii_fact (fun c => negb (is_ident_start c) || negb (is_re_space c)) c H.
  by destruct (is_ident_start c), (is_re_space c).
Qed.

Lemma space_stops c : is_re_space c = true -> is_ident_char c = false /\ c <> "."%char.
Proof.
  ascii_fact (fun c => negb (is_re_space c) ||
    (negb (is_ident_char c) && negb (Ascii.eqb c "."%char))) c H.
  intros E. rewrite E in H. simpl in H. go_bools. by split.
Qed.

(** What follows a reference's name: neither part of an identifier nor a
    dot. *)
Definition name_stop (b : list ascii) : Prop :=
  match b with [] => True | c :: _ => is_ident_char c = false /\ c <> "."%char end.

Lemma scan_dotted_complete fuel m b :
  dotted m -> name_stop b -> (length m <= fuel)%nat -> scan_dotted fuel (m ++ b) = (m, b).
Proof.
  revert m. induction fuel as [|fuel IH]; intros m Hm Hb Hl.
  { by replace m with (@nil ascii) by (destruct m; simpl in *; [done|lia]). }
  apply dotted_inv in Hm as [->|(a & m' & -> & Ha & Hm)].
  - simpl. destruct b as [|c b]; [done|]. destruct Hb as [_ Hc].
    destruct c as [[] [] [] [] [] [] [] []]; done.
  - simpl. rewrite <-app_assoc. simpl in Hl. rewrite length_app in Hl.
    assert (scan_ident (a ++ m' ++ b) = Some (a, m' ++ b)) as ->.
    { apply scan_ident_spec. repeat split; [done|].
      apply dotted_inv in Hm as [->|(x & y & -> & _ & _)]; simpl; [|done].
      destruct b; [done|]. by destruct Hb. }
    rewrite IH by (done || lia). done.
Qed.

(** The text [w] is a reference to [name]. *)
Definition ref_text (name w : list ascii) : Prop :=
  exists sp1 a m sp2, name = a ++ m /\ ident a /\ dotted m /\
    Forall (fun c => is_re_space c = true) sp1 /\ Forall (fun c => is_re_space c = true) sp2 /\
    w = ["{"%char; "{"%char] ++ sp1 ++ a ++ m ++ sp2 ++ ["}"%char; "}"%char].

Lemma ref_text_pattern w : in_re w referencePattern <-> exists name, ref_text name w.
Proof.
  unfold referencePattern, ref_text. split.
  - intros (x1 & x2 & -> & ->%in_rLit & H)%in_re_cat.
    apply in_re_cat in H as (sp1 & x3 & -> & ?%in_star_class & H).
    apply in_re_cat in H as (x4 & x5 & -> & (a & m & -> & Ha & Hm)%in_re_cat & H).
    apply in_re_cat in H as (sp2 & x6 & -> & ?%in_star_class & ->%in_rLit).
    exists (a ++ m), sp1, a, m, sp2. repeat split; try done. simpl. by rewrite <-!app_assoc.
  - intros (name & sp1 & a & m & sp2 & -> & Ha & Hm & H1 & H2 & ->).
    constructor; [by apply in_rLit|]. constructor; [by apply in_star_class|].
    rewrite app_assoc. constructor; [by constructor|].
    constructor; [by apply in_star_class|by apply in_rLit].
Qed.

Lemma match_ref_sound s name len :
  match_ref s = Some (name, len) ->
  exists w rest, s = w ++ rest /\ length w = len /\ ref_text name w.
Proof.
  unfold match_ref. destruct s as [|c1 s]; [done|].
  destruct (ascii_dec c1 "{") as [->|H1].
  2: { intros H. exfalso. destruct c1 as [[] [] [] [] [] [] [] []]; done. }
  destruct s as [|c2 s1]; [done|].
  destruct (ascii_dec c2 "{") as [->|H2].
  2: { intros H. exfalso. destruct c2 as [[] [] [] [] [] [] [] []]; done. }
  destruct (span is_re_space s1) as [sp1 s2] eqn:E1.
  destruct (scan_ident s2) as [[a s3]|] eqn:E2; [|done].
  destruct (scan_dotted (length s3) s3) as [m s4] eqn:E3.
  destruct (span is_re_space s4) as [sp2 s5] eqn:E4.
  apply span_spec in E1 as (-> & Hs1 & _). apply scan_ident_spec in E2 as (-> & Ha & _).
  apply scan_dotted_sound in E3 as (-> & Hm). apply span_spec in E4 as (-> & Hs2 & _).
  intros H.
  assert (exists rest, s5 = "}"%char :: "}"%char :: rest /\
    (a ++ m, 4 + length sp1 + length a + length m + length sp2)%nat = (name, len)) as (rest & -> & E).
  { destruct s5 as [|d1 [|d2 rest]]; try done.
    - exfalso. destruct d1 as [[] [] [] [] [] [] [] []]; done.
    - destruct (ascii_dec d1 "}") as [->|]; [destruct (ascii_dec d2 "}") as [->|]|].
      + exists rest. by injection H as <- <-.
      + exfalso. destruct d2 as [[] [] [] [] [] [] [] []]; done.
      + exfalso. destruct d1 as [[] [] [] [] [] [] [] []]; done. }
  injection E as <- <-.
  exists (["{"%char; "{"%char] ++ sp1 ++ a ++ m ++ sp2 ++ ["}"%char; "}"%char]), rest.
  split; [simpl; by rewrite <-!app_assoc|]. split; [|by exists sp1, a, m, sp2].
  rewrite !length_app. simpl. lia.
Qed.

Lemma match_ref_complete w rest name :
  ref_text name w -> match_ref (w ++ rest) = Some (name, length w).
Proof.
  intros (sp1 & a & m & sp2 & -> & Ha & Hm & Hs1 & Hs2 & ->).
  assert (Hstop : name_stop (sp2 ++ ["}"%char; "}"%char] ++ rest)).
  { destruct Hs2 as [|c sp2 Hc _]; simpl; [done|]. by apply space_stops. }
  unfold match_ref. simpl. rewrite <-!app_assoc.
  rewrite span_app; [|done|].
  2: { apply ident_inv in Ha as (c & a' & -> & Hc & _). simpl. by apply ident_start_not_space. }
  assert (scan_ident (a ++ m ++ sp2 ++ ["}"%char; "}"%char] ++ rest) =
    Some (a, m ++ sp2 ++ ["}"%char; "}"%char] ++ rest)) as ->.
  { apply scan_ident_spec. repeat split; [done|].
    apply dotted_inv in Hm as [->|(x & y & -> & _ & _)]; simpl; [|done].
    destruct (sp2 ++ _); [done|]. by destruct Hstop. }
  rewrite scan_dotted_complete; [|done..|rewrite length_app; lia].
  rewrite span_app by done. simpl. rewrite !length_app. simpl. do 2 f_equal. lia.
Qed.

Lemma match_ref_None s :
  match_ref s = None <-> forall w rest, s = w ++ rest -> ~ in_re w referencePattern.
Proof.
  split.
  - intros H w rest -> [name Hn]%ref_text_pattern.
    by rewrite (match_ref_complete w rest name Hn) in H.
  - intros H. destruct (match_ref s) as [[name len]|] eqn:E; [|done].
    apply match_ref_sound in E as (w & rest & E & _ & Hn).
    destruct (H w rest E). apply ref_text_pattern. eauto.
Qed.

Lemma ref_text_length name w : ref_text name w -> (4 < length w)%nat.
Proof.
  intros (sp1 & a & m & sp2 & _ & (c & a' & -> & _)%ident_inv & _ & _ & _ & ->).
  rewrite !length_app. simpl. lia.
Qed.

(** ** All the references of a text *)

(** The matches of [find_refs] lie one after another in the text from [off]
    on, each over a reference to its name. *)
Fixpoint refs_in (s : list ascii) (off : nat) (l : list ref_match) : Prop :=
  match l with
  | [] => True
  | m :: l =>
      exists pre w post, s = pre ++ w ++ post /\
        rm_start m = (off + length pre)%nat /\ rm_end m = (rm_start m + length w)%nat /\
        ref_text (list_ascii_of_string (rm_name m)) w /\
        refs_in post (rm_end m) l
  end.

Lemma refs_in_cons c s off l : refs_in s (S off) l -> refs_in (c :: s) off l.
Proof.
  destruct l as [|m l]; [done|]. simpl.
  intros (pre & w & post & -> & Hs & He & Hr & Hl).
  exists (c :: pre), w, post. simpl. repeat split; try done. lia.
Qed.

Lemma find_refs_skip s off k :
  find_refs s off k = find_refs (drop k s) (off + k) 0.
Proof.
  revert off k. induction s as [|c s IH]; intros off k; [by destruct k|].
  destruct k as [|k]; [by rewrite Nat.add_0_r|]. simpl. rewrite IH.
  by replace (S off + k)%nat with (off + S k)%nat by lia.
Qed.

Lemma find_refs_sound s off : refs_in s off (find_refs s off 0).
Proof.
  remember (length s) as n eqn:En. revert s En off.
  induction n as [n IH] using lt_wf_ind. intros [|c s] -> off; [done|].
  cbn [find_refs]. destruct (match_ref (c :: s)) as [[name len]|] eqn:E.
  - apply match_ref_sound in E as (w & rest & Es & Hl & Hn).
    exists [], w, rest. simpl. rewrite list_ascii_of_string_of_list_ascii.
    split; [done|]. split; [lia|]. split; [lia|]. split; [done|].
    rewrite find_refs_skip. pose proof (ref_text_length _ _ Hn).
    destruct w as [|c' w]; [simpl in *; lia|]. injection Es as <- ->. simpl in *.
    rewrite <-Hl. simpl. rewrite drop_app_length.
    replace (S (off + length w)) with (off + S (length w))%nat by lia.
    apply (IH (length rest)); [rewrite length_app; lia|done].
  - apply refs_in_cons. by apply (IH (length s)); [simpl; lia|].
Qed.

Lemma find_refs_nil s off :
  find_refs s off 0 = [] <->
  forall pre w post, s = pre ++ w ++ post -> ~ in_re w referencePattern.
Proof.
  revert off. induction s as [|c s IH]; intros off; cbn [find_refs].
  - split; [|done]. intros _ pre w post E [name Hn]%ref_text_pattern.
    apply ref_text_length in Hn. apply (f_equal length) in E. rewrite !length_app in E. simpl in E. lia.
  - destruct (match_ref (c :: s)) as [[name len]|] eqn:E.
    + split; [done|]. intros H.
      apply match_ref_sound in E as (w & rest & E & _ & Hn).
      destruct (H [] w rest E). apply ref_text_pattern. eauto.
    + rewrite IH, match_ref_None in *. split.
      * intros Hs pre w post Ep. destruct pre as [|d pre]; simplify_eq/=; [by eapply E|by eapply Hs].
      * intros H pre w post ->. by apply (H (c :: pre) w post).
Qed.

Lemma hasRef_spec s :
  hasRef s = true <->
  exists pre w post, list_ascii_of_string s = pre ++ w ++ post /\ in_re w referencePattern.
Proof.
  unfold hasRef, findAllRefs. destruct (find_refs _ _ _) as [|m l] eqn:E.
  - split; [done|]. intros (pre & w & post & Hs & Hw).
    rewrite find_refs_nil in E. by destruct (E _ _ _ Hs).
  - split; [|done]. intros _. pose proof (find_refs_sound (list_ascii_of_string s) 0) as H.
    rewrite E in H. destruct H as (pre & w & post & Hs & _ & _ & Hn & _).
    exists pre, w, post. split; [done|]. apply ref_text_pattern. eauto.
Qed.
