(* ===== verification/ShellPlaces.v ===== *)
(** * Where a reference sits in a command's shell text (shellpos.go)

    The scanner reads the text by offset, as the source does.  [refs] is
    fixed once built; what the scan writes is kept in the [scanner] state:
    the verdict of each reference (the [verdict] field the code sets through
    the shared pointer), [lost] and the pending heredocs.  Loops run on fuel
    and give [None] when it runs out; [shellPlaces_total] shows that it never
    does. *)

From S2P Require Import Prelude GoStrings TaskRefs.

Inductive placeVerdict : Type := placeUnread | placeWord | placeEnclosed.
#[export] Instance placeVerdict_eq_dec : EqDecision placeVerdict.
Proof. solve_decision. Defined.

Definition maxShellNesting : nat := 64.

Record shellRef : Type := mkShellRef {
  sr_name : string;
  sr_start : nat;
  sr_end : nat;
  sr_judged : bool;
}.

Record heredoc : Type := mkHeredoc { hd_delim : list ascii; hd_stripTabs : bool }.

Record scanner : Type := mkScanner {
  sc_verdicts : gmap nat placeVerdict;
  sc_lost : bool;
  sc_pending : list heredoc;
}.

Definition isShellBlank (c : ascii) : bool :=
  existsb (Ascii.eqb c) [ascii_of_nat 32; ascii_of_nat 9].

Definition dquote : ascii := ascii_of_nat 34.
Definition nl : ascii := ascii_of_nat 10.
Definition tab : ascii := ascii_of_nat 9.

Definition isShellBreak (c : ascii) : bool :=
  isShellBlank c || Ascii.eqb c nl || existsb (Ascii.eqb c) (list_ascii_of_string ";&|()<>").

Section Scanner.
Context (s : list ascii) (refs : gmap nat shellRef).

(** A scan's outcome: the offset after what was read, and the state. *)
Definition scanned : Type := option (nat * scanner).

Definition byte_is (i : nat) (c : ascii) : bool :=
  match s !! i with Some d => Ascii.eqb d c | None => false end.

(** [strings.HasPrefix(s[i:], lit)]. *)
Definition lit_at (i : nat) (lit : string) : bool :=
  bool_decide (take (String.length lit) (drop i s) = list_ascii_of_string lit).

Definition is_ref (i : nat) : bool := bool_decide (is_Some (refs !! i)).

Definition sc_ref (sc : scanner) (i : nat) (v : placeVerdict) : option (nat * scanner) :=
  match refs !! i with
  | None => None
  | Some r =>
      Some (sr_end r,
            if sr_judged r && negb (sc_lost sc)
            then mkScanner (<[i := v]> (sc_verdicts sc)) (sc_lost sc) (sc_pending sc)
            else sc)
  end.

Definition lose (sc : scanner) : nat * scanner :=
  (length s, mkScanner (sc_verdicts sc) true (sc_pending sc)).

(** [single]: to the end of a single-quoted string. *)
Fixpoint sc_single (fuel : nat) (sc : scanner) (i : nat) : scanned :=
  match fuel with
  | O => None
  | S fuel =>
      if (i <? length s)%nat then
        match sc_ref sc i placeEnclosed with
        | Some (e, sc) => sc_single fuel sc e
        | None => if byte_is i "'" then Some (S i, sc) else sc_single fuel sc (S i)
        end
      else Some (i, sc)
  end.

(** [backtick]: to the first unescaped backquote. *)
Fixpoint sc_backtick (fuel : nat) (sc : scanner) (i : nat) : scanned :=
  match fuel with
  | O => None
  | S fuel =>
      if (i <? length s)%nat then
        match sc_ref sc i placeEnclosed with
        | Some (e, sc) => sc_backtick fuel sc e
        | None =>
            if byte_is i "`" then Some (S i, sc)
            else if byte_is i "\" then sc_backtick fuel sc (i + 2)
            else sc_backtick fuel sc (S i)
        end
      else Some (Nat.min i (length s), sc)
  end.

(** [param]: a [${ }] expansion. *)
Fixpoint sc_param (fuel : nat) (sc : scanner) (i depth : nat) : scanned :=
  match fuel with
  | O => None
  | S fuel =>
      if (i <? length s)%nat && negb (sc_lost sc) then
        match sc_ref sc i placeEnclosed with
        | Some (e, sc) => sc_param fuel sc e depth
        | None =>
            if byte_is i "}" then Some (S i, sc)
            else if byte_is i "'" || byte_is i dquote || byte_is i "`" || byte_is i "\" then
              Some (lose sc)
            else if byte_is i "$" then
              if byte_is (S i) "{" then
                if (maxShellNesting <? depth)%nat then Some (lose sc)
                else
                  match sc_param fuel sc (i + 2) (S depth) with
                  | None => None
                  | Some (j, sc) => sc_param fuel sc j depth
                  end
              else if byte_is (S i) "(" then Some (lose sc)
              else sc_param fuel sc (S i) depth
            else sc_param fuel sc (S i) depth
        end
      else Some (Nat.min i (length s), sc)
  end.

(** [arith]: [(( ))] or [$(( ))] to its closing ["))"]. *)
Fixpoint sc_arith (fuel : nat) (sc : scanner) (i open : nat) : scanned :=
  match fuel with
  | O => None
  | S fuel =>
      if (i <? length s)%nat && negb (sc_lost sc) then
        match sc_ref sc i placeEnclosed with
        | Some (e, sc) => sc_arith fuel sc e open
        | None =>
            if byte_is i "(" then sc_arith fuel sc (S i) (S open)
            else if byte_is i ")" then
              match open with
              | S open' => sc_arith fuel sc (S i) open'
              | O => if byte_is (S i) ")" then Some ((i + 2)%nat, sc) else Some (lose sc)
              end
            else if byte_is i "'" || byte_is i dquote || byte_is i "`" || byte_is i "\" then
              Some (lose sc)
            else sc_arith fuel sc (S i) open
        end
      else Some (i, sc)
  end.

(** [comment]: to the end of the line, leaving the newline. *)
Fixpoint sc_comment (fuel : nat) (sc : scanner) (i : nat) : scanned :=
  match fuel with
  | O => None
  | S fuel =>
      if (i <? length s)%nat && negb (byte_is i nl) then
        match sc_ref sc i placeEnclosed with
        | Some (e, sc) => sc_comment fuel sc e
        | None => sc_comment fuel sc (S i)
        end
      else Some (i, sc)
  end.

(** [strings.IndexByte(s[i:], c)], as an offset in [s]. *)
Definition find_byte (i : nat) (c : ascii) : option nat :=
  (fun p => (i + p.1)%nat) <$> list_find (fun d => d = c) (drop i s).

(** [s[a:b]]. *)
Definition slice (a b : nat) : list ascii := take (b - a) (drop a s).

Fixpoint skip_blanks (fuel : nat) (i : nat) : nat :=
  match fuel with
  | O => i
  | S fuel =>
      match s !! i with
      | Some c => if isShellBlank c then skip_blanks fuel (S i) else i
      | None => i
      end
  end.

(** The delimiter's characters: [inl] the delimiter and where it ends,
    [inr tt] one the scanner cannot read. *)
Fixpoint heredoc_delim (fuel : nat) (i : nat) (delim : list ascii) : option (list ascii * nat + unit) :=
  match fuel with
  | O => None
  | S fuel =>
      match s !! i with
      | None => Some (inl (delim, i))
      | Some c =>
          if isShellBreak c then Some (inl (delim, i))
          else if is_ref i then Some (inr tt)
          else if Ascii.eqb c "'" || Ascii.eqb c dquote then
            match find_byte (S i) c with
            | None => Some (inr tt)
            | Some e =>
                let part := slice (S i) e in
                if Ascii.eqb c dquote && containsAny (string_of_list_ascii part) "$`\" then Some (inr tt)
                else heredoc_delim fuel (S e) (delim ++ part)
            end
          else if Ascii.eqb c "\" then
            match s !! (S i) with
            | None => Some (inr tt)
            | Some d => heredoc_delim fuel (i + 2) (delim ++ [d])
            end
          else if Ascii.eqb c "$" || Ascii.eqb c "`" then Some (inr tt)
          else heredoc_delim fuel (S i) (delim ++ [c])
      end
  end.

(** [heredocStart]: reads the delimiter after ["<<"] and queues the body. *)
Definition heredocStart (fuel : nat) (sc : scanner) (i : nat) : scanned :=
  let strip := byte_is i "-" in
  let i := if strip then S i else i in
  let i := skip_blanks (length s) i in
  match heredoc_delim fuel i [] with
  | None => None
  | Some (inr _) => Some (lose sc)
  | Some (inl (delim, i)) =>
      if bool_decide (delim = []) || existsb (Ascii.eqb nl) delim then Some (lose sc)
      else Some (i, mkScanner (sc_verdicts sc) (sc_lost sc) (sc_pending sc ++ [mkHeredoc delim strip]))
  end.

(** The references of a body's line, from [j] to [lineEnd]. *)
Fixpoint mark_line (fuel : nat) (sc : scanner) (j lineEnd : nat) : option scanner :=
  match fuel with
  | O => None
  | S fuel =>
      if (j <? lineEnd)%nat then
        match sc_ref sc j placeEnclosed with
        | Some (e, sc) => mark_line fuel sc e lineEnd
        | None => mark_line fuel sc (S j) lineEnd
        end
      else Some sc
  end.

Fixpoint trim_tabs (l : list ascii) : list ascii :=
  match l with
  | c :: l' => if Ascii.eqb c tab then trim_tabs l' else l
  | [] => []
  end.

(** One heredoc's body, line by line: [inl] the offset after its delimiter
    line, [inr] the text ended inside it. *)
Fixpoint heredoc_body (fuel : nat) (h : heredoc) (sc : scanner) (i : nat) : option ((nat + unit) * scanner) :=
  match fuel with
  | O => None
  | S fuel =>
      if (length s <=? i)%nat then Some (inr tt, sc)
      else
        let '(lineEnd, next) :=
          match find_byte i nl with
          | Some e => (e, S e)
          | None => (length s, length s)
          end in
        let line := slice i lineEnd in
        let line := if hd_stripTabs h then trim_tabs line else line in
        if bool_decide (line = hd_delim h) then Some (inl next, sc)
        else
          match mark_line (S (length s)) sc i lineEnd with
          | None => None
          | Some sc => heredoc_body fuel h sc next
          end
  end.

(** [heredocBodies]: the bodies queued on the line that just ended. *)
Fixpoint heredocBodies (pending : list heredoc) (sc : scanner) (i : nat) : scanned :=
  match pending with
  | [] => Some (i, sc)
  | h :: rest =>
      let sc := mkScanner (sc_verdicts sc) (sc_lost sc) rest in
      match heredoc_body (S (length s)) h sc i with
      | None => None
      | Some (inr _, sc) => Some (length s, sc)
      | Some (inl i, sc) => heredocBodies rest sc i
      end
  end.

Definition and_then (r : scanned) (k : nat -> scanner -> scanned) : scanned :=
  match r with
  | None => None
  | Some (i, sc) => k i sc
  end.

(** [command], its loop, [double] and [dollar]. *)
Fixpoint sc_command (fuel : nat) (sc : scanner) (i : nat) (closer words : bool) (depth : nat) : scanned :=
  match fuel with
  | O => None
  | S fuel =>
      if (maxShellNesting <? depth)%nat then Some (lose sc)
      else command_loop fuel sc i closer words depth true
  end
with command_loop (fuel : nat) (sc : scanner) (i : nat) (closer words : bool) (depth : nat)
    (wordStart : bool) : scanned :=
  match fuel with
  | O => None
  | S fuel =>
      let next i sc ws := command_loop fuel sc i closer words depth ws in
      if (i <? length s)%nat && negb (sc_lost sc) then
        match sc_ref sc i (if words then placeWord else placeEnclosed) with
        | Some (e, sc) => next e sc false
        | None =>
            if byte_is i "\" then
              if byte_is (S i) nl then next (i + 2)%nat sc wordStart
              else if is_ref (S i) then Some (lose sc)
              else next (i + 2)%nat sc false
            else if byte_is i "'" then
              and_then (sc_single (S (length s)) sc (S i)) (fun i sc => next i sc false)
            else if byte_is i dquote then
              and_then (sc_double fuel sc (S i) depth) (fun i sc => next i sc false)
            else if byte_is i "`" then
              and_then (sc_backtick (S (length s)) sc (S i)) (fun i sc => next i sc false)
            else if byte_is i "$" then
              and_then (sc_dollar fuel sc i false depth) (fun i sc => next i sc false)
            else if byte_is i "(" && byte_is (S i) "(" then
              and_then (sc_arith (S (length s)) sc (i + 2) 0) (fun i sc => next i sc false)
            else if byte_is i "(" then
              let sub :=
                if (0 <? i)%nat && (byte_is (pred i) "<" || byte_is (pred i) ">") then false
                else words in
              and_then (sc_command fuel sc (S i) true sub (S depth)) (fun i sc => next i sc true)
            else if byte_is i ")" then
              if closer then Some (S i, sc) else next (S i) sc true
            else if byte_is i "#" && wordStart then
              and_then (sc_comment (S (length s)) sc i) (fun i sc => next i sc wordStart)
            else if byte_is i "<" && lit_at i "<<<" then next (i + 3)%nat sc true
            else if byte_is i "<" && lit_at i "<<" then
              and_then (heredocStart (S (length s)) sc (i + 2)) (fun i sc => next i sc false)
            else if byte_is i nl then
              and_then (heredocBodies (sc_pending sc) sc (S i)) (fun i sc => next i sc true)
            else if match s !! i with Some c => isShellBreak c | None => false end then
              next (S i) sc true
            else if wordStart && (0 <? depth)%nat && lit_at i "case" &&
                    ((i + 4 =? length s)%nat ||
                     match s !! (i + 4)%nat with Some c => isShellBreak c | None => false end) then
              Some (lose sc)
            else next (S i) sc false
        end
      else Some (i, sc)
  end
with sc_double (fuel : nat) (sc : scanner) (i depth : nat) : scanned :=
  match fuel with
  | O => None
  | S fuel =>
      if (i <? length s)%nat && negb (sc_lost sc) then
        match sc_ref sc i placeEnclosed with
        | Some (e, sc) => sc_double fuel sc e depth
        | None =>
            if byte_is i dquote then Some (S i, sc)
            else if byte_is i "\" then sc_double fuel sc (i + 2) depth
            else if byte_is i "`" then
              and_then (sc_backtick (S (length s)) sc (S i)) (fun i sc => sc_double fuel sc i depth)
            else if byte_is i "$" then
              and_then (sc_dollar fuel sc i true depth) (fun i sc => sc_double fuel sc i depth)
            else sc_double fuel sc (S i) depth
        end
      else Some (Nat.min i (length s), sc)
  end
with sc_dollar (fuel : nat) (sc : scanner) (i : nat) (inDouble : bool) (depth : nat) : scanned :=
  match fuel with
  | O => None
  | S fuel =>
      if lit_at i "$((" then sc_arith (S (length s)) sc (i + 3) 0
      else if byte_is (S i) "(" then sc_command fuel sc (i + 2) true false (S depth)
      else if byte_is (S i) "{" then sc_param (S (length s)) sc (i + 2) depth
      else if byte_is (S i) "[" then Some (lose sc)
      else if byte_is (S i) "'" && negb inDouble then Some (lose sc)
      else if negb inDouble && is_ref (S i) then Some (lose sc)
      else Some (S i, sc)
  end.
End Scanner.

(** The references of a text, by start offset ([shellPlaces]' loop). *)
Definition scan_refs (quoted known : string -> bool) (l : list ref_match) : gmap nat shellRef :=
  list_to_map (map (fun m =>
    (rm_start m, mkShellRef (rm_name m) (rm_start m) (rm_end m) (known (rm_name m) && quoted (rm_name m)))) l).

Definition scan_fuel (s : list ascii) : nat := 3 * length s + 2.

(** [shellPlaces]: the judged references in document order, each with its
    verdict. *)
Definition shellPlaces (text : string) (quoted known : string -> bool) : option (list (shellRef * placeVerdict)) :=
  let s := list_ascii_of_string text in
  let order := findAllRefs text in
  let refs := scan_refs quoted known order in
  match order with
  | [] => Some []
  | _ =>
      match sc_command s refs (scan_fuel s) (mkScanner ∅ false []) 0 false true 0 with
      | None => None
      | Some (_, sc) =>
          Some (omap (fun m =>
            match refs !! rm_start m with
            | Some r => if sr_judged r then Some (r, default placeUnread (sc_verdicts sc !! rm_start m)) else None
            | None => None
            end) order)
      end
  end.
