(* ===== verification/ShellFacts.v ===== *)
(** * The shell scanner always answers

    Every loop of the scanner moves forward, so the fuel it is given is
    enough and each judged reference gets a verdict. *)

From S2P Require Import Prelude GoStrings GoRegexp TaskRefs ShellPlaces.

Section Progress.
Context (s : list ascii) (refs : gmap nat shellRef).

(** A reference ends after it starts. *)
Definition refs_forward : Prop := forall i r, refs !! i = Some r -> (i < sr_end r)%nat.
Hypothesis Hrefs : refs_forward.

(** The scan answers, at [i] or after it (or at the end of the text). *)
Definition answers (r : option (nat * scanner)) (i : nat) : Prop :=
  exists j sc, r = Some (j, sc) /\ (Nat.min i (length s) <= j)%nat.

Lemma answers_some i j sc : (Nat.min i (length s) <= j)%nat -> answers (Some (j, sc)) i.
Proof using. intros. by exists j, sc. Qed.

Lemma answers_lose i sc : answers (Some (lose s sc)) i.
Proof using. apply answers_some. lia. Qed.

Lemma answers_le r i j : answers r j -> (i <= j)%nat -> answers r i.
Proof using. intros (k & sc & -> & ?) ?. apply answers_some. lia. Qed.

Lemma sc_ref_forward sc i v e sc' : sc_ref refs sc i v = Some (e, sc') -> (i < e)%nat.
Proof using Hrefs.
  unfold sc_ref. destruct (refs !! i) as [r|] eqn:E; [|done]. intros [= <- _]. by apply Hrefs.
Qed.

(** Closes a branch that answers at once, or by a call further on. *)
Ltac scan_step IH :=
  repeat (match goal with
  | H : sc_ref _ _ _ _ = Some (_, _) |- _ => apply sc_ref_forward in H
  | |- answers (match sc_ref ?r ?sc ?i ?v with _ => _ end) _ =>
      let E := fresh "E" in destruct (sc_ref r sc i v) as [[? ?]|] eqn:E
  | |- answers (if ?b then _ else _) _ => let E := fresh "E" in destruct b eqn:E; go_bools
  end);
  first [ apply answers_lose
        | apply answers_some; lia
        | eapply answers_le; [apply IH; lia|lia] ].

Lemma single_answers fuel sc i :
  (length s - i < fuel)%nat -> answers (sc_single s refs fuel sc i) i.
Proof using Hrefs.
  revert sc i. induction fuel as [|fuel IH]; intros sc i Hf; [lia|]. cbn [sc_single]. scan_step IH.
Qed.

Lemma backtick_answers fuel sc i :
  (length s - i < fuel)%nat -> answers (sc_backtick s refs fuel sc i) i.
Proof using Hrefs.
  revert sc i. induction fuel as [|fuel IH]; intros sc i Hf; [lia|]. cbn [sc_backtick]. scan_step IH.
Qed.

Lemma arith_answers fuel sc i open :
  (length s - i < fuel)%nat -> answers (sc_arith s refs fuel sc i open) i.
Proof using Hrefs.
  revert sc i open. induction fuel as [|fuel IH]; intros sc i open Hf; [lia|]. cbn [sc_arith].
  destruct open; scan_step IH.
Qed.

Lemma comment_answers fuel sc i :
  (length s - i < fuel)%nat -> answers (sc_comment s refs fuel sc i) i.
Proof using Hrefs.
  revert sc i. induction fuel as [|fuel IH]; intros sc i Hf; [lia|]. cbn [sc_comment]. scan_step IH.
Qed.

Lemma answers_bind r i0 (k : nat -> scanner -> scanned) i :
  answers r i0 -> (forall j sc, (Nat.min i0 (length s) <= j)%nat -> answers (k j sc) i) ->
  answers (and_then r k) i.
Proof using. intros (j & sc & -> & Hj) Hk. simpl. by apply Hk. Qed.

Lemma param_answers fuel sc i depth :
  (length s - i < fuel)%nat -> answers (sc_param s refs fuel sc i depth) i.
Proof using Hrefs.
  revert sc i depth. induction fuel as [|fuel IH]; intros sc i depth Hf; [lia|]. cbn [sc_param].
  destruct ((i <? length s)%nat && negb (sc_lost sc)) eqn:E; [go_bools|scan_step IH].
  assert (Hn : answers (and_then (sc_param s refs fuel sc (i + 2) (S depth))
    (fun j sc => sc_param s refs fuel sc j depth)) i).
  { apply (answers_bind _ (i + 2)); [apply IH; lia|].
    intros j sc' Hj. eapply answers_le; [apply IH|]; lia. }
  unfold and_then in Hn.
  repeat case_match; simplify_eq; go_bools; try done; 
    try (match goal with H : sc_ref _ _ _ _ = Some (_, _) |- _ => apply sc_ref_forward in H end);
    first [ apply answers_lose | apply answers_some; lia | eapply answers_le; [apply IH; lia|lia] ].
Qed.

(** ** Heredocs *)

Lemma find_byte_ge i c e : find_byte s i c = Some e -> (i <= e < length s)%nat.
Proof using.
  unfold find_byte. destruct (list_find _ _) as [[p d]|] eqn:E; [|done].
  intros [= <-]. simpl. apply list_find_Some in E as (Hl & _). apply lookup_lt_Some in Hl.
  rewrite length_drop in Hl. lia.
Qed.

Lemma skip_blanks_ge fuel i : (i <= skip_blanks s fuel i)%nat.
Proof using.
  revert i. induction fuel as [|fuel IH]; intros i; simpl; [done|].
  destruct (s !! i); [|done]. destruct (isShellBlank _); [|done]. specialize (IH (S i)). lia.
Qed.

Ltac delim_ends := eexists; split; [reflexivity|simpl; first [lia|done]].

Lemma heredoc_delim_answers fuel i delim :
  (length s - i < fuel)%nat ->
  exists r, heredoc_delim s refs fuel i delim = Some r /\
    match r with inl (_, j) => (i <= j)%nat | inr _ => True end.
Proof using.
  revert i delim. induction fuel as [|fuel IH]; intros i delim Hf; [lia|]. simpl.
  assert (Hnext : forall k dl, (i < k)%nat -> (i < length s)%nat ->
    exists r, heredoc_delim s refs fuel k dl = Some r /\
      match r with inl (_, j) => (i <= j)%nat | inr _ => True end).
  { intros k dl Hk Hi. destruct (IH k dl ltac:(lia)) as (r & -> & Hr). exists r. split; [done|].
    destruct r as [[? ?]|]; [lia|done]. }
  destruct (s !! i) as [c|] eqn:Ei; [apply lookup_lt_Some in Ei|delim_ends].
  destruct (isShellBreak c); [delim_ends|]. destruct (is_ref _ _); [delim_ends|].
  destruct (_ || _).
  - destruct (find_byte s (S i) c) as [e|] eqn:Ee; [|delim_ends].
    apply find_byte_ge in Ee. destruct (_ && _); [delim_ends|]. apply Hnext; lia.
  - destruct (Ascii.eqb c "\"); [destruct (s !! S i); [apply Hnext; lia|delim_ends]|].
    destruct (_ || _); [delim_ends|]. apply Hnext; lia.
Qed.

Lemma heredocStart_answers sc i : answers (heredocStart s refs (S (length s)) sc i) i.
Proof using.
  unfold heredocStart. set (i1 := if byte_is s i "-" then S i else i).
  assert (i <= i1)%nat by (subst i1; destruct (byte_is _ _ _); lia).
  pose proof (skip_blanks_ge (length s) i1).
  destruct (heredoc_delim_answers (S (length s)) (skip_blanks s (length s) i1) [] ltac:(lia))
    as (r & -> & Hr).
  destruct r as [[delim j]|]; [|apply answers_lose].
  destruct (_ || _); [apply answers_lose|apply answers_some; lia].
Qed.

Lemma mark_line_answers fuel sc j lineEnd :
  (lineEnd - j < fuel)%nat -> is_Some (mark_line refs fuel sc j lineEnd).
Proof using Hrefs.
  revert sc j. induction fuel as [|fuel IH]; intros sc j Hf; [lia|]. simpl.
  destruct (Nat.ltb_spec j lineEnd); [|by eexists].
  destruct (sc_ref refs sc j placeEnclosed) as [[e sc']|] eqn:E; [apply sc_ref_forward in E|];
    apply IH; lia.
Qed.

Lemma heredoc_body_answers fuel h sc i :
  (length s - i < fuel)%nat ->
  exists r sc', heredoc_body s refs fuel h sc i = Some (r, sc') /\
    match r with inl j => (i <= j)%nat | inr _ => True end.
Proof using Hrefs.
  revert sc i. induction fuel as [|fuel IH]; intros sc i Hf; [lia|]. cbn [heredoc_body].
  destruct (Nat.leb_spec (length s) i); [eexists _, _; by split|].
  set (p := match find_byte s i nl with Some e => (e, S e) | None => _ end).
  assert (Hp : (p.1 <= length s)%nat /\ (i < p.2)%nat).
  { subst p. destruct (find_byte s i nl) as [e|] eqn:E; [apply find_byte_ge in E|]; simpl; lia. }
  destruct p as [lineEnd next]. simpl in Hp.
  destruct (bool_decide _); [eexists _, _; split; [done|]; simpl; lia|].
  destruct (mark_line_answers (S (length s)) sc i lineEnd) as [sc' ->]; [lia|].
  destruct (IH sc' next) as (r & sc2 & -> & Hr); [lia|].
  eexists _, _. split; [done|]. destruct r; [lia|done].
Qed.

Lemma heredocBodies_answers pending sc i : answers (heredocBodies s refs pending sc i) i.
Proof using Hrefs.
  revert sc i. induction pending as [|h rest IH]; intros sc i; cbn [heredocBodies]; [apply answers_some; lia|].
  destruct (heredoc_body_answers (S (length s)) h (mkScanner (sc_verdicts sc) (sc_lost sc) rest) i
    ltac:(lia)) as (r & sc' & -> & Hr).
  destruct r as [j|]; [|apply answers_some; lia]. eapply answers_le; [apply IH|done].
Qed.

(** ** Commands *)

Lemma byte_is_lt i c : byte_is s i c = true -> (i < length s)%nat.
Proof using.
  unfold byte_is. destruct (s !! i) eqn:E; [|done]. intros _. by eapply lookup_lt_Some.
Qed.

Lemma lit_at_lt i lit : lit_at s i lit = true -> (i + String.length lit <= length s)%nat \/ lit = "".
Proof using.
  unfold lit_at. rewrite bool_decide_eq_true. intros H%(f_equal length).
  assert (length (list_ascii_of_string lit) = String.length lit) as E
    by (clear; induction lit; simpl; congruence).
  rewrite E, length_take, length_drop in H. destruct lit; [by right|left].
  cbn [String.length] in *. lia.
Qed.

Lemma sc_ref_None sc i v : sc_ref refs sc i v = None <-> refs !! i = None.
Proof using. unfold sc_ref. by destruct (refs !! i). Qed.

(** A comment takes at least its [#]. *)
Lemma comment_advances sc i :
  byte_is s i "#" = true -> refs !! i = None ->
  answers (sc_comment s refs (S (length s)) sc i) (S i).
Proof using Hrefs.
  intros Hb Hr. pose proof (byte_is_lt _ _ Hb). cbn [sc_comment].
  rewrite (proj2 (Nat.ltb_lt i _)) by done.
  assert (byte_is s i nl = false) as ->.
  { revert Hb. unfold byte_is. destruct (s !! i); [|done]. by intros ->%Ascii.eqb_eq. }
  rewrite (proj2 (sc_ref_None _ _ _)) by done. simpl. apply comment_answers. lia.
Qed.

(** The four mutually recursive readers, by their fuel: three units a
    character and two for the call itself. *)
Lemma commands_answer fuel :
  (forall sc i closer words depth,
    (3 * (length s - i) + 2 <= fuel)%nat ->
    answers (sc_command s refs fuel sc i closer words depth) i) /\
  (forall sc i closer words depth ws,
    (3 * (length s - i) + 1 <= fuel)%nat ->
    answers (command_loop s refs fuel sc i closer words depth ws) i) /\
  (forall sc i depth,
    (3 * (length s - i) + 1 <= fuel)%nat -> answers (sc_double s refs fuel sc i depth) i) /\
  (forall sc i inDouble depth,
    (i < length s)%nat -> (3 * (length s - i) <= fuel)%nat ->
    answers (sc_dollar s refs fuel sc i inDouble depth) (S i)).
Proof using Hrefs.
  induction fuel as [|fuel (IHc & IHl & IHd & IHs)]; [repeat split; intros; lia|].
  split; [|split; [|split]].
  - intros sc i closer words depth Hf. cbn [sc_command].
    destruct (_ <? _)%nat; [apply answers_lose|]. apply IHl. lia.
  - intros sc i closer words depth ws Hf. cbn [command_loop].
    destruct ((i <? length s)%nat && negb (sc_lost sc)) eqn:E; [go_bools|apply answers_some; lia].
    assert (Hgo : forall j sc ws, (i < j)%nat ->
      answers (command_loop s refs fuel sc j closer words depth ws) i).
    { intros j sc' ws' Hj. eapply answers_le; [apply IHl|]; lia. }
    assert (Hthen : forall r j ws', answers r j -> (i < j)%nat ->
      answers (and_then r (fun k sc => command_loop s refs fuel sc k closer words depth ws')) i).
    { intros r j ws' Hr Hj. apply (answers_bind _ j); [done|]. intros k sc' Hk. apply Hgo. lia. }
    destruct (sc_ref _ _ _ _) as [[e sc']|] eqn:Er; [apply sc_ref_forward in Er; by apply Hgo|].
    repeat match goal with
      |- answers (if ?b then _ else _) _ => let E := fresh "E" in destruct b eqn:E
    end; try apply answers_lose; try (apply answers_some; lia); try (apply Hgo; lia).
    + apply (Hthen _ (S i)); [apply single_answers; lia|lia].
    + apply (Hthen _ (S i)); [apply IHd; lia|lia].
    + apply (Hthen _ (S i)); [apply backtick_answers; lia|lia].
    + apply (Hthen _ (S i)); [apply IHs; lia|lia].
    + apply (Hthen _ (i + 2)%nat); [apply arith_answers; lia|lia].
    + apply (Hthen _ (S i)); [apply IHc; lia|lia].
    + go_bools. apply (Hthen _ (S i)); [|lia].
      apply comment_advances; [done|by apply sc_ref_None in Er].
    + apply (Hthen _ (i + 2)%nat); [apply heredocStart_answers|lia].
    + apply (Hthen _ (S i)); [apply heredocBodies_answers|lia].
  - intros sc i depth Hf. cbn [sc_double].
    destruct ((i <? length s)%nat && negb (sc_lost sc)) eqn:E; [go_bools|apply answers_some; lia].
    assert (Hgo : forall j sc, (i < j)%nat -> answers (sc_double s refs fuel sc j depth) i).
    { intros j sc' Hj. eapply answers_le; [apply IHd|]; lia. }
    destruct (sc_ref _ _ _ _) as [[e sc']|] eqn:Er; [apply sc_ref_forward in Er; by apply Hgo|].
    repeat match goal with
      |- answers (if ?b then _ else _) _ => let E := fresh "E" in destruct b eqn:E
    end; try (apply answers_some; lia); try (apply Hgo; lia).
    + apply (answers_bind _ (S i)); [apply backtick_answers; lia|].
      intros j sc' Hj. apply Hgo. lia.
    + apply (answers_bind _ (S i)); [apply IHs; lia|].
      intros j sc' Hj. apply Hgo. lia.
  - intros sc i inDouble depth Hi Hf. cbn [sc_dollar].
    repeat match goal with
      |- answers (if ?b then _ else _) _ => let E := fresh "E" in destruct b eqn:E
    end; try apply answers_lose; try (apply answers_some; lia).
    + eapply answers_le; [apply arith_answers; lia|lia].
    + eapply answers_le; [apply IHc|lia].
      match goal with H : byte_is s (S i) "(" = true |- _ => apply byte_is_lt in H end. lia.
    + eapply answers_le; [apply param_answers; lia|lia].
Qed.
End Progress.

(** ** [shellPlaces] is total *)

Lemma refs_in_forward s off l m :
  refs_in s off l -> m ∈ l -> (rm_start m < rm_end m)%nat.
Proof.
  revert s off. induction l as [|m' l IH]; intros s off; simpl.
  { by intros _ ?%not_elem_of_nil. }
  intros (pre & w & post & _ & _ & He & Hn & Hl) [->|Hm]%elem_of_cons.
  - apply ref_text_length in Hn. lia.
  - by eapply IH.
Qed.

Lemma scan_refs_Some quoted known l i r :
  scan_refs quoted known l !! i = Some r ->
  exists m, m ∈ l /\ rm_start m = i /\
    r = mkShellRef (rm_name m) (rm_start m) (rm_end m) (known (rm_name m) && quoted (rm_name m)).
Proof.
  intros H. apply elem_of_list_to_map_2, list_elem_of_fmap in H as (m & E & Hm).
  injection E as -> ->. eauto.
Qed.

Lemma scan_refs_forward quoted known text : refs_forward (scan_refs quoted known (findAllRefs text)).
Proof.
  intros i r (m & Hm & <- & ->)%scan_refs_Some. simpl.
  by eapply refs_in_forward; [apply find_refs_sound|].
Qed.

Lemma shellPlaces_total text quoted known : is_Some (shellPlaces text quoted known).
Proof.
  unfold shellPlaces. destruct (findAllRefs text) as [|m l] eqn:E; [by eexists|]. rewrite <-E.
  set (s := list_ascii_of_string text). set (refs := scan_refs _ _ _).
  destruct (commands_answer s refs (scan_refs_forward _ _ _) (scan_fuel s)) as (Hc & _).
  destruct (Hc (mkScanner ∅ false []) 0%nat false true 0%nat) as (j & sc & -> & _);
    [unfold scan_fuel; lia|]. by eexists.
Qed.

(** ** Which references are judged *)

Lemma refs_in_from s off l m : refs_in s off l -> m ∈ l -> (off <= rm_start m)%nat.
Proof.
  revert s off. induction l as [|m' l IH]; intros s off; simpl; [by intros _ ?%elem_of_nil|].
  intros (pre & w & post & _ & Hs & He & _ & Hl) [->|Hm]%elem_of_cons; [lia|].
  apply (IH _ _ Hl) in Hm. lia.
Qed.

Lemma refs_in_starts s off l : refs_in s off l -> NoDup (map rm_start l).
Proof.
  revert s off. induction l as [|m l IH]; intros s off; simpl; [constructor|].
  intros (pre & w & post & _ & _ & He & Hn & Hl). constructor; [|by eapply IH].
  intros (m' & Heq & Hm')%list_elem_of_fmap. apply (refs_in_from _ _ _ _ Hl) in Hm'.
  apply ref_text_length in Hn. lia.
Qed.

Definition judged_ref (quoted known : string -> bool) (m : ref_match) : option shellRef :=
  if known (rm_name m) && quoted (rm_name m)
  then Some (mkShellRef (rm_name m) (rm_start m) (rm_end m) true) else None.

Lemma scan_refs_lookup quoted known l m :
  NoDup (map rm_start l) -> m ∈ l ->
  scan_refs quoted known l !! rm_start m =
    Some (mkShellRef (rm_name m) (rm_start m) (rm_end m) (known (rm_name m) && quoted (rm_name m))).
Proof.
  intros Hnd Hm. apply elem_of_list_to_map_1.
  - rewrite <-list_fmap_compose. exact Hnd.
  - apply list_elem_of_fmap. by exists m.
Qed.

Lemma map_omap_in {A B C} (h : B -> C) (f : A -> option B) (g : A -> option C) (l : list A) :
  (forall x, x ∈ l -> h <$> f x = g x) -> map h (omap f l) = omap g l.
Proof.
  induction l as [|x l IH]; intros H; [done|]. cbn. rewrite <-(H x) by left.
  rewrite <-IH by (intros y Hy; apply H; by right). by destruct (f x).
Qed.

(** The scan ends on every text, and gives a verdict on exactly the
    references that are known and quoted, in the order they stand. *)
Theorem shellPlaces_answers text quoted known :
  exists l, shellPlaces text quoted known = Some l /\
    map fst l = omap (judged_ref quoted known) (findAllRefs text).
Proof.
  destruct (shellPlaces_total text quoted known) as [l Hl]. exists l. split; [done|].
  revert Hl. unfold shellPlaces. destruct (findAllRefs text) as [|m0 l0] eqn:E; [by intros [= <-]|].
  rewrite <-E. destruct (sc_command _ _ _ _ _ _ _ _) as [[j sc]|]; [|done]. intros [= <-].
  pose proof (refs_in_starts _ _ _ (find_refs_sound (list_ascii_of_string text) 0)) as Hnd.
  apply map_omap_in. intros m Hm. rewrite (scan_refs_lookup _ _ _ _ Hnd Hm). unfold judged_ref. simpl.
  by destruct (known (rm_name m) && quoted (rm_name m)).
Qed.
