(* ===== verification/TaskRender.v ===== *)
(** * Filling a task in for one node (internal/tasks/render.go) *)

From S2P Require Import Prelude GoStrings GoTime TaskModel TaskRefs.

(** The errors [Render] returns: an input that is required and missing, and a
    reference nothing defines.  [NilBody] stands for the nil dereference of a
    step whose [Kind] names a pointer that is not set, which the source
    panics at. *)
Inductive RenderError : Type :=
| InputMissing (name : string)
| UndefinedRef (name : string)
| NilBody (kind : string).
#[export] Instance RenderError_eq_dec : EqDecision RenderError.
Proof. solve_decision. Defined.

Record NodeVars : Type := mkNodeVars { nv_Name : string; nv_Address : string }.

Definition quote_char : ascii := "'".

(** One POSIX shell word: single quotes, each inner one closed, escaped and
    reopened. *)
Definition ShellQuote (s : string) : string :=
  "'" +:+ replaceByte s quote_char "'\''" +:+ "'".

Record renderer : Type := mkRenderer {
  r_values : gmap string string;
  r_raw : gmap string bool;
}.

(** The error the renderer holds, the first one set. *)
Definition r_err : Type := option RenderError.
Definition set_err (e : r_err) (new : RenderError) : r_err :=
  match e with None => Some new | Some _ => e end.

(** What one reference is replaced by. *)
Definition fill_ref (r : renderer) (quote : bool) (m : ref_match) (whole : string) (err : r_err) : string * r_err :=
  match r_values r !! rm_name m with
  | None => (whole, set_err err (UndefinedRef (rm_name m)))
  | Some v =>
      if quote && negb (default false (r_raw r !! rm_name m)) then (ShellQuote v, err)
      else (v, err)
  end.

(** [ReplaceAllStringFunc] over the matches of [s], from offset [last]. *)
Fixpoint fill_from (r : renderer) (s : string) (quote : bool) (l : list ref_match) (last : nat) (err : r_err)
    : string * r_err :=
  match l with
  | [] => (sdrop last s, err)
  | m :: l =>
      let before := stake (rm_start m - last) (sdrop last s) in
      let whole := stake (rm_end m - rm_start m) (sdrop (rm_start m) s) in
      let '(w, err) := fill_ref r quote m whole err in
      let '(rest, err) := fill_from r s quote l (rm_end m) err in
      (before +:+ w +:+ rest, err)
  end.

Definition fill (r : renderer) (s : string) (quote : bool) (err : r_err) : string * r_err :=
  fill_from r s quote (findAllRefs s) 0 err.

Definition is_list_sep (c : ascii) : bool :=
  existsb (Ascii.eqb c) (map ascii_of_nat [44; 32; 9; 10]%nat).

(** The names of a packages list: a reference may hold several. *)
Fixpoint packageNames_fill (r : renderer) (items : list string) (err : r_err) : list string * r_err :=
  match items with
  | [] => ([], err)
  | it :: items =>
      if negb (hasRef it) then
        let '(out, err) := packageNames_fill r items err in (it :: out, err)
      else
        let '(v, err) := fill r it false err in
        let '(out, err) := packageNames_fill r items err in
        (fieldsFunc v is_list_sep ++ out, err)
  end.

Definition packageList (r : renderer) (items : option (list string)) (err : r_err) : option (list string) * r_err :=
  match items with
  | None => (None, err)
  | Some items => let '(out, err) := packageNames_fill r items err in (Some out, err)
  end.

(** The renderer of a run: the inputs with their defaults, or the first
    required one that has no value; then the node's variables. *)
Fixpoint render_inputs (l : list Input) (inputs : gmap string string) (r : renderer) : result RenderError renderer :=
  match l with
  | [] => Ok r
  | i :: l =>
      let v := default "" (inputs !! in_Name i) in
      let v := if v ==s "" then in_Default i else v in
      if (v ==s "") && in_Required i then Err (InputMissing (in_Name i))
      else
        render_inputs l inputs
          (mkRenderer (<[in_Name i := v]> (r_values r)) (<[in_Name i := in_Raw i]> (r_raw r)))
  end.

Definition node_values (r : renderer) (node : NodeVars) : renderer :=
  mkRenderer (<[refNodeAddress := nv_Address node]> (<[refNodeName := nv_Name node]> (r_values r))) (r_raw r).

Definition empty_spec (t : Task) (i : nat) (kind : string) : JobSpec :=
  mkJobSpec "" "" (tk_Name t) (Z.of_nat i) kind false None None None None None None.

(** One step's body, by its kind: the spec and the renderer's error. *)
Definition render_step (r : renderer) (t : Task) (i : nat) (s : Step) : result RenderError (JobSpec * r_err) :=
  let spec := empty_spec t i (sp_Kind s) in
  if sp_Kind s ==s StepPackages then
    match sp_Packages s with
    | None => Err (NilBody StepPackages)
    | Some p =>
        let '(up, err) := packageList r (pk_Upgrade p) None in
        let '(ins, err) := packageList r (pk_Install p) err in
        let '(rem, err) := packageList r (pk_Remove p) err in
        Ok (mkJobSpec "" "" (tk_Name t) (Z.of_nat i) (sp_Kind s) false
              (Some (mkPackagesStep (pk_Update p) (pk_UpgradeAll p) up ins rem))
              None None None None None, err)
    end
  else if sp_Kind s ==s StepService then
    match sp_Service s with
    | None => Err (NilBody StepService)
    | Some sv =>
        let '(name, err) := fill r (sv_Name sv) false None in
        Ok (mkJobSpec "" "" (tk_Name t) (Z.of_nat i) (sp_Kind s) false
              None (Some (mkServiceStep name (sv_Action sv))) None None None None, err)
    end
  else if sp_Kind s ==s StepCommand then
    match sp_Command s with
    | None => Err (NilBody StepCommand)
    | Some c =>
        let '(run, err) := fill r (cm_Run c) true None in
        let '(script, err) := fill r (cm_Script c) true err in
        Ok (mkJobSpec "" "" (tk_Name t) (Z.of_nat i) (sp_Kind s) false
              None None (Some (mkCommandStep run script (cm_Timeout c))) None None None, err)
    end
  else if sp_Kind s ==s StepFile then
    match sp_File s with
    | None => Err (NilBody StepFile)
    | Some f =>
        let '(p, err) := fill r (fl_Path f) false None in
        let '(c, err) := fill r (fl_Content f) false err in
        let '(o, err) := fill r (fl_Owner f) false err in
        Ok (mkJobSpec "" "" (tk_Name t) (Z.of_nat i) (sp_Kind s) false
              None None None (Some (mkFileStep p c (fl_Mode f) o)) None None, err)
    end
  else if sp_Kind s ==s StepStack then
    match sp_Stack s with
    | None => Err (NilBody StepStack)
    | Some st =>
        let '(n, err) := fill r (st_Name st) false None in
        let '(c, err) := fill r (st_Compose st) false err in
        Ok (mkJobSpec "" "" (tk_Name t) (Z.of_nat i) (sp_Kind s) false
              None None None None (Some (mkStackStep n c (st_Up st))) None, err)
    end
  else if sp_Kind s ==s StepReboot then
    match sp_Reboot s with
    | None => Err (NilBody StepReboot)
    | Some rb =>
        Ok (mkJobSpec "" "" (tk_Name t) (Z.of_nat i) (sp_Kind s) false
              None None None None None (Some rb), None)
    end
  else Ok (spec, None).

Fixpoint render_steps (r : renderer) (t : Task) (i : nat) (steps : list Step) : result RenderError (list JobSpec) :=
  match steps with
  | [] => Ok []
  | s :: steps =>
      x <-? render_step r t i s ;;
      match x.2 with
      | Some e => Err e
      | None => specs <-? render_steps r t (S i) steps ;; Ok (x.1 :: specs)
      end
  end.

Definition Render (t : Task) (inputs : gmap string string) (node : NodeVars) : result RenderError (list JobSpec) :=
  r <-? render_inputs (tk_Inputs t) inputs (mkRenderer ∅ ∅) ;;
  render_steps (node_values r node) t 0 (tk_Steps t).

(** ** A shell word, as POSIX reads one

    The reference reader for the theorem on [ShellQuote]: quotes and escapes
    are removed as the shell does; a double quote, a dollar or a backquote is
    outside its scope. *)

Fixpoint take_quoted (s : list ascii) : option (list ascii * list ascii) :=
  match s with
  | [] => None
  | c :: s =>
      if Ascii.eqb c quote_char then Some ([], s)
      else (fun '(a, b) => (c :: a, b)) <$> take_quoted s
  end.

Definition is_word_end (c : ascii) : bool :=
  existsb (Ascii.eqb c) (map ascii_of_nat [32; 9; 10]%nat ++ list_ascii_of_string ";&|()<>").
Definition is_expansion (c : ascii) : bool :=
  existsb (Ascii.eqb c) (map ascii_of_nat [34; 36; 96]%nat).

Fixpoint shell_word (fuel : nat) (s : list ascii) : option (list ascii * list ascii) :=
  match fuel with
  | O => None
  | S fuel =>
      match s with
      | [] => Some ([], [])
      | c :: s' =>
          if is_word_end c then Some ([], s)
          else if is_expansion c then None
          else if Ascii.eqb c quote_char then
            match take_quoted s' with
            | None => None
            | Some (a, b) => (fun '(w, r) => (a ++ w, r)) <$> shell_word fuel b
            end
          else if Ascii.eqb c "\" then
            match s' with
            | [] => None
            | d :: s'' => (fun '(w, r) => (d :: w, r)) <$> shell_word fuel s''
            end
          else (fun '(w, r) => (c :: w, r)) <$> shell_word fuel s'
      end
  end.

(** A text that ends a word: nothing, or a blank, newline or operator. *)
Definition word_boundary (rest : list ascii) : bool :=
  match rest with [] => true | c :: _ => is_word_end c end.
