(* ===== verification/TaskYaml.v ===== *)
(** * The YAML documents of tasks

    [gopkg.in/yaml.v3] is outside the repository: its node tree is the data
    the code walks and builds, and what it does with one — decode a document
    into a tree, decode a scalar as a bool or an int, encode a tree — is the
    interface [YamlLib].  [YamlScalars] is what its documentation says of the
    scalars the formatter writes. *)

From S2P Require Import Prelude GoStrings.

Inductive NodeKind : Type := DocumentNode | SequenceNode | MappingNode | ScalarNode | AliasNode.
#[export] Instance NodeKind_eq_dec : EqDecision NodeKind.
Proof. solve_decision. Defined.

(** yaml.Style is a bit set. *)
Definition DoubleQuotedStyle : Z := 2.
Definition LiteralStyle : Z := 8.
Definition FlowStyle : Z := 32.

#[local] Set Warnings "-register-all".
Inductive Node : Type := mkNode {
  n_Kind : NodeKind;
  n_Style : Z;
  n_Tag : string;
  n_Value : string;
  n_Content : list Node;
  n_Line : Z;
}.

Inductive DecodeOutcome : Type :=
| Decoded (n : Node)
| DecodeEOF                    (* io.EOF: no (further) document *)
| DecodeFailed (text : string) (* a syntax error's text *).

Class YamlLib : Type := {
  (** The first two [Decode] calls on a document's bytes. *)
  yaml_decode_first : string -> DecodeOutcome;
  yaml_decode_second : string -> DecodeOutcome;
  (** [n.Decode(&b)], [n.Decode(&i)]: [None] is an error. *)
  node_decode_bool : Node -> option bool;
  node_decode_int : Node -> option Z;
  (** [Encoder.Encode] with an indent of 2: [None] is an error. *)
  yaml_encode : Node -> option string;
}.

(** A scalar tagged [!!bool] or [!!int] by the formatter decodes to the value
    it was written from. *)
Class YamlScalars (Y : YamlLib) : Prop := {
  decode_bool_of : forall (b : bool) (st l : Z),
    node_decode_bool (mkNode ScalarNode st "!!bool" (if b then "true" else "false") [] l) = Some b;
  decode_int_of : forall (z st l : Z), - 2 ^ 63 <= z < 2 ^ 63 ->
    node_decode_int (mkNode ScalarNode st "!!int" (itoa z) [] l) = Some z;
  (** An int read from a document is a 64-bit one. *)
  decode_int_range : forall n z, node_decode_int n = Some z -> - 2 ^ 63 <= z < 2 ^ 63;
}.

(** Two trees alike but for where they came from: lines and styles. *)
Fixpoint node_erase (n : Node) : Node :=
  mkNode (n_Kind n) 0 (n_Tag n) (n_Value n) (map node_erase (n_Content n)) 0.
