(* ===== verification/TaskParse.v ===== *)
(** * Reading a task document (internal/tasks/parse.go)

    The parser is a state monad over the problems found and the inputs
    defined, as the methods of the source's [parser].  Each check reports its
    problem and goes on. *)

From S2P Require Import Prelude GoStrings GoRegexp GoTime TaskModel TaskRefs ShellPlaces TaskYaml.

(** ** The parser's state *)

Record parser : Type := mkParser {
  p_problems : list Problem;
  p_inputs : gset string;
  p_raw : gmap string bool;
}.

Definition M (A : Type) : Type := parser -> A * parser.
Definition mret {A} (a : A) : M A := fun p => (a, p).
Definition mbind {A B} (m : M A) (k : A -> M B) : M B := fun p => let '(a, p) := m p in k a p.
Definition mget {A} (f : parser -> A) : M A := fun p => (f p, p).

Declare Scope parse_scope.
Delimit Scope parse_scope with parse.
Notation "x <- m ;; k" := (mbind m (fun x => k))
  (at level 100, m at next level, right associativity) : parse_scope.
Notation "m ;;; k" := (mbind m (fun _ => k)) (at level 100, right associativity) : parse_scope.
#[local] Open Scope parse_scope.

Definition skip : M unit := mret tt.
Definition mwhen (b : bool) (m : M unit) : M unit := if b then m else skip.

Definition addf (line : Z) (m : message) : M unit :=
  fun p => (tt, mkParser (p_problems p ++ [mkProblem line m]) (p_inputs p) (p_raw p)).

Fixpoint mfor {A} (l : list A) (f : A -> M unit) : M unit :=
  match l with
  | [] => skip
  | a :: l => f a ;;; mfor l f
  end.

(** ** Mappings *)

Record entry : Type := mkEntry { e_key : Node; e_val : Node }.

(** [i, i+1] pairs of a mapping's content; a last key with no value is left
    out, as the loop's bound does. *)
Fixpoint pairs (l : list Node) : list entry :=
  match l with
  | k :: v :: l => mkEntry k v :: pairs l
  | _ => []
  end.

Fixpoint mapping_entries (what : message) (seen : gset string) (l : list entry) : M (list entry) :=
  match l with
  | [] => mret []
  | e :: l =>
      if bool_decide (n_Value (e_key e) ∈ seen) then
        addf (n_Line (e_key e)) (Sprintf "%s: %q appears twice" [FMsg what; FStr (n_Value (e_key e))]) ;;;
        mapping_entries what seen l
      else
        out <- mapping_entries what ({[n_Value (e_key e)]} ∪ seen) l ;;
        mret (e :: out)
  end.

Definition kind_is (n : Node) (k : NodeKind) : bool := bool_decide (n_Kind n = k).

Definition mapping (n : Node) (what : message) : M (option (list entry)) :=
  if kind_is n AliasNode then
    addf (n_Line n) (Sprintf "%s: aliases are not supported in a task" [FMsg what]) ;;; mret None
  else if negb (kind_is n MappingNode) then
    addf (n_Line n) (Sprintf "%s must be a mapping of keys to values" [FMsg what]) ;;; mret None
  else
    out <- mapping_entries what ∅ (pairs (n_Content n)) ;; mret (Some out).

Abbreviation fieldmap := (gmap string entry).

Fixpoint fields_of (what : message) (allowed : list string) (l : list entry) (out : fieldmap) : M fieldmap :=
  match l with
  | [] => mret out
  | e :: l =>
      if negb (slices_contains allowed (n_Value (e_key e))) then
        addf (n_Line (e_key e))
          (Sprintf "unknown key %q in %s; expected one of %s"
             [FStr (n_Value (e_key e)); FMsg what; FStr (join allowed ", ")]) ;;;
        fields_of what allowed l out
      else fields_of what allowed l (<[n_Value (e_key e) := e]> out)
  end.

Definition fields (n : Node) (what : message) (allowed : list string) : M (option fieldmap) :=
  entries <- mapping n what ;;
  match entries with
  | None => mret None
  | Some l => f <- fields_of what allowed l ∅ ;; mret (Some f)
  end.

Definition isNull (n : Node) : bool := kind_is n ScalarNode && (n_Tag n ==s "!!null").

Definition present (f : fieldmap) (key : string) : bool :=
  match f !! key with
  | Some e => negb (isNull (e_val e))
  | None => false
  end.

(** ** Scalars *)

(** [str]: the text and its node, or [None]. *)
Definition str (f : fieldmap) (key : string) (what : message) (required : bool) (parent : Node)
    : M (option (string * Node)) :=
  if negb (present f key) then
    mwhen required
      (addf (match f !! key with Some e => n_Line (e_key e) | None => n_Line parent end)
         (Sprintf "%q is required in %s" [FStr key; FMsg what])) ;;;
    mret None
  else
    match f !! key with
    | None => mret None
    | Some e =>
        let v := e_val e in
        if negb (kind_is v ScalarNode) then
          addf (n_Line v) (Sprintf "%s %q must be a single value" [FMsg what; FStr key]) ;;; mret None
        else mret (Some (n_Value v, v))
    end.

(** The text of [str]'s answer: empty when it gave none. *)
Definition text_of (r : option (string * Node)) : string :=
  match r with Some (s, _) => s | None => "" end.
Definition node_of (r : option (string * Node)) : option Node := snd <$> r.

Section Parser.
Context {Y : YamlLib}.

Definition p_boolean (f : fieldmap) (key : string) (what : message) (def : bool) : M bool :=
  if negb (present f key) then mret def
  else
    match f !! key with
    | None => mret def
    | Some e =>
        let v := e_val e in
        match (if kind_is v ScalarNode then node_decode_bool v else None) with
        | Some b => mret b
        | None =>
            addf (n_Line v) (Sprintf "%s %q must be true or false" [FMsg what; FStr key]) ;;; mret def
        end
    end.

Definition p_duration (f : fieldmap) (key : string) (what : message) (def : Duration) : M Duration :=
  if negb (present f key) then mret def
  else
    match f !! key with
    | None => mret def
    | Some e =>
        let v := e_val e in
        let bad :=
          addf (n_Line v) (Sprintf "%s %s %q is not a duration; write it like 30s, 10m or 1h"
            [FMsg what; FStr key; FStr (n_Value v)]) ;;; mret def in
        match ParseDuration (n_Value v) with
        | Some d => if kind_is v ScalarNode && (0 <? d) then mret d else bad
        | None => bad
        end
    end.

(** [list]: the items, and whether each is a single value. *)
Definition p_list (n : Node) (what : message) : M (option (list Node) * bool) :=
  if negb (kind_is n SequenceNode) then
    addf (n_Line n) (Sprintf "%s must be a list" [FMsg what]) ;;; mret (None, false)
  else
    let bad item := negb (kind_is item ScalarNode) || isNull item in
    mfor (n_Content n) (fun item =>
      mwhen (bad item)
        (addf (n_Line item) (Sprintf "%s: each item must be a single value" [FMsg what]))) ;;;
    mret (Some (n_Content n), negb (existsb bad (n_Content n))).

(** [values] of a nil list is an empty list, not nil. *)
Definition values (items : option (list Node)) : list string :=
  map n_Value (default [] items).

(** ** References *)

Definition known_ref (inputs : gset string) (name : string) : bool :=
  bool_decide (name ∈ inputs) || (name ==s refNodeName) || (name ==s refNodeAddress).

Definition refLine (v : Node) (off : nat) : Z :=
  if Z.land (n_Style v) LiteralStyle =? 0 then n_Line v
  else n_Line v + 1 + Z.of_nat (countByte (stake off (n_Value v)) nl).

Definition p_refs (v : option Node) : M unit :=
  match v with
  | None => skip
  | Some v =>
      mfor (findAllRefs (n_Value v)) (fun m =>
        inputs <- mget p_inputs ;;
        if known_ref inputs (rm_name m) then skip
        else
          let line := refLine v (rm_start m) in
          if hasPrefix (rm_name m) "node." then
            addf line (Sprintf "%q is not a node variable; use node.name or node.address" [FStr (rm_name m)])
          else
            addf line (Sprintf "%q is not an input of this task; define it under inputs" [FStr (rm_name m)]))
  end.

Definition dquote_string : string := String dquote "".

Definition p_shellRefs (v : option Node) : M unit :=
  match v with
  | None => skip
  | Some v =>
      inputs <- mget p_inputs ;;
      raw <- mget p_raw ;;
      let quoted name := negb (default false (raw !! name)) in
      mfor (default [] (shellPlaces (n_Value v) quoted (known_ref inputs))) (fun '(r, verdict) =>
        match verdict with
        | placeWord => skip
        | placeEnclosed =>
            addf (refLine v (sr_start r))
              (Sprintf ("{{ %s }} is inside quotes, a command substitution, a heredoc or a comment: write it unquoted where a word goes — its value is quoted for you. To use it inside a string, assign it first (X={{ %s }}) and write "
                   +:+ dquote_string +:+ "$X" +:+ dquote_string)
                 [FStr (sr_name r); FStr (sr_name r)])
        | placeUnread =>
            addf (refLine v (sr_start r))
              (Sprintf ("{{ %s }} comes after shell syntax this check cannot follow ($'…', $[…], quotes inside ${…}, case inside ( ) or $( ), or a \ or $ right before a reference): assign it near the top of the script (X={{ %s }}) and write "
                   +:+ dquote_string +:+ "$X" +:+ dquote_string +:+ " where you need it")
                 [FStr (sr_name r); FStr (sr_name r)])
        end)
  end.

(** ** Inputs *)

Definition define_input (name : string) : M unit :=
  fun p => (tt, mkParser (p_problems p) ({[name]} ∪ p_inputs p) (p_raw p)).
Definition define_raw (name : string) (b : bool) : M unit :=
  fun p => (tt, mkParser (p_problems p) (p_inputs p) (<[name := b]> (p_raw p))).

Fixpoint inputList_entries (l : list entry) : M (list Input) :=
  match l with
  | [] => mret []
  | e :: l =>
      let name := n_Value (e_key e) in
      let what := Sprintf "input %q" [FStr name] in
      if negb (matchString validInputName name) then
        addf (n_Line (e_key e))
          (Sprintf "input name %q must be letters, digits and _ and not start with a digit" [FStr name]) ;;;
        inputList_entries l
      else if name ==s "node" then
        addf (n_Line (e_key e))
          (Sprintf "an input cannot be called %q; node.name and node.address are already taken" [FStr name]) ;;;
        inputList_entries l
      else
        define_input name ;;;
        if isNull (e_val e) then
          out <- inputList_entries l ;; mret (mkInput name "" "" false false :: out)
        else
          f <- fields (e_val e) what ["label"; "default"; "required"; "raw"] ;;
          match f with
          | None => inputList_entries l
          | Some f =>
              label <- str f "label" what false (e_val e) ;;
              def <- str f "default" what false (e_val e) ;;
              required <- p_boolean f "required" what false ;;
              raw <- p_boolean f "raw" what false ;;
              define_raw name raw ;;;
              out <- inputList_entries l ;;
              mret (mkInput name (text_of label) (text_of def) required raw :: out)
          end
  end.

Definition p_inputList (n : Node) : M (list Input) :=
  entries <- mapping n (Sprintf "inputs" []) ;;
  match entries with
  | None => mret []
  | Some l => inputList_entries l
  end.

(** ** Targets *)

Definition target_list (f : fieldmap) (key : string) : M (option (list string)) :=
  if negb (present f key) then mret None
  else
    match f !! key with
    | None => mret None
    | Some e =>
        items <- p_list (e_val e) (Sprintf "targets %s" [FStr key]) ;;
        mret (Some (values items.1))
    end.

Definition p_targets (n : Node) : M Targets :=
  f <- fields n (Sprintf "targets" []) ["groups"; "kinds"; "nodes"] ;;
  match f with
  | None => mret (mkTargets None None None)
  | Some f =>
      groups <- target_list f "groups" ;;
      nodes <- target_list f "nodes" ;;
      kinds <-
        (if negb (present f "kinds") then mret None
         else
           match f !! "kinds" with
           | None => mret None
           | Some e =>
               items <- p_list (e_val e) (Sprintf "targets kinds" []) ;;
               mfor (default [] items.1) (fun it =>
                 mwhen (negb (slices_contains nodeKinds (n_Value it)))
                   (addf (n_Line it) (Sprintf "node kind %q is not one of %s"
                      [FStr (n_Value it); FStr (join nodeKinds ", ")]))) ;;;
               mret (Some (values items.1))
           end) ;;
      mret (mkTargets groups kinds nodes)
  end.

(** ** Steps *)

Definition p_packageNames (items : list Node) : M unit :=
  mfor items (fun it =>
    if hasRef (n_Value it) then p_refs (Some it)
    else
      mwhen (negb (matchString validPackageName (n_Value it)))
        (addf (n_Line it)
           (Sprintf "package name %q is not valid; names are letters, digits and . _ + - and start with a letter or digit"
              [FStr (n_Value it)]))).

(** [upgrade]: [all] or a list; and whether the key was given. *)
Definition p_upgrade (f : fieldmap) (what : message) : M (bool * option (list string)) :=
  match (if present f "upgrade" then f !! "upgrade" else None) with
  | None => mret (false, None)
  | Some e =>
      let v := e_val e in
      if kind_is v ScalarNode && (n_Value v ==s "all") then mret (true, None)
      else if kind_is v SequenceNode then
        items <- p_list v (Sprintf "%s upgrade" [FMsg what]) ;;
        mwhen (length (default [] items.1) =? 0)%nat
          (addf (n_Line v) (Sprintf "upgrade needs at least one package, or all" [])) ;;;
        p_packageNames (default [] items.1) ;;;
        mret (false, Some (values items.1))
      else
        addf (n_Line v) (Sprintf ("upgrade takes " +:+ dquote_string +:+ "all" +:+ dquote_string +:+ " or a list of package names") []) ;;;
        mret (false, None)
  end.

(** One of [install] and [remove]. *)
Definition p_change (f : fieldmap) (what : message) (key : string) : M (option (list string)) :=
  match (if present f key then f !! key else None) with
  | None => mret None
  | Some e =>
      items <- p_list (e_val e) (Sprintf "%s %s" [FMsg what; FStr key]) ;;
      mwhen (length (default [] items.1) =? 0)%nat
        (addf (n_Line (e_val e)) (Sprintf "%s needs at least one package" [FStr key])) ;;;
      p_packageNames (default [] items.1) ;;;
      mret (Some (values items.1))
  end.

Definition package_actions (f : fieldmap) : list string :=
  filter (fun key => present f key = true) ["upgrade"; "install"; "remove"].

Definition p_packages (n : Node) (what : message) : M (option PackagesStep) :=
  f <- fields n what ["update"; "upgrade"; "install"; "remove"] ;;
  match f with
  | None => mret None
  | Some f =>
      update <- p_boolean f "update" what false ;;
      up <- p_upgrade f what ;;
      install <- p_change f what "install" ;;
      remove <- p_change f what "remove" ;;
      (match package_actions f with
       | a0 :: a1 :: _ =>
           addf (match f !! a1 with Some e => n_Line (e_key e) | None => 0 end)
             (Sprintf "a packages step takes one of upgrade, install or remove (update may go with it); split %s and %s into two steps"
                [FStr a0; FStr a1])
       | [] =>
           mwhen (negb update)
             (addf (n_Line n) (Sprintf "a packages step needs update, upgrade, install or remove" []))
       | _ => skip
       end) ;;;
      mret (Some (mkPackagesStep update up.1 up.2 install remove))
  end.

Definition p_service (n : Node) (what : message) : M (option ServiceStep) :=
  f <- fields n what ["name"; "action"] ;;
  match f with
  | None => mret None
  | Some f =>
      name <- str f "name" what true n ;;
      p_refs (node_of name) ;;;
      action <- str f "action" what true n ;;
      (match action with
       | None => skip
       | Some (a, av) =>
           mwhen (negb (slices_contains serviceActions a))
             (addf (n_Line av) (Sprintf "service action %q is not one of %s"
                [FStr a; FStr (join serviceActions ", ")]))
       end) ;;;
      mret (Some (mkServiceStep (text_of name) (text_of action)))
  end.

Definition p_command (n : Node) (what : message) : M (option CommandStep) :=
  f <- fields n what ["run"; "script"; "timeout"] ;;
  match f with
  | None => mret None
  | Some f =>
      run <- str f "run" what false n ;;
      script <- str f "script" what false n ;;
      (match run, script with
       | Some _, Some _ =>
           addf (match f !! "script" with Some e => n_Line (e_key e) | None => 0 end)
             (Sprintf "a command step takes run or script, not both" [])
       | None, None => addf (n_Line n) (Sprintf "a command step needs run or script" [])
       | _, _ =>
           mwhen (trimSpace (text_of run +:+ text_of script) ==s "")
             (addf (n_Line n) (Sprintf "the command is empty" []))
       end) ;;;
      p_refs (node_of run) ;;;
      p_refs (node_of script) ;;;
      p_shellRefs (node_of run) ;;;
      p_shellRefs (node_of script) ;;;
      timeout <- p_duration f "timeout" (Sprintf "command" []) DefaultCommandTimeout ;;
      mret (Some (mkCommandStep (text_of run) (text_of script) timeout))
  end.

(** [checkFileMode]: three or four octal digits in what it says, one to four
    in what it does; permission bits only.  [None] is no error. *)
Fixpoint octal_val (s : string) (acc : Z) : option Z :=
  match s with
  | EmptyString => Some acc
  | String c s => if byte_in c "0" "7" then octal_val s (acc * 8 + digit_val c) else None
  end.

Definition checkFileMode (raw : string) : option message :=
  if (raw ==s "") || (4 <? String.length raw)%nat then
    Some (Sprintf "must be three or four octal digits" [])
  else
    match octal_val raw 0 with
    | None => Some (Sprintf "must be octal, for example 0644" [])
    | Some parsed =>
        if negb (Z.land parsed (Z.lnot 511) =? 0) then
          Some (Sprintf "only permission bits may be set; setuid, setgid and sticky are not settable here" [])
        else None
    end.

Definition p_file (n : Node) (what : message) : M (option FileStep) :=
  f <- fields n what ["path"; "content"; "mode"; "owner"] ;;
  match f with
  | None => mret None
  | Some f =>
      path <- str f "path" what true n ;;
      (match path with
       | None => skip
       | Some (p, v) =>
           mwhen (negb (hasRef p) && negb (isAbs p))
             (addf (n_Line v) (Sprintf "file path %q must be absolute" [FStr p])) ;;;
           p_refs (Some v)
       end) ;;;
      content <- str f "content" what true n ;;
      p_refs (node_of content) ;;;
      mode <- str f "mode" what false n ;;
      (match mode with
       | None => skip
       | Some (m, v) =>
           match checkFileMode m with
           | Some err => addf (n_Line v) (Sprintf "file mode %q: %v" [FStr m; FMsg err])
           | None => skip
           end
       end) ;;;
      owner <- str f "owner" what false n ;;
      p_refs (node_of owner) ;;;
      mret (Some (mkFileStep (text_of path) (text_of content) (text_of mode) (text_of owner)))
  end.

Definition p_stack (n : Node) (what : message) : M (option StackStep) :=
  f <- fields n what ["name"; "compose"; "up"] ;;
  match f with
  | None => mret None
  | Some f =>
      name <- str f "name" what true n ;;
      p_refs (node_of name) ;;;
      compose <- str f "compose" what true n ;;
      p_refs (node_of compose) ;;;
      up <- p_boolean f "up" what false ;;
      mret (Some (mkStackStep (text_of name) (text_of compose) up))
  end.

Definition p_reboot (n : Node) (what : message) : M (option RebootStep) :=
  f <- fields n what ["only_if_required"; "wait"] ;;
  match f with
  | None => mret None
  | Some f =>
      only <- p_boolean f "only_if_required" what true ;;
      wait <- p_duration f "wait" (Sprintf "reboot" []) DefaultRebootWait ;;
      mret (Some (mkRebootStep only wait))
  end.

(** The keys of a step: the common ones, and the entry of its kind. *)
Definition is_common (k : string) : bool := (k ==s "name") || (k ==s "continue_on_error").

Fixpoint step_keys (what : message) (l : list entry) (common : fieldmap) (kind : option entry)
    : M (fieldmap * option entry) :=
  match l with
  | [] => mret (common, kind)
  | e :: l =>
      let k := n_Value (e_key e) in
      if is_common k then step_keys what l (<[k := e]> common) kind
      else if slices_contains stepKinds k then
        match kind with
        | Some e0 =>
            addf (n_Line (e_key e)) (Sprintf "a step takes exactly one kind; this one has %q and %q"
              [FStr (n_Value (e_key e0)); FStr k]) ;;;
            step_keys what l common kind
        | None => step_keys what l common (Some e)
        end
      else if kind_is (e_val e) MappingNode then
        addf (n_Line (e_key e)) (Sprintf "unknown step kind %q; a step is one of %s"
          [FStr k; FStr (join stepKinds ", ")]) ;;;
        step_keys what l common kind
      else
        addf (n_Line (e_key e))
          (Sprintf "unknown key %q in %s; expected name, continue_on_error or a step kind (%s)"
            [FStr k; FMsg what; FStr (join stepKinds ", ")]) ;;;
        step_keys what l common kind
  end.

(** The step's body by its kind. *)
Definition step_body (name : string) (coe : bool) (kind : string) (body : Node) : M Step :=
  let what := Sprintf "the %s step" [FStr kind] in
  if kind ==s StepPackages then
    b <- p_packages body what ;; mret (mkStep name coe kind b None None None None None)
  else if kind ==s StepService then
    b <- p_service body what ;; mret (mkStep name coe kind None b None None None None)
  else if kind ==s StepCommand then
    b <- p_command body what ;; mret (mkStep name coe kind None None b None None None)
  else if kind ==s StepFile then
    b <- p_file body what ;; mret (mkStep name coe kind None None None b None None)
  else if kind ==s StepStack then
    b <- p_stack body what ;; mret (mkStep name coe kind None None None None b None)
  else if kind ==s StepReboot then
    b <- p_reboot body what ;; mret (mkStep name coe kind None None None None None b)
  else mret (mkStep name coe kind None None None None None None).

Definition p_step (n : Node) (index : nat) : M (option Step) :=
  let what := Sprintf "step %d" [FInt (Z.of_nat index + 1)] in
  entries <- mapping n what ;;
  match entries with
  | None => mret None
  | Some l =>
      keys <- step_keys what l ∅ None ;;
      let '(common, kind) := keys in
      name <- str common "name" what false n ;;
      coe <- p_boolean common "continue_on_error" what false ;;
      match kind with
      | None =>
          let reported := existsb (fun e => negb (bool_decide (is_Some (common !! n_Value (e_key e))))) l in
          mwhen (negb reported)
            (addf (n_Line n) (Sprintf "%s has no kind; a step is one of %s" [FMsg what; FStr (join stepKinds ", ")])) ;;;
          mret None
      | Some e =>
          let body :=
            if isNull (e_val e) then mkNode MappingNode 0 "" "" [] (n_Line (e_key e)) else e_val e in
          s <- step_body (text_of name) coe (n_Value (e_key e)) body ;;
          mret (Some s)
      end
  end.

Fixpoint p_steps (l : list Node) (index : nat) : M (list Step) :=
  match l with
  | [] => mret []
  | n :: l =>
      s <- p_step n index ;;
      out <- p_steps l (S index) ;;
      mret (match s with Some s => s :: out | None => out end)
  end.

(** ** The document *)

(** The [batch] key: [Decode] into [t.Batch], which starts as 1. *)
Definition p_batch (f : fieldmap) : M Z :=
  match (if present f "batch" then f !! "batch" else None) with
  | None => mret 1
  | Some e =>
      let v := e_val e in
      match (if kind_is v ScalarNode then node_decode_int v else None) with
      | Some z =>
          if z <? 1 then
            addf (n_Line v) (Sprintf "batch must be a whole number of 1 or more" []) ;;; mret 1
          else mret z
      | None =>
          addf (n_Line v) (Sprintf "batch must be a whole number of 1 or more" []) ;;; mret 1
      end
  end.

(** The [steps] key. *)
Definition p_stepList (f : fieldmap) (doc : Node) : M (list Step) :=
  match (if present f "steps" then f !! "steps" else None) with
  | None =>
      addf (match f !! "steps" with Some e => n_Line (e_key e) | None => n_Line doc end)
        (Sprintf "%q is required in the task" [FStr "steps"]) ;;;
      mret []
  | Some e =>
      let v := e_val e in
      if negb (kind_is v SequenceNode) then
        addf (n_Line v) (Sprintf "steps must be a list" []) ;;; mret []
      else
        mwhen (length (n_Content v) =? 0)%nat
          (addf (n_Line (e_key e)) (Sprintf "a task needs at least one step" [])) ;;;
        mwhen (MaxSteps <? length (n_Content v))%nat
          (addf (n_Line (e_key e)) (Sprintf "the task has %d steps; a task has at most %d steps"
             [FInt (Z.of_nat (length (n_Content v))); FInt (Z.of_nat MaxSteps)])) ;;;
        p_steps (n_Content v) 0
  end.

Definition task_keys : list string :=
  ["name"; "description"; "inputs"; "targets"; "batch"; "stop_on_failure"; "steps"].

(** The document node under the root. *)
Definition doc_node (root : Node) : Node :=
  match n_Kind root, n_Content root with
  | DocumentNode, [doc] => doc
  | _, _ => root
  end.

Definition p_task (root : Node) : M (option Task) :=
  let doc := doc_node root in
  let what := Sprintf "the task" [] in
  f <- fields doc what task_keys ;;
  match f with
  | None => mret None
  | Some f =>
      name <- str f "name" what true doc ;;
      (match name with
       | None => skip
       | Some (s, v) =>
           mwhen (trimSpace s ==s "") (addf (n_Line v) (Sprintf "the task's name is blank" []))
       end) ;;;
      desc <- str f "description" what false doc ;;
      inputs <-
        (match (if present f "inputs" then f !! "inputs" else None) with
         | None => mret []
         | Some e => p_inputList (e_val e)
         end) ;;
      targets <-
        (match (if present f "targets" then f !! "targets" else None) with
         | None => mret (mkTargets None None None)
         | Some e => p_targets (e_val e)
         end) ;;
      batch <- p_batch f ;;
      stop <- p_boolean f "stop_on_failure" what true ;;
      steps <- p_stepList f doc ;;
      mret (Some (mkTask (text_of name) (text_of desc) inputs targets batch stop steps))
  end.

Definition new_parser : parser := mkParser [] ∅ ∅.

(** Problems in the order of their lines, those of a line as found. *)
Fixpoint insert_problem (x : Problem) (l : list Problem) : list Problem :=
  match l with
  | [] => [x]
  | y :: l' => if pr_Line x <=? pr_Line y then x :: l else y :: insert_problem x l'
  end.
Definition sort_problems (l : list Problem) : list Problem := foldr insert_problem [] l.

(** [yamlLine]: the number after the first "line " with digits behind it. *)
Fixpoint span_digits (s : string) : string :=
  match s with
  | String c s => if is_digit c then String c (span_digits s) else ""
  | EmptyString => ""
  end.
Fixpoint yamlLine (s : string) : option string :=
  let ds := span_digits (sdrop 5 s) in
  if hasPrefix s "line " && negb (ds ==s "") then Some ds
  else match s with
       | EmptyString => None
       | String _ s => yamlLine s
       end.

Definition syntaxProblem (err : string) : Problem :=
  let msg := trimPrefix err "yaml: " in
  let line :=
    match yamlLine msg with
    | Some ds => default 1 (atoi ds)
    | None => 1
    end in
  mkProblem line (Sprintf "not valid YAML: %s" [FStr msg]).

(** The parser's answer on a decoded document. *)
Definition parse_tree (root : Node) : option Task * list Problem :=
  let '(task, p) := p_task root new_parser in
  match p_problems p with
  | [] => (task, [])
  | ps => (None, sort_problems ps)
  end.

Definition Parse (doc : string) : option Task * list Problem :=
  if (MaxDocumentBytes <? String.length doc)%nat then
    (None, [mkProblem 0 (Sprintf "the document is %d bytes; a task is at most 64 KiB"
       [FInt (Z.of_nat (String.length doc))])])
  else
    match yaml_decode_first doc with
    | DecodeEOF => (None, [mkProblem 1 (Sprintf "the document is empty" [])])
    | DecodeFailed err => (None, [syntaxProblem err])
    | Decoded root =>
        match yaml_decode_second doc with
        | DecodeEOF => parse_tree root
        | DecodeFailed err => (None, [syntaxProblem err])
        | Decoded extra =>
            (None, [mkProblem (n_Line extra) (Sprintf "a task is one YAML document; remove the second one" [])])
        end
    end.
End Parser.
