(* ===== verification/TaskFormat.v ===== *)
(** * Writing a task back into a document (internal/tasks/format.go) *)

From S2P Require Import Prelude GoStrings GoTime TaskModel TaskYaml.

(** The runes YAML reads as a line break, and a tab, in UTF-8: the text starts
    with one of them when its first rune is. *)
Definition isLineBreak_encodings : list string :=
  map bytes_of [[10]; [13]; [194; 133]; [226; 128; 168]; [226; 128; 169]]%nat.

Definition starts_with_break (s : string) : bool :=
  existsb (fun e => hasPrefix s e) (bytes_of [9]%nat :: isLineBreak_encodings).

(** A string value: several lines as a literal block, but quoted when it
    starts with a line break or a tab. *)
Definition text_node (s : string) : Node :=
  let style :=
    if contains s (bytes_of [10]%nat) then
      if starts_with_break s then DoubleQuotedStyle else LiteralStyle
    else 0 in
  mkNode ScalarNode style "!!str" s [] 0.

Definition number_node (i : Z) : Node := mkNode ScalarNode 0 "!!int" (itoa i) [] 0.
Definition boolean_node (b : bool) : Node :=
  mkNode ScalarNode 0 "!!bool" (if b then "true" else "false") [] 0.

(** [add]: a key and its value at the end of a mapping's content. *)
Definition add (key : string) (val : Node) : list Node := [text_node key; val].
Definition add_if (b : bool) (key : string) (val : Node) : list Node :=
  if b then add key val else [].

Definition addList (key : string) (items : option (list string)) : list Node :=
  match items with
  | None => []
  | Some items =>
      add key (mkNode SequenceNode FlowStyle "" ""
        (map (fun it => mkNode ScalarNode 0 "!!str" it [] 0) items) 0)
  end.

(** [10m] and [1h30m] rather than [10m0s] and [1h30m0s]. *)
Definition shortDuration (d : Duration) : string :=
  let s := duration_String d in
  let s := if hasSuffix s "m0s" then trimSuffix s "0s" else s in
  if hasSuffix s "h0m" then trimSuffix s "0m" else s.

Definition addDuration (key : string) (d def : Duration) : list Node :=
  if negb (d =? 0) && negb (d =? def)
  then add key (mkNode ScalarNode 0 "" (shortDuration d) [] 0)
  else [].

Definition mapping_node (style : Z) (content : list Node) : Node :=
  mkNode MappingNode style "" "" content 0.

Definition formatInput (i : Input) : Node :=
  mapping_node FlowStyle
    (add_if (negb (in_Label i ==s "")) "label" (text_node (in_Label i)) ++
     add_if (negb (in_Default i ==s "")) "default" (text_node (in_Default i)) ++
     add_if (in_Required i) "required" (boolean_node true) ++
     add_if (in_Raw i) "raw" (boolean_node true)).

(** The body of a step's kind; a kind with no body is an empty mapping. *)
Definition format_body (s : Step) : list Node :=
  if sp_Kind s ==s StepPackages then
    match sp_Packages s with
    | None => []
    | Some p =>
        add_if (pk_Update p) "update" (boolean_node true) ++
        (if pk_UpgradeAll p then add "upgrade" (text_node "all") else addList "upgrade" (pk_Upgrade p)) ++
        addList "install" (pk_Install p) ++
        addList "remove" (pk_Remove p)
    end
  else if sp_Kind s ==s StepService then
    match sp_Service s with
    | None => []
    | Some sv => add "name" (text_node (sv_Name sv)) ++ add "action" (text_node (sv_Action sv))
    end
  else if sp_Kind s ==s StepCommand then
    match sp_Command s with
    | None => []
    | Some c =>
        add_if (negb (cm_Run c ==s "")) "run" (text_node (cm_Run c)) ++
        add_if (negb (cm_Script c ==s "")) "script" (text_node (cm_Script c)) ++
        addDuration "timeout" (cm_Timeout c) DefaultCommandTimeout
    end
  else if sp_Kind s ==s StepFile then
    match sp_File s with
    | None => []
    | Some f =>
        add "path" (text_node (fl_Path f)) ++
        add "content" (text_node (fl_Content f)) ++
        add_if (negb (fl_Mode f ==s "")) "mode" (text_node (fl_Mode f)) ++
        add_if (negb (fl_Owner f ==s "")) "owner" (text_node (fl_Owner f))
    end
  else if sp_Kind s ==s StepStack then
    match sp_Stack s with
    | None => []
    | Some st =>
        add "name" (text_node (st_Name st)) ++
        add "compose" (text_node (st_Compose st)) ++
        add_if (st_Up st) "up" (boolean_node true)
    end
  else if sp_Kind s ==s StepReboot then
    match sp_Reboot s with
    | None => []
    | Some r =>
        add_if (negb (rb_OnlyIfRequired r)) "only_if_required" (boolean_node false) ++
        addDuration "wait" (rb_Wait r) DefaultRebootWait
    end
  else [].

Definition formatStep (s : Step) : Node :=
  mapping_node 0
    (add_if (negb (sp_Name s ==s "")) "name" (text_node (sp_Name s)) ++
     add_if (sp_ContinueOnError s) "continue_on_error" (boolean_node true) ++
     (if sp_Kind s ==s "" then [] else add (sp_Kind s) (mapping_node 0 (format_body s)))).

Definition is_some {A} (o : option A) : bool := match o with Some _ => true | None => false end.

(** The tree [Format] encodes. *)
Definition format_tree (t : Task) : Node :=
  mapping_node 0
    (add "name" (text_node (tk_Name t)) ++
     add_if (negb (tk_Description t ==s "")) "description" (text_node (tk_Description t)) ++
     add_if (0 <? length (tk_Inputs t))%nat "inputs"
       (mapping_node 0 (concat (map (fun i => add (in_Name i) (formatInput i)) (tk_Inputs t)))) ++
     add_if (is_some (tg_Groups (tk_Targets t)) || is_some (tg_Kinds (tk_Targets t)) ||
             is_some (tg_Nodes (tk_Targets t))) "targets"
       (mapping_node 0
          (addList "groups" (tg_Groups (tk_Targets t)) ++
           addList "kinds" (tg_Kinds (tk_Targets t)) ++
           addList "nodes" (tg_Nodes (tk_Targets t)))) ++
     add_if (negb (tk_Batch t =? 0) && negb (tk_Batch t =? 1)) "batch" (number_node (tk_Batch t)) ++
     add_if (negb (tk_StopOnFailure t)) "stop_on_failure" (boolean_node false) ++
     add "steps" (mkNode SequenceNode 0 "" "" (map formatStep (tk_Steps t)) 0)).

Definition Format `{YamlLib} (t : option Task) : result message string :=
  match t with
  | None => Err (Sprintf "tasks: no task to format" [])
  | Some t =>
      match yaml_encode (format_tree t) with
      | Some s => Ok s
      | None => Err (Sprintf "yaml: encode failed" [])
      end
  end.
