(* ===== verification/TaskWf.v ===== *)
(** * Well-formed tasks

    What [Parse] promises of the task it returns, stated on the model alone:
    the type invariant the rest of the program relies on. *)

From S2P Require Import Prelude GoStrings GoRegexp GoTime TaskModel TaskRefs ShellPlaces TaskYaml.
From S2P Require Import TaskParse.

Definition input_names (l : list Input) : gset string := list_to_set (map in_Name l).

(** Whether an input is spliced into commands as typed. *)
Definition is_raw (l : list Input) (name : string) : bool :=
  existsb (fun i => (in_Name i ==s name) && in_Raw i) l.

(** Every reference of [s] is to a defined input or a node variable. *)
Definition refs_defined (inputs : gset string) (s : string) : Prop :=
  Forall (fun m => known_ref inputs (rm_name m) = true) (findAllRefs s).

(** Every quoted reference of a command stands where a word goes. *)
Definition shell_places_ok (inputs : gset string) (quoted : string -> bool) (s : string) : Prop :=
  exists l, shellPlaces s quoted (known_ref inputs) = Some l /\ Forall (fun rv => rv.2 = placeWord) l.

Definition package_name_ok (inputs : gset string) (s : string) : Prop :=
  if hasRef s then refs_defined inputs s else matchString validPackageName s = true.

Definition package_list_ok (inputs : gset string) (l : option (list string)) : Prop :=
  match l with
  | None => True
  | Some l => l <> [] /\ Forall (package_name_ok inputs) l
  end.

(** The changes a packages step makes: at most one, and one at least unless it
    refreshes the lists. *)
Definition package_changes (p : PackagesStep) : nat :=
  (if pk_UpgradeAll p || bool_decide (is_Some (pk_Upgrade p)) then 1 else 0) +
  (if bool_decide (is_Some (pk_Install p)) then 1 else 0) +
  (if bool_decide (is_Some (pk_Remove p)) then 1 else 0).

Definition packages_ok (inputs : gset string) (p : PackagesStep) : Prop :=
  (package_changes p <= 1)%nat /\
  (package_changes p = 0%nat -> pk_Update p = true) /\
  (pk_UpgradeAll p = true -> pk_Upgrade p = None) /\
  package_list_ok inputs (pk_Upgrade p) /\
  package_list_ok inputs (pk_Install p) /\
  package_list_ok inputs (pk_Remove p).

Definition duration_ok (d : Duration) : Prop := 0 < d < 2 ^ 63.

Definition command_ok (inputs : gset string) (quoted : string -> bool) (c : CommandStep) : Prop :=
  (cm_Run c = "" \/ cm_Script c = "") /\
  trimSpace (cm_Run c +:+ cm_Script c) <> "" /\
  refs_defined inputs (cm_Run c) /\ refs_defined inputs (cm_Script c) /\
  shell_places_ok inputs quoted (cm_Run c) /\ shell_places_ok inputs quoted (cm_Script c) /\
  duration_ok (cm_Timeout c).

Definition service_ok (inputs : gset string) (s : ServiceStep) : Prop :=
  refs_defined inputs (sv_Name s) /\ sv_Action s ∈ serviceActions.

Definition file_ok (inputs : gset string) (f : FileStep) : Prop :=
  (hasRef (fl_Path f) = true \/ isAbs (fl_Path f) = true) /\
  refs_defined inputs (fl_Path f) /\ refs_defined inputs (fl_Content f) /\
  refs_defined inputs (fl_Owner f) /\
  (fl_Mode f = "" \/ checkFileMode (fl_Mode f) = None).

Definition stack_ok (inputs : gset string) (s : StackStep) : Prop :=
  refs_defined inputs (st_Name s) /\ refs_defined inputs (st_Compose s).

Definition reboot_ok (r : RebootStep) : Prop := duration_ok (rb_Wait r).

(** Exactly the pointer [Kind] names is set, and its body is well formed. *)
Inductive step_ok (inputs : gset string) (quoted : string -> bool) : Step -> Prop :=
| ok_packages name coe p :
    packages_ok inputs p ->
    step_ok inputs quoted (mkStep name coe StepPackages (Some p) None None None None None)
| ok_service name coe s :
    service_ok inputs s ->
    step_ok inputs quoted (mkStep name coe StepService None (Some s) None None None None)
| ok_command name coe c :
    command_ok inputs quoted c ->
    step_ok inputs quoted (mkStep name coe StepCommand None None (Some c) None None None)
| ok_file name coe f :
    file_ok inputs f ->
    step_ok inputs quoted (mkStep name coe StepFile None None None (Some f) None None)
| ok_stack name coe s :
    stack_ok inputs s ->
    step_ok inputs quoted (mkStep name coe StepStack None None None None (Some s) None)
| ok_reboot name coe r :
    reboot_ok r ->
    step_ok inputs quoted (mkStep name coe StepReboot None None None None None (Some r)).

Definition input_ok (i : Input) : Prop :=
  matchString validInputName (in_Name i) = true /\ in_Name i <> "node".

Definition targets_ok (t : Targets) : Prop :=
  match tg_Kinds t with
  | None => True
  | Some l => Forall (fun k => k ∈ nodeKinds) l
  end.

Record task_ok (t : Task) : Prop := {
  ok_name : trimSpace (tk_Name t) <> "";
  ok_inputs : Forall input_ok (tk_Inputs t);
  ok_inputs_nodup : NoDup (map in_Name (tk_Inputs t));
  ok_targets : targets_ok (tk_Targets t);
  ok_batch : 1 <= tk_Batch t < 2 ^ 63;
  ok_steps_count : (1 <= length (tk_Steps t) <= MaxSteps)%nat;
  ok_steps : Forall (step_ok (input_names (tk_Inputs t))
    (fun name => negb (is_raw (tk_Inputs t) name))) (tk_Steps t);
}.

(** ** The scanner only asks which references are quoted *)

Lemma shellPlaces_ext text q1 q2 k1 k2 :
  (forall n, q1 n = q2 n) -> (forall n, k1 n = k2 n) ->
  shellPlaces text q1 k1 = shellPlaces text q2 k2.
Proof.
  intros Hq Hk. unfold shellPlaces.
  assert (forall l, scan_refs q1 k1 l = scan_refs q2 k2 l) as E.
  { intros l. unfold scan_refs. f_equal. apply map_ext. intros m. by rewrite Hq, Hk. }
  by rewrite E.
Qed.

(** ** A logic for parsers that report no problem

    [okp m Q]: problems only pile up in [m], and when [m] ends with none, its
    answer and its two states satisfy [Q]. *)

Definition okp {A} (m : M A) (Q : parser -> A -> parser -> Prop) : Prop :=
  forall p a p', m p = (a, p') -> p_problems p' = [] -> p_problems p = [] /\ Q p a p'.

(** [m] leaves the parser as it was. *)
Definition okpure {A} (m : M A) (P : parser -> A -> Prop) : Prop :=
  okp m (fun p a p' => p' = p /\ P p a).

Lemma okp_weaken {A} (m : M A) (Q Q' : parser -> A -> parser -> Prop) :
  okp m Q -> (forall p a p', Q p a p' -> Q' p a p') -> okp m Q'.
Proof. intros H HQ p a p' E Hp. destruct (H p a p' E Hp). auto. Qed.

Lemma okpure_weaken {A} (m : M A) (P P' : parser -> A -> Prop) :
  okpure m P -> (forall p a, P p a -> P' p a) -> okpure m P'.
Proof. intros H HP. eapply okp_weaken; [exact H|]. naive_solver. Qed.

Lemma okpure_ret {A} (a : A) (P : parser -> A -> Prop) : (forall p, P p a) -> okpure (mret a) P.
Proof. intros H p b p' [= <- <-] ?. auto. Qed.

Lemma okp_ret {A} (a : A) (Q : parser -> A -> parser -> Prop) : (forall p, Q p a p) -> okp (mret a) Q.
Proof. intros H p b p' [= <- <-] ?. auto. Qed.

Lemma okpure_skip (P : parser -> unit -> Prop) : (forall p, P p tt) -> okpure skip P.
Proof. apply okpure_ret. Qed.

Lemma okp_bind {A B} (m : M A) (k : A -> M B) Q R :
  okp m Q -> (forall a, okp (k a) (R a)) ->
  okp (mbind m k) (fun p b p'' => exists a p', Q p a p' /\ R a p' b p'').
Proof.
  intros Hm Hk p b p'' E Hp. unfold mbind in E. destruct (m p) as [a p'] eqn:Em.
  destruct (Hk a p' b p'' E Hp) as [Hp' HR]. destruct (Hm p a p' Em Hp') as [? HQ]. eauto 6.
Qed.

(** A pure first step hands what it learnt to the rest. *)
Lemma okpure_bind {A B} (m : M A) (k : A -> M B) (P : parser -> A -> Prop) (Q : parser -> B -> parser -> Prop) :
  okpure m P -> (forall a, okp (k a) (fun p b p' => P p a -> Q p b p')) -> okp (mbind m k) Q.
Proof.
  intros Hm Hk. eapply okp_weaken; [apply okp_bind; [exact Hm|exact Hk]|].
  intros p b p'' (a & p' & [-> HP] & HQ). auto.
Qed.

Lemma okp_addf_False (l : Z) (msg : message) (Q : parser -> unit -> parser -> Prop) : okp (addf l msg) Q.
Proof. intros p a p' [= <- <-] H. simpl in H. by destruct (p_problems p). Qed.

(** After a reported problem anything holds, if the rest only adds more. *)
Lemma okp_after_addf {B} (l : Z) (msg : message) (k : M B) (R Q : parser -> B -> parser -> Prop) :
  okp k R -> okp (addf l msg ;;; k)%parse Q.
Proof.
  intros Hk p b p'' E Hp. unfold mbind in E. simpl in E.
  destruct (Hk _ _ _ E Hp) as [H _]. simpl in H. by destruct (p_problems p).
Qed.

Lemma okp_addf_ret {B} (l : Z) (msg : message) (b : B) (Q : parser -> B -> parser -> Prop) :
  okp (addf l msg ;;; mret b)%parse Q.
Proof. apply okp_after_addf with (R := fun _ _ _ => True). by apply okp_ret. Qed.

Lemma okpure_mwhen (b : bool) (l : Z) (msg : message) :
  okpure (mwhen b (addf l msg)) (fun _ _ => b = false).
Proof. destruct b; [apply okp_addf_False|by apply okpure_skip]. Qed.

Lemma okpure_mget {A} (f : parser -> A) : okpure (mget f) (fun p a => a = f p).
Proof. intros p a p' [= <- <-] ?. auto. Qed.

Lemma okpure_mfor {A} (l : list A) (f : A -> M unit) (P : parser -> A -> Prop) :
  (forall a, okpure (f a) (fun p _ => P p a)) ->
  okpure (mfor l f) (fun p _ => Forall (P p) l).
Proof.
  intros Hf. induction l as [|a l IH]; simpl; [by apply okpure_skip|].
  apply (okpure_bind _ _ (fun p _ => P p a)); [apply Hf|]. intros _.
  eapply okp_weaken; [exact IH|]. naive_solver.
Qed.

(** ** Evaluating a parser that reports nothing *)

(** [m] answers [a] on [p] and leaves it alone. *)
Definition runs {A} (m : M A) (p : parser) (a : A) : Prop := m p = (a, p).

Lemma runs_ret {A} (a : A) p : runs (mret a) p a.
Proof. done. Qed.

Lemma runs_bind {A B} (m : M A) (k : A -> M B) p a b :
  runs m p a -> runs (k a) p b -> runs (mbind m k) p b.
Proof. unfold runs, mbind. by intros ->. Qed.

Lemma runs_skip p : runs skip p tt.
Proof. done. Qed.

Lemma runs_mwhen b m p : b = false -> runs (mwhen b m) p tt.
Proof. by intros ->. Qed.

Lemma runs_mfor {A} (l : list A) (f : A -> M unit) p :
  Forall (fun a => runs (f a) p tt) l -> runs (mfor l f) p tt.
Proof.
  induction 1 as [|a l Ha _ IH]; [done|]. simpl. by eapply runs_bind.
Qed.

Create HintDb runs discriminated.
#[export] Hint Resolve runs_ret runs_skip runs_mwhen runs_mfor : runs.
