(* ===== verification/TaskParseFacts.v ===== *)
(** * What [Parse] returns is well formed

    Each method of the parser, when no problem is reported, hands back a part
    of a well-formed task; the document's task is then well formed. *)

From S2P Require Import Prelude GoStrings GoRegexp GoTime TaskModel TaskRefs ShellPlaces ShellFacts.
From S2P Require Import TaskYaml TaskParse TaskWf.

#[local] Open Scope parse_scope.

(** ** Durations are positive and fit 64 bits *)

Lemma round_even_nonneg n d : 0 <= n -> 0 < d -> 0 <= round_even n d.
Proof.
  intros Hn Hd. unfold round_even. pose proof (Z.div_pos n d Hn Hd).
  destruct (_ <? _); [done|]. destruct (_ <? _); [lia|]. destruct (Z.even _); lia.
Qed.

Lemma f64_round_nonneg n d : 0 <= n -> 0 < d -> 0 <= mant (f64_round n d).
Proof.
  intros Hn Hd. unfold f64_round. simpl. apply round_even_nonneg.
  - apply Z.mul_nonneg_nonneg; [done|]. apply Z.pow_nonneg; lia.
  - apply Z.mul_pos_pos; [done|]. apply Z.pow_pos_nonneg; lia.
Qed.

Lemma f64_trunc_nonneg a : 0 <= mant a -> 0 <= f64_trunc a.
Proof.
  intros Ha. unfold f64_trunc. apply Z.div_pos.
  - apply Z.mul_nonneg_nonneg; [done|]. apply Z.pow_nonneg; lia.
  - apply Z.pow_pos_nonneg; lia.
Qed.

Lemma f64_mul_nonneg a b : 0 <= mant a -> 0 <= mant b -> 0 <= mant (f64_mul a b).
Proof.
  intros Ha Hb. unfold f64_mul. apply f64_round_nonneg.
  - apply Z.mul_nonneg_nonneg; [nia|]. apply Z.pow_nonneg; lia.
  - apply Z.pow_pos_nonneg; lia.
Qed.

Lemma leadingInt_nonneg s x v s' : 0 <= x -> leadingInt s x = Some (v, s') -> 0 <= v.
Proof.
  revert x. induction s as [|c s IH]; intros x Hx; simpl; [by intros [= <- _]|].
  destruct (is_digit c) eqn:E; [|by intros [= <- _]].
  destruct (_ <? _); [done|]. destruct (_ <? _); [done|]. apply IH.
  unfold is_digit, byte_in in E. go_bools. unfold digit_val.
  change (nat_of_ascii "0") with 48%nat in *. lia.
Qed.

Lemma unitMap_pos u unit : unitMap u = Some unit -> 0 < unit.
Proof. unfold unitMap. repeat (case_match; [intros [= <-]; done|]). done. Qed.

(** The fraction's share of a unit. *)
Lemma segment_value_bounds v f scale unit r :
  0 <= v -> 0 < unit -> 0 <= mant (f64_div (f64_of_Z unit) (f64_of_Z scale)) ->
  segment_value v f scale unit = Some r -> 0 <= r.
Proof.
  intros Hv Hu Hq. unfold segment_value. destruct (_ <? _); [done|].
  destruct (Z.ltb_spec 0 f) as [Hf|]; [|intros [= <-]; nia].
  destruct (_ <? _); [done|]. intros [= <-].
  pose proof (f64_trunc_nonneg (f64_mul (f64_of_Z f) (f64_div (f64_of_Z unit) (f64_of_Z scale)))).
  assert (0 <= mant (f64_of_Z f)) by (apply f64_round_nonneg; lia).
  pose proof (f64_mul_nonneg _ _ H0 Hq). nia.
Qed.

Lemma leadingFraction_scale s x scale o :
  0 < scale -> 0 < (leadingFraction s x scale o).1.2.
Proof.
  revert x scale o. induction s as [|c s IH]; intros x scale o Hs; simpl; [done|].
  destruct (is_digit c); [|done]. destruct o; [by apply IH|].
  destruct (_ <? _); [by apply IH|]. destruct (_ <? _); apply IH; lia.
Qed.

Lemma f64_round_pos n d : 0 < n -> 0 < d -> 0 < mant (f64_round n d).
Proof.
  intros Hn Hd. unfold f64_round. set (e := if _ <? _ then _ else _). simpl.
  assert (Hge : d * 2 ^ Z.max 0 e <= n * 2 ^ Z.max 0 (- e)).
  { subst e. set (e0 := Z.log2 n - Z.log2 d - 52).
    pose proof (Z.log2_spec n Hn) as [Hn1 Hn2]. pose proof (Z.log2_spec d Hd) as [Hd1 Hd2].
    pose proof (Z.log2_nonneg n). pose proof (Z.log2_nonneg d).
    (* either way the exponent is at most [log2 n - log2 d - 52] *)
    set (e := if _ <? _ then _ else _).
    assert (He : e <= Z.log2 n - Z.log2 d - 52) by (subst e; destruct (_ <? _); lia).
    assert (d <= 2 ^ Z.succ (Z.log2 d)) by lia.
    destruct (Z.le_gt_cases 0 e).
    - rewrite (Z.max_r 0 e), (Z.max_l 0 (- e)), Z.pow_0_r, Z.mul_1_r by lia.
      transitivity (2 ^ Z.succ (Z.log2 d) * 2 ^ e); [nia|].
      rewrite <-Z.pow_add_r by lia. etrans; [|exact Hn1]. apply Z.pow_le_mono_r; lia.
    - rewrite (Z.max_l 0 e), (Z.max_r 0 (- e)), Z.pow_0_r, Z.mul_1_r by lia.
      etrans; [exact (Z.lt_le_incl _ _ Hd2)|].
      transitivity (2 ^ Z.log2 n * 2 ^ (- e)).
      + rewrite <-Z.pow_add_r by lia. apply Z.pow_le_mono_r; lia.
      + apply Z.mul_le_mono_nonneg_r; [apply Z.pow_nonneg; lia|done]. }
  assert (Hdp : 0 < d * 2 ^ Z.max 0 e) by (apply Z.mul_pos_pos; [done|apply Z.pow_pos_nonneg; lia]).
  clearbody e. pose proof (Z.div_str_pos _ _ (conj Hdp Hge)). unfold round_even. cbv zeta.
  destruct (_ <? _); [lia|]. destruct (_ <? _); [lia|]. destruct (Z.even _); lia.
Qed.

Lemma f64_div_nonneg a b : 0 <= mant a -> 0 < mant b -> 0 <= mant (f64_div a b).
Proof.
  intros Ha Hb. unfold f64_div. apply f64_round_nonneg.
  - apply Z.mul_nonneg_nonneg; [done|]. apply Z.pow_nonneg; lia.
  - apply Z.mul_pos_pos; [done|]. apply Z.pow_pos_nonneg; lia.
Qed.

Lemma parse_segment_nonneg s v s' : parse_segment s = Some (v, s') -> 0 <= v.
Proof.
  unfold parse_segment. destruct (negb _); [done|].
  destruct (leadingInt s 0) as [[n s1]|] eqn:EI; [|done]. apply leadingInt_nonneg in EI; [|done].
  set (q := match s1 with String "." s1' => _ | _ => _ end).
  assert (Hq : 0 < q.1.1.2).
  { subst q. destruct s1 as [|x s1]; [done|].
    pose proof (leadingFraction_scale s1 0 1 false eq_refl) as Hf.
    destruct (leadingFraction s1 0 1 false) as [[f sc] s2]. simpl in *.
    destruct x as [[] [] [] [] [] [] [] []]; simpl; done. }
  destruct q as [[[f sc] s2] post]. simpl in *. destruct (negb _); [done|].
  destruct (_ =? _)%nat; [done|]. destruct (unitMap _) as [unit|] eqn:Eu; [|done].
  apply unitMap_pos in Eu. destruct (segment_value _ _ _ _) eqn:Es; [|done]. intros [= <- _].
  eapply segment_value_bounds; [exact EI|exact Eu| |exact Es].
  apply f64_div_nonneg; [apply f64_round_nonneg; lia|apply f64_round_pos; lia].
Qed.

Lemma parse_segments_nonneg fuel s d r : 0 <= d -> parse_segments fuel s d = Some r -> 0 <= r.
Proof.
  revert s d. induction fuel as [|fuel IH]; intros [|c s] d Hd; cbn [parse_segments];
    try done; try (by intros [= <-]).
  destruct (parse_segment _) as [[v s']|] eqn:E; [|done]. apply parse_segment_nonneg in E.
  destruct (_ <? _); [done|]. apply IH. lia.
Qed.

Lemma ParseDuration_bounds s d : ParseDuration s = Some d -> d < 2 ^ 63.
Proof.
  unfold ParseDuration. set (q := match s with String "-" s' => _ | String "+" s' => _ | _ => _ end).
  destruct q as [neg b]. destruct (_ ==s _); [intros [= <-]; done|]. destruct (_ ==s _); [done|].
  destruct (parse_segments _ _ _) as [r|] eqn:E; [|done].
  apply parse_segments_nonneg in E; [|done].
  destruct neg; [intros [= <-]; lia|]. destruct (Z.ltb_spec (2 ^ 63 - 1) r); [done|].
  intros [= <-]. lia.
Qed.

(** ** The parts of a document *)

Ltac ok_ret := apply okp_ret; intros ?; naive_solver.
(** One step: what the first method promises, then the rest under it. *)
Ltac ok_step H := eapply okpure_bind; [apply H|intros ?].

Lemma ok_mapping_entries what seen l :
  okpure (mapping_entries what seen l)
    (fun _ out => NoDup (map (fun e => n_Value (e_key e)) out) /\
       Forall (fun e => n_Value (e_key e) ∉ seen) out).
Proof.
  revert seen. induction l as [|e l IH]; intros seen; simpl.
  { apply okpure_ret. intros _. split; constructor. }
  case_bool_decide as Hin.
  - eapply okp_after_addf, IH.
  - ok_step IH. apply okp_ret. intros p [Hnd Hs]. split; [done|]. simpl. split.
    + constructor; [|done]. rewrite list_elem_of_fmap. intros (e' & Heq & He').
      rewrite Forall_forall in Hs. specialize (Hs _ He'). set_solver.
    + constructor; [done|]. eapply Forall_impl; [exact Hs|]. set_solver.
Qed.

Lemma ok_mapping n what :
  okpure (mapping n what) (fun _ r => exists l, r = Some l /\ NoDup (map (fun e => n_Value (e_key e)) l)).
Proof.
  unfold mapping. destruct (kind_is n AliasNode); [|destruct (negb _)].
  - apply okp_addf_ret.
  - apply okp_addf_ret.
  - ok_step ok_mapping_entries. apply okp_ret. naive_solver.
Qed.

Lemma ok_fields_of what allowed l out :
  okpure (fields_of what allowed l out) (fun _ _ => True).
Proof.
  revert out. induction l as [|e l IH]; intros out; simpl; [by apply okpure_ret|].
  destruct (negb _); [eapply okp_after_addf|]; apply IH.
Qed.

Lemma ok_fields n what allowed : okpure (fields n what allowed) (fun _ r => exists f, r = Some f).
Proof.
  unfold fields. ok_step ok_mapping. destruct a as [l|].
  - ok_step ok_fields_of. ok_ret.
  - ok_ret.
Qed.

Definition str_spec (required : bool) (r : option (string * Node)) : Prop :=
  (required = true -> is_Some r) /\ forall s v, r = Some (s, v) -> s = n_Value v.

Lemma ok_str f key what required parent :
  okpure (str f key what required parent) (fun _ r => str_spec required r).
Proof.
  unfold str, str_spec. destruct (negb (present f key)) eqn:Ep.
  - ok_step okpure_mwhen. apply okp_ret. intros p Hr. split; [done|]. split; [by rewrite Hr|done].
  - destruct (f !! key) as [e|] eqn:Ef; [|unfold present in Ep; by rewrite Ef in Ep].
    destruct (negb (kind_is _ _)).
    + apply okp_addf_ret.
    + apply okpure_ret. intros _. split; [eauto|]. naive_solver.
Qed.

Lemma known_ref_refs v :
  okpure (p_refs v) (fun p _ => match v with Some v => refs_defined (p_inputs p) (n_Value v) | None => True end).
Proof.
  destruct v as [v|]; simpl; [|by apply okpure_skip].
  eapply okpure_weaken with (P := fun p _ => Forall (fun m => known_ref (p_inputs p) (rm_name m) = true) (findAllRefs (n_Value v)));
    [|done].
  apply (okpure_mfor _ _ (fun p m => known_ref (p_inputs p) (rm_name m) = true)). intros m.
  ok_step @okpure_mget. destruct (known_ref a (rm_name m)) eqn:E.
  - apply okp_ret. naive_solver.
  - destruct (hasPrefix _ _); apply okp_addf_False.
Qed.

Definition raw_quoted (p : parser) (name : string) : bool := negb (default false (p_raw p !! name)).

Lemma ok_shellRefs v :
  okpure (p_shellRefs v) (fun p _ =>
    match v with Some v => shell_places_ok (p_inputs p) (raw_quoted p) (n_Value v) | None => True end).
Proof.
  destruct v as [v|]; simpl; [|by apply okpure_skip].
  ok_step @okpure_mget. ok_step @okpure_mget.
  eapply okp_weaken;
    [apply (okpure_mfor _ _ (fun _ rv => rv.2 = placeWord))|].
  - intros [r vd]. destruct vd; first [apply okp_addf_False | by apply okp_ret].
  - intros p _ p' [-> HF] -> ->. split; [done|].
    destruct (shellPlaces_total (n_Value v) (raw_quoted p) (known_ref (p_inputs p))) as [l Hl].
    exists l. split; [done|]. unfold raw_quoted in *. rewrite Hl in HF. exact HF.
Qed.

Lemma text_of_refs inputs required r :
  str_spec required r ->
  match node_of r with Some v => refs_defined inputs (n_Value v) | None => True end ->
  refs_defined inputs (text_of r).
Proof.
  intros [_ Hs]. destruct r as [[s v]|]; simpl; [by rewrite (Hs s v)|]. intros _. constructor.
Qed.

Lemma text_of_shell inputs q required r :
  str_spec required r ->
  match node_of r with Some v => shell_places_ok inputs q (n_Value v) | None => True end ->
  shell_places_ok inputs q (text_of r).
Proof.
  intros [_ Hs]. destruct r as [[s v]|]; simpl; [by rewrite (Hs s v)|].
  intros _. exists []. split; [|constructor]. reflexivity.
Qed.
#[local] Hint Resolve text_of_refs text_of_shell : core.

Section WithLib.
Context {Y : YamlLib}.

Lemma ok_boolean f key what def : okpure (p_boolean f key what def) (fun _ _ => True).
Proof.
  unfold p_boolean. destruct (negb (present f key)); [by apply okpure_ret|].
  destruct (f !! key) as [e|]; [|by apply okpure_ret].
  destruct (if kind_is _ _ then _ else _); [by apply okpure_ret|apply okp_addf_ret].
Qed.

Lemma ok_duration f key what def :
  duration_ok def -> okpure (p_duration f key what def) (fun _ d => duration_ok d).
Proof.
  intros Hd. unfold p_duration. destruct (negb (present f key)); [by apply okpure_ret|].
  destruct (f !! key) as [e|]; [|by apply okpure_ret]. cbv zeta.
  destruct (ParseDuration _) as [d|] eqn:E; [|apply okp_addf_ret].
  destruct (kind_is _ _ && (0 <? d)) eqn:Ek; [|apply okp_addf_ret].
  apply okpure_ret. intros _. go_bools. apply ParseDuration_bounds in E. done.
Qed.

Lemma ok_list n what :
  okpure (p_list n what) (fun _ r => exists l, r.1 = Some l).
Proof.
  unfold p_list. destruct (negb _); [apply okp_addf_ret|]. cbv zeta.
  eapply okpure_bind; [apply (okpure_mfor _ _ (fun _ _ => True))|intros ?].
  - intros it. eapply okp_weaken; [apply okpure_mwhen|]. naive_solver.
  - apply okp_ret. intros p _. split; [done|]. by eexists.
Qed.

Lemma ok_packageNames items :
  okpure (p_packageNames items) (fun p _ => Forall (package_name_ok (p_inputs p)) (map n_Value items)).
Proof.
  eapply okpure_weaken with (P := fun p _ => Forall (fun it => package_name_ok (p_inputs p) (n_Value it)) items).
  - apply (okpure_mfor _ _ (fun p it => package_name_ok (p_inputs p) (n_Value it))). intros it.
    unfold package_name_ok. destruct (hasRef (n_Value it)).
    + apply known_ref_refs.
    + eapply okp_weaken; [apply okpure_mwhen|]. intros p a p' [-> H%negb_false_iff]. done.
  - intros p _. by rewrite Forall_map.
Qed.

(** A list of packages that is given names one at least. *)
Lemma package_list_some inputs l :
  (length l =? 0)%nat = false -> Forall (package_name_ok inputs) (map n_Value l) ->
  package_list_ok inputs (Some (map n_Value l)).
Proof. intros Hl HF. split; [|done]. by destruct l. Qed.

Lemma present_lookup f key : present f key = true -> exists e, f !! key = Some e /\ isNull (e_val e) = false.
Proof.
  unfold present. destruct (f !! key) as [e|]; [|done]. intros H%negb_true_iff. eauto.
Qed.

Lemma ok_upgrade f what :
  okpure (p_upgrade f what) (fun p r =>
    (r.1 = true -> r.2 = None) /\ package_list_ok (p_inputs p) r.2 /\
    present f "upgrade" = r.1 || bool_decide (is_Some r.2)).
Proof.
  unfold p_upgrade. destruct (present f "upgrade") eqn:Ep; [|by apply okpure_ret].
  apply present_lookup in Ep as (e & -> & _). destruct (kind_is _ _ && _).
  { apply okpure_ret. done. }
  destruct (kind_is _ SequenceNode); [|apply okp_addf_ret].
  ok_step ok_list. ok_step okpure_mwhen. ok_step ok_packageNames.
  apply okp_ret. intros p HF Hl [l Ha]. rewrite Ha in *. simpl in *.
  split; [done|]. split; [done|]. split; [by apply package_list_some|].
  done.
Qed.

Lemma ok_change f what key :
  okpure (p_change f what key) (fun p r =>
    package_list_ok (p_inputs p) r /\ present f key = bool_decide (is_Some r)).
Proof.
  unfold p_change. destruct (present f key) eqn:Ep; [|by apply okpure_ret].
  apply present_lookup in Ep as (e & -> & _).
  ok_step ok_list. ok_step okpure_mwhen. ok_step ok_packageNames.
  apply okp_ret. intros p HF Hl [l Ha]. rewrite Ha in *. simpl in *.
  split; [done|]. split; [by apply package_list_some|]. done.
Qed.

(** How many of the three changes are given. *)
Lemma package_actions_length f :
  length (package_actions f) =
    ((if present f "upgrade" then 1 else 0) + (if present f "install" then 1 else 0) +
     (if present f "remove" then 1 else 0))%nat.
Proof.
  unfold package_actions. rewrite !filter_cons, filter_nil.
  by destruct (present f "upgrade"), (present f "install"), (present f "remove").
Qed.

(** The check on how many: none reported means at most one, and [update] when
    there is none. *)
Lemma ok_actions f update n l1 l2 l3 :
  okpure
    (match package_actions f with
     | a0 :: a1 :: _ => addf (l1 a1) (l2 a0 a1)
     | [] => mwhen (negb update) (addf (n_Line n) l3)
     | _ => skip
     end)
    (fun _ _ => (length (package_actions f) <= 1)%nat /\
       (length (package_actions f) = 0%nat -> update = true)).
Proof.
  destruct (package_actions f) as [|a0 [|a1 l]].
  - eapply okp_weaken; [apply okpure_mwhen|]. intros p a p' [-> H%negb_false_iff]. simpl. auto with lia.
  - apply okpure_skip. simpl. split; [lia|done].
  - apply okp_addf_False.
Qed.

Lemma ok_packages n what :
  okpure (p_packages n what) (fun p r => exists s, r = Some s /\ packages_ok (p_inputs p) s).
Proof.
  unfold p_packages. ok_step ok_fields. destruct a as [f|]; [|ok_ret].
  ok_step ok_boolean. ok_step ok_upgrade. ok_step ok_change. ok_step ok_change.
  eapply okpure_bind; [apply (ok_actions f a n _ (fun a0 a1 => Sprintf _ [FStr a0; FStr a1]))|intros ?].
  apply okp_ret. intros p [Hlen Hup] [Hrm Erm] [Hin Ein] (Hall & Hug & Eug) _ _.
  split; [done|]. eexists; split; [done|].
  rewrite package_actions_length, Erm, Ein, Eug in *.
  unfold packages_ok, package_changes. simpl. split_and!; auto.
Qed.

Lemma ok_service n what :
  okpure (p_service n what) (fun p r => exists s, r = Some s /\ service_ok (p_inputs p) s).
Proof.
  unfold p_service. ok_step ok_fields. destruct a as [f|]; [|ok_ret].
  ok_step ok_str. ok_step known_ref_refs. ok_step ok_str.
  eapply okpure_bind with (P := fun _ _ => match a1 with Some (a, _) => a ∈ serviceActions | None => True end).
  - destruct a1 as [[s v]|]; [|by apply okpure_skip].
    eapply okp_weaken; [apply okpure_mwhen|]. intros p ? p' [-> H%negb_false_iff].
    split; [done|]. by apply slices_contains_spec.
  - intros ?. apply okp_ret. intros p Hact [Hreq _] Hrefs Hstr _. split; [done|].
    eexists; split; [done|]. split; [by eapply text_of_refs|].
    destruct (Hreq eq_refl) as [[s v] ->]. done.
Qed.

Lemma ok_command n what :
  okpure (p_command n what) (fun p r => exists s, r = Some s /\ command_ok (p_inputs p) (raw_quoted p) s).
Proof.
  unfold p_command. ok_step ok_fields. destruct a as [f|]; [|ok_ret].
  ok_step (ok_str f "run"). ok_step (ok_str f "script").
  eapply okpure_bind with (P := fun _ _ => (text_of a = "" \/ text_of a0 = "") /\
    trimSpace (text_of a +:+ text_of a0) <> ""%string).
  - destruct a as [[r rv]|], a0 as [[s sv]|]; try apply okp_addf_False;
      (eapply okp_weaken; [apply okpure_mwhen|]; intros p ? p' [-> H%String.eqb_neq]; auto).
  - intros ?. ok_step known_ref_refs. ok_step known_ref_refs. ok_step ok_shellRefs. ok_step ok_shellRefs.
    ok_step ok_duration; [done|]. apply okp_ret.
    intros p Hd Hs2 Hs1 Hr2 Hr1 [Hor Hne] Hstr2 Hstr1 _. split; [done|].
    eexists; split; [done|]. unfold command_ok. simpl. split_and!; eauto; apply Hd.
Qed.

Lemma ok_file n what :
  okpure (p_file n what) (fun p r => exists s, r = Some s /\ file_ok (p_inputs p) s).
Proof.
  unfold p_file. ok_step ok_fields. destruct a as [f|]; [|ok_ret].
  ok_step (ok_str f "path").
  eapply okpure_bind with (P := fun p _ => match a with
    | Some (s, v) => (hasRef s = true \/ isAbs s = true) /\ refs_defined (p_inputs p) (n_Value v)
    | None => True end).
  { destruct a as [[s v]|]; [|by apply okpure_skip]. ok_step okpure_mwhen.
    eapply okp_weaken; [apply known_ref_refs|]. intros p ? p' [-> Hr] Hb.
    split; [done|]. split; [|done]. apply andb_false_iff in Hb as [?|?]; go_bools; auto. }
  intros ?. ok_step (ok_str f "content"). ok_step known_ref_refs. ok_step (ok_str f "mode").
  eapply okpure_bind with (P := fun _ _ => text_of a3 = "" \/ checkFileMode (text_of a3) = None).
  { destruct a3 as [[s v]|]; [|apply okpure_skip; auto]. simpl.
    destruct (checkFileMode s); [apply okp_addf_False|apply okpure_skip; auto]. }
  intros ?. ok_step (ok_str f "owner"). ok_step known_ref_refs. apply okp_ret.
  intros p Ho Hos Hmode Hms Hc Hcs Hpath [Hreq Heq] _. split; [done|].
  eexists; split; [done|]. destruct (Hreq eq_refl) as [[s v] ->]. destruct Hpath as [Habs Hpr].
  unfold file_ok. simpl. split_and!; eauto. by rewrite (Heq s v).
Qed.

Lemma ok_stack n what :
  okpure (p_stack n what) (fun p r => exists s, r = Some s /\ stack_ok (p_inputs p) s).
Proof.
  unfold p_stack. ok_step ok_fields. destruct a as [f|]; [|ok_ret].
  ok_step (ok_str f "name"). ok_step known_ref_refs. ok_step (ok_str f "compose").
  ok_step known_ref_refs. ok_step ok_boolean. apply okp_ret. intros p _ Hc Hcs Hn Hns _.
  split; [done|]. eexists; split; [done|]. split; simpl; eauto.
Qed.

Lemma ok_reboot n what :
  okpure (p_reboot n what) (fun p r => exists s, r = Some s /\ reboot_ok s).
Proof.
  unfold p_reboot. ok_step ok_fields. destruct a as [f|]; [|ok_ret].
  ok_step ok_boolean. ok_step ok_duration; [done|]. apply okp_ret. intros p Hd _ _.
  split; [done|]. by eexists.
Qed.

Lemma ok_step_keys what l common kind :
  okpure (step_keys what l common kind) (fun _ r =>
    (forall e, r.2 = Some e -> kind = Some e \/ n_Value (e_key e) ∈ stepKinds) /\
    (forall k, is_Some (common !! k) -> is_Some (r.1 !! k)) /\
    (r.2 = None -> kind = None /\ Forall (fun e => is_Some (r.1 !! n_Value (e_key e))) l)).
Proof.
  revert common kind. induction l as [|e l IH]; intros common kind; cbn [step_keys].
  { apply okpure_ret. simpl. intros _. split_and!; auto. }
  destruct (is_common _).
  - eapply okpure_weaken; [apply IH|]. simpl. intros _ r (He & Hk & Hn). split_and!; [done| |].
    + intros k Hs. apply Hk, lookup_insert_is_Some. destruct (decide (n_Value (e_key e) = k)); auto.
    + intros Hr. destruct (Hn Hr). split; [done|]. constructor; [|done]. apply Hk.
      exists e. apply lookup_insert_eq.
  - destruct (slices_contains stepKinds (n_Value (e_key e))) eqn:Ek.
    + destruct kind as [e0|].
      * eapply okp_after_addf; apply IH.
      * eapply okpure_weaken; [apply IH|]. simpl. intros _ r (He & Hk & Hn). split_and!; [|done|].
        -- intros e' He'. destruct (He _ He') as [[= ->]|]; [|auto]. right. by apply slices_contains_spec.
        -- intros Hr. by destruct (Hn Hr).
    + destruct (kind_is _ _); eapply okp_after_addf; apply IH.
Qed.

Lemma ok_step_body name coe kind body :
  okpure (step_body name coe kind body) (fun p s =>
    kind ∈ stepKinds -> step_ok (p_inputs p) (raw_quoted p) s).
Proof.
  unfold step_body. cbv zeta.
  destruct (String.eqb_spec kind StepPackages) as [->|?].
  { ok_step ok_packages. apply okp_ret. intros p (s & -> & Hs). split; [done|]. by constructor. }
  destruct (String.eqb_spec kind StepService) as [->|?].
  { ok_step ok_service. apply okp_ret. intros p (s & -> & Hs). split; [done|]. by constructor. }
  destruct (String.eqb_spec kind StepCommand) as [->|?].
  { ok_step ok_command. apply okp_ret. intros p (s & -> & Hs). split; [done|]. by constructor. }
  destruct (String.eqb_spec kind StepFile) as [->|?].
  { ok_step ok_file. apply okp_ret. intros p (s & -> & Hs). split; [done|]. by constructor. }
  destruct (String.eqb_spec kind StepStack) as [->|?].
  { ok_step ok_stack. apply okp_ret. intros p (s & -> & Hs). split; [done|]. by constructor. }
  destruct (String.eqb_spec kind StepReboot) as [->|?].
  { ok_step ok_reboot. apply okp_ret. intros p (s & -> & Hs). split; [done|]. by constructor. }
  apply okpure_ret. unfold stepKinds. set_solver.
Qed.

Lemma ok_p_step n index :
  okpure (p_step n index) (fun p r => exists s, r = Some s /\ step_ok (p_inputs p) (raw_quoted p) s).
Proof.
  unfold p_step. cbv zeta. ok_step ok_mapping. destruct a as [l|]; [|ok_ret].
  ok_step ok_step_keys. destruct a as [common kind]. ok_step ok_str. ok_step ok_boolean.
  destruct kind as [e|].
  - ok_step ok_step_body. apply okp_ret. intros p Hs _ _ (Hk & _) _. split; [done|].
    eexists; split; [done|]. apply Hs. by destruct (Hk e eq_refl).
  - ok_step okpure_mwhen. apply okp_ret. intros p Hrep _ _ (_ & _ & Hn) (l' & [= <-] & _). exfalso.
    destruct (Hn eq_refl) as [_ HF]. apply negb_false_iff, existsb_exists in Hrep as (e & He & Hb).
    apply negb_true_iff, bool_decide_eq_false in Hb. rewrite Forall_forall in HF.
    apply Hb, HF. by apply list_elem_of_In.
Qed.

Lemma ok_steps l index :
  okpure (p_steps l index) (fun p out =>
    length out = length l /\ Forall (step_ok (p_inputs p) (raw_quoted p)) out).
Proof.
  revert index. induction l as [|n l IH]; intros index; simpl; [by apply okpure_ret|].
  ok_step ok_p_step. ok_step IH. apply okp_ret. intros p [Hlen HF] (s & -> & Hs).
  split; [done|]. simpl. auto.
Qed.

Lemma ok_stepList f doc :
  okpure (p_stepList f doc) (fun p out =>
    (1 <= length out <= MaxSteps)%nat /\ Forall (step_ok (p_inputs p) (raw_quoted p)) out).
Proof.
  unfold p_stepList. destruct (if present f "steps" then _ else _) as [e|]; [|apply okp_addf_ret].
  cbv zeta. destruct (negb _); [apply okp_addf_ret|].
  ok_step okpure_mwhen. ok_step okpure_mwhen. eapply okp_weaken; [apply ok_steps|].
  intros p out p' [-> [Hlen HF]] Hmax Hmin. go_bools. split; [done|]. split; [lia|done].
Qed.

(** ** The head of the document *)

Lemma ok_target_list f key : okpure (target_list f key) (fun _ _ => True).
Proof.
  unfold target_list. destruct (negb _); [by apply okpure_ret|].
  destruct (f !! key); [|by apply okpure_ret]. ok_step ok_list. ok_ret.
Qed.

Lemma ok_targets n : okpure (p_targets n) (fun _ t => targets_ok t).
Proof.
  unfold p_targets. ok_step ok_fields. destruct a as [f|]; [|ok_ret].
  ok_step ok_target_list. ok_step ok_target_list.
  eapply okpure_bind with (P := fun _ r => match r with Some l => Forall (fun k => k ∈ nodeKinds) l | None => True end).
  - destruct (negb _); [by apply okpure_ret|]. destruct (f !! "kinds"); [|by apply okpure_ret].
    ok_step ok_list. eapply okpure_bind;
      [apply (okpure_mfor _ _ (fun _ it => n_Value it ∈ nodeKinds))|intros ?].
    + intros it. eapply okp_weaken; [apply okpure_mwhen|]. intros p ? p' [-> H%negb_false_iff].
      split; [done|]. by apply slices_contains_spec.
    + apply okp_ret. intros p HF [l Hl]. rewrite Hl in *. split; [done|]. by apply Forall_map.
  - intros kinds. apply okp_ret. intros p Hk _ _ _. by split.
Qed.

Lemma ok_batch (f : fieldmap) `{!YamlScalars Y} : okpure (p_batch f) (fun _ z => 1 <= z < 2 ^ 63).
Proof.
  unfold p_batch. destruct (if present f "batch" then _ else _) as [e|]; [|by apply okpure_ret].
  cbv zeta. destruct (if kind_is _ _ then _ else _) as [z|] eqn:Ez; [|apply okp_addf_ret].
  destruct (Z.ltb_spec z 1); [apply okp_addf_ret|]. apply okpure_ret. intros _. split; [done|].
  revert Ez. destruct (kind_is _ _); [|done]. intros Ez. by apply decode_int_range in Ez as [_ ?].
Qed.

Definition raw_of (p : parser) (name : string) : bool := default false (p_raw p !! name).

Lemma is_raw_cons i l n : is_raw (i :: l) n = ((in_Name i ==s n) && in_Raw i) || is_raw l n.
Proof. done. Qed.

(** The inputs are defined in the order they are read; a name is raw when its
    input says so. *)
Definition inputs_read (l : list entry) (p : parser) (out : list Input) (p' : parser) : Prop :=
  NoDup (map (fun e => n_Value (e_key e)) l) ->
  (forall e, e ∈ l -> p_raw p !! n_Value (e_key e) = None) ->
  Forall input_ok out /\ map in_Name out = map (fun e => n_Value (e_key e)) l /\
  p_inputs p' = input_names out ∪ p_inputs p /\
  (forall n, raw_of p' n = is_raw out n || raw_of p n).

Lemma okp_define_input name :
  okp (define_input name) (fun p _ p' => p' = mkParser (p_problems p) ({[name]} ∪ p_inputs p) (p_raw p)).
Proof. intros p ? p' [= _ <-] ?. done. Qed.

Lemma okp_define_raw name b :
  okp (define_raw name b) (fun p _ p' => p' = mkParser (p_problems p) (p_inputs p) (<[name := b]> (p_raw p))).
Proof. intros p ? p' [= _ <-] ?. done. Qed.

(** An input read, and the rest of the list after it. *)
Lemma inputs_read_cons e l p i out p1 p2 :
  in_Name i = n_Value (e_key e) -> input_ok i ->
  p_inputs p1 = {[in_Name i]} ∪ p_inputs p ->
  (forall n, p_raw p1 !! n = p_raw p !! n \/ (n = in_Name i /\ p_raw p1 !! n = Some (in_Raw i))) ->
  (in_Raw i = true -> p_raw p1 !! in_Name i = Some true) ->
  inputs_read l p1 out p2 -> inputs_read (e :: l) p (i :: out) p2.
Proof.
  intros Hname Hok Hin Hraw Hraw' Hrest Hnd Hnone. inversion Hnd as [|? ? Hnotin Hnd']; subst.
  destruct Hrest as (HF & Hmap & Hins & Hr); [done| |].
  { intros e' He'. destruct (Hraw (n_Value (e_key e'))) as [->|[Heq _]]; [by apply Hnone; right|].
    destruct Hnotin. rewrite <-Hname, <-Heq. apply list_elem_of_fmap. eauto. }
  split_and!.
  - by constructor.
  - simpl. by rewrite Hname, Hmap.
  - rewrite Hins, Hin. unfold input_names. simpl. set_solver.
  - intros n. rewrite Hr, is_raw_cons. unfold raw_of.
    destruct (String.eqb_spec (in_Name i) n) as [<-|Hne]; simpl.
    + rewrite Hname, (Hnone e) by left. simpl. rewrite orb_false_r.
      destruct (in_Raw i) eqn:E; simpl.
      * rewrite <-Hname, (Hraw' eq_refl). simpl. by rewrite orb_true_r.
      * destruct (Hraw (in_Name i)) as [H|[_ H]]; rewrite <-Hname, H; simpl;
          [rewrite Hname, (Hnone e) by left|]; by rewrite ?orb_false_r.
    + by destruct (Hraw n) as [->|[? _]].
Qed.

Lemma ok_inputList_entries l : okp (inputList_entries l) (inputs_read l).
Proof.
  induction l as [|e l IH]; cbn [inputList_entries].
  { apply okp_ret. intros p _ _. split_and!; [done|done|set_solver|done]. }
  cbv zeta. destruct (negb (matchString _ _)) eqn:Em; [eapply okp_after_addf; apply IH|].
  destruct (String.eqb_spec (n_Value (e_key e)) "node") as [En|En]; [eapply okp_after_addf; apply IH|].
  apply negb_false_iff in Em.
  destruct (isNull (e_val e)).
  - eapply okp_weaken.
    { apply okp_bind; [apply okp_define_input|intros ?]. apply okp_bind; [apply IH|intros out].
      apply okp_ret with (Q := fun p r p' => p' = p /\ r = mkInput (n_Value (e_key e)) "" "" false false :: out). done. }
    intros p r p' (? & p1 & -> & out & p2 & Hrest & -> & ->).
    eapply inputs_read_cons; [..|exact Hrest]; try done. by left.
  - eapply okp_weaken.
    { apply okp_bind; [apply okp_define_input|intros ?].
      apply okp_bind with (R := fun (f : option fieldmap) p r p' => f <> None ->
        exists label def required raw out p1,
        r = mkInput (n_Value (e_key e)) label def required raw :: out /\
        p1 = mkParser (p_problems p) (p_inputs p) (<[n_Value (e_key e) := raw]> (p_raw p)) /\
        inputs_read l p1 out p'); [apply ok_fields|intros [f|]].
      - ok_step ok_str. ok_step ok_str. ok_step ok_boolean. ok_step ok_boolean.
        eapply okp_weaken.
        { apply okp_bind; [apply okp_define_raw|intros ?]. apply okp_bind; [apply IH|intros out].
          apply okp_ret with (Q := fun p r p' => p' = p /\ r = mkInput (n_Value (e_key e)) (text_of a0) (text_of a1) a2 a3 :: out). done. }
        intros p r p' (? & p1 & -> & out & p2 & Hrest & -> & ->) _ _ _ _ _. do 6 eexists. split_and!; [done..|exact Hrest].
      - eapply okp_weaken; [apply IH|]. done. }
    intros p r p' (? & p1 & -> & f & p2 & [-> [f' ->]] & Hr).
    destruct Hr as (label & def & required & raw & out & p3 & -> & -> & Hrest); [done|].
    eapply inputs_read_cons; [..|exact Hrest]; try done; simpl.
    + intros n. destruct (decide (n = n_Value (e_key e))) as [->|Hn].
      * right. by rewrite lookup_insert_eq.
      * left. by rewrite lookup_insert_ne.
    + intros ->. by rewrite lookup_insert_eq.
Qed.

(** Reading the inputs of a parser that has none yet. *)
Lemma ok_inputList n :
  okp (p_inputList n) (fun p l p' => p_inputs p = ∅ -> p_raw p = ∅ ->
    Forall input_ok l /\ NoDup (map in_Name l) /\ p_inputs p' = input_names l /\
    forall m, raw_of p' m = is_raw l m).
Proof.
  unfold p_inputList. ok_step ok_mapping. destruct a as [l|]; [|ok_ret].
  eapply okp_weaken; [apply ok_inputList_entries|].
  intros p out p' Hr (l' & [= <-] & Hnd) Hi Hraw.
  destruct Hr as (HF & Hmap & Hins & Hrw); [done|intros e _; by rewrite Hraw, lookup_empty|].
  split_and!; [done|by rewrite Hmap| |].
  - rewrite Hins, Hi. set_solver.
  - intros m. rewrite Hrw. unfold raw_of. rewrite Hraw, lookup_empty. simpl. by rewrite orb_false_r.
Qed.

Lemma step_ok_ext inputs q1 q2 s :
  (forall n, q1 n = q2 n) -> step_ok inputs q1 s -> step_ok inputs q2 s.
Proof.
  intros Hq. destruct 1 as [| |? ? c Hc| | |]; constructor; try done.
  destruct Hc as (? & ? & ? & ? & (l1 & E1 & ?) & (l2 & E2 & ?) & ?). unfold command_ok.
  rewrite (shellPlaces_ext _ q1 q2 _ _ Hq (fun _ => eq_refl)) in E1.
  rewrite (shellPlaces_ext _ q1 q2 _ _ Hq (fun _ => eq_refl)) in E2.
  split_and!; try done; eexists; eauto.
Qed.

Context `{!YamlScalars Y}.

Lemma ok_task root :
  okp (p_task root) (fun p r _ => p_inputs p = ∅ -> p_raw p = ∅ -> exists t, r = Some t /\ task_ok t).
Proof.
  unfold p_task. cbv zeta. ok_step ok_fields. destruct a as [f|]; [|ok_ret].
  ok_step (ok_str f "name"). rename a into name.
  eapply okpure_bind with (P := fun _ _ => match name with Some (s, _) => trimSpace s <> ""%string | None => True end).
  { destruct name as [[s v]|]; [|by apply okpure_skip].
    eapply okp_weaken; [apply okpure_mwhen|]. intros p ? p' [-> H%String.eqb_neq]. done. }
  intros ?. ok_step (ok_str f "description"). rename a0 into desc.
  eapply okp_weaken.
  { apply okp_bind with (Q := fun p l p' => p_inputs p = ∅ -> p_raw p = ∅ ->
      Forall input_ok l /\ NoDup (map in_Name l) /\ p_inputs p' = input_names l /\
      forall m, raw_of p' m = is_raw l m)
      (R := fun inputs p r p' => exists t, r = Some t /\ targets_ok (tk_Targets t) /\
        1 <= tk_Batch t < 2 ^ 63 /\ (1 <= length (tk_Steps t) <= MaxSteps)%nat /\
        Forall (step_ok (p_inputs p) (raw_quoted p)) (tk_Steps t) /\
        tk_Name t = text_of name /\ tk_Inputs t = inputs).
    - destruct (if present f "inputs" then _ else _); [apply ok_inputList|].
      apply okp_ret. intros p Hi Hr. split; [constructor|]. split; [constructor|]. split; [done|].
      intros m. unfold raw_of. by rewrite Hr, lookup_empty.
    - intros inputs. eapply okpure_bind with (P := fun _ t => targets_ok t).
      { destruct (if present f "targets" then _ else _); [apply ok_targets|by apply okpure_ret]. }
      intros targets. ok_step (ok_batch f). ok_step ok_boolean. ok_step ok_stepList. apply okp_ret.
      intros p [Hlen HF] _ Hb Ht. eexists; split; [done|]. simpl. do 5 (split; [done|]). done. }
  intros p r p' (inputs & p1 & Hin & t & -> & Htg & Hb & Hlen & HF & Hname & Hinp) _ Hblank [Hreq _] _ Hi Hr.
  destruct (Hin Hi Hr) as (Hiok & Hnd & Hins & Hraw). exists t. split; [done|].
  destruct (Hreq eq_refl) as [[s v] ->]. simpl in *.
  constructor; rewrite ?Hname, ?Hinp; [done|done|done|done|done|done|].
  eapply Forall_impl; [exact HF|]. intros st Hst. rewrite <-Hins.
  eapply step_ok_ext; [|exact Hst]. intros n. unfold raw_quoted. by rewrite <-Hraw.
Qed.


(** C7: the task [Parse] returns is well formed: its name is not blank, its
    inputs have distinct valid names, it has 1 to [MaxSteps] steps of the
    right shape, every reference is defined, and every quoted reference of a
    command stands where the shell reads a word. *)
Theorem Parse_well_formed doc t ps : Parse doc = (Some t, ps) -> ps = [] /\ task_ok t.
Proof.
  unfold Parse. destruct (_ <? _)%nat; [done|]. destruct (yaml_decode_first doc) as [root| |]; [|done|done].
  destruct (yaml_decode_second doc); [done| |done]. unfold parse_tree.
  destruct (p_task root new_parser) as [r p] eqn:E. destruct (p_problems p) eqn:Ep; [|done].
  intros [= -> <-]. split; [done|].
  destruct (ok_task root _ _ _ E Ep) as [_ Ht]. destruct Ht as (t' & [= <-] & Ht); done.
Qed.

(** ** The list of problems *)

Lemma insert_problem_perm x l : insert_problem x l ≡ₚ x :: l.
Proof.
  induction l as [|y l IH]; [done|]. simpl. destruct (_ <=? _); [done|]. rewrite IH. by constructor.
Qed.

Lemma insert_problem_sorted x l :
  StronglySorted Z.le (map pr_Line l) -> StronglySorted Z.le (map pr_Line (insert_problem x l)).
Proof.
  induction l as [|y l IH]; simpl; intros Hs; [by repeat constructor|].
  inversion Hs as [|? ? Hs' HF]; subst.
  destruct (Z.leb_spec (pr_Line x) (pr_Line y)).
  - constructor; [done|]. constructor; [done|]. eapply Forall_impl; [exact HF|]. lia.
  - simpl. constructor; [by apply IH|]. apply Forall_map. rewrite insert_problem_perm. constructor; [lia|].
    by rewrite Forall_map in HF.
Qed.

Lemma insert_problem_line x l n :
  filter (fun p => pr_Line p = n) (insert_problem x l) = filter (fun p => pr_Line p = n) (x :: l).
Proof.
  induction l as [|y l IH]; [done|]. simpl. destruct (Z.leb_spec (pr_Line x) (pr_Line y)); [done|].
  rewrite filter_cons, IH, !filter_cons.
  destruct (decide (pr_Line y = n)), (decide (pr_Line x = n)); try done; lia.
Qed.

(** A stable sort: in the order of lines, each line's problems as found. *)
Definition stably_sorted (found shown : list Problem) : Prop :=
  shown ≡ₚ found /\ StronglySorted Z.le (map pr_Line shown) /\
  forall n, filter (fun p => pr_Line p = n) shown = filter (fun p => pr_Line p = n) found.

Lemma sort_problems_stable l : stably_sorted l (sort_problems l).
Proof.
  unfold stably_sorted. induction l as [|x l (Hp & Hs & Hf)]; [split_and!; [done|constructor|done]|]. cbn [sort_problems foldr].
  split_and!.
  - rewrite insert_problem_perm. by constructor.
  - by apply insert_problem_sorted.
  - intros n. rewrite insert_problem_line, !filter_cons. by rewrite Hf.
Qed.

Lemma parse_tree_answer root t ps :
  parse_tree root = (t, ps) -> (ps = [] /\ exists t', t = Some t' /\ task_ok t') \/ (ps <> [] /\ t = None).
Proof.
  unfold parse_tree. destruct (p_task root new_parser) as [r p] eqn:E.
  destruct (p_problems p) as [|x l] eqn:Ep.
  - destruct (ok_task root _ _ _ E Ep) as [_ Ht]. destruct Ht as (t' & -> & Ht'); [done..|].
    intros [= <- <-]. left. eauto.
  - intros [= <- <-]. right. split; [|done].
    pose proof (sort_problems_stable (x :: l)) as (Hp & _). intros Hnil. change (sort_problems (x :: l) = []) in Hnil. rewrite Hnil in Hp.
    by apply Permutation_nil in Hp.
Qed.

(** What [Parse] answers is a task or problems, never both and never
    neither. *)
Theorem Parse_task_or_problems doc t ps : Parse doc = (t, ps) -> t = None <-> ps <> [].
Proof.
  unfold Parse. destruct (_ <? _)%nat; [by intros [= <- <-]|].
  destruct (yaml_decode_first doc) as [root| |]; [|by intros [= <- <-]..].
  destruct (yaml_decode_second doc); [by intros [= <- <-]| |by intros [= <- <-]].
  intros [[-> (t' & -> & _)]|[Hne ->]]%parse_tree_answer; split; done.
Qed.

(** The problems of a document that decodes are those found, all of them,
    in the order of their lines, those of one line in the order found. *)
Theorem parse_tree_problems root p r ps t :
  p_task root new_parser = (r, p) -> parse_tree root = (t, ps) -> stably_sorted (p_problems p) ps.
Proof.
  unfold parse_tree. intros ->. destruct (p_problems p) as [|x l]; intros [= <- <-]; [apply (sort_problems_stable [])|].
  apply sort_problems_stable.
Qed.
End WithLib.

(** A mode of one or two digits passes, for all its message says of three or
    four. *)
Lemma checkFileMode_short : checkFileMode "7" = None /\ checkFileMode "44" = None.
Proof. by vm_compute. Qed.
