(* ===== verification/TaskRoundtrip.v ===== *)
(** * A formatted task reads back as itself

    The parser run on the tree [format_tree] builds reports nothing and gives
    the task again. *)

From S2P Require Import Prelude GoStrings GoRegexp GoTime TaskModel TaskRefs ShellPlaces.
From S2P Require Import ShellFacts TaskYaml TaskParse TaskFormat TaskWf TaskParseFacts.

#[local] Open Scope parse_scope.

(** ** Durations *)

Lemma trim_zero_unit c z s d :
  is_digit c = false -> Ascii.eqb c "." = false -> starts_number (String c "") = false ->
  unit_len z = 0%nat -> z <> "" -> parse_segment z = Some (0, "") ->
  starts_number s = true -> ParseDuration s = Some d ->
  hasSuffix s (String c z) = true ->
  ParseDuration (trimSuffix s z) = Some d /\ starts_number (trimSuffix s z) = true.
Proof.
  intros Hc Hdot Hcs Hz Hne Hzero Hs Hd [t ->]%hasSuffix_split.
  assert (starts_number t = true) as Ht.
  { destruct t as [|x t]; [|done]. simpl in Hs, Hcs. by rewrite Hs in Hcs. }
  replace (t +:+ String c z) with ((t +:+ String c "") +:+ z) in * by (by rewrite sapp_assoc).
  rewrite trimSuffix_app. rewrite sapp_assoc in Hd. split; [by eapply ParseDuration_trim|].
  by destruct t.
Qed.

Lemma shortDuration_parses d : duration_ok d -> ParseDuration (shortDuration d) = Some d.
Proof.
  intros Hd. unfold shortDuration. set (s := duration_String d).
  assert (ParseDuration s = Some d /\ starts_number s = true) as [Hp Hs].
  { split; [by apply ParseDuration_String|apply duration_String_starts; apply Hd]. }
  clearbody s. cbv zeta. set (s1 := if hasSuffix s "m0s" then _ else _).
  assert (ParseDuration s1 = Some d /\ starts_number s1 = true) as [Hp1 Hs1].
  { subst s1. destruct (hasSuffix s "m0s") eqn:E; [|done]. by eapply (trim_zero_unit "m"). }
  clearbody s1. destruct (hasSuffix s1 "h0m") eqn:E; [|done]. by eapply (trim_zero_unit "h").
Qed.

(** ** Mappings the formatter writes *)

(** The content of a mapping, from its keys and values. *)
Definition flat (l : list (string * Node)) : list Node := concat (map (fun '(k, v) => add k v) l).
Definition opt (b : bool) (key : string) (v : Node) : list (string * Node) := if b then [(key, v)] else [].
Definition to_entry (kv : string * Node) : entry := mkEntry (text_node kv.1) kv.2.

Fixpoint kv_get (l : list (string * Node)) (key : string) : option Node :=
  match l with
  | [] => None
  | (k, v) :: l => if k ==s key then Some v else kv_get l key
  end.

Lemma flat_app l1 l2 : flat (l1 ++ l2) = flat l1 ++ flat l2.
Proof. unfold flat. by rewrite map_app, concat_app. Qed.
Lemma add_flat k v : add k v = flat [(k, v)].
Proof. done. Qed.
Lemma add_if_flat b k v : add_if b k v = flat (opt b k v).
Proof. by destruct b. Qed.
Lemma flat_map {A} (f : A -> string * Node) (l : list A) :
  concat (map (fun a => add (f a).1 (f a).2) l) = flat (map f l).
Proof. unfold flat. rewrite map_map. f_equal. apply map_ext. intros a. by destruct (f a). Qed.

Lemma pairs_flat l : pairs (flat l) = map to_entry l.
Proof. induction l as [|[k v] l IH]; [done|]. unfold flat in *. simpl. by rewrite IH. Qed.

Lemma kv_get_app l1 l2 key :
  kv_get (l1 ++ l2) key = match kv_get l1 key with Some v => Some v | None => kv_get l2 key end.
Proof. induction l1 as [|[k v] l1 IH]; [done|]. simpl. by destruct (k ==s key). Qed.
Lemma kv_get_opt b k v key : kv_get (opt b k v) key = if b && (k ==s key) then Some v else None.
Proof. destruct b; simpl; by destruct (k ==s key). Qed.
Lemma kv_get_one k v key : kv_get [(k, v)] key = if k ==s key then Some v else None.
Proof. done. Qed.
Lemma kv_get_None l key : key ∉ map fst l -> kv_get l key = None.
Proof.
  induction l as [|[k v] l IH]; [done|]. simpl. intros H.
  destruct (String.eqb_spec k key); [set_solver|]. apply IH. set_solver.
Qed.

Lemma runs_mapping_entries what seen l p :
  NoDup (map fst l) -> (forall k, k ∈ map fst l -> k ∉ seen) ->
  runs (mapping_entries what seen (map to_entry l)) p (map to_entry l).
Proof.
  revert seen. induction l as [|[k v] l IH]; intros seen Hnd Hs; [done|]. simpl in *.
  rewrite bool_decide_false by (apply Hs; set_solver).
  inversion Hnd; subst. eapply runs_bind; [|done]. apply IH; [done|]. set_solver.
Qed.

Lemma runs_mapping st l line what p :
  NoDup (map fst l) ->
  runs (mapping (mkNode MappingNode st "" "" (flat l) line) what) p (Some (map to_entry l)).
Proof.
  intros Hnd. unfold mapping. simpl. rewrite pairs_flat. eapply runs_bind; [|done].
  apply runs_mapping_entries; [done|]. set_solver.
Qed.

Lemma runs_fields_of what allowed l out p :
  NoDup (map fst l) -> Forall (fun kv => kv.1 ∈ allowed) l ->
  exists f, runs (fields_of what allowed (map to_entry l) out) p f /\
    forall key, f !! key = match kv_get l key with
                           | Some v => Some (mkEntry (text_node key) v)
                           | None => out !! key
                           end.
Proof.
  revert out. induction l as [|[k v] l IH]; intros out Hnd Hal; [by exists out|].
  inversion Hnd as [|? ? Hk Hnd']; inversion Hal as [|? ? Ha Hal']; subst.
  destruct (IH (<[k := mkEntry (text_node k) v]> out) Hnd' Hal') as (f & Hf & Hl).
  exists f. split.
  - simpl in Ha. cbn [fields_of map to_entry e_key n_Value text_node fst]. rewrite (proj2 (slices_contains_spec _ _) Ha). exact Hf.
  - intros key. rewrite Hl. simpl. destruct (String.eqb_spec k key) as [->|Hne].
    + rewrite (kv_get_None l key Hk). by rewrite lookup_insert_eq.
    + by rewrite lookup_insert_ne.
Qed.

(** The fields of a formatted mapping: what the formatter put there. *)
Definition fields_are (f : fieldmap) (l : list (string * Node)) : Prop :=
  forall key, f !! key = (fun v => mkEntry (text_node key) v) <$> kv_get l key.

Lemma runs_fields st l line what allowed p :
  NoDup (map fst l) -> Forall (fun kv => kv.1 ∈ allowed) l ->
  exists f, runs (fields (mkNode MappingNode st "" "" (flat l) line) what allowed) p (Some f) /\ fields_are f l.
Proof.
  intros Hnd Hal. destruct (runs_fields_of what allowed l ∅ p Hnd Hal) as (f & Hf & Hl).
  exists f. split.
  - unfold fields. eapply runs_bind; [by apply runs_mapping|]. by eapply runs_bind; [exact Hf|].
  - intros key. rewrite Hl, lookup_empty. by destruct (kv_get l key).
Qed.

(** ** Keys of a formatted mapping *)

Definition list_node (items : list string) : Node :=
  mkNode SequenceNode FlowStyle "" "" (map (fun it => mkNode ScalarNode 0 "!!str" it [] 0) items) 0.
Definition optl (key : string) (items : option (list string)) : list (string * Node) :=
  match items with Some l => [(key, list_node l)] | None => [] end.
Definition duration_node (d : Duration) : Node := mkNode ScalarNode 0 "" (shortDuration d) [] 0.

Lemma addList_flat key items : addList key items = flat (optl key items).
Proof. by destruct items. Qed.
Lemma addDuration_flat key d def :
  addDuration key d def = flat (opt (negb (d =? 0) && negb (d =? def)) key (duration_node d)).
Proof. unfold addDuration. by destruct (negb _ && _). Qed.

Definition keys_fit (allowed : list string) (l : list (string * Node)) : bool :=
  bool_decide (NoDup (map fst l) /\ Forall (fun k => k ∈ allowed) (map fst l)).

Lemma keys_fit_spec allowed l :
  keys_fit allowed l = true -> NoDup (map fst l) /\ Forall (fun kv => kv.1 ∈ allowed) l.
Proof. intros [? HF]%bool_decide_eq_true. split; [done|]. by rewrite Forall_map in HF. Qed.

Lemma kv_get_opt' b k v key : kv_get (opt b k v) key = if k ==s key then (if b then Some v else None) else None.
Proof. rewrite kv_get_opt. by destruct b, (k ==s key). Qed.
Lemma kv_get_opt_app b k v l key :
  kv_get (opt b k v ++ l) key = if k ==s key then (if b then Some v else kv_get l key) else kv_get l key.
Proof. rewrite kv_get_app, kv_get_opt. by destruct b, (k ==s key). Qed.
Lemma kv_get_optl k o key :
  kv_get (optl k o) key = if k ==s key then list_node <$> o else None.
Proof. destruct o; simpl; by destruct (k ==s key). Qed.
Lemma kv_get_optl_app k o l key :
  kv_get (optl k o ++ l) key =
    if k ==s key then match o with Some x => Some (list_node x) | None => kv_get l key end else kv_get l key.
Proof. rewrite kv_get_app, kv_get_optl. destruct o; simpl; by destruct (k ==s key). Qed.
Lemma kv_get_cons k v l key : kv_get ((k, v) :: l) key = if k ==s key then Some v else kv_get l key.
Proof. done. Qed.

(** The contents of the mappings the formatter writes. *)
Create HintDb kvs discriminated.

(** Looks a literal key up. *)
Ltac kv_simpl :=
  autounfold with kvs; cbn [app]; rewrite ?kv_get_cons, ?kv_get_optl_app, ?kv_get_opt_app, ?kv_get_opt', ?kv_get_optl; simpl.
(** Checks the keys of a mapping written with [opt] and [optl]. *)
Ltac keys_fit :=
  autounfold with kvs; repeat match goal with
    | |- context [opt ?b _ _] => destruct b; cbn [opt]
    | |- context [if ?b then [_] else optl _ _] => destruct b
    | |- context [optl _ ?o] => destruct o; cbn [optl]
    end; unfold keys_fit; cbn [map fst app opt optl]; vm_compute; reflexivity.
(** Reads the content of a mapping back as its keys and values. *)
Ltac to_flat :=
  rewrite ?add_flat, ?add_if_flat, ?addList_flat, ?addDuration_flat, <- ?flat_app.

(** ** Scalars *)

Section WithLib.
Context {Y : YamlLib} `{!YamlScalars Y}.

Section Fields.
Context (f : fieldmap) (l : list (string * Node)) (Hf : fields_are f l).

Lemma present_kv key :
  present f key = match kv_get l key with Some v => negb (isNull v) | None => false end.
Proof using Hf. unfold present. rewrite Hf. by destruct (kv_get l key). Qed.

Lemma runs_str key what required parent p s :
  kv_get l key = Some (text_node s) ->
  runs (str f key what required parent) p (Some (s, text_node s)).
Proof using Hf. intros H. unfold runs, str. by rewrite present_kv, Hf, H. Qed.

Lemma runs_str_opt (b : bool) key what parent p s :
  kv_get l key = (if b then Some (text_node s) else None) ->
  runs (str f key what false parent) p (if b then Some (s, text_node s) else None).
Proof using Hf. intros H. unfold runs, str. rewrite present_kv, Hf, H. by destruct b. Qed.

Lemma runs_boolean (c : bool) key what def p b :
  kv_get l key = (if c then Some (boolean_node b) else None) ->
  runs (p_boolean f key what def) p (if c then b else def).
Proof using Hf YamlScalars0.
  intros H. unfold runs, p_boolean. rewrite present_kv, Hf, H. destruct c; [|done]. simpl.
  unfold boolean_node. by rewrite decode_bool_of.
Qed.

Lemma runs_duration (c : bool) key what def p d :
  duration_ok d -> kv_get l key = (if c then Some (duration_node d) else None) ->
  runs (p_duration f key what def) p (if c then d else def).
Proof using Hf.
  intros Hd H. unfold runs, p_duration. rewrite present_kv, Hf, H. destruct c; [|done]. simpl.
  rewrite (shortDuration_parses d Hd). simpl. by rewrite (proj2 (Z.ltb_lt 0 d)) by apply Hd.
Qed.
End Fields.

Lemma runs_list items what p :
  exists ok, runs (p_list (list_node items) what) p
    (Some (map (fun it => mkNode ScalarNode 0 "!!str" it [] 0) items), ok).
Proof.
  eexists. unfold p_list. simpl. eapply runs_bind; [|done].
  apply runs_mfor, Forall_map, Forall_forall. done.
Qed.

Lemma values_list items : values (Some (map (fun it => mkNode ScalarNode 0 "!!str" it [] 0) items)) = items.
Proof. unfold values. simpl. rewrite map_map. simpl. apply map_id. Qed.

Lemma runs_refs p v :
  match v with Some v => refs_defined (p_inputs p) (n_Value v) | None => True end -> runs (p_refs v) p tt.
Proof.
  destruct v as [v|]; [|done]. intros H. apply runs_mfor. eapply Forall_impl; [exact H|].
  intros m Hm. simpl in Hm. unfold runs, mbind, mget. by rewrite Hm.
Qed.

Definition quoted_in (p : parser) (name : string) : bool := negb (default false (p_raw p !! name)).

Lemma runs_shellRefs p v :
  match v with Some v => shell_places_ok (p_inputs p) (quoted_in p) (n_Value v) | None => True end ->
  runs (p_shellRefs v) p tt.
Proof.
  destruct v as [v|]; [|done]. intros (l & Hl & HF). unfold p_shellRefs.
  apply (runs_bind _ _ _ (p_inputs p)); [done|]. apply (runs_bind _ _ _ (p_raw p)); [done|].
  unfold quoted_in in Hl. cbv zeta. rewrite Hl. apply runs_mfor. eapply Forall_impl; [exact HF|].
  intros [r vd] Hvd. simpl in Hvd. by subst vd.
Qed.

Lemma text_of_opt (s : string) : text_of (if negb (s ==s "") then Some (s, text_node s) else None) = s.
Proof. by destruct (String.eqb_spec s ""). Qed.

Lemma opt_refs (P : string -> Prop) (b : bool) s v :
  n_Value v = s -> P s ->
  match node_of (if b then Some (s, v) else None) with Some v => P (n_Value v) | None => True end.
Proof. intros <- H. by destruct b. Qed.

(** ** The bodies of steps *)

Ltac step_fields l :=
  match goal with
  | |- runs (mbind (fields ?n ?what ?al) _) ?p _ =>
      let Hfit := fresh in
      assert (keys_fit al l = true) as Hfit by keys_fit;
      apply keys_fit_spec in Hfit as [? ?];
      let f := fresh "f" in let Hf := fresh "Hf" in let Hr := fresh "Hr" in
      destruct (runs_fields 0 l 0 what al p) as (f & Hr & Hf); [done|done|];
      eapply runs_bind; [exact Hr|]; clear Hr
  end.

Definition service_kvs (s : ServiceStep) : list (string * Node) :=
  [("name", text_node (sv_Name s)); ("action", text_node (sv_Action s))].
#[local] Hint Unfold service_kvs : kvs.

Lemma runs_service p s what :
  service_ok (p_inputs p) s -> runs (p_service (mapping_node 0 (flat (service_kvs s))) what) p (Some s).
Proof.
  intros [Hrefs Hact]. unfold p_service, mapping_node. step_fields (service_kvs s).
  eapply runs_bind; [by eapply runs_str|]. eapply runs_bind; [by apply runs_refs|].
  eapply runs_bind; [by eapply runs_str|]. eapply runs_bind.
  { apply runs_mwhen. apply negb_false_iff. by apply slices_contains_spec. }
  by destruct s.
Qed.

Definition stack_kvs (s : StackStep) : list (string * Node) :=
  [("name", text_node (st_Name s)); ("compose", text_node (st_Compose s))] ++
  opt (st_Up s) "up" (boolean_node true).
#[local] Hint Unfold stack_kvs : kvs.

Lemma runs_stack p s what :
  stack_ok (p_inputs p) s -> runs (p_stack (mapping_node 0 (flat (stack_kvs s))) what) p (Some s).
Proof.
  intros [Hn Hc]. unfold p_stack, mapping_node. step_fields (stack_kvs s).
  eapply runs_bind; [by eapply runs_str|]. eapply runs_bind; [by apply runs_refs|].
  eapply runs_bind; [by eapply runs_str|]. eapply runs_bind; [by apply runs_refs|].
  eapply runs_bind; [eapply runs_boolean; [done|]; by kv_simpl|].
  destruct s as [n c []]; done.
Qed.

Definition reboot_kvs (r : RebootStep) : list (string * Node) :=
  opt (negb (rb_OnlyIfRequired r)) "only_if_required" (boolean_node false) ++
  opt (negb (rb_Wait r =? 0) && negb (rb_Wait r =? DefaultRebootWait)) "wait" (duration_node (rb_Wait r)).
#[local] Hint Unfold reboot_kvs : kvs.

(** A duration left out is the default. *)
Lemma duration_back d def :
  duration_ok d -> (if negb (d =? 0) && negb (d =? def) then d else def) = d.
Proof.
  intros [? ?]. destruct (Z.eqb_spec d 0); [lia|]. by destruct (Z.eqb_spec d def).
Qed.

Lemma runs_reboot p r what :
  reboot_ok r -> runs (p_reboot (mapping_node 0 (flat (reboot_kvs r))) what) p (Some r).
Proof.
  intros Hd. unfold p_reboot, mapping_node. step_fields (reboot_kvs r).
  eapply runs_bind; [eapply runs_boolean; [done|]; by kv_simpl|].
  eapply runs_bind; [eapply runs_duration; [done|exact Hd|]; by kv_simpl|].
  rewrite duration_back by done. destruct r as [[] w]; done.
Qed.

Definition command_kvs (c : CommandStep) : list (string * Node) :=
  opt (negb (cm_Run c ==s "")) "run" (text_node (cm_Run c)) ++
  opt (negb (cm_Script c ==s "")) "script" (text_node (cm_Script c)) ++
  opt (negb (cm_Timeout c =? 0) && negb (cm_Timeout c =? DefaultCommandTimeout)) "timeout"
    (duration_node (cm_Timeout c)).
#[local] Hint Unfold command_kvs : kvs.

Lemma runs_command p c what :
  command_ok (p_inputs p) (quoted_in p) c ->
  runs (p_command (mapping_node 0 (flat (command_kvs c))) what) p (Some c).
Proof.
  intros (Hor & Hne & Hr1 & Hr2 & Hs1 & Hs2 & Hd). unfold p_command, mapping_node.
  step_fields (command_kvs c).
  eapply runs_bind; [eapply (runs_str_opt _ _ Hf (negb (cm_Run c ==s ""))); by kv_simpl|].
  eapply runs_bind; [eapply (runs_str_opt _ _ Hf (negb (cm_Script c ==s ""))); by kv_simpl|].
  eapply runs_bind.
  { destruct Hor as [E|E]; rewrite E in Hne |- *; simpl in *.
    - destruct (String.eqb_spec (cm_Script c) "") as [E2|]; [by rewrite E2 in Hne|]. simpl.
      apply runs_mwhen. by apply String.eqb_neq.
    - destruct (String.eqb_spec (cm_Run c) "") as [E2|]; [by rewrite E2 in Hne|]. simpl.
      apply runs_mwhen. by apply String.eqb_neq. }
  eapply runs_bind; [apply runs_refs; by apply opt_refs|].
  eapply runs_bind; [apply runs_refs; by apply opt_refs|].
  eapply runs_bind; [apply runs_shellRefs; by apply (opt_refs (shell_places_ok _ _))|].
  eapply runs_bind; [apply runs_shellRefs; by apply (opt_refs (shell_places_ok _ _))|].
  eapply runs_bind; [eapply (runs_duration _ _ Hf); [exact Hd|]; by kv_simpl|].
  rewrite duration_back, !text_of_opt by done. by destruct c.
Qed.

Definition file_kvs (x : FileStep) : list (string * Node) :=
  [("path", text_node (fl_Path x)); ("content", text_node (fl_Content x))] ++
  opt (negb (fl_Mode x ==s "")) "mode" (text_node (fl_Mode x)) ++
  opt (negb (fl_Owner x ==s "")) "owner" (text_node (fl_Owner x)).
#[local] Hint Unfold file_kvs : kvs.

Lemma runs_file p x what :
  file_ok (p_inputs p) x -> runs (p_file (mapping_node 0 (flat (file_kvs x))) what) p (Some x).
Proof.
  intros (Habs & Hp & Hc & Ho & Hm). unfold p_file, mapping_node. step_fields (file_kvs x).
  eapply runs_bind; [by eapply runs_str|]. eapply runs_bind.
  { eapply runs_bind; [|by apply runs_refs]. apply runs_mwhen.
    apply andb_false_iff. destruct Habs as [-> | ->]; auto. }
  eapply runs_bind; [by eapply runs_str|]. eapply runs_bind; [by apply runs_refs|].
  eapply runs_bind; [eapply (runs_str_opt _ _ Hf (negb (fl_Mode x ==s ""))); by kv_simpl|].
  eapply runs_bind.
  { destruct (String.eqb_spec (fl_Mode x) "") as [|Hne]; [done|]. simpl.
    destruct Hm as [?| ->]; done. }
  eapply runs_bind; [eapply (runs_str_opt _ _ Hf (negb (fl_Owner x ==s ""))); by kv_simpl|].
  eapply runs_bind; [apply runs_refs; by apply opt_refs|].
  rewrite !text_of_opt. by destruct x.
Qed.

Lemma runs_packageNames p items :
  Forall (package_name_ok (p_inputs p)) items ->
  runs (p_packageNames (map (fun it => mkNode ScalarNode 0 "!!str" it [] 0) items)) p tt.
Proof.
  intros HF. apply runs_mfor, Forall_map. eapply Forall_impl; [exact HF|]. intros it Hit.
  unfold package_name_ok in Hit. cbn [n_Value]. destruct (hasRef it); [by apply runs_refs|].
  apply runs_mwhen. by rewrite Hit.
Qed.

Lemma package_list_length inputs l : package_list_ok inputs (Some l) -> (length l =? 0)%nat = false.
Proof. intros [? _]. by destruct l. Qed.

Definition packages_kvs (x : PackagesStep) : list (string * Node) :=
  opt (pk_Update x) "update" (boolean_node true) ++
  (if pk_UpgradeAll x then [("upgrade", text_node "all")] else optl "upgrade" (pk_Upgrade x)) ++
  optl "install" (pk_Install x) ++ optl "remove" (pk_Remove x).
#[local] Hint Unfold packages_kvs : kvs.

Section Packages.
Context (p : parser) (x : PackagesStep) (f : fieldmap).
Context (Hf : fields_are f (packages_kvs x)) (Hx : packages_ok (p_inputs p) x).

Lemma present_upgrade : present f "upgrade" = pk_UpgradeAll x || is_some (pk_Upgrade x).
Proof using Hf.
  rewrite (present_kv _ _ Hf). unfold packages_kvs.
  destruct (pk_UpgradeAll x); kv_simpl; destruct (pk_Update x); simpl; try done;
    destruct (pk_Upgrade x); try done; destruct (pk_Install x), (pk_Remove x); done.
Qed.
Lemma present_install : present f "install" = is_some (pk_Install x).
Proof using Hf.
  rewrite (present_kv _ _ Hf). unfold packages_kvs.
  destruct (pk_Update x), (pk_UpgradeAll x), (pk_Upgrade x), (pk_Install x), (pk_Remove x); done.
Qed.
Lemma present_remove : present f "remove" = is_some (pk_Remove x).
Proof using Hf.
  rewrite (present_kv _ _ Hf). unfold packages_kvs.
  destruct (pk_Update x), (pk_UpgradeAll x), (pk_Upgrade x), (pk_Install x), (pk_Remove x); done.
Qed.

Lemma runs_upgrade what : runs (p_upgrade f what) p (pk_UpgradeAll x, pk_Upgrade x).
Proof using Hf Hx.
  unfold p_upgrade. rewrite present_upgrade, Hf. destruct Hx as (_ & _ & Hall & Hup & _).
  destruct (pk_UpgradeAll x) eqn:Ea.
  - rewrite Hall by done. unfold packages_kvs. rewrite Ea. by destruct (pk_Update x).
  - destruct (pk_Upgrade x) as [l|] eqn:El; [|done]. unfold packages_kvs. rewrite Ea, El.
    assert (E : kv_get (opt (pk_Update x) "update" (boolean_node true) ++ optl "upgrade" (Some l) ++
      optl "install" (pk_Install x) ++ optl "remove" (pk_Remove x)) "upgrade" = Some (list_node l))
      by (by destruct (pk_Update x)).
    rewrite E. simpl. destruct (runs_list l (Sprintf "%s upgrade" [FMsg what]) p) as [ok Hl].
    eapply runs_bind; [exact Hl|]. simpl. eapply runs_bind.
    { apply runs_mwhen. rewrite length_map. by eapply package_list_length. }
    eapply runs_bind; [apply runs_packageNames; apply Hup|]. by rewrite values_list.
Qed.

(** [install] and [remove]. *)
Lemma runs_change_gen key o what :
  present f key = is_some o -> kv_get (packages_kvs x) key = list_node <$> o ->
  package_list_ok (p_inputs p) o -> runs (p_change f what key) p o.
Proof using Hf.
  intros Hp Hk Ho. unfold p_change. rewrite Hp, Hf, Hk. destruct o as [l|]; [|done]. simpl.
  destruct (runs_list l (Sprintf "%s %s" [FMsg what; FStr key]) p) as [ok Hl].
  eapply runs_bind; [exact Hl|]. simpl. eapply runs_bind.
  { apply runs_mwhen. rewrite length_map. by eapply package_list_length. }
  eapply runs_bind; [apply runs_packageNames; apply Ho|]. by rewrite values_list.
Qed.

Lemma package_actions_count : length (package_actions f) = package_changes x.
Proof using Hf.
  unfold package_actions. rewrite !filter_cons, filter_nil, present_upgrade, present_install, present_remove.
  unfold package_changes. by destruct (pk_UpgradeAll x), (pk_Upgrade x), (pk_Install x), (pk_Remove x).
Qed.
End Packages.

Lemma runs_packages p x what :
  packages_ok (p_inputs p) x -> runs (p_packages (mapping_node 0 (flat (packages_kvs x))) what) p (Some x).
Proof.
  intros Hx. unfold p_packages, mapping_node. step_fields (packages_kvs x).
  eapply runs_bind; [eapply (runs_boolean _ _ Hf (pk_Update x)); unfold packages_kvs;
    destruct (pk_UpgradeAll x); kv_simpl; destruct (pk_Update x), (pk_Upgrade x), (pk_Install x), (pk_Remove x); done|].
  eapply runs_bind; [by apply (runs_upgrade p x f Hf Hx)|].
  pose proof Hx as (Hone & Hup & _ & _ & Hin & Hrm).
  eapply runs_bind; [apply (runs_change_gen p x f Hf _ (pk_Install x)); [by eapply present_install| |done]|].
  { unfold packages_kvs.
    destruct (pk_Update x), (pk_UpgradeAll x), (pk_Upgrade x), (pk_Install x), (pk_Remove x); done. }
  eapply runs_bind; [apply (runs_change_gen p x f Hf _ (pk_Remove x)); [by eapply present_remove| |done]|].
  { unfold packages_kvs.
    destruct (pk_Update x), (pk_UpgradeAll x), (pk_Upgrade x), (pk_Install x), (pk_Remove x); done. }
  pose proof (package_actions_count x f Hf) as Hc.
  eapply runs_bind.
  { destruct (package_actions f) as [|a0 [|a1 l]]; simpl in Hc; [|done|lia].
    apply runs_mwhen. rewrite Hup by done. done. }
  destruct x as [[] up_all up ins rm]; done.
Qed.

(** ** Steps *)

Lemma format_body_packages name coe x :
  format_body (mkStep name coe StepPackages (Some x) None None None None None) = flat (packages_kvs x).
Proof.
  unfold format_body, packages_kvs. simpl. to_flat. destruct (pk_UpgradeAll x); by to_flat.
Qed.

(** What each kind of step is written as, and reads back as. *)
Lemma runs_step_body p s :
  step_ok (p_inputs p) (quoted_in p) s ->
  runs (step_body (sp_Name s) (sp_ContinueOnError s) (sp_Kind s) (mapping_node 0 (format_body s))) p s.
Proof.
  destruct 1; unfold step_body; cbv zeta;
    cbn [sp_Name sp_ContinueOnError sp_Kind]; simpl (_ ==s _); cbv iota.
  - rewrite format_body_packages. eapply runs_bind; [by apply runs_packages|done].
  - eapply runs_bind; [by apply (runs_service p s)|done].
  - replace (format_body _) with (flat (command_kvs c)) by (unfold command_kvs, format_body; simpl; by to_flat).
    eapply runs_bind; [by apply runs_command|done].
  - replace (format_body _) with (flat (file_kvs f)) by (unfold file_kvs, format_body; simpl; by to_flat).
    eapply runs_bind; [by apply runs_file|done].
  - replace (format_body _) with (flat (stack_kvs s)) by (unfold stack_kvs, format_body; simpl; by to_flat).
    eapply runs_bind; [by apply runs_stack|done].
  - replace (format_body _) with (flat (reboot_kvs r)) by (unfold reboot_kvs, format_body; simpl; by to_flat).
    eapply runs_bind; [by apply runs_reboot|done].
Qed.

Definition common_kvs (s : Step) : list (string * Node) :=
  opt (negb (sp_Name s ==s "")) "name" (text_node (sp_Name s)) ++
  opt (sp_ContinueOnError s) "continue_on_error" (boolean_node true).
Definition step_kvs (s : Step) : list (string * Node) :=
  common_kvs s ++ [(sp_Kind s, mapping_node 0 (format_body s))].
#[local] Hint Unfold common_kvs : kvs.

Lemma step_ok_kind inputs q s :
  step_ok inputs q s -> sp_Kind s ∈ stepKinds /\ is_common (sp_Kind s) = false /\ (sp_Kind s ==s "") = false.
Proof. destruct 1; simpl; split; try done; unfold stepKinds; set_solver. Qed.

Lemma formatStep_kvs inputs q s : step_ok inputs q s -> formatStep s = mapping_node 0 (flat (step_kvs s)).
Proof.
  intros (_ & _ & Hk)%step_ok_kind. unfold formatStep, step_kvs, common_kvs. rewrite Hk.
  to_flat. by rewrite (app_assoc (opt _ _ _)).
Qed.

(** The common keys of a step, with those already read. *)
Lemma step_keys_common what l out rest p :
  NoDup (map fst l) -> forallb is_common (map fst l) = true ->
  exists f, (forall key, f !! key = match kv_get l key with
                                    | Some v => Some (mkEntry (text_node key) v)
                                    | None => out !! key
                                    end) /\
    forall r, runs (step_keys what rest f None) p r ->
      runs (step_keys what (map to_entry l ++ rest) out None) p r.
Proof.
  revert out. induction l as [|[k v] l IH]; intros out Hnd Hal; [by exists out|].
  simpl in Hal. apply andb_true_iff in Hal as [Ha Hal]. inversion Hnd as [|? ? Hk Hnd']; subst.
  destruct (IH (<[k := mkEntry (text_node k) v]> out) Hnd' Hal) as (f & Hl & Hr).
  exists f. split.
  - intros key. rewrite Hl. simpl. destruct (String.eqb_spec k key) as [->|Hne].
    + rewrite (kv_get_None l key Hk). by rewrite lookup_insert_eq.
    + by rewrite lookup_insert_ne.
  - intros r Hrest. cbn [map app to_entry step_keys e_key n_Value text_node fst]. rewrite Ha. by apply Hr.
Qed.

Lemma runs_step_keys p s what :
  sp_Kind s ∈ stepKinds -> is_common (sp_Kind s) = false ->
  exists f, fields_are f (common_kvs s) /\
    runs (step_keys what (map to_entry (step_kvs s)) ∅ None) p
      (f, Some (mkEntry (text_node (sp_Kind s)) (mapping_node 0 (format_body s)))).
Proof.
  intros Hk Hc. apply slices_contains_spec in Hk.
  destruct (step_keys_common what (common_kvs s) ∅
    [to_entry (sp_Kind s, mapping_node 0 (format_body s))] p) as (f & Hl & Hr).
  { unfold common_kvs. destruct (negb _), (sp_ContinueOnError s); simpl;
      repeat (constructor; [set_solver|]); constructor. }
  { unfold common_kvs. by destruct (negb _), (sp_ContinueOnError s). }
  exists f. split.
  { intros key. rewrite Hl, lookup_empty. by destruct (kv_get _ key). }
  unfold step_kvs. rewrite map_app. apply Hr. cbn [map step_keys to_entry e_key n_Value text_node fst snd].
  by rewrite Hc, Hk.
Qed.

Lemma step_kvs_nodup s : is_common (sp_Kind s) = false -> NoDup (map fst (step_kvs s)).
Proof.
  unfold step_kvs, common_kvs, is_common. intros [H1%String.eqb_neq H2%String.eqb_neq]%orb_false_iff.
  destruct (negb _), (sp_ContinueOnError s); simpl;
    repeat (constructor; [set_solver|]); constructor.
Qed.

Lemma runs_step p s index :
  step_ok (p_inputs p) (quoted_in p) s -> runs (p_step (formatStep s) index) p (Some s).
Proof.
  intros Hs. rewrite (formatStep_kvs _ _ _ Hs). destruct (step_ok_kind _ _ _ Hs) as (Hk & Hc & _).
  unfold p_step. cbv zeta. set (what := Sprintf "step %d" _).
  eapply runs_bind; [apply runs_mapping; by apply step_kvs_nodup|]. cbv iota.
  destruct (runs_step_keys p s what Hk Hc) as (f & Hf & Hr).
  eapply runs_bind; [exact Hr|].
  eapply runs_bind; [eapply (runs_str_opt _ _ Hf (negb (sp_Name s ==s ""))); by kv_simpl|].
  eapply runs_bind; [eapply (runs_boolean _ _ Hf (sp_ContinueOnError s)); by kv_simpl|].
  cbv beta iota. rewrite text_of_opt.
  replace (if sp_ContinueOnError s then true else false) with (sp_ContinueOnError s)
    by (by destruct (sp_ContinueOnError s)).
  eapply runs_bind; [by apply runs_step_body|done].
Qed.

Lemma runs_steps p l index :
  Forall (step_ok (p_inputs p) (quoted_in p)) l -> runs (p_steps (map formatStep l) index) p l.
Proof.
  intros HF. revert index. induction HF as [|s l Hs HF IH]; intros index; [done|]. cbn [map p_steps].
  eapply runs_bind; [by apply runs_step|]. by eapply runs_bind; [apply IH|].
Qed.

(** ** The head of the document *)

Definition targets_kvs (t : Targets) : list (string * Node) :=
  optl "groups" (tg_Groups t) ++ optl "kinds" (tg_Kinds t) ++ optl "nodes" (tg_Nodes t).
#[local] Hint Unfold targets_kvs : kvs.

Lemma runs_target_list p f l key o :
  fields_are f l -> kv_get l key = list_node <$> o -> runs (target_list f key) p o.
Proof.
  intros Hf Hk. unfold target_list. rewrite (present_kv _ _ Hf), Hf, Hk. destruct o as [items|]; [|done]. simpl.
  destruct (runs_list items (Sprintf "targets %s" [FStr key]) p) as [ok Hl].
  eapply runs_bind; [exact Hl|]. cbn [fst]. by rewrite values_list.
Qed.

Lemma runs_targets p t :
  targets_ok t -> runs (p_targets (mapping_node 0 (flat (targets_kvs t)))) p t.
Proof.
  intros Ht. unfold p_targets, mapping_node. step_fields (targets_kvs t).
  assert (Hk : forall key, kv_get (targets_kvs t) key =
    list_node <$> (if "groups" ==s key then tg_Groups t else if "kinds" ==s key then tg_Kinds t
                   else if "nodes" ==s key then tg_Nodes t else None)).
  { intros key. unfold targets_kvs. rewrite !kv_get_optl_app, !kv_get_optl.
    destruct (String.eqb_spec "groups" key) as [<-|]; [by destruct (tg_Groups t)|].
    destruct (String.eqb_spec "kinds" key) as [<-|]; [by destruct (tg_Kinds t)|].
    by destruct (_ ==s _). }
  eapply runs_bind; [apply (runs_target_list _ _ _ _ (tg_Groups t) Hf); by rewrite Hk|].
  eapply runs_bind; [apply (runs_target_list _ _ _ _ (tg_Nodes t) Hf); by rewrite Hk|].
  apply (runs_bind _ _ _ (tg_Kinds t)); [|by destruct t].
  rewrite (present_kv _ _ Hf), Hf, Hk. simpl. unfold targets_ok in Ht.
  destruct (tg_Kinds t) as [items|]; [|done]. simpl.
  destruct (runs_list items (Sprintf "targets kinds" []) p) as [ok Hl].
  eapply runs_bind; [exact Hl|]. cbn [fst]. eapply runs_bind.
  { apply runs_mfor, Forall_map. eapply Forall_impl; [exact Ht|]. intros k Hkk.
    apply runs_mwhen, negb_false_iff. by apply slices_contains_spec. }
  by rewrite values_list.
Qed.

(** ** Inputs *)

Definition input_kvs (i : Input) : list (string * Node) :=
  opt (negb (in_Label i ==s "")) "label" (text_node (in_Label i)) ++
  opt (negb (in_Default i ==s "")) "default" (text_node (in_Default i)) ++
  opt (in_Required i) "required" (boolean_node true) ++
  opt (in_Raw i) "raw" (boolean_node true).
#[local] Hint Unfold input_kvs : kvs.

Lemma formatInput_kvs i : formatInput i = mapping_node FlowStyle (flat (input_kvs i)).
Proof. unfold formatInput, input_kvs. by to_flat. Qed.

Definition inputs_kvs (l : list Input) : list (string * Node) := map (fun i => (in_Name i, formatInput i)) l.

Lemma if_true_false (b : bool) : (if b then true else false) = b.
Proof. by destruct b. Qed.

(** The parser's answer, with no problem added. *)
Definition quiet {A} (m : M A) (p : parser) (a : A) : Prop :=
  exists p', m p = (a, p') /\ p_problems p' = p_problems p.

Lemma quiet_bind {A B} (m : M A) (k : A -> M B) p a b :
  runs m p a -> quiet (k a) p b -> quiet (mbind m k) p b.
Proof. intros Hm (p' & E & H). exists p'. split; [|done]. unfold mbind. by rewrite Hm. Qed.

Lemma quiet_after {A B} (m : M A) (k : A -> M B) p a p' b :
  m p = (a, p') -> p_problems p' = p_problems p -> quiet (k a) p' b -> quiet (mbind m k) p b.
Proof.
  intros Hm Hp (p'' & E & H). exists p''. split; [|by rewrite H]. unfold mbind. by rewrite Hm.
Qed.

Lemma quiet_inputList_entries l p :
  Forall input_ok l -> quiet (inputList_entries (map to_entry (inputs_kvs l))) p l.
Proof.
  intros HF. revert p. induction HF as [|i l [Hm Hn] HF IH]; intros p; [by exists p|].
  cbn [inputs_kvs map to_entry inputList_entries e_key e_val n_Value text_node fst snd].
  cbv zeta. rewrite Hm. cbn [negb]. apply String.eqb_neq in Hn. rewrite Hn.
  eapply quiet_after; [done|done|]. rewrite formatInput_kvs. unfold mapping_node at 1. cbn [isNull kind_is n_Kind].
  set (p1 := mkParser _ _ _).
  set (what := Sprintf _ _).
  assert (keys_fit ["label"; "default"; "required"; "raw"] (input_kvs i) = true) as [Hnd Hal]%keys_fit_spec by keys_fit.
  destruct (runs_fields FlowStyle _ 0 what _ p1 Hnd Hal) as (f & Hr & Hf).
  eapply quiet_bind; [exact Hr|]. cbv iota.
  eapply quiet_bind; [eapply (runs_str_opt _ _ Hf (negb (in_Label i ==s ""))); by kv_simpl|].
  eapply quiet_bind; [eapply (runs_str_opt _ _ Hf (negb (in_Default i ==s ""))); by kv_simpl|].
  eapply quiet_bind; [eapply (runs_boolean _ _ Hf (in_Required i)); by kv_simpl|].
  eapply quiet_bind; [eapply (runs_boolean _ _ Hf (in_Raw i)); by kv_simpl|].
  eapply quiet_after; [done|done|]. rewrite !text_of_opt, !if_true_false.
  set (p2 := mkParser _ _ _). destruct (IH p2) as (p3 & E & Hp).
  eapply quiet_after; [exact E|done|]. exists p3. by destruct i.
Qed.

Lemma quiet_inputList l p :
  Forall input_ok l -> NoDup (map in_Name l) ->
  quiet (p_inputList (mapping_node 0 (flat (inputs_kvs l)))) p l.
Proof.
  intros HF Hnd. unfold p_inputList. eapply quiet_bind.
  { apply runs_mapping. unfold inputs_kvs. by rewrite map_map. }
  cbv iota. by apply quiet_inputList_entries.
Qed.

(** ** The document *)

Definition has_targets (t : Targets) : bool :=
  is_some (tg_Groups t) || is_some (tg_Kinds t) || is_some (tg_Nodes t).

Definition task_kvs (t : Task) : list (string * Node) :=
  [("name", text_node (tk_Name t))] ++
  opt (negb (tk_Description t ==s "")) "description" (text_node (tk_Description t)) ++
  opt (0 <? length (tk_Inputs t))%nat "inputs" (mapping_node 0 (flat (inputs_kvs (tk_Inputs t)))) ++
  opt (has_targets (tk_Targets t)) "targets" (mapping_node 0 (flat (targets_kvs (tk_Targets t)))) ++
  opt (negb (tk_Batch t =? 0) && negb (tk_Batch t =? 1)) "batch" (number_node (tk_Batch t)) ++
  opt (negb (tk_StopOnFailure t)) "stop_on_failure" (boolean_node false) ++
  [("steps", mkNode SequenceNode 0 "" "" (map formatStep (tk_Steps t)) 0)].
#[local] Hint Unfold task_kvs : kvs.

Lemma format_tree_kvs t : format_tree t = mapping_node 0 (flat (task_kvs t)).
Proof.
  unfold format_tree, task_kvs, inputs_kvs. rewrite <-flat_map. cbn [fst snd].
  unfold targets_kvs. by to_flat.
Qed.

Lemma runs_batch p f t :
  fields_are f (task_kvs t) -> 1 <= tk_Batch t < 2 ^ 63 -> runs (p_batch f) p (tk_Batch t).
Proof.
  intros Hf Hb. unfold p_batch. rewrite (present_kv _ _ Hf), Hf. kv_simpl.
  destruct (Z.eqb_spec (tk_Batch t) 0); [lia|]. destruct (Z.eqb_spec (tk_Batch t) 1) as [->|]; [done|]. simpl.
  unfold number_node. rewrite decode_int_of by lia. by destruct (Z.ltb_spec (tk_Batch t) 1); [lia|].
Qed.

Lemma runs_stepList p f t doc :
  fields_are f (task_kvs t) -> (1 <= length (tk_Steps t) <= MaxSteps)%nat ->
  Forall (step_ok (p_inputs p) (quoted_in p)) (tk_Steps t) -> runs (p_stepList f doc) p (tk_Steps t).
Proof.
  intros Hf Hlen HF. unfold p_stepList. rewrite (present_kv _ _ Hf), Hf. kv_simpl. rewrite length_map.
  eapply runs_bind; [apply runs_mwhen; apply Nat.eqb_neq; lia|].
  eapply runs_bind; [apply runs_mwhen; apply Nat.ltb_ge; lia|]. by apply runs_steps.
Qed.

(** The inputs of a task read back, and what the parser knows of them then. *)
Lemma runs_inputs f t :
  fields_are f (task_kvs t) -> Forall input_ok (tk_Inputs t) -> NoDup (map in_Name (tk_Inputs t)) ->
  exists p1,
    (match (if present f "inputs" then f !! "inputs" else None) with
     | None => mret []
     | Some e => p_inputList (e_val e)
     end) new_parser = (tk_Inputs t, p1) /\
    p_problems p1 = [] /\ p_inputs p1 = input_names (tk_Inputs t) /\
    forall n, raw_of p1 n = is_raw (tk_Inputs t) n.
Proof.
  intros Hf Hin Hnd. rewrite (present_kv _ _ Hf), Hf. kv_simpl.
  destruct (tk_Inputs t) as [|i l] eqn:E; [by exists new_parser|].
  destruct (quiet_inputList (i :: l) new_parser Hin Hnd) as (p1 & E1 & Hp).
  exists p1. cbn [length Nat.ltb Nat.leb fmap option_fmap option_map isNull kind_is n_Kind mapping_node
    e_val bool_decide decide_rel NodeKind_eq_dec andb negb].
  pose proof (ok_inputList _ _ _ _ E1 Hp) as [_ Hspec].
  destruct (Hspec eq_refl eq_refl) as (_ & _ & Hi & Hr). split_and!; [|done|exact Hi|exact Hr].
  exact E1.
Qed.

Lemma quiet_task t : task_ok t -> quiet (p_task (format_tree t)) new_parser (Some t).
Proof.
  intros [Hname Hin Hnd Htg Hb Hlen Hst]. rewrite format_tree_kvs. unfold p_task, mapping_node.
  cbv zeta. change (doc_node _) with (mkNode MappingNode 0 "" "" (flat (task_kvs t)) 0).
  set (what := Sprintf _ _). set (doc := mkNode _ _ _ _ _ _) at 2 3 4.
  assert (keys_fit task_keys (task_kvs t) = true) as [Hkd Hal]%keys_fit_spec by keys_fit.
  destruct (runs_fields 0 _ 0 what _ new_parser Hkd Hal) as (f & Hr & Hf).
  eapply quiet_bind; [exact Hr|]. cbv iota.
  eapply quiet_bind; [by eapply runs_str|]. cbv iota.
  eapply quiet_bind; [by apply runs_mwhen, String.eqb_neq|].
  eapply quiet_bind; [eapply (runs_str_opt _ _ Hf (negb (tk_Description t ==s ""))); by kv_simpl|].
  destruct (runs_inputs f t Hf Hin Hnd) as (p1 & E1 & Hp1 & Hi1 & Hr1).
  eapply quiet_after; [exact E1|by rewrite Hp1|].
  assert (HF : Forall (step_ok (p_inputs p1) (quoted_in p1)) (tk_Steps t)).
  { eapply Forall_impl; [exact Hst|]. intros s Hs. rewrite Hi1. eapply step_ok_ext; [|exact Hs].
    intros n. unfold quoted_in. by rewrite <-Hr1. }
  eapply (quiet_bind _ _ _ (tk_Targets t)).
  { rewrite (present_kv _ _ Hf), Hf. kv_simpl. destruct (has_targets (tk_Targets t)) eqn:E.
    - simpl. by apply runs_targets.
    - unfold has_targets in E. by destruct (tk_Targets t) as [[] [] []]. }
  eapply quiet_bind; [by apply (runs_batch _ f t)|].
  eapply quiet_bind; [eapply (runs_boolean _ _ Hf (negb (tk_StopOnFailure t))); by kv_simpl|].
  eapply quiet_bind; [by apply (runs_stepList _ f t)|].
  rewrite text_of_opt. exists p1. split; [|done]. by destruct t as [? ? ? ? ? [] ?].
Qed.

(** C17: a well-formed task, written as [Format]'s tree, reads back as itself
    with no problem, whether the tree is the root or a document's only node. *)
Theorem parse_format_tree t root :
  task_ok t -> doc_node root = format_tree t -> parse_tree root = (Some t, []).
Proof.
  intros Ht Hroot. unfold parse_tree. destruct (quiet_task t Ht) as (p & E & Hp).
  replace (p_task root new_parser) with (p_task (format_tree t) new_parser)
    by (unfold p_task; by rewrite Hroot). by rewrite E, Hp.
Qed.
End WithLib.
