(* ===== verification/TaskRenderFacts.v ===== *)
(** * What a rendered task holds

    [ShellQuote] is read by a POSIX shell as its argument, inside whatever
    word it stands in; a rendered text is the text with its references, and
    nothing else, replaced; rendering a well-formed task fails exactly when a
    required input has no value. *)

From S2P Require Import Prelude GoStrings GoRegexp GoTime TaskModel TaskRefs ShellPlaces TaskYaml.
From S2P Require Import TaskParse TaskWf TaskRender.

(** ** One shell word *)

Notation los := list_ascii_of_string.

Lemma los_app a b : los (a +:+ b) = los a ++ los b.
Proof. induction a as [|c a IH]; [done|]. simpl. by rewrite IH. Qed.

Lemma shell_word_mono fuel fuel' s w r :
  shell_word fuel s = Some (w, r) -> (fuel <= fuel')%nat -> shell_word fuel' s = Some (w, r).
Proof.
  revert fuel' s w r. induction fuel as [|fuel IH]; intros fuel' s w r H Hle; [done|].
  destruct fuel' as [|fuel']; [lia|]. cbn [shell_word] in *.
  destruct s as [|c s]; [done|]. destruct (is_word_end c); [done|]. destruct (is_expansion c); [done|].
  destruct (Ascii.eqb c quote_char).
  { destruct (take_quoted s) as [[a b]|]; [|done].
    destruct (shell_word fuel b) as [[w' r']|] eqn:E; [|done]. by rewrite (IH fuel' _ _ _ E) by lia. }
  destruct (Ascii.eqb c "\").
  { destruct s as [|d s]; [done|].
    destruct (shell_word fuel s) as [[w' r']|] eqn:E; [|done]. by rewrite (IH fuel' _ _ _ E) by lia. }
  destruct (shell_word fuel s) as [[w' r']|] eqn:E; [|done]. by rewrite (IH fuel' _ _ _ E) by lia.
Qed.

(** The quotes already open: the shell takes the rest of the quoted value,
    then reads on. *)
Lemma quoted_rest v rest w r fuel :
  shell_word fuel rest = Some (w, r) ->
  exists a b w', take_quoted (los (replaceByte v quote_char "'\''") ++ quote_char :: rest) = Some (a, b) /\
    shell_word (fuel + 2 * String.length v) b = Some (w', r) /\ a ++ w' = los v ++ w.
Proof.
  intros Hrest. induction v as [|c v IH].
  { exists [], rest, w. split_and!; [done|by rewrite Nat.add_0_r|done]. }
  destruct IH as (a & b & w' & Ht & Hw & E). cbn [replaceByte]. destruct (Ascii.eqb_spec c quote_char) as [->|Hc].
  - exists [], (["\"%char; quote_char; quote_char] ++ los (replaceByte v quote_char "'\''") ++ quote_char :: rest),
      (quote_char :: a ++ w'). split_and!; [done| |by rewrite E].
    simpl String.length. replace (fuel + 2 * S (String.length v))%nat with (S (S (fuel + 2 * String.length v))) by lia.
    set (F := (fuel + 2 * String.length v)%nat) in *.
    assert (Hq : forall f x, shell_word (S f) (quote_char :: x) =
      match take_quoted x with
      | None => None
      | Some (a, b) => (fun '(w, r) => (a ++ w, r)) <$> shell_word f b
      end) by done.
    assert (Hb : forall f d x, shell_word (S f) ("\"%char :: d :: x) =
      ((fun '(w, r) => (d :: w, r)) <$> shell_word f x)) by done.
    cbn [app]. rewrite Hb, Hq, Ht, Hw. done.
  - exists (c :: a), b, w'. simpl String.length. split_and!.
    + cbn [los app take_quoted]. apply Ascii.eqb_neq in Hc. rewrite Hc.
      cbn [los app take_quoted]. by rewrite Ht.
    + eapply shell_word_mono; [exact Hw|lia].
    + simpl. by rewrite E.
Qed.

(** C25: [ShellQuote v] in front of any text adds exactly [v] to the word the
    shell reads there: nothing of [v] is expanded, split or ends the word. *)
Theorem ShellQuote_reads_back v rest w r fuel :
  shell_word fuel rest = Some (w, r) ->
  exists fuel', shell_word fuel' (los (ShellQuote v) ++ rest) = Some (los v ++ w, r).
Proof.
  intros H. destruct (quoted_rest v rest w r fuel H) as (a & b & w' & Ht & Hw & E).
  exists (S (fuel + 2 * String.length v)). unfold ShellQuote. rewrite !los_app, <-app_assoc.
  rewrite <-app_assoc. change (los "'") with [quote_char]. cbn [app shell_word].
  change (is_word_end quote_char) with false. change (is_expansion quote_char) with false.
  rewrite Ascii.eqb_refl, Ht, Hw. cbv iota. by rewrite <-E.
Qed.

(** ** A filled text *)

(** No reference of [mid ++ s] starts in [mid]. *)
Definition no_ref_starts (mid s : list ascii) : Prop :=
  forall p q w rest, mid = p ++ q -> q <> [] -> q ++ s = w ++ rest -> ~ in_re w referencePattern.

(** [out] is [s] with each reference, from the left, replaced by what [sub]
    says of its name. *)
Inductive filled (sub : string -> string) : list ascii -> list ascii -> Prop :=
| filled_end s : no_ref_starts s [] -> filled sub s s
| filled_ref pre w post name out :
    no_ref_starts pre (w ++ post) -> ref_text (los name) w -> filled sub post out ->
    filled sub (pre ++ w ++ post) (pre ++ los (sub name) ++ out).

Lemma los_sdrop n s : los (sdrop n s) = drop n (los s).
Proof. revert s. induction n as [|n IH]; intros [|c s]; simpl; [done..|]. apply IH. Qed.
Lemma los_stake n s : los (stake n s) = take n (los s).
Proof. revert s. induction n as [|n IH]; intros [|c s]; simpl; [done..|]. by rewrite IH. Qed.

Lemma no_ref_starts_snoc mid c s :
  no_ref_starts mid (c :: s) -> match_ref (c :: s) = None -> no_ref_starts (mid ++ [c]) s.
Proof.
  intros Hm Hn p q w rest E Hq Ew.
  destruct q as [|d q _] using rev_ind; [done|].
  rewrite app_assoc in E. apply app_inj_tail in E as [-> <-]. rewrite <-app_assoc in Ew. cbn [app] in Ew.
  destruct q as [|e q].
  - by eapply match_ref_None.
  - by eapply (Hm p (e :: q)).
Qed.

Lemma no_ref_starts_nil s : no_ref_starts [] s.
Proof. intros p q w rest E Hq. symmetry in E. apply app_eq_nil in E as [_ ->]. done. Qed.

Definition sub_of (r : renderer) (quote : bool) (name : string) : string :=
  let v := default "" (r_values r !! name) in
  if quote && negb (default false (r_raw r !! name)) then ShellQuote v else v.

Lemma fill_ref_defined r quote m whole err :
  is_Some (r_values r !! rm_name m) -> fill_ref r quote m whole err = (sub_of r quote (rm_name m), err).
Proof.
  intros [v Hv]. unfold fill_ref, sub_of. rewrite Hv. simpl. by destruct (quote && _).
Qed.

(** From the offset [last], with [mid] read and no reference begun in it. *)
Lemma fill_from_filled r quote err s pre mid s' :
  los s = pre ++ mid ++ s' -> no_ref_starts mid s' ->
  Forall (fun m => is_Some (r_values r !! rm_name m)) (find_refs s' (length (pre ++ mid)) 0) ->
  exists out, fill_from r s quote (find_refs s' (length (pre ++ mid)) 0) (length pre) err = (out, err) /\
    filled (sub_of r quote) (mid ++ s') (los out).
Proof.
  remember (length s') as n eqn:En. revert pre mid s' En.
  induction n as [n IH] using lt_wf_ind. intros pre mid [|c s'] -> Es Hm HF.
  { cbn [find_refs fill_from]. eexists; split; [done|]. rewrite los_sdrop, Es, drop_app_length, !app_nil_r.
    by apply filled_end. }
  cbn [find_refs] in HF |- *. destruct (match_ref (c :: s')) as [[name len]|] eqn:E.
  - apply match_ref_sound in E as (w & post & Ew & Hl & Hn). pose proof (ref_text_length _ _ Hn) as Hw.
    inversion HF as [|m l Hv HF']; subst m l. cbn [fill_from rm_start rm_end rm_name].
    rewrite fill_ref_defined by done. rewrite find_refs_skip in HF' |- *.
    assert (Hs' : drop (pred len) s' = post).
    { destruct w as [|c' w]; [simpl in Hw; lia|]. injection Ew as <- ->. rewrite <-Hl. simpl.
      by rewrite drop_app_length. }
    rewrite Hs' in HF' |- *.
    assert (Hoff : (S (length (pre ++ mid)) + pred len)%nat = length ((pre ++ mid ++ w) ++ [])).
    { rewrite !length_app in *. simpl. lia. }
    rewrite Hoff in HF' |- *.
    assert (Hend : (length (pre ++ mid) + len)%nat = length (pre ++ mid ++ w)).
    { rewrite !length_app. lia. }
    destruct (IH (length post)) with (pre := pre ++ mid ++ w) (mid := @nil ascii) (s' := post)
      as (out & Hout & Hfill); [|done| |apply no_ref_starts_nil|done|].
    { apply (f_equal length) in Ew. rewrite length_app in Ew. simpl in *. lia. }
    { rewrite Es, Ew. by rewrite <-!app_assoc. }
    rewrite Hend, Hout. eexists; split; [done|].
    rewrite !los_app, los_stake, los_sdrop, Es, drop_app_length, Ew.
    replace (length (pre ++ mid) - length pre)%nat with (length mid) by (rewrite length_app; lia).
    rewrite take_app_length. apply filled_ref; [by rewrite <-Ew| |done].
    cbn [rm_name]. by rewrite list_ascii_of_string_of_list_ascii.
  - destruct (IH (length s')) with (pre := pre) (mid := mid ++ [c]) (s' := s')
      as (out & Hout & Hfill); [simpl; lia|done|by rewrite Es, <-app_assoc|by apply no_ref_starts_snoc| |].
    + rewrite app_assoc, length_app, Nat.add_1_r. done.
    + rewrite app_assoc, length_app, Nat.add_1_r in Hout. exists out. split; [done|].
      by rewrite <-app_assoc in Hfill.
Qed.

Lemma fill_filled r s quote err :
  Forall (fun m => is_Some (r_values r !! rm_name m)) (findAllRefs s) ->
  exists out, fill r s quote err = (out, err) /\ filled (sub_of r quote) (los s) (los out).
Proof.
  intros HF. apply (fill_from_filled r quote err s [] [] (los s)); [done|apply no_ref_starts_nil|done].
Qed.

(** Each text has one filling. *)
Lemma filled_no_ref_fix sub s out : no_ref_starts s [] -> filled sub s out -> out = s.
Proof.
  intros Hn. destruct 1 as [|pre w post name out _ Hw _]; [done|].
  destruct (Hn pre (w ++ post) w post); [done| | |apply ref_text_pattern; eauto].
  - apply ref_text_length in Hw. destruct w; [simpl in Hw; lia|done].
  - by rewrite app_nil_r.
Qed.

(** ** The values of a run *)

(** An input's value: what was given, or its default. *)
Definition given (inputs : gmap string string) (i : Input) : string :=
  let v := default "" (inputs !! in_Name i) in if v ==s "" then in_Default i else v.

(** The first required input with no value. *)
Definition missing_input (l : list Input) (inputs : gmap string string) : option string :=
  in_Name <$> find (fun i => (given inputs i ==s "") && in_Required i) l.

Definition input_named (l : list Input) (name : string) : option Input :=
  find (fun i => in_Name i ==s name) l.

(** What [{{ name }}] stands for on a node. *)
Definition value_of (t : Task) (inputs : gmap string string) (node : NodeVars) (name : string) : option string :=
  if refNodeAddress ==s name then Some (nv_Address node)
  else if refNodeName ==s name then Some (nv_Name node)
  else given inputs <$> input_named (tk_Inputs t) name.

Definition plain_of (t : Task) (inputs : gmap string string) (node : NodeVars) (name : string) : string :=
  default "" (value_of t inputs node name).

(** In a command: one shell word, unless the input is raw. *)
Definition command_of (t : Task) (inputs : gmap string string) (node : NodeVars) (name : string) : string :=
  let v := plain_of t inputs node name in if is_raw (tk_Inputs t) name then v else ShellQuote v.

Lemma render_inputs_cons i l inputs r :
  render_inputs (i :: l) inputs r =
    if (given inputs i ==s "") && in_Required i then Err (InputMissing (in_Name i))
    else render_inputs l inputs
      (mkRenderer (<[in_Name i := given inputs i]> (r_values r)) (<[in_Name i := in_Raw i]> (r_raw r))).
Proof. done. Qed.

Lemma missing_input_cons i l inputs :
  missing_input (i :: l) inputs =
    if (given inputs i ==s "") && in_Required i then Some (in_Name i) else missing_input l inputs.
Proof. unfold missing_input. simpl. by destruct (_ && _). Qed.

Lemma input_named_cons i l n :
  input_named (i :: l) n = if in_Name i ==s n then Some i else input_named l n.
Proof. done. Qed.

Lemma input_named_fresh l n : n ∉ map in_Name l -> input_named l n = None.
Proof.
  intros Hn. unfold input_named. destruct (find _ l) as [j|] eqn:Ef; [|done].
  apply find_some in Ef as [Hj Hjn]. apply String.eqb_eq in Hjn. destruct Hn. rewrite <-Hjn.
  apply list_elem_of_In. by apply in_map.
Qed.

(** [r] holds what [l]'s inputs say over what it held. *)
Lemma render_inputs_spec l inputs r :
  NoDup (map in_Name l) ->
  match missing_input l inputs with
  | Some name => render_inputs l inputs r = Err (InputMissing name)
  | None => exists r', render_inputs l inputs r = Ok r' /\
      (forall n, r_values r' !! n =
        match input_named l n with Some i => Some (given inputs i) | None => r_values r !! n end) /\
      (forall n, r_raw r' !! n =
        match input_named l n with Some i => Some (in_Raw i) | None => r_raw r !! n end)
  end.
Proof.
  revert r. induction l as [|i l IH]; intros r Hnd; [by exists r|].
  inversion Hnd as [|? ? Hn Hnd']; subst. rewrite missing_input_cons, render_inputs_cons.
  destruct ((given inputs i ==s "") && in_Required i); [done|].
  set (r1 := mkRenderer _ _). specialize (IH r1 Hnd').
  destruct (missing_input l inputs); [done|].
  destruct IH as (r' & E & Hv & Hr). exists r'. split; [done|]. subst r1.
  split; intros n; rewrite ?Hv, ?Hr, input_named_cons; simpl;
    destruct (String.eqb_spec (in_Name i) n) as [<-|Hne];
    rewrite ?(input_named_fresh l (in_Name i)), ?lookup_insert_eq, ?lookup_insert_ne by done; done.
Qed.

(** The renderer of a node holds exactly the values [value_of] says. *)
Definition renders (r : renderer) (t : Task) (inputs : gmap string string) (node : NodeVars) : Prop :=
  (forall n, r_values r !! n = value_of t inputs node n) /\
  (forall n, default false (r_raw r !! n) = is_raw (tk_Inputs t) n).

Lemma is_raw_named l n :
  NoDup (map in_Name l) -> is_raw l n = match input_named l n with Some i => in_Raw i | None => false end.
Proof.
  induction l as [|i l IH]; intros Hnd; [done|]. inversion Hnd as [|? ? Hn Hnd']; subst.
  unfold is_raw, input_named in *. cbn [existsb find]. rewrite IH by done.
  destruct (String.eqb_spec (in_Name i) n) as [<-|]; [|done]. simpl.
  pose proof (input_named_fresh l (in_Name i) Hn) as E. unfold input_named in E. rewrite E.
  by rewrite orb_false_r.
Qed.

Lemma node_values_renders t inputs node r :
  NoDup (map in_Name (tk_Inputs t)) ->
  (forall n, r_values r !! n = given inputs <$> input_named (tk_Inputs t) n) ->
  (forall n, r_raw r !! n = in_Raw <$> input_named (tk_Inputs t) n) ->
  renders (node_values r node) t inputs node.
Proof.
  intros Hnd Hv Hr. split; intros n.
  - unfold node_values, value_of. cbn [r_values].
    destruct (String.eqb_spec refNodeAddress n) as [<-|H1]; [by rewrite lookup_insert_eq|].
    rewrite lookup_insert_ne by done.
    destruct (String.eqb_spec refNodeName n) as [<-|H2]; [by rewrite lookup_insert_eq|].
    by rewrite lookup_insert_ne.
  - cbn [node_values r_raw]. rewrite Hr, is_raw_named by done. by destruct (input_named _ n).
Qed.

Lemma known_value t inputs node name :
  known_ref (input_names (tk_Inputs t)) name = true -> is_Some (value_of t inputs node name).
Proof.
  unfold known_ref, value_of. intros H.
  destruct (String.eqb_spec refNodeAddress name) as [|H1]; [eauto|].
  destruct (String.eqb_spec refNodeName name) as [|H2]; [eauto|].
  apply orb_true_iff in H as [[H|H%String.eqb_eq]%orb_true_iff|H%String.eqb_eq]; [|by subst..].
  apply bool_decide_eq_true in H. unfold input_names in H. apply elem_of_list_to_set, list_elem_of_In in H.
  apply in_map_iff in H as (i & <- & Hi). unfold input_named.
  destruct (find _ _) as [j|] eqn:E; [eauto|]. apply (find_none _ _ E) in Hi. by rewrite String.eqb_refl in Hi.
Qed.

(** ** The rendered steps *)

Definition fills (sub : string -> string) (s out : string) : Prop := filled sub (los s) (los out).

(** A packages list: names stay; an entry with references is cut at commas and
    blanks once filled. *)
Inductive items_filled (sub : string -> string) : list string -> list string -> Prop :=
| items_nil : items_filled sub [] []
| items_name it l out :
    hasRef it = false -> items_filled sub l out -> items_filled sub (it :: l) (it :: out)
| items_ref it v l out :
    hasRef it = true -> fills sub it v -> items_filled sub l out ->
    items_filled sub (it :: l) (fieldsFunc v is_list_sep ++ out).

Definition list_filled (sub : string -> string) (o o' : option (list string)) : Prop :=
  match o, o' with
  | None, None => True
  | Some l, Some l' => items_filled sub l l'
  | _, _ => False
  end.

(** [spec] is step [i] filled in: [plain] values everywhere but in a command,
    where the values are [quoted]. *)
Inductive step_rendered (task : string) (plain quoted : string -> string) (i : nat) : Step -> JobSpec -> Prop :=
| rendered_packages name coe p up ins rem :
    list_filled plain (pk_Upgrade p) up -> list_filled plain (pk_Install p) ins ->
    list_filled plain (pk_Remove p) rem ->
    step_rendered task plain quoted i (mkStep name coe StepPackages (Some p) None None None None None)
      (mkJobSpec "" "" task (Z.of_nat i) StepPackages false
        (Some (mkPackagesStep (pk_Update p) (pk_UpgradeAll p) up ins rem)) None None None None None)
| rendered_service name coe s n :
    fills plain (sv_Name s) n ->
    step_rendered task plain quoted i (mkStep name coe StepService None (Some s) None None None None)
      (mkJobSpec "" "" task (Z.of_nat i) StepService false None (Some (mkServiceStep n (sv_Action s))) None None None None)
| rendered_command name coe c run script :
    fills quoted (cm_Run c) run -> fills quoted (cm_Script c) script ->
    step_rendered task plain quoted i (mkStep name coe StepCommand None None (Some c) None None None)
      (mkJobSpec "" "" task (Z.of_nat i) StepCommand false None None (Some (mkCommandStep run script (cm_Timeout c))) None None None)
| rendered_file name coe f p c o :
    fills plain (fl_Path f) p -> fills plain (fl_Content f) c -> fills plain (fl_Owner f) o ->
    step_rendered task plain quoted i (mkStep name coe StepFile None None None (Some f) None None)
      (mkJobSpec "" "" task (Z.of_nat i) StepFile false None None None (Some (mkFileStep p c (fl_Mode f) o)) None None)
| rendered_stack name coe s n c :
    fills plain (st_Name s) n -> fills plain (st_Compose s) c ->
    step_rendered task plain quoted i (mkStep name coe StepStack None None None None (Some s) None)
      (mkJobSpec "" "" task (Z.of_nat i) StepStack false None None None None (Some (mkStackStep n c (st_Up s))) None)
| rendered_reboot name coe r :
    step_rendered task plain quoted i (mkStep name coe StepReboot None None None None None (Some r))
      (mkJobSpec "" "" task (Z.of_nat i) StepReboot false None None None None None (Some r)).

Lemma filled_ext sub sub' s out : (forall n, sub n = sub' n) -> filled sub s out -> filled sub' s out.
Proof. intros E. induction 1; [by constructor|]. rewrite E. by constructor. Qed.

Section Rendering.
Context (t : Task) (inputs : gmap string string) (node : NodeVars) (r : renderer).
Context (Hr : renders r t inputs node).
Let names := input_names (tk_Inputs t).
Let plain := plain_of t inputs node.
Let quoted := command_of t inputs node.

Lemma render_fill s quote err :
  refs_defined names s ->
  exists out, fill r s quote err = (out, err) /\ fills (if quote : bool then quoted else plain) s out.
Proof using Hr.
  intros HF. destruct (fill_filled r s quote err) as (out & E & Hf).
  { eapply Forall_impl; [exact HF|]. intros m Hm. rewrite (proj1 Hr). by apply known_value. }
  exists out. split; [done|]. eapply filled_ext; [|exact Hf]. intros n. unfold sub_of.
  rewrite (proj1 Hr), (proj2 Hr). destruct quote; [|done]. subst quoted. unfold command_of. simpl.
  by destruct (is_raw _ _).
Qed.

Lemma render_items l err :
  Forall (package_name_ok names) l ->
  exists out, packageNames_fill r l err = (out, err) /\ items_filled plain l out.
Proof using Hr.
  induction 1 as [|it l Hit _ (out & E & Ho)]; [exists []; split; [done|constructor]|].
  cbn [packageNames_fill]. unfold package_name_ok in Hit. destruct (hasRef it) eqn:Eit; simpl.
  - destruct (render_fill it false err Hit) as (v & Ev & Hv). rewrite Ev, E.
    eexists; split; [done|]. by constructor.
  - rewrite E. eexists; split; [done|]. by constructor.
Qed.

Lemma render_list o err :
  package_list_ok names o ->
  exists out, packageList r o err = (out, err) /\ list_filled plain o out.
Proof using Hr.
  destruct o as [l|]; [|by exists None]. intros [_ HF].
  destruct (render_items l err HF) as (out & E & Ho). exists (Some out). simpl. by rewrite E.
Qed.

Lemma render_step_ok i s q :
  step_ok names q s ->
  exists spec, render_step r t i s = Ok (spec, None) /\ step_rendered (tk_Name t) plain quoted i s spec.
Proof using Hr.
  destruct 1 as [? ? p Hp|? ? s [Hn _]|? ? c Hc|? ? f Hf|? ? s [Hn Hc]|? ? rb _]; unfold render_step; simpl.
  - destruct Hp as (_ & _ & _ & Hu & Hi & Hm).
    destruct (render_list _ None Hu) as (up & -> & Hup).
    destruct (render_list _ None Hi) as (ins & -> & Hins).
    destruct (render_list _ None Hm) as (rem & -> & Hrem).
    eexists; split; [done|]. by constructor.
  - destruct (render_fill _ false None Hn) as (n & -> & Hn'). eexists; split; [done|]. by constructor.
  - destruct Hc as (_ & _ & Hc1 & Hc2 & _).
    destruct (render_fill _ true None Hc1) as (run & -> & Hrun).
    destruct (render_fill _ true None Hc2) as (script & -> & Hscript).
    eexists; split; [done|]. by constructor.
  - destruct Hf as (_ & H1 & H2 & H3 & _).
    destruct (render_fill _ false None H1) as (p & -> & Hp).
    destruct (render_fill _ false None H2) as (c & -> & Hc).
    destruct (render_fill _ false None H3) as (o & -> & Ho).
    eexists; split; [done|]. by constructor.
  - destruct (render_fill _ false None Hn) as (n & -> & Hn').
    destruct (render_fill _ false None Hc) as (c & -> & Hc').
    eexists; split; [done|]. by constructor.
  - eexists; split; [done|]. by constructor.
Qed.

Lemma render_steps_ok i l q :
  Forall (step_ok names q) l ->
  exists specs, render_steps r t i l = Ok specs /\ length specs = length l /\
    forall k s, l !! k = Some s -> exists spec, specs !! k = Some spec /\
      step_rendered (tk_Name t) plain quoted (i + k) s spec.
Proof using Hr.
  intros HF. revert i. induction HF as [|s l Hs _ IH]; intros i; [by exists []|].
  destruct (render_step_ok i s q Hs) as (spec & E & Hspec). destruct (IH (S i)) as (specs & E' & Hlen & Hall).
  exists (spec :: specs). cbn [render_steps]. rewrite E. cbn [result_bind fst snd]. rewrite E'.
  split_and!; [done|simpl; by rewrite Hlen|]. intros [|k] s'; simpl.
  - intros [= <-]. rewrite Nat.add_0_r. eauto.
  - intros Hk. replace (i + S k)%nat with (S i + k)%nat by lia. by apply Hall.
Qed.
End Rendering.

(** C24: a well-formed task renders on a node unless a required input has no
    value, and then the error names the first one; each spec is its step with
    every reference, and only references, replaced: by the value, and in a
    command by the value as one shell word unless the input is raw. *)
Theorem Render_well_formed t inputs node :
  task_ok t ->
  match missing_input (tk_Inputs t) inputs with
  | Some name => Render t inputs node = Err (InputMissing name)
  | None => exists specs, Render t inputs node = Ok specs /\ length specs = length (tk_Steps t) /\
      forall i s, tk_Steps t !! i = Some s -> exists spec, specs !! i = Some spec /\
        step_rendered (tk_Name t) (plain_of t inputs node) (command_of t inputs node) i s spec
  end.
Proof.
  intros Ht. pose proof (render_inputs_spec (tk_Inputs t) inputs (mkRenderer ∅ ∅) (ok_inputs_nodup _ Ht)) as Hin.
  unfold Render. destruct (missing_input _ _) as [name|]; [by rewrite Hin|].
  destruct Hin as (r & -> & Hv & Hraw). cbn [result_bind].
  assert (Hr : renders (node_values r node) t inputs node).
  { apply node_values_renders; [apply Ht| |]; intros n; rewrite ?Hv, ?Hraw; cbn [r_values r_raw];
      rewrite lookup_empty; by destruct (input_named _ n). }
  destruct (render_steps_ok t inputs node _ Hr 0 (tk_Steps t) _ (ok_steps _ Ht)) as (specs & E & Hlen & Hall).
  exists specs. by rewrite E.
Qed.
