(* ===== verification/ClusterFSM.v ===== *)
(** * The replicated state machine (internal/cluster/types.go, raft_fsm.go)

    The records of a cluster, and the state machine every manager runs over
    the Raft log.  The
    JSON of [encoding/json] is the interface [Codec]; the clock and the log
    index are arguments; the callbacks [Apply] starts in goroutines are
    listed. *)

From S2P Require Import Prelude GoStrings GoTime.

(** ** Records *)

Definition RoleVoter : string := "voter".
Definition RoleNonVoter : string := "nonvoter".
Definition KindManager : string := "manager".
Definition KindAgent : string := "agent".
Definition StatusOnline : string := "online".
Definition StatusSuspect : string := "suspect".
Definition StatusOffline : string := "offline".
Definition StatusJoining : string := "joining".

Record Node : Type := mkNode {
  nd_ID : string;
  nd_Name : string;
  nd_APIAddress : string;
  nd_GRPCAddress : string;
  nd_Addresses : option (list string);
  nd_Role : string;
  nd_Kind : string;
  nd_Status : string;
  nd_Labels : option (gmap string string);
  nd_JoinedAt : Time;
  nd_LastSeen : Time;
}.

(** A record from before [Kind] existed carries none and is a manager. *)
Definition IsManager (n : Node) : bool := (nd_Kind n ==s "") || (nd_Kind n ==s KindManager).

Record AdminAccount : Type := mkAdminAccount {
  ac_Username : string;
  ac_Password : string;
  ac_TOTPSecret : string;
  ac_UpdatedAt : Z;
}.

Record ClusterState : Type := mkClusterState {
  cs_Name : string;
  cs_Nodes : gmap string Node;
  cs_Config : gmap string string;
  cs_Accounts : gmap string AdminAccount;
  cs_RecoveryCodes : gmap string (list string);
}.

Definition CmdAddNode : Z := 1.
Definition CmdRemoveNode : Z := 2.
Definition CmdUpdateNode : Z := 3.
Definition CmdSetConfig : Z := 4.
Definition CmdDeleteConfig : Z := 5.
Definition CmdSetAccount : Z := 6.
Definition CmdDeleteAccount : Z := 7.
Definition CmdDisband : Z := 8.
Definition CmdSetRecoveryCodes : Z := 9.

(** [Value] is raw JSON. *)
Record Command : Type := mkCommand { cmd_Type : Z; cmd_Key : string; cmd_Value : string }.

(** A snapshot as decoded: a map the document leaves out is nil. *)
Record Snapshot : Type := mkSnapshot {
  sn_Name : string;
  sn_Nodes : option (gmap string Node);
  sn_Config : option (gmap string string);
  sn_Accounts : option (gmap string AdminAccount);
  sn_RecoveryCodes : option (gmap string (list string));
}.

(** [json.Marshal] and [json.Unmarshal] of a type: [None] is an error. *)
Class Codec (A : Type) : Type := {
  json_marshal : A -> option string;
  json_unmarshal : string -> option A;
}.

(** ** The machine *)

Record FSM : Type := mkFSM {
  fsm_state : ClusterState;
  fsm_onDisband : bool;        (* whether the callbacks are registered *)
  fsm_onConfigChange : bool;
  fsm_replayUpTo : Z;          (* uint64 *)
}.

Definition NewFSM : FSM := mkFSM (mkClusterState "" ∅ ∅ ∅ ∅) false false 0.
Definition SetOnDisband (f : FSM) : FSM :=
  mkFSM (fsm_state f) true (fsm_onConfigChange f) (fsm_replayUpTo f).
Definition SetOnConfigChange (f : FSM) : FSM :=
  mkFSM (fsm_state f) (fsm_onDisband f) true (fsm_replayUpTo f).
Definition SetReplayThreshold (f : FSM) (idx : Z) : FSM :=
  mkFSM (fsm_state f) (fsm_onDisband f) (fsm_onConfigChange f) idx.

Definition with_state (f : FSM) (s : ClusterState) : FSM :=
  mkFSM s (fsm_onDisband f) (fsm_onConfigChange f) (fsm_replayUpTo f).

(** A callback run in a goroutine. *)
Inductive Callback : Type :=
| OnDisband (fromNodeID : string)
| OnConfigChange (key : string).

(** What [Apply] returns to the proposer. *)
Inductive ApplyError : Type :=
| ErrUnmarshalCommand
| ErrUnmarshalValue
| ErrUnknownCommand (t : Z).

Definition configChanged (f : FSM) (key : string) : list Callback :=
  if fsm_onConfigChange f then [OnConfigChange key] else [].

Definition set_nodes (s : ClusterState) (m : gmap string Node) : ClusterState :=
  mkClusterState (cs_Name s) m (cs_Config s) (cs_Accounts s) (cs_RecoveryCodes s).
Definition set_config (s : ClusterState) (m : gmap string string) : ClusterState :=
  mkClusterState (cs_Name s) (cs_Nodes s) m (cs_Accounts s) (cs_RecoveryCodes s).
Definition set_accounts (s : ClusterState) (m : gmap string AdminAccount) : ClusterState :=
  mkClusterState (cs_Name s) (cs_Nodes s) (cs_Config s) m (cs_RecoveryCodes s).
Definition set_recovery (s : ClusterState) (m : gmap string (list string)) : ClusterState :=
  mkClusterState (cs_Name s) (cs_Nodes s) (cs_Config s) (cs_Accounts s) m.

(** The fields of an update that are given, over the record there is. *)
Definition merge_node (existing update : Node) (now : Time) : Node :=
  let pick (u e : string) := if u ==s "" then e else u in
  mkNode (nd_ID existing) (nd_Name existing)
    (pick (nd_APIAddress update) (nd_APIAddress existing))
    (pick (nd_GRPCAddress update) (nd_GRPCAddress existing))
    (match nd_Addresses update with Some a => Some a | None => nd_Addresses existing end)
    (pick (nd_Role update) (nd_Role existing))
    (pick (nd_Kind update) (nd_Kind existing))
    (pick (nd_Status update) (nd_Status existing))
    (match nd_Labels update with Some l => Some l | None => nd_Labels existing end)
    (nd_JoinedAt existing)
    (if negb (IsZero (nd_LastSeen update)) then nd_LastSeen update
     else if (nd_Status update ==s StatusOnline) || (nd_Status update ==s "") then now
     else nd_LastSeen existing).

Section Machine.
Context `{Codec Command, Codec Node, Codec string, Codec AdminAccount, Codec (list string)}.

(** One command on the state: its answer, and the callbacks it starts. *)
Definition apply_command (f : FSM) (index : Z) (cmd : Command) (now : Time)
    : FSM * result ApplyError unit * list Callback :=
  let s := fsm_state f in
  let done s := (with_state f s, Ok tt, []) in
  let bad := (f, Err ErrUnmarshalValue, []) in
  if cmd_Type cmd =? CmdAddNode then
    match json_unmarshal (cmd_Value cmd) with
    | None => bad
    | Some node => done (set_nodes s (<[nd_ID node := node]> (cs_Nodes s)))
    end
  else if cmd_Type cmd =? CmdRemoveNode then
    done (set_nodes s (delete (cmd_Key cmd) (cs_Nodes s)))
  else if cmd_Type cmd =? CmdUpdateNode then
    match json_unmarshal (cmd_Value cmd) with
    | None => bad
    | Some update =>
        match cs_Nodes s !! nd_ID update with
        | None => done s
        | Some existing =>
            done (set_nodes s (<[nd_ID update := merge_node existing update now]> (cs_Nodes s)))
        end
    end
  else if cmd_Type cmd =? CmdSetConfig then
    match json_unmarshal (cmd_Value cmd) with
    | None => bad
    | Some val =>
        (with_state f (set_config s (<[cmd_Key cmd := val]> (cs_Config s))), Ok tt,
         configChanged f (cmd_Key cmd))
    end
  else if cmd_Type cmd =? CmdDeleteConfig then
    (with_state f (set_config s (delete (cmd_Key cmd) (cs_Config s))), Ok tt,
     configChanged f (cmd_Key cmd))
  else if cmd_Type cmd =? CmdSetAccount then
    match json_unmarshal (cmd_Value cmd) with
    | None => bad
    | Some acct => done (set_accounts s (<[ac_Username acct := acct]> (cs_Accounts s)))
    end
  else if cmd_Type cmd =? CmdDeleteAccount then
    done (set_accounts s (delete (cmd_Key cmd) (cs_Accounts s)))
  else if cmd_Type cmd =? CmdSetRecoveryCodes then
    match json_unmarshal (cmd_Value cmd) with
    | None => bad
    | Some codes =>
        done (set_recovery s
          (match codes with
           | [] => delete (cmd_Key cmd) (cs_RecoveryCodes s)
           | _ => <[cmd_Key cmd := codes]> (cs_RecoveryCodes s)
           end))
    end
  else if cmd_Type cmd =? CmdDisband then
    if (0 <? fsm_replayUpTo f) && (index <=? fsm_replayUpTo f) then (f, Ok tt, [])
    else (f, Ok tt, if fsm_onDisband f then [OnDisband (cmd_Key cmd)] else [])
  else (f, Err (ErrUnknownCommand (cmd_Type cmd)), []).

(** [Apply]: one entry of the log. *)
Definition Apply (f : FSM) (index : Z) (data : string) (now : Time)
    : FSM * result ApplyError unit * list Callback :=
  match json_unmarshal data with
  | None => (f, Err ErrUnmarshalCommand, [])
  | Some cmd => apply_command f index cmd now
  end.

(** The log applied in order, the clock read at each entry. *)
Fixpoint replay (f : FSM) (log : list (Z * string)) (clock : nat -> Time)
    : FSM * list (result ApplyError unit) * list Callback :=
  match log with
  | [] => (f, [], [])
  | (index, data) :: log =>
      let '(f, r, cbs) := Apply f index data (clock 0%nat) in
      let '(f, rs, cbs') := replay f log (fun n => clock (S n)) in
      (f, r :: rs, cbs ++ cbs')
  end.
End Machine.

Section Snapshots.
Context `{Codec Snapshot}.

Definition snapshot_of (s : ClusterState) : Snapshot :=
  mkSnapshot (cs_Name s) (Some (cs_Nodes s)) (Some (cs_Config s)) (Some (cs_Accounts s))
    (Some (cs_RecoveryCodes s)).

(** [Snapshot]: the bytes, or no snapshot when the state does not encode. *)
Definition TakeSnapshot (f : FSM) : option string := json_marshal (snapshot_of (fsm_state f)).

(** [Restore]: a map left out becomes an empty one. *)
Definition Restore (f : FSM) (data : string) : option (FSM * list Callback) :=
  match json_unmarshal data with
  | None => None
  | Some sn =>
      Some (with_state f (mkClusterState (sn_Name sn) (default ∅ (sn_Nodes sn)) (default ∅ (sn_Config sn))
              (default ∅ (sn_Accounts sn)) (default ∅ (sn_RecoveryCodes sn))),
            configChanged f "")
  end.
End Snapshots.

(** ** Reading *)

(** The copies share nothing the machine changes: the state itself. *)
Definition GetState (f : FSM) : ClusterState := fsm_state f.
Definition GetRecoveryCodes (f : FSM) (username : string) : option (list string) :=
  cs_RecoveryCodes (fsm_state f) !! username.
Definition GetNode (f : FSM) (id : string) : option Node := cs_Nodes (fsm_state f) !! id.
Definition GetConfigValue (f : FSM) (key : string) : option string := cs_Config (fsm_state f) !! key.
Definition ConfigWithPrefix (f : FSM) (prefix : string) : gmap string string :=
  filter (fun kv => hasPrefix kv.1 prefix = true) (cs_Config (fsm_state f)).
Definition GetAccount (f : FSM) (username : string) : option AdminAccount :=
  cs_Accounts (fsm_state f) !! username.

(** ** Addresses

    [net.SplitHostPort] (the host, or [None] for its error) and the canonical
    text of [net.ParseIP] ([None] for no IP) are parameters. *)
Section Addresses.
Variable SplitHostPort : string -> option string.
Variable ParseIP_String : string -> option string.

Fixpoint add_new (out l : list string) : list string :=
  match l with
  | [] => out
  | a :: l => add_new (if slices_contains out a then out else out ++ [a]) l
  end.

Definition AllAddresses (n : Node) : list string :=
  let first :=
    match SplitHostPort (nd_GRPCAddress n) with
    | Some host => if host ==s "" then [] else [default host (ParseIP_String host)]
    | None => []
    end in
  add_new first (default [] (nd_Addresses n)).
End Addresses.

(** ** Codecs for the examples

    A command or value whose text stands for itself, read back from a table. *)
Definition table_codec {A} `{EqDecision A} (l : list (string * A)) : Codec A := {|
  json_marshal a := fst <$> List.find (fun p => bool_decide (p.2 = a)) l;
  json_unmarshal s := snd <$> List.find (fun p => String.eqb p.1 s) l;
|}.

#[export] Instance Node_eq_dec : EqDecision Node.
Proof. solve_decision. Defined.
#[export] Instance AdminAccount_eq_dec : EqDecision AdminAccount.
Proof. solve_decision. Defined.
#[export] Instance ClusterState_eq_dec : EqDecision ClusterState.
Proof. solve_decision. Defined.
#[export] Instance Command_eq_dec : EqDecision Command.
Proof. solve_decision. Defined.
#[export] Instance Snapshot_eq_dec : EqDecision Snapshot.
Proof. solve_decision. Defined.
