(* ===== verification/ClusterFSMFacts.v ===== *)
(** * What the replicated state machine keeps

    Its maps stay keyed by their records, a command touches only what it
    names, replicas of one log agree, a snapshot restores the state, and a
    disband read back from an old log does nothing. *)

From S2P Require Import Prelude GoStrings GoTime ClusterFSM.

(** ** The state's invariant *)

Record state_ok (s : ClusterState) : Prop := {
  nodes_keyed : map_Forall (fun id n => nd_ID n = id) (cs_Nodes s);
  accounts_keyed : map_Forall (fun u a => ac_Username a = u) (cs_Accounts s);
  codes_left : map_Forall (fun _ l => l <> []) (cs_RecoveryCodes s);
}.

Section Machine.
Context `{Codec Command, Codec Node, Codec string, Codec AdminAccount, Codec (list string)}.

(** The cases of a command, one goal each. *)
Ltac command_cases :=
  unfold apply_command; cbv zeta;
  repeat match goal with
  | |- context [if ?t =? ?c then _ else _] => destruct (Z.eqb_spec t c)
  | |- context [match json_unmarshal ?v with _ => _ end] => destruct (json_unmarshal v) eqn:?
  | |- context [match cs_Nodes ?s !! ?i with _ => _ end] => destruct (cs_Nodes s !! i) eqn:?
  | |- context [if _ && _ then _ else _] => destruct (_ && _) eqn:?
  end; simpl in *.

Lemma apply_command_ok f index cmd now :
  state_ok (fsm_state f) -> state_ok (fsm_state (apply_command f index cmd now).1.1).
Proof.
  intros [Hn Ha Hc]. command_cases; split; simpl; try done;
    try (apply map_Forall_insert_2; done); try (by apply map_Forall_delete).
  - apply map_Forall_insert_2; [|done]. simpl. by apply (Hn _ _ Heqo0).
  - destruct l; [by apply map_Forall_delete|]. by apply map_Forall_insert_2.
Qed.

Lemma Apply_ok f index data now :
  state_ok (fsm_state f) -> state_ok (fsm_state (Apply f index data now).1.1).
Proof. unfold Apply. destruct (json_unmarshal data); [apply apply_command_ok|done]. Qed.

(** Whatever the log holds, every node and account stays filed under its
    own ID or name and no user is left with an empty list of codes. *)
Theorem replay_state_ok f log clock :
  state_ok (fsm_state f) -> state_ok (fsm_state (replay f log clock).1.1).
Proof.
  revert f clock. induction log as [|[index data] log IH]; intros f clock Hf; [done|]. cbn [replay].
  pose proof (Apply_ok f index data (clock 0%nat) Hf) as Hf'.
  destruct (Apply f index data (clock 0%nat)) as [[f1 r] cbs]. simpl in Hf'.
  specialize (IH f1 (fun n => clock (S n)) Hf').
  by destruct (replay f1 log _) as [[f2 rs] cbs'].
Qed.

(** ** Frames *)

(** Only the commands of a map change it, and only under their key. *)
Definition touches_node (cmd : Command) (id : string) : Prop :=
  (cmd_Type cmd = CmdRemoveNode /\ cmd_Key cmd = id) \/
  ((cmd_Type cmd = CmdAddNode \/ cmd_Type cmd = CmdUpdateNode) /\
   exists n : Node, json_unmarshal (cmd_Value cmd) = Some n /\ nd_ID n = id).
Definition touches_config (cmd : Command) (key : string) : Prop :=
  (cmd_Type cmd = CmdSetConfig \/ cmd_Type cmd = CmdDeleteConfig) /\ cmd_Key cmd = key.
Definition touches_account (cmd : Command) (u : string) : Prop :=
  (cmd_Type cmd = CmdDeleteAccount /\ cmd_Key cmd = u) \/
  (cmd_Type cmd = CmdSetAccount /\ exists a : AdminAccount, json_unmarshal (cmd_Value cmd) = Some a /\ ac_Username a = u).
Definition touches_codes (cmd : Command) (u : string) : Prop :=
  cmd_Type cmd = CmdSetRecoveryCodes /\ cmd_Key cmd = u.

Ltac frame_lookup :=
  rewrite ?lookup_insert_ne, ?lookup_delete_ne by (intros ?; subst; eauto 8); try done.

(** A command changes only the entries it names: a password change, say,
    never touches a user's recovery codes. *)
Theorem apply_command_frame f index cmd now :
  let s := fsm_state f in
  let s' := fsm_state (apply_command f index cmd now).1.1 in
  cs_Name s' = cs_Name s /\
  (forall id, ~ touches_node cmd id -> cs_Nodes s' !! id = cs_Nodes s !! id) /\
  (forall key, ~ touches_config cmd key -> cs_Config s' !! key = cs_Config s !! key) /\
  (forall u, ~ touches_account cmd u -> cs_Accounts s' !! u = cs_Accounts s !! u) /\
  (forall u, ~ touches_codes cmd u -> cs_RecoveryCodes s' !! u = cs_RecoveryCodes s !! u).
Proof.
  unfold touches_node, touches_config, touches_account, touches_codes.
  command_cases; split_and!; try done; intros k Hk; try frame_lookup.
  destruct l; frame_lookup.
Qed.

(** ** Replicas agree *)

(** A record but for when its node was last seen, which [Apply] may take
    from the local clock. *)
Definition unseen (n : Node) : Node :=
  mkNode (nd_ID n) (nd_Name n) (nd_APIAddress n) (nd_GRPCAddress n) (nd_Addresses n) (nd_Role n)
    (nd_Kind n) (nd_Status n) (nd_Labels n) (nd_JoinedAt n) 0.
Definition unseen_state (s : ClusterState) : ClusterState := set_nodes s (unseen <$> cs_Nodes s).

(** Two replicas alike: the same settings, and states that differ in last
    sightings alone. *)
Definition replica_eq (f g : FSM) : Prop :=
  unseen_state (fsm_state f) = unseen_state (fsm_state g) /\
  fsm_onDisband f = fsm_onDisband g /\ fsm_onConfigChange f = fsm_onConfigChange g /\
  fsm_replayUpTo f = fsm_replayUpTo g.

#[export] Instance replica_eq_equivalence : Equivalence replica_eq.
Proof.
  split; [by intros f|..].
  - by intros f g (? & ? & ? & ?).
  - intros f g h (? & ? & ? & ?) (? & ? & ? & ?). repeat split; congruence.
Qed.

Lemma merge_unseen e1 e2 u now1 now2 :
  unseen e1 = unseen e2 -> unseen (merge_node e1 u now1) = unseen (merge_node e2 u now2).
Proof.
  unfold unseen, merge_node. simpl. intros Hu. injection Hu as E1 E2 E3 E4 E5 E6 E7 E8 E9 E10.
  by rewrite E1, E2, E3, E4, E5, E6, E7, E8, E9, E10.
Qed.

Lemma unseen_lookup s1 s2 id :
  unseen_state s1 = unseen_state s2 ->
  unseen <$> cs_Nodes s1 !! id = unseen <$> cs_Nodes s2 !! id.
Proof. intros [=]. rewrite <-!lookup_fmap. congruence. Qed.

Lemma unseen_set s1 s2 m1 m2 :
  unseen_state s1 = unseen_state s2 -> unseen <$> m1 = unseen <$> m2 ->
  unseen_state (set_nodes s1 m1) = unseen_state (set_nodes s2 m2).
Proof. unfold unseen_state, set_nodes. simpl. intros [=] ?. congruence. Qed.

(** One entry, on two replicas alike, at any two times. *)
Lemma Apply_replica f g index data now1 now2 :
  replica_eq f g ->
  replica_eq (Apply f index data now1).1.1 (Apply g index data now2).1.1 /\
  (Apply f index data now1).1.2 = (Apply g index data now2).1.2 /\
  (Apply f index data now1).2 = (Apply g index data now2).2.
Proof.
  destruct f as [s d c r], g as [s' d' c' r']. intros (Hs & Hd & Hc & Hr). simpl in *. subst d' c' r'.
  assert (Hm : unseen <$> cs_Nodes s = unseen <$> cs_Nodes s') by (by injection Hs).
  unfold Apply. destruct (json_unmarshal data) as [cmd|]; [|done].
  assert (Hname : cs_Name s = cs_Name s' /\ cs_Config s = cs_Config s' /\ cs_Accounts s = cs_Accounts s' /\
    cs_RecoveryCodes s = cs_RecoveryCodes s') by (by injection Hs).
  destruct Hname as (Hn1 & Hn2 & Hn3 & Hn4).
  unfold apply_command; cbv zeta. cbn [fsm_state fsm_replayUpTo fsm_onDisband].
  destruct (_ =? CmdAddNode).
  { destruct (json_unmarshal _) as [n|]; [|done]. split; [|done]. split; [|done]. simpl.
    apply unseen_set; [done|]. by rewrite !fmap_insert, Hm. }
  destruct (_ =? CmdRemoveNode).
  { split; [|done]. split; [|done]. simpl. apply unseen_set; [done|]. by rewrite !fmap_delete, Hm. }
  destruct (_ =? CmdUpdateNode).
  { destruct (json_unmarshal _) as [n|]; [|done].
    pose proof (unseen_lookup _ _ (nd_ID n) Hs) as Hl.
    destruct (cs_Nodes s !! nd_ID n) as [e1|], (cs_Nodes s' !! nd_ID n) as [e2|]; try done.
    apply (inj Some) in Hl. split; [|done]. split; [|done]. simpl. apply unseen_set; [done|].
    by rewrite !fmap_insert, Hm, (merge_unseen e1 e2 n now1 now2 Hl). }
  unfold replica_eq, unseen_state, set_nodes, set_config, set_accounts, set_recovery, configChanged. simpl in *.
  rewrite Hn1, Hn2, Hn3, Hn4.
  repeat match goal with
  | |- context [if ?b then _ else _] => destruct b
  | |- context [match json_unmarshal ?v with _ => _ end] => destruct (json_unmarshal v)
  end; simpl; rewrite ?Hm, ?Hn1, ?Hn2, ?Hn3, ?Hn4; done.
Qed.

(** C29: managers that apply one log agree on everything but when nodes were
    last seen, whatever their clocks say: on the state, on every answer and
    on every callback. *)
Theorem replay_replicas f g log clock1 clock2 :
  replica_eq f g ->
  replica_eq (replay f log clock1).1.1 (replay g log clock2).1.1 /\
  (replay f log clock1).1.2 = (replay g log clock2).1.2 /\
  (replay f log clock1).2 = (replay g log clock2).2.
Proof.
  revert f g clock1 clock2. induction log as [|[index data] log IH]; intros f g clock1 clock2 Hfg; [done|].
  cbn [replay].
  pose proof (Apply_replica f g index data (clock1 0%nat) (clock2 0%nat) Hfg) as (Hfg' & Hr & Hc).
  destruct (Apply f index data _) as [[f1 r1] c1], (Apply g index data _) as [[g1 r2] c2]. simpl in *. subst.
  specialize (IH f1 g1 (fun n => clock1 (S n)) (fun n => clock2 (S n)) Hfg') as (Hs & Hrs & Hcs).
  destruct (replay f1 log _) as [[f2 rs1] cs1], (replay g1 log _) as [[g2 rs2] cs2]. simpl in *. by subst.
Qed.

(** ** Disband *)

(** The disband callback runs for a live disband of its initiator, when
    registered, and for nothing else: not for one read back from the log
    there was at the start, which also changes nothing. *)
Theorem Apply_disband f index data now from :
  OnDisband from ∈ (Apply f index data now).2 <->
  exists cmd, json_unmarshal data = Some cmd /\ cmd_Type cmd = CmdDisband /\ cmd_Key cmd = from /\
    fsm_onDisband f = true /\ (fsm_replayUpTo f <= 0 \/ fsm_replayUpTo f < index).
Proof.
  rewrite list_elem_of_In. unfold Apply. destruct (json_unmarshal data) as [cmd|].
  2: { split; [done|by intros (? & ? & _)]. }
  split.
  - command_cases; unfold configChanged; try (by intros []);
      try (destruct (fsm_onConfigChange f); simpl; [by intros [[=]|[]]|by intros []]).
    destruct (fsm_onDisband f) eqn:Ed; [|by intros []]. simpl. intros [[= <-]|[]]. exists cmd. split_and!; try done.
    apply andb_false_iff in Heqb as [?|?]; go_bools; auto.
  - intros (cmd' & [= <-] & Ht & <- & Hd & Hidx). unfold apply_command. rewrite Ht. simpl. rewrite Hd.
    destruct (Z.ltb_spec 0 (fsm_replayUpTo f)); [|by left].
    destruct (Z.leb_spec index (fsm_replayUpTo f)); [lia|by left].
Qed.
End Machine.

(** ** Snapshots *)

(** What JSON loses of a record: an empty list or map of an [omitempty] field
    reads back as none. *)
Definition omit_nil {A} (o : option (list A)) : option (list A) :=
  match o with Some [] => None | _ => o end.
Definition node_norm (n : Node) : Node :=
  mkNode (nd_ID n) (nd_Name n) (nd_APIAddress n) (nd_GRPCAddress n) (omit_nil (nd_Addresses n)) (nd_Role n)
    (nd_Kind n) (nd_Status n)
    (match nd_Labels n with Some m => if decide (m = ∅) then None else Some m | None => None end)
    (nd_JoinedAt n) (nd_LastSeen n).
Definition omit {A} (o : option (gmap string A)) : option (gmap string A) :=
  match o with Some m => if decide (size m = 0%nat) then None else Some m | None => None end.
Definition snapshot_norm (s : Snapshot) : Snapshot :=
  mkSnapshot (sn_Name s) ((fun m : gmap string Node => node_norm <$> m) <$> sn_Nodes s) (sn_Config s) (omit (sn_Accounts s))
    (omit (sn_RecoveryCodes s)).

(** [encoding/json] on the state: what was written reads back, but for empty
    [omitempty] fields. *)
Class SnapshotJSON `(C : Codec Snapshot) : Prop := {
  snapshot_reads_back : forall sn s, json_marshal sn = Some s -> json_unmarshal s = Some (snapshot_norm sn);
}.

Lemma omit_default {A} (m : gmap string A) :
  default ∅ (if decide (size m = 0%nat) then None else Some m) = m.
Proof. destruct (decide _) as [E|]; [|done]. simpl. symmetry. by apply map_size_empty_iff. Qed.

(** A snapshot restores what was snapshotted: the same name, settings,
    accounts and codes, and the nodes as JSON keeps them. *)
Theorem Restore_TakeSnapshot `{SnapshotJSON} f g data :
  TakeSnapshot f = Some data ->
  exists g', Restore g data = Some (g', configChanged g "") /\
    fsm_state g' = set_nodes (fsm_state f) (node_norm <$> cs_Nodes (fsm_state f)) /\
    fsm_replayUpTo g' = fsm_replayUpTo g.
Proof.
  intros Hs. apply snapshot_reads_back in Hs. unfold Restore. rewrite Hs. eexists. split; [done|].
  unfold snapshot_norm, snapshot_of, set_nodes. simpl. by rewrite !omit_default.
Qed.
