(* ===== verification/ClusterQuorum.v ===== *)
(** * Quorum guards and node labels (internal/cluster/quorum.go, labels.go) *)

From S2P Require Import Prelude GoStrings GoRegexp ClusterFSM.

(** ** A node leaving *)

(** The pure decision: the reason to refuse, or [None].  Both counts are over
    the voters but the one leaving. *)
Definition wouldDropBelowQuorumOnLeave (selfID : string) (voters : gmap string string) : option message :=
  let others := map_to_list (delete selfID voters) in
  let remaining := Z.of_nat (length others) in
  let healthyRemaining := Z.of_nat (length (filter (fun kv => kv.2 = StatusOnline) others)) in
  if remaining =? 0 then
    Some (Sprintf "no remaining voters; the last voter cannot leave (use disband instead)" [])
  else
    let quorum := remaining / 2 + 1 in
    if healthyRemaining <? quorum then
      Some (Sprintf "only %d of %d remaining voters reachable (need %d for quorum)"
        [FInt healthyRemaining; FInt remaining; FInt quorum])
    else None.

(** The voters and their statuses: by the live streams on the leader
    ([health] is set), by the records on a follower. *)
Definition voter_status (health : option (gmap string string)) (id : string) (node : Node) : string :=
  match health with
  | Some h => default StatusOffline (h !! id)
  | None => if nd_Status node ==s "" then StatusOffline else nd_Status node
  end.
Definition leave_voters (health : option (gmap string string)) (nodes : gmap string Node) : gmap string string :=
  map_imap (fun id node =>
    if negb (nd_Role node ==s RoleVoter) then None else Some (voter_status health id node)) nodes.

(** What the manager holds when it is asked; no Raft is [None]. *)
Record raft_view : Type := mkRaftView {
  rv_IsLeader : bool;
  rv_State : ClusterState;
  rv_LiveHealth : gmap string string;
  rv_Voters : option (list string);   (* the Raft configuration; [None] is an error *)
}.

Definition WouldDropBelowQuorumOnLeave (nodeID : string) (raft : option raft_view) : option message :=
  match raft with
  | None => None
  | Some rv =>
      let health := if rv_IsLeader rv then Some (rv_LiveHealth rv) else None in
      wouldDropBelowQuorumOnLeave nodeID (leave_voters health (cs_Nodes (rv_State rv)))
  end.

(** ** A voter removed *)

Definition wouldDropBelowQuorumOnRemove (targetID : string) (voters : Z) : option message :=
  if voters <=? 0 then None
  else
    let postRemoval := voters - 1 in
    let quorum := voters / 2 + 1 in
    if postRemoval <? quorum then
      Some (Sprintf "removing voter %q would drop the cluster below quorum (%d/%d voters; quorum %d)"
        [FStr targetID; FInt postRemoval; FInt voters; FInt quorum])
    else None.

Definition WouldDropBelowQuorumOnRemove (nodeID : string) (raft : option raft_view) : option message :=
  match raft with
  | None => None
  | Some rv =>
      match rv_Voters rv with
      | None => Some (Sprintf "the Raft configuration could not be read to count the voters: %v" [])
      | Some voters =>
          if negb (slices_contains voters nodeID) then None
          else wouldDropBelowQuorumOnRemove nodeID (Z.of_nat (length voters))
      end
  end.

(** ** Labels *)

Definition is_label_char (c : ascii) : bool :=
  is_alnum c || existsb (Ascii.eqb c) (list_ascii_of_string "._-").
Definition labelKeyRE : re := RCat (RClass is_alnum) (RStar (RClass is_label_char)).
Definition labelValueRE : re := RStar (RClass is_label_char).

(** The labels in the order the map is ranged over. *)
Fixpoint ValidateLabels_range (labels : list (string * string)) : option message :=
  match labels with
  | [] => None
  | (k, v) :: labels =>
      if (String.length k =? 0)%nat || (63 <? String.length k)%nat then
        Some (Sprintf "label key %q must be 1..63 chars" [FStr k])
      else if negb (matchString labelKeyRE k) then
        Some (Sprintf "label key %q has invalid characters (allowed: alnum + .-_)" [FStr k])
      else if (63 <? String.length v)%nat then
        Some (Sprintf "label value for %q exceeds 63 chars" [FStr k])
      else if negb (matchString labelValueRE v) then
        Some (Sprintf "label value for %q has invalid characters" [FStr k])
      else ValidateLabels_range labels
  end.

Definition ValidateLabels (order : list (string * string)) : option message :=
  if (32 <? length order)%nat then Some (Sprintf "too many labels (max 32)" [])
  else ValidateLabels_range order.

(** ** What the guards promise *)

(** A manager may leave only when a strict majority of the voters it
    leaves behind is online, as the leader's streams or a follower's records
    have it; the last voter never may. *)
Theorem leave_keeps_quorum nodeID rv :
  let health := if rv_IsLeader rv then Some (rv_LiveHealth rv) else None in
  let rest := delete nodeID (leave_voters health (cs_Nodes (rv_State rv))) in
  WouldDropBelowQuorumOnLeave nodeID (Some rv) = None <->
  (size rest < 2 * size (filter (fun kv => kv.2 = StatusOnline) rest))%nat.
Proof.
  intros health rest. unfold WouldDropBelowQuorumOnLeave, wouldDropBelowQuorumOnLeave.
  fold health. fold rest. cbv zeta. rewrite length_map_to_list.
  replace (length (filter (fun kv : string * string => kv.2 = StatusOnline) (map_to_list rest)))
    with (size (filter (fun kv : string * string => kv.2 = StatusOnline) rest)).
  2: { rewrite <-length_map_to_list. apply Permutation_length, map_to_list_filter_perm. }
  destruct (Z.eqb_spec (Z.of_nat (size rest)) 0) as [E|E].
  { split; [done|]. assert (size rest = 0%nat) as E0 by lia. apply map_size_empty_inv in E0.
    rewrite E0, map_filter_empty, map_size_empty. lia. }
  set (n := size rest) in *. set (h := size _).
  pose proof (Z.div_mod (Z.of_nat n) 2 ltac:(lia)). pose proof (Z.mod_pos_bound (Z.of_nat n) 2 ltac:(lia)).
  destruct (Z.ltb_spec (Z.of_nat h) (Z.of_nat n / 2 + 1)); split; try done; lia.
Qed.

(** Removing a node is refused exactly when the Raft configuration cannot
    be read, or holds the node as one of at most two voters; a node it holds
    as no voter may always go. *)
Theorem remove_refused nodeID rv :
  WouldDropBelowQuorumOnRemove nodeID (Some rv) <> None <->
  match rv_Voters rv with
  | None => True
  | Some voters => nodeID ∈ voters /\ (length voters <= 2)%nat
  end.
Proof.
  unfold WouldDropBelowQuorumOnRemove. destruct (rv_Voters rv) as [voters|]; [|done].
  destruct (slices_contains voters nodeID) eqn:E; simpl.
  - apply slices_contains_spec in E. unfold wouldDropBelowQuorumOnRemove.
    assert (0 < length voters)%nat by (destruct voters; [by apply elem_of_nil in E|simpl; lia]).
    set (n := Z.of_nat (length voters)) in *.
    pose proof (Z.div_mod n 2 ltac:(lia)). pose proof (Z.mod_pos_bound n 2 ltac:(lia)).
    destruct (Z.leb_spec n 0); [lia|]. cbv zeta.
    destruct (Z.ltb_spec (n - 1) (n / 2 + 1)).
    + split; [|done]. intros _. split; [done|]. lia.
    + split; [done|]. intros [_ ?]. lia.
  - apply slices_contains_false in E. split; [done|]. by intros [? _].
Qed.

(** A label the schema takes. *)
Definition label_ok (kv : string * string) : Prop :=
  (1 <= String.length kv.1 <= 63)%nat /\ (String.length kv.2 <= 63)%nat /\
  (exists c s, kv.1 = String c s /\ is_alnum c = true) /\
  Forall (fun c => is_label_char c = true) (list_ascii_of_string kv.1) /\
  Forall (fun c => is_label_char c = true) (list_ascii_of_string kv.2).

Lemma alnum_label c : is_alnum c = true -> is_label_char c = true.
Proof. unfold is_label_char. by intros ->. Qed.

Lemma labelKeyRE_spec k :
  matchString labelKeyRE k = true <->
  (exists c s, k = String c s /\ is_alnum c = true) /\ Forall (fun c => is_label_char c = true) (list_ascii_of_string k).
Proof.
  unfold matchString. rewrite re_match_spec. unfold labelKeyRE. rewrite in_re_cat. split.
  - intros (a & b & E & (c & -> & Hc)%in_re_class & Hb%in_star_class).
    destruct k as [|c' k]; [done|]. injection E as -> E. split; [by eauto|].
    simpl. rewrite E. constructor; [by apply alnum_label|done].
  - intros [(c & s & -> & Hc) HF]. exists [c], (list_ascii_of_string s). split; [done|]. split.
    + apply in_re_class. eauto.
    + apply in_star_class. by inversion HF.
Qed.

Lemma labelValueRE_spec v :
  matchString labelValueRE v = true <-> Forall (fun c => is_label_char c = true) (list_ascii_of_string v).
Proof. unfold matchString. rewrite re_match_spec. apply in_star_class. Qed.

Lemma ValidateLabels_range_spec l : ValidateLabels_range l = None <-> Forall label_ok l.
Proof.
  induction l as [|[k v] l IH]; [done|]. cbn [ValidateLabels_range]. rewrite Forall_cons, <-IH.
  unfold label_ok at 1. cbn [fst snd]. rewrite <-(labelValueRE_spec v).
  pose proof (labelKeyRE_spec k) as Hk.
  destruct (Nat.eqb_spec (String.length k) 0); cbn [orb]; [split; [done|intros [[? _] _]; lia]|].
  destruct (Nat.ltb_spec 63 (String.length k)); cbn [orb]; [split; [done|intros [[? _] _]; lia]|].
  destruct (matchString labelKeyRE k); cbn [negb].
  2: { split; [done|]. intros [(_ & _ & H1 & H2 & _) _]. discriminate (proj2 Hk (conj H1 H2)). }
  destruct (proj1 Hk eq_refl) as [Hk1 Hk2].
  destruct (Nat.ltb_spec 63 (String.length v)); [split; [done|intros [(_ & ? & _) _]; lia]|].
  destruct (matchString labelValueRE v); cbn [negb].
  - split; [intros ?; split; [|done]|by intros [_ ?]]. split_and!; try done; lia.
  - split; [done|]. by intros [(_ & _ & _ & _ & ?) _].
Qed.

(** Labels pass when there are at most 32 and each key and value keeps to
    the schema, in whatever order the map is ranged over. *)
Theorem ValidateLabels_spec (m : gmap string string) order :
  order ≡ₚ map_to_list m ->
  ValidateLabels order = None <-> (size m <= 32)%nat /\ map_Forall (fun k v => label_ok (k, v)) m.
Proof.
  intros Hp. unfold ValidateLabels. rewrite (Permutation_length Hp), length_map_to_list.
  rewrite map_Forall_to_list. destruct (Nat.ltb_spec 32 (size m)); [split; [done|intros [? _]; lia]|].
  rewrite ValidateLabels_range_spec, Hp. split.
  - intros HF. split; [done|]. eapply Forall_impl; [exact HF|]. by intros [k v].
  - intros [_ HF]. eapply Forall_impl; [exact HF|]. by intros [k v].
Qed.
