(* ===== verification/ClusterTokens.v ===== *)
(** * Join tokens (internal/cluster/token.go)

    The manager of single-use join tokens, with its file.  The HMAC of
    [crypto/hmac] is a parameter, the random bytes, the clock and whether a
    write of the file succeeds are arguments; a map is ranged over in an order
    given. *)

From S2P Require Import Prelude GoStrings GoTime TaskRefs ClusterFSM.

Record JoinToken : Type := mkJoinToken {
  jt_Token : string;
  jt_ExpiresAt : Time;
  jt_Used : bool;
  jt_CreatedBy : string;
  jt_Kind : string;
  jt_NodeID : string;
  jt_IP : string;
}.

Definition EffectiveKind (jt : JoinToken) : string :=
  if jt_Kind jt ==s "" then KindManager else jt_Kind jt.

Definition set_used (jt : JoinToken) (b : bool) : JoinToken :=
  mkJoinToken (jt_Token jt) (jt_ExpiresAt jt) b (jt_CreatedBy jt) (jt_Kind jt) (jt_NodeID jt) (jt_IP jt).

(** The state of a manager; [tm_file] is its file as last written. *)
Record TokenManager : Type := mkTokenManager {
  tm_tokens : gmap string JoinToken;
  tm_secret : string;
  tm_path : string;
  tm_file : option (string * gmap string JoinToken);
}.

Definition set_tokens (tm : TokenManager) (m : gmap string JoinToken) : TokenManager :=
  mkTokenManager m (tm_secret tm) (tm_path tm) (tm_file tm).

Inductive TokenError : Type :=
| ErrTokenNotFound
| ErrTokenExpired
| ErrTokenUsed
| ErrTokenKind
| ErrPersist.
#[export] Instance TokenError_eq_dec : EqDecision TokenError.
Proof. solve_decision. Defined.
#[export] Instance JoinToken_eq_dec : EqDecision JoinToken.
Proof. solve_decision. Defined.

(** ** Hexadecimal *)

Definition hex_digit (n : nat) : ascii :=
  if (n <? 10)%nat then ascii_of_nat (48 + n) else ascii_of_nat (87 + n).
Fixpoint hex_EncodeToString (s : string) : string :=
  match s with
  | EmptyString => ""
  | String c s =>
      let n := nat_of_ascii c in
      String (hex_digit (n / 16)) (String (hex_digit (n mod 16)) (hex_EncodeToString s))
  end.
Definition unhex_digit (c : ascii) : option nat :=
  let n := nat_of_ascii c in
  if is_digit c then Some (n - 48)%nat
  else if byte_in c "a" "f" then Some (n - 87)%nat
  else if byte_in c "A" "F" then Some (n - 55)%nat
  else None.
Fixpoint hex_DecodeString (s : string) : option string :=
  match s with
  | EmptyString => Some ""
  | String a (String b s) =>
      match unhex_digit a, unhex_digit b, hex_DecodeString s with
      | Some x, Some y, Some r => Some (String (ascii_of_nat (16 * x + y)) r)
      | _, _, _ => None
      end
  | _ => None
  end.

(** ** The file *)

(** [saveLocked]: whether the write succeeds is [ok]; a manager in memory only
    has nothing to write. *)
Definition saveLocked (tm : TokenManager) (ok : bool) : TokenManager * bool :=
  if tm_path tm ==s "" then (tm, true)
  else if ok then
    (mkTokenManager (tm_tokens tm) (tm_secret tm) (tm_path tm) (Some (tm_secret tm, tm_tokens tm)), true)
  else (tm, false).

(** [time.After]. *)
Definition After (t u : Time) : bool := u <? t.

Definition cleanupLocked (tm : TokenManager) (now : Time) : TokenManager :=
  set_tokens tm
    (filter (fun kv => (After now (jt_ExpiresAt kv.2) || jt_Used kv.2) = false) (tm_tokens tm)).

Definition NewTokenManager (random : string) : TokenManager := mkTokenManager ∅ random "" None.

(** [NewPersistedTokenManager] on a file that reads and decodes ([Some]) or is
    not there ([None]). *)
Definition NewPersistedTokenManager (path : string) (file : option (string * gmap string JoinToken))
    (random : string) (now : Time) (ok : bool) : option TokenManager :=
  match file with
  | Some (secret, tokens) =>
      if negb (String.length secret =? 32)%nat then None
      else Some (cleanupLocked (mkTokenManager tokens secret path file) now)
  | None =>
      let '(tm, saved) := saveLocked (mkTokenManager ∅ random path None) ok in
      if saved then Some tm else None
  end.

Section Tokens.
(** HMAC-SHA256 of a key and a message. *)
Variable hmac : string -> string -> string.

Definition mint (secret raw : string) : string :=
  hex_EncodeToString raw +:+ "." +:+ hex_EncodeToString (hmac secret raw).

Definition verifyHMAC (tm : TokenManager) (token : string) : bool :=
  match splitByteN 2 token "." with
  | [a; b] =>
      match hex_DecodeString a, hex_DecodeString b with
      | Some raw, Some mac => mac ==s hmac (tm_secret tm) raw
      | _, _ => false
      end
  | _ => false
  end.

Definition CreateFor (tm : TokenManager) (ttl : Duration) (createdBy kind nodeID ip : string)
    (raw : string) (now now' : Time) (ok : bool) : TokenManager * result TokenError JoinToken :=
  let token := mint (tm_secret tm) raw in
  let kind := if kind ==s "" then KindManager else kind in
  let jt := mkJoinToken token (now + ttl) false createdBy kind nodeID ip in
  let tm := set_tokens tm (<[token := jt]> (tm_tokens tm)) in
  let tm := cleanupLocked tm now' in
  let '(tm, saved) := saveLocked tm ok in
  if saved then (tm, Ok jt)
  else (set_tokens tm (delete token (tm_tokens tm)), Err ErrPersist).

Definition Create (tm : TokenManager) (ttl : Duration) (createdBy kind raw : string)
    (now now' : Time) (ok : bool) : TokenManager * result TokenError JoinToken :=
  CreateFor tm ttl createdBy kind "" "" raw now now' ok.

Definition tokenFingerprint (token : string) : string :=
  let raw :=
    match indexByte token "." with
    | Some (S _ as i) => stake i token
    | _ => token
    end in
  if (12 <? String.length raw)%nat then stake 12 raw else raw.

Definition maskToken (token : string) : string :=
  if (String.length token <=? 12)%nat then token
  else stake 6 token +:+ "…" +:+ sdrop (String.length token - 4) token.

Record TokenInfo : Type := mkTokenInfo {
  ti_ID : string; ti_Masked : string; ti_ExpiresAt : Time; ti_CreatedBy : string; ti_Kind : string;
}.

(** [List], the map ranged over in [order]. *)
Definition List_ (tm : TokenManager) (order : list string) (now : Time) : TokenManager * list TokenInfo :=
  let tm := cleanupLocked tm now in
  (tm, omap (fun k =>
    (fun t => mkTokenInfo (tokenFingerprint (jt_Token t)) (maskToken (jt_Token t)) (jt_ExpiresAt t)
      (jt_CreatedBy t) (EffectiveKind t)) <$> tm_tokens tm !! k) order).

(** [Revoke]: the first match in [order]. *)
Fixpoint Revoke (tm : TokenManager) (id : string) (order : list string) (ok : bool)
    : TokenManager * option TokenError :=
  match order with
  | [] => (tm, Some ErrTokenNotFound)
  | k :: order =>
      match tm_tokens tm !! k with
      | None => Revoke tm id order ok
      | Some t =>
          if tokenFingerprint (jt_Token t) ==s id then
            let tm := set_tokens tm (delete k (tm_tokens tm)) in
            let '(tm, saved) := saveLocked tm ok in
            if saved then (tm, None)
            else (set_tokens tm (<[k := t]> (tm_tokens tm)), Some ErrPersist)
          else Revoke tm id order ok
      end
  end.

Definition Peek (tm : TokenManager) (token : string) (now : Time) : result TokenError JoinToken :=
  if negb (verifyHMAC tm token) then Err ErrTokenNotFound
  else
    match tm_tokens tm !! token with
    | None => Err ErrTokenNotFound
    | Some jt =>
        if jt_Used jt then Err ErrTokenUsed
        else if After now (jt_ExpiresAt jt) then Err ErrTokenExpired
        else Ok jt
    end.

Definition Validate (tm : TokenManager) (token kind : string) (now : Time) (ok : bool)
    : TokenManager * result TokenError JoinToken :=
  if negb (verifyHMAC tm token) then (tm, Err ErrTokenNotFound)
  else
    match tm_tokens tm !! token with
    | None => (tm, Err ErrTokenNotFound)
    | Some jt =>
        if jt_Used jt then (tm, Err ErrTokenUsed)
        else if After now (jt_ExpiresAt jt) then
          let tm := set_tokens tm (delete token (tm_tokens tm)) in
          ((saveLocked tm ok).1, Err ErrTokenExpired)
        else if negb (EffectiveKind jt ==s kind) then (tm, Err ErrTokenKind)
        else
          let used := set_used jt true in
          let tm := set_tokens tm (<[token := used]> (tm_tokens tm)) in
          let '(tm, saved) := saveLocked tm ok in
          if saved then (tm, Ok used)
          else (set_tokens tm (<[token := set_used jt false]> (tm_tokens tm)), Err ErrPersist)
    end.

Definition Restore (tm : TokenManager) (jt : JoinToken) (ok : bool) : TokenManager :=
  let cp := set_used jt false in
  (saveLocked (set_tokens tm (<[jt_Token cp := cp]> (tm_tokens tm))) ok).1.

(** ** Histories *)

(** What happens to a manager: its methods, and a restart of its process,
    which loads the file. *)
Inductive token_op : Type :=
| OpCreate (ttl : Duration) (by_ kind nodeID ip raw : string) (now now' : Time) (ok : bool)
| OpPeek (token : string) (now : Time)
| OpValidate (token kind : string) (now : Time) (ok : bool)
| OpList (order : list string) (now : Time)
| OpRevoke (id : string) (order : list string) (ok : bool)
| OpRestore (jt : JoinToken) (ok : bool)
| OpRestart (random : string) (now : Time) (ok : bool).

(** A restart of a manager in memory, or one that fails to load, ends it. *)
Definition token_step (tm : TokenManager) (op : token_op) : option TokenManager :=
  match op with
  | OpCreate ttl by_ kind nodeID ip raw now now' ok =>
      Some (CreateFor tm ttl by_ kind nodeID ip raw now now' ok).1
  | OpPeek _ _ => Some tm
  | OpValidate token kind now ok => Some (Validate tm token kind now ok).1
  | OpList order now => Some (List_ tm order now).1
  | OpRevoke id order ok => Some (Revoke tm id order ok).1
  | OpRestore jt ok => Some (Restore tm jt ok)
  | OpRestart random now ok =>
      if tm_path tm ==s "" then None
      else NewPersistedTokenManager (tm_path tm) (tm_file tm) random now ok
  end.

Fixpoint token_run (tm : TokenManager) (ops : list token_op) : option TokenManager :=
  match ops with
  | [] => Some tm
  | op :: ops =>
      match token_step tm op with
      | Some tm => token_run tm ops
      | None => None
      end
  end.
End Tokens.

(** ** What join tokens promise

    A minted token verifies until it expires; one that was used never admits
    again, whatever happens in between, restarts included; a refusal for the
    kind costs nothing. *)

(** ** Hexadecimal *)

(** The two digits of a byte. *)
Definition hex_good (c : ascii) : bool :=
  let hi := hex_digit (nat_of_ascii c / 16) in
  let lo := hex_digit (nat_of_ascii c mod 16) in
  match unhex_digit hi, unhex_digit lo with
  | Some x, Some y => Ascii.eqb (ascii_of_nat (16 * x + y)) c
  | _, _ => false
  end && negb (Ascii.eqb hi "." || Ascii.eqb lo ".").

Lemma hex_byte c : hex_good c = true.
Proof. revert c. apply ascii_forall. by vm_compute. Qed.

Lemma hex_roundtrip s : hex_DecodeString (hex_EncodeToString s) = Some s.
Proof.
  induction s as [|c s IH]; [done|]. cbn [hex_EncodeToString hex_DecodeString]. rewrite IH.
  pose proof (hex_byte c) as H. unfold hex_good in H. apply andb_true_iff in H as [H _].
  destruct (unhex_digit _); [|done]. destruct (unhex_digit _); [|done].
  by apply Ascii.eqb_eq in H as ->.
Qed.

Lemma hex_no_dot s : indexByte (hex_EncodeToString s) "." = None.
Proof.
  induction s as [|c s IH]; [done|]. cbn [hex_EncodeToString indexByte].
  pose proof (hex_byte c) as H. unfold hex_good in H. apply andb_true_iff in H as [_ H].
  apply negb_true_iff, orb_false_iff in H as [H1 H2]. by rewrite H1, H2, IH.
Qed.

Lemma hex_split s t : splitByteN 2 (hex_EncodeToString s +:+ "." +:+ t) "." = [hex_EncodeToString s; t].
Proof.
  change ("." +:+ t) with (String "." t). cbn [splitByteN].
  rewrite (indexByte_app_None _ _ _ (hex_no_dot s)). f_equal; [apply stake_app|]. f_equal.
  replace (hex_EncodeToString s +:+ String "." t) with ((hex_EncodeToString s +:+ ".") +:+ t)
    by (by rewrite sapp_assoc).
  replace (S (String.length (hex_EncodeToString s))) with (String.length (hex_EncodeToString s +:+ "."))
    by (rewrite slength_app; simpl; lia).
  apply sdrop_app.
Qed.

Section Tokens.
Variable hmac : string -> string -> string.

Lemma mint_verifies tm raw : verifyHMAC hmac tm (mint hmac (tm_secret tm) raw) = true.
Proof. unfold verifyHMAC, mint. rewrite hex_split, !hex_roundtrip. apply String.eqb_refl. Qed.

Lemma saveLocked_state tm ok :
  tm_tokens (saveLocked tm ok).1 = tm_tokens tm /\ tm_secret (saveLocked tm ok).1 = tm_secret tm /\
  tm_path (saveLocked tm ok).1 = tm_path tm.
Proof. unfold saveLocked. destruct (_ ==s _); [done|]. by destruct ok. Qed.

Lemma verifyHMAC_secret tm tm' token :
  tm_secret tm = tm_secret tm' -> verifyHMAC hmac tm token = verifyHMAC hmac tm' token.
Proof. unfold verifyHMAC. by intros ->. Qed.

(** A token minted and saved admits a node of its kind until it expires
    and only that: another kind is refused and the token left as it was. *)
Theorem CreateFor_Validate tm ttl by_ kind nodeID ip raw now now' ok tm1 jt later kind' :
  CreateFor hmac tm ttl by_ kind nodeID ip raw now now' ok = (tm1, Ok jt) ->
  now' <= now + ttl -> later <= now + ttl ->
  EffectiveKind jt = (if kind ==s "" then KindManager else kind) /\
  (EffectiveKind jt <> kind' -> Validate hmac tm1 (jt_Token jt) kind' later true = (tm1, Err ErrTokenKind)) /\
  (EffectiveKind jt = kind' -> (Validate hmac tm1 (jt_Token jt) kind' later true).2 = Ok (set_used jt true)).
Proof.
  unfold CreateFor. set (token := mint hmac (tm_secret tm) raw).
  set (j := mkJoinToken _ _ _ _ _ _ _). set (tm0 := cleanupLocked _ _). intros H Hn' Hl.
  pose proof (saveLocked_state tm0 ok) as (Ht & Hs & _).
  destruct (saveLocked tm0 ok) as [tm2 saved]. simpl in *. destruct saved; [|done].
  injection H as <- <-.
  assert (Hj : tm_tokens tm2 !! token = Some j).
  { rewrite Ht. apply map_lookup_filter_Some. cbn [fst snd set_tokens tm_tokens]. rewrite lookup_insert_eq.
    split; [done|]. unfold After. simpl. rewrite orb_false_r. apply Z.ltb_ge. lia. }
  assert (Hv : verifyHMAC hmac tm2 token = true).
  { rewrite (verifyHMAC_secret _ tm) by exact Hs. apply mint_verifies. }
  split.
  { unfold EffectiveKind. simpl. destruct (String.eqb_spec kind "") as [->|Hk%String.eqb_neq]; [done|]. by rewrite Hk. }
  unfold Validate. simpl jt_Token. rewrite Hv, Hj. cbn [negb]. subst j. cbn [jt_Used jt_ExpiresAt].
  unfold After. destruct (Z.ltb_spec (now + ttl) later); [lia|]. set (j := mkJoinToken _ _ _ _ _ _ _) in *. split.
  - intros Hk. apply String.eqb_neq in Hk. by rewrite Hk.
  - intros <-. rewrite String.eqb_refl. cbn [negb].
    unfold saveLocked. cbn [set_tokens tm_path]. by destruct (tm_path tm2 ==s "").
Qed.

(** ** A used token stays used *)

Definition spent_in (token : string) (m : gmap string JoinToken) : Prop :=
  match m !! token with Some jt => jt_Used jt = true | None => True end.

(** In memory, and in the file a restart would load. *)
Record spent (secret token : string) (tm : TokenManager) : Prop := {
  spent_memory : spent_in token (tm_tokens tm);
  spent_secret : tm_secret tm = secret;
  spent_file : tm_path tm <> "" -> exists m, tm_file tm = Some (secret, m) /\ spent_in token m;
}.

(** What puts a token back: [Restore] of it, or minting it again. *)
Definition puts_back (secret token : string) (op : token_op) : Prop :=
  match op with
  | OpRestore jt _ => jt_Token jt = token
  | OpCreate _ _ _ _ _ raw _ _ _ => mint hmac secret raw = token
  | _ => False
  end.

Lemma spent_filter token P `{!forall kv, Decision (P kv)} m : spent_in token m -> spent_in token (filter P m).
Proof.
  unfold spent_in. destruct (filter P m !! token) as [jt|] eqn:E; [|done].
  apply map_lookup_filter_Some in E as [-> _]. done.
Qed.
Lemma spent_insert token k jt m : (k = token -> jt_Used jt = true) -> spent_in token m -> spent_in token (<[k := jt]> m).
Proof.
  unfold spent_in. intros Hk Hm. destruct (decide (k = token)) as [->|Hne].
  - rewrite lookup_insert_eq. auto.
  - by rewrite lookup_insert_ne.
Qed.
Lemma spent_delete token k m : spent_in token m -> spent_in token (delete k m).
Proof.
  unfold spent_in. intros Hm. destruct (decide (k = token)) as [->|Hne].
  - by rewrite lookup_delete_eq.
  - by rewrite lookup_delete_ne.
Qed.
#[local] Hint Resolve spent_filter spent_insert spent_delete : core.

Lemma spent_set secret token tm m : spent secret token tm -> spent_in token m -> spent secret token (set_tokens tm m).
Proof. intros [H1 H2 H3] Hm. by split. Qed.

Lemma spent_save secret token tm ok : spent secret token tm -> spent secret token (saveLocked tm ok).1.
Proof.
  intros [H1 H2 H3]. unfold saveLocked. destruct (_ ==s _); [done|]. destruct ok; [|done].
  split; [done..|]. intros _. simpl. eexists. split; [by rewrite H2|done].
Qed.

Lemma spent_cleanup secret token tm now : spent secret token tm -> spent secret token (cleanupLocked tm now).
Proof. intros H. apply spent_set; [done|]. apply spent_filter, H. Qed.
#[local] Hint Resolve spent_set spent_save spent_cleanup spent_memory : core.

Lemma spent_create secret token tm ttl by_ kind nodeID ip raw now now' ok :
  spent secret token tm -> mint hmac secret raw <> token ->
  spent secret token (CreateFor hmac tm ttl by_ kind nodeID ip raw now now' ok).1.
Proof.
  intros Hs Hne. unfold CreateFor. rewrite (spent_secret _ _ _ Hs). set (tm0 := cleanupLocked _ _).
  assert (H0 : spent secret token tm0) by (apply spent_cleanup, spent_set; [done|apply spent_insert; [done|apply Hs]]).
  pose proof (spent_save _ _ _ ok H0) as H1. destruct (saveLocked tm0 ok) as [tm2 []]; simpl in *; [done|].
  apply spent_set; [done|]. apply spent_delete, H1.
Qed.

Lemma spent_validate secret token tm token' kind now ok :
  spent secret token tm -> spent secret token (Validate hmac tm token' kind now ok).1.
Proof.
  intros Hs. unfold Validate. destruct (negb _); [done|].
  destruct (tm_tokens tm !! token') as [jt|] eqn:E; [|done].
  destruct (jt_Used jt) eqn:Eu; [done|]. destruct (After _ _).
  { apply spent_save, spent_set; [done|]. apply spent_delete, Hs. }
  destruct (negb _); [done|].
  assert (Hne : token' <> token).
  { intros ->. pose proof (spent_memory _ _ _ Hs) as Hm. unfold spent_in in Hm. rewrite E in Hm. congruence. }
  set (tm0 := set_tokens tm _).
  assert (H0 : spent secret token tm0) by (apply spent_set; [done|apply spent_insert; [done|apply Hs]]).
  pose proof (spent_save _ _ _ ok H0) as H1. destruct (saveLocked tm0 ok) as [tm2 []]; simpl in *; [done|].
  apply spent_set; [done|]. apply spent_insert; [done|apply H1].
Qed.

Lemma spent_revoke secret token tm id order ok :
  spent secret token tm -> spent secret token (Revoke tm id order ok).1.
Proof.
  intros Hs. induction order as [|k order IH]; [done|]. cbn [Revoke].
  destruct (tm_tokens tm !! k) as [t|] eqn:E; [|done]. destruct (_ ==s id); [|done].
  set (tm0 := set_tokens tm _).
  assert (H0 : spent secret token tm0) by (apply spent_set; [done|apply spent_delete, Hs]).
  pose proof (spent_save _ _ _ ok H0) as H1. destruct (saveLocked tm0 ok) as [tm2 []]; simpl in *; [done|].
  apply spent_set; [done|]. apply spent_insert; [|apply H1]. intros ->.
  pose proof (spent_memory _ _ _ Hs) as Hm. unfold spent_in in Hm. by rewrite E in Hm.
Qed.

Lemma spent_step secret token tm op tm' :
  spent secret token tm -> ~ puts_back secret token op -> token_step hmac tm op = Some tm' ->
  spent secret token tm'.
Proof.
  intros Hs Hp. destruct op; simpl in *; try (intros [= <-]).
  - by apply spent_create.
  - done.
  - by apply spent_validate.
  - by apply spent_cleanup.
  - by apply spent_revoke.
  - apply spent_save, spent_set; [done|]. apply spent_insert; [done|apply Hs].
  - destruct (String.eqb_spec (tm_path tm) "") as [|Hpath]; [done|].
    destruct (spent_file _ _ _ Hs Hpath) as (m & -> & Hm). unfold NewPersistedTokenManager.
    destruct (negb _); [done|]. intros [= <-]. apply spent_cleanup. split; [done..|]. simpl. eauto.
Qed.

Lemma spent_run secret token tm ops tm' :
  spent secret token tm -> Forall (fun op => ~ puts_back secret token op) ops ->
  token_run hmac tm ops = Some tm' -> spent secret token tm'.
Proof.
  intros Hs HF. revert tm Hs. induction HF as [|op ops Hop _ IH]; intros tm Hs; cbn [token_run]; [by intros [= <-]|].
  destruct (token_step hmac tm op) as [tm1|] eqn:E; [|done]. intros H. eapply IH; [|exact H].
  by eapply spent_step.
Qed.

(** C31: a join token admits once: after it was taken, no sequence of mints,
    checks, revocations, listings, failed writes and restarts lets it admit
    again, unless it is put back. *)
Theorem Validate_once tm token kind now ok tm1 jt ops tm2 kind' later ok' :
  Validate hmac tm token kind now ok = (tm1, Ok jt) ->
  Forall (fun op => ~ puts_back (tm_secret tm1) token op) ops ->
  token_run hmac tm1 ops = Some tm2 ->
  is_ok (Validate hmac tm2 token kind' later ok').2 = false.
Proof.
  intros Hv HF Hr.
  assert (Hs : spent (tm_secret tm1) token tm1).
  { revert Hv. unfold Validate. destruct (negb _); [done|]. destruct (tm_tokens tm !! token) as [j|]; [|done].
    destruct (jt_Used j); [done|]. destruct (After _ _); [done|]. destruct (negb _); [done|].
    unfold saveLocked. cbn [set_tokens tm_path].
    destruct (String.eqb_spec (tm_path tm) "") as [Hp|Hp]; [|destruct ok; [|done]]; intros [= <- _];
      (split; [|done|]); simpl; unfold spent_in; rewrite ?lookup_insert_eq; try done.
    eexists. split; [done|]. by rewrite lookup_insert_eq. }
  pose proof (spent_memory _ _ _ (spent_run _ _ _ _ _ Hs HF Hr)) as Hm. unfold spent_in in Hm.
  unfold Validate. destruct (negb _); [done|]. destruct (tm_tokens tm2 !! token) as [j|]; [|done]. by rewrite Hm.
Qed.
End Tokens.
