(* ===== verification/ClusterTaskStore.v ===== *)
(** * The task store (internal/cluster/tasks_store.go)

    Tasks, document revisions, runs and their node records as entries of the
    replicated config map.  A write goes through Raft: its outcome for the
    entry's bytes is part of the environment, and one that reports failure may
    still have been committed. *)

From S2P Require Import Prelude GoStrings GoRegexp GoTime TaskModel ClusterFSM.

Definition CapTasks : string := "tasks-v1".
Definition taskKeyPrefix : string := "task/".
Definition taskRevKeyPrefix : string := "taskrev/".
Definition taskRunKeyPrefix : string := "taskrun/".
Definition runNodeInfix : string := "/n/".

Definition RunRunning : string := "running".
Definition RunStopping : string := "stopping".
Definition RunHandingOver : string := "handing_over".
Definition RunSucceeded : string := "succeeded".
Definition RunFailed : string := "failed".
Definition RunStopped : string := "stopped".

Definition RunNodePending : string := "pending".
Definition RunNodeRunning : string := "running".
Definition RunNodeSucceeded : string := "succeeded".
Definition RunNodeFailed : string := "failed".
Definition RunNodeSkipped : string := "skipped".
Definition RunNodeUnknown : string := "unknown".
Definition RunNodeStopped : string := "stopped".

Definition RunStepPending : string := "pending".
Definition RunStepStarting : string := "starting".
Definition RunStepRunning : string := "running".
Definition RunStepSucceeded : string := "succeeded".
Definition RunStepFailed : string := "failed".
Definition RunStepSkipped : string := "skipped".
Definition RunStepUnknown : string := "unknown".
Definition RunStepCancelled : string := "cancelled".

Definition RunKindAgentInstall : string := "agent-install".
Definition TaskSourceUser : string := "user".
Definition TaskSourceGit : string := "git".

Inductive StoreError : Type :=
| ErrNotLeader
| ErrNotInitialized
| ErrTaskTooLarge
| ErrTaskNameTaken
| ErrTaskNameRequired
| ErrInvalidTaskID
| ErrInvalidTaskSource
| ErrTaskNotFound
| ErrTaskRevisionNotFound
| ErrTaskRunNotFound
| ErrInvalidRunID
| ErrEncode
| ErrDecode (key : string)
| ErrRaft.                       (* the write failed, or was refused *)
#[export] Instance StoreError_eq_dec : EqDecision StoreError.
Proof. solve_decision. Defined.

Definition rHex : re := RClass (fun c => byte_in c "0" "9" || byte_in c "a" "f").
Definition taskIDPattern : re := rBetween 1 64 (RClass (fun c => is_alnum c || existsb (Ascii.eqb c) (list_ascii_of_string "_-"))).
Definition runIDPattern : re :=
  RCat (rRep 8 (RClass is_digit)) (RCat (rChar "-") (RCat (rRep 6 (RClass is_digit)) (RCat (rChar "-") (rRep 6 rHex)))).

Definition revisionGrace : Duration := 10 * Minute.

(** ** Records *)

Record TaskSource : Type := mkTaskSource {
  so_Kind : string; so_Repo : string; so_Branch : string; so_Path : string; so_SHA : string;
}.

Record StoredTask : Type := mkStoredTask {
  sk_ID : string;
  sk_Name : string;
  sk_YAML : string;
  sk_Source : TaskSource;
  sk_UpdatedAt : Time;
  sk_UpdatedBy : string;
}.

Record RunRecord : Type := mkRunRecord {
  rr_ID : string;
  rr_Kind : string;
  rr_TaskID : string;
  rr_TaskName : string;
  rr_Rev : string;
  rr_Inputs : gmap string string;
  rr_Nodes : list string;
  rr_Waves : list (list string);
  rr_Confirmed : list nat;
  rr_Batch : Z;
  rr_StopOnFailure : bool;
  rr_Status : string;
  rr_Reason : string;
  rr_Force : bool;
  rr_StoppedBy : string;
  rr_StartedBy : string;
  rr_StartedAt : Time;
  rr_EndedAt : Time;
  rr_RerunOf : string;
  rr_StartAt : gmap string nat;
  rr_CredentialsUntil : Time;
}.

Definition Active (r : RunRecord) : bool :=
  (rr_Status r ==s RunRunning) || (rr_Status r ==s RunStopping) || (rr_Status r ==s RunHandingOver).

Record RunStepRecord : Type := mkRunStepRecord {
  rs_Status : string;
  rs_JobID : string;
  rs_Summary : string;
  rs_Changed : bool;
  rs_StartedAt : Time;
  rs_EndedAt : Time;
}.

Record RunNodeRecord : Type := mkRunNodeRecord {
  rn_Status : string;
  rn_Reason : string;
  rn_ReasonDetails : gmap string string;
  rn_Steps : list RunStepRecord;
  rn_Host : string;
  rn_IP : string;
  rn_Name : string;
  rn_Group : string;
  rn_NodeID : string;
  rn_SFPanelBefore : bool;
  rn_Awaiting : string;
  rn_HostKey : string;
  rn_CheckURL : string;
  rn_HostKeyTailscale : string;
}.

#[export] Instance TaskSource_eq_dec : EqDecision TaskSource.
Proof. solve_decision. Defined.
#[export] Instance StoredTask_eq_dec : EqDecision StoredTask.
Proof. solve_decision. Defined.
#[export] Instance RunRecord_eq_dec : EqDecision RunRecord.
Proof. solve_decision. Defined.
#[export] Instance RunStepRecord_eq_dec : EqDecision RunStepRecord.
Proof. solve_decision. Defined.
#[export] Instance RunNodeRecord_eq_dec : EqDecision RunNodeRecord.
Proof. solve_decision. Defined.

(** ** Keys *)

Definition taskKey (id : string) : string := taskKeyPrefix +:+ id.
Definition taskRevKey (sha : string) : string := taskRevKeyPrefix +:+ sha.
Definition runKey (id : string) : string := taskRunKeyPrefix +:+ id.
Definition runNodeKey (runID nodeID : string) : string := runKey runID +:+ runNodeInfix +:+ nodeID.

Definition validNodeSegment (id : string) : bool :=
  negb (id ==s "") && (String.length id <=? 128)%nat && negb (containsAny id (bytes_of [47; 0]%nat)).

(** ** The manager *)

(** What Raft makes of an entry. *)
Inductive RaftOutcome : Type :=
| RaftOk (index : Z)
| RaftNotLeader
| RaftFailed (committed : bool) (index : Z).

Record raft_env : Type := mkRaftEnv {
  re_propose : string -> RaftOutcome;
  re_now : Time;
}.

(** A manager's part in the store; [ms_fsm] is [None] with no Raft. *)
Record Manager : Type := mkManager {
  ms_fsm : option FSM;
  ms_leader : bool;
  ms_taskRevWritten : gmap string Time;
}.

Definition with_fsm (m : Manager) (f : FSM) : Manager := mkManager (Some f) (ms_leader m) (ms_taskRevWritten m).
Definition with_revs (m : Manager) (revs : gmap string Time) : Manager := mkManager (ms_fsm m) (ms_leader m) revs.

Definition task_le (a b : StoredTask) : Prop :=
  (if negb (sk_Name a ==s sk_Name b) then String.ltb (sk_Name a) (sk_Name b)
   else String.leb (sk_ID a) (sk_ID b)) = true.
#[export] Instance task_le_dec : RelDecision task_le := fun a b => decide (_ = true).
Definition run_ge (a b : RunRecord) : Prop := String.leb (rr_ID b) (rr_ID a) = true.
#[export] Instance run_ge_dec : RelDecision run_ge := fun a b => decide (_ = true).

Section Store.
Context `{Codec Command, Codec Node, Codec string, Codec AdminAccount, Codec (list string)}.
Context `{Codec StoredTask, Codec RunRecord, Codec RunNodeRecord}.
(** Hex SHA-256 of a document. *)
Variable sha256_hex : string -> string.

Definition taskLeader (m : Manager) : bool :=
  match ms_fsm m with Some _ => ms_leader m | None => false end.

(** [RaftNode.Apply] through [Manager.SetConfig] and [deleteTaskValue]; a
    value that does not encode is proposed empty. *)
Definition raft_apply (e : raft_env) (m : Manager) (cmd : Command) : Manager * option StoreError :=
  match ms_fsm m with
  | None => (m, Some ErrRaft)
  | Some f =>
      match json_marshal cmd with
      | None => (m, Some ErrRaft)
      | Some data =>
          match re_propose e data with
          | RaftNotLeader => (m, Some ErrNotLeader)
          | RaftFailed committed index =>
              (if committed : bool then with_fsm m (Apply f index data (re_now e)).1.1 else m, Some ErrRaft)
          | RaftOk index =>
              let '(f, r, _) := Apply f index data (re_now e) in
              (with_fsm m f, match r with Ok _ => None | Err _ => Some ErrRaft end)
          end
      end
  end.

Definition putTaskValue (e : raft_env) (m : Manager) (key value : string) : Manager * option StoreError :=
  raft_apply e m (mkCommand CmdSetConfig key (default "" (json_marshal value))).
Definition deleteTaskValue (e : raft_env) (m : Manager) (key : string) : Manager * option StoreError :=
  raft_apply e m (mkCommand CmdDeleteConfig key "").

Definition config_value (m : Manager) (key : string) : option string :=
  match ms_fsm m with Some f => GetConfigValue f key | None => None end.
Definition with_prefix (m : Manager) (prefix : string) : gmap string string :=
  match ms_fsm m with Some f => ConfigWithPrefix f prefix | None => ∅ end.

(** ** Tasks *)

Definition storedTasks (m : Manager) : list StoredTask :=
  merge_sort task_le (omap (fun kv => json_unmarshal kv.2) (map_to_list (with_prefix m taskKeyPrefix))).

(** The task as it is stored: its source and time filled in. *)
Definition fill_source (t : StoredTask) : option TaskSource :=
  let s := sk_Source t in
  if so_Kind s ==s "" then
    Some (mkTaskSource TaskSourceUser (so_Repo s) (so_Branch s) (so_Path s) (so_SHA s))
  else if (so_Kind s ==s TaskSourceUser) || (so_Kind s ==s TaskSourceGit) then Some s
  else None.
Definition stamp (t : StoredTask) (s : TaskSource) (now : Time) : StoredTask :=
  mkStoredTask (sk_ID t) (sk_Name t) (sk_YAML t) s
    (if IsZero (sk_UpdatedAt t) then now else sk_UpdatedAt t) (sk_UpdatedBy t).

Definition PutTask (e : raft_env) (m : Manager) (t : StoredTask) : Manager * option StoreError :=
  if negb (taskLeader m) then (m, Some ErrNotLeader)
  else if negb (matchString taskIDPattern (sk_ID t)) then (m, Some ErrInvalidTaskID)
  else if (MaxDocumentBytes <? String.length (sk_YAML t))%nat then (m, Some ErrTaskTooLarge)
  else if trimSpace (sk_Name t) ==s "" then (m, Some ErrTaskNameRequired)
  else
    match fill_source t with
    | None => (m, Some ErrInvalidTaskSource)
    | Some s =>
        let t := stamp t s (re_now e) in
        match json_marshal t with
        | None => (m, Some ErrEncode)
        | Some data =>
            if existsb (fun other => negb (sk_ID other ==s sk_ID t) && (sk_Name other ==s sk_Name t)) (storedTasks m)
            then (m, Some ErrTaskNameTaken)
            else putTaskValue e m (taskKey (sk_ID t)) data
        end
    end.

Definition GetTask (m : Manager) (id : string) : result StoreError StoredTask :=
  match ms_fsm m with
  | None => Err ErrNotInitialized
  | Some f =>
      if negb (matchString taskIDPattern id) then Err ErrTaskNotFound
      else
        match GetConfigValue f (taskKey id) with
        | None => Err ErrTaskNotFound
        | Some v =>
            match json_unmarshal v with
            | Some t => Ok t
            | None => Err (ErrDecode id)
            end
        end
  end.

Definition ListTasks (m : Manager) : result StoreError (list StoredTask) :=
  match ms_fsm m with
  | None => Err ErrNotInitialized
  | Some _ => Ok (storedTasks m)
  end.

Definition DeleteTask (e : raft_env) (m : Manager) (id : string) : Manager * option StoreError :=
  if negb (taskLeader m) then (m, Some ErrNotLeader)
  else if negb (matchString taskIDPattern id) then (m, Some ErrTaskNotFound)
  else
    match config_value m (taskKey id) with
    | None => (m, Some ErrTaskNotFound)
    | Some _ => deleteTaskValue e m (taskKey id)
    end.

(** ** Revisions *)

Definition PutTaskRevision (e : raft_env) (m : Manager) (yaml : string) : Manager * result StoreError string :=
  if negb (taskLeader m) then (m, Err ErrNotLeader)
  else if (MaxDocumentBytes <? String.length yaml)%nat then (m, Err ErrTaskTooLarge)
  else
    let sha := sha256_hex yaml in
    let m := with_revs m (<[sha := re_now e]> (ms_taskRevWritten m)) in
    match config_value m (taskRevKey sha) with
    | Some _ => (m, Ok sha)
    | None =>
        match putTaskValue e m (taskRevKey sha) yaml with
        | (m, Some err) => (m, Err err)
        | (m, None) => (m, Ok sha)
        end
    end.

Definition TaskRevision (m : Manager) (sha : string) : result StoreError string :=
  match ms_fsm m with
  | None => Err ErrNotInitialized
  | Some f =>
      if (sha ==s "") || contains sha "/" then Err ErrTaskRevisionNotFound
      else
        match GetConfigValue f (taskRevKey sha) with
        | None => Err ErrTaskRevisionNotFound
        | Some v => Ok v
        end
  end.

(** ** Runs *)

Definition PutRun (e : raft_env) (m : Manager) (r : RunRecord) : Manager * option StoreError :=
  if negb (taskLeader m) then (m, Some ErrNotLeader)
  else if negb (matchString runIDPattern (rr_ID r)) then (m, Some ErrInvalidRunID)
  else
    match json_marshal r with
    | None => (m, Some ErrEncode)
    | Some data => putTaskValue e m (runKey (rr_ID r)) data
    end.

Definition PutRunNode (e : raft_env) (m : Manager) (runID nodeID : string) (rec : RunNodeRecord)
    : Manager * option StoreError :=
  if negb (taskLeader m) then (m, Some ErrNotLeader)
  else if negb (matchString runIDPattern runID) || negb (validNodeSegment nodeID) then (m, Some ErrInvalidRunID)
  else
    match config_value m (runKey runID) with
    | None => (m, Some ErrTaskRunNotFound)
    | Some _ =>
        match json_marshal rec with
        | None => (m, Some ErrEncode)
        | Some data => putTaskValue e m (runNodeKey runID nodeID) data
        end
    end.

(** The node records under a run, or the key of one that does not decode. *)
Definition node_records (prefix : string) (entries : list (string * string))
    : result StoreError (gmap string RunNodeRecord) :=
  foldr (fun kv acc =>
    nodes <-? acc ;;
    match json_unmarshal kv.2 with
    | None => Err (ErrDecode kv.1)
    | Some rec => Ok (<[trimPrefix kv.1 prefix := rec]> nodes)
    end) (Ok ∅) entries.

Definition GetRun (m : Manager) (id : string) : result StoreError (RunRecord * gmap string RunNodeRecord) :=
  match ms_fsm m with
  | None => Err ErrNotInitialized
  | Some f =>
      if negb (matchString runIDPattern id) then Err ErrTaskRunNotFound
      else
        match GetConfigValue f (runKey id) with
        | None => Err ErrTaskRunNotFound
        | Some v =>
            match json_unmarshal v with
            | None => Err (ErrDecode id)
            | Some r =>
                let prefix := runKey id +:+ runNodeInfix in
                nodes <-? node_records prefix (map_to_list (ConfigWithPrefix f prefix)) ;;
                Ok (r, nodes)
            end
        end
  end.

Definition runHeads (entries : gmap string string) : list RunRecord :=
  merge_sort run_ge (omap (fun kv =>
    if contains (trimPrefix kv.1 taskRunKeyPrefix) "/" then None else json_unmarshal kv.2)
    (map_to_list entries)).

Definition ListRuns (m : Manager) : result StoreError (list RunRecord) :=
  match ms_fsm m with
  | None => Err ErrNotInitialized
  | Some f => Ok (runHeads (ConfigWithPrefix f taskRunKeyPrefix))
  end.

(** ** Pruning *)

(** The runs that stay: the [keep] newest, and those not ended. *)
Definition kept_runs (keep : Z) (heads : list RunRecord) : list RunRecord :=
  omap (fun ir : nat * RunRecord =>
    if (Z.of_nat ir.1 <? keep) || Active ir.2 then Some ir.2 else None) (imap pair heads).

Definition run_of_key (key : string) : string := (cutByte (trimPrefix key taskRunKeyPrefix) "/").1.1.

(** The keys to drop, sorted. *)
Definition prune_drop (m : Manager) (keep : Z) (now : Time) : list string :=
  let entries := with_prefix m taskRunKeyPrefix in
  let kept := kept_runs keep (runHeads entries) in
  let ids := map rr_ID kept in
  let revs := map rr_Rev kept in
  let runs := List.filter (fun k => negb (slices_contains ids (run_of_key k))) (map fst (map_to_list entries)) in
  let unused k :=
    let sha := trimPrefix k taskRevKeyPrefix in
    negb (slices_contains revs sha) &&
    match ms_taskRevWritten m !! sha with
    | Some at_ => negb (now - at_ <? revisionGrace)
    | None => true
    end in
  sort_Strings
    (runs ++ List.filter unused (map fst (map_to_list (with_prefix m taskRevKeyPrefix)))).

Fixpoint delete_all (e : raft_env) (m : Manager) (keys : list string) : Manager * option StoreError :=
  match keys with
  | [] => (m, None)
  | k :: keys =>
      match deleteTaskValue e m k with
      | (m, Some err) => (m, Some err)
      | (m, None) => delete_all e m keys
      end
  end.

Definition PruneRuns (e : raft_env) (m : Manager) (keep : Z) : Manager * option StoreError :=
  if negb (taskLeader m) then (m, Some ErrNotLeader)
  else
    let drop := prune_drop m keep (re_now e) in
    let m := with_revs m (filter (fun kv => (re_now e - kv.2 <? revisionGrace) = true) (ms_taskRevWritten m)) in
    delete_all e m drop.
End Store.
