(* ===== verification/ClusterTaskStoreFacts.v ===== *)
(** * What the task store keeps

    Records read back, names stay unique, and pruning takes only what no kept
    run needs. *)

From S2P Require Import Prelude GoStrings GoRegexp GoTime TaskModel ClusterFSM ClusterTaskStore.

Section Store.
Context `{Codec Command, Codec Node, Codec string, Codec AdminAccount, Codec (list string)}.
Context `{Codec StoredTask, Codec RunRecord, Codec RunNodeRecord}.

(** What [encoding/json] says of the store's values: text that is valid
    UTF-8 ([plain_text]) and records made of it ([task_plain] and the like)
    read back as they were, and what is written is such text. *)
Class StoreJSON : Type := {
  plain_text : string -> Prop;
  task_plain : StoredTask -> Prop;
  run_plain : RunRecord -> Prop;
  node_plain : RunNodeRecord -> Prop;
  string_encodes (s : string) : is_Some (json_marshal s);
  string_reads_back (s t : string) : plain_text s -> json_marshal s = Some t -> json_unmarshal t = Some s;
  command_reads_back (c : Command) d :
    (cmd_Value c = "" \/ exists s : string, json_marshal s = Some (cmd_Value c)) ->
    json_marshal c = Some d -> json_unmarshal d = Some c;
  task_reads_back (t : StoredTask) d : task_plain t -> json_marshal t = Some d -> json_unmarshal d = Some t;
  run_reads_back (r : RunRecord) d : run_plain r -> json_marshal r = Some d -> json_unmarshal d = Some r;
  node_reads_back (n : RunNodeRecord) d : node_plain n -> json_marshal n = Some d -> json_unmarshal d = Some n;
  task_text (t : StoredTask) d : json_marshal t = Some d -> plain_text d;
  run_text (r : RunRecord) d : json_marshal r = Some d -> plain_text d;
  node_text (n : RunNodeRecord) d : json_marshal n = Some d -> plain_text d;
}.
Context `{!StoreJSON}.

(** ** The config map under the store's writes *)

Definition config (m : Manager) : gmap string string :=
  match ms_fsm m with Some f => cs_Config (fsm_state f) | None => ∅ end.

Lemma config_value_lookup m key : config_value m key = config m !! key.
Proof. unfold config_value, config, GetConfigValue. by destruct (ms_fsm m). Qed.
Lemma with_prefix_filter m p : with_prefix m p = filter (fun kv => hasPrefix kv.1 p = true) (config m).
Proof. unfold with_prefix, config, ConfigWithPrefix. destruct (ms_fsm m); [done|]. by rewrite map_filter_empty. Qed.

(** What a write leaves: the map as it was, or with the entry. *)
Definition wrote (m m' : Manager) (c : gmap string string) (err : option StoreError) : Prop :=
  ms_leader m' = ms_leader m /\ ms_taskRevWritten m' = ms_taskRevWritten m /\
  (ms_fsm m' = None <-> ms_fsm m = None) /\
  (config m' = c \/ (config m' = config m /\ err <> None)).

Lemma raft_apply_wrote e m cmd m' err c :
  raft_apply e m cmd = (m', err) ->
  (cmd_Value cmd = "" \/ exists s : string, json_marshal s = Some (cmd_Value cmd)) ->
  (forall f index, ms_fsm m = Some f ->
    cs_Config (fsm_state (apply_command f index cmd (re_now e)).1.1) = c /\
    (apply_command f index cmd (re_now e)).1.2 = Ok tt) ->
  wrote m m' c err.
Proof.
  unfold raft_apply, wrote. intros Hr Hv Hc. destruct (ms_fsm m) as [f|] eqn:Ef.
  2: { injection Hr as <- <-. rewrite Ef. split_and!; auto. }
  destruct (json_marshal cmd) as [data|] eqn:Em.
  2: { injection Hr as <- <-. rewrite Ef. split_and!; auto. }
  pose proof (command_reads_back _ _ Hv Em) as Hu.
  destruct (re_propose e data) as [index| |committed index].
  - destruct (Hc f index eq_refl) as [Hcfg Hok]. unfold Apply in Hr. rewrite Hu in Hr.
    destruct (apply_command f index cmd (re_now e)) as [[f' r] cbs]. simpl in *. subst r.
    injection Hr as <- <-. simpl. split_and!; auto.
    by split.
  - injection Hr as <- <-. rewrite Ef. split_and!; auto.
  - destruct committed.
    + destruct (Hc f index eq_refl) as [Hcfg Hok]. unfold Apply in Hr. rewrite Hu in Hr.
      injection Hr as <- <-. simpl. split_and!; auto. by split.
    + injection Hr as <- <-. rewrite Ef. split_and!; auto.
Qed.

Lemma putTaskValue_wrote e m key v m' err :
  plain_text v -> putTaskValue e m key v = (m', err) -> wrote m m' (<[key := v]> (config m)) err.
Proof.
  intros Hv Hp. unfold putTaskValue in Hp. destruct (string_encodes v) as [t Ht]. rewrite Ht in Hp. simpl in Hp.
  eapply raft_apply_wrote; [exact Hp|right; by exists v|]. intros f index Ef.
  unfold apply_command, config. rewrite Ef. simpl. by rewrite (string_reads_back _ _ Hv Ht).
Qed.

Lemma deleteTaskValue_wrote e m key m' err :
  deleteTaskValue e m key = (m', err) -> wrote m m' (delete key (config m)) err.
Proof.
  intros Hp. eapply raft_apply_wrote; [exact Hp|by left|]. intros f index Ef.
  unfold apply_command, config. by rewrite Ef.
Qed.

(** ** Names *)

(** The stored tasks: each under its own ID, no two with one name. *)
Definition task_entry (c : gmap string string) (k : string) (t : StoredTask) : Prop :=
  exists v, c !! k = Some v /\ hasPrefix k taskKeyPrefix = true /\ json_unmarshal v = Some t.
Record tasks_ok (c : gmap string string) : Prop := {
  task_filed : forall k t, task_entry c k t -> k = taskKey (sk_ID t);
  task_names : forall k1 k2 t1 t2, task_entry c k1 t1 -> task_entry c k2 t2 ->
    sk_Name t1 = sk_Name t2 -> sk_ID t1 = sk_ID t2;
}.

Lemma storedTasks_entry m t : t ∈ storedTasks m <-> exists k, task_entry (config m) k t.
Proof.
  unfold storedTasks. rewrite merge_sort_Permutation, list_elem_of_omap, with_prefix_filter. split.
  - intros ([k v] & Hkv & Hu). apply elem_of_map_to_list, map_lookup_filter_Some in Hkv as [Hl Hp].
    exists k, v. done.
  - intros (k & v & Hl & Hp & Hu). exists (k, v). split; [|done].
    by apply elem_of_map_to_list, map_lookup_filter_Some.
Qed.

(** A write elsewhere leaves the tasks alone. *)
Lemma tasks_ok_insert_other c k v :
  hasPrefix k taskKeyPrefix = false -> tasks_ok c -> tasks_ok (<[k := v]> c).
Proof.
  intros Hk [Hf Hn].
  assert (He : forall k' t, task_entry (<[k := v]> c) k' t -> task_entry c k' t).
  { intros k' t (w & Hl & Hp & Hu). exists w. destruct (decide (k = k')) as [->|Hne]; [congruence|].
    by rewrite lookup_insert_ne in Hl. }
  split; eauto.
Qed.
Lemma tasks_ok_delete c k : tasks_ok c -> tasks_ok (delete k c).
Proof.
  intros [Hf Hn].
  assert (He : forall k' t, task_entry (delete k c) k' t -> task_entry c k' t).
  { intros k' t (w & [_ Hl]%lookup_delete_Some & Hp & Hu). by exists w. }
  split; eauto.
Qed.
Lemma tasks_ok_wrote m m' c err :
  wrote m m' c err -> tasks_ok (config m) -> tasks_ok c -> tasks_ok (config m').
Proof. by intros (_ & _ & _ & [->|[-> _]]). Qed.

Lemma PutTask_ok e m t m' err :
  task_plain (stamp t (default (sk_Source t) (fill_source t)) (re_now e)) ->
  PutTask e m t = (m', err) -> tasks_ok (config m) -> tasks_ok (config m').
Proof.
  intros Hpl Hp Hok. unfold PutTask in Hp.
  destruct (negb (taskLeader m)); [by injection Hp as <- _|]. destruct (negb _); [by injection Hp as <- _|].
  destruct (_ <? _)%nat; [by injection Hp as <- _|]. destruct (_ ==s _); [by injection Hp as <- _|].
  destruct (fill_source t) as [s|]; [|by injection Hp as <- _]. simpl in Hpl.
  set (t' := stamp t s (re_now e)) in *. cbv zeta in Hp.
  destruct (json_marshal t') as [data|] eqn:Em; [|by injection Hp as <- _].
  destruct (existsb _ (storedTasks m)) eqn:Ex; [by injection Hp as <- _|].
  eapply tasks_ok_wrote; [eapply putTaskValue_wrote; [by eapply task_text|exact Hp]|done|].
  pose proof (task_reads_back _ _ Hpl Em) as Hu. clearbody t'.
  assert (Hfree : forall k o, task_entry (config m) k o -> sk_Name o = sk_Name t' -> sk_ID o = sk_ID t').
  { intros k o He Hname. destruct (decide (sk_ID o = sk_ID t')) as [|Hne]; [done|]. exfalso.
    assert (Hin : In o (storedTasks m)) by (apply list_elem_of_In, storedTasks_entry; eauto).
    apply not_true_iff_false in Ex. apply Ex, existsb_exists. exists o. split; [done|].
    apply andb_true_iff. split; [by apply negb_true_iff, String.eqb_neq|by apply String.eqb_eq]. }
  assert (He : forall k o, task_entry (<[taskKey (sk_ID t') := data]> (config m)) k o ->
    (k = taskKey (sk_ID t') /\ o = t') \/ task_entry (config m) k o).
  { intros k o (w & Hl & Hpre & Hw). apply lookup_insert_Some in Hl as [[<- <-]|[Hne Hl]].
    - left. split; [done|]. congruence.
    - right. by exists w. }
  destruct Hok as [Hf Hn]. split.
  - intros k o [[-> ->]|Ho]%He; eauto.
  - intros k1 k2 t1 t2 [[-> ->]|H1']%He [[-> ->]|H2']%He Hname; eauto. symmetry. eauto.
Qed.

(** ** Histories of the store *)

Section Histories.
Variable sha256_hex : string -> string.

Inductive store_op : Type :=
| OpPutTask (t : StoredTask)
| OpDeleteTask (id : string)
| OpPutTaskRevision (yaml : string)
| OpPutRun (r : RunRecord)
| OpPutRunNode (runID nodeID : string) (rec : RunNodeRecord)
| OpPruneRuns (keep : Z).

Definition store_step (m : Manager) (eo : raft_env * store_op) : Manager :=
  let e := eo.1 in
  match eo.2 with
  | OpPutTask t => (PutTask e m t).1
  | OpDeleteTask id => (DeleteTask e m id).1
  | OpPutTaskRevision yaml => (PutTaskRevision sha256_hex e m yaml).1
  | OpPutRun r => (PutRun e m r).1
  | OpPutRunNode runID nodeID rec => (PutRunNode e m runID nodeID rec).1
  | OpPruneRuns keep => (PruneRuns e m keep).1
  end.

(** The text of an operation is what JSON keeps. *)
Definition op_plain (eo : raft_env * store_op) : Prop :=
  match eo.2 with
  | OpPutTask t => task_plain (stamp t (default (sk_Source t) (fill_source t)) (re_now eo.1))
  | OpPutTaskRevision yaml => plain_text yaml
  | _ => True
  end.

Lemma delete_all_tasks_ok e m keys : tasks_ok (config m) -> tasks_ok (config (delete_all e m keys).1).
Proof.
  revert m. induction keys as [|k keys IH]; intros m Hok; [done|]. cbn [delete_all].
  destruct (deleteTaskValue e m k) as [m1 err] eqn:E.
  assert (tasks_ok (config m1)).
  { eapply tasks_ok_wrote; [eapply deleteTaskValue_wrote; exact E|done|]. by apply tasks_ok_delete. }
  destruct err; [done|]. by apply IH.
Qed.

Lemma store_step_tasks_ok m eo : op_plain eo -> tasks_ok (config m) -> tasks_ok (config (store_step m eo)).
Proof.
  destruct eo as [e op]. unfold op_plain, store_step. simpl. intros Hpl Hok. destruct op.
  - destruct (PutTask e m t) as [m' err] eqn:E. by eapply PutTask_ok.
  - unfold DeleteTask. repeat case_match; try done. simpl.
    destruct (deleteTaskValue e m (taskKey id)) as [m' err] eqn:E.
    eapply tasks_ok_wrote; [eapply deleteTaskValue_wrote; exact E|done|]. by apply tasks_ok_delete.
  - unfold PutTaskRevision. destruct (negb _); [done|]. destruct (_ <? _)%nat; [done|]. cbv zeta.
    destruct (config_value _ _); [done|].
    destruct (putTaskValue e _ _ yaml) as [m' [err|]] eqn:E; simpl;
      (eapply tasks_ok_wrote; [by eapply putTaskValue_wrote|done|by apply tasks_ok_insert_other]).
  - unfold PutRun. destruct (negb _); [done|]. destruct (negb _); [done|].
    destruct (json_marshal r) as [d|] eqn:Em; [|done]. simpl.
    destruct (putTaskValue e m (runKey (rr_ID r)) d) as [m' err] eqn:E.
    eapply tasks_ok_wrote; [eapply putTaskValue_wrote; [by eapply run_text|exact E]|done|].
    by apply tasks_ok_insert_other.
  - unfold PutRunNode. destruct (negb _); [done|]. destruct (_ || _); [done|].
    destruct (config_value _ _); [|done]. destruct (json_marshal rec) as [d|] eqn:Em; [|done]. simpl.
    destruct (putTaskValue e m (runNodeKey runID nodeID) d) as [m' err] eqn:E.
    eapply tasks_ok_wrote; [eapply putTaskValue_wrote; [by eapply node_text|exact E]|done|].
    by apply tasks_ok_insert_other.
  - unfold PruneRuns. destruct (negb _); [done|]. cbv zeta. by apply delete_all_tasks_ok.
Qed.

(** Whatever is written, deleted and pruned, and whatever Raft makes of
    each write, every stored task stays under its own ID and no two share a
    name. *)
Theorem store_run_tasks_ok m ops :
  tasks_ok (config m) -> Forall op_plain ops -> tasks_ok (config (fold_left store_step ops m)).
Proof.
  intros Hok HF. revert m Hok. induction HF as [|eo ops Hpl _ IH]; intros m Hok; [done|].
  cbn [fold_left]. apply IH. by apply store_step_tasks_ok.
Qed.
End Histories.

(** ** Runs read back *)

Lemma in_rep_class_length n f s : in_re s (rRep n (RClass f)) -> length s = n.
Proof.
  revert s. induction n as [|n IH]; intros s; cbn [rRep].
  - by intros ->%in_re_eps.
  - intros (a & b & -> & (c & -> & _)%in_re_class & Hb)%in_re_cat. simpl. by rewrite (IH _ Hb).
Qed.

Lemma length_los s : length (list_ascii_of_string s) = String.length s.
Proof. induction s as [|c s IH]; [done|]. simpl. by rewrite IH. Qed.

Lemma run_id_length id : matchString runIDPattern id = true -> String.length id = 22%nat.
Proof.
  unfold matchString. rewrite re_match_spec, <-length_los. unfold runIDPattern, rChar, rHex.
  intros (a & b & E & Ha%in_rep_class_length & Hb)%in_re_cat. rewrite E, length_app, Ha.
  apply in_re_cat in Hb as (c & d & -> & (x & -> & _)%in_re_class & Hd).
  apply in_re_cat in Hd as (c & d' & -> & Hc%in_rep_class_length & Hd).
  apply in_re_cat in Hd as (x' & d & -> & (y & -> & _)%in_re_class & Hd%in_rep_class_length).
  rewrite !length_app, Hc, Hd. done.
Qed.

Lemma sapp_same_length (a b c d : string) :
  String.length a = String.length b -> a +:+ c = b +:+ d -> a = b /\ c = d.
Proof.
  revert b. induction a as [|x a IH]; intros [|y b] Hl He; try done.
  simpl in *. injection He as -> He. destruct (IH b) as [-> ->]; [lia|done|done].
Qed.

(** The node keys of one run are no other run's. *)
Lemma node_key_run id1 id2 node :
  matchString runIDPattern id1 = true -> matchString runIDPattern id2 = true ->
  hasPrefix (runNodeKey id1 node) (runKey id2 +:+ runNodeInfix) = true -> id1 = id2.
Proof.
  intros Hl1%run_id_length Hl2%run_id_length [t Ht]%hasPrefix_spec. unfold runNodeKey, runKey in Ht.
  rewrite !sapp_assoc in Ht. apply sapp_inj_l in Ht. apply sapp_same_length in Ht as [-> _]; [done|lia].
Qed.

Lemma run_key_node_key id1 id2 node :
  matchString runIDPattern id1 = true -> matchString runIDPattern id2 = true ->
  runKey id2 <> runNodeKey id1 node.
Proof.
  intros Hl1%run_id_length Hl2%run_id_length E. unfold runNodeKey, runKey in E. rewrite !sapp_assoc in E.
  apply sapp_inj_l in E. apply (f_equal String.length) in E. rewrite !slength_app in E. simpl in E. lia.
Qed.

(** What the node records come to. *)
Lemma node_records_Ok prefix l nodes :
  NoDup l.*1 -> Forall (fun kv => hasPrefix kv.1 prefix = true) l ->
  node_records prefix l = Ok nodes ->
  forall id, nodes !! id = match list_to_map (M := gmap string string) l !! (prefix +:+ id) with
                           | Some v => json_unmarshal v
                           | None => None
                           end.
Proof.
  revert nodes. induction l as [|[k v] l IH]; intros nodes Hnd Hpre Hr id; simpl in *.
  { injection Hr as <-. by rewrite !lookup_empty. }
  inversion Hnd as [|? ? Hk Hnd']; inversion Hpre as [|? ? Hp Hpre']; subst. simpl in *.
  destruct (node_records prefix l) as [nodes'|] eqn:E; [|done]. simpl in Hr.
  destruct (json_unmarshal v) as [rec|] eqn:Eu; [|done]. injection Hr as <-.
  apply hasPrefix_spec in Hp as [w ->]. rewrite trimPrefix_app.
  destruct (decide (w = id)) as [->|Hne].
  - by rewrite !lookup_insert_eq.
  - rewrite !lookup_insert_ne; [by apply IH| |done]. by intros ?%sapp_inj_l.
Qed.

Lemma node_records_total prefix l :
  Forall (fun kv => is_Some (json_unmarshal (A := RunNodeRecord) kv.2)) l <-> is_ok (node_records prefix l) = true.
Proof.
  induction l as [|[k v] l IH]; [done|]. rewrite Forall_cons, IH. simpl.
  destruct (node_records prefix l); simpl; [|naive_solver].
  destruct (json_unmarshal v); simpl; [naive_solver|]. split; [by intros [[? ?] _]|done].
Qed.

Definition run_prefix (id : string) : string := runKey id +:+ runNodeInfix.

(** [GetRun] by the entries of the map. *)
Lemma GetRun_spec m f id r nodes :
  ms_fsm m = Some f -> matchString runIDPattern id = true ->
  GetRun m id = Ok (r, nodes) <->
  (exists v, config m !! runKey id = Some v /\ json_unmarshal v = Some r) /\
  map_Forall (fun k v => hasPrefix k (run_prefix id) = true -> is_Some (json_unmarshal (A := RunNodeRecord) v)) (config m) /\
  forall n, nodes !! n = match config m !! (run_prefix id +:+ n) with Some v => json_unmarshal v | None => None end.
Proof.
  intros Ef Hid. unfold GetRun, config. rewrite Ef, Hid. cbn [negb]. unfold GetConfigValue.
  set (c := cs_Config (fsm_state f)). fold (run_prefix id).
  set (l := map_to_list (ConfigWithPrefix f (run_prefix id))).
  assert (Hnd : NoDup l.*1) by apply NoDup_fst_map_to_list.
  assert (Hpre : Forall (fun kv => hasPrefix kv.1 (run_prefix id) = true) l).
  { apply Forall_forall. intros [k v] [Hl Hp]%elem_of_map_to_list%map_lookup_filter_Some. done. }
  assert (Hl : forall n, list_to_map (M := gmap string string) l !! (run_prefix id +:+ n) = c !! (run_prefix id +:+ n)).
  { intros n. unfold l. rewrite list_to_map_to_list. unfold ConfigWithPrefix. fold c.
    destruct (c !! _) eqn:E; [apply map_lookup_filter_Some|apply map_lookup_filter_None; auto].
    split; [done|]. simpl. apply hasPrefix_app. }
  assert (Hall : Forall (fun kv => is_Some (json_unmarshal (A := RunNodeRecord) kv.2)) l <->
    map_Forall (fun k v => hasPrefix k (run_prefix id) = true -> is_Some (json_unmarshal (A := RunNodeRecord) v)) c).
  { rewrite Forall_forall. split.
    - intros HF k v Hk Hp. apply (HF (k, v)). by apply elem_of_map_to_list, map_lookup_filter_Some.
    - intros HF [k v] [Hk Hp]%elem_of_map_to_list%map_lookup_filter_Some. by apply (HF k v). }
  pose proof (node_records_total (run_prefix id) l) as Htot.
  destruct (c !! runKey id) as [v|]; [|split; [done|by intros [(? & ? & _) _]]].
  destruct (json_unmarshal v) as [r'|] eqn:Ev.
  2: { split; [done|]. intros [(? & [= <-] & ?) _]. congruence. }
  destruct (node_records (run_prefix id) l) as [nodes'|err] eqn:En; cbn [result_bind].
  - pose proof (node_records_Ok _ _ _ Hnd Hpre En) as Hn. split.
    + intros [= <- <-]. split; [eauto|]. split; [by apply Hall, Htot|]. intros n. by rewrite Hn, Hl.
    + intros ((? & [= <-] & Hr) & _ & Hn'). rewrite Ev in Hr. injection Hr as ->. do 2 f_equal.
      apply map_eq. intros n. by rewrite Hn, Hl, Hn'.
  - split; [done|]. intros (_ & HF & _). by apply Hall, Htot in HF.
Qed.

(** A node record written in a run reads back with the rest of the run
    as it was, and no other run changes. *)
Theorem PutRunNode_GetRun e m runID nodeID rec m' :
  node_plain rec -> PutRunNode e m runID nodeID rec = (m', None) ->
  (forall r nodes, GetRun m runID = Ok (r, nodes) -> GetRun m' runID = Ok (r, <[nodeID := rec]> nodes)) /\
  (forall id r nodes, id <> runID -> GetRun m id = Ok (r, nodes) -> GetRun m' id = Ok (r, nodes)).
Proof.
  intros Hpl Hp. unfold PutRunNode in Hp.
  destruct (taskLeader m) eqn:El; [|done]. cbn [negb] in Hp.
  destruct (matchString runIDPattern runID) eqn:Hid; [|done]. cbn [negb orb] in Hp.
  destruct (validNodeSegment nodeID); [|done]. cbn [negb] in Hp.
  destruct (config_value m (runKey runID)); [|done]. destruct (json_marshal rec) as [data|] eqn:Em; [|done].
  apply putTaskValue_wrote in Hp as (_ & _ & Hfsm & [Hc|[_ ?]]); [|done|by eapply node_text].
  unfold taskLeader in El. destruct (ms_fsm m) as [f|] eqn:Ef; [|done].
  destruct (ms_fsm m') as [f'|] eqn:Ef'; [|discriminate (proj1 Hfsm eq_refl)].
  pose proof (node_reads_back _ _ Hpl Em) as Hu.
  assert (Hkey : runNodeKey runID nodeID = run_prefix runID +:+ nodeID) by (unfold runNodeKey, run_prefix; by rewrite sapp_assoc).
  split.
  - intros r nodes (Hr & HF & Hn)%(GetRun_spec m f runID r nodes Ef Hid).
    apply (GetRun_spec m' f' _ _ _ Ef' Hid). rewrite Hc. split_and!.
    + destruct Hr as (v & Hv & Hvr). exists v. rewrite lookup_insert_ne; [done|].
      apply not_eq_sym. by apply run_key_node_key.
    + apply map_Forall_insert_2; [|done]. by rewrite Hu.
    + intros n. rewrite Hkey. destruct (decide (n = nodeID)) as [->|Hne].
      * by rewrite !lookup_insert_eq.
      * rewrite !lookup_insert_ne; [done| |done]. by intros ?%sapp_inj_l.
  - intros id r nodes Hne Hg. assert (Hid2 : matchString runIDPattern id = true).
    { unfold GetRun in Hg. rewrite Ef in Hg. by destruct (matchString runIDPattern id). }
    apply (GetRun_spec m f id r nodes Ef Hid2) in Hg as (Hr & HF & Hn).
    apply (GetRun_spec m' f' _ _ _ Ef' Hid2). rewrite Hc. split_and!.
    + destruct Hr as (v & Hv & Hvr). exists v. rewrite lookup_insert_ne; [done|].
      apply not_eq_sym. by apply run_key_node_key.
    + apply map_Forall_insert_2; [|done]. intros Hpre. by apply node_key_run in Hpre.
    + intros n. rewrite lookup_insert_ne; [done|]. intros E. apply Hne.
      symmetry. apply (node_key_run runID id nodeID Hid Hid2). rewrite E. apply hasPrefix_app.
Qed.

(** A task that was stored reads back as it was given, its source and
    time filled in. *)
Theorem PutTask_GetTask e m t m' :
  task_plain (stamp t (default (sk_Source t) (fill_source t)) (re_now e)) ->
  PutTask e m t = (m', None) ->
  exists s, fill_source t = Some s /\ GetTask m' (sk_ID t) = Ok (stamp t s (re_now e)).
Proof.
  intros Hpl Hp. unfold PutTask in Hp. destruct (taskLeader m) eqn:El; [|done]. cbn [negb] in Hp.
  destruct (matchString taskIDPattern (sk_ID t)) eqn:Hid; [|done]. cbn [negb] in Hp.
  destruct (_ <? _)%nat; [done|]. destruct (_ ==s _); [done|].
  destruct (fill_source t) as [s|]; [|done]. exists s. split; [done|]. simpl in Hpl. cbv zeta in Hp.
  destruct (json_marshal _) as [data|] eqn:Em; [|done]. destruct (existsb _ _); [done|].
  apply putTaskValue_wrote in Hp as (_ & _ & Hfsm & [Hc|[_ ?]]); [|done|by eapply task_text].
  unfold taskLeader in El. destruct (ms_fsm m) as [f|] eqn:Ef; [|done].
  unfold GetTask. unfold config in Hc. destruct (ms_fsm m') as [f'|]; [|discriminate (proj1 Hfsm eq_refl)].
  rewrite Hid. cbn [negb]. unfold GetConfigValue. rewrite Hc, lookup_insert_eq.
  by rewrite (task_reads_back _ _ Hpl Em).
Qed.

(** ** Pruning *)

Lemma delete_all_spec e m keys m' err :
  delete_all e m keys = (m', err) ->
  (forall k, config m' !! k = config m !! k \/ (k ∈ keys /\ config m' !! k = None)) /\
  (err = None -> forall k, k ∈ keys -> config m' !! k = None).
Proof.
  revert m. induction keys as [|k0 keys IH]; intros m Hd; cbn [delete_all] in Hd.
  { injection Hd as <- <-. split; [by left|]. intros _ k ?%elem_of_nil. done. }
  destruct (deleteTaskValue e m k0) as [m1 err1] eqn:E.
  apply deleteTaskValue_wrote in E as (_ & _ & _ & Hw).
  assert (Hk1 : forall k, config m1 !! k = config m !! k \/ (k = k0 /\ config m1 !! k = None)).
  { intros k. destruct Hw as [->|[-> _]]; [|by left]. destruct (decide (k = k0)) as [->|Hne].
    - right. by rewrite lookup_delete_eq.
    - left. by rewrite lookup_delete_ne. }
  destruct err1 as [err1|].
  { injection Hd as <- <-. split; [|done]. intros k. destruct (Hk1 k) as [|[-> ?]]; [by left|]. right.
    split; [by left|done]. }
  destruct Hw as [Hw|[_ ?]]; [|done]. destruct (IH m1 Hd) as [Ha Hb]. split.
  - intros k. destruct (Ha k) as [->|[Hk ->]]; [|right; split; [by right|done]].
    destruct (Hk1 k) as [|[-> ?]]; [by left|]. right. split; [by left|done].
  - intros He k [->|Hk]%elem_of_cons; [|by apply Hb].
    destruct (Ha k0) as [->|[_ ->]]; [|done]. rewrite Hw. apply lookup_delete_eq.
Qed.

(** A run a pruning leaves: among the [keep] newest, or not ended. *)
Definition kept (m : Manager) (keep : Z) (r : RunRecord) : Prop :=
  exists i, runHeads (with_prefix m taskRunKeyPrefix) !! i = Some r /\
    (Z.of_nat i < keep \/ Active r = true).

Lemma kept_runs_spec m keep r :
  r ∈ kept_runs keep (runHeads (with_prefix m taskRunKeyPrefix)) <-> kept m keep r.
Proof.
  unfold kept_runs, kept. rewrite list_elem_of_omap. split.
  - intros ([i r'] & Hi & Ho). apply elem_of_lookup_imap in Hi as (j & x & [= -> ->] & Hj). simpl in Ho.
    destruct ((Z.of_nat j <? keep) || Active x) eqn:E; [|done]. injection Ho as ->.
    exists j. split; [done|]. apply orb_true_iff in E as [?|?]; go_bools; auto.
  - intros (i & Hi & Hor). exists (i, r). split; [by eapply elem_of_lookup_imap_2|]. simpl.
    destruct Hor as [Hlt%Z.ltb_lt|Hact]; [by rewrite Hlt|by rewrite Hact, orb_true_r].
Qed.

(** A revision this leader wrote or reused a moment ago. *)
Definition in_grace (m : Manager) (now : Time) (sha : string) : Prop :=
  exists at_, ms_taskRevWritten m !! sha = Some at_ /\ now - at_ < revisionGrace.

Lemma in_filter (f : string -> bool) l k : k ∈ List.filter f l <-> k ∈ l /\ f k = true.
Proof. rewrite !list_elem_of_In. apply filter_In. Qed.

Lemma elem_of_keys m p k : k ∈ map fst (map_to_list (with_prefix m p)) <-> is_Some (config m !! k) /\ hasPrefix k p = true.
Proof.
  rewrite with_prefix_filter. rewrite list_elem_of_fmap. split.
  - intros ([k' v] & -> & [Hk Hp]%elem_of_map_to_list%map_lookup_filter_Some). simpl in *. eauto.
  - intros [[v Hk] Hp]. exists (k, v). split; [done|]. by apply elem_of_map_to_list, map_lookup_filter_Some.
Qed.

Lemma prune_drop_spec m keep now k :
  k ∈ prune_drop m keep now <->
  is_Some (config m !! k) /\
  ((hasPrefix k taskRunKeyPrefix = true /\ forall r, kept m keep r -> rr_ID r <> run_of_key k) \/
   (hasPrefix k taskRevKeyPrefix = true /\
    (forall r, kept m keep r -> rr_Rev r <> trimPrefix k taskRevKeyPrefix) /\
    ~ in_grace m now (trimPrefix k taskRevKeyPrefix))).
Proof.
  unfold prune_drop, sort_Strings. rewrite merge_sort_Permutation, elem_of_app, !in_filter, !elem_of_keys.
  set (kr := kept_runs keep _).
  assert (Hid : negb (slices_contains (map rr_ID kr) (run_of_key k)) = true <->
    forall r, kept m keep r -> rr_ID r <> run_of_key k).
  { rewrite negb_true_iff, slices_contains_false, list_elem_of_fmap. split.
    - intros Hn r Hr E. apply Hn. exists r. split; [done|]. by apply kept_runs_spec.
    - intros Hn (r & E & Hr%kept_runs_spec). by apply (Hn r). }
  set (sha := trimPrefix k taskRevKeyPrefix).
  assert (Hrev : negb (slices_contains (map rr_Rev kr) sha) = true <->
    forall r, kept m keep r -> rr_Rev r <> sha).
  { rewrite negb_true_iff, slices_contains_false, list_elem_of_fmap. split.
    - intros Hn r Hr E. apply Hn. exists r. split; [done|]. by apply kept_runs_spec.
    - intros Hn (r & E & Hr%kept_runs_spec). by apply (Hn r). }
  assert (Hgr : match ms_taskRevWritten m !! sha with
                | Some at_ => negb (now - at_ <? revisionGrace) | None => true end = true <-> ~ in_grace m now sha).
  { unfold in_grace. destruct (ms_taskRevWritten m !! sha) as [at_|].
    - rewrite negb_true_iff, Z.ltb_ge. split; [intros ? (? & [= <-] & ?); lia|].
      intros Hn. destruct (Z.le_gt_cases revisionGrace (now - at_)); [done|]. destruct Hn. eauto.
    - split; [by intros _ (? & ? & _)|done]. }
  rewrite andb_true_iff, Hid, Hrev, Hgr. naive_solver.
Qed.

(** What a pruning does not drop it does not touch. *)
Lemma PruneRuns_other e m keep m' err :
  PruneRuns e m keep = (m', err) ->
  (ms_fsm m' = None <-> ms_fsm m = None) /\ forall k, k ∉ prune_drop m keep (re_now e) -> config m' !! k = config m !! k.
Proof.
  unfold PruneRuns. destruct (negb (taskLeader m)); [by intros [= <- <-]|]. cbv zeta. set (m1 := with_revs m _).
  intros Hd. split.
  - change (ms_fsm m) with (ms_fsm m1). clearbody m1. generalize dependent m1.
    induction (prune_drop m keep (re_now e)) as [|k l IH]; intros m1 Hd; cbn [delete_all] in Hd; [by simplify_eq|].
    destruct (deleteTaskValue e m1 k) as [m2 [er|]] eqn:E; apply deleteTaskValue_wrote in E as (_ & _ & Hf & _).
    + by simplify_eq.
    + rewrite <-Hf. by apply IH.
  - intros k Hn. apply delete_all_spec in Hd as [Ha _]. by destruct (Ha k) as [|[? _]].
Qed.

(** A pruning, however its deletions fare, touches only run and revision
    entries, and none of a kept run's record, nodes or document, nor a
    document just written; done without an error it has dropped every other
    one. *)
Theorem PruneRuns_keeps e m keep m' err :
  PruneRuns e m keep = (m', err) ->
  (forall k, hasPrefix k taskRunKeyPrefix = false -> hasPrefix k taskRevKeyPrefix = false ->
     config m' !! k = config m !! k) /\
  (forall r, kept m keep r ->
     config m' !! taskRevKey (rr_Rev r) = config m !! taskRevKey (rr_Rev r) /\
     forall k, hasPrefix k taskRunKeyPrefix = true -> run_of_key k = rr_ID r -> config m' !! k = config m !! k) /\
  (forall sha, in_grace m (re_now e) sha -> config m' !! taskRevKey sha = config m !! taskRevKey sha) /\
  (err = None -> forall k, k ∈ prune_drop m keep (re_now e) -> config m' !! k = None).
Proof.
  unfold PruneRuns. destruct (negb (taskLeader m)).
  { intros [= <- <-]. split_and!; done. }
  cbv zeta. set (m1 := with_revs m _). intros Hd. apply delete_all_spec in Hd as [Ha Hb].
  change (config m1) with (config m) in Ha.
  assert (Hk : forall k, k ∉ prune_drop m keep (re_now e) -> config m' !! k = config m !! k).
  { intros k Hn. by destruct (Ha k) as [|[? _]]. }
  split_and!; [..|exact Hb].
  - intros k H1' H2'. apply Hk. rewrite prune_drop_spec. intros [_ [[Hp _]|[Hp _]]]; congruence.
  - intros r Hr. split.
    + apply Hk. rewrite prune_drop_spec. intros [_ [[Hp _]|(_ & Hn & _)]]; [done|].
      apply (Hn r Hr). unfold taskRevKey. by rewrite trimPrefix_app.
    + intros k Hp Hrk. apply Hk. rewrite prune_drop_spec. intros [_ [[_ Hn]|(Hp2 & _)]].
      * by apply (Hn r Hr).
      * apply hasPrefix_spec in Hp as [t ->]. done.
  - intros sha Hg. apply Hk. rewrite prune_drop_spec. intros [_ [[Hp _]|(_ & _ & Hn)]]; [done|].
    apply Hn. unfold taskRevKey. by rewrite trimPrefix_app.
Qed.
End Store.
