(* ===== verification/RunStore.v ===== *)
(** * The store of runs as its users see it

    [runStore] of internal/feature/tasks/env.go: the runs as a map from their
    ID to their head and node records.  A write that fails may have been made
    all the same.  The task store on the replicated state machine
    (ClusterTaskStore) is one. *)

From S2P Require Import Prelude GoStrings GoRegexp GoTime TaskModel ClusterFSM ClusterTaskStore ClusterTaskStoreFacts.

Notation run_content := (RunRecord * gmap string RunNodeRecord)%type.

(** A write of [new] over what was: what reads back of run [id]. *)
Definition written (err : option StoreError) (old new now : run_content) : Prop :=
  now = new \/ err <> None /\ now = old.

Class RunStore (E S : Type) : Type := {
  st_list : S -> result StoreError (list RunRecord);
  st_get : S -> string -> result StoreError run_content;
  st_put : E -> S -> RunRecord -> S * option StoreError;
  st_put_node : E -> S -> string -> string -> RunNodeRecord -> S * option StoreError;
  st_prune : E -> S -> Z -> S * option StoreError;
  (** Records that read back as they are written. *)
  run_keeps : RunRecord -> Prop;
  node_keeps : RunNodeRecord -> Prop;
  put_reads e s r s' err id c :
    run_keeps r -> st_put e s r = (s', err) -> st_get s id = Ok c ->
    exists c', st_get s' id = Ok c' /\ if decide (id = rr_ID r) then written err c (r, c.2) c' else c' = c;
  put_node_reads e s run node rec s' err id c :
    node_keeps rec -> st_put_node e s run node rec = (s', err) -> st_get s id = Ok c ->
    exists c', st_get s' id = Ok c' /\ if decide (id = run) then written err c (c.1, <[node := rec]> c.2) c' else c' = c;
  prune_reads e s keep s' err id c :
    st_prune e s keep = (s', err) -> st_get s id = Ok c -> rr_ID c.1 = id -> Active c.1 = true -> st_get s' id = Ok c;
}.

Section Manager.
Context `{Codec Command, Codec Node, Codec string, Codec AdminAccount, Codec (list string)}.
Context `{Codec StoredTask, Codec RunRecord, Codec RunNodeRecord}.
Context `{!StoreJSON}.

(** Two managers with the same entries of a run. *)
Lemma GetRun_same m m' id c :
  (ms_fsm m' = None <-> ms_fsm m = None) ->
  (forall k, k = runKey id \/ hasPrefix k (run_prefix id) = true -> config m' !! k = config m !! k) ->
  GetRun m id = Ok c -> GetRun m' id = Ok c.
Proof.
  intros Hfsm Hk Hg. destruct c as [r nodes].
  destruct (ms_fsm m) as [f|] eqn:Ef; [|by unfold GetRun in Hg; rewrite Ef in Hg].
  destruct (ms_fsm m') as [f'|] eqn:Ef'; [|discriminate (proj1 Hfsm eq_refl)].
  assert (Hid : matchString runIDPattern id = true)
    by (unfold GetRun in Hg; rewrite Ef in Hg; by destruct (matchString runIDPattern id)).
  apply (GetRun_spec m f _ _ _ Ef Hid) in Hg as (Hr & HF & Hn). apply (GetRun_spec m' f' _ _ _ Ef' Hid). split_and!.
  - rewrite Hk by (by left). done.
  - intros k v Hv Hp. rewrite Hk in Hv by (by right). by apply (HF k v).
  - intros n. rewrite Hk by (right; apply hasPrefix_app). apply Hn.
Qed.

Lemma runKey_inj id1 id2 : runKey id1 = runKey id2 -> id1 = id2.
Proof. apply sapp_inj_l. Qed.

Lemma valid_run_id m id c : GetRun m id = Ok c -> matchString runIDPattern id = true.
Proof. unfold GetRun. destruct (ms_fsm m); [|done]. by destruct (matchString runIDPattern id). Qed.

(** No node record's key is a run's. *)
Lemma run_key_not_prefix id1 id2 :
  matchString runIDPattern id1 = true -> matchString runIDPattern id2 = true ->
  hasPrefix (runKey id1) (run_prefix id2) = false.
Proof.
  intros Hl1%run_id_length Hl2%run_id_length. destruct (hasPrefix _ _) eqn:E; [|done]. exfalso.
  apply hasPrefix_spec in E as [t Ht]. unfold run_prefix, runKey in Ht. rewrite !sapp_assoc in Ht.
  apply sapp_inj_l in Ht. apply (f_equal String.length) in Ht. rewrite !slength_app in Ht. simpl in Ht. lia.
Qed.

Lemma run_key_prefix_ne id1 id2 n :
  matchString runIDPattern id1 = true -> matchString runIDPattern id2 = true -> runKey id1 <> run_prefix id2 +:+ n.
Proof.
  intros H1' H2' E. pose proof (run_key_not_prefix id1 id2 H1' H2') as Hf.
  pose proof (hasPrefix_app (run_prefix id2) n). congruence.
Qed.

Lemma PutRun_reads e m r m' err id c :
  run_plain r -> PutRun e m r = (m', err) -> GetRun m id = Ok c ->
  exists c', GetRun m' id = Ok c' /\ if decide (id = rr_ID r) then written err c (r, c.2) c' else c' = c.
Proof.
  intros Hpl Hp Hg. unfold written.
  assert (Hsame : err <> None -> m' = m ->
    exists c', GetRun m' id = Ok c' /\ if decide (id = rr_ID r) then c' = (r, c.2) \/ err <> None /\ c' = c else c' = c).
  { intros He ->. exists c. split; [done|]. case_decide; auto. }
  unfold PutRun in Hp. destruct (negb (taskLeader m)); [simplify_eq; by apply Hsame|].
  destruct (matchString runIDPattern (rr_ID r)) eqn:Hrid; cbn [negb] in Hp; [|simplify_eq; by apply Hsame].
  destruct (json_marshal r) as [data|] eqn:Em; [|simplify_eq; by apply Hsame].
  pose proof (run_text _ _ Em) as Ht. pose proof (run_reads_back _ _ Hpl Em) as Hu.
  apply putTaskValue_wrote in Hp as (_ & _ & Hfsm & Hc); [|done]. pose proof (valid_run_id _ _ _ Hg) as Hid.
  destruct Hc as [Hc|[Hc He]].
  2: { exists c. split; [eapply GetRun_same; [done|by rewrite Hc|done]|]. case_decide; auto. }
  destruct (decide (id = rr_ID r)) as [->|Hne].
  - exists (r, c.2). split; [|by left]. destruct c as [r0 nodes].
    destruct (ms_fsm m) as [f|] eqn:Ef; [|by unfold GetRun in Hg; rewrite Ef in Hg].
    destruct (ms_fsm m') as [f'|] eqn:Ef'; [|discriminate (proj1 Hfsm eq_refl)].
    apply (GetRun_spec m f _ _ _ Ef Hid) in Hg as (Hr & HF & Hn). apply (GetRun_spec m' f' _ _ _ Ef' Hid).
    rewrite Hc. split_and!.
    + exists data. by rewrite lookup_insert_eq.
    + apply map_Forall_insert_2; [|done]. intros Hpre. by rewrite run_key_not_prefix in Hpre.
    + intros n. simpl. rewrite lookup_insert_ne; [apply Hn|]. intros E.
      by destruct (run_key_prefix_ne (rr_ID r) (rr_ID r) n Hid Hid).
  - exists c. split; [|done]. eapply GetRun_same; [done| |done]. intros k Hk. rewrite Hc, lookup_insert_ne; [done|].
    intros <-. destruct Hk as [E|Hpre]; [by apply runKey_inj in E|]. by rewrite run_key_not_prefix in Hpre.
Qed.

Lemma PutRunNode_reads e m run node rec m' err id c :
  node_plain rec -> PutRunNode e m run node rec = (m', err) -> GetRun m id = Ok c ->
  exists c', GetRun m' id = Ok c' /\ if decide (id = run) then written err c (c.1, <[node := rec]> c.2) c' else c' = c.
Proof.
  intros Hpl Hp Hg. unfold written.
  assert (Hsame : err <> None -> m' = m -> exists c', GetRun m' id = Ok c' /\
    if decide (id = run) then c' = (c.1, <[node := rec]> c.2) \/ err <> None /\ c' = c else c' = c).
  { intros He ->. exists c. split; [done|]. case_decide; auto. }
  unfold PutRunNode in Hp. destruct (negb (taskLeader m)); [simplify_eq; by apply Hsame|].
  destruct (matchString runIDPattern run) eqn:Hrid; cbn [negb orb] in Hp; [|simplify_eq; by apply Hsame].
  destruct (negb (validNodeSegment node)); [simplify_eq; by apply Hsame|].
  destruct (config_value m (runKey run)); [|simplify_eq; by apply Hsame].
  destruct (json_marshal rec) as [data|] eqn:Em; [|simplify_eq; by apply Hsame].
  pose proof (node_text _ _ Em) as Ht. pose proof (node_reads_back _ _ Hpl Em) as Hu.
  apply putTaskValue_wrote in Hp as (_ & _ & Hfsm & Hc); [|done]. pose proof (valid_run_id _ _ _ Hg) as Hid.
  destruct Hc as [Hc|[Hc He]].
  2: { exists c. split; [eapply GetRun_same; [done|by rewrite Hc|done]|]. case_decide; auto. }
  assert (Hkey : runNodeKey run node = run_prefix run +:+ node) by (unfold runNodeKey, run_prefix; by rewrite sapp_assoc).
  rewrite Hkey in Hc. destruct (decide (id = run)) as [->|Hne].
  - exists (c.1, <[node := rec]> c.2). split; [|by left]. destruct c as [r0 nodes].
    destruct (ms_fsm m) as [f|] eqn:Ef; [|by unfold GetRun in Hg; rewrite Ef in Hg].
    destruct (ms_fsm m') as [f'|] eqn:Ef'; [|discriminate (proj1 Hfsm eq_refl)].
    apply (GetRun_spec m f _ _ _ Ef Hid) in Hg as (Hr & HF & Hn). apply (GetRun_spec m' f' _ _ _ Ef' Hid).
    rewrite Hc. split_and!.
    + destruct Hr as (v & Hv & Hvr). exists v. rewrite lookup_insert_ne; [done|]. by apply not_eq_sym, run_key_prefix_ne.
    + apply map_Forall_insert_2; [|done]. by rewrite Hu.
    + intros n. destruct (decide (n = node)) as [->|Hnn]; [by rewrite !lookup_insert_eq|]. cbn [fst snd].
      rewrite !lookup_insert_ne; [apply Hn| |done]. by intros ?%sapp_inj_l.
  - exists c. split; [|done]. eapply GetRun_same; [done| |done]. intros k Hk. rewrite Hc, lookup_insert_ne; [done|].
    intros <-. destruct Hk as [E|Hpre]; [by apply eq_sym, run_key_prefix_ne in E|].
    rewrite <-Hkey in Hpre. by apply node_key_run in Hpre.
Qed.

(** ** Pruning *)

Lemma valid_id_no_slash id : matchString runIDPattern id = true -> indexByte id "/" = None.
Proof.
  intros Hm. assert (HF : Forall (fun c => Ascii.eqb c "/" = false) (list_ascii_of_string id)).
  { unfold matchString in Hm. apply re_match_spec in Hm. eapply re_all_spec; [exact Hm|].
    repeat split; intros [[] [] [] [] [] [] [] []]; vm_compute; congruence. }
  clear Hm. induction id as [|c id IH]; [done|]. cbn [list_ascii_of_string indexByte] in *.
  inversion HF as [|? ? Hc HF']; subst. by rewrite Hc, IH.
Qed.

Lemma contains_byte s c : indexByte s c = None -> contains s (String c "") = false.
Proof.
  induction s as [|d s IH]; [done|]. cbn [indexByte contains String.prefix]. destruct (Ascii.eqb d c) eqn:E; [done|].
  destruct (indexByte s c); [done|]. intros _. rewrite IH by done. destruct (ascii_dec c d) as [->|]; [|done].
  by rewrite Ascii.eqb_refl in E.
Qed.

Lemma cutByte_app s t c : indexByte s c = None -> cutByte (s +:+ String c t) c = (s, t, true).
Proof.
  unfold cutByte. intros Hi. assert (E : indexByte (s +:+ String c t) c = Some (String.length s)).
  { induction s as [|d s IH]; [cbn [String.append indexByte]; by rewrite Ascii.eqb_refl|].
    cbn [String.append indexByte String.length] in *. destruct (Ascii.eqb d c); [done|].
    destruct (indexByte s c); [done|]. by rewrite IH. }
  rewrite E, stake_app. do 2 f_equal. clear. induction s as [|d s IH]; [done|]. exact IH.
Qed.

Lemma run_of_key_run id : matchString runIDPattern id = true -> run_of_key (runKey id) = id.
Proof.
  intros Hi%valid_id_no_slash. unfold run_of_key, runKey, cutByte. by rewrite trimPrefix_app, Hi.
Qed.
Lemma run_of_key_node id n : matchString runIDPattern id = true -> run_of_key (run_prefix id +:+ n) = id.
Proof.
  intros Hi%valid_id_no_slash. unfold run_of_key, run_prefix, runKey, runNodeInfix.
  rewrite !sapp_assoc, trimPrefix_app. change ("/n/" +:+ n) with (String "/" ("n/" +:+ n)). by rewrite cutByte_app.
Qed.

(** A run in progress is among those a pruning keeps. *)
Lemma active_kept m keep id r nodes :
  GetRun m id = Ok (r, nodes) -> Active r = true -> kept m keep r.
Proof.
  intros Hg Ha. pose proof (valid_run_id _ _ _ Hg) as Hid.
  destruct (ms_fsm m) as [f|] eqn:Ef; [|by unfold GetRun in Hg; rewrite Ef in Hg].
  apply (GetRun_spec m f _ _ _ Ef Hid) in Hg as ((v & Hv & Hr) & _ & _).
  assert (Hin : r ∈ runHeads (with_prefix m taskRunKeyPrefix)).
  { unfold runHeads. rewrite merge_sort_Permutation. apply list_elem_of_omap. exists (runKey id, v). split.
    - apply elem_of_map_to_list. rewrite with_prefix_filter. apply map_lookup_filter_Some. split; [done|].
      apply hasPrefix_app.
    - unfold runKey. cbn [fst snd]. rewrite trimPrefix_app, contains_byte by (by apply valid_id_no_slash). done. }
  apply list_elem_of_lookup in Hin as [i Hi]. exists i. auto.
Qed.

Lemma PruneRuns_reads e m keep m' err id c :
  PruneRuns e m keep = (m', err) -> GetRun m id = Ok c -> rr_ID c.1 = id -> Active c.1 = true -> GetRun m' id = Ok c.
Proof.
  intros Hp Hg Hrid Ha. apply PruneRuns_other in Hp as [Hfsm Hk]. destruct c as [r nodes]. cbn [fst] in *.
  pose proof (valid_run_id _ _ _ Hg) as Hid. pose proof (active_kept m keep _ _ _ Hg Ha) as Hkept.
  eapply GetRun_same; [done| |done]. intros k Hpre. apply Hk. rewrite prune_drop_spec.
  assert (run_of_key k = id /\ hasPrefix k taskRevKeyPrefix = false) as [Hrun Hrev].
  { destruct Hpre as [->|[t ->]%hasPrefix_spec]; (split; [|done]); [by apply run_of_key_run|by apply run_of_key_node]. }
  intros (_ & [[_ Hn]|(Hr & _)]); [|congruence]. apply (Hn r Hkept). congruence.
Qed.

(** The task store is one. *)
#[export] Instance manager_store : RunStore raft_env Manager := {|
  st_list := ListRuns; st_get := GetRun; st_put := PutRun; st_put_node := PutRunNode; st_prune := PruneRuns;
  run_keeps := run_plain; node_keeps := node_plain;
  put_reads := PutRun_reads; put_node_reads := PutRunNode_reads; prune_reads := PruneRuns_reads;
|}.
End Manager.
