(* ===== verification/TaskPlan.v ===== *)
(** * The order of a run (internal/feature/tasks/plan.go)

    Which nodes a run takes and in which waves, and the ones it leaves out.
    What the code asks of the cluster is the record [planEnv], as one answer
    each. *)

From S2P Require Import Prelude GoStrings GoTime TaskModel TaskRefs TaskRender ClusterFSM ClusterTaskStore.

Definition MaxTargets : nat := 200.
Definition groupLabel : string := "group".
Definition LeftUnknown : string := "unknown".
Definition LeftOffline : string := "offline".
Definition LeftOutdated : string := "outdated".
Definition LeftUnreachable : string := "unreachable".
Definition LeftBusy : string := "busy".

Record PlanNode : Type := mkPlanNode {
  pn_ID : string;
  pn_Name : string;
  pn_Kind : string;
  pn_Leader : bool;
  pn_Reason : string;
  pn_RunID : string;
  pn_Verdicts : list CheckVerdict;
  pn_CheckError : string;
}.

Record Plan : Type := mkPlan { pl_Waves : list (list PlanNode); pl_Left : list PlanNode }.

Definition WaveIDs (p : Plan) : list (list string) := map (map pn_ID) (pl_Waves p).
Definition NodeIDs (p : Plan) : list string := concat (WaveIDs p).

Record planEnv : Type := mkPlanEnv {
  pe_LocalID : string;
  pe_Nodes : list Node;
  pe_Health : gmap string string;
  pe_Capable : string -> bool;
  pe_Unreachable : string -> bool;
  pe_ListRuns : result StoreError (list RunRecord);
  (** [Check]: a node's verdicts on its specs, or the call's error. *)
  pe_Check : string -> list JobSpec -> result string (list CheckVerdict);
}.

Inductive PlanError : Type :=
| ErrTooManyTargets
| ErrListRuns (e : StoreError)
| ErrRender (e : RenderError).

(** ** The order *)

Definition runBatch (t : Task) (batch : Z) : Z :=
  let batch := if batch <? 1 then tk_Batch t else batch in
  if batch <? 1 then 1 else batch.

Definition kindOf (n : Node) : string := if IsManager n then KindManager else KindAgent.

Definition targeted (n : Node) (t : Targets) : bool :=
  let g := default "" (default ∅ (nd_Labels n) !! groupLabel) in
  if negb (g ==s "") && slices_contains (default [] (tg_Groups t)) g then true
  else slices_contains (default [] (tg_Kinds t)) (kindOf n) || slices_contains (default [] (tg_Nodes t)) (nd_ID n).

Definition hold_nodes (r : RunRecord) (held : gmap string string) : gmap string string :=
  fold_left (fun held id => <[id := rr_ID r]> held) (rr_Nodes r) held.
Definition heldNodes (runs : result StoreError (list RunRecord)) : result StoreError (gmap string string) :=
  runs <-? runs ;;
  Ok (fold_left (fun held r => if negb (Active r) then held else hold_nodes r held) runs ∅).

Definition plan_le (a b : PlanNode) : Prop :=
  (if negb (pn_Name a ==s pn_Name b) then String.ltb (pn_Name a) (pn_Name b)
   else String.leb (pn_ID a) (pn_ID b)) = true.
#[export] Instance plan_le_dec : RelDecision plan_le := fun a b => decide (_ = true).
Definition sortPlanNodes (l : list PlanNode) : list PlanNode := merge_sort plan_le l.

(** Why a node is left out, and the run that holds it; [""] when it is not. *)
Definition left_reason (env : planEnv) (held : gmap string string) (n : Node) : string * string :=
  let id := nd_ID n in
  if negb (default "" (pe_Health env !! id) ==s StatusOnline) then (LeftOffline, "")
  else if negb (pe_Capable env id) then (LeftOutdated, "")
  else if pe_Unreachable env id then (LeftUnreachable, "")
  else if negb (default "" (held !! id) ==s "") then (LeftBusy, default "" (held !! id))
  else ("", "").

Definition plan_node (env : planEnv) (held : gmap string string) (n : Node) : PlanNode :=
  let '(reason, run) := left_reason env held n in
  mkPlanNode (nd_ID n) (nd_Name n) (kindOf n) (nd_ID n ==s pe_LocalID env) reason run [] "".

Definition unknown_node (id : string) : PlanNode := mkPlanNode id id "" false LeftUnknown "" [] "".

(** The chosen nodes, sorted into those left out, the leader, the managers and
    the agents, in the order of the loop. *)
Record sorting : Type := mkSorting {
  so_left : list PlanNode; so_leader : option PlanNode; so_managers : list PlanNode; so_agents : list PlanNode;
}.
Definition sort_node (env : planEnv) (held : gmap string string) (s : sorting) (n : Node) : sorting :=
  let pn := plan_node env held n in
  if negb (pn_Reason pn ==s "") then mkSorting (so_left s ++ [pn]) (so_leader s) (so_managers s) (so_agents s)
  else if pn_Leader pn then mkSorting (so_left s) (Some pn) (so_managers s) (so_agents s)
  else if IsManager n then mkSorting (so_left s) (so_leader s) (so_managers s ++ [pn]) (so_agents s)
  else mkSorting (so_left s) (so_leader s) (so_managers s) (so_agents s ++ [pn]).

(** The agents, [batch] at a time; with no progress the loop never ends, and
    the fuel runs out. *)
Fixpoint agent_waves (fuel : nat) (batch : Z) (agents : list PlanNode) : option (list (list PlanNode)) :=
  match agents with
  | [] => Some []
  | _ =>
      match fuel with
      | O => None
      | S fuel =>
          let k := Z.to_nat (Z.min batch (Z.of_nat (length agents))) in
          (fun ws => take k agents :: ws) <$> agent_waves fuel batch (drop k agents)
      end
  end.

Definition orderRun (env : planEnv) (targets : Targets) (batch : Z) : option (result PlanError Plan) :=
  let chosen := List.filter (fun n => targeted n targets) (pe_Nodes env) in
  let ids := map nd_ID (pe_Nodes env) in
  let unknown := map unknown_node
    (List.filter (fun id => negb (slices_contains ids id)) (default [] (tg_Nodes targets))) in
  if (MaxTargets <? length chosen)%nat then Some (Err ErrTooManyTargets)
  else
    match heldNodes (pe_ListRuns env) with
    | Err e => Some (Err (ErrListRuns e))
    | Ok held =>
        let s := fold_left (sort_node env held) chosen (mkSorting unknown None [] []) in
        waves ← agent_waves (length (so_agents s)) batch (sortPlanNodes (so_agents s));
        Some (Ok (mkPlan
          (waves ++ map (fun m => [m]) (sortPlanNodes (so_managers s)) ++
           match so_leader s with Some l => [[l]] | None => [] end)
          (sortPlanNodes (so_left s))))
    end.

(** ** The steps filled in *)

Section Rendering.
Variable SplitHostPort : string -> option string.
Variable ParseIP_String : string -> option string.

Definition nodeVars (n : Node) : NodeVars :=
  mkNodeVars (nd_Name n)
    (match AllAddresses SplitHostPort ParseIP_String n with a :: _ => a | [] => "" end).

(** The nodes by ID; the last of a repeated ID stays, as in the map. *)
Definition by_id (nodes : list Node) (id : string) : option Node :=
  List.find (fun n => nd_ID n ==s id) (rev nodes).

Definition zero_node : Node := mkNode "" "" "" "" None "" "" "" None 0 0.

Fixpoint render_nodes (t : Task) (inputs : gmap string string) (nodes : list Node) (l : list PlanNode)
    : result RenderError (list (PlanNode * list JobSpec)) :=
  match l with
  | [] => Ok []
  | pn :: l =>
      specs <-? Render t inputs (nodeVars (default zero_node (by_id nodes (pn_ID pn)))) ;;
      jobs <-? render_nodes t inputs nodes l ;;
      Ok ((pn, specs) :: jobs)
  end.

Definition renderPlan (t : Task) (inputs : gmap string string) (nodes : list Node) (p : Plan)
    : result RenderError (list (PlanNode * list JobSpec)) :=
  render_nodes t inputs nodes (concat (pl_Waves p)).

(** A node with what it answered. *)
Definition checked (env : planEnv) (pn : PlanNode) (specs : list JobSpec) : PlanNode :=
  match pe_Check env (pn_ID pn) specs with
  | Ok v => mkPlanNode (pn_ID pn) (pn_Name pn) (pn_Kind pn) (pn_Leader pn) (pn_Reason pn) (pn_RunID pn) v (pn_CheckError pn)
  | Err e => mkPlanNode (pn_ID pn) (pn_Name pn) (pn_Kind pn) (pn_Leader pn) (pn_Reason pn) (pn_RunID pn) (pn_Verdicts pn) e
  end.

(** The waves with their nodes asked; the questions do not depend on each
    other, so their order does not matter. *)
Fixpoint fill_waves (env : planEnv) (waves : list (list PlanNode)) (jobs : list (PlanNode * list JobSpec))
    : list (list PlanNode) :=
  match waves with
  | [] => []
  | w :: waves =>
      map (fun j => checked env j.1 j.2) (take (length w) jobs) :: fill_waves env waves (drop (length w) jobs)
  end.

Definition checkPlan (env : planEnv) (t : Task) (inputs : gmap string string) (p : Plan) : result PlanError Plan :=
  match renderPlan t inputs (pe_Nodes env) p with
  | Err e => Err (ErrRender e)
  | Ok jobs => Ok (mkPlan (fill_waves env (pl_Waves p) jobs) (pl_Left p))
  end.

Definition planRun (env : planEnv) (t : Task) (targets : Targets) (inputs : gmap string string) (batch : Z)
    : option (result PlanError Plan) :=
  (fun r => p <-? r ;; checkPlan env t inputs p) <$> orderRun env targets (runBatch t batch).
End Rendering.
