(* ===== verification/TaskPlanFacts.v ===== *)
(** * What a plan promises

    Every target is run or left out, once; a node that runs may run; agents
    come first, then the managers one by one, then the leader. *)

From S2P Require Import Prelude GoStrings GoTime TaskModel TaskRefs TaskRender ClusterFSM ClusterTaskStore.
From S2P Require Import TaskPlan.

(** ** Waves of agents *)

Lemma agent_waves_spec fuel batch agents :
  1 <= batch -> (length agents <= fuel)%nat ->
  exists waves, agent_waves fuel batch agents = Some waves /\ concat waves = agents /\
    Forall (fun w => 1 <= Z.of_nat (length w) <= batch) waves.
Proof.
  intros Hb. revert agents. induction fuel as [|fuel IH]; intros agents Hl.
  { destruct agents; [|simpl in Hl; lia]. by exists []. }
  destruct agents as [|a agents]; [by exists []|]. cbn [agent_waves].
  set (l := a :: agents) in *. set (k := Z.to_nat (Z.min batch (Z.of_nat (length l)))).
  assert (Hk : (1 <= k <= length l)%nat /\ Z.of_nat k <= batch) by (subst k l; simpl length; lia).
  destruct (IH (drop k l)) as (ws & E & Hc & HF).
  { rewrite length_drop. lia. }
  rewrite E. exists (take k l :: ws). split_and!; [done| |].
  - cbn [concat]. rewrite Hc. apply take_drop.
  - constructor; [|done]. rewrite length_take. lia.
Qed.

(** ** The sorting of the chosen *)

Definition opt_list {A} (o : option A) : list A := match o with Some a => [a] | None => [] end.
Definition all_sorted (s : sorting) : list PlanNode :=
  so_left s ++ opt_list (so_leader s) ++ so_managers s ++ so_agents s.

(** An element moved to the end of the part sorted so far. *)
Lemma perm_move {A} (a b rest l r : list A) x :
  l = a ++ x :: b ++ rest -> r = (a ++ b) ++ x :: rest -> l ≡ₚ r.
Proof. intros -> ->. rewrite <-app_assoc. apply Permutation_app_head, Permutation_middle. Qed.

Section Order.
Context (env : planEnv) (held : gmap string string).

Lemma sort_node_perm l s :
  NoDup (map nd_ID l) ->
  (is_Some (so_leader s) -> Forall (fun n => nd_ID n <> pe_LocalID env) l) ->
  all_sorted (fold_left (sort_node env held) l s) ≡ₚ all_sorted s ++ map (plan_node env held) l.
Proof.
  revert s. induction l as [|n l IH]; intros s Hnd Hl; [by rewrite app_nil_r|].
  inversion Hnd as [|? ? Hn Hnd']; subst. cbn [fold_left map].
  set (x := plan_node env held n).
  assert (Hx : pn_Leader x = (nd_ID n ==s pe_LocalID env)).
  { unfold x, plan_node. by destruct (left_reason env held n). }
  rewrite IH; [| done |].
  - unfold sort_node. fold x. destruct (negb _); [|destruct (pn_Leader x) eqn:El; [|destruct (IsManager n)]];
      unfold all_sorted; cbn [so_left so_leader so_managers so_agents].
    + by apply (perm_move (so_left s) (opt_list (so_leader s) ++ so_managers s ++ so_agents s)
        (map (plan_node env held) l) _ _ x); rewrite <-!app_assoc.
    + destruct (so_leader s) as [y|].
      * assert (Hf : Forall (fun n => nd_ID n <> pe_LocalID env) (n :: l)) by (apply Hl; eauto).
        inversion Hf as [|? ? Hne _]; subst. by apply String.eqb_neq in Hne; congruence.
      * by apply (perm_move (so_left s) (so_managers s ++ so_agents s)
          (map (plan_node env held) l) _ _ x); cbn [opt_list app]; rewrite <-!app_assoc; cbn [app]; rewrite <- ?app_assoc.
    + by apply (perm_move (so_left s ++ opt_list (so_leader s) ++ so_managers s) (so_agents s)
        (map (plan_node env held) l) _ _ x); rewrite <-!app_assoc.
    + by apply (perm_move (so_left s ++ opt_list (so_leader s) ++ so_managers s ++ so_agents s) []
        (map (plan_node env held) l) _ _ x); rewrite ?app_nil_r, <-!app_assoc.
  - unfold sort_node. fold x. destruct (negb _); [|destruct (pn_Leader x) eqn:El; [|destruct (IsManager n)]];
      cbn [so_leader]; intros Hs.
    + by apply Hl in Hs; inversion Hs.
    + symmetry in Hx. apply String.eqb_eq in Hx. apply Forall_forall. intros n' Hn' E. apply Hn.
      rewrite Hx, <-E. apply list_elem_of_fmap. eauto.
    + by apply Hl in Hs; inversion Hs.
    + by apply Hl in Hs; inversion Hs.
Qed.

(** A node the run may take now. *)
Definition may_run (id : string) : Prop :=
  default "" (pe_Health env !! id) = StatusOnline /\ pe_Capable env id = true /\
  pe_Unreachable env id = false /\ default "" (held !! id) = "".

Lemma plan_node_spec n :
  let pn := plan_node env held n in
  pn_ID pn = nd_ID n /\ pn_Kind pn = kindOf n /\ pn_Leader pn = (nd_ID n ==s pe_LocalID env) /\
  (pn_Reason pn = "" <-> may_run (nd_ID n)).
Proof.
  assert (Hr : (left_reason env held n).1 = "" <-> may_run (nd_ID n)).
  { unfold left_reason, may_run. cbv zeta.
    destruct (String.eqb_spec (default "" (pe_Health env !! nd_ID n)) StatusOnline) as [->|H1]; cbn [negb].
    2: { split; [done|]. by intros [? _]. }
    destruct (pe_Capable env (nd_ID n)); cbn [negb]; [|split; [done|by intros (_ & ? & _)]].
    destruct (pe_Unreachable env (nd_ID n)); [split; [done|by intros (_ & _ & ? & _)]|].
    destruct (String.eqb_spec (default "" (held !! nd_ID n)) "") as [->|H2]; cbn [negb]; [done|].
    split; [done|by intros (_ & _ & _ & ?)]. }
  unfold plan_node. by destruct (left_reason env held n).
Qed.

Definition runs_as (kind : string) (leader : bool) (pn : PlanNode) : Prop :=
  pn_Reason pn = "" /\ may_run (pn_ID pn) /\ pn_Leader pn = leader /\ (leader = false -> pn_Kind pn = kind).

Record sorted_ok (s : sorting) : Prop := {
  left_ok : Forall (fun pn => pn_Reason pn <> "") (so_left s);
  leader_ok : Forall (runs_as KindManager true) (opt_list (so_leader s));
  managers_ok : Forall (runs_as KindManager false) (so_managers s);
  agents_ok : Forall (runs_as KindAgent false) (so_agents s);
}.

Lemma sort_node_ok s n : sorted_ok s -> sorted_ok (sort_node env held s n).
Proof.
  intros [H1 H2 H3 H4]. unfold sort_node. destruct (plan_node_spec n) as (Hid & Hk & Hl & Hr).
  set (x := plan_node env held n) in *.
  destruct (String.eqb_spec (pn_Reason x) "") as [E|E]; cbn [negb].
  2: { split; try done. cbn [so_left]. apply Forall_app. by repeat constructor. }
  assert (Hmay : may_run (pn_ID x)) by (rewrite Hid; by apply Hr).
  destruct (pn_Leader x) eqn:El; [|destruct (IsManager n) eqn:Em]; split; try done;
    cbn [so_leader so_managers so_agents opt_list]; try (apply Forall_app; split; [done|]);
    (constructor; [|constructor]); unfold runs_as; rewrite El, Hk; unfold kindOf; rewrite ?Em; done.
Qed.

Lemma sort_nodes_ok l s : sorted_ok s -> sorted_ok (fold_left (sort_node env held) l s).
Proof. revert s. induction l as [|n l IH]; intros s Hs; [done|]. by apply IH, sort_node_ok. Qed.
End Order.

Lemma plan_le_total a b : plan_le a b \/ plan_le b a.
Proof.
  unfold plan_le. rewrite (String.eqb_sym (pn_Name b)). destruct (pn_Name a ==s pn_Name b) eqn:E; simpl.
  - unfold String.leb. rewrite (String.compare_antisym (pn_ID b) (pn_ID a)).
    destruct (pn_ID a ?= pn_ID b)%string; simpl; auto.
  - unfold String.ltb. rewrite (String.compare_antisym (pn_Name b) (pn_Name a)).
    destruct (pn_Name a ?= pn_Name b)%string eqn:Ec; simpl; auto.
    apply String.compare_eq_iff in Ec. apply String.eqb_neq in E. congruence.
Qed.
#[export] Instance plan_le_Total : Total plan_le.
Proof. intros a b. apply plan_le_total. Qed.

Lemma sortPlanNodes_sorted l : Sorted plan_le (sortPlanNodes l).
Proof. apply Sorted_merge_sort. apply _. Qed.
Lemma sortPlanNodes_perm l : sortPlanNodes l ≡ₚ l.
Proof. apply merge_sort_Permutation. Qed.

Lemma runBatch_pos t batch : 1 <= runBatch t batch.
Proof. unfold runBatch. cbv zeta. destruct (Z.ltb_spec batch 1); [destruct (Z.ltb_spec (tk_Batch t) 1)|destruct (Z.ltb_spec batch 1)]; lia. Qed.

(** The targets there are, and the IDs no node has. *)
Definition chosen (env : planEnv) (targets : Targets) : list Node :=
  List.filter (fun n => targeted n targets) (pe_Nodes env).
Definition unknown_ids (env : planEnv) (targets : Targets) : list string :=
  List.filter (fun id => negb (slices_contains (map nd_ID (pe_Nodes env)) id)) (default [] (tg_Nodes targets)).

Lemma NoDup_filter_ids env targets :
  NoDup (map nd_ID (pe_Nodes env)) -> NoDup (map nd_ID (chosen env targets)).
Proof.
  unfold chosen. induction (pe_Nodes env) as [|n l IH]; [done|]. cbn [map List.filter]. intros Hnd.
  inversion Hnd as [|? ? Hn Hnd']; subst. destruct (targeted n targets); [|auto]. cbn [map]. constructor; [|auto].
  intros (n' & E & Hn')%list_elem_of_fmap. apply Hn. rewrite E. apply list_elem_of_fmap. exists n'. split; [done|].
  apply list_elem_of_In, filter_In in Hn' as [? _]. by apply list_elem_of_In.
Qed.

(** What [orderRun] comes to, with as many targets as it may take. *)
Lemma orderRun_answer env targets batch held :
  1 <= batch -> heldNodes (pe_ListRuns env) = Ok held -> (length (chosen env targets) <= MaxTargets)%nat ->
  let s := fold_left (sort_node env held) (chosen env targets)
    (mkSorting (map unknown_node (unknown_ids env targets)) None [] []) in
  exists waves, orderRun env targets batch = Some (Ok (mkPlan
      (waves ++ map (fun m => [m]) (sortPlanNodes (so_managers s)) ++ map (fun l => [l]) (opt_list (so_leader s)))
      (sortPlanNodes (so_left s)))) /\
    concat waves = sortPlanNodes (so_agents s) /\
    Forall (fun w => 1 <= Z.of_nat (length w) <= batch) waves.
Proof.
  intros Hb Hh Hlen s. unfold orderRun. fold (chosen env targets). fold (unknown_ids env targets).
  rewrite (proj2 (Nat.ltb_ge _ _)) by lia. rewrite Hh. fold s.
  destruct (agent_waves_spec (length (so_agents s)) batch (sortPlanNodes (so_agents s)) Hb) as (ws & E & Hc & HF).
  { by rewrite sortPlanNodes_perm. }
  exists ws. rewrite E. simpl. split_and!; try done. by destruct (so_leader s).
Qed.

Lemma concat_singletons {A} (l : list A) : concat (map (fun a => [a]) l) = l.
Proof. induction l as [|a l IH]; [done|]. simpl. by rewrite IH. Qed.

Lemma start_sorted_ok env held ids : sorted_ok env held (mkSorting (map unknown_node ids) None [] []).
Proof. split; try constructor. apply Forall_map. by apply Forall_true. Qed.

(** The order is found, and every target, and every ID that is no node,
    is in it once: run in one of the waves, or left out with a reason; the
    ones run are online, capable, reachable and free. *)
Theorem orderRun_partition env targets batch held :
  NoDup (map nd_ID (pe_Nodes env)) -> heldNodes (pe_ListRuns env) = Ok held ->
  (length (chosen env targets) <= MaxTargets)%nat -> 1 <= batch ->
  exists p, orderRun env targets batch = Some (Ok p) /\
    concat (pl_Waves p) ++ pl_Left p ≡ₚ
      map unknown_node (unknown_ids env targets) ++ map (plan_node env held) (chosen env targets) /\
    Forall (fun pn => pn_Reason pn = "" /\ may_run env held (pn_ID pn)) (concat (pl_Waves p)) /\
    Forall (fun pn => pn_Reason pn <> "") (pl_Left p).
Proof.
  intros Hnd Hh Hlen Hb. destruct (orderRun_answer env targets batch held Hb Hh Hlen) as (ws & E & Hc & _).
  eexists. split; [exact E|]. cbn [pl_Waves pl_Left]. set (s := fold_left _ _ _) in *.
  rewrite !concat_app, Hc, !concat_singletons.
  pose proof (sort_nodes_ok env held (chosen env targets) _ (start_sorted_ok env held (unknown_ids env targets))) as Hok.
  fold s in Hok. destruct Hok as [H1 H2 H3 H4].
  split_and!.
  - rewrite !sortPlanNodes_perm.
    pose proof (sort_node_perm env held (chosen env targets)
      (mkSorting (map unknown_node (unknown_ids env targets)) None [] []) (NoDup_filter_ids _ _ Hnd)) as Hp.
    fold s in Hp. unfold all_sorted at 2 in Hp. cbn [so_left so_leader so_managers so_agents opt_list app] in Hp.
    rewrite app_nil_r in Hp. rewrite <-Hp; [|by intros [? ?]]. unfold all_sorted.
    rewrite (Permutation_app_comm _ (so_left s)). apply Permutation_app_head.
    rewrite (Permutation_app_comm (so_agents s)), (Permutation_app_comm (so_managers s) (opt_list _)), <-app_assoc.
    done.
  - rewrite !Forall_app, !sortPlanNodes_perm. split_and!; (eapply Forall_impl; [eassumption|]); by intros pn (? & ? & _).
  - by rewrite sortPlanNodes_perm.
Qed.

(** The agents go first, at most a batch at a time, then each manager
    alone, then the leader alone; each group goes by name and ID. *)
Theorem orderRun_order env targets batch held p :
  heldNodes (pe_ListRuns env) = Ok held -> 1 <= batch ->
  orderRun env targets batch = Some (Ok p) ->
  exists agents managers leader,
    pl_Waves p = agents ++ map (fun m => [m]) managers ++ map (fun l => [l]) leader /\
    Forall (fun w => 1 <= Z.of_nat (length w) <= batch) agents /\
    Sorted plan_le (concat agents) /\ Sorted plan_le managers /\ (length leader <= 1)%nat /\
    Forall (fun pn => pn_Kind pn = KindAgent /\ pn_Leader pn = false) (concat agents) /\
    Forall (fun pn => pn_Kind pn = KindManager /\ pn_Leader pn = false) managers /\
    Forall (fun pn => pn_Leader pn = true) leader.
Proof.
  intros Hh Hb Ho.
  assert (Hlen : (length (chosen env targets) <= MaxTargets)%nat).
  { unfold orderRun in Ho. fold (chosen env targets) in Ho.
    by destruct (Nat.ltb_spec MaxTargets (length (chosen env targets))). }
  destruct (orderRun_answer env targets batch held Hb Hh Hlen) as (ws & E & Hc & HF).
  rewrite E in Ho. injection Ho as <-. set (s := fold_left _ _ _) in *.
  pose proof (sort_nodes_ok env held (chosen env targets) _ (start_sorted_ok env held (unknown_ids env targets))) as Hok.
  fold s in Hok. destruct Hok as [_ H2 H3 H4].
  exists ws, (sortPlanNodes (so_managers s)), (opt_list (so_leader s)). rewrite Hc. split_and!; try done.
  - apply sortPlanNodes_sorted.
  - apply sortPlanNodes_sorted.
  - destruct (so_leader s); simpl; lia.
  - rewrite sortPlanNodes_perm. eapply Forall_impl; [exact H4|]. intros pn (_ & _ & Hl & Hk). auto.
  - rewrite sortPlanNodes_perm. eapply Forall_impl; [exact H3|]. intros pn (_ & _ & Hl & Hk). auto.
  - eapply Forall_impl; [exact H2|]. by intros pn (_ & _ & Hl & _).
Qed.

(** The nodes an order runs are among those chosen. *)
Lemma agent_waves_concat fuel batch agents waves : agent_waves fuel batch agents = Some waves -> concat waves = agents.
Proof.
  revert agents waves. induction fuel as [|fuel IH]; intros [|a agents] waves; simpl agent_waves; try (by intros [= <-]).
  intros Hw. destruct (agent_waves fuel batch _) as [ws|] eqn:E; [|done]. injection Hw as <-. cbn [concat].
  rewrite (IH _ _ E). apply take_drop.
Qed.

Lemma sort_nodes_chosen (P : string -> Prop) env held l s :
  Forall (fun n => P (nd_ID n)) l ->
  let ran s := so_agents s ++ so_managers s ++ opt_list (so_leader s) in
  Forall (fun pn => P (pn_ID pn)) (ran s) -> Forall (fun pn => P (pn_ID pn)) (ran (fold_left (sort_node env held) l s)).
Proof.
  intros Hl ran. revert s. induction Hl as [|n l Hn _ IH]; intros s Hs; [done|]. apply IH. unfold sort_node.
  assert (Hp : P (pn_ID (plan_node env held n))) by (unfold plan_node; by destruct (left_reason env held n)).
  unfold ran in *. rewrite !Forall_app in *. destruct Hs as (Ha & Hm & Ho).
  destruct (negb _); [|destruct (pn_Leader _); [|destruct (IsManager n)]]; cbn; split_and!; try done;
    try (apply Forall_app; split; [done|]); by repeat constructor.
Qed.

Lemma orderRun_nodes env targets batch p id :
  orderRun env targets batch = Some (Ok p) -> id ∈ NodeIDs p ->
  exists n, n ∈ chosen env targets /\ nd_ID n = id.
Proof.
  unfold orderRun. fold (chosen env targets). destruct (MaxTargets <? _)%nat; [done|].
  destruct (heldNodes _) as [held|]; [|done]. set (s := fold_left _ _ _).
  destruct (agent_waves _ _ _) as [ws|] eqn:Ew; [|done]. apply agent_waves_concat in Ew. intros [= <-].
  assert (Hs : Forall (fun pn => exists n, n ∈ chosen env targets /\ nd_ID n = pn_ID pn)
    (so_agents s ++ so_managers s ++ opt_list (so_leader s))).
  { apply (sort_nodes_chosen (fun i => exists n, n ∈ chosen env targets /\ nd_ID n = i)); [|by constructor].
    apply Forall_forall. eauto. }
  unfold NodeIDs, WaveIDs. cbn [pl_Waves]. rewrite <-concat_map.
  intros (pn & -> & Hpn)%list_elem_of_fmap. rewrite Forall_forall in Hs. apply Hs. revert Hpn.
  rewrite !concat_app, Ew, concat_singletons. rewrite !sortPlanNodes_perm. destruct (so_leader s); by simpl.
Qed.
