(* ===== verification/Interact.v ===== *)
(** * Programs that talk to the world

    A program of the system is a tree of calls: to the store, to other nodes,
    to the host, and to the memory its goroutines share.  What a call answers
    is left open, so a fact proved of a program holds whatever answers it.  A
    loop that polls has fuel; out of it the program is [Stuck], which is no
    answer.  The runner of a task (RunProg) and a node's jobs (JobProg) are
    programs of calls of their own. *)

From S2P Require Import Prelude.

Section Interact.
Context {call : Type} {answer : call -> Type}.

Inductive prog (A : Type) : Type :=
| Ret (a : A)
| Do (c : call) (k : answer c -> prog A)
| Stuck.
#[local] Arguments Ret {A} a.
#[local] Arguments Do {A} c k.
#[local] Arguments Stuck {A}.

Fixpoint pbind {A B} (p : prog A) (f : A -> prog B) : prog B :=
  match p with
  | Ret a => f a
  | Do c k => Do c (fun x => pbind (k x) f)
  | Stuck => Stuck
  end.
Definition do_call (c : call) : prog (answer c) := Do c Ret.

Definition result_of {A} (p : prog A) : option A := match p with Ret a => Some a | _ => None end.


(** ** What a program may do *)

(** A call with its answer. *)
Definition action : Type := sigT answer.
Definition act (c : call) (x : answer c) : action := existT c x.

(** The actions of a program as far as it went, and its result if it ended. *)
Inductive exec {A} : prog A -> list action -> option A -> Prop :=
| exec_stop p : exec p [] None
| exec_ret a : exec (Ret a) [] (Some a)
| exec_do c k x tr o : exec (k x) tr o -> exec (Do c k) (act c x :: tr) o.

(** A monitor watches the actions: which it allows, and what it knows after. *)
Record monitor : Type := mkMonitor {
  mn_state : Type;
  mn_ok : mn_state -> action -> Prop;
  mn_next : mn_state -> action -> mn_state;
}.

Fixpoint watch (m : monitor) (s : mn_state m) (tr : list action) : Prop :=
  match tr with
  | [] => True
  | a :: tr => mn_ok m s a /\ watch m (mn_next m s a) tr
  end.

Lemma watch_at m s tr1 a tr2 :
  watch m s (tr1 ++ a :: tr2) -> mn_ok m (fold_left (mn_next m) tr1 s) a.
Proof. revert s. induction tr1 as [|b tr1 IH]; simpl; intros s [H1 H2]; [done|]. by apply IH. Qed.

Lemma watch_intro m s tr :
  (forall tr1 a tr2, tr = tr1 ++ a :: tr2 -> mn_ok m (fold_left (mn_next m) tr1 s) a) -> watch m s tr.
Proof.
  revert s. induction tr as [|b tr IH]; intros s H; simpl; [done|]. split; [by apply (H [] b tr)|].
  apply IH. intros tr1 a tr2 ->. by apply (H (b :: tr1) a tr2).
Qed.

(** [p], watched from [s] where the answers are as [R] relies on, does only
    what the monitor allows, and ends as [Q] says. *)
Fixpoint wp {A} (R : action -> Prop) (m : monitor) (p : prog A) (s : mn_state m) (Q : A -> mn_state m -> Prop) : Prop :=
  match p with
  | Ret a => Q a s
  | Stuck => True
  | Do c k => forall x, R (act c x) -> mn_ok m s (act c x) /\ wp R m (k x) (mn_next m s (act c x)) Q
  end.

Lemma wp_mono {A} R m (p : prog A) s (Q Q' : A -> mn_state m -> Prop) :
  wp R m p s Q -> (forall a s', Q a s' -> Q' a s') -> wp R m p s Q'.
Proof.
  revert s. induction p as [a|c k IH|]; intros s H HQ; simpl in *; [auto| |done].
  intros x Hx. destruct (H x Hx) as [Hok H']. split; [done|]. by apply IH.
Qed.

Lemma wp_bind {A B} R m (p : prog A) (f : A -> prog B) s Q :
  wp R m p s (fun a s' => wp R m (f a) s' Q) -> wp R m (pbind p f) s Q.
Proof.
  revert s. induction p as [a|c k IH|]; intros s H; simpl in *; [done| |done].
  intros x Hx. destruct (H x Hx) as [Hok H']. split; [done|]. by apply IH.
Qed.

Lemma wp_call {A} R m c (f : answer c -> prog A) s Q :
  (forall x, R (act c x) -> mn_ok m s (act c x) /\ wp R m (f x) (mn_next m s (act c x)) Q) ->
  wp R m (pbind (do_call c) f) s Q.
Proof. done. Qed.

(** Every execution of a program that is [wp] passes the monitor. *)
Lemma wp_sound {A} R m (p : prog A) s Q tr o :
  wp R m p s Q -> exec p tr o -> Forall R tr ->
  watch m s tr /\ forall a, o = Some a -> Q a (fold_left (mn_next m) tr s).
Proof.
  intros H He HR. revert s H. induction He as [p|a|c k x tr o He IH]; intros s H; simpl in *.
  - done.
  - split; [done|]. by intros ? [= <-].
  - inversion HR as [|? ? Hx HR']; subst. destruct (H x Hx) as [Hok H'].
    destruct (IH HR' _ H') as [Hw HQ]. done.
Qed.

(** And a program whose every execution passes is [wp]. *)
Lemma wp_complete {A} R m (p : prog A) s (Q : A -> mn_state m -> Prop) :
  (forall tr o, exec p tr o -> Forall R tr ->
     watch m s tr /\ forall a, o = Some a -> Q a (fold_left (mn_next m) tr s)) ->
  wp R m p s Q.
Proof.
  revert s. induction p as [a|c k IH|]; intros s H; simpl; [| |done].
  - by apply (H [] (Some a)); [constructor|constructor|].
  - intros x Hx. split.
    + destruct (H [act c x] None) as [[? _] _]; [repeat constructor|by repeat constructor|done].
    + apply IH. intros tr o He HR. destruct (H (act c x :: tr) o) as [[_ ?] ?]; [by constructor|by constructor|done].
Qed.

(** Every call of the program is as [P] says. *)
Fixpoint only {A} (P : call -> Prop) (p : prog A) : Prop :=
  match p with
  | Ret _ | Stuck => True
  | Do c k => P c /\ forall x, only P (k x)
  end.

Lemma only_bind {A B} P (p : prog A) (f : A -> prog B) : only P p -> (forall a, only P (f a)) -> only P (pbind p f).
Proof. induction p as [a|c k IH|]; simpl; intros Hp Hf; [auto| |done]. destruct Hp. auto. Qed.

Lemma only_mono {A} (P P' : call -> Prop) (p : prog A) : (forall c, P c -> P' c) -> only P p -> only P' p.
Proof. intros HP. induction p as [a|c k IH|]; simpl; [done| |done]. intros [? ?]. auto. Qed.

(** A program of calls the monitor allows and that leave it as it is. *)
Lemma wp_only {A} R m P (p : prog A) s (Q : A -> mn_state m -> Prop) :
  (forall c x, P c -> mn_ok m s (act c x) /\ mn_next m s (act c x) = s) ->
  only P p -> (forall a, Q a s) -> wp R m p s Q.
Proof.
  intros HP Hp HQ. induction p as [a|c k IH|]; simpl in *; [auto| |done].
  intros x _. destruct Hp as [Hc Hk]. destruct (HP c x Hc) as [? ->]. auto.
Qed.

(** Every result of the program is as [P] says, whatever is answered. *)
Fixpoint yields {A} (P : A -> Prop) (p : prog A) : Prop :=
  match p with
  | Ret a => P a
  | Stuck => True
  | Do c k => forall x, yields P (k x)
  end.

Lemma yields_bind {A B} (P : B -> Prop) (p : prog A) (f : A -> prog B) :
  (forall a, yields P (f a)) -> yields P (pbind p f).
Proof. intros Hf. induction p as [a|c k IH|]; simpl; auto. Qed.

Lemma yields_mono {A} (P Q : A -> Prop) (p : prog A) : yields P p -> (forall a, P a -> Q a) -> yields Q p.
Proof. intros H HPQ. induction p as [a|c k IH|]; simpl in *; auto. Qed.
Lemma yields_then {A B} (R : A -> Prop) (P : B -> Prop) (p : prog A) (f : A -> prog B) :
  yields R p -> (forall a, R a -> yields P (f a)) -> yields P (pbind p f).
Proof. intros HR Hf. induction p as [a|c k IH|]; simpl in *; auto. Qed.
Lemma only_then {A B} P (R : A -> Prop) (p : prog A) (f : A -> prog B) :
  only P p -> yields R p -> (forall a, R a -> only P (f a)) -> only P (pbind p f).
Proof. induction p as [a|c k IH|]; simpl; intros Hp HR Hf; [auto| |done]. destruct Hp. auto. Qed.

Lemma exec_inv {A} (p : prog A) tr o :
  exec p tr o -> (tr = [] /\ o = None) \/
  match p with
  | Ret a => tr = [] /\ o = Some a
  | Do c k => exists x tr', tr = act c x :: tr' /\ exec (k x) tr' o
  | Stuck => False
  end.
Proof. destruct 1; eauto 8. Qed.

Lemma exec_only {A} P (p : prog A) tr o : only P p -> exec p tr o -> forall a, a ∈ tr -> P (projT1 a).
Proof.
  intros Hp He. induction He as [p|a|c k x tr o He IH]; intros b Hb; [by apply not_elem_of_nil in Hb..|].
  destruct Hp as [Hc Hk]. apply elem_of_cons in Hb as [->|Hb]; [done|]. by apply (IH (Hk x)).
Qed.

Lemma exec_bind {A B} (p : prog A) (f : A -> prog B) tr b :
  exec (pbind p f) tr (Some b) ->
  exists tr1 a tr2, tr = tr1 ++ tr2 /\ exec p tr1 (Some a) /\ exec (f a) tr2 (Some b).
Proof.
  revert tr. induction p as [a|c k IH|]; intros tr H; simpl in H.
  - exists [], a, tr. split_and!; [done|constructor|done].
  - apply exec_inv in H as [[_ ?]|(x & tr' & -> & H)]; [done|].
    destruct (IH _ _ H) as (tr1 & a & tr2 & -> & H1 & H2). exists (act c x :: tr1), a, tr2. by split_and!; [|constructor|].
  - apply exec_inv in H as [[_ ?]|[]]. done.
Qed.

Lemma exec_first {A} c (f : answer c -> prog A) tr o :
  exec (pbind (do_call c) f) tr o ->
  (tr = [] /\ o = None) \/ exists x tr', tr = act c x :: tr' /\ exec (f x) tr' o.
Proof. exact (exec_inv (pbind (do_call c) f) tr o). Qed.

Lemma exec_call c (k : answer c) tr : exec (do_call c) tr (Some k) -> tr = [act c k].
Proof.
  intros H. apply exec_inv in H as [[_ ?]|(x & tr' & -> & H)]; [done|].
  apply exec_inv in H as [[_ ?]|[-> ?]]; [done|]. by simplify_eq.
Qed.

Lemma result_of_all {A} (ps : list (prog A)) rs :
  mapM result_of ps = Some rs -> Forall2 (fun p r => p = Ret r) ps rs.
Proof.
  intros H. apply mapM_Some in H. eapply Forall2_impl; [done|]. intros p r Hp. destruct p; simpl in Hp; congruence.
Qed.

(** ** What was asked so far *)

(** A monitor that keeps every action. *)
Definition history (ok : list action -> action -> Prop) : monitor := mkMonitor (list action) ok (fun past a => past ++ [a]).
Definition anything (_ : action) : Prop := True.

Lemma history_all ok past tr : fold_left (mn_next (history ok)) tr past = past ++ tr.
Proof.
  revert past. induction tr as [|a tr IH]; intros past; simpl; [by rewrite app_nil_r|].
  rewrite IH, <-app_assoc. done.
Qed.

(** Every call was as the history before it allows, and the end is as said. *)
Lemma history_sound {A} ok (p : prog A) Q tr o :
  wp anything (history ok) p [] Q -> exec p tr o ->
  (forall tr1 a tr2, tr = tr1 ++ a :: tr2 -> ok tr1 a) /\ (forall a, o = Some a -> Q a tr).
Proof.
  intros Hw He. destruct (wp_sound _ _ _ _ _ _ _ Hw He) as [Hok HQ]; [by apply Forall_true|]. split.
  - intros tr1 a tr2 ->. apply watch_at in Hok. by rewrite history_all in Hok.
  - intros a Ha. specialize (HQ a Ha). by rewrite history_all in HQ.
Qed.

(** A program of calls that are always allowed adds them to the history. *)
Lemma wp_quiet {A} ok P (p : prog A) past (Q : A -> list action -> Prop) :
  only P p -> (forall past c x, P c -> ok past (act c x)) ->
  (forall a more, Forall (fun a => P (projT1 a)) more -> Q a (past ++ more)) ->
  wp anything (history ok) p past Q.
Proof.
  intros Hp Hok. revert past. induction p as [a|c k IH|]; intros past HQ; simpl in *; [|destruct Hp as [Hc Hk]|done].
  - specialize (HQ a []). rewrite app_nil_r in HQ. by apply HQ.
  - intros x _. split; [by apply Hok|]. apply IH; [done|]. intros b more Hm. rewrite <-app_assoc.
    apply HQ. by constructor.
Qed.

(** The history a while later, with calls as [P] says since. *)
Definition since (P : call -> Prop) (past past' : list action) : Prop :=
  exists more, past' = past ++ more /\ Forall (fun a => P (projT1 a)) more.
Lemma since_refl P past : since P past past.
Proof. exists []. by rewrite app_nil_r. Qed.
Lemma since_more (P : call -> Prop) past more : Forall (fun a => P (projT1 a)) more -> since P past (past ++ more).
Proof. by exists more. Qed.
Lemma since_one (P : call -> Prop) past c x : P c -> since P past (past ++ [act c x]).
Proof. intros Hc. apply since_more. by repeat constructor. Qed.
Lemma since_trans P p1 p2 p3 : since P p1 p2 -> since P p2 p3 -> since P p1 p3.
Proof.
  intros (m & -> & Hm) (m' & -> & Hm'). exists (m ++ m'). rewrite app_assoc. split; [done|]. by apply Forall_app.
Qed.
Lemma since_keep P past past' a : since P past past' -> a ∈ past -> a ∈ past'.
Proof. intros (m & -> & _) Ha. by apply elem_of_app; left. Qed.
(** Calls that are always allowed, one by one: their answers join what is
    known to be in the history. *)
Lemma wp_asked {A} P (ok : list action -> action -> Prop) past c (f : answer c -> prog A) Q :
  (forall past c x, P c -> ok past (act c x)) -> P c ->
  (forall x past', since P past past' -> act c x ∈ past' -> wp anything (history ok) (f x) past' Q) ->
  wp anything (history ok) (pbind (do_call c) f) past Q.
Proof.
  intros Hok Hc Hf x _. split; [by apply Hok|]. apply Hf; [by apply since_one|].
  apply elem_of_app. right. by apply list_elem_of_singleton.
Qed.
Lemma wp_quietly {A B} P (ok : list action -> action -> Prop) past (p : prog A) (f : A -> prog B) Q :
  (forall past c x, P c -> ok past (act c x)) -> only P p ->
  (forall x past', since P past past' -> wp anything (history ok) (f x) past' Q) ->
  wp anything (history ok) (pbind p f) past Q.
Proof.
  intros Hok Hp Hf. apply wp_bind. apply (wp_quiet ok P); [done..|]. intros x more Hm.
  by apply Hf, since_more.
Qed.

End Interact.

Arguments prog {call} answer A.
Arguments Ret {call answer A} a.
Arguments Do {call answer A} c k.
Arguments Stuck {call answer A}.
Arguments action {call} answer.
Arguments monitor {call} answer.

Declare Scope prog_scope.
Delimit Scope prog_scope with prog.
Notation "x <-- p ;; q" := (pbind p (fun x => q))
  (at level 100, p at next level, right associativity) : prog_scope.
Notation "p ;;; q" := (pbind p (fun _ => q)) (at level 100, right associativity) : prog_scope.

(** What was known to be in the history is in the longer one. *)
Ltac since_on Hp :=
  lazymatch type of Hp with
  | since _ ?a ?b =>
      repeat match goal with H : _ ∈ a |- _ => apply (since_keep _ _ _ _ Hp) in H end;
      match goal with H : since _ _ a |- _ => apply (since_trans _ _ _ _ H) in Hp; clear H end
  end.
Tactic Notation "asked" ident(x) :=
  let p := fresh "p" in let Hp := fresh "Hp" in let Hm := fresh "Hm" in
  lazymatch goal with
  | H : since ?P _ ?past |- wp _ (history _) _ ?past _ => apply (wp_asked P); [done..|]; intros x p Hp Hm; since_on Hp
  end.

(** Goes down a program call by call; what is left are the programs it is
    made of, which the context or the hints of [only_db] know. *)
Create HintDb only_db.
#[export] Hint Resolve eq_refl : only_db.
Ltac only_step :=
  match goal with
  | |- only _ _ => solve [auto]
  | |- only _ _ => solve [auto with only_db nocore]
  | |- only _ (pbind (do_call _) _) => split; [done|intros ?]
  | |- only _ (pbind _ _) => apply only_bind; [|intros ?]
  | |- only _ (Do _ _) => split; [done|intros ?; cbv beta]
  | |- only _ (Ret _) => done
  | |- only _ Stuck => done
  | |- only _ (do_call _) => split; [done|intros ?; done]
  | |- only _ (if ?b then _ else _) => destruct b eqn:?
  | |- only _ (match ?x with _ => _ end) => destruct x eqn:?
  end.
Ltac only_go := repeat only_step.
