(* ===== verification/World.v ===== *)
(** * Programs in a world that may stop them at any moment

    A world gives each call the answers it may have and what it does.  A run
    may end before its program does: the panel is killed, the host loses
    power.  [wpc] is the logic of such runs, with a condition that holds
    wherever one is cut off. *)

From S2P Require Import Prelude Interact.

#[local] Open Scope prog_scope.

Section World.
Context {call : Type} {answer : call -> Type} {W : Type}.
Variable step : W -> forall c, answer c -> W -> Prop.

(** A run as far as it went, with the result if it came to it. *)
Inductive runs {A} : W -> prog answer A -> option A -> W -> Prop :=
| runs_stop w p : runs w p None w
| runs_ret w a : runs w (Ret a) (Some a) w
| runs_do w c k x w1 o w2 : step w c x w1 -> runs w1 (k x) o w2 -> runs w (Do c k) o w2.

Fixpoint wpc {A} (C : W -> Prop) (p : prog answer A) (w : W) (Q : A -> W -> Prop) : Prop :=
  C w /\
  match p with
  | Ret a => Q a w
  | Stuck => True
  | Do c k => forall x w1, step w c x w1 -> wpc C (k x) w1 Q
  end.

Lemma wpc_here {A} C (p : prog answer A) w Q : wpc C p w Q -> C w.
Proof. destruct p; by intros [? _]. Qed.

Lemma wpc_mono {A} (C C' : W -> Prop) (p : prog answer A) w (Q Q' : A -> W -> Prop) :
  wpc C p w Q -> (forall w, C w -> C' w) -> (forall a w, Q a w -> Q' a w) -> wpc C' p w Q'.
Proof.
  intros H HC HQ. revert w H. induction p as [a|c k IH|]; intros w [Hc H]; split; auto.
Qed.

Lemma wpc_bind {A B} C (p : prog answer A) (f : A -> prog answer B) w Q :
  wpc C p w (fun a w => wpc C (f a) w Q) -> wpc C (pbind p f) w Q.
Proof.
  revert w. induction p as [a|c k IH|]; intros w H; simpl in *; [by destruct H| |done].
  destruct H as [Hc H]. split; [done|]. intros x w1 Hs. by apply IH, H.
Qed.

Lemma wpc_call {A} (C : W -> Prop) c (f : answer c -> prog answer A) w Q :
  C w -> (forall x w1, step w c x w1 -> wpc C (f x) w1 Q) -> wpc C (pbind (do_call c) f) w Q.
Proof. by split. Qed.

Lemma wpc_ret {A} (C : W -> Prop) (a : A) w (Q : A -> W -> Prop) : C w -> Q a w -> wpc C (Ret a) w Q.
Proof. by split. Qed.

(** Every run keeps the condition to where it was cut off, and its result is
    as promised. *)
Lemma wpc_sound {A} C (p : prog answer A) w Q o w' :
  wpc C p w Q -> runs w p o w' -> C w' /\ forall a, o = Some a -> Q a w'.
Proof.
  intros H Hr. revert H. induction Hr as [w p|w a|w c k x w1 o w2 Hs _ IH]; intros H.
  - split; [by eapply wpc_here|done].
  - destruct H as [? ?]. split; [done|]. by intros ? [= <-].
  - destruct H as [_ H]. eauto.
Qed.

(** A program whose calls all leave the world as it is. *)
Lemma wpc_still {A} (C : W -> Prop) P (p : prog answer A) w (Q : A -> W -> Prop) :
  (forall c x w1, P c -> step w c x w1 -> w1 = w) -> only P p -> C w -> (forall a, Q a w) -> wpc C p w Q.
Proof.
  intros HP Hp Hc HQ. induction p as [a|c k IH|]; simpl in *; [by auto| |done].
  destruct Hp as [Hpc Hk]. split; [done|]. intros x w1 Hs. rewrite (HP _ _ _ Hpc Hs). auto.
Qed.

(** A world that answers, and a run in it cut off after [n] calls. *)
Section Play.
Variable ans : W -> forall c, answer c * W.
Fixpoint play {A} (n : nat) (p : prog answer A) (w : W) : option A * W :=
  match p, n with
  | Ret a, _ => (Some a, w)
  | Do c k, S n => play n (k (ans w c).1) (ans w c).2
  | _, _ => (None, w)
  end.

Lemma play_runs {A} (I : W -> Prop) n (p : prog answer A) w :
  (forall w c, I w -> step w c (ans w c).1 (ans w c).2 /\ I (ans w c).2) -> I w ->
  runs w p (play n p w).1 (play n p w).2.
Proof.
  intros HI. revert w n. induction p as [a|c k IH|]; intros w n Hw; destruct n as [|n]; simpl; try constructor.
  destruct (HI w c Hw) as [Hs Hw']. by econstructor; [|apply IH].
Qed.
End Play.
End World.

(** ** A program over some of the calls as one over all of them *)

Section Lift.
Context {call1 call2 : Type} {answer1 : call1 -> Type} {answer2 : call2 -> Type}.
Variable inj : call1 -> call2.
Variable back : forall c, answer2 (inj c) -> answer1 c.

Fixpoint lift {A} (p : prog answer1 A) : prog answer2 A :=
  match p with
  | Ret a => Ret a
  | Stuck => Stuck
  | Do c k => Do (inj c) (fun x => lift (k (back c x)))
  end.

Lemma only_lift {A} (P : call2 -> Prop) (p : prog answer1 A) : (forall c, P (inj c)) -> only P (lift p).
Proof. intros HP. induction p as [a|c k IH|]; simpl; auto. Qed.
Lemma yields_lift {A} (P : A -> Prop) (p : prog answer1 A) : yields P p -> yields P (lift p).
Proof. intros HP. induction p as [a|c k IH|]; simpl in *; auto. Qed.
End Lift.

(** ** A program whose calls another handles *)

Section Handled.
Context {call1 call2 : Type} {answer1 : call1 -> Type} {answer2 : call2 -> Type} {S : Type}.
(** What a call does, with the handler's own state. *)
Variable handle : S -> forall c, prog answer2 (answer1 c * S).

Fixpoint handled {A} (s : S) (p : prog answer1 A) : prog answer2 (A * S) :=
  match p with
  | Ret a => Ret (a, s)
  | Stuck => Stuck
  | Do c k => pbind (handle s c) (fun xs => handled xs.2 (k xs.1))
  end.

Lemma only_handled {A} (P : call2 -> Prop) s (p : prog answer1 A) :
  (forall s c, only P (handle s c)) -> only P (handled s p).
Proof.
  intros HP. revert s. induction p as [a|c k IH|]; intros s; simpl; [done| |done].
  apply only_bind; [apply HP|]. intros [x s']. apply IH.
Qed.
Lemma yields_handled {A} (P : A -> Prop) s (p : prog answer1 A) : yields P p -> yields (fun xs => P xs.1) (handled s p).
Proof.
  revert s. induction p as [a|c k IH|]; intros s Hp; simpl in *; [done| |done].
  apply yields_bind. intros [x s']. by apply IH.
Qed.
End Handled.
