(* ===== verification/FileCall.v ===== *)
(** * The calls on the host's files

    What the file manager's guards and the steps of a job ask of package os:
    each call is one system call, or one operation of the standard library
    that is seen as a whole. *)

From S2P Require Import Prelude GoStrings Interact.

(** What [errors.Is] tells of an error of package os. *)
Inductive fs_kind : Type := ErrNotExist | ErrPermission | ErrOther.
Record fs_error : Type := mkFsError { fe_kind : fs_kind; fe_text : string }.

(** An [os.FileInfo]: its mode's type and permissions, its size, the owner
    that [Sys()] tells where it tells one, and whether it is a directory. *)
Record FileInfo : Type := mkFileInfo {
  fi_IsRegular : bool;
  fi_Perm : Z;
  fi_Size : Z;
  fi_Sys : option (Z * Z);
  fi_IsDir : bool;
}.

Inductive fcall : Type :=
| Lstat (p : string)                          (* whether it is a symbolic link *)
| Readlink (p : string)
| EvalSymlinks (p : string)
| Stat (p : string)
| ReadFileAll (p : string)
| MkdirAll (p : string) (perm : Z)
| CreateTemp (dir pattern : string)
| TmpWrite (tmp content : string)             (* on the file CreateTemp opened *)
| TmpChmod (tmp : string) (mode : Z)
| TmpChown (tmp : string) (uid gid : Z)
| TmpSync (tmp : string)
| TmpClose (tmp : string)
| Rename (from to : string)
| Remove (p : string)
| ChmodPath (p : string) (mode : Z)
| ChownPath (p : string) (uid gid : Z)
| SyncDir (p : string)                        (* opened, flushed and closed *)
| LookupUser (name : string)                  (* user.Lookup, its Uid *)
| LookupGroup (name : string).

Definition fanswer (c : fcall) : Type :=
  match c with
  | Lstat _ => result fs_error bool
  | Readlink _ | EvalSymlinks _ | ReadFileAll _ | CreateTemp _ _ => result fs_error string
  | Stat _ => result fs_error FileInfo
  | LookupUser _ | LookupGroup _ => option Z
  | _ => option fs_error
  end.

Notation fprog := (Interact.prog fanswer).
Notation fdo := (@Interact.do_call fcall fanswer).
