(* ===== verification/ComposeCall.v ===== *)
(** * The calls of the compose manager (internal/docker/compose.go)

    The host's files, what the manager asks of the Docker engine, and the
    `docker compose` commands it runs. *)

From S2P Require Import Prelude GoStrings Interact FileCall.

(** A container as the engine lists it. *)
Record port : Type := mkPort { po_IP : string; po_PublicPort : Z; po_PrivatePort : Z; po_Type : string }.
Record container : Type := mkContainer {
  ct_ID : string;
  ct_Image : string;
  ct_State : string;
  ct_Status : string;
  ct_Labels : list (string * string);
  ct_Ports : list port;
}.

Record ImageUpdateStatus : Type := mkImageUpdateStatus {
  iu_Image : string;
  iu_Tag : string;
  iu_CurrentID : string;
  iu_CurrentDigest : string;
  iu_RemoteDigest : string;
  iu_CurrentCreated : string;
  iu_HasUpdate : bool;
  iu_Error : string;
}.

Inductive ccall : Type :=
| CFs (c : fcall)
| ReadDir (p : string)                                (* the names, and which are directories *)
| RemoveAll (p : string)
| Trash (p : string)                                  (* the file manager's, where there is one *)
| HasClient                                           (* m.DockerClient() != nil *)
| ListContainersCached
| ListContainersByComposeProject (project : string)
| InspectImage (image : string)                       (* its ID *)
| CheckImageUpdate (image : string)
| DockerTag (id image : string)
| ComposeStdout (dir : string) (args : list string)   (* cmd.Output of `docker args` in dir *)
| ComposeStdin (dir : string) (args : list string) (input : string)
| ComposeCombined (dir : string) (args : list string) (* cmd.CombinedOutput *)
| ComposeBegin (dir : string) (args : list string)    (* cmd.Start *)
| ComposeLines                                        (* what it prints to the end, and the scanner's error *)
| OnLine (line : string)                              (* the caller's onLine *)
| ComposeWait.                                        (* cmd.Wait *)

(** An error is its text. *)
Definition canswer (c : ccall) : Type :=
  match c with
  | CFs c => fanswer c
  | ReadDir _ => result string (list (string * bool))
  | RemoveAll _ => option string
  | Trash _ => option (option string)                 (* [None]: no trash is wired *)
  | HasClient => bool
  | ListContainersCached | ListContainersByComposeProject _ => result string (list container)
  | InspectImage _ => result string string
  | CheckImageUpdate _ => result string ImageUpdateStatus
  | DockerTag _ _ => string * option string
  | ComposeStdout _ _ => string * string * option string
  | ComposeStdin _ _ _ | ComposeCombined _ _ => string * option string
  | ComposeBegin _ _ | ComposeWait => option string
  | ComposeLines => list string * option string
  | OnLine _ => unit
  end.

Notation cprog := (Interact.prog canswer).
Notation caction := (Interact.action canswer).
Notation cmonitor := (Interact.monitor canswer).
Notation cdo := (@Interact.do_call ccall canswer).
Notation cact := (@Interact.act ccall canswer).
