(* ===== verification/ComposeManager.v ===== *)
(** * The compose manager (internal/docker/compose.go)

    The stacks of a node: directories of one base directory, each with a
    compose file.  The manager reads and writes their files, and runs `docker
    compose` on them; what it brings up it has resolved and judged first. *)

From S2P Require Import Prelude GoStrings GoRegexp ComposeSafety Interact FileCall ComposeCall.

#[local] Open Scope prog_scope.

(** ** Names *)

Definition name_re : re :=
  RCat (RClass is_alnum) (RStar (RClass (fun c => is_alnum c || slices_contains ["_"; "."; "-"] (String c "")))).
Definition validProjectName : re := name_re.
Definition validServiceName : re := name_re.

Definition is_hex (c : ascii) : bool := is_digit c || byte_in c "a" "f".
Definition validImageID : re := RCat (RAlt (rLit "sha256:") REps) (rBetween 12 64 (RClass is_hex)).

Definition ref_char (c : ascii) : bool := is_alnum c || slices_contains ["."; "_"; "/"; "-"] (String c "").
Definition validImageRef : re :=
  RCat (RClass is_alnum) (RCat (RStar (RClass ref_char))
    (RCat (RAlt (RCat (rChar ":") (rPlus (RClass is_digit))) REps)
      (RCat (RStar (RCat (rChar "/") (rPlus (RClass ref_char))))
        (RAlt (RCat (rChar ":") (rPlus (RClass (fun c => is_alnum c || slices_contains ["."; "_"; "-"] (String c ""))))) REps)))).

Definition composeFileNames : list string := ["docker-compose.yml"; "docker-compose.yaml"; "compose.yml"; "compose.yaml"].

Record ComposeProject : Type := mkComposeProject {
  pj_Name : string;
  pj_ComposeFile : string;
  pj_HasEnv : bool;
  pj_Path : string;
}.
Record ComposeService : Type := mkComposeService {
  sv_Name : string;
  sv_ContainerID : string;
  sv_Image : string;
  sv_State : string;
  sv_Status : string;
  sv_Ports : string;
  sv_HasHealthcheck : bool;
}.

(** An error, and whether it is [ErrProjectExists]. *)
Record cerror : Type := mkCError { ce_exists : bool; ce_text : message }.
Definition failed (m : message) : cerror := mkCError false m.

Definition ValidateProjectName (name : string) : option message :=
  if (name ==s "") || negb (matchString validProjectName name) then Some (Sprintf "invalid project name %q" [FStr name])
  else if hasPrefix name "." || hasSuffix name ".migbak" then Some (Sprintf "invalid project name %q: reserved" [FStr name])
  else None.

Definition validateServiceName (service : string) : option message :=
  if service ==s "" then Some (Sprintf "service name is required" [])
  else if negb (matchString validServiceName service)
  then Some (Sprintf "invalid service name %q (allowed: alphanumeric, underscore, dot, hyphen)" [FStr service])
  else None.

(** ** Files *)

Definition fs (c : fcall) : cprog (fanswer c) := cdo (CFs c).

(** What is left of the temporary file is removed at the end, whatever the
    end is. *)
Definition writeFileAtomic (path data : string) (defaultMode : Z) : cprog (option string) :=
  st <-- fs (Stat path) ;;
  let mode := match st with Ok st => fi_Perm st | Err _ => defaultMode end in
  tmp <-- fs (CreateTemp (path_Dir path) ("." +:+ path_Base path +:+ ".tmp-*")) ;;
  match tmp with
  | Err e => Ret (Some (fe_text e))
  | Ok tmp =>
      let give e := fs (Remove tmp) ;;; Ret (fe_text <$> e) in
      let try (c : cprog (option fs_error)) (next : cprog (option string)) :=
        err <-- c ;; match err with Some e => fs (TmpClose tmp) ;;; give (Some e) | None => next end in
      try (fs (TmpWrite tmp data))
        (try (fs (TmpSync tmp))
          (try (fs (TmpChmod tmp mode))
            (err <-- fs (TmpClose tmp) ;;
             match err with
             | Some e => give (Some e)
             | None => err <-- fs (Rename tmp path) ;; give err
             end)))
  end.

Fixpoint first_stat (dir : string) (names : list string) : cprog string :=
  match names with
  | [] => Ret ""
  | name :: names =>
      st <-- fs (Stat (path_Join [dir; name])) ;;
      match st with Ok _ => Ret name | Err _ => first_stat dir names end
  end.
Definition findComposeFile (dir : string) : cprog string := first_stat dir composeFileNames.

(** Whether [os.Stat] finds something. *)
Definition there (p : string) : cprog bool := st <-- fs (Stat p) ;; Ret (is_ok st).

Definition label (c : container) (k : string) : string :=
  match find (fun kv => kv.1 ==s k) (ct_Labels c) with Some kv => kv.2 | None => "" end.
Definition working_dir (c : container) : string := label c "com.docker.compose.project.working_dir".
Definition config_files (c : container) : string := label c "com.docker.compose.project.config_files".
(** A container whose working directory is the project's or below it. *)
Definition in_project (dir : string) (c : container) : bool :=
  (working_dir c ==s dir) || hasPrefix (working_dir c) (dir +:+ "/").
Definition first_file (files : string) : string := let '(f, _, _) := cutByte files "," in f.

Definition noComposeFile (name : string) : message := Sprintf "no compose file found in %q" [FStr name].

Definition by_name (p q : ComposeProject) : Prop := str_le (pj_Name p) (pj_Name q).
#[export] Instance by_name_dec : RelDecision by_name := fun p q => _ : Decision (str_le (pj_Name p) (pj_Name q)).

Section Manager.
Variable message_text : message -> string.
(** m.baseDir. *)
Variable baseDir : string.

Definition project_dir (name : string) : string := path_Join [baseDir; name].

Definition validateProjectName (name : string) : option message :=
  match ValidateProjectName name with
  | Some e => Some e
  | None =>
      if negb (hasPrefix (path_Clean (project_dir name)) (path_Clean baseDir +:+ "/"))
      then Some (Sprintf "invalid project name %q: path traversal" [FStr name]) else None
  end.

(** Runs [f] for a name that passes. *)
Definition checked {A} (name : string) (refused : message -> A) (f : cprog A) : cprog A :=
  match validateProjectName name with Some e => Ret (refused e) | None => f end.

Definition removeProjectDir (dir : string) : cprog (option message) :=
  let remove := err <-- cdo (RemoveAll dir) ;; Ret ((fun e => Sprintf "%s" [FStr e]) <$> err) in
  moved <-- cdo (Trash dir) ;;
  match moved with Some None => Ret None | _ => remove end.

(** The compose file a running container of the project was made from. *)
Fixpoint deployed_file (dir : string) (cs : list container) : cprog (option string) :=
  match cs with
  | [] => Ret None
  | c :: cs =>
      let file := first_file (config_files c) in
      if negb (in_project dir c) || (config_files c ==s "") || negb (hasPrefix file (dir +:+ "/")) then deployed_file dir cs
      else found <-- there file ;; if found : bool then Ret (Some file) else deployed_file dir cs
  end.

Definition resolveComposeFilePath (name : string) : cprog (string * string) :=
  checked name (fun _ => ("", ""))
    (let dir := project_dir name in
     client <-- cdo HasClient ;;
     deployed <-- (if client : bool then
                     cs <-- cdo ListContainersCached ;;
                     match cs with Ok cs => deployed_file dir cs | Err _ => Ret None end
                   else Ret None) ;;
     match deployed with
     | Some file => Ret (file, path_Dir file)
     | None =>
         file <-- findComposeFile dir ;;
         Ret (if negb (file ==s "") then (path_Join [dir; file], dir) else ("", dir))
     end).
Definition ResolveComposeFile (name : string) : cprog (string * string) :=
  checked name (fun _ => ("", "")) (resolveComposeFilePath name).

(** ** Projects *)

Fixpoint list_entries (entries : list (string * bool)) : cprog (list ComposeProject) :=
  match entries with
  | [] => Ret []
  | (name, is_dir) :: entries =>
      if negb is_dir || hasPrefix name "." || hasSuffix name ".migbak" then list_entries entries
      else
        let dir := path_Join [baseDir; name] in
        file <-- findComposeFile dir ;;
        if file ==s "" then list_entries entries
        else
          env <-- there (path_Join [dir; ".env"]) ;;
          rest <-- list_entries entries ;;
          Ret (mkComposeProject name file env dir :: rest)
  end.
Definition ListProjects : cprog (result message (list ComposeProject)) :=
  entries <-- cdo (ReadDir baseDir) ;;
  match entries with
  | Err e => Ret (Err (Sprintf "read stacks directory: %w" [FStr e]))
  | Ok entries =>
      projects <-- list_entries entries ;;
      Ret (Ok (merge_sort by_name projects))
  end.

Definition GetProject (name : string) : cprog (result message ComposeProject) :=
  checked name Err
    (let dir := project_dir name in
     info <-- fs (Stat dir) ;;
     if negb (match info with Ok st => fi_IsDir st | Err _ => false end)
     then Ret (Err (Sprintf "project %q not found" [FStr name]))
     else
       file <-- findComposeFile dir ;;
       if file ==s "" then Ret (Err (noComposeFile name))
       else env <-- there (path_Join [dir; ".env"]) ;; Ret (Ok (mkComposeProject name file env dir))).

Definition GetProjectYAML (name : string) : cprog (result message (string * string)) :=
  checked name Err
    (let dir := project_dir name in
     file <-- findComposeFile dir ;;
     if file ==s "" then Ret (Err (noComposeFile name))
     else
       content <-- fs (ReadFileAll (path_Join [dir; file])) ;;
       Ret (match content with
            | Ok content => Ok (content, file)
            | Err e => Err (Sprintf "read compose file: %w" [FStr (fe_text e)])
            end)).

Definition GetProjectEnv (name : string) : cprog (result message string) :=
  checked name Err
    (content <-- fs (ReadFileAll (path_Join [baseDir; name; ".env"])) ;;
     Ret (match content with
          | Ok content => Ok content
          | Err e =>
              match fe_kind e with
              | ErrNotExist => Ok ""
              | _ => Err (Sprintf "read .env: %w" [FStr (fe_text e)])
              end
          end)).

Definition text_error (e : string) : message := Sprintf "%s" [FStr e].

Definition UpdateProjectEnv (name content : string) : cprog (option message) :=
  checked name Some
    (let dir := project_dir name in
     found <-- there dir ;;
     if negb found then Ret (Some (Sprintf "project %q not found" [FStr name]))
     else err <-- writeFileAtomic (path_Join [dir; ".env"]) content 384 ;; Ret (text_error <$> err)).

Definition CreateProject (name yamlContent : string) : cprog (result cerror ComposeProject) :=
  checked name (fun e => Err (failed e))
    (let dir := project_dir name in
     file <-- findComposeFile dir ;;
     if negb (file ==s "") then Ret (Err (mkCError true (Sprintf "project %q already exists" [FStr name])))
     else
       err <-- fs (MkdirAll dir 493) ;;
       match err with
       | Some e => Ret (Err (failed (Sprintf "create project directory: %w" [FStr (fe_text e)])))
       | None =>
           err <-- writeFileAtomic (path_Join [dir; "docker-compose.yml"]) yamlContent 384 ;;
           Ret (match err with
                | Some e => Err (failed (Sprintf "write docker-compose.yml: %w" [FStr e]))
                | None => Ok (mkComposeProject name "docker-compose.yml" false dir)
                end)
       end).

Definition UpdateProject (name yamlContent : string) : cprog (option message) :=
  checked name Some
    (let dir := project_dir name in
     file <-- findComposeFile dir ;;
     if file ==s "" then Ret (Some (noComposeFile name))
     else err <-- writeFileAtomic (path_Join [dir; file]) yamlContent 384 ;; Ret (text_error <$> err)).

(** ** Commands *)

(** The compose document's decoder, for the guard. *)
Variable Unmarshal : string -> result string ymap.

Definition AnalyzeError_message (e : AnalyzeError) : message :=
  match e with
  | ErrComposeYAML e => Sprintf "compose YAML is invalid: %w" [FStr e]
  | ErrNoServices => Sprintf "compose YAML must contain a top-level 'services' map" []
  end.
Definition findings_text (msgs : list message) : string := join (map message_text msgs) "; ".

(** What a command that cannot be run answers. *)
Definition no_file (name : string) : string * option message := ("", Some (noComposeFile name)).

(** [f] on the project's compose file and directory. *)
Definition on_file {A} (name : string) (missing : A) (f : string -> string -> cprog A) : cprog A :=
  place <-- resolveComposeFilePath name ;;
  let '(yamlPath, dir) := place in
  if yamlPath ==s "" then Ret missing else f yamlPath dir.

Definition runComposeStdout (name : string) (args : list string) : cprog (result message string) :=
  checked name Err
    (on_file name (Err (noComposeFile name)) (fun yamlPath dir =>
       out <-- cdo (ComposeStdout dir (["compose"; "-f"; yamlPath] ++ args)) ;;
       let '(stdout, stderr, err) := out in
       Ret (match err with
            | Some e =>
                if negb (trimSpace stderr ==s "") then Err (Sprintf "%w: %s" [FStr e; FStr (trimSpace stderr)])
                else Err (text_error e)
            | None => Ok stdout
            end))).

Definition GetResolvedConfig (name : string) : cprog (result message string) :=
  out <-- runComposeStdout name ["config"; "--format"; "json"] ;;
  Ret (match out with Err e => Err (Sprintf "compose config: %w" [FMsg e]) | Ok out => Ok out end).
Definition GetResolvedConfigYAML (name : string) : cprog (result message string) :=
  out <-- runComposeStdout name ["config"] ;;
  Ret (match out with Err e => Err (Sprintf "compose config: %w" [FMsg e]) | Ok out => Ok out end).

(** m.resolveConfig is GetResolvedConfigYAML, as NewComposeManager sets it. *)
Definition guardResolvedCompose (name : string) (args : list string) : cprog (option message) :=
  match args with
  | verb :: _ =>
      if negb (verb ==s "up") then Ret None
      else
        resolved <-- GetResolvedConfigYAML name ;;
        Ret (match resolved with
             | Err e => Some (Sprintf "could not resolve the compose file to check what it binds: %w" [FMsg e])
             | Ok resolved =>
                 match Analyze Unmarshal resolved with
                 | Err e => Some (Sprintf "could not read the resolved compose file to check what it binds: %w"
                                    [FMsg (AnalyzeError_message e)])
                 | Ok report => (fun msgs => text_error (findings_text msgs)) <$> Report_Error report true
                 end
             end)
  | [] => Ret None
  end.

Definition runCompose (name : string) (args : list string) : cprog (string * option message) :=
  checked name (fun e => ("", Some e))
    (refused <-- guardResolvedCompose name args ;;
     match refused with
     | Some e => Ret (message_text e, Some e)
     | None =>
         on_file name (no_file name) (fun yamlPath dir =>
           out <-- cdo (ComposeCombined dir (["compose"; "-f"; yamlPath] ++ args)) ;;
           Ret (out.1, text_error <$> out.2))
     end).

(** [prefix] is what the caller's onLine puts before each line. *)
Fixpoint each_line (prefix : string) (lines : list string) : cprog unit :=
  match lines with
  | [] => Ret tt
  | line :: lines => cdo (OnLine (prefix +:+ line)) ;;; each_line prefix lines
  end.
Definition runComposeStream (name prefix : string) (args : list string) : cprog (option message) :=
  checked name Some
    (refused <-- guardResolvedCompose name args ;;
     match refused with
     | Some e => Ret (Some e)
     | None =>
         on_file name (Some (noComposeFile name)) (fun yamlPath dir =>
           err <-- cdo (ComposeBegin dir (["compose"; "-f"; yamlPath] ++ args)) ;;
           match err with
           | Some e => Ret (Some (text_error e))
           | None =>
               out <-- cdo ComposeLines ;;
               let '(lines, scan) := out in
               each_line prefix lines ;;;
               (match scan with
                | Some e => cdo (OnLine (prefix +:+ "error: log scan failed: " +:+ e))
                | None => Ret tt
                end) ;;;
               err <-- cdo ComposeWait ;;
               Ret (text_error <$> err)
           end)
     end).

Definition Up (name : string) := runCompose name ["up"; "-d"].
Definition Down (name : string) := runCompose name ["down"].
Definition DownWithVolumes (name : string) := runCompose name ["down"; "-v"].
Definition Stop (name : string) := runCompose name ["stop"].
Definition Start (name : string) := runCompose name ["start"].
Definition ValidateConfig (name : string) := runCompose name ["config"; "--quiet"].
Definition UpStream (name : string) := runComposeStream name "" ["up"; "-d"].

Definition ValidateDraft (name yaml : string) : cprog (string * option message) :=
  checked name (fun e => (message_text e, Some e))
    (on_file name ("Compose file not found", Some (Sprintf "compose file not found" [])) (fun _ dir =>
       out <-- cdo (ComposeStdin dir ["compose"; "--project-directory"; dir; "-p"; name; "-f"; "-"; "config"; "--quiet"] yaml) ;;
       Ret (match out with
            | ("", Some e) => (e, Some (text_error e))
            | (out, err) => (out, text_error <$> err)
            end))).

Definition DeleteProject (name : string) (removeImages removeVolumes : bool) : cprog (option message) :=
  checked name Some
    (out <-- runCompose name (["down"] ++ (if removeImages then ["--rmi"; "all"] else []) ++ (if removeVolumes then ["-v"] else [])) ;;
     left_ <-- (match out.2 with
                | Some _ =>
                    remaining <-- runCompose name ["ps"; "-q"] ;;
                    Ret (bool_decide (is_Some remaining.2) || negb (trimSpace remaining.1 ==s ""))
                | None => Ret false
                end) ;;
     if left_ : bool
     then Ret (Some (Sprintf "teardown failed, leaving the project in place: %s" [FStr (trimSpace out.1)]))
     else removeProjectDir (project_dir name)).

(** ** Services *)

(** The [services] of a document, each with its healthcheck's [disable] where
    it has a healthcheck: yaml.v3's decoding into a struct. *)
Variable decode_health : string -> result string (list (string * option bool)).

Definition hasComposeHealthcheck (yamlStr service : string) : bool :=
  match decode_health yamlStr with
  | Err _ => false
  | Ok services =>
      match find (fun kv => kv.1 ==s service) services with
      | Some (_, Some disable) => negb disable
      | _ => false
      end
  end.

Definition port_text (p : port) : string :=
  po_IP p +:+ ":" +:+ itoa (po_PublicPort p) +:+ "->" +:+ itoa (po_PrivatePort p) +:+ "/" +:+ po_Type p.
Definition ports_text (ps : list port) : string :=
  join (map port_text (List.filter (fun p => 0 <? po_PublicPort p) ps)) ", ".
Definition service_of (c : container) : option ComposeService :=
  let name := label c "com.docker.compose.service" in
  if name ==s "" then None
  else Some (mkComposeService name (ct_ID c) (ct_Image c) (ct_State c) (ct_Status c) (ports_text (ct_Ports c)) false).
Definition stamp (yamlStr : string) (s : ComposeService) : ComposeService :=
  if hasComposeHealthcheck yamlStr (sv_Name s)
  then mkComposeService (sv_Name s) (sv_ContainerID s) (sv_Image s) (sv_State s) (sv_Status s) (sv_Ports s) true
  else s.

Definition noClient : message := Sprintf "docker client not available" [].

Definition project_containers (name : string) : cprog (result message (list container)) :=
  all <-- cdo ListContainersCached ;;
  match all with
  | Err e => Ret (Err (Sprintf "list containers: %w" [FStr e]))
  | Ok all =>
      match List.filter (in_project (project_dir name)) all with
      | [] =>
          cs <-- cdo (ListContainersByComposeProject (ToLower name)) ;;
          Ret (match cs with
               | Err e => Err (Sprintf "list containers for project %q: %w" [FStr name; FStr e])
               | Ok cs => Ok cs
               end)
      | cs => Ret (Ok cs)
      end
  end.

Definition GetProjectServices (name : string) : cprog (result message (list ComposeService)) :=
  checked name Err
    (client <-- cdo HasClient ;;
     if negb client then Ret (Err noClient)
     else
       cs <-- project_containers name ;;
       match cs with
       | Err e => Ret (Err e)
       | Ok cs =>
           let services := omap service_of cs in
           place <-- resolveComposeFilePath name ;;
           if place.1 ==s "" then Ret (Ok services)
           else
             data <-- fs (ReadFileAll place.1) ;;
             Ret (Ok (match data with Ok data => map (stamp data) services | Err _ => services end))
       end).

Definition on_service (project service verb : string) : cprog (string * option message) :=
  match validateServiceName service with
  | Some e => Ret ("", Some e)
  | None => runCompose project [verb; service]
  end.
Definition RestartService (project service : string) := on_service project service "restart".
Definition StopService (project service : string) := on_service project service "stop".
Definition StartService (project service : string) := on_service project service "start".

Definition tail_of (tail : Z) : Z := if tail <=? 0 then 100 else tail.
Definition ServiceLogs (project service : string) (tail : Z) : cprog (string * option message) :=
  match validateServiceName service with
  | Some e => Ret ("", Some e)
  | None => runCompose project ["logs"; "--tail"; itoa (tail_of tail); "--no-color"; service]
  end.
Definition StreamLogs (project : string) (tail : Z) (service : string) : cprog (option message) :=
  checked project Some
    (let args := ["logs"; "-f"; "--tail"; itoa (tail_of tail); "--no-color"] in
     if service ==s "" then runComposeStream project "" args
     else match validateServiceName service with
          | Some e => Ret (Some e)
          | None => runComposeStream project "" (args ++ [service])
          end).

(** ** Updates and the way back *)

Record StackUpdateCheck : Type := mkStackUpdateCheck {
  su_Project : string;
  su_Images : list ImageUpdateStatus;
  su_HasUpdates : bool;
}.
Record rollbackEntry : Type := mkRollbackEntry { re_Service : string; re_Image : string; re_ImageID : string }.
(** encoding/json on a list of them. *)
Variable json_Marshal : list rollbackEntry -> string.
Variable json_Unmarshal : string -> result string (list rollbackEntry).

Definition rollback_path (name : string) : string := path_Join [baseDir; name; ".sfpanel-rollback.json"].

(** The images of the services, each once. *)
Fixpoint check_images (checked_ : list string) (services : list ComposeService) : cprog (list ImageUpdateStatus * bool) :=
  match services with
  | [] => Ret ([], false)
  | svc :: services =>
      let img := sv_Image svc in
      if (img ==s "") || slices_contains checked_ img then check_images checked_ services
      else
        status <-- cdo (CheckImageUpdate img) ;;
        rest <-- check_images (img :: checked_) services ;;
        Ret (match status with
             | Err e => (mkImageUpdateStatus img "" "" "" "" "" false e :: rest.1, rest.2)
             | Ok status => (status :: rest.1, iu_HasUpdate status || rest.2)
             end)
  end.
Definition CheckStackUpdates (name : string) : cprog (result message StackUpdateCheck) :=
  client <-- cdo HasClient ;;
  if negb client then Ret (Err noClient)
  else
    services <-- GetProjectServices name ;;
    match services with
    | Err e => Ret (Err e)
    | Ok services => r <-- check_images [] services ;; Ret (Ok (mkStackUpdateCheck name r.1 r.2))
    end.

Fixpoint images_now (services : list ComposeService) : cprog (list rollbackEntry) :=
  match services with
  | [] => Ret []
  | svc :: services =>
      if sv_Image svc ==s "" then images_now services
      else
        id <-- cdo (InspectImage (sv_Image svc)) ;;
        rest <-- images_now services ;;
        Ret (match id with Ok id => mkRollbackEntry (sv_Name svc) (sv_Image svc) id :: rest | Err _ => rest end)
  end.

(** The manifest to roll back with, written before anything is pulled. *)
Definition save_rollback (name : string) : cprog (option message) :=
  client <-- cdo HasClient ;;
  if negb client then Ret (Some noClient)
  else
    services <-- GetProjectServices name ;;
    match services with
    | Err e => Ret (Some (Sprintf "get services: %w" [FMsg e]))
    | Ok services =>
        rollback <-- images_now services ;;
        if (length rollback =? 0)%nat then Ret None
        else
          err <-- writeFileAtomic (rollback_path name) (json_Marshal rollback) 384 ;;
          Ret ((fun e => Sprintf "write rollback manifest: %w" [FStr e]) <$> err)
    end.

Definition UpdateStackStream (name : string) : cprog (option message) :=
  err <-- save_rollback name ;;
  match err with
  | Some e => Ret (Some e)
  | None =>
      cdo (OnLine "[pull] Pulling latest images...") ;;;
      err <-- runComposeStream name "[pull] " ["pull"] ;;
      match err with
      | Some e => Ret (Some (Sprintf "pull failed: %w" [FMsg e]))
      | None =>
          cdo (OnLine "[recreate] Recreating containers...") ;;;
          err <-- runComposeStream name "[recreate] " ["up"; "-d"; "--force-recreate"] ;;
          Ret ((fun e => Sprintf "recreate failed: %w" [FMsg e]) <$> err)
      end
  end.

Definition UpdateStack (name : string) : cprog (string * option message) :=
  err <-- save_rollback name ;;
  match err with
  | Some e => Ret ("", Some e)
  | None =>
      pull <-- runCompose name ["pull"] ;;
      match pull.2 with
      | Some e => Ret (pull.1, Some (Sprintf "pull failed: %w" [FMsg e]))
      | None =>
          up <-- runCompose name ["up"; "-d"; "--force-recreate"] ;;
          Ret (pull.1 +:+ String newline up.1, (fun e => Sprintf "recreate failed: %w" [FMsg e]) <$> up.2)
      end
  end.

Fixpoint tag_all (entries : list rollbackEntry) : cprog (option (string * message)) :=
  match entries with
  | [] => Ret None
  | e :: entries =>
      if negb (matchString validImageID (re_ImageID e))
      then Ret (Some ("", Sprintf "rollback aborted: invalid image ID %q in rollback manifest" [FStr (re_ImageID e)]))
      else if negb (matchString validImageRef (re_Image e))
      then Ret (Some ("", Sprintf "rollback aborted: invalid image reference %q in rollback manifest" [FStr (re_Image e)]))
      else
        out <-- cdo (DockerTag (re_ImageID e) (re_Image e)) ;;
        match out.2 with
        | Some err => Ret (Some (out.1, Sprintf "tag %s → %s failed: %w" [FStr (re_ImageID e); FStr (re_Image e); FStr err]))
        | None => tag_all entries
        end
  end.

Definition RollbackStack (name : string) : cprog (string * option message) :=
  checked name (fun e => ("", Some e))
    (data <-- fs (ReadFileAll (rollback_path name)) ;;
     match data with
     | Err _ => Ret ("", Some (Sprintf "no rollback data available (update first)" []))
     | Ok data =>
         match json_Unmarshal data with
         | Err e => Ret ("", Some (Sprintf "invalid rollback data: %w" [FStr e]))
         | Ok entries =>
             failed_ <-- tag_all entries ;;
             match failed_ with
             | Some (out, e) => Ret (out, Some e)
             | None =>
                 up <-- runCompose name ["up"; "-d"; "--force-recreate"] ;;
                 match up.2 with
                 | Some e => Ret (up.1, Some (Sprintf "recreate failed: %w" [FMsg e]))
                 | None => fs (Remove (rollback_path name)) ;;; Ret (up.1, None)
                 end
             end
         end
     end).

Record RollbackDetail : Type := mkRollbackDetail {
  rd_Service : string;
  rd_PrevImage : string;
  rd_PrevImageID : string;
  rd_CurrImageID : string;
}.

(** The IDs the services' images have now, the last of a name kept. *)
Fixpoint current_images (services : list ComposeService) (m : list (string * string)) : cprog (list (string * string)) :=
  match services with
  | [] => Ret m
  | svc :: services =>
      if sv_Image svc ==s "" then current_images services m
      else
        id <-- cdo (InspectImage (sv_Image svc)) ;;
        current_images services (match id with Ok id => (sv_Image svc, id) :: m | Err _ => m end)
  end.
Definition GetRollbackInfo (name : string) : cprog (option (list RollbackDetail)) :=
  checked name (fun _ => None)
    (data <-- fs (ReadFileAll (rollback_path name)) ;;
     match data with
     | Err _ => Ret None
     | Ok data =>
         match json_Unmarshal data with
         | Err _ => Ret None
         | Ok entries =>
             client <-- cdo HasClient ;;
             m <-- (if client : bool then
                      services <-- GetProjectServices name ;;
                      match services with Ok services => current_images services [] | Err _ => Ret [] end
                    else Ret []) ;;
             let current img := match find (fun kv => kv.1 ==s img) m with Some kv => kv.2 | None => "" end in
             Ret (Some (map (fun e => mkRollbackDetail (re_Service e) (re_Image e) (re_ImageID e) (current (re_Image e))) entries))
         end
     end).
End Manager.
