(* ===== verification/ComposeManagerFacts.v ===== *)
(** * What the compose manager brings up and where it writes

    Every `docker compose up` comes after a reading of the resolved document
    that binds none of the panel's secrets, and every file the manager makes or
    removes is in the directory of the stack it was asked about. *)

From S2P Require Import Prelude GoStrings GoRegexp PathFacts ComposeSafety Interact FileCall ComposeCall.
From S2P Require Import ComposeManager.

#[local] Open Scope prog_scope.

(** ** Names and directories *)

Lemma valid_name_plain name : ValidateProjectName name = None -> plain_elem name.
Proof.
  unfold ValidateProjectName. destruct (name ==s "") eqn:E1; [done|]. destruct (matchString _ _) eqn:E2; [|done].
  destruct (hasPrefix name ".") eqn:E3; [done|]. intros _. apply String.eqb_neq in E1.
  assert (Hdot : forall t, name <> "." +:+ t).
  { intros t ->. by rewrite (proj2 (hasPrefix_spec _ _)) in E3 by (by eexists). }
  split_and!; [done|by apply (Hdot "")|by apply (Hdot ".")|].
  apply re_match_spec, (re_all_spec (fun c => Ascii.eqb c slash = false)) in E2.
  - clear -E2. induction name as [|c name IH]; [done|]. inversion E2 as [|? ? Hc Hn]; subst.
    rewrite indexByte_cons, Hc. by rewrite IH.
  - assert (Hc : forall c, is_alnum c || slices_contains ["_"; "."; "-"] (String c "") = true -> Ascii.eqb c slash = false).
    { intros c Hc. apply Ascii.eqb_neq. intros ->. by vm_compute in Hc. }
    split; [|exact Hc]. intros c H. apply Hc. by rewrite H.
Qed.

(** The calls that change nothing of the host's files and bring nothing up. *)
Definition reads (c : ccall) : Prop :=
  match c with
  | CFs (Stat _) | CFs (ReadFileAll _) | ReadDir _ | HasClient | ListContainersCached | ListContainersByComposeProject _
  | InspectImage _ | CheckImageUpdate _ | OnLine _ | ComposeLines | ComposeWait => True
  | _ => False
  end.

Create HintDb only_reads.
Ltac reads_step :=
  match goal with
  | |- only _ _ => solve [auto with only_reads nocore]
  | |- only _ (Do _ _) => split; [done|intros ?; cbv beta]
  | |- only _ (pbind (cdo _) _) => split; [done|intros ?]
  | |- only _ (pbind (fs _) _) => split; [done|intros ?]
  | |- only _ (pbind _ _) => apply only_bind; [|intros ?]
  | |- only _ (Ret _) => done
  | |- only _ (cdo _) => by split
  | |- only _ (let _ := _ in _) => cbv zeta
  | |- only _ (match ?x with _ => _ end) => destruct x
  end.
Ltac reads_go := repeat reads_step.

(** Every call of a program with no loop, one after another. *)
Ltac only_calls :=
  repeat match goal with
  | |- only _ (Do _ _) => split; [done|intros ?; cbv beta]
  | |- only _ (pbind (cdo _) _) => split; [done|intros ?]
  | |- only _ (pbind (fs _) _) => split; [done|intros ?]
  | |- only _ (pbind _ _) => apply only_bind; [|intros ?]
  | |- only _ (Ret _) => done
  | |- only _ (cdo _) => by split
  | |- only _ (fs _) => by split
  | |- only _ (let _ := _ in _) => cbv zeta
  | |- only _ (match ?x with _ => _ end) => destruct x
  end.

Section Manager.
Variable message_text : message -> string.
Variable baseDir : string.
Variable Unmarshal : string -> result string ymap.
Variable decode_health : string -> result string (list (string * option bool)).
Variable json_Marshal : list rollbackEntry -> string.
Variable json_Unmarshal : string -> result string (list rollbackEntry).

Notation validateProjectName := (validateProjectName baseDir).
Notation project_dir := (project_dir baseDir).
Notation resolve := (resolveComposeFilePath baseDir).

(** ** Programs that only read *)

Lemma reads_checked {A} name (r : message -> A) f : only reads f -> only reads (checked baseDir name r f).
Proof. intros H. unfold checked. by destruct (validateProjectName name). Qed.
Lemma reads_there p : only reads (there p).
Proof. unfold there. reads_go. Qed.
Lemma reads_findComposeFile dir : only reads (findComposeFile dir).
Proof. unfold findComposeFile. generalize composeFileNames. intros l. induction l; simpl first_stat; reads_go. Qed.
#[local] Hint Resolve reads_checked reads_there reads_findComposeFile : only_reads.
Lemma reads_deployed_file dir cs : only reads (deployed_file dir cs).
Proof. induction cs as [|c cs IH]; cbn [deployed_file]; reads_go. Qed.
#[local] Hint Resolve reads_deployed_file : only_reads.
Lemma reads_resolve name : only reads (resolve name).
Proof. unfold resolveComposeFilePath. apply reads_checked. reads_go. Qed.
#[local] Hint Resolve reads_resolve : only_reads.
Lemma reads_list_entries entries : only reads (list_entries baseDir entries).
Proof. induction entries as [|[name d] entries IH]; simpl list_entries; reads_go. Qed.
#[local] Hint Resolve reads_list_entries : only_reads.
Lemma reads_ListProjects : only reads (ListProjects baseDir).
Proof. unfold ListProjects. reads_go. Qed.
Lemma reads_GetProject name : only reads (GetProject baseDir name).
Proof. unfold GetProject. apply reads_checked. reads_go. Qed.
Lemma reads_GetProjectYAML name : only reads (GetProjectYAML baseDir name).
Proof. unfold GetProjectYAML. apply reads_checked. reads_go. Qed.
Lemma reads_GetProjectEnv name : only reads (GetProjectEnv baseDir name).
Proof. unfold GetProjectEnv. apply reads_checked. reads_go. Qed.
Lemma reads_project_containers name : only reads (project_containers baseDir name).
Proof. unfold project_containers. reads_go. Qed.
#[local] Hint Resolve reads_project_containers : only_reads.
Lemma reads_services name : only reads (GetProjectServices baseDir decode_health name).
Proof. unfold GetProjectServices. apply reads_checked. reads_go. Qed.
Lemma reads_images_now services : only reads (images_now services).
Proof. induction services as [|s services IH]; simpl images_now; reads_go. Qed.
Lemma reads_check_images seen services : only reads (check_images seen services).
Proof. revert seen. induction services as [|s services IH]; intros seen; simpl check_images; reads_go. Qed.
Lemma reads_current_images services m : only reads (current_images services m).
Proof. revert m. induction services as [|s services IH]; intros m; simpl current_images; reads_go. Qed.
#[local] Hint Resolve reads_ListProjects reads_GetProject reads_GetProjectYAML reads_GetProjectEnv : only_reads.
#[local] Hint Resolve reads_services reads_images_now reads_check_images reads_current_images : only_reads.
Lemma reads_CheckStackUpdates name : only reads (CheckStackUpdates baseDir decode_health name).
Proof. unfold CheckStackUpdates. reads_go. Qed.
Lemma reads_GetRollbackInfo name : only reads (GetRollbackInfo baseDir decode_health json_Unmarshal name).
Proof. unfold GetRollbackInfo. apply reads_checked. reads_go. Qed.
Lemma reads_each_line prefix lines : only reads (each_line prefix lines).
Proof. induction lines as [|l lines IH]; simpl each_line; reads_go. Qed.
#[local] Hint Resolve reads_each_line reads_CheckStackUpdates reads_GetRollbackInfo : only_reads.

(** ** The manager's operations *)

Inductive compose_op : Type :=
| OpResolveFile (name : string)
| OpListProjects
| OpGetProject (name : string)
| OpGetYAML (name : string)
| OpGetEnv (name : string)
| OpUpdateEnv (name content : string)
| OpCreate (name yaml : string)
| OpUpdate (name yaml : string)
| OpDelete (name : string) (removeImages removeVolumes : bool)
| OpRun (name : string) (f : string -> cprog (string * option message))
    (H : f ∈ [Up message_text baseDir Unmarshal; Down message_text baseDir Unmarshal;
              DownWithVolumes message_text baseDir Unmarshal; Stop message_text baseDir Unmarshal;
              Start message_text baseDir Unmarshal; ValidateConfig message_text baseDir Unmarshal])
| OpDraft (name yaml : string)
| OpConfigJSON (name : string)
| OpConfigYAML (name : string)
| OpUpStream (name : string)
| OpUpdateStream (name : string)
| OpServices (name : string)
| OpService (name service verb : string) (H : verb ∈ ["restart"; "stop"; "start"])
| OpLogs (name service : string) (tail : Z)
| OpStreamLogs (name : string) (tail : Z) (service : string)
| OpCheckUpdates (name : string)
| OpUpdateStack (name : string)
| OpRollback (name : string)
| OpRollbackInfo (name : string).

Definition op_name (op : compose_op) : string :=
  match op with
  | OpListProjects => ""
  | OpResolveFile n | OpGetProject n | OpGetYAML n | OpGetEnv n | OpUpdateEnv n _ | OpCreate n _ | OpUpdate n _
  | OpDelete n _ _ | OpRun n _ _ | OpDraft n _ | OpConfigJSON n | OpConfigYAML n | OpUpStream n | OpUpdateStream n
  | OpServices n | OpService n _ _ _ | OpLogs n _ _ | OpStreamLogs n _ _ | OpCheckUpdates n | OpUpdateStack n
  | OpRollback n | OpRollbackInfo n => n
  end.

Definition ignored {A} (p : cprog A) : cprog unit := p ;;; Ret tt.
Definition perform (op : compose_op) : cprog unit :=
  match op with
  | OpResolveFile n => ignored (ResolveComposeFile baseDir n)
  | OpListProjects => ignored (ListProjects baseDir)
  | OpGetProject n => ignored (GetProject baseDir n)
  | OpGetYAML n => ignored (GetProjectYAML baseDir n)
  | OpGetEnv n => ignored (GetProjectEnv baseDir n)
  | OpUpdateEnv n content => ignored (UpdateProjectEnv baseDir n content)
  | OpCreate n yaml => ignored (CreateProject baseDir n yaml)
  | OpUpdate n yaml => ignored (UpdateProject baseDir n yaml)
  | OpDelete n images volumes => ignored (DeleteProject message_text baseDir Unmarshal n images volumes)
  | OpRun n f _ => ignored (f n)
  | OpDraft n yaml => ignored (ValidateDraft message_text baseDir n yaml)
  | OpConfigJSON n => ignored (GetResolvedConfig baseDir n)
  | OpConfigYAML n => ignored (GetResolvedConfigYAML baseDir n)
  | OpUpStream n => ignored (UpStream message_text baseDir Unmarshal n)
  | OpUpdateStream n => ignored (UpdateStackStream message_text baseDir Unmarshal decode_health json_Marshal n)
  | OpServices n => ignored (GetProjectServices baseDir decode_health n)
  | OpService n service verb _ => ignored (on_service message_text baseDir Unmarshal n service verb)
  | OpLogs n service tail => ignored (ServiceLogs message_text baseDir Unmarshal n service tail)
  | OpStreamLogs n tail service => ignored (StreamLogs message_text baseDir Unmarshal n tail service)
  | OpCheckUpdates n => ignored (CheckStackUpdates baseDir decode_health n)
  | OpUpdateStack n => ignored (UpdateStack message_text baseDir Unmarshal decode_health json_Marshal n)
  | OpRollback n => ignored (RollbackStack message_text baseDir Unmarshal json_Unmarshal n)
  | OpRollbackInfo n => ignored (GetRollbackInfo baseDir decode_health json_Unmarshal n)
  end.

(** ** What is brought up has been judged *)

(** The compose file a command brings up, and the directory it does in. *)
Definition up_of (args : list string) : option string :=
  match args with
  | _ :: _ :: yamlPath :: verb :: _ => if verb ==s "up" then Some yamlPath else None
  | _ => None
  end.
Definition deploys (c : ccall) : option (string * string) :=
  match c with
  | ComposeCombined dir args | ComposeBegin dir args => (fun y => (y, dir)) <$> up_of args
  | _ => None
  end.
(** The document was read, and binds none of the panel's secrets. *)
Definition harmless (document : string) : bool :=
  match Analyze Unmarshal document with Ok r => (length (rp_Forbidden r) =? 0)%nat | Err _ => false end.
(** The compose file whose resolved document was found harmless. *)
Definition judged (a : caction) : option (string * string) :=
  let 'existT c x := a in
  match c return canswer c -> option (string * string) with
  | ComposeStdout dir args => fun x =>
      match args, x with
      | [_; _; yamlPath; verb], (out, _, None) => if (verb ==s "config") && harmless out then Some (yamlPath, dir) else None
      | _, _ => None
      end
  | _ => fun _ => None
  end x.

Definition up_monitor (related : string * string -> string * string -> Prop) : cmonitor :=
  mkMonitor (list (string * string))
    (fun seen a => forall p, deploys (projT1 a) = Some p -> exists q, q ∈ seen /\ related p q)
    (fun seen a => match judged a with Some q => q :: seen | None => seen end).

Section Up.
Variable R : caction -> Prop.
Variable related : string * string -> string * string -> Prop.
(** What a project's compose file is resolved to. *)
Variable at_ : string -> string * string -> Prop.
Notation M := (up_monitor related).
Hypothesis resolved_at : forall name s Q, (forall p, at_ name p -> Q p s) -> wp R M (resolve name) s Q.
Hypothesis at_related : forall name p q, at_ name p -> at_ name q -> p.1 <> "" -> q.1 <> "" -> related p q.

Definition tame {A} (p : cprog A) : Prop := forall s, wp R M p s (fun _ _ => True).
Lemma tame_op_ret {A} (a : A) : tame (Ret a).
Proof. done. Qed.
Lemma tame_bind {A B} (p : cprog A) (f : A -> cprog B) : tame p -> (forall a, tame (f a)) -> tame (pbind p f).
Proof. intros Hp Hf s. apply wp_bind. eapply wp_mono; [apply Hp|]. intros a s' _. apply Hf. Qed.
Lemma tame_only {A} (p : cprog A) : only (fun c => deploys c = None) p -> tame p.
Proof.
  induction p as [a|c k IH|]; intros Hp s; [done| |done]. destruct Hp as [Hc Hk]. intros x _. split; [|by apply IH].
  intros p E. simpl in E. congruence.
Qed.
Lemma tame_reads {A} (p : cprog A) : only reads p -> tame p.
Proof. intros H. apply tame_only. eapply only_mono; [|exact H]. by intros []. Qed.
Lemma tame_checked {A} name (r : message -> A) f : tame f -> tame (checked baseDir name r f).
Proof. intros H. unfold checked. by destruct (validateProjectName name). Qed.

(** A verb that is not [up], or a file of the project that was judged. *)
Definition may_run (name : string) (args : list string) (seen : list (string * string)) : Prop :=
  forall verb rest, args = verb :: rest -> verb = "up" -> exists q, q ∈ seen /\ at_ name q /\ q.1 <> "".

Lemma wp_guard name args s (Q : option message -> list (string * string) -> Prop) :
  (forall r s', (r = None -> may_run name args s') -> Q r s') ->
  wp R M (guardResolvedCompose message_text baseDir Unmarshal name args) s Q.
Proof.
  intros HQ. destruct args as [|verb rest]; [by apply HQ|]. cbn [guardResolvedCompose].
  destruct (verb ==s "up") eqn:Ev; simpl negb; cbv iota.
  2: { apply HQ. intros _ v r [= -> ->] ->. by rewrite String.eqb_refl in Ev. }
  assert (Hno : forall e s', Q (Some e) s') by (by intros; apply HQ). apply wp_bind.
  unfold GetResolvedConfigYAML. apply wp_bind. unfold runComposeStdout, checked.
  destruct (validateProjectName name); [by apply Hno|]. unfold on_file. apply wp_bind, resolved_at. intros [y d] Hat.
  destruct (y ==s "") eqn:Ey; [by apply Hno|]. apply String.eqb_neq in Ey.
  intros [[out err_out] err] _. split; [by intros p E|]. simpl. destruct err as [e|].
  { destruct (negb _); apply Hno. }
  unfold harmless. destruct (Analyze Unmarshal out) as [r|e] eqn:Ea; [|by apply Hno]. simpl.
  destruct (rp_Forbidden r) as [|f fs] eqn:Ef; simpl.
  - unfold Report_Error. rewrite Ef. simpl. apply HQ. intros _ v t _ _. exists (y, d). by split; [left|].
  - unfold Report_Error. rewrite Ef. simpl. apply Hno.
Qed.

Lemma wp_on_file {A} name (missing : A) f s Q :
  (forall y d, at_ name (y, d) -> y <> "" -> wp R M (f y d) s Q) -> Q missing s -> wp R M (on_file baseDir name missing f) s Q.
Proof.
  intros Hf Hm. unfold on_file. apply wp_bind, resolved_at. intros [y d] Hat. destruct (y ==s "") eqn:E; [done|].
  apply Hf; [done|by apply String.eqb_neq].
Qed.
Lemma may_deploy name args s y d : may_run name args s -> at_ name (y, d) -> y <> "" ->
  forall p, (fun y => (y, d)) <$> up_of (["compose"; "-f"; y] ++ args) = Some p -> exists q, q ∈ s /\ related p q.
Proof.
  intros Hm Hat Hy p. destruct args as [|verb rest]; [done|]. simpl. destruct (verb ==s "up") eqn:E; [|done].
  apply String.eqb_eq in E. intros [= <-]. destruct (Hm verb rest eq_refl E) as (q & Hq & Haq & Hqy). exists q. split; [done|].
  by eapply at_related.
Qed.

Lemma tame_run name args : tame (runCompose message_text baseDir Unmarshal name args).
Proof.
  unfold runCompose. apply tame_checked. intros s. apply wp_bind, wp_guard. intros [e|] s1 Hm; [done|].
  apply wp_on_file; [|done]. intros y d Hat Hy x _. split; [|done].
  intros p Hp. by apply (may_deploy name args s1 y d (Hm eq_refl) Hat Hy p Hp).
Qed.
Lemma tame_stream name prefix args : tame (runComposeStream message_text baseDir Unmarshal name prefix args).
Proof.
  unfold runComposeStream. apply tame_checked. intros s. apply wp_bind, wp_guard. intros [e|] s1 Hm; [done|].
  apply wp_on_file; [|done]. intros y d Hat Hy x _. split.
  { intros p Hp. by apply (may_deploy name args s1 y d (Hm eq_refl) Hat Hy p Hp). }
  destruct x as [e|]; [done|]. apply (tame_reads (A := option message) (pbind (cdo ComposeLines) _)).
  reads_go.
Qed.


Lemma tame_writeFileAtomic path data mode : tame (writeFileAtomic path data mode).
Proof. apply tame_only. unfold writeFileAtomic. only_calls. Qed.
#[local] Hint Resolve tame_op_ret tame_run tame_stream tame_writeFileAtomic : tame.

Ltac tame_step :=
  match goal with
  | |- tame _ => solve [auto with tame nocore]
  | |- tame (ignored _) => unfold ignored
  | |- tame (checked _ _ _ _) => apply tame_checked
  | |- tame (pbind _ _) => apply tame_bind; [|intros ?]
  | |- tame (match ?x with _ => _ end) => destruct x
  | |- tame (let _ := _ in _) => cbv zeta
  | |- tame _ => apply tame_reads; solve [eauto with only_reads nocore | reads_go]
  | |- tame _ => by apply tame_only
  end.

Lemma tame_on_file {A} name (missing : A) f : (forall y d, tame (f y d)) -> tame (on_file baseDir name missing f).
Proof. intros Hf. unfold on_file. apply tame_bind; [apply tame_reads, reads_resolve|]. intros [y d]. repeat tame_step. Qed.
Lemma tame_stdout name args : tame (runComposeStdout baseDir name args).
Proof. apply tame_checked, tame_on_file. intros y d. apply tame_only. only_calls. Qed.
Lemma tame_tag_all entries : tame (tag_all entries).
Proof. induction entries as [|e entries IH]; [done|]. cbn [tag_all]. repeat tame_step. Qed.
#[local] Hint Resolve tame_stdout tame_tag_all : tame.
Lemma tame_save_rollback name : tame (save_rollback baseDir decode_health json_Marshal name).
Proof. unfold save_rollback. repeat tame_step. Qed.
#[local] Hint Resolve tame_save_rollback : tame.

Lemma tame_perform op : tame (perform op).
Proof.
  destruct op as [| | | | | | | | |n f H|n yaml| | | | | |n svc verb H| | | | | |]; unfold perform; tame_step;
    try (apply tame_bind; [|by intros ?]).
  10: { apply list_elem_of_In in H. simpl in H. decompose [or] H; subst; (apply tame_run || done). }
  10: { apply tame_checked, tame_on_file. intros _ d. apply tame_only. only_calls. }
  all: unfold ResolveComposeFile, UpdateProjectEnv, CreateProject, UpdateProject, DeleteProject, removeProjectDir,
    GetResolvedConfig, GetResolvedConfigYAML, UpStream, UpdateStackStream, on_service, ServiceLogs, StreamLogs,
    UpdateStack, RollbackStack; repeat tame_step.
Qed.
End Up.

(** The compose file a stack's name resolves to, in some state of the host. *)
Definition resolves_to (name : string) (p : string * string) : Prop := exists tr, exec (resolve name) tr (Some p).

(** A host whose containers and compose files stay as they are for as long
    as one operation takes: a name resolves to one file throughout it. *)
Section Steady.
Variable has_client : bool.
Variable containers : result string (list container).
Variable stat : string -> result fs_error FileInfo.

Definition steady_answer (c : ccall) : option (canswer c) :=
  match c return option (canswer c) with
  | HasClient => Some has_client
  | ListContainersCached => Some containers
  | CFs c => match c return option (canswer (CFs c)) with Stat p => Some (stat p) | _ => None end
  | _ => None
  end.
Definition steady (a : caction) : Prop := forall x, steady_answer (projT1 a) = Some x -> projT2 a = x.

Fixpoint steady_result {A} (p : cprog A) : option A :=
  match p with
  | Ret a => Some a
  | Do c k => x ← steady_answer c; steady_result (k x)
  | Stuck => None
  end.

Definition looks_at (c : ccall) : Prop := is_Some (steady_answer c).
Lemma wp_steady {A} related (p : cprog A) s (Q : A -> list (string * string) -> Prop) :
  only looks_at p -> (forall a, steady_result p = Some a -> Q a s) -> wp steady (up_monitor related) p s Q.
Proof.
  intros Hp HQ. induction p as [a|c k IH|]; [by apply HQ| |done]. destruct Hp as [[x Hx] Hk]. intros y Hy.
  specialize (Hy _ Hx). simpl in Hy. subst y. simpl in HQ. rewrite Hx in HQ. split.
  - intros p E. simpl in E. by destruct c.
  - assert (E : mn_next (up_monitor related) s (cact c x) = s) by (by destruct c). rewrite E. by apply IH.
Qed.
Lemma wp_looks {A} related (p : cprog A) s (Q : A -> list (string * string) -> Prop) :
  only looks_at p -> (forall tr a, exec p tr (Some a) -> Q a s) -> wp anything (up_monitor related) p s Q.
Proof.
  intros Hp HQ. induction p as [a|c k IH|]; [apply (HQ []); constructor| |done]. destruct Hp as [[x Hx] Hk]. intros y _. split.
  - intros p E. simpl in E. by destruct c.
  - assert (E : mn_next (up_monitor related) s (cact c y) = s) by (by destruct c). rewrite E. apply IH; [done|].
    intros tr a He. apply (HQ (cact c y :: tr)). by constructor.
Qed.
Ltac looks_go :=
  repeat match goal with
  | |- only _ _ => solve [auto with nocore]
  | |- only _ (pbind (cdo _) _) => split; [by eexists|intros ?]
  | |- only _ (pbind (fs _) _) => split; [by eexists|intros ?]
  | |- only _ (pbind _ _) => apply only_bind; [|intros ?]
  | |- only _ (Ret _) => done
  | |- only _ (let _ := _ in _) => cbv zeta
  | |- only _ (match ?x with _ => _ end) => destruct x
  end.
Lemma looks_checked {A} name (r : message -> A) f : only looks_at f -> only looks_at (checked baseDir name r f).
Proof. intros H. unfold checked. by destruct (validateProjectName name). Qed.
Lemma looks_compose_path name : only looks_at (resolve name).
Proof.
  assert (Hf : forall dir, only looks_at (findComposeFile dir)).
  { intros dir. unfold findComposeFile. generalize composeFileNames. intros l. induction l; cbn [first_stat]; looks_go. }
  assert (Hd : forall dir cs, only looks_at (deployed_file dir cs)).
  { intros dir cs. unfold there. induction cs as [|c cs IH]; cbn [deployed_file]; unfold there; looks_go. }
  apply looks_checked. looks_go.
Qed.

Lemma seen_judged related tr seen q : q ∈ fold_left (mn_next (up_monitor related)) tr seen ->
  q ∈ seen \/ exists b, b ∈ tr /\ judged b = Some q.
Proof.
  revert seen. induction tr as [|a tr IH]; intros seen Hq; [by left|].
  apply IH in Hq as [Hq|(b & Hb & Ej)]; [|right; exists b; by split; [right|]].
  simpl in Hq. destruct (judged a) as [q'|] eqn:Ej; [|by left].
  apply elem_of_cons in Hq as [->|Hq]; [right; exists a; by split; [left|]|by left].
Qed.

(** C23: before each `docker compose up` the manager runs, in the same operation,
    it has read the resolved document, .env and all, of a compose file of that
    stack and found it to bind none of the panel's secrets; and it is the very
    file it brings up, where the host's containers and compose files stay as
    they are for as long as the operation takes ([steady]) - the stack's name
    is resolved once for the guard and again for the run. *)
Theorem up_judged op tr o :
  exec (perform op) tr o ->
  forall tr1 a tr2 yamlPath dir, tr = tr1 ++ a :: tr2 -> deploys (projT1 a) = Some (yamlPath, dir) ->
  (exists name b q, b ∈ tr1 /\ judged b = Some q /\ resolves_to name q /\ resolves_to name (yamlPath, dir)) /\
  (Forall steady tr -> exists b, b ∈ tr1 /\ judged b = Some (yamlPath, dir)).
Proof.
  intros He tr1 a tr2 y d -> Hd. split; [|intros HR].
  - set (same p q := exists name, resolves_to name q /\ resolves_to name p).
    assert (Ht : tame anything same (perform op)).
    { apply (tame_perform anything same resolves_to).
      - intros name s Q HQ. apply wp_looks; [apply looks_compose_path|]. intros tr p Hp. apply HQ. by exists tr.
      - intros name p q Hp Hq _ _. by exists name. }
    destruct (wp_sound _ _ _ _ _ _ _ (Ht []) He) as [Hw _]; [by apply Forall_forall|]. apply watch_at in Hw.
    destruct (Hw _ Hd) as (q & Hq & name & Hrq & Hrp). apply seen_judged in Hq as [Hq|(b & Hb & Ej)]; [by apply elem_of_nil in Hq|].
    by exists name, b, q.
  - assert (Ht : tame steady eq (perform op)).
    { apply (tame_perform steady eq (fun name p => steady_result (resolve name) = Some p)).
      - intros name s Q HQ. by apply wp_steady; [apply looks_compose_path|].
      - intros name p q Hp Hq _ _. congruence. }
    destruct (wp_sound _ _ _ _ _ _ _ (Ht []) He HR) as [Hw _]. apply watch_at in Hw.
    destruct (Hw _ Hd) as (q & Hq & <-). by apply seen_judged in Hq as [Hq|Hq]; [apply elem_of_nil in Hq|].
Qed.
End Steady.
End Manager.
