(* ===== verification/ComposePlaces.v ===== *)
(** * Where the compose manager writes, and its way back from an update

    Every file the manager makes, replaces or removes is in the directory of
    the stack it was asked about, whatever the name; and a rollback recreates
    nothing until every image of its manifest is back. *)

From S2P Require Import Prelude GoStrings GoRegexp PathFacts ComposeSafety Interact FileCall ComposeCall.
From S2P Require Import ComposeManager.
From S2P Require Import ComposeManagerFacts.

#[local] Open Scope prog_scope.

Create HintDb off.
Ltac off_step :=
  match goal with
  | |- only _ _ => solve [auto with off nocore]
  | |- only _ (Do _ _) => split; [done|intros ?; cbv beta]
  | |- only _ (pbind (cdo _) _) => split; [done|intros ?]
  | |- only _ (pbind (fs _) _) => split; [done|intros ?]
  | |- only _ (pbind _ _) => apply only_bind; [|intros ?]
  | |- only _ (Ret _) => done
  | |- only _ (cdo _) => by split
  | |- only _ (let _ := _ in _) => cbv zeta
  | |- only _ (match ?x with _ => _ end) => destruct x
  end.
Ltac off_go := repeat off_step.

(** ** The name of a stack *)

Definition name_char (c : ascii) : Prop := is_alnum c = true \/ c = "_"%char \/ c = "."%char \/ c = "-"%char.
(** A letter or digit, then letters, digits, [_], [.] and [-]; the names of
    a migration's backups are kept for it. *)
Definition stack_name (name : string) : Prop :=
  (exists c rest, name = String c rest /\ is_alnum c = true /\ Forall name_char (list_ascii_of_string rest)) /\
  ~ (exists t, name = t +:+ ".migbak").

Lemma name_re_spec s :
  matchString validProjectName s = true <->
  exists c rest, s = String c rest /\ is_alnum c = true /\ Forall name_char (list_ascii_of_string rest).
Proof.
  assert (Hc : forall c, is_alnum c || slices_contains ["_"; "."; "-"] (String c "") = true <-> name_char c).
  { intros c. unfold name_char. rewrite orb_true_iff, slices_contains_spec. set_unfold. intuition congruence. }
  unfold matchString. rewrite re_match_spec. unfold validProjectName, name_re. rewrite in_re_cat. split.
  - intros (s1 & s2 & E & (c & -> & Ha)%in_re_class & H2). destruct s as [|c' rest]; [done|]. injection E as -> E.
    exists c, rest. split_and!; [done|done|]. rewrite E. apply in_star_class in H2. eapply Forall_impl; [exact H2|]. intros d. apply Hc.
  - intros (c & rest & -> & Ha & Hr). exists [c], (list_ascii_of_string rest). split_and!; [done|by constructor|].
    apply in_star_class. eapply Forall_impl; [exact Hr|]. intros d. apply Hc.
Qed.
Lemma valid_stack_name name : ValidateProjectName name = None <-> stack_name name.
Proof.
  unfold ValidateProjectName, stack_name. rewrite <-name_re_spec.
  destruct (matchString validProjectName name) eqn:Em; [|rewrite orb_true_r; naive_solver].
  apply name_re_spec in Em as (c & rest & -> & Ha & _). simpl negb. rewrite orb_false_r.
  change (String c rest ==s "") with false. cbv iota.
  assert (hasPrefix (String c rest) "." = false) as ->.
  { apply not_true_iff_false. intros [t E]%hasPrefix_spec. injection E as -> _. done. }
  destruct (hasSuffix (String c rest) ".migbak") eqn:Es; simpl; (split; [|]); try done.
  - intros [_ []]. by apply hasSuffix_split in Es.
  - intros _. split; [done|]. intros [t E]. rewrite E, hasSuffix_app in Es. done.
Qed.
Lemma stack_name_plain name : stack_name name -> plain_elem name.
Proof. intros H. by apply valid_name_plain, valid_stack_name. Qed.
#[local] Hint Resolve stack_name_plain : core.

Section Places.
Variable message_text : message -> string.
Variable baseDir : string.
Hypothesis base_abs : isAbs baseDir = true.
Variable Unmarshal : string -> result string ymap.
Variable decode_health : string -> result string (list (string * option bool)).
Variable json_Marshal : list rollbackEntry -> string.
Variable json_Unmarshal : string -> result string (list rollbackEntry).
Notation validateProjectName := (validateProjectName baseDir).
Notation project_dir := (project_dir baseDir).
Notation checked := (checked baseDir).
Notation perform := (perform message_text baseDir Unmarshal decode_health json_Marshal json_Unmarshal).

(** The place of a stack's directory, and a path at or below it. *)
Definition stack_place (name : string) : list string := place baseDir ++ [name].
Definition in_stack (name p : string) : Prop :=
  stack_name name /\ exists l, Forall plain_elem l /\ p = spell (stack_place name ++ l).

Lemma checked_name name : validateProjectName name = None -> stack_name name.
Proof. unfold ComposeManager.validateProjectName. destruct (ValidateProjectName name) eqn:E; [done|]. intros _. by apply valid_stack_name. Qed.
Lemma stack_plain name : plain_elem name -> Forall plain_elem (stack_place name).
Proof. intros Hn. apply plain_snoc. split; [apply place_plain|done]. Qed.
Lemma join_in name l : plain_elem name -> Forall plain_elem l -> path_Join (baseDir :: name :: l) = spell (stack_place name ++ l).
Proof. intros Hn Hl. rewrite path_Join_place by (done || by constructor). unfold stack_place. by rewrite <-app_assoc. Qed.
Lemma dir_in name : plain_elem name -> project_dir name = spell (stack_place name).
Proof. intros Hn. unfold ComposeManager.project_dir. rewrite join_in by done. by rewrite app_nil_r. Qed.
Lemma file_in name f : plain_elem name -> plain_elem f -> path_Join [project_dir name; f] = spell (stack_place name ++ [f]).
Proof.
  intros Hn Hf. rewrite dir_in by done. rewrite path_Join_spell; [done|]. apply plain_snoc. split; [by apply stack_plain|done].
Qed.
Lemma in_stack_dir name : stack_name name -> in_stack name (project_dir name).
Proof. intros Hn. split; [done|]. exists []. rewrite app_nil_r, dir_in; auto. Qed.

(** ** The monitor *)

(** Temporary files are known by the name they were given. *)
Definition place_monitor (name : string) : cmonitor :=
  mkMonitor (list string)
    (fun made a =>
       match projT1 a with
       | CFs (CreateTemp dir _) => in_stack name dir
       | CFs (Rename from to) => from ∈ made /\ in_stack name to
       | CFs (TmpWrite tmp _) | CFs (TmpChmod tmp _) | CFs (TmpChown tmp _ _) | CFs (TmpSync tmp) => tmp ∈ made
       | CFs (Remove p) => p ∈ made \/ in_stack name p
       | CFs (MkdirAll p _) | RemoveAll p | Trash p => in_stack name p
       | CFs (ChmodPath _ _) | CFs (ChownPath _ _ _) => False
       | _ => True
       end)
    (fun made a =>
       let 'existT c x := a in
       match c return canswer c -> list string with
       | CFs c => match c return fanswer c -> list string with
                  | CreateTemp _ _ => fun x => match x with Ok tmp => tmp :: made | Err _ => made end
                  | _ => fun _ => made
                  end
       | _ => fun _ => made
       end x).
Definition always (_ : caction) : Prop := True.

Section Name.
Variable name : string.
Notation M := (place_monitor name).

(** A program that keeps to the stack, and what its result is like. *)
Definition keeps {A} (P : A -> Prop) (p : cprog A) : Prop := forall s, wp always M p s (fun a _ => P a).
Lemma keeps_ret {A} (P : A -> Prop) a : P a -> keeps P (Ret a).
Proof. by intros H s. Qed.
Lemma keeps_bind {A B} (P : A -> Prop) (Q : B -> Prop) (p : cprog A) f :
  keeps P p -> (forall a, P a -> keeps Q (f a)) -> keeps Q (pbind p f).
Proof. intros Hp Hf s. apply wp_bind. eapply wp_mono; [apply Hp|]. intros a s' Ha. by apply Hf. Qed.

Lemma keeps_then {A B} (Q : B -> Prop) (p : cprog A) f :
  keeps (fun _ => True) p -> (forall a, keeps Q (f a)) -> keeps Q (pbind p f).
Proof. intros Hp Hf. by eapply keeps_bind. Qed.

(** The calls that leave files alone. *)
Definition hands_off (c : ccall) : Prop :=
  match c with
  | CFs (Stat _) | CFs (ReadFileAll _) | CFs (TmpClose _) => True
  | CFs _ | RemoveAll _ | Trash _ => False
  | _ => True
  end.
Lemma keeps_only {A} (P : A -> Prop) (p : cprog A) : only hands_off p -> yields P p -> keeps P p.
Proof.
  induction p as [a|c k IH|]; intros Hp HP s; [done| |done]. destruct Hp as [Hc Hk]. intros x _.
  split; [destruct c as [[]| | | | | | | | | | | | | | | |]; done|]. apply IH; [apply Hk|apply HP].
Qed.
Lemma yields_any {A} (p : cprog A) : yields (fun _ => True) p.
Proof. induction p as [a|c k IH|]; simpl; auto. Qed.
Lemma keeps_off {A} (p : cprog A) : only hands_off p -> keeps (fun _ => True) p.
Proof. intros H. apply keeps_only; [done|apply yields_any]. Qed.
Lemma reads_off {A} (p : cprog A) : only reads p -> only hands_off p.
Proof. apply only_mono. intros []; try done. by destruct c. Qed.
Lemma keeps_reads {A} (p : cprog A) : only reads p -> keeps (fun _ => True) p.
Proof. intros H. by apply keeps_off, reads_off. Qed.
Lemma keeps_any {A} (P : A -> Prop) p : keeps P p -> keeps (fun _ => True) p.
Proof. intros H s. eapply wp_mono; [apply H|done]. Qed.
Lemma keeps_checked {A} (r : message -> A) f :
  (stack_name name -> keeps (fun _ => True) f) -> keeps (fun _ => True) (checked name r f).
Proof. intros H. unfold ComposeManager.checked. destruct (validateProjectName name) eqn:E; [done|]. by apply H, checked_name. Qed.

(** ** Writing a file *)

Lemma keeps_writeFileAtomic l f data mode : stack_name name -> Forall plain_elem l -> plain_elem f ->
  keeps (fun _ => True) (writeFileAtomic (spell (stack_place name ++ l ++ [f])) data mode).
Proof.
  intros Hn Hl Hf s. unfold writeFileAtomic. intros st _. split; [done|]. simpl mn_next. rewrite app_assoc, path_Dir_spell.
  2: { rewrite !Forall_app, !Forall_singleton. split_and!; [by apply stack_plain, stack_name_plain|done|done]. }
  intros tmp _. split; [by split; [|exists l]|]. destruct tmp as [tmp|e]; [|done]. cbv zeta. simpl mn_next.
  assert (Hto : in_stack name (spell ((stack_place name ++ l) ++ [f]))).
  { split; [done|]. exists (l ++ [f]). rewrite Forall_app, Forall_singleton. by rewrite <-app_assoc. }
  assert (Hin : tmp ∈ tmp :: s) by (by left). revert Hin. generalize (tmp :: s). intros made Hin.
  repeat first
    [ done
    | match goal with
      | |- wp _ _ (match ?x with _ => _ end) _ _ => destruct x
      | |- wp _ _ (pbind (Ret _) _) _ _ => cbn [pbind]
      | |- wp _ _ (pbind _ _) _ _ => intros ? _; split; [by repeat first [done | left]|]; simpl mn_next
      | |- wp _ _ (Ret _) _ _ => done
      end ].
Qed.

End Name.

(** ** The operations *)

Lemma off_checked {A} n (r : message -> A) f : only hands_off f -> only hands_off (checked n r f).
Proof. intros H. unfold ComposeManager.checked. by destruct (validateProjectName n). Qed.
Lemma off_on_file {A} n (missing : A) f : (forall y d, only hands_off (f y d)) -> only hands_off (on_file baseDir n missing f).
Proof. intros H. unfold on_file. apply only_bind; [apply reads_off, reads_resolve|]. intros [y d]. by destruct (y ==s ""). Qed.
Lemma off_stdout n args : only hands_off (runComposeStdout baseDir n args).
Proof. apply off_checked, off_on_file. intros y d. off_go. Qed.
#[local] Hint Resolve off_stdout : off.
Lemma off_guard n args : only hands_off (guardResolvedCompose message_text baseDir Unmarshal n args).
Proof. unfold guardResolvedCompose, GetResolvedConfigYAML. off_go. Qed.
Lemma off_each_line prefix lines : only hands_off (each_line prefix lines).
Proof. apply reads_off, reads_each_line. Qed.
#[local] Hint Resolve off_guard off_each_line : off.
Lemma off_run n args : only hands_off (runCompose message_text baseDir Unmarshal n args).
Proof. apply off_checked, only_bind; [apply off_guard|]. intros [e|]; [done|]. apply off_on_file. intros y d. off_go. Qed.
Lemma off_stream n prefix args : only hands_off (runComposeStream message_text baseDir Unmarshal n prefix args).
Proof. apply off_checked, only_bind; [apply off_guard|]. intros [e|]; [done|]. apply off_on_file. intros y d. off_go. Qed.
Lemma off_tag_all entries : only hands_off (tag_all entries).
Proof. induction entries as [|e entries IH]; cbn [tag_all]; off_go. Qed.
#[local] Hint Resolve off_run off_stream off_tag_all : off.

Section Op.
Variable name : string.
Notation keeps := (keeps name).

Lemma compose_files_plain : Forall plain_elem composeFileNames.
Proof. repeat constructor; done. Qed.
Lemma keeps_find dir : keeps (fun f => f = "" \/ plain_elem f) (findComposeFile dir).
Proof.
  apply keeps_only; [apply reads_off, reads_findComposeFile|]. unfold findComposeFile.
  pose proof compose_files_plain as H. induction H as [|f l Hf _ IH]; [by left|]. intros [st|e]; [by right|exact IH].
Qed.
Lemma keeps_services : keeps (fun r => match r with Ok _ => stack_name name | Err _ => True end)
  (GetProjectServices baseDir decode_health name).
Proof.
  apply keeps_only; [apply reads_off, reads_services|]. unfold GetProjectServices, ComposeManager.checked.
  destruct (validateProjectName name) as [e|] eqn:E; [done|]. apply checked_name in E.
  eapply yields_mono; [apply yields_any|]. by intros [] _.
Qed.
Lemma keeps_write_in dir_file f data mode : stack_name name -> plain_elem f -> dir_file = path_Join [project_dir name; f] ->
  keeps (fun _ => True) (writeFileAtomic dir_file data mode).
Proof. intros Hn Hf ->. rewrite file_in by auto. by apply (keeps_writeFileAtomic name []). Qed.
Lemma rollback_plain : plain_elem ".sfpanel-rollback.json".
Proof. by split_and!. Qed.
Lemma keeps_save_rollback : keeps (fun _ => True) (save_rollback baseDir decode_health json_Marshal name).
Proof.
  unfold save_rollback. eapply keeps_bind; [apply keeps_reads; by split|]. intros client _. destruct (negb client); [done|].
  eapply keeps_bind; [apply keeps_services|]. intros [services|e] Hn; [|done].
  eapply keeps_bind; [apply keeps_reads, reads_images_now|]. intros rollback _. destruct (_ =? _)%nat; [done|].
  eapply keeps_bind; [|done]. unfold rollback_path. rewrite join_in by (by auto || by repeat constructor).
  apply (keeps_writeFileAtomic name []); [done|constructor|apply rollback_plain].
Qed.
Lemma keeps_removeProjectDir : stack_name name -> keeps (fun _ => True) (removeProjectDir (project_dir name)).
Proof.
  intros Hn s moved _. split; [by apply in_stack_dir|]. simpl mn_next. destruct moved as [[e|]|]; [|done|];
    (intros err _; by split; [apply in_stack_dir|]).
Qed.

End Op.

Lemma keeps_perform op : keeps (op_name message_text baseDir Unmarshal op) (fun _ => True) (perform op).
Proof.
  destruct op as [n| |n|n|n|n content|n yaml|n yaml|n images volumes|n f H|n yaml|n|n|n|n|n|n svc verb H|n svc tail|n tail svc|n|n|n|n];
    cbn [op_name ComposeManagerFacts.perform]; unfold ignored; (apply keeps_then; [|by intros; apply keeps_ret]).
  - apply keeps_reads, reads_checked, reads_resolve.
  - apply keeps_reads, reads_ListProjects.
  - apply keeps_reads, reads_GetProject.
  - apply keeps_reads, reads_GetProjectYAML.
  - apply keeps_reads, reads_GetProjectEnv.
  - apply keeps_checked. intros Hn. cbv zeta. eapply keeps_bind; [apply keeps_reads, reads_there|]. intros found _.
    destruct (negb found); [done|]. eapply keeps_bind; [by apply (keeps_write_in n _ ".env")|done].
  - apply keeps_checked. intros Hn. cbv zeta. eapply keeps_bind; [apply keeps_find|]. intros f Hf.
    destruct (negb _); [done|]. intros s err _. split; [by apply in_stack_dir|]. cbn [pbind]. destruct err as [e|]; [done|].
    revert s. refine ((_ : keeps n _ _)). eapply keeps_bind; [by apply (keeps_write_in n _ "docker-compose.yml")|]. intros [e|] _; done.
  - apply keeps_checked. intros Hn. cbv zeta. eapply keeps_bind; [apply keeps_find|]. intros f Hf.
    destruct (f ==s "") eqn:E; [done|]. apply String.eqb_neq in E. destruct Hf as [|Hf]; [done|].
    eapply keeps_bind; [by apply (keeps_write_in n _ f)|done].
  - apply keeps_checked. intros Hn. eapply keeps_bind; [apply keeps_off, off_run|]. intros out _.
    apply keeps_then; [|intros left_; destruct left_; [done|by apply keeps_removeProjectDir]].
    destruct (out.2); [|done]. apply keeps_then; [apply keeps_off, off_run|by intros; apply keeps_ret].
  - apply keeps_off. apply list_elem_of_In in H. simpl in H. decompose [or] H; subst; (apply off_run || done).
  - apply keeps_off, off_checked, off_on_file. intros y d. off_go.
  - apply keeps_then; [apply keeps_off, off_stdout|by intros; apply keeps_ret].
  - apply keeps_then; [apply keeps_off, off_stdout|by intros; apply keeps_ret].
  - apply keeps_off, off_stream.
  - apply keeps_then; [apply keeps_save_rollback|]. intros [e|]; [done|]. apply keeps_off. off_go.
  - apply keeps_reads, reads_services.
  - apply keeps_off. unfold on_service. off_go.
  - apply keeps_off. unfold ServiceLogs. off_go.
  - apply keeps_off, off_checked. off_go.
  - apply keeps_reads, reads_CheckStackUpdates.
  - apply keeps_then; [apply keeps_save_rollback|]. intros [e|]; [done|]. apply keeps_off. off_go.
  - apply keeps_checked. intros Hn. apply keeps_then; [by apply keeps_reads; split|]. intros [data|e]; [|done].
    destruct (json_Unmarshal data) as [entries|e]; [|done]. apply keeps_then; [apply keeps_off, off_tag_all|].
    intros [[out e]|]; [done|]. apply keeps_then; [apply keeps_off, off_run|]. intros up. destruct (up.2); [done|].
    intros s x _. split; [|done]. right. unfold rollback_path. rewrite join_in by (by auto || by repeat constructor).
    split; [done|]. eexists. split; [|done]. by repeat constructor.
  - apply keeps_reads, reads_GetRollbackInfo.
Qed.

(** *** A name that is no stack's *)

Lemma checked_refuses {A} name (r : message -> A) (f : cprog A) : ~ stack_name name -> exists e, checked name r f = Ret (r e).
Proof.
  intros Hn. unfold ComposeManager.checked. destruct (validateProjectName name) as [e|] eqn:E; [by exists e|].
  by destruct Hn; apply checked_name.
Qed.

(** All that is asked is whether Docker is there. *)
Definition only_client (c : ccall) : Prop := c = HasClient.
Ltac bad_name :=
  repeat match goal with
  | Hn : ~ stack_name ?n |- context [ComposeManager.checked baseDir ?n ?r ?f] =>
      let e := fresh "e" in let E := fresh "E" in
      destruct (checked_refuses n r f Hn) as [e E]; rewrite E; clear E
  end.
Lemma idle_run n args : ~ stack_name n -> only only_client (runCompose message_text baseDir Unmarshal n args).
Proof. intros Hn. unfold runCompose. by bad_name. Qed.
Lemma idle_stdout n args : ~ stack_name n -> only only_client (runComposeStdout baseDir n args).
Proof. intros Hn. unfold runComposeStdout. by bad_name. Qed.
Lemma idle_stream n prefix args : ~ stack_name n -> only only_client (runComposeStream message_text baseDir Unmarshal n prefix args).
Proof. intros Hn. unfold runComposeStream. by bad_name. Qed.
#[local] Hint Resolve idle_run idle_stdout idle_stream : core.

Lemma idle_perform op :
  op <> OpListProjects _ _ _ -> ~ stack_name (op_name message_text baseDir Unmarshal op) -> only only_client (perform op).
Proof.
  intros Hl Hn. destruct op as [n| |n|n|n|n content|n yaml|n yaml|n images volumes|n f H|n yaml|n|n|n|n|n|n svc verb H|n svc tail|n tail svc|n|n|n|n];
    cbn [op_name ComposeManagerFacts.perform] in *; unfold ignored.
  all: try (unfold ResolveComposeFile, GetProject, GetProjectYAML, GetProjectEnv, UpdateProjectEnv, CreateProject, UpdateProject,
    DeleteProject, ValidateDraft, GetProjectServices, StreamLogs, RollbackStack, GetRollbackInfo; by bad_name).
  all: try (unfold GetResolvedConfig, GetResolvedConfigYAML, UpStream, on_service, ServiceLogs; only_go; done).
  - apply only_bind; [|done]. clear Hl. set_unfold in H. destruct_or!; subst; apply idle_run, Hn.
  - unfold UpdateStackStream, save_rollback, GetProjectServices. bad_name. split; [done|]. by intros [].
  - unfold CheckStackUpdates, GetProjectServices. bad_name. split; [done|]. by intros [].
  - unfold UpdateStack, save_rollback, GetProjectServices. bad_name. split; [done|]. by intros [].
Qed.

(** C32: whatever stack name an operation is given, every file the manager makes,
    replaces, removes or hands to the trash is the directory of that stack or
    below it, or the temporary file it just made there; and a name that no stack
    may have reaches nothing, no file and no command: at most the manager asks
    whether it has Docker. *)
Theorem manager_in_stack op tr o :
  exec (perform op) tr o ->
  watch (place_monitor (op_name message_text baseDir Unmarshal op)) [] tr /\
  (op <> OpListProjects _ _ _ -> ~ stack_name (op_name message_text baseDir Unmarshal op) ->
   forall a, a ∈ tr -> projT1 a = HasClient).
Proof.
  intros He. split.
  - eapply wp_sound; [apply (keeps_perform op [])|exact He|]. apply Forall_forall. by intros.
  - intros Hl Hn. eapply (exec_only only_client); [|exact He]. by apply idle_perform.
Qed.

(** ** A rollback *)

(** What was done before an action. *)
Definition past_monitor (ok : list caction -> caction -> Prop) : cmonitor :=
  mkMonitor (list caction) ok (fun past a => past ++ [a]).
Lemma past_fold ok tr past : fold_left (mn_next (past_monitor ok)) tr past = past ++ tr.
Proof.
  revert past. induction tr as [|a tr IH]; intros past; simpl; [by rewrite app_nil_r|]. rewrite IH. by rewrite <-app_assoc.
Qed.
(** Every image of the manifest read has been tagged back. *)
Definition tagged (past : list caction) (e : rollbackEntry) : Prop :=
  matchString validImageID (re_ImageID e) = true /\ matchString validImageRef (re_Image e) = true /\
  exists out, cact (DockerTag (re_ImageID e) (re_Image e)) (out, None) ∈ past.
Definition all_back (name : string) (past : list caction) : Prop :=
  exists data entries, cact (CFs (ReadFileAll (rollback_path baseDir name))) (Ok data) ∈ past /\
    json_Unmarshal data = Ok entries /\ Forall (tagged past) entries.
Lemma tagged_more past new e : tagged past e -> tagged (past ++ new) e.
Proof. intros (? & ? & out & H). split_and!; [done|done|]. exists out. apply elem_of_app. by left. Qed.
Lemma all_back_more name past new : all_back name past -> all_back name (past ++ new).
Proof.
  intros (data & entries & H1 & H2 & H3). exists data, entries. split_and!; [apply elem_of_app; by left|done|].
  eapply Forall_impl; [exact H3|]. intros e. apply tagged_more.
Qed.

Section Rollback.
Variable name : string.
Definition rollback_monitor : cmonitor :=
  past_monitor (fun past a => is_Some (deploys (projT1 a)) -> all_back name past).

Lemma wp_tag_all entries past (Q : option (string * message) -> list caction -> Prop) :
  (forall r new, (r = None -> Forall (tagged (past ++ new)) entries) -> Q r (past ++ new)) ->
  wp always rollback_monitor (tag_all entries) past Q.
Proof.
  revert past. induction entries as [|e entries IH]; intros past HQ; cbn [tag_all].
  { specialize (HQ None []). rewrite app_nil_r in HQ. apply HQ. by constructor. }
  assert (Hno : forall x, Q (Some x) past).
  { intros x. specialize (HQ (Some x) []). rewrite app_nil_r in HQ. by apply HQ. }
  destruct (matchString validImageID _) eqn:E1; simpl negb; cbv iota; [|apply Hno].
  destruct (matchString validImageRef _) eqn:E2; simpl negb; cbv iota; [|apply Hno].
  intros [out err] _. split; [by intros [? ?]|]. cbn [snd]. destruct err as [err|]; cbn [mn_next rollback_monitor past_monitor].
  - by apply HQ.
  - apply IH. intros r new Hr. rewrite <-app_assoc. apply HQ. intros ->. constructor.
    + split_and!; [done|done|]. exists out. apply elem_of_app. right. by left.
    + rewrite app_assoc. by apply Hr.
Qed.

Lemma wp_back {A} (p : cprog A) past : all_back name past -> wp always rollback_monitor p past (fun _ => all_back name).
Proof.
  revert past. induction p as [a|c k IH|]; intros past Hb; [done| |done]. intros x _. split; [intros _; exact Hb|].
  apply IH. by apply all_back_more.
Qed.

(** C33: A rollback brings the stack up only after every image its manifest
    names, each a valid reference of a valid ID, has been tagged back. *)
Theorem RollbackStack_whole tr o :
  exec (RollbackStack message_text baseDir Unmarshal json_Unmarshal name) tr o ->
  forall tr1 a tr2, tr = tr1 ++ a :: tr2 -> is_Some (deploys (projT1 a)) -> all_back name tr1.
Proof.
  intros He tr1 a tr2 -> Hd.
  assert (Hw : wp always rollback_monitor (RollbackStack message_text baseDir Unmarshal json_Unmarshal name) [] (fun _ _ => True)).
  { unfold RollbackStack, ComposeManager.checked. destruct (validateProjectName name); [done|].
    intros data _. split; [by intros [? ?]|]. cbn [pbind]. destruct data as [data|e]; [|done].
    destruct (json_Unmarshal data) as [entries|e] eqn:Ej; [|done]. apply wp_bind, wp_tag_all.
    intros [[out e]|] new Ht; [done|]. specialize (Ht eq_refl).
    eapply wp_mono; [apply wp_back|done]. exists data, entries. split_and!; [|done|done].
    apply elem_of_app. left. by left. }
  destruct (wp_sound _ _ _ _ _ _ _ Hw He) as [H _];
    [by apply Forall_forall|]. apply watch_at in H. unfold rollback_monitor in H. rewrite past_fold in H. by apply H.
Qed.
End Rollback.
End Places.
