(* ===== verification/FileGuard.v ===== *)
(** * The file manager's guard on writes (internal/feature/files)

    handler.go's check of a path about to be written, and attrs.go's reading
    of a mode and of an owner. *)

From S2P Require Import Prelude GoStrings Interact FileCall.

#[local] Open Scope prog_scope.

(** ** Paths (handler.go) *)

Definition validatePath (p : string) : option string :=
  if p ==s "" then Some "path is required"
  else if negb (isAbs p) then Some "path must be absolute"
  else
    let trimmed := trimRightAny p "/" in
    let trimmed := if trimmed ==s "" then "/" else trimmed in
    if negb (path_Clean p ==s trimmed) then Some "path contains traversal or redundant segments" else None.

Definition readProtectedPaths : list string :=
  ["/etc/shadow"; "/etc/gshadow"; "/etc/sudoers"; "/etc/sfpanel/config.yaml"; "/var/lib/sfpanel/sfpanel.db";
   "/var/lib/sfpanel/sfpanel.db-wal"; "/var/lib/sfpanel/sfpanel.db-shm"].
Definition writeProtectedPrefixes : list string := ["/etc/sfpanel/"; "/root/.ssh/"; "/etc/sudoers.d/"].

Definition isWriteProtectedPath (p : string) : bool :=
  let cleaned := path_Clean p in
  slices_contains readProtectedPaths cleaned ||
  existsb (fun prefix => (cleaned ==s trimSuffix prefix "/") || hasPrefix cleaned prefix) writeProtectedPrefixes.

Definition maxWriteLinkHops : nat := 40.

(** The loop of [resolveForWrite]; [hops] is how many links it may still
    follow. *)
Fixpoint resolve_loop (hops : nat) : string -> list string -> fprog (result string string) :=
  fix go (cur : string) (rest : list string) : fprog (result string string) :=
    match rest with
    | [] => Ret (Ok cur)
    | name :: rest =>
        if (name ==s "") || (name ==s ".") then go cur rest
        else if name ==s ".." then go (path_Dir cur) rest
        else
          let next := path_Join [cur; name] in
          fi <-- fdo (Lstat next) ;;
          match fi with
          | Err _ => Ret (Ok (path_Join (next :: rest)))
          | Ok false => go next rest
          | Ok true =>
              match hops with
              | O => Ret (Err "too many levels of symbolic links")
              | S hops =>
                  target <-- fdo (Readlink next) ;;
                  match target with
                  | Err e => Ret (Err ("read the symbolic link " +:+ next +:+ ": " +:+ fe_text e))
                  | Ok target => resolve_loop hops (if isAbs target then "/" else cur) (splitByte target "/" ++ rest)
                  end
              end
          end
    end.
Definition resolveForWrite (p : string) : fprog (result string string) :=
  resolve_loop maxWriteLinkHops "/" (splitByte (path_Clean p) "/").

Definition credentialsMessage : string :=
  "this path holds panel credentials and cannot be written through the file API".

(** The forms of [p] before the kernel's own. *)
Definition write_candidates (p : string) : fprog (list string) :=
  resolved <-- fdo (EvalSymlinks p) ;;
  match resolved with
  | Ok resolved => Ret [path_Clean p; resolved]
  | Err _ =>
      target <-- fdo (Readlink p) ;;
      match target with
      | Ok target =>
          let target := if isAbs target then target else path_Join [path_Dir p; target] in
          Ret [path_Clean p; path_Clean target]
      | Err _ => Ret [path_Clean p]
      end
  end.

Definition validatePathForWrite (p : string) : fprog (option string) :=
  match validatePath p with
  | Some e => Ret (Some e)
  | None =>
      candidates <-- write_candidates p ;;
      reached <-- resolveForWrite p ;;
      Ret (match reached with
           | Err e => Some e
           | Ok reached =>
               if existsb isWriteProtectedPath (candidates ++ [reached]) then Some credentialsMessage else None
           end)
  end.
Definition ValidatePathForWrite : string -> fprog (option string) := validatePathForWrite.

(** ** Modes and owners (attrs.go) *)

(** [strconv.ParseUint raw 8 32] on up to four characters, which no value
    overflows. *)
Fixpoint octal_digits (s : string) (acc : Z) : option Z :=
  match s with
  | EmptyString => Some acc
  | String c s => if byte_in c "0" "7" then octal_digits s (8 * acc + digit_val c) else None
  end.
Definition ModePerm : Z := 511.
Definition parseFileMode (raw : string) : result string Z :=
  if raw ==s "" then Err "mode is required"
  else if (4 <? String.length raw)%nat then Err "mode must be three or four octal digits"
  else
    match octal_digits raw 0 with
    | None => Err "mode must be octal, for example 0644"
    | Some parsed =>
        if negb (Z.ldiff parsed ModePerm =? 0)
        then Err "only permission bits may be set; setuid, setgid and sticky are not settable here"
        else Ok (Z.land parsed ModePerm)
    end.
Definition ParseFileMode : string -> result string Z := parseFileMode.

(** One of the two fields: -1 where it is empty. *)
Definition resolve_id (ref : string) (lookup : string -> fcall) (answer : forall s, fanswer (lookup s) -> option Z)
    (unknown : string) : fprog (result message Z) :=
  if ref ==s "" then Ret (Ok (-1))
  else
    match atoi ref with
    | Some n => Ret (Ok n)
    | None =>
        u <-- fdo (lookup ref) ;;
        Ret (match answer ref u with Some id => Ok id | None => Err (Sprintf unknown [FStr ref]) end)
    end.
Definition resolveOwner (userRef groupRef : string) : fprog (result message (Z * Z)) :=
  uid <-- resolve_id userRef LookupUser (fun _ x => x) "unknown user %q" ;;
  match uid with
  | Err e => Ret (Err e)
  | Ok uid =>
      gid <-- resolve_id groupRef LookupGroup (fun _ x => x) "unknown group %q" ;;
      Ret (match gid with
           | Err e => Err e
           | Ok gid =>
               if (uid =? -1) && (gid =? -1) then Err (Sprintf "a user or a group is required" []) else Ok (uid, gid)
           end)
  end.
Definition ResolveOwner : string -> string -> fprog (result message (Z * Z)) := resolveOwner.
