(* ===== verification/RunProg.v ===== *)
(** * The calls of a task's runner

    What internal/feature/tasks/run.go calls: its environment and store
    (runEnv, runStore), and the maps and the head its goroutines share.
    Goroutines of one run interleave call by call. *)

From S2P Require Import Prelude GoStrings GoTime TaskModel ClusterFSM ClusterTaskStore Interact.

(** Why a call to a node failed: the node's refusal, or the call's own error. *)
Inductive call_error : Type :=
| Refusal (code text : string) (details : gmap string string)
| CallFailed (text : string).

Inductive call : Type :=
| CtxErr                                   (* r.ctx.Err() != nil *)
| IsLeader
| Now
| Sleep (d : Duration)
| Health
| Nodes
| Unreachable (id : string)
| StartJob (node : string) (spec : JobSpec) (user : string)
| GetJob (node job : string)
| CancelJob (node job user : string)
| HandOver
| GetRunHead                               (* the head GetRun reads *)
| TaskRevisionOf (sha : string)
| PutRunHead (r : RunRecord)
| PutRunNodeRec (node : string) (rec : RunNodeRecord)
| PruneOld (keep : Z)
| LoadHead                                 (* r.head, r.headAt *)
| StoreHead (r : RunRecord) (at_ : option Time)
| LoadRec (id : string)                    (* r.recs[id] *)
| StoreRec (id : string) (rec : RunNodeRecord)
| Pick.                                    (* the goroutine that moves next *)

Definition answer (c : call) : Type :=
  match c with
  | CtxErr | IsLeader | Unreachable _ => bool
  | Now => Time
  | Sleep _ | PruneOld _ | StoreHead _ _ | StoreRec _ _ => unit
  | Health => gmap string string
  | Nodes => list Node
  | StartJob _ _ _ | GetJob _ _ => result call_error JobView
  | CancelJob _ _ _ | PutRunHead _ | PutRunNodeRec _ _ => bool  (* whether it succeeded *)
  | HandOver => string * option string                          (* the target, and the error *)
  | GetRunHead => option RunRecord
  | TaskRevisionOf _ => result string string
  | LoadHead => RunRecord * Time
  | LoadRec _ => RunNodeRecord
  | Pick => nat
  end.

(** Programs of these calls. *)
Notation prog := (Interact.prog answer).
Notation action := (Interact.action answer).
Notation monitor := (Interact.monitor answer).
Notation do_call := (@Interact.do_call call answer).
Notation act := (@Interact.act call answer).
Notation wp_call := (@Interact.wp_call call answer).

(** Goroutines that run at once: one of them moves at a time, whichever is
    picked, until all have ended. *)
Fixpoint par {A} (fuel : nat) (ps : list (prog A)) : prog (list A) :=
  match mapM result_of ps with
  | Some rs => Ret rs
  | None =>
      match fuel with
      | O => Stuck
      | S fuel =>
          Do Pick (fun i =>
            match ps !! (i : nat) with
            | Some (Do c k) => Do c (fun x => par fuel (<[i := k x]> ps))
            | _ => par fuel ps
            end)
      end
  end.

(** ** Executions of goroutines *)

(** Traces merged into one, with the picks of the scheduler. *)
Inductive merge : list (list action) -> list action -> Prop :=
| merge_nil trs : Forall (eq []) trs -> merge trs []
| merge_pick trs tr i : merge trs tr -> merge trs (act Pick i :: tr)
| merge_act trs tr i a t : trs !! i = Some t -> merge (<[i := t]> trs) tr ->
    merge (<[i := a :: t]> trs) (a :: tr).

(** [trs] and [os] are the traces and the results of [ps], run each alone. *)
Definition each_exec {A} (ps : list (prog A)) (trs : list (list action)) (os : list (option A)) : Prop :=
  length trs = length ps /\ length os = length ps /\
  forall i p t o, ps !! i = Some p -> trs !! i = Some t -> os !! i = Some o -> exec p t o.

Lemma each_exec_nils {A} (ps : list (prog A)) os :
  length os = length ps ->
  (forall i p o, ps !! i = Some p -> os !! i = Some o -> exec p [] o) -> each_exec ps (map (fun _ => []) ps) os.
Proof.
  intros Hl H. split_and!; [by rewrite length_map|done|]. intros i p t o Hp Ht Ho.
  rewrite list_lookup_fmap, Hp in Ht. simplify_eq/=. eauto.
Qed.

Lemma nils {A} (ps : list (prog A)) : Forall (eq []) (map (fun _ => @nil action) ps).
Proof. by induction ps; constructor. Qed.

(** Goroutines run as each alone would: their traces merge into the trace of
    all, and the results of all are theirs. *)
Lemma par_exec {A} fuel (ps : list (prog A)) tr o :
  exec (par fuel ps) tr o ->
  exists trs os, each_exec ps trs os /\ merge trs tr /\ forall rs, o = Some rs -> os = map Some rs.
Proof.
  assert (Hstop : forall ps : list (prog A),
    exists trs os, each_exec ps trs os /\ merge trs [] /\ forall rs, @None (list A) = Some rs -> os = map Some rs).
  { intros l. exists (map (fun _ => []) l), (map (fun _ => None) l). split_and!; [|constructor; by apply nils|done].
    apply each_exec_nils; [by rewrite length_map|]. intros i p o' Hp Ho'.
    rewrite list_lookup_fmap, Hp in Ho'. simplify_eq/=. constructor. }
  assert (Hret : forall (ps : list (prog A)) rs o, mapM result_of ps = Some rs -> o = Some rs ->
    exists trs os, each_exec ps trs os /\ merge trs [] /\ forall rs, o = Some rs -> os = map Some rs).
  { intros l rs o' Em ->. apply result_of_all in Em. exists (map (fun _ => []) l), (map Some rs).
    split_and!; [|constructor; by apply nils|by intros ? [= ->]]. apply each_exec_nils.
    - rewrite length_map. symmetry. by eapply Forall2_length.
    - intros i p o' Hp Ho'. destruct (Forall2_lookup_l _ _ _ _ _ Em Hp) as (a & Ha & ->).
      rewrite list_lookup_fmap, Ha in Ho'. simplify_eq/=. constructor. }
  revert ps tr o. induction fuel as [|fuel IH]; intros ps tr o H; cbn [par] in H;
    (destruct (mapM result_of ps) as [rs|] eqn:Em; apply exec_inv in H as [[-> ->]|H]; [apply Hstop| |apply Hstop|]).
  - destruct H as [-> Ho]. by eapply Hret.
  - done.
  - destruct H as [-> Ho]. by eapply Hret.
  - destruct H as (i & tr' & -> & H). simpl in i.
    assert (Hpick : forall l, exec (par fuel l) tr' o -> l = ps ->
      exists trs os, each_exec ps trs os /\ merge trs (act Pick i :: tr') /\ forall rs, o = Some rs -> os = map Some rs).
    { intros l Hl ->. destruct (IH _ _ _ Hl) as (trs & os & ? & ? & ?). exists trs, os. by repeat (split; [done || by constructor|]). }
    destruct (ps !! i) as [[a|c k|]|] eqn:Ei; try by eapply Hpick.
    apply exec_inv in H as [[-> ->]|(x & tr'' & -> & H)].
    { destruct (Hstop ps) as (trs & os & ? & ? & ?). exists trs, os. by repeat (split; [done || by constructor|]). }
    destruct (IH _ _ _ H) as (trs & os & (L1 & L2 & HF) & Hm & Ho). rewrite length_insert in L1, L2.
    pose proof (lookup_lt_Some _ _ _ Ei) as Hi.
    destruct (lookup_lt_is_Some_2 trs i) as [t Ht]; [lia|].
    exists (<[i := act c x :: t]> trs), os. split_and!; [| |done].
    + split_and!; [by rewrite length_insert|done|]. intros j p tj oj Hp Htj Hoj.
      destruct (decide (i = j)) as [<-|Hne].
      * rewrite list_lookup_insert_eq in Htj by (by eapply lookup_lt_Some). simplify_eq. constructor.
        apply (HF i); [by apply list_lookup_insert_eq|done..].
      * rewrite list_lookup_insert_ne in Htj by done. apply (HF j); [|done..]. by rewrite list_lookup_insert_ne.
    + constructor. apply merge_act; [done|]. by rewrite list_insert_id.
Qed.

(** What a trace of a merge has, the merged trace has, and the merged one has
    nothing more. *)
Lemma merge_elem trs tr i t a : merge trs tr -> trs !! i = Some t -> a ∈ t -> a ∈ tr.
Proof.
  intros H. revert i t. induction H as [trs HF|trs tr k H IH|trs tr k b u Hu H IH]; intros i t Hi Ha.
  - rewrite Forall_lookup in HF. apply HF in Hi. subst t. by apply not_elem_of_nil in Ha.
  - apply elem_of_cons. right. by eapply IH.
  - pose proof (lookup_lt_Some _ _ _ Hu) as Hk. apply list_lookup_insert_Some in Hi as [(<- & <- & _)|[Hne Hi]].
    + apply elem_of_cons in Ha as [->|Ha]; [by left|]. right. eapply (IH k u); [by apply list_lookup_insert_eq|done].
    + right. eapply (IH i t); [by rewrite list_lookup_insert_ne|done].
Qed.

Lemma merge_split trs tr tr1 a tr2 :
  merge trs tr -> tr = tr1 ++ a :: tr2 ->
  (exists i, a = act Pick i) \/ exists i t1 t2, trs !! i = Some (t1 ++ a :: t2).
Proof.
  intros H. revert tr1. induction H as [trs _|trs tr i H IH|trs tr i b t Ht H IH]; intros tr1 E.
  - by destruct tr1.
  - destruct tr1 as [|b tr1]; simplify_eq/=; [by left; eexists|by apply (IH tr1)].
  - pose proof (lookup_lt_Some _ _ _ Ht) as Hi. destruct tr1 as [|b' tr1]; simplify_eq/=.
    + right. exists i, [], t. by apply list_lookup_insert_eq.
    + destruct (IH tr1 eq_refl) as [?|(j & t1 & t2 & Hj)]; [by left|right].
      destruct (decide (i = j)) as [<-|Hne].
      * rewrite list_lookup_insert_eq in Hj by done. simplify_eq. exists i, (b' :: t1), t2.
        by apply list_lookup_insert_eq.
      * rewrite list_lookup_insert_ne in Hj by done. exists j, t1, t2. by rewrite list_lookup_insert_ne.
Qed.
