(* ===== verification/JobProg.v ===== *)
(** * The calls of a node's task jobs (internal/feature/taskjob)

    A job's record, and what the handlers of /task-jobs and the runners of
    jobs call: the statements on the table task_jobs, the lock of a start, the
    job's files, the host's commands and the clock.  Each is one atomic step;
    goroutines interleave between them. *)

From S2P Require Import Prelude GoStrings GoTime HostGuard TaskModel Interact FileCall ComposeCall.

(** One row of task_jobs. *)
Record record : Type := mkRecord {
  jr_spec : JobSpec;
  jr_status : string;
  jr_changed : bool;
  jr_exitCode : option Z;
  jr_summary : string;
  jr_unit : string;
  jr_bootID : string;
  jr_username : string;
  jr_startedAt : Time;
  jr_endedAt : Time;
}.
Definition jr_ID (r : record) : string := js_ID (jr_spec r).

(** How a job ended. *)
Record Result : Type := mkResult {
  rt_Status : string;
  rt_Changed : bool;
  rt_ExitCode : option Z;
  rt_Summary : string;
}.

(** A started job, as a runner gets it. *)
Record Job : Type := mkJob {
  job_Spec : JobSpec;
  job_LogPath : string;
  job_StartedAt : Time;
  job_Unit : string;
}.
Definition job_ID (j : Job) : string := js_ID (job_Spec j).

(** Which method of its kind's runner a goroutine runs. *)
Inductive launched : Type := LaunchStart | LaunchResume | LaunchAwait.

(** How the child of a command run without systemd came to its end. *)
Inductive child_end : Type := ChildDone | ChildCancelled | ChildTimedOut.

(** A package transaction that could not be started: refused, or failed. *)
Inductive tx_error : Type :=
| TxRefused (code message : string)
| TxFailed (text : string).
(** How a package transaction stands. *)
Record tx_status : Type := mkTxStatus { ts_running : bool; ts_result : string; ts_exitCode : Z; ts_logPath : string }.

Inductive jcall : Type :=
| StartLock                                   (* h.startMu.Lock() *)
| StartUnlock
| DbGet (id : string)                         (* SELECT ... WHERE id = ? *)
| DbActive                                    (* ... WHERE status IN (running, rebooting) ORDER BY started_at LIMIT 1 *)
| DbInsert (r : record)
| DbFinish (id : string) (r : Result) (now : Time)
| DbSetUnit (id unit_ : string)
| DbSetRebooting (id unit_ boot : string)
| DbWithStatus (status : string)
| DbOld (before : Time) (keep : nat)          (* the ids sweep drops *)
| DbDelete (id : string)
| JNow
| BootID
| Platform
| SystemdActive
| CmdExists (name : string)
| Cmd (timeout : Duration) (argv : list string)
| FileExists (path : string)
| ReadFile (path : string)
| ReadTail (path : string) (n : Z)            (* its last [n] bytes *)
| CreateLog (path : string)
| RemoveFile (path : string)
| WriteFile (path body : string) (perm : Z)
| Chmod (path : string) (perm : Z)
| AppendFile (path text : string)
| OpenAppend (path : string)
| StartChild (argv : list string)
| WaitChild (timeout : Duration)              (* the child's end, a forced cancel or the timeout *)
| KillChild
| TakeCancel (id : string)                    (* h.cancels[id], taken out and called *)
| CallCancel (id : string)                    (* h.cancels[id], called *)
| JobCtxErr                                   (* ctx.Err() != nil *)
| SelectCancel (d : Duration)                 (* ctx.Done() or, after d, the timer *)
| JSleep (d : Duration)
| Fs (c : fcall)                              (* the host's files *)
| HasCompose                                  (* h.Compose != nil *)
| Cm (c : ccall)                              (* what the compose manager calls *)
| PkgStart (kind : string) (names : option (list string))    (* StartJobTransaction, with no refresh *)
| PkgStatus (id : string)                     (* JobTransaction *)
| PkgChanged (path : string)                  (* ChangedPackages *)
| ReadFrom (path : string) (offset : Z)       (* what is in a file from an offset on *)
| CopyTo (path data : string)                 (* appended to a file that was opened *)
| Launch (l : launched) (j : Job).            (* a goroutine under a new context, kept in h.cancels *)

(** An error is its text. *)
Definition janswer (c : jcall) : Type :=
  match c with
  | StartLock | StartUnlock | JSleep _ | Launch _ _ | TakeCancel _ | CallCancel _ | KillChild => unit
  | DbGet _ | DbActive => result string (option record)
  | DbInsert _ | DbFinish _ _ _ | DbSetUnit _ _ | DbDelete _ => option string
  | DbSetRebooting _ _ _ => result string bool          (* whether a row was changed *)
  | DbWithStatus _ => result string (list record)
  | DbOld _ _ => result string (list string)
  | JNow => Time
  | BootID => string
  | Platform => Info
  | SystemdActive | CmdExists _ | FileExists _ | OpenAppend _ => bool
  | Cmd _ _ => string * option string                   (* its output, and its error *)
  | ReadFile _ => result string (option string)         (* [None]: no such file *)
  | ReadTail _ _ => option string
  | CreateLog _ | WriteFile _ _ _ | Chmod _ _ | StartChild _ => option string
  | RemoveFile _ => option string                       (* no such file is no error *)
  | AppendFile _ _ => unit
  | WaitChild _ => child_end
  | JobCtxErr | SelectCancel _ => bool                  (* cancelled *)
  | Fs c => fanswer c
  | HasCompose => bool
  | Cm c => canswer c
  | PkgStart _ _ => result tx_error string              (* the transaction's id *)
  | PkgStatus _ => result string tx_status
  | PkgChanged _ => option Z
  | ReadFrom _ _ => option string
  | CopyTo _ _ => Z                                     (* how many bytes *)
  end.

Notation jprog := (Interact.prog janswer).
Notation jaction := (Interact.action janswer).
Notation jmonitor := (Interact.monitor janswer).
Notation jdo := (@Interact.do_call jcall janswer).
Notation jact := (@Interact.act jcall janswer).

Definition active (status : string) : bool := (status ==s JobRunning) || (status ==s JobRebooting).

(** ** The table *)

Definition table : Type := list record.

Definition find_job (id : string) (t : table) : option record := List.find (fun r => jr_ID r ==s id) t.

(** The first of the least [started_at]. *)
Fixpoint earliest (l : list record) : option record :=
  match l with
  | [] => None
  | r :: l =>
      match earliest l with
      | Some r' => Some (if jr_startedAt r' <? jr_startedAt r then r' else r)
      | None => Some r
      end
  end.
Definition sql_active (t : table) : option record := earliest (List.filter (fun r => active (jr_status r)) t).

(** An [UPDATE] of the rows [P] holds of. *)
Definition update_where (P : record -> bool) (f : record -> record) (t : table) : table :=
  map (fun r => if P r then f r else r) t.

Definition end_record (res : Result) (now : Time) (r : record) : record :=
  mkRecord (jr_spec r) (rt_Status res) (rt_Changed res) (rt_ExitCode res) (rt_Summary res) (jr_unit r) (jr_bootID r)
    (jr_username r) (jr_startedAt r) now.
Definition sql_finish (id : string) (res : Result) (now : Time) (t : table) : table :=
  update_where (fun r => (jr_ID r ==s id) && active (jr_status r)) (end_record res now) t.

Definition with_unit (unit_ : string) (r : record) : record :=
  mkRecord (jr_spec r) (jr_status r) (jr_changed r) (jr_exitCode r) (jr_summary r) unit_ (jr_bootID r) (jr_username r)
    (jr_startedAt r) (jr_endedAt r).
Definition sql_set_unit (id unit_ : string) (t : table) : table :=
  update_where (fun r => jr_ID r ==s id) (with_unit unit_) t.

Definition to_reboot (unit_ boot : string) (r : record) : record :=
  mkRecord (jr_spec r) JobRebooting (jr_changed r) (jr_exitCode r) (jr_summary r) unit_ boot (jr_username r)
    (jr_startedAt r) (jr_endedAt r).
Definition still_running (id : string) (r : record) : bool := (jr_ID r ==s id) && (jr_status r ==s JobRunning).
Definition sql_set_rebooting (id unit_ boot : string) (t : table) : table :=
  update_where (still_running id) (to_reboot unit_ boot) t.

(** The [keep] newest rows: by start, then by row. *)
Fixpoint insert_newest (ir : nat * record) (l : list (nat * record)) : list (nat * record) :=
  match l with
  | [] => [ir]
  | ir' :: l =>
      if (jr_startedAt ir'.2 <? jr_startedAt ir.2)
         || ((jr_startedAt ir'.2 =? jr_startedAt ir.2) && (ir'.1 <? ir.1)%nat)
      then ir :: ir' :: l
      else ir' :: insert_newest ir l
  end.
Definition newest (keep : nat) (t : table) : list string :=
  map (fun ir => jr_ID ir.2) (take keep (fold_right insert_newest [] (imap pair t))).
Definition sql_old (before : Time) (keep : nat) (t : table) : list string :=
  map jr_ID (List.filter (fun r =>
    negb (active (jr_status r)) &&
    ((jr_startedAt r <? before) || negb (slices_contains (newest keep t) (jr_ID r)))) t).

Definition sql_delete (id : string) (t : table) : table := List.filter (fun r => negb (jr_ID r ==s id)) t.

(** What a call does to the table, with the answer it is given.  A statement
    that fails changes nothing. *)
Definition table_step (t : table) (c : jcall) : janswer c -> table -> Prop :=
  match c return janswer c -> table -> Prop with
  | DbGet id => fun x t' => t' = t /\ (forall o, x = Ok o -> o = find_job id t)
  | DbActive => fun x t' => t' = t /\ (forall o, x = Ok o -> o = sql_active t)
  | DbInsert r => fun x t' =>
      match x with None => find_job (jr_ID r) t = None /\ t' = t ++ [r] | Some _ => t' = t end
  | DbFinish id res now => fun x t' => t' = match x with None => sql_finish id res now t | Some _ => t end
  | DbSetUnit id unit_ => fun x t' => t' = match x with None => sql_set_unit id unit_ t | Some _ => t end
  | DbSetRebooting id unit_ boot => fun x t' =>
      match x with
      | Ok changed => changed = existsb (still_running id) t /\ t' = sql_set_rebooting id unit_ boot t
      | Err _ => t' = t
      end
  | DbWithStatus status => fun x t' =>
      t' = t /\ (forall rs, x = Ok rs -> rs = List.filter (fun r => jr_status r ==s status) t)
  | DbOld before keep => fun x t' => t' = t /\ (forall ids, x = Ok ids -> ids = sql_old before keep t)
  | DbDelete id => fun x t' => t' = match x with None => sql_delete id t | Some _ => t end
  | _ => fun _ t' => t' = t
  end.
