(* ===== verification/JobOutput.v ===== *)
(** * A job's output, read in pieces (internal/feature/taskjob/store.go)

    [readOutput] hands out a log from an offset on, cut where redacting the
    pieces apart redacts the whole; [exitFromLog] reads how a command ended
    off its last line.  The redaction of one piece is a parameter. *)

From S2P Require Import Prelude GoStrings.

Definition outputPiece : Z := 256 * 1024.
Definition cutContext : Z := 4 * 1024.
Definition cutTries : nat := 64.
Definition exitMarker : string := "[sfpanel-task] exit=".

Definition slen (s : string) : Z := Z.of_nat (String.length s).
(** [s[a:b]]. *)
Definition slice (s : string) (a b : Z) : string := stake (Z.to_nat (b - a)) (sdrop (Z.to_nat a) s).

Section Output.
Variable SanitizeLogPiece : string -> string.

Definition safeCut (buf : string) (c : nat) (atEOF final : bool) : bool :=
  let c := Z.of_nat c in
  let before := slice buf (Z.max 0 (c - cutContext)) c in
  let after := slice buf c (Z.min (slen buf) (c + cutContext)) in
  if atEOF && negb final && (c + slen after =? slen buf) && (trimSpace after ==s "") then false
  else SanitizeLogPiece (before +:+ after) ==s (SanitizeLogPiece before +:+ SanitizeLogPiece after).

(** The last line break before [i] whose cut is safe, within [tries]; else
    the last line break. *)
Fixpoint line_cut (tries : nat) (buf : string) (i : nat) (atEOF final : bool) (last : option nat) : nat + option nat :=
  match tries with
  | O => inr last
  | S tries =>
      match lastIndexByte (stake i buf) newline with
      | None => inr last
      | Some j =>
          let last := match last with None => Some (S j) | Some _ => last end in
          if safeCut buf (S j) atEOF final then inl (S j) else line_cut tries buf j atEOF final last
      end
  end.

(** The last character from [c] down whose cut is safe, within [tries]. *)
Fixpoint char_cut (c : nat) (tries : nat) (buf : string) (atEOF final : bool) : option nat :=
  match c, tries with
  | O, _ | _, O => None
  | S c', S tries' =>
      if match String.get c buf with Some b => runeStart b | None => false end then
        if safeCut buf c atEOF final then Some c else char_cut c' tries' buf atEOF final
      else char_cut c' tries buf atEOF final
  end.

Definition cutPiece (buf : string) (atEOF final : bool) : nat :=
  if atEOF && final && (slen buf <=? outputPiece) then String.length buf
  else
    let full := outputPiece <=? slen buf in
    let limit := Z.to_nat (Z.min (slen buf) outputPiece) in
    match line_cut cutTries buf limit atEOF final None with
    | inl c => c
    | inr last =>
        if negb full then 0%nat
        else
          match last with
          | Some last => last
          | None =>
              let c := Z.to_nat (Z.min (Z.of_nat limit) (slen buf - 1)) in
              match char_cut c cutTries buf atEOF final with
              | Some c => c
              | None => cut_back buf c
              end
          end
    end.

(** A log's content, [None] when there is no such file: the piece, the offset
    to read from next and whether it is the end. *)
Definition readOutput (data : option string) (skip : Z) (final : bool) : string * Z * bool :=
  match data with
  | None => ("", skip, true)
  | Some data =>
      let size := slen data in
      let skip := Z.min skip size in
      let buf := slice data skip (skip + Z.min (size - skip) (outputPiece + cutContext)) in
      let end_ := cutPiece buf (skip + slen buf =? size) final in
      let next := skip + Z.of_nat end_ in
      (SanitizeLogPiece (stake end_ buf), next, next =? size)
  end.
End Output.

Definition logTail : Z := 4096.
Definition trimmedTail : string := bytes_of [13; 10; 9; 32]%nat.

(** The exit status on the log's last line, from the log's last [logTail]
    bytes ([None]: they could not be read). *)
Definition exitFromLog (tail : option string) : option Z :=
  match tail with
  | None => None
  | Some data =>
      let text := trimRightAny data trimmedTail in
      let last := sdrop (match lastIndexByte text newline with Some i => S i | None => 0%nat end) text in
      match cutPrefix (trimSpace last) exitMarker with
      | None => None
      | Some rest => atoi rest
      end
  end.

(** *** The last line of a log *)

Definition is_blank (c : ascii) : Prop := c ∈ list_ascii_of_string trimmedTail.
(** [line] is what follows the last line break of [data], line breaks and
    blanks at the end left out. *)
Definition last_line (data line : string) : Prop :=
  exists before blanks,
    data = before +:+ line +:+ blanks /\ Forall is_blank (list_ascii_of_string blanks) /\
    (forall t c, before +:+ line = t +:+ String c "" -> ~ is_blank c) /\
    (before = "" \/ exists b, before = b +:+ String newline "") /\ indexByte line newline = None.

Lemma trimLeftAny_spec s cut :
  exists pre, s = pre +:+ trimLeftAny s cut /\ Forall (fun c => c ∈ list_ascii_of_string cut) (list_ascii_of_string pre) /\
    forall c t, trimLeftAny s cut = String c t -> c ∉ list_ascii_of_string cut.
Proof.
  assert (Hin : forall c, existsb (Ascii.eqb c) (list_ascii_of_string cut) = true <-> c ∈ list_ascii_of_string cut).
  { intros c. rewrite existsb_exists, list_elem_of_In. split; [by intros (d & Hd & ->%Ascii.eqb_eq)|].
    intros Hd. exists c. by rewrite Ascii.eqb_refl. }
  induction s as [|d s (pre & E & Hp & Hh)]; [by exists ""|]. simpl. destruct (existsb _ _) eqn:Ed.
  - exists (String d pre). simpl. rewrite <-E. split_and!; [done|constructor; [by apply Hin|done]|done].
  - exists "". split_and!; [done|constructor|]. intros c t [= <- _] Hc%Hin. congruence.
Qed.
Lemma trimRightAny_spec s cut :
  exists post, s = trimRightAny s cut +:+ post /\ Forall (fun c => c ∈ list_ascii_of_string cut) (list_ascii_of_string post) /\
    forall t c, trimRightAny s cut = t +:+ String c "" -> c ∉ list_ascii_of_string cut.
Proof.
  unfold trimRightAny. destruct (trimLeftAny_spec (srev s) cut) as (pre & E & Hp & Hh).
  exists (srev pre). split_and!.
  - rewrite <-(srev_involutive s), E at 1. by rewrite srev_app.
  - clear E. induction pre as [|c pre IH]; [done|]. inversion Hp; subst. rewrite srev_cons, list_ascii_app.
    apply Forall_app. split; [by apply IH|]. by repeat constructor.
  - intros t c E'. apply (Hh c (srev t)). rewrite <-(srev_involutive (trimLeftAny _ _)), E', srev_app. done.
Qed.

Lemma lastIndexByte_split s c :
  match lastIndexByte s c with
  | Some i => exists b, stake (S i) s = b +:+ String c ""
  | None => True
  end /\ indexByte (sdrop (match lastIndexByte s c with Some i => S i | None => 0%nat end) s) c = None.
Proof.
  induction s as [|d s [IH1 IH2]]; [done|]. simpl lastIndexByte. destruct (lastIndexByte s c) as [i|].
  - split; [|exact IH2]. destruct IH1 as [b E]. exists (String d b). simpl in E |- *. by rewrite E.
  - destruct (Ascii.eqb d c) eqn:Ed.
    + apply Ascii.eqb_eq in Ed as ->. split; [by exists ""|exact IH2].
    + split; [done|]. cbn [sdrop]. rewrite indexByte_cons, Ed. cbn [sdrop] in IH2. by rewrite IH2.
Qed.

Lemma last_line_found data :
  let text := trimRightAny data trimmedTail in
  last_line data (sdrop (match lastIndexByte text newline with Some i => S i | None => 0%nat end) text).
Proof.
  intros text. destruct (trimRightAny_spec data trimmedTail) as (blanks & E & Hb & Hend). fold text in E, Hend.
  destruct (lastIndexByte_split text newline) as [Hs Hn]. set (i := match lastIndexByte text newline with Some i => S i | None => 0%nat end) in *.
  exists (stake i text), blanks. assert (Et : stake i text +:+ sdrop i text = text) by apply stake_sdrop.
  split_and!; [by rewrite <-sapp_assoc, Et|done|by rewrite Et| |done].
  unfold i. destruct (lastIndexByte text newline); [by right|by left; destruct text].
Qed.

(** ** A job's output read to its end (internal/feature/taskjob/store.go)

    Each read hands out the next piece of the log, redacted: the pieces are
    the log cut where it may be, every read of a finished log moves on unless
    a quarter of a megabyte of it holds no character's first byte, and so
    reading on ends. *)

Section Output.
Variable SanitizeLogPiece : string -> string.
#[local] Notation cutPiece := (cutPiece SanitizeLogPiece).
#[local] Notation readOutput := (readOutput SanitizeLogPiece).

Lemma slen_length s : slen s = Z.of_nat (String.length s).
Proof. done. Qed.

Lemma line_cut_spec tries buf i atEOF final last n :
  (i <= n)%nat ->
  let ok c := (0 < c <= n)%nat /\ String.get (c - 1) buf = Some newline in
  (forall l, last = Some l -> ok l) ->
  match line_cut SanitizeLogPiece tries buf i atEOF final last with
  | inl c => ok c
  | inr (Some l) => ok l
  | inr None => tries = 0%nat \/ forall j, (j < i)%nat -> String.get j buf <> Some newline
  end.
Proof.
  intros Hi ok. subst ok. revert i last Hi. induction tries as [|tries IH]; intros i last Hi Hl; simpl.
  { destruct last; [by apply Hl|by left]. }
  pose proof (lastIndexByte_spec (stake i buf) newline) as Hj.
  destruct (lastIndexByte (stake i buf) newline) as [j|].
  - pose proof (sget_lt _ _ _ Hj) as Hlt. rewrite stake_length in Hlt. rewrite sget_stake in Hj by lia.
    assert (Hok : (0 < S j <= n)%nat /\ String.get (S j - 1) buf = Some newline)
      by (split; [lia|by rewrite Nat.sub_1_r]).
    destruct (safeCut _ _ _ _ _); [done|].
    assert (Hgo : forall l, match last with None => Some (S j) | Some _ => last end = Some l ->
      (0 < l <= n)%nat /\ String.get (l - 1) buf = Some newline).
    { intros l. destruct last; [apply Hl|by intros [= <-]]. }
    specialize (IH j (match last with None => Some (S j) | Some _ => last end)). 
    destruct (line_cut _ tries buf j _ _ _) as [c|[l|]] eqn:E; try (apply IH; [lia|done]).
    exfalso. assert (Hne : forall m i last, is_Some last -> line_cut SanitizeLogPiece m buf i atEOF final last <> inr None).
    { clear. induction m as [|m IH]; intros i last [l ->]; simpl; [done|].
      destruct (lastIndexByte _ _); [|done]. destruct (safeCut _ _ _ _ _); [done|]. by apply IH. }
    apply Hne in E; [done|]. destruct last; eauto.
  - destruct last as [l|]; [by apply Hl|]. right. intros k Hk E. apply (Hj k). by rewrite sget_stake.
Qed.

Lemma char_cut_spec c tries buf atEOF final c' :
  char_cut SanitizeLogPiece c tries buf atEOF final = Some c' -> (0 < c' <= c)%nat /\
    exists b, String.get c' buf = Some b /\ runeStart b = true.
Proof.
  revert tries. induction c as [|c IH]; intros tries H; cbn [char_cut] in H; [done|].
  destruct tries as [|tries]; [done|].
  destruct (String.get (S c) buf) as [b|] eqn:Eg; [destruct (runeStart b) eqn:Er|].
  - destruct (safeCut _ _ _ _ _); [simplify_eq; split; [lia|eauto]|]. apply IH in H as [? ?]. by split; [lia|].
  - apply IH in H as [? ?]. by split; [lia|].
  - apply IH in H as [? ?]. by split; [lia|].
Qed.

(** A place the piece of [buf] may end at, past its first byte: after a line
    break, or before a character. *)
Definition may_end (buf : string) (c : nat) : Prop :=
  (0 < c)%nat /\ ((exists b, String.get c buf = Some b /\ runeStart b = true) \/ String.get (c - 1) buf = Some newline).

Definition pieceMax : nat := Z.to_nat outputPiece.

Lemma outputPiece_pos : 0 < outputPiece.
Proof. done. Qed.
#[local] Opaque outputPiece.

(** Where the piece of a finished log ends, when it is not the rest of it. *)
Lemma cutPiece_spec buf atEOF :
  outputPiece < slen buf ->
  let c := cutPiece buf atEOF true in
  (c <= pieceMax)%nat /\
  (may_end buf c \/ c = 0%nat /\ forall j, (0 < j <= pieceMax)%nat -> ~ may_end buf j).
Proof.
  intros Hl c. subst c. unfold cutPiece, slen in *. pose proof outputPiece_pos as Hp. unfold pieceMax.
  replace (Z.of_nat (String.length buf) <=? outputPiece) with false by (symmetry; apply Z.leb_gt; lia).
  replace (outputPiece <=? Z.of_nat (String.length buf)) with true by (symmetry; apply Z.leb_le; lia).
  rewrite andb_false_r, Z.min_r by lia. simpl negb. cbv iota.
  pose proof (line_cut_spec cutTries buf (Z.to_nat outputPiece) atEOF true None (Z.to_nat outputPiece) ltac:(lia) ltac:(done)) as Hline.
  destruct (line_cut _ _ _ _ _ _ _) as [c|[l|]].
  - destruct Hline as [? ?]. split; [lia|]. left. split; [lia|by right].
  - destruct Hline as [? ?]. split; [lia|]. left. split; [lia|by right].
  - destruct Hline as [?|Hnl]; [done|].
    replace (Z.to_nat _) with (Z.to_nat outputPiece) by lia.
    destruct (char_cut _ _ _ _ _ _) as [c|] eqn:Ec.
    + apply char_cut_spec in Ec as [? ?]. split; [lia|]. left. split; [lia|by left].
    + destruct (cut_back_spec buf (Z.to_nat outputPiece) ltac:(lia)) as (H1 & H2 & H3). split; [lia|].
      destruct (decide (cut_back buf (Z.to_nat outputPiece) = 0%nat)) as [E|E].
      * right. split; [done|]. intros j Hj [_ [(b & Hb & Hr)|Hb]].
        -- rewrite (H3 j b) in Hr; [done|lia|done].
        -- apply (Hnl (j - 1)%nat); [lia|done].
      * left. destruct H2 as [?|H2]; [done|]. split; [lia|by left].
Qed.

(** ** Reading a finished log on and on *)

(** The rest of the log from [skip] on, and the next piece of it. *)
Definition rest (data : string) (skip : Z) : string := sdrop (Z.to_nat skip) data.

Lemma readOutput_last data skip :
  0 <= skip <= slen data -> slen data - skip <= outputPiece ->
  readOutput (Some data) skip true = (SanitizeLogPiece (rest data skip), slen data, true).
Proof.
  unfold readOutput, rest. intros Hs Hl. rewrite Z.min_l by lia.
  assert (Hb : slice data skip (skip + Z.min (slen data - skip) (outputPiece + cutContext)) = sdrop (Z.to_nat skip) data).
  { unfold slice. apply stake_all. rewrite sdrop_length. unfold slen, cutContext in *. lia. }
  rewrite Hb. assert (Hlen : slen (sdrop (Z.to_nat skip) data) = slen data - skip)
    by (unfold slen in *; rewrite sdrop_length; lia).
  rewrite Hlen. replace (skip + (slen data - skip) =? slen data) with true by (symmetry; apply Z.eqb_eq; lia).
  unfold cutPiece. rewrite Hlen. replace (slen data - skip <=? outputPiece) with true by (symmetry; apply Z.leb_le; lia).
  simpl. rewrite stake_all by lia. fold (slen (sdrop (Z.to_nat skip) data)). rewrite Hlen.
  replace (skip + (slen data - skip)) with (slen data) by lia. by rewrite Z.eqb_refl.
Qed.

Lemma may_end_rest m data j : (j < m)%nat -> may_end (stake m data) j <-> may_end data j.
Proof.
  intros Hj. unfold may_end. rewrite (sget_stake j), (sget_stake (j - 1)) by lia. done.
Qed.

(** The next piece of a log that has more than a piece left: at most a piece,
    up to a place it may end at, and nothing only if there is none. *)
Lemma readOutput_next data skip :
  0 <= skip -> outputPiece < slen data - skip ->
  exists n, readOutput (Some data) skip true = (SanitizeLogPiece (stake n (rest data skip)), skip + Z.of_nat n, false) /\
    (n <= pieceMax)%nat /\
    (may_end (rest data skip) n \/ n = 0%nat /\ forall j, (0 < j <= pieceMax)%nat -> ~ may_end (rest data skip) j).
Proof.
  intros Hs Hl. unfold readOutput. pose proof outputPiece_pos as Hp. rewrite Z.min_l by lia.
  set (m := Z.to_nat (Z.min (slen data - skip) (outputPiece + cutContext))).
  assert (Hb : slice data skip (skip + Z.min (slen data - skip) (outputPiece + cutContext)) = stake m (rest data skip)).
  { unfold slice, rest, m. f_equal. lia. }
  assert (Hm : (pieceMax < m)%nat) by (unfold pieceMax, m, cutContext; lia).
  rewrite Hb. set (buf := stake m (rest data skip)).
  assert (Hlen : outputPiece < slen buf).
  { unfold buf, rest, slen in *. rewrite stake_length, sdrop_length. unfold pieceMax in Hm. lia. }
  pose proof (cutPiece_spec buf (skip + slen buf =? slen data) Hlen) as [Hc He].
  set (c := cutPiece buf (skip + slen buf =? slen data) true) in *. exists c. split_and!; [|done|].
  - unfold buf. rewrite stake_stake by lia. replace (skip + Z.of_nat c =? slen data) with false; [done|].
    symmetry. apply Z.eqb_neq. unfold pieceMax in Hc. lia.
  - unfold buf in He. destruct He as [He|[-> He]]; [left|right; split; [done|]].
    + by rewrite <-(may_end_rest m) by lia.
    + intros j Hj. rewrite <-(may_end_rest m) by lia. auto.
Qed.

(** One read of a finished log: how far it gets, and when it gets nowhere. *)
Lemma readOutput_progress data skip out next atEnd :
  0 <= skip < slen data -> readOutput (Some data) skip true = (out, next, atEnd) ->
  skip <= next <= Z.min (slen data) (skip + outputPiece) /\
  out = SanitizeLogPiece (stake (Z.to_nat (next - skip)) (rest data skip)) /\
  (atEnd = true <-> next = slen data) /\
  (next = skip <-> outputPiece < slen data - skip /\
     forall j, (0 < j <= pieceMax)%nat -> ~ may_end (rest data skip) j).
Proof.
  intros Hs Hr. pose proof outputPiece_pos. destruct (decide (slen data - skip <= outputPiece)) as [Hl|Hl].
  - rewrite readOutput_last in Hr by lia. simplify_eq. split_and!; [lia|lia| |done|naive_solver lia].
    rewrite stake_all; [done|]. unfold rest, slen. rewrite sdrop_length. lia.
  - destruct (readOutput_next data skip) as (n & E & Hn & He); [lia..|]. rewrite E in Hr. simplify_eq.
    unfold pieceMax in Hn. split_and!; [lia|lia| | |].
    + do 2 f_equal. lia.
    + split; [done|lia].
    + split; [|intros [_ Hno]].
      * intros E'. split; [lia|]. destruct He as [[? _]|[_ ?]]; [lia|done].
      * destruct He as [He|[-> _]]; [|lia]. exfalso. apply (Hno n); [|done]. destruct He. unfold pieceMax. lia.
Qed.

(** The pieces a reader gets that reads on from the offset it was told, until
    told it is at the end. *)
Fixpoint read_log (fuel : nat) (data : string) (skip : Z) : option (list string) :=
  match fuel with
  | O => None
  | S fuel =>
      let '(out, next, atEnd) := readOutput (Some data) skip true in
      if atEnd then Some [out] else cons out <$> read_log fuel data next
  end.

(** No quarter of a megabyte without a place to end a piece at: so in every
    text, whose characters have a first byte each. *)
Definition has_ends (data : string) : Prop :=
  forall skip, 0 <= skip -> outputPiece < slen data - skip ->
    exists j, (0 < j <= pieceMax)%nat /\ may_end (rest data skip) j.

Lemma rest_rest data skip n : 0 <= skip -> rest data (skip + Z.of_nat n) = sdrop n (rest data skip).
Proof. intros H. unfold rest. rewrite sdrop_sdrop. f_equal. lia. Qed.

Lemma read_log_from fuel data skip :
  has_ends data -> 0 <= skip <= slen data -> slen data - skip < Z.of_nat fuel ->
  exists raws, read_log fuel data skip = Some (map SanitizeLogPiece raws) /\ foldr String.append "" raws = rest data skip /\
    Forall (fun raw => slen raw <= outputPiece) raws.
Proof.
  intros He. revert skip. induction fuel as [|fuel IH]; intros skip Hs Hf; [lia|]. cbn [read_log].
  pose proof outputPiece_pos. destruct (decide (slen data - skip <= outputPiece)) as [Hl|Hl].
  - rewrite readOutput_last by lia. exists [rest data skip]. simpl. split_and!; [done|apply sapp_nil_r|].
    repeat constructor. unfold rest, slen in *. rewrite sdrop_length. lia.
  - destruct (readOutput_next data skip) as (n & -> & Hn & Hn'); [lia..|].
    assert (Hpos : (0 < n)%nat).
    { destruct Hn' as [[? _]|[-> Hno]]; [done|]. destruct (He skip) as (j & Hj & Hend); [lia..|]. by apply Hno in Hend. }
    unfold pieceMax in Hn. destruct (IH (skip + Z.of_nat n)) as (raws & -> & Hc & Hall); [lia..|].
    exists (stake n (rest data skip) :: raws). simpl. split_and!; [done| |].
    + rewrite Hc, rest_rest by lia. apply stake_sdrop.
    + constructor; [|done]. unfold slen. rewrite stake_length. lia.
Qed.

(** A reader of a finished log who reads on from the offset it was told
    comes to the end, and has then read every byte once and in order, in
    pieces of a quarter of a megabyte at most, each redacted by itself; if
    only no such stretch of the log is without a line break and the first
    byte of a character. *)
Theorem read_log_whole data :
  has_ends data ->
  exists raws, read_log (S (String.length data)) data 0 = Some (map SanitizeLogPiece raws) /\
    foldr String.append "" raws = data /\ Forall (fun raw => slen raw <= outputPiece) raws.
Proof.
  intros He. destruct (read_log_from (S (String.length data)) data 0 He) as (raws & ? & Hc & ?); unfold slen; [lia..|].
  exists raws. split_and!; [done| |done]. rewrite Hc. apply sdrop_0.
Qed.

(** And a log with none is never read past it: the offset to read from next
    is the one just read from. *)
Lemma readOutput_stuck data skip :
  0 <= skip -> outputPiece < slen data - skip ->
  (forall i b, String.get i data = Some b -> runeStart b = false) ->
  exists piece, readOutput (Some data) skip true = (piece, skip, false).
Proof.
  intros Hs Hl Hno. destruct (readOutput_next data skip) as (n & -> & Hn & [[Hp He]|[-> _]]); [lia..| |].
  - exfalso. unfold rest in He. rewrite !sget_sdrop in He.
    destruct He as [(b & Hb%Hno & Hr)|Hb%Hno]; [congruence|done].
  - eexists. by rewrite Z.add_0_r.
Qed.
End Output.
