(* ===== verification/JobNode.v ===== *)
(** * The jobs of a node (internal/feature/taskjob/handler.go, store.go)

    A node's half of a group task: the handlers of /task-jobs, the end of a
    job, the sweep of old ones, and what is done at boot with the jobs the
    last process left.  A kind's [Runner] is a record of its methods, those
    of its optional interfaces too. *)

From S2P Require Import Prelude GoStrings GoRegexp GoTime ApiCodes HostGuard TaskModel Interact.
From S2P Require Import JobProg JobOutput.

#[local] Open Scope prog_scope.

Definition keepJobs : nat := 200.
Definition keepFor : Duration := 30 * 24 * Hour.
Definition systemctlTimeout : Duration := 10 * Second.

Definition idPattern : re :=
  RCat (rRep 8 (RClass is_digit)) (RCat (rChar "-") (RCat (rRep 6 (RClass is_digit)) (RCat (rChar "-")
    (RCat (rRep 6 (RClass (fun c => is_digit c || byte_in c "a" "f")))
      (RCat (rChar "-") (rBetween 1 2 (RClass is_digit))))))).

(** ** Runners *)

(** A step turned away before a job is recorded. *)
Record RunnerRefusal : Type := mkRunnerRefusal { rr_Status : Z; rr_Code : string; rr_Message : string }.

Record Runner : Type := mkRunner {
  rn_Start : Job -> jprog (option string);
  rn_Check : JobSpec -> jprog CheckVerdict;
  rn_Refuse : option (JobSpec -> jprog (option RunnerRefusal));   (* a Refuser *)
  rn_Resume : option (Job -> jprog (option string));              (* a Resumer *)
  rn_await : option (Job -> jprog unit);                          (* a *RebootRunner *)
}.

(** What a handler answers. *)
Inductive job_answer : Type :=
| AnswerJob (status : Z) (v : JobView)
| AnswerChecks (vs : list CheckVerdict)
| AnswerFail (status : Z) (code : string) (msg : message) (details : list (string * string)).

Section Node.
Variable LogDir : string.
Variable message_text : message -> string.
(** The redactions of internal/api/response/sanitize.go. *)
Variable SanitizeOutput : string -> string.
Variable SanitizeLogPiece : string -> string.
Variable runners : string -> option Runner.

Definition logPath (id : string) : string := path_Clean (LogDir +:+ "/" +:+ id +:+ ".log").
Definition scriptPath (log : string) : string := trimSuffix log ".log" +:+ ".sh".

(** ** The end of a job *)

Definition ends_job (status : string) : bool :=
  slices_contains [JobSucceeded; JobFailed; JobInterrupted; JobCancelled] status.

Definition finish (id : string) (r : Result) : jprog (option message) :=
  if negb (ends_job (rt_Status r)) then Ret (Some (Sprintf "a job does not end %q" [FStr (rt_Status r)]))
  else
    jdo (TakeCancel id) ;;;
    now <-- jdo JNow ;;
    err <-- jdo (DbFinish id r now) ;;
    Ret ((fun text => Sprintf "%s" [FStr text]) <$> err).

(** A runner's method, as the goroutine of a launch runs it. *)
Definition run_method (fn : Job -> jprog (option string)) (j : Job) : jprog unit :=
  err <-- fn j ;;
  match err with
  | None => Ret tt
  | Some text => finish (job_ID j) (mkResult JobFailed false None (SanitizeOutput text)) ;;; Ret tt
  end.

Definition launched_body (l : launched) (j : Job) : jprog unit :=
  match l with
  | LaunchStart => match runners (js_Kind (job_Spec j)) with Some rn => run_method (rn_Start rn) j | None => Ret tt end
  | LaunchResume =>
      match runners (js_Kind (job_Spec j)) ≫= rn_Resume with Some f => run_method f j | None => Ret tt end
  | LaunchAwait => match runners StepReboot ≫= rn_await with Some f => f j | None => Ret tt end
  end.

(** ** The sweep *)

Fixpoint sweep_ids (ids : list string) : jprog (option string) :=
  match ids with
  | [] => Ret None
  | id :: ids =>
      err <-- jdo (RemoveFile (logPath id)) ;;
      match err with
      | Some _ => sweep_ids ids
      | None =>
          jdo (RemoveFile (scriptPath (logPath id))) ;;;
          err <-- jdo (DbDelete id) ;;
          match err with Some text => Ret (Some text) | None => sweep_ids ids end
      end
  end.
Definition sweep : jprog (option string) :=
  now <-- jdo JNow ;;
  ids <-- jdo (DbOld (now - keepFor) keepJobs) ;;
  match ids with Err text => Ret (Some text) | Ok ids => sweep_ids ids end.

(** ** A job as the API answers it *)

Definition record_view (r : record) (out : string) (next : Z) (done : bool) : JobView :=
  mkJobView (jr_ID r) (js_RunID (jr_spec r)) (js_Kind (jr_spec r)) (jr_status r) (jr_changed r) (jr_exitCode r)
    (jr_summary r) out next done (jr_startedAt r) (jr_endedAt r) None.

Definition view (r : record) (skip : Z) (withOutput : bool) : jprog JobView :=
  if negb withOutput then Ret (record_view r "" skip false)
  else
    let final := negb (active (jr_status r)) in
    data <-- jdo (ReadFile (logPath (jr_ID r))) ;;
    match data with
    | Err _ => Ret (record_view r "" skip false)
    | Ok data =>
        let '(out, next, atEnd) := readOutput SanitizeLogPiece data skip final in
        Ret (record_view r out next (final && atEnd))
    end.

(** ** Starting a job *)

Definition checkSettings (s : JobSpec) : option message :=
  let set := [(StepPackages, bool_decide (is_Some (js_Packages s))); (StepService, bool_decide (is_Some (js_Service s)));
              (StepCommand, bool_decide (is_Some (js_Command s))); (StepFile, bool_decide (is_Some (js_File s)));
              (StepStack, bool_decide (is_Some (js_Stack s))); (StepReboot, bool_decide (is_Some (js_Reboot s)))] in
  if negb (default false (table_get set (js_Kind s)))
  then Some (Sprintf "The job has no %s settings" [FStr (js_Kind s)])
  else
    match find (fun kv => kv.2 && negb (kv.1 ==s js_Kind s)) set with
    | Some (kind, _) => Some (Sprintf "A %s job carries %s settings" [FStr (js_Kind s); FStr kind])
    | None => None
    end.

Definition MaxSteps : Z := Z.of_nat TaskModel.MaxSteps.

Definition validate (s : JobSpec) : result message Runner :=
  if negb (matchString idPattern (js_ID s)) then Err (Sprintf "Invalid job ID" [])
  else if negb (js_ID s ==s js_RunID s +:+ "-" +:+ itoa (js_Step s))
  then Err (Sprintf "The job ID does not name its run and step" [])
  else if (js_Step s <? 0) || (MaxSteps <=? js_Step s) then Err (Sprintf "Invalid step" [])
  else if trimSpace (js_Task s) ==s "" then Err (Sprintf "The job names no task" [])
  else
    match runners (js_Kind s) with
    | None => Err (Sprintf "This node does not run %q steps" [FStr (js_Kind s)])
    | Some rn => match checkSettings s with Some msg => Err msg | None => Ok rn end
    end.

Definition refuseNotCluster : job_answer :=
  AnswerFail 403 ErrTaskJobClusterOnly (Sprintf "Task jobs are started by the cluster's task engine only" []) [].
Definition dbRefusal : job_answer := AnswerFail 500 ErrDBError (Sprintf "Could not read the node's jobs" []) [].

(** Under startMu; [inr]: the answer of a new job, its lock released. *)
Definition start_locked (spec : JobSpec) (rn : Runner) (username : string) : jprog (job_answer + record) :=
  let unlock a := jdo StartUnlock ;;; Ret (inl a) in
  rec <-- jdo (DbGet (js_ID spec)) ;;
  match rec with
  | Err _ => unlock dbRefusal
  | Ok (Some rec) => jdo StartUnlock ;;; v <-- view rec 0 false ;; Ret (inl (AnswerJob 200 v))
  | Ok None =>
      ref <-- (match rn_Refuse rn with Some refuse => refuse spec | None => Ret None end) ;;
      match ref with
      | Some ref => unlock (AnswerFail (rr_Status ref) (rr_Code ref) (Sprintf "%s" [FStr (rr_Message ref)]) [])
      | None =>
          holder <-- jdo DbActive ;;
          match holder with
          | Err _ => unlock dbRefusal
          | Ok (Some holder) =>
              unlock (AnswerFail 409 ErrTaskNodeBusy (Sprintf "This node is running another task job" [])
                [("job_id", jr_ID holder); ("run_id", js_RunID (jr_spec holder)); ("task", js_Task (jr_spec holder))])
          | Ok None =>
              boot <-- jdo BootID ;;
              now <-- jdo JNow ;;
              let rec := mkRecord spec JobRunning false None "" "" boot username now 0 in
              err <-- jdo (CreateLog (logPath (js_ID spec))) ;;
              match err with
              | Some _ => unlock (AnswerFail 500 ErrInternalError (Sprintf "Could not create the job's log" []) [])
              | None =>
                  err <-- jdo (DbInsert rec) ;;
                  match err with
                  | Some _ => unlock (AnswerFail 500 ErrDBError (Sprintf "Could not record the job" []) [])
                  | None =>
                      jdo (Launch LaunchStart (mkJob spec (logPath (js_ID spec)) now "")) ;;;
                      jdo StartUnlock ;;;
                      Ret (inr rec)
                  end
              end
          end
      end
  end.

(** [verified]: the signature the middleware checked; [spec]: the request's
    body, [None] when it does not decode. *)
Definition StartJob (verified : bool) (spec : option JobSpec) (username : string) : jprog job_answer :=
  if negb verified then Ret refuseNotCluster
  else
    match spec with
    | None => Ret (AnswerFail 400 ErrInvalidRequest (Sprintf "Invalid job" []) [])
    | Some spec =>
        match validate spec with
        | Err msg => Ret (AnswerFail 400 ErrInvalidRequest msg [])
        | Ok rn =>
            jdo StartLock ;;;
            x <-- start_locked spec rn username ;;
            match x with
            | inl a => Ret a
            | inr rec => sweep ;;; v <-- view rec 0 false ;; Ret (AnswerJob 201 v)
            end
        end
    end.

(** ** Asking after a job, cancelling it, checking steps *)

Definition lookup (id : string) : jprog (job_answer + record) :=
  if negb (matchString idPattern id) then Ret (inl (AnswerFail 400 ErrInvalidRequest (Sprintf "Invalid job ID" []) []))
  else
    rec <-- jdo (DbGet id) ;;
    Ret (match rec with
         | Err _ => inl dbRefusal
         | Ok None => inl (AnswerFail 404 ErrTaskJobNotFound (Sprintf "No such task job on this node" []) [])
         | Ok (Some rec) => inr rec
         end).

(** [skip]: the query parameter. *)
Definition GetJob (verified : bool) (id skip : string) : jprog job_answer :=
  if negb verified then Ret refuseNotCluster
  else
    x <-- lookup id ;;
    match x with
    | inl a => Ret a
    | inr rec =>
        match (if skip ==s "" then Some 0
               else match atoi skip with Some v => if v <? 0 then None else Some v | None => None end) with
        | None => Ret (AnswerFail 400 ErrInvalidRequest (Sprintf "Invalid skip" []) [])
        | Some skip => v <-- view rec skip true ;; Ret (AnswerJob 200 v)
        end
    end.

(** [force]: the request's body, [None] when it does not decode. *)
Definition CancelJob (verified : bool) (id : string) (force : option bool) : jprog job_answer :=
  if negb verified then Ret refuseNotCluster
  else
    match force with
    | None => Ret (AnswerFail 400 ErrInvalidRequest (Sprintf "Invalid request" []) [])
    | Some force =>
        x <-- lookup id ;;
        match x with
        | inl a => Ret a
        | inr rec =>
            if negb (active (jr_status rec)) then v <-- view rec 0 false ;; Ret (AnswerJob 200 v)
            else if negb force then
              Ret (AnswerFail 409 ErrTaskJobRunning (Sprintf "The job is running; it is stopped only when forced" []) [])
            else jdo (CallCancel (jr_ID rec)) ;;; v <-- view rec 0 false ;; Ret (AnswerJob 200 v)
        end
    end.

Fixpoint check_specs (specs : list JobSpec) : jprog (list CheckVerdict) :=
  match specs with
  | [] => Ret []
  | s :: specs =>
      v <-- (match runners (js_Kind s) with
             | None =>
                 Ret (mkCheckVerdict 0 true ErrInvalidRequest
                        (message_text (Sprintf "this node does not run %q steps" [FStr (js_Kind s)])) false)
             | Some rn =>
                 match checkSettings s with
                 | Some msg => Ret (mkCheckVerdict 0 true ErrInvalidRequest (message_text msg) false)
                 | None => rn_Check rn s
                 end
             end) ;;
      vs <-- check_specs specs ;;
      Ret (mkCheckVerdict (js_Step s) (cv_Refused v) (cv_Code v) (cv_Reason v) (cv_NeedsConfirm v) :: vs)
  end.
Definition CheckJobs (verified : bool) (specs : option (list JobSpec)) : jprog job_answer :=
  if negb verified then Ret refuseNotCluster
  else
    match specs with
    | None => Ret (AnswerFail 400 ErrInvalidRequest (Sprintf "Invalid steps" []) [])
    | Some specs =>
        if MaxSteps <? Z.of_nat (length specs) then Ret (AnswerFail 400 ErrInvalidRequest (Sprintf "Too many steps" []) [])
        else vs <-- check_specs specs ;; Ret (AnswerChecks vs)
    end.

(** ** At boot *)

Definition unitRunning (state : string) : bool :=
  slices_contains ["active"; "activating"; "deactivating"; "reloading"; "refreshing"] state.

(** A job ended as its log's last line says. *)
Definition exit_result (code : Z) : Result :=
  if code =? 0 then mkResult JobSucceeded false (Some code) "exit 0"
  else mkResult JobFailed false (Some code) ("exit " +:+ itoa code).
Definition interrupted (summary : string) : Result := mkResult JobInterrupted false None summary.

(** A job the last process left running. *)
Definition recover_running (r : record) : jprog unit :=
  let settle res := finish (jr_ID r) res ;;; Ret tt in
  match runners (js_Kind (jr_spec r)) ≫= rn_Resume, negb (jr_unit r ==s "") with
  | Some _, true =>
      jdo (Launch LaunchResume (mkJob (jr_spec r) (logPath (jr_ID r)) (jr_startedAt r) (jr_unit r)))
  | _, true =>
      out <-- jdo (Cmd systemctlTimeout ["systemctl"; "is-active"; jr_unit r]) ;;
      if unitRunning (trimSpace out.1) then Ret tt
      else
        tail <-- jdo (ReadTail (logPath (jr_ID r)) logTail) ;;
        match exitFromLog tail with
        | Some code => settle (exit_result code)
        | None => settle (interrupted "the job's unit ended without saying how")
        end
  | _, false => settle (interrupted "the panel stopped while the job ran")
  end.
Fixpoint recover_all (f : record -> jprog unit) (rs : list record) : jprog unit :=
  match rs with [] => Ret tt | r :: rs => f r ;;; recover_all f rs end.

Definition settleReboot (r : record) : jprog bool :=
  now <-- jdo BootID ;;
  if (jr_bootID r ==s "") || (now ==s "") || (now ==s jr_bootID r) then Ret false
  else finish (jr_ID r) (mkResult JobSucceeded true None "rebooted") ;;; Ret true.

Definition recover_reboot (r : record) : jprog unit :=
  settled <-- settleReboot r ;;
  if settled : bool then Ret tt
  else
    match runners StepReboot ≫= rn_await with
    | None => Ret tt
    | Some _ => jdo (Launch LaunchAwait (mkJob (jr_spec r) (logPath (jr_ID r)) (jr_startedAt r) (jr_unit r)))
    end.
Definition recoverRebooting : jprog unit :=
  rows <-- jdo (DbWithStatus JobRebooting) ;;
  match rows with Err _ => Ret tt | Ok rows => recover_all recover_reboot rows end.

Definition Recover : jprog unit :=
  rows <-- jdo (DbWithStatus JobRunning) ;;
  match rows with
  | Err _ => Ret tt
  | Ok rows =>
      recover_all recover_running rows ;;;
      recoverRebooting ;;;
      sweep ;;;
      Ret tt
  end.
End Node.
