(* ===== verification/JobRunners.v ===== *)
(** * The runners of command, service and reboot steps

    internal/feature/taskjob/command.go, service.go and reboot.go.  A wait
    that polls has fuel; the host's commands answer as they please. *)

From S2P Require Import Prelude GoStrings GoTime ApiCodes HostGuard TaskModel Interact JobProg.
From S2P Require Import JobOutput.
From S2P Require Import JobNode.

#[local] Open Scope prog_scope.

Definition firstNonEmpty (a b : string) : string :=
  if negb (trimSpace a ==s "") then a else if negb (trimSpace b ==s "") then b else "".

Definition appendLog (j : Job) (text : string) : jprog unit :=
  if text ==s "" then Ret tt
  else
    let text := if hasSuffix text (String newline "") then text else text +:+ String newline "" in
    jdo (AppendFile (job_LogPath j) text).

(** [10m] rather than [10m0s]. *)
Definition shortDuration (d : Duration) : string :=
  let s := duration_String d in
  let s := if hasSuffix s "m0s" then trimSuffix s "0s" else s in
  if hasSuffix s "h0m" then trimSuffix s "0m" else s.

(** A runner says how its job ended, and logs what keeps it from it. *)
Definition say (j : Job) (res : Result) : jprog (option string) := finish (job_ID j) res ;;; Ret None.
Definition no_check (_ : JobSpec) : jprog CheckVerdict := Ret (mkCheckVerdict 0 false "" "" false).

Section Runners.
Variable message_text : message -> string.
Variable SanitizeOutput : string -> string.
(** Polls of one wait. *)
Variable fuel : nat.

(** ** Commands (command.go) *)

Definition commandUnitPrefix : string := "sfpanel-task-".
Definition shell_dquote : string := bytes_of [34]%nat.
Definition commandScript : string :=
  shell_dquote +:+ "$@" +:+ shell_dquote +:+ "; rc=$?; echo " +:+ shell_dquote +:+ "[sfpanel-task] exit=$rc" +:+
  shell_dquote +:+ "; exit $rc".
Definition unknownLimit : nat := 30.
Definition stopTimeout : Duration := 2 * Minute.
Definition commandPoll : Duration := Second.

Definition zero_command : CommandStep := mkCommandStep "" "" 0.
Definition job_command (j : Job) : CommandStep := default zero_command (js_Command (job_Spec j)).

Definition commandTimeout (step : CommandStep) : Duration :=
  if 0 <? cm_Timeout step then cm_Timeout step else DefaultCommandTimeout.

(** Whole seconds, rounded up. *)
Definition ceil_seconds (d : Duration) : Z := (d + Second - 1) / Second.

Definition commandUnitArgv (j : Job) (unit_ script : string) (timeout : Duration) : list string :=
  ["--unit=" +:+ unit_; "--collect"; "--quiet";
   "-p"; "RuntimeMaxSec=" +:+ itoa (ceil_seconds timeout);
   "-p"; "StandardOutput=append:" +:+ job_LogPath j;
   "-p"; "StandardError=inherit";
   "--"; "/bin/sh"; "-c"; commandScript; "sh"; "/bin/sh"; script].

Definition exitResult (code : Z) : Result :=
  mkResult (if code =? 0 then JobSucceeded else JobFailed) true (Some code) ("exit " +:+ itoa code).
Definition timedOut (timeout : Duration) : Result :=
  mkResult JobFailed true None ("timed out after " +:+ shortDuration timeout).
Definition stopped_silently (summary : string) : Result := mkResult JobInterrupted true None summary.

Definition removeScript (j : Job) : jprog unit := jdo (RemoveFile (scriptPath (job_LogPath j))) ;;; Ret tt.

Definition settle (j : Job) (timeout : Duration) : jprog Result :=
  out <-- jdo (Cmd systemctlTimeout ["systemctl"; "show"; "-p"; "Result"; "--value"; job_Unit j]) ;;
  if trimSpace out.1 ==s "timeout" then Ret (timedOut timeout)
  else
    tail <-- jdo (ReadTail (job_LogPath j) logTail) ;;
    match exitFromLog tail with
    | Some code => Ret (exitResult code)
    | None =>
        now <-- jdo JNow ;;
        Ret (if timeout <=? now - job_StartedAt j then timedOut timeout
             else stopped_silently "the command stopped without saying how it ended: its unit was stopped or killed")
    end.

(** The polls of [watch]: whether the job was cancelled. *)
Fixpoint watch_unit (n : nat) (j : Job) (cancelled : bool) (unknown : nat) : jprog bool :=
  match n with
  | O => Stuck
  | S n =>
      out <-- jdo (Cmd systemctlTimeout ["systemctl"; "is-active"; job_Unit j]) ;;
      let state := trimSpace out.1 in
      if (state ==s "inactive") || (state ==s "failed") then Ret cancelled
      else
        let unknown := if unitRunning state then 0%nat else S unknown in
        if (unknownLimit <=? unknown)%nat then Ret cancelled
        else if cancelled then jdo (JSleep commandPoll) ;;; watch_unit n j true unknown
        else
          c <-- jdo (SelectCancel commandPoll) ;;
          if c : bool then
            jdo (Cmd stopTimeout ["systemctl"; "stop"; job_Unit j]) ;;; watch_unit n j true unknown
          else watch_unit n j false unknown
  end.
Definition watch (j : Job) (timeout : Duration) : jprog unit :=
  cancelled <-- watch_unit fuel j false 0 ;;
  res <-- settle j timeout ;;
  let res := if cancelled : bool then mkResult JobCancelled true None "cancelled: its unit was stopped" else res in
  removeScript j ;;;
  finish (job_ID j) res ;;;
  Ret tt.

(** The script run as the panel's own child. *)
Definition runDirect (j : Job) (script : string) (timeout : Duration) : jprog Result :=
  opened <-- jdo (OpenAppend (job_LogPath j)) ;;
  if negb opened then Ret (mkResult JobFailed false None "could not open the job's log")
  else
    err <-- jdo (StartChild ["/bin/sh"; "-c"; commandScript; "sh"; "/bin/sh"; script]) ;;
    match err with
    | Some text => Ret (mkResult JobFailed false None ("the command could not be started: " +:+ SanitizeOutput text))
    | None =>
        e <-- jdo (WaitChild timeout) ;;
        match e with
        | ChildCancelled => jdo KillChild ;;; Ret (mkResult JobCancelled true None "cancelled: the command was killed")
        | ChildTimedOut => jdo KillChild ;;; Ret (timedOut timeout)
        | ChildDone =>
            tail <-- jdo (ReadTail (job_LogPath j) logTail) ;;
            Ret (match exitFromLog tail with
                 | Some code => exitResult code
                 | None => stopped_silently "the command stopped without saying how it ended"
                 end)
        end
    end.

Definition script_body (step : CommandStep) : string :=
  let body := if cm_Script step ==s "" then cm_Run step else cm_Script step in
  if hasSuffix body (String newline "") then body else body +:+ String newline "".

(** [job.SetUnit]: the job with its unit. *)
Definition SetUnit (j : Job) (unit_ : string) : jprog (result string Job) :=
  err <-- jdo (DbSetUnit (job_ID j) unit_) ;;
  Ret (match err with
       | Some text => Err text
       | None => Ok (mkJob (job_Spec j) (job_LogPath j) (job_StartedAt j) unit_)
       end).

Definition command_Start (j : Job) : jprog (option string) :=
  let step := job_command j in
  let timeout := commandTimeout step in
  let script := scriptPath (job_LogPath j) in
  err <-- jdo (WriteFile script (script_body step) 448) ;;
  match err with
  | Some text => Ret (Some ("write the job's script: " +:+ text))
  | None =>
      err <-- jdo (Chmod script 448) ;;
      match err with
      | Some text => removeScript j ;;; Ret (Some ("write the job's script: " +:+ text))
      | None =>
          systemd <-- jdo SystemdActive ;;
          units <-- (if systemd : bool then jdo (CmdExists "systemd-run") else Ret false) ;;
          if negb units then
            res <-- runDirect j script timeout ;;
            removeScript j ;;;
            say j res
          else
            let unit_ := commandUnitPrefix +:+ job_ID j +:+ ".service" in
            j' <-- SetUnit j unit_ ;;
            match j' with
            | Err text => removeScript j ;;; Ret (Some ("record the job's unit: " +:+ text))
            | Ok j =>
                out <-- jdo (Cmd (30 * Second) ("systemd-run" :: commandUnitArgv j unit_ script timeout)) ;;
                match out.2 with
                | Some text =>
                    removeScript j ;;;
                    appendLog j (trimSpace out.1) ;;;
                    Ret (Some ("systemd-run: " +:+ trimSpace (firstNonEmpty out.1 text)))
                | None => watch j timeout ;;; Ret None
                end
            end
      end
  end.

Definition command_Resume (j : Job) : jprog (option string) := watch j (commandTimeout (job_command j)) ;;; Ret None.

Definition CommandRunner : Runner := mkRunner command_Start no_check None (Some command_Resume) None.

(** ** Services (service.go) *)

Definition zero_service : ServiceStep := mkServiceStep "" "".
Definition spec_service (s : JobSpec) : ServiceStep := default zero_service (js_Service s).

Definition service_Check (s : JobSpec) : jprog CheckVerdict :=
  info <-- jdo Platform ;;
  Ret (match UnitGuard info (sv_Name (spec_service s)) (sv_Action (spec_service s)) false with
       | None => mkCheckVerdict 0 false "" "" false
       | Some ref =>
           if rf_Code ref ==s ErrServiceConfirmRequired
           then mkCheckVerdict 0 false (rf_Code ref) (message_text (rf_Message ref)) true
           else mkCheckVerdict 0 true (rf_Code ref) (message_text (rf_Message ref)) false
       end).

Definition firstLine (s : string) : string :=
  let s := trimSpace s in
  let s := match indexByte s newline with Some i => trimSpace (stake i s) | None => s end in
  if s ==s "" then "unknown" else s.

Definition service_state (unit_ : string) : jprog string :=
  active <-- jdo (Cmd systemctlTimeout ["systemctl"; "is-active"; unit_]) ;;
  enabled <-- jdo (Cmd systemctlTimeout ["systemctl"; "is-enabled"; unit_]) ;;
  Ret (firstLine active.1 +:+ ", " +:+ firstLine enabled.1).

Definition DefaultTimeout : Duration := 5 * Minute.
(** [" → "] in UTF-8. *)
Definition arrow : string := bytes_of [32; 226; 134; 146; 32]%nat.
Definition shell_prompt : string := "$ systemctl ".

Definition service_run (j : Job) (step : ServiceStep) : jprog Result :=
  before <-- service_state (sv_Name step) ;;
  appendLog j (shell_prompt +:+ sv_Action step +:+ " " +:+ sv_Name step) ;;;
  out <-- jdo (Cmd DefaultTimeout ["systemctl"; sv_Action step; sv_Name step]) ;;
  appendLog j (trimSpace out.1) ;;;
  after <-- service_state (sv_Name step) ;;
  appendLog j (sv_Name step +:+ ": " +:+ after) ;;;
  let changed := negb (after ==s before) || (sv_Action step ==s "restart") in
  Ret (match out.2 with
       | Some text =>
           mkResult JobFailed changed None
             ("systemctl " +:+ sv_Action step +:+ " failed: " +:+
              SanitizeOutput (trimSpace (firstNonEmpty out.1 text)))
       | None =>
           mkResult JobSucceeded changed None
             (if (sv_Action step ==s "restart") && (after ==s before)
              then sv_Name step +:+ ": restarted (" +:+ after +:+ ")"
              else if negb changed then sv_Name step +:+ ": already " +:+ after
              else sv_Name step +:+ ": " +:+ before +:+ arrow +:+ after)
       end).

Definition service_Start (j : Job) : jprog (option string) :=
  let step := spec_service (job_Spec j) in
  info <-- jdo Platform ;;
  res <-- (match UnitGuard info (sv_Name step) (sv_Action step) (js_Confirmed (job_Spec j)) with
           | Some ref => Ret (mkResult JobFailed false None (rf_Code ref +:+ ": " +:+ message_text (rf_Message ref)))
           | None => service_run j step
           end) ;;
  say j res.

Definition ServiceRunner : Runner := mkRunner service_Start service_Check None None None.

(** ** Reboots (reboot.go) *)

Definition DefaultRebootRequiredPath : string := "/var/run/reboot-required".
Definition rebootUnitPrefix : string := "sfpanel-task-reboot-".

Definition zero_reboot : RebootStep := mkRebootStep false 0.
Definition spec_reboot (s : JobSpec) : RebootStep := default zero_reboot (js_Reboot s).

Definition pveMessage : string :=
  "This is a Proxmox VE host; the panel does not reboot one, since it does not know the guests running on it".
Definition refusePVE : jprog (option RunnerRefusal) :=
  info <-- jdo Platform ;;
  Ret (if pi_PVE info then Some (mkRunnerRefusal 409 ErrTaskRebootPVEHost pveMessage) else None).

Definition reboot_Check (_ : JobSpec) : jprog CheckVerdict :=
  ref <-- refusePVE ;;
  Ret (match ref with
       | Some ref => mkCheckVerdict 0 true (rr_Code ref) (rr_Message ref) false
       | None => mkCheckVerdict 0 false "" "" false
       end).

Definition reboot_required : jprog bool := jdo (FileExists DefaultRebootRequiredPath).
(** A step for a required reboot, and none is. *)
Definition not_required (s : JobSpec) : jprog bool :=
  if rb_OnlyIfRequired (spec_reboot s) then r <-- reboot_required ;; Ret (negb r) else Ret false.

Definition reboot_Refuse (s : JobSpec) : jprog (option RunnerRefusal) :=
  ref <-- refusePVE ;;
  match ref with
  | Some ref => Ret (Some ref)
  | None =>
      skip <-- not_required s ;;
      if skip : bool then Ret None
      else
        systemd <-- jdo SystemdActive ;;
        units <-- (if systemd : bool then jdo (CmdExists "systemd-run") else Ret false) ;;
        Ret (if negb units
             then Some (mkRunnerRefusal 409 ErrTaskRebootUnsupported "This node has no systemd to schedule a reboot with")
             else None)
  end.

Definition rebootWait (step : RebootStep) : Duration :=
  if 0 <? rb_Wait step then rb_Wait step else DefaultRebootWait.

Definition goingDown : jprog bool :=
  out <-- jdo (Cmd systemctlTimeout ["systemctl"; "is-system-running"]) ;;
  Ret (trimSpace out.1 ==s "stopping").

Definition reboot_await (j : Job) : jprog unit :=
  let wait := rebootWait (spec_reboot (job_Spec j)) in
  now <-- jdo JNow ;;
  let left := Z.max 0 (job_StartedAt j + wait - now) in
  let didNotReboot := mkResult JobFailed false None ("the node did not reboot within " +:+ shortDuration wait) in
  cancelled <-- jdo (SelectCancel left) ;;
  res <-- (if cancelled : bool then
             jdo (Cmd systemctlTimeout ["systemctl"; "stop"; job_Unit j]) ;;;
             down <-- goingDown ;;
             if down : bool then
               appendLog j "cancel asked after the reboot had begun: it cannot be called off" ;;;
               jdo (JSleep left) ;;;
               Ret didNotReboot
             else Ret (mkResult JobCancelled false None "cancelled: the reboot was called off")
           else Ret didNotReboot) ;;
  appendLog j (rt_Summary res) ;;;
  finish (job_ID j) res ;;;
  Ret tt.

(** [job.setRebooting]: the job with the timer's unit. *)
Definition setRebooting (j : Job) (unit_ : string) : jprog (result string Job) :=
  boot <-- jdo BootID ;;
  x <-- jdo (DbSetRebooting (job_ID j) unit_ boot) ;;
  Ret (match x with
       | Err text => Err text
       | Ok false => Err "the job is no longer running"
       | Ok true => Ok (mkJob (job_Spec j) (job_LogPath j) (job_StartedAt j) unit_)
       end).

Definition reboot_Start (j : Job) : jprog (option string) :=
  ref <-- reboot_Refuse (job_Spec j) ;;
  match ref with
  | Some ref => say j (mkResult JobFailed false None (rr_Code ref +:+ ": " +:+ rr_Message ref))
  | None =>
      skip <-- not_required (job_Spec j) ;;
      if skip : bool then
        appendLog j "no reboot is required" ;;;
        say j (mkResult JobSucceeded false None "not required")
      else
        gone <-- jdo JobCtxErr ;;
        if gone : bool then say j (mkResult JobCancelled false None "cancelled before the reboot was scheduled")
        else
          let unit_ := rebootUnitPrefix +:+ job_ID j in
          j' <-- setRebooting j (unit_ +:+ ".timer") ;;
          match j' with
          | Err text => Ret (Some text)
          | Ok j =>
              out <-- jdo (Cmd (30 * Second)
                ["systemd-run"; "--on-active=5"; "--unit=" +:+ unit_; "systemctl"; "reboot"]) ;;
              match out.2 with
              | Some text =>
                  appendLog j (trimSpace out.1) ;;;
                  say j (mkResult JobFailed false None
                    ("systemd-run: " +:+ SanitizeOutput (trimSpace (firstNonEmpty out.1 text))))
              | None =>
                  appendLog j ("reboot scheduled in 5 seconds (" +:+ unit_ +:+ ")") ;;;
                  reboot_await j ;;;
                  Ret None
              end
          end
  end.

Definition RebootRunner : Runner := mkRunner reboot_Start reboot_Check (Some reboot_Refuse) None (Some reboot_await).
End Runners.
