(* ===== verification/JobFile.v ===== *)
(** * The runner of file steps (internal/feature/taskjob/file.go)

    A file step writes one file behind the file manager's guard.  It is a
    program of the host's files alone, which the job's goroutine runs. *)

From S2P Require Import Prelude GoStrings ApiCodes TaskModel Interact World FileCall FileGuard.
From S2P Require Import JobProg.
From S2P Require Import JobOutput.
From S2P Require Import JobNode JobRunners.

#[local] Open Scope prog_scope.

Section File.
Variable message_text : message -> string.
Variable SanitizeOutput : string -> string.

Definition maxFileContent : Z := 10 * 2 ^ 20.

Definition refusedResult (code msg : string) : Result := mkResult JobFailed false None (code +:+ ": " +:+ msg).

Definition fileFailed (e : fs_error) (changed : bool) : Result :=
  let code := match fe_kind e with ErrPermission => ErrPermissionDenied | _ => ErrFileError end in
  mkResult JobFailed changed None (code +:+ ": " +:+ SanitizeOutput (fe_text e)).

Definition size_of (s : string) : Z := Z.of_nat (String.length s).

Definition holds (path : string) (st : FileInfo) (content : string) : fprog (result fs_error bool) :=
  if negb (fi_Size st =? size_of content) then Ret (Ok false)
  else
    b <-- fdo (ReadFileAll path) ;;
    Ret (match b with Err e => Err e | Ok b => Ok (b ==s content) end).

Definition setAttrs (path : string) (setMode : bool) (mode uid gid : Z) : fprog Result :=
  let owned :=
    if (0 <=? uid) || (0 <=? gid) then
      err <-- fdo (ChownPath path uid gid) ;;
      Ret (match err with
           | Some e => fileFailed e setMode
           | None => mkResult JobSucceeded true None "mode or owner set"
           end)
    else Ret (mkResult JobSucceeded true None "mode or owner set") in
  if setMode then
    err <-- fdo (ChmodPath path mode) ;;
    match err with Some e => Ret (fileFailed e false) | None => owned end
  else owned.

Definition tmp_pattern (path : string) : string := "." +:+ path_Base path +:+ ".sfpanel-*".

(** Up to the rename; what is left of the temporary file is removed. *)
Definition writeAtomic (path content : string) (mode uid gid : Z) : fprog (option fs_error) :=
  let dir := path_Dir path in
  f <-- fdo (CreateTemp dir (tmp_pattern path)) ;;
  match f with
  | Err e => Ret (Some e)
  | Ok tmp =>
      let fail e := fdo (TmpClose tmp) ;;; fdo (Remove tmp) ;;; Ret (Some e) in
      let try c (next : fprog (option fs_error)) :=
        err <-- c ;; match err with Some e => fail e | None => next end in
      try (fdo (TmpWrite tmp content))
        (try (fdo (TmpChmod tmp mode))
          (try (if (0 <=? uid) || (0 <=? gid) then fdo (TmpChown tmp uid gid) else Ret None)
            (try (fdo (TmpSync tmp))
              (err <-- fdo (TmpClose tmp) ;;
               match err with
               | Some e => fdo (Remove tmp) ;;; Ret (Some e)
               | None =>
                   err <-- fdo (Rename tmp path) ;;
                   match err with
                   | Some e => fdo (Remove tmp) ;;; Ret (Some e)
                   | None => fdo (SyncDir dir) ;;; Ret None
                   end
               end))))
  end.

(** The mode and owner a step asks for: the mode, whether it is set, and the
    ids, -1 for one to keep. *)
Definition step_mode (step : FileStep) : result string (Z * bool) :=
  if fl_Mode step ==s "" then Ok (420, false)
  else match ParseFileMode (fl_Mode step) with Ok m => Ok (m, true) | Err e => Err e end.
Definition step_owner (step : FileStep) : fprog (result message (Z * Z)) :=
  if fl_Owner step ==s "" then Ret (Ok (-1, -1))
  else let '(u, g, _) := cutByte (fl_Owner step) ":" in ResolveOwner u g.

Definition write_result (path content : string) (mode uid gid : Z) : fprog Result :=
  err <-- writeAtomic path content mode uid gid ;;
  Ret (match err with
       | Some e => fileFailed e false
       | None => mkResult JobSucceeded true None "written"
       end).

(** [id], or the file's own where it is to be kept. *)
Definition keep (id own : Z) : Z := if id <? 0 then own else id.

(** The step on the file [os.Stat] found. *)
Definition on_existing (step : FileStep) (path : string) (mode : Z) (setMode : bool) (uid gid : Z) (st : FileInfo)
    : fprog Result :=
  same <-- holds path st (fl_Content step) ;;
  match same with
  | Err e => Ret (fileFailed e false)
  | Ok same =>
      let modeOK := negb setMode || (fi_Perm st =? mode) in
      let ownerOK :=
        match fi_Sys st with
        | None => true
        | Some (u, g) => ((uid <? 0) || (u =? uid)) && ((gid <? 0) || (g =? gid))
        end in
      if same && modeOK && ownerOK then Ret (mkResult JobSucceeded false None "unchanged")
      else if same then setAttrs path setMode mode uid gid
      else
        let mode := if setMode then mode else fi_Perm st in
        let '(uid, gid) := match fi_Sys st with Some (u, g) => (keep uid u, keep gid g) | None => (uid, gid) end in
        write_result path (fl_Content step) mode uid gid
  end.

(** The step on a path nothing is at: its directories first, and the guard
    once more, now that they exist. *)
Definition on_missing (step : FileStep) (path : string) (mode uid gid : Z) : fprog Result :=
  err <-- fdo (MkdirAll (path_Dir path) 493) ;;
  match err with
  | Some e => Ret (fileFailed e false)
  | None =>
      refused <-- ValidatePathForWrite (fl_Path step) ;;
      match refused with
      | Some e => Ret (refusedResult ErrInvalidPath e)
      | None => write_result path (fl_Content step) mode uid gid
      end
  end.

Definition writeFileStep (step : FileStep) : fprog Result :=
  refused <-- ValidatePathForWrite (fl_Path step) ;;
  match refused with
  | Some e => Ret (refusedResult ErrInvalidPath e)
  | None =>
      if maxFileContent <? size_of (fl_Content step)
      then Ret (refusedResult ErrInvalidRequest "the content is larger than 10 MiB")
      else
        let path := path_Clean (fl_Path step) in
        match step_mode step with
        | Err e => Ret (refusedResult ErrInvalidRequest e)
        | Ok (mode, setMode) =>
            owner <-- step_owner step ;;
            match owner with
            | Err e => Ret (refusedResult ErrInvalidRequest (message_text e))
            | Ok (uid, gid) =>
                st <-- fdo (Stat path) ;;
                match st with
                | Ok st =>
                    if negb (fi_IsRegular st)
                    then Ret (refusedResult ErrInvalidPath "this path is not a regular file")
                    else on_existing step path mode setMode uid gid st
                | Err e =>
                    match fe_kind e with
                    | ErrNotExist => on_missing step path mode uid gid
                    | _ => Ret (fileFailed e false)
                    end
                end
            end
        end
  end.

(** ** The runner *)

Definition on_host {A} (p : fprog A) : jprog A := lift Fs (fun _ x => x) p.

Definition zero_file : FileStep := mkFileStep "" "" "" "".
Definition spec_file (s : JobSpec) : FileStep := default zero_file (js_File s).

Definition file_Check (s : JobSpec) : jprog CheckVerdict :=
  refused <-- on_host (ValidatePathForWrite (fl_Path (spec_file s))) ;;
  Ret (match refused with
       | Some e => mkCheckVerdict 0 true ErrInvalidPath e false
       | None => mkCheckVerdict 0 false "" "" false
       end).

Definition file_Start (j : Job) : jprog (option string) :=
  res <-- on_host (writeFileStep (spec_file (job_Spec j))) ;;
  appendLog j (fl_Path (spec_file (job_Spec j)) +:+ ": " +:+ rt_Summary res) ;;;
  say j res.

Definition FileRunner : Runner := mkRunner file_Start file_Check None None None.
End File.
