(* ===== verification/JobStack.v ===== *)
(** * The runner of stack steps (internal/feature/taskjob/stack.go)

    A stack step writes a stack's compose file and brings it up, behind the
    guards of the compose endpoints.  The compose manager's operations are
    programs of its own calls; what it prints goes to the job's log. *)

From S2P Require Import Prelude GoStrings GoRegexp ApiCodes ComposeSafety TaskModel Interact World.
From S2P Require Import FileCall ComposeCall.
From S2P Require Import ComposeManager JobProg JobOutput JobNode JobRunners JobFile.

#[local] Open Scope prog_scope.

(** ** What a run of `docker compose up` changed *)

Definition is_word (c : ascii) : bool := is_alnum c || Ascii.eqb c "_".
Definition is_space (c : ascii) : bool := existsb (Nat.eqb (nat_of_ascii c)) [9; 10; 12; 13; 32]%nat.
Definition rAny : re := RStar (RClass (fun _ => true)).
Definition rWords (l : list string) : re := fold_right (fun w r => RAlt (rLit w) r) REmpty l.
(** The event from the first byte of a line to the last of its verb. *)
Definition upEvent : re :=
  RCat (RStar (RClass (fun c => negb (is_word c))))
    (RCat (rWords ["Container"; "Network"; "Volume"])
      (RCat (rPlus (RClass is_space)) (RCat (rPlus (RClass (fun c => negb (is_space c))))
        (RCat (rPlus (RClass is_space)) (rWords ["Created"; "Recreated"; "Started"; "Removed"]))))).
(** [upEvent] somewhere: at the text's start or after a newline, and up to a
    word's end. *)
Definition upSomewhere : re :=
  RCat (RAlt REps (RCat rAny (RClass (Ascii.eqb newline))))
    (RCat upEvent (RAlt REps (RCat (RClass (fun c => negb (is_word c))) rAny))).
Definition upChanged (out : string) : bool := matchString upSomewhere out.

Definition zero_stack : StackStep := mkStackStep "" "" false.
Definition spec_stack (s : JobSpec) : StackStep := default zero_stack (js_Stack s).

Section Stack.
Variable message_text : message -> string.
Variable SanitizeOutput : string -> string.
Variable baseDir : string.
Variable Unmarshal : string -> result string ymap.

(** The code, the reason, and whether a confirmation is all that is missing;
    no code is no refusal. *)
Definition stackGuard (step : StackStep) : string * string * bool :=
  match ValidateProjectName (st_Name step) with
  | Some e => (ErrInvalidName, message_text e, false)
  | None =>
      match Analyze Unmarshal (st_Compose step) with
      | Err e => (ErrInvalidYAML, message_text (AnalyzeError_message e), false)
      | Ok report =>
          let text acknowledged := findings_text message_text (default [] (Report_Error report acknowledged)) in
          if negb (length (rp_Forbidden report) =? 0)%nat then (ErrComposeForbidden, text true, false)
          else if bool_decide (is_Some (Report_Error report false)) then (ErrComposeRisky, text false, true)
          else ("", "", false)
      end
  end.

Definition stack_Check (s : JobSpec) : jprog CheckVerdict :=
  let '(code, reason, confirm) := stackGuard (spec_stack s) in
  Ret (if code ==s "" then mkCheckVerdict 0 false "" "" false else mkCheckVerdict 0 (negb confirm) code reason confirm).

(** The manager's calls, made by the job; a line that is printed is logged,
    and kept. *)
Definition log_lines (j : Job) (out : string) (c : ccall) : jprog (canswer c * string) :=
  match c return jprog (canswer c * string) with
  | OnLine line => appendLog j line ;;; Ret (tt, out +:+ line +:+ String newline "")
  | c => x <-- jdo (Cm c) ;; Ret (x, out)
  end.
Definition managed {A} (j : Job) (p : cprog A) : jprog (A * string) := handled (log_lines j) "" p.

Definition composeFailed (changed : bool) (text : string) : Result :=
  mkResult JobFailed changed None (ErrComposeError +:+ ": " +:+ text).

(** The compose file written where it differs: whether it was, or why not. *)
Definition write_stack (j : Job) (step : StackStep) : jprog (result Result bool) :=
  have <-- managed j (GetProjectYAML baseDir (st_Name step)) ;;
  if match have.1 with Ok (have, _) => have ==s st_Compose step | Err _ => false end then
    appendLog j ("stack " +:+ st_Name step +:+ ": compose file unchanged") ;;;
    Ret (Ok false)
  else
    created <-- managed j (CreateProject baseDir (st_Name step) (st_Compose step)) ;;
    done <-- (match created.1 with
              | Ok _ => Ret ("created", None)
              | Err e =>
                  if ce_exists e then
                    err <-- managed j (UpdateProject baseDir (st_Name step) (st_Compose step)) ;; Ret ("updated", err.1)
                  else Ret ("created", Some (ce_text e))
              end) ;;
    match done.2 with
    | Some e => Ret (Err (composeFailed false (SanitizeOutput (message_text e))))
    | None => appendLog j ("stack " +:+ st_Name step +:+ ": compose file " +:+ done.1) ;;; Ret (Ok true)
    end.

Definition up_stack (j : Job) (step : StackStep) (wrote : bool) (summary : string) : jprog Result :=
  up <-- managed j (UpStream message_text baseDir Unmarshal (st_Name step)) ;;
  let '(err, out) := up in
  let changed := wrote || upChanged out in
  gone <-- jdo JobCtxErr ;;
  Ret (if gone : bool then mkResult JobCancelled true None "cancelled while the stack came up"
       else match err with
            | Some e => composeFailed changed (SanitizeOutput (trimSpace (firstNonEmpty out (message_text e))))
            | None => mkResult JobSucceeded changed None (summary +:+ (if changed then ", up" else ", already up"))
            end).

Definition runStack (j : Job) : jprog Result :=
  let step := spec_stack (job_Spec j) in
  let '(code, reason, confirm) := stackGuard step in
  if negb (code ==s "") && (negb confirm || negb (js_Confirmed (job_Spec j))) then Ret (refusedResult code reason)
  else
    compose <-- jdo HasCompose ;;
    if negb compose then Ret (refusedResult ErrDockerUnavailable "Docker Compose is not available on this node")
    else
      wrote <-- write_stack j step ;;
      match wrote with
      | Err res => Ret res
      | Ok wrote =>
          let summary := if wrote then "compose file written" else "compose file unchanged" in
          if negb (st_Up step) then Ret (mkResult JobSucceeded wrote None summary)
          else up_stack j step wrote summary
      end.

Definition stack_Start (j : Job) : jprog (option string) :=
  res <-- runStack j ;; finish (job_ID j) res ;;; Ret None.

Definition StackStepRunner : Runner := mkRunner stack_Start stack_Check None None None.
End Stack.
