(* ===== verification/JobPackages.v ===== *)
(** * The runner of packages steps (internal/feature/taskjob/packages.go)

    A packages step is one transaction of the packages module after another.
    apt runs in a unit of its own, so a panel that restarts takes the job back
    in the transaction its log says it was in. *)

From S2P Require Import Prelude GoStrings GoRegexp GoTime ApiCodes TaskModel TaskRefs Interact.
From S2P Require Import JobProg.
From S2P Require Import JobOutput.
From S2P Require Import JobNode JobRunners.

#[local] Open Scope prog_scope.

Definition aptUnitPrefix : string := "sfpanel-apt-".
Definition pkgUpdate : string := "update".
Definition phaseMarker : string := "[sfpanel-task] phase=".

(** [[0-9]{8}-[0-9]{6}-[0-9a-f]{4}] *)
Definition tx_id : re :=
  RCat (rRep 8 (RClass is_digit)) (RCat (rChar "-") (RCat (rRep 6 (RClass is_digit)) (RCat (rChar "-")
    (rRep 4 (RClass (fun c => is_digit c || byte_in c "a" "f")))))).

Fixpoint span_digit (s : string) : string * string :=
  match s with
  | String c s' => if is_digit c then let '(ds, r) := span_digit s' in (String c ds, r) else ("", s)
  | EmptyString => ("", "")
  end.
(** [phaseLine]'s two groups. *)
Definition match_phase (line : string) : option (string * string) :=
  rest ← cutPrefix line phaseMarker;
  let '(ds, rest) := span_digit rest in
  if ds ==s "" then None
  else tx ← cutPrefix rest " tx="; if matchString tx_id tx then Some (ds, tx) else None.

(** ** The phases of a step *)

Record pkgPhase : Type := mkPkgPhase { ph_kind : string; ph_names : option (list string) }.

Definition names_of (l : option (list string)) : list string := default [] l.
Definition packagePhases (p : PackagesStep) : list pkgPhase :=
  (if pk_Update p then [mkPkgPhase pkgUpdate None] else []) ++
  (if pk_UpgradeAll p then [mkPkgPhase "upgrade" None]
   else if negb (length (names_of (pk_Upgrade p)) =? 0)%nat then [mkPkgPhase "upgrade" (pk_Upgrade p)] else []) ++
  (if negb (length (names_of (pk_Install p)) =? 0)%nat then [mkPkgPhase "install" (pk_Install p)] else []) ++
  (if negb (length (names_of (pk_Remove p)) =? 0)%nat then [mkPkgPhase "remove" (pk_Remove p)] else []).

Definition zero_packages : PackagesStep := mkPackagesStep false false None None None.
Definition spec_packages (s : JobSpec) : PackagesStep := default zero_packages (js_Packages s).

(** ** Marks in the job's log *)

Record phaseMark : Type := mkPhaseMark { pm_phase : Z; pm_tx : string; pm_end : Z }.

(** [strconv.Atoi] of digits, its error ignored: what overflows is the
    greatest int. *)
Definition atoi_digits (s : string) : Z := default (2 ^ 63 - 1) (atoi s).

(** The lines of [text], which starts at [pos]; the last is kept only when it
    is ended. *)
Fixpoint marks_from (line : string) (pos : Z) (text : string) : list phaseMark :=
  match text with
  | EmptyString => []
  | String c text =>
      let pos := pos + 1 in
      if Ascii.eqb c newline then
        match match_phase (srev line) with
        | Some (ds, tx) => mkPhaseMark (atoi_digits ds) tx pos :: marks_from "" pos text
        | None => marks_from "" pos text
        end
      else marks_from (String c line) pos text
  end.
Definition readPhaseMarks (path : string) : jprog (option (list phaseMark * Z)) :=
  data <-- jdo (ReadFile path) ;;
  Ret (match data with
       | Ok (Some text) => Some (marks_from "" 0 text, Z.of_nat (String.length text))
       | _ => None
       end).

(** ** Following a transaction *)

Definition copyOutput (j : Job) (src : string) (offset : Z) : jprog Z :=
  data <-- jdo (ReadFrom src offset) ;;
  match data with
  | None => Ret offset
  | Some data =>
      opened <-- jdo (OpenAppend (job_LogPath j)) ;;
      if negb opened then Ret offset
      else n <-- jdo (CopyTo (job_LogPath j) data) ;; Ret (offset + n)
  end.

(** How a wait ended: [None] when the transaction's record is gone. *)
Record waited : Type := mkWaited { wt_end : option (string * Z); wt_cancelled : bool; wt_copied : Z }.

Definition pollEvery : Duration := Second.

Section Packages.
Variable message_text : message -> string.
Variable SanitizeOutput : string -> string.
(** Polls of one transaction. *)
Variable fuel : nat.

Fixpoint wait_tx (n : nat) (j : Job) (tx : string) (cancelled : bool) (copied : Z) : jprog waited :=
  match n with
  | O => Stuck
  | S n =>
      st <-- jdo (PkgStatus tx) ;;
      match st with
      | Err _ => Ret (mkWaited None cancelled copied)
      | Ok st =>
          copied <-- copyOutput j (ts_logPath st) copied ;;
          if negb (ts_running st) then Ret (mkWaited (Some (ts_result st, ts_exitCode st)) cancelled copied)
          else if cancelled then jdo (JSleep pollEvery) ;;; wait_tx n j tx true copied
          else c <-- jdo (SelectCancel pollEvery) ;; wait_tx n j tx c copied
      end
  end.

(** What the transactions changed: how many packages, if all were counted. *)
Fixpoint count_changed (done : list string) : jprog (Z * bool) :=
  match done with
  | [] => Ret (0, true)
  | tx :: done =>
      st <-- jdo (PkgStatus tx) ;;
      c <-- (match st with Err _ => Ret None | Ok st => jdo (PkgChanged (ts_logPath st)) end) ;;
      rest <-- count_changed done ;;
      Ret (match c with Some c => (c + rest.1, rest.2) | None => (rest.1, false) end)
  end.

Definition ended (status summary : string) (exit : option Z) (done : list string) : jprog Result :=
  if (length done =? 0)%nat then
    Ret (mkResult status false exit (if status ==s JobSucceeded then "package lists updated" else summary))
  else
    n <-- count_changed done ;;
    let '(n, counted) := n in
    let '(changed, what) :=
      if negb counted then (true, "packages changed; apt printed no summary, so they were not counted")
      else if n =? 0 then (false, "no packages changed")
      else if n =? 1 then (true, "1 package changed")
      else (true, itoa n +:+ " packages changed") in
    Ret (mkResult status changed exit (if summary ==s "" then what else summary +:+ " (" +:+ what +:+ ")")).

(** ** The phases, one after another *)

Definition end_packages (j : Job) (res : jprog Result) : jprog unit := res <-- res ;; finish (job_ID j) res ;;; Ret tt.

Definition tx_unit (ph : pkgPhase) (id : string) : string :=
  if negb (ph_kind ph ==s pkgUpdate) then aptUnitPrefix +:+ id +:+ ".service" else "".

(** The transaction of a phase that is in none, started and recorded. *)
Definition start_tx (j : Job) (i : Z) (ph : pkgPhase) (done : list string) : jprog (Result + (Job * string)) :=
  gone <-- jdo JobCtxErr ;;
  if gone : bool then
    res <-- ended JobCancelled ("cancelled before the " +:+ ph_kind ph +:+ " transaction") None done ;; Ret (inl res)
  else
    id <-- jdo (PkgStart (ph_kind ph) (ph_names ph)) ;;
    match id with
    | Err e =>
        let summary := match e with TxRefused code msg => code +:+ ": " +:+ msg | TxFailed text => SanitizeOutput text end in
        res <-- ended JobFailed summary None done ;; Ret (inl res)
    | Ok id =>
        x <-- SetUnit j (tx_unit ph id) ;;
        let j := match x with Ok j => j | Err _ => j end in
        appendLog j (phaseMarker +:+ itoa i +:+ " tx=" +:+ id) ;;;
        Ret (inr (j, id))
    end.

(** How a phase that was waited for lets the step go on; [None] is on. *)
Definition phase_end (ph : pkgPhase) (w : waited) (done : list string) : option (jprog Result) :=
  let '(result, code) := default ("", -1) (wt_end w) in
  if wt_cancelled w then
    Some (ended JobCancelled ("cancelled; the " +:+ ph_kind ph +:+ " transaction ran to its end (" +:+ result +:+ ")") None done)
  else
    match wt_end w with
    | None => Some (ended JobInterrupted ("the " +:+ ph_kind ph +:+ " transaction's record is gone") None done)
    | Some _ =>
        if result ==s "success" then None
        else if result ==s "failed" then
          Some (ended JobFailed (ph_kind ph +:+ " failed with exit status " +:+ itoa code)
                  (if 0 <=? code then Some code else None) done)
        else
          Some (ended JobInterrupted ("the " +:+ ph_kind ph +:+ " transaction stopped without saying how it ended") None done)
    end.

Fixpoint run_phases (j : Job) (i : Z) (rest : list pkgPhase) (tx : string) (copied : Z) (done : list string) : jprog unit :=
  match rest with
  | [] => end_packages j (ended JobSucceeded "" (Some 0) done)
  | ph :: rest =>
      x <-- (if tx ==s "" then start_tx j i ph done else Ret (inr (j, tx))) ;;
      match x with
      | inl res => finish (job_ID j) res ;;; Ret tt
      | inr (j, id) =>
          w <-- wait_tx fuel j id false (if tx ==s "" then 0 else copied) ;;
          let done := if negb (ph_kind ph ==s pkgUpdate) then done ++ [id] else done in
          match phase_end ph w done with
          | Some res => end_packages j res
          | None => run_phases j (i + 1) rest "" (wt_copied w) done
          end
      end
  end.

(** ** The runner *)

Definition packages_Check (s : JobSpec) : jprog CheckVerdict :=
  let p := spec_packages s in
  Ret (match find (fun name => negb (matchString validPackageName name))
               (names_of (pk_Upgrade p) ++ names_of (pk_Install p) ++ names_of (pk_Remove p)) with
       | Some name => mkCheckVerdict 0 true ErrInvalidPackageName (message_text (Sprintf "invalid package name %q" [FStr name])) false
       | None => mkCheckVerdict 0 false "" "" false
       end).

Definition packages_Start (j : Job) : jprog (option string) :=
  run_phases j 0 (packagePhases (spec_packages (job_Spec j))) "" 0 [] ;;; Ret None.

(** The int64 after one. *)
Definition int_succ (n : Z) : Z := if n =? 2 ^ 63 - 1 then - 2 ^ 63 else n + 1.

(** The transaction of a job's unit. *)
Definition unit_tx (unit_ : string) : option string :=
  tx ← cutPrefix unit_ aptUnitPrefix; if hasSuffix tx ".service" then Some (trimSuffix tx ".service") else None.

(** Where a job's log says it was: the phase of [tx], how much of its output
    was copied, the marks before it, and whether its own is to be written. *)
Definition resume_at (marks : list phaseMark) (size : Z) (tx : string) : Z * Z * list phaseMark * bool :=
  match last marks with
  | Some m =>
      if pm_tx m ==s tx then (pm_phase m, size - pm_end m, removelast marks, false)
      else (int_succ (pm_phase m), 0, marks, true)
  | None => (0, 0, marks, true)
  end.

(** [phases[i]], for an index that is in range. *)
Definition phase_at (phases : list pkgPhase) (i : Z) : option pkgPhase :=
  if (0 <=? i) && (i <? Z.of_nat (length phases)) then phases !! Z.to_nat i else None.
Definition done_before (phases : list pkgPhase) (marks : list phaseMark) : list string :=
  omap (fun m => ph ← phase_at phases (pm_phase m); if negb (ph_kind ph ==s pkgUpdate) then Some (pm_tx m) else None) marks.

(** An index below zero panics: [Stuck]. *)
Definition packages_Resume (j : Job) : jprog (option string) :=
  let phases := packagePhases (spec_packages (job_Spec j)) in
  marks <-- readPhaseMarks (job_LogPath j) ;;
  match unit_tx (job_Unit j), marks with
  | Some tx, Some (marks, size) =>
      let '(from, copied, before, unmarked) := resume_at marks size tx in
      (if unmarked && (from <? Z.of_nat (length phases))
       then appendLog j (phaseMarker +:+ itoa from +:+ " tx=" +:+ tx) else Ret tt) ;;;
      if from <? 0 then Stuck
      else
        match phase_at phases from with
        | Some ph =>
            if ph_kind ph ==s pkgUpdate
            then Ret (Some ("the job's log does not say which transaction " +:+ tx +:+ " was"))
            else run_phases j from (drop (Z.to_nat from) phases) tx copied (done_before phases before) ;;; Ret None
        | None => Ret (Some ("the job's log does not say which transaction " +:+ tx +:+ " was"))
        end
  | _, _ =>
      Ret (Some (message_text (Sprintf "the job's transaction could not be found again (unit %q)" [FStr (job_Unit j)])))
  end.

Definition PackageRunner : Runner := mkRunner packages_Start packages_Check None (Some packages_Resume) None.
End Packages.
