(* ===== verification/JobPackagesFacts.v ===== *)
(** * A packages step runs each of its transactions once

    However often the panel restarts, a step starts its transactions in order
    and each at most once, and copies what each logged once and in order; a
    step that succeeded has seen all of them succeed. *)

From S2P Require Import Prelude GoStrings GoRegexp GoTime TaskModel Interact World JobProg.
From S2P Require Import JobOutput.
From S2P Require Import JobNode JobRunners JobPackages.

#[local] Open Scope prog_scope.

(** ** The world of a packages job *)

(** A transaction of the packages module, its phase and what it logged. *)
Record ptx : Type := mkPtx { pt_id : string; pt_phase : pkgPhase; pt_log : string; pt_running : bool; pt_result : string }.

(** The text ends with the end of a line, or is none. *)
Fixpoint ends_nl (s : string) : bool :=
  match s with
  | EmptyString => false
  | String c EmptyString => Ascii.eqb c newline
  | String _ s => ends_nl s
  end.
Definition complete (s : string) : Prop := s = "" \/ ends_nl s = true.
(** No line of it is one the runner would write. *)
Definition no_marks (s : string) : Prop := marks_from "" 0 s = [].

(** A transaction goes on while it runs; one that succeeded has ended its last
    line. *)
Definition goes_on (t t' : ptx) : Prop :=
  pt_id t' = pt_id t /\ pt_phase t' = pt_phase t /\ no_marks (pt_log t') /\
  if pt_running t then
    (exists more, pt_log t' = pt_log t +:+ more) /\
    (pt_running t' = false -> pt_result t' = "success" -> complete (pt_log t'))
  else t' = t.

Record pkgs : Type := mkPkgs {
  pw_log : string;                (* the job's log *)
  pw_unit : string;               (* the unit in the job's row *)
  pw_txs : list ptx;              (* the transactions started, oldest first *)
  pw_end : option Result;         (* the end recorded *)
}.
Definition with_log (l : string) (w : pkgs) : pkgs := mkPkgs l (pw_unit w) (pw_txs w) (pw_end w).
Definition with_txs (txs : list ptx) (w : pkgs) : pkgs := mkPkgs (pw_log w) (pw_unit w) txs (pw_end w).

Section World.
Variable LogDir : string.
Variable spec : JobSpec.
(** Where a transaction logs. *)
Variable tx_path : string -> string.

Definition job_log : string := logPath LogDir (js_ID spec).

(** What a call does once the transactions have gone on.  Logs can be read and
    written and the job's row set. *)
Definition pkg_effect (w : pkgs) (c : jcall) : janswer c -> pkgs -> Prop :=
  match c return janswer c -> pkgs -> Prop with
  | PkgStart kind names => fun x w' =>
      match x with
      | Ok id => matchString tx_id id = true /\ (forall t, t ∈ pw_txs w -> pt_id t <> id) /\
          w' = with_txs (pw_txs w ++ [mkPtx id (mkPkgPhase kind names) "" true ""]) w
      | Err _ => w' = w
      end
  | PkgStatus id => fun x w' => w' = w /\
      match x with
      | Ok st => exists t, t ∈ pw_txs w /\ pt_id t = id /\ ts_running st = pt_running t /\
          (pt_running t = false -> ts_result st = pt_result t) /\ ts_logPath st = tx_path id
      | Err _ => True
      end
  | ReadFrom path offset => fun x w' => w' = w /\
      (forall t, t ∈ pw_txs w -> path = tx_path (pt_id t) -> x = Some (sdrop (Z.to_nat offset) (pt_log t)))
  | OpenAppend _ => fun x w' => w' = w /\ x = true
  | CopyTo path data => fun x w' =>
      x = Z.of_nat (String.length data) /\ w' = if path ==s job_log then with_log (pw_log w +:+ data) w else w
  | AppendFile path text => fun _ w' => w' = if path ==s job_log then with_log (pw_log w +:+ text) w else w
  | ReadFile path => fun x w' => w' = w /\ (path = job_log -> x = Ok (Some (pw_log w)))
  | DbSetUnit id unit_ => fun x w' =>
      x = None /\ w' = if id ==s js_ID spec then mkPkgs (pw_log w) unit_ (pw_txs w) (pw_end w) else w
  | DbFinish id res _ => fun x w' =>
      match x with
      | None => w' = if (id ==s js_ID spec) && negb (bool_decide (is_Some (pw_end w)))
                     then mkPkgs (pw_log w) (pw_unit w) (pw_txs w) (Some res) else w
      | Some _ => w' = w
      end
  | _ => fun _ w' => w' = w
  end.
Definition pkg_step (w : pkgs) (c : jcall) (x : janswer c) (w' : pkgs) : Prop :=
  exists txs, Forall2 goes_on (pw_txs w) txs /\ pkg_effect (with_txs txs w) c x w'.

Variable SanitizeOutput : string -> string.
Variable message_text : message -> string.
Variable fuel : nat.

Definition started_job (unit_ : string) (at_ : Time) : Job := mkJob spec job_log at_ unit_.

(** The unit of the transaction started last is the one in the job's row. *)
Definition unit_recorded (w : pkgs) : Prop := forall t, last (pw_txs w) = Some t -> pw_unit w = tx_unit (pt_phase t) (pt_id t).

(** The job in life after life of the panel: started in the first, taken back
    in the later ones while it has not ended and its row has a unit.  A life
    that ends between a transaction's start and the record of its unit, or
    whose record failed, is left out ([unit_recorded]): the code starts the
    transaction's phase over after it. *)
Inductive lives (at_ : Time) : pkgs -> Prop :=
| life_first o w :
    runs pkg_step (mkPkgs "" "" [] None) (packages_Start SanitizeOutput fuel (started_job "" at_)) o w -> lives at_ w
| life_next w o w' :
    lives at_ w -> pw_end w = None -> pw_unit w <> "" -> unit_recorded w ->
    runs pkg_step w (packages_Resume message_text SanitizeOutput fuel (started_job (pw_unit w) at_)) o w' -> lives at_ w'.
End World.

(** ** The marks of a log *)

Definition mark_line (i : Z) (id : string) : string := phaseMarker +:+ itoa i +:+ " tx=" +:+ id +:+ String newline "".
(** The log of phases from the [i]th on, each after its mark. *)
Fixpoint log_of (i : Z) (txs : list ptx) : string :=
  match txs with
  | [] => ""
  | t :: txs => mark_line i (pt_id t) +:+ pt_log t +:+ log_of (i + 1) txs
  end.
Fixpoint marks_of (i pos : Z) (txs : list ptx) : list phaseMark :=
  match txs with
  | [] => []
  | t :: txs =>
      let pos := pos + slen (mark_line i (pt_id t)) in
      mkPhaseMark i (pt_id t) pos :: marks_of (i + 1) (pos + slen (pt_log t)) txs
  end.

Lemma slen_app a b : slen (a +:+ b) = slen a + slen b.
Proof. unfold slen. rewrite slength_app. lia. Qed.

Lemma marks_from_plain line pos a t : indexByte a newline = None ->
  marks_from line pos (a +:+ t) = marks_from (srev_onto a line) (pos + Z.of_nat (String.length a)) t.
Proof.
  revert line pos. induction a as [|c a IH]; intros line pos Ha; [by rewrite Z.add_0_r|].
  rewrite indexByte_cons in Ha. simpl. destruct (Ascii.eqb c newline); [done|].
  rewrite IH by (by destruct (indexByte a newline)). f_equal. lia.
Qed.

Lemma marks_from_app line pos a b : ends_nl a = true ->
  marks_from line pos (a +:+ b) = marks_from line pos a ++ marks_from "" (pos + Z.of_nat (String.length a)) b.
Proof.
  revert line pos. induction a as [|c a IH]; intros line pos Ha; [done|]. destruct a as [|d a].
  - simpl in Ha |- *. rewrite Ha. by destruct (match_phase (srev line)) as [[ds tx]|].
  - change (ends_nl (String c (String d a))) with (ends_nl (String d a)) in Ha. specialize (fun l p => IH l p Ha).
    change (String c (String d a) +:+ b) with (String c (String d a +:+ b)). cbn [marks_from].
    replace (pos + Z.of_nat (String.length (String c (String d a)))) with (pos + 1 + Z.of_nat (String.length (String d a)))
      by (simpl; lia).
    destruct (Ascii.eqb c newline); [|apply IH]. rewrite IH. by destruct (match_phase (srev line)) as [[ds tx]|].
Qed.

Lemma marks_from_none line pos pos' n a : marks_from line pos a = [] -> marks_from line pos' (stake n a) = [].
Proof.
  revert line pos pos' n. induction a as [|c a IH]; intros line pos pos' n H; [by destruct n|]. destruct n as [|n]; [done|].
  simpl in *. destruct (Ascii.eqb c newline); [|by eapply IH].
  destruct (match_phase (srev line)) as [[ds tx]|]; [done|by eapply IH].
Qed.
Lemma no_marks_at pos a : no_marks a -> marks_from "" pos a = [].
Proof. intros H. rewrite <-(stake_all (String.length a) a) by done. by eapply marks_from_none. Qed.

Lemma tx_id_plain id : matchString tx_id id = true -> indexByte id newline = None.
Proof.
  intros H. apply re_match_spec in H. apply (re_all_spec (fun c => Ascii.eqb c newline = false)) in H.
  - clear -H. induction id as [|c id IH]; [done|]. inversion H as [|? ? Hc Hi]; subst. rewrite indexByte_cons, Hc.
    by rewrite IH.
  - assert (Hd : forall c, is_digit c = true -> Ascii.eqb c newline = false).
    { intros c Hc. apply Ascii.eqb_neq. intros ->. by vm_compute in Hc. }
    assert (Hx : forall c, is_digit c || byte_in c "a" "f" = true -> Ascii.eqb c newline = false).
    { intros c Hc. apply Ascii.eqb_neq. intros ->. by vm_compute in Hc. }
    assert (Hm : forall c, Ascii.eqb "-" c = true -> Ascii.eqb c newline = false).
    { intros c <-%Ascii.eqb_eq. done. }
    repeat split; assumption.
Qed.

Lemma match_mark i id : 0 <= i < 4 -> matchString tx_id id = true ->
  match_phase (phaseMarker +:+ itoa i +:+ " tx=" +:+ id) = Some (itoa i, id) /\ atoi_digits (itoa i) = i /\
  indexByte (phaseMarker +:+ itoa i +:+ " tx=" +:+ id) newline = None.
Proof.
  intros Hi Hid. assert (i ∈ seqZ 0 4) as Hin by (apply elem_of_seqZ; lia).
  assert (Hc : forall s p, cutPrefix (p +:+ s) p = Some s).
  { intros s p. unfold cutPrefix. by rewrite hasPrefix_app, sdrop_app. }
  pose proof (tx_id_plain id Hid) as Hn.
  assert (Hone : forall i, span_digit (itoa i +:+ " tx=" +:+ id) = (itoa i, " tx=" +:+ id) -> (itoa i ==s "") = false ->
    match_phase (phaseMarker +:+ itoa i +:+ " tx=" +:+ id) = Some (itoa i, id)).
  { intros k Hs Hne. unfold match_phase. rewrite Hc. cbn [mbind option_bind]. by rewrite Hs, Hne, Hc; cbn [mbind option_bind]; rewrite Hid. }
  repeat (apply elem_of_cons in Hin as [->|Hin];
    [split_and!; [by apply Hone|done|by repeat apply indexByte_app]|]).
  by apply elem_of_nil in Hin.
Qed.

Lemma marks_mark i id pos rest : 0 <= i < 4 -> matchString tx_id id = true ->
  marks_from "" pos (mark_line i id +:+ rest) =
  mkPhaseMark i id (pos + slen (mark_line i id)) :: marks_from "" (pos + slen (mark_line i id)) rest.
Proof.
  intros Hi Hid. destruct (match_mark i id Hi Hid) as (Hm & Ha & Hn).
  assert (E : mark_line i id = (phaseMarker +:+ itoa i +:+ " tx=" +:+ id) +:+ String newline "").
  { unfold mark_line. by rewrite !sapp_assoc. }
  rewrite E. set (l := phaseMarker +:+ itoa i +:+ " tx=" +:+ id) in *. rewrite slen_app, sapp_assoc, marks_from_plain by done.
  fold (srev l). change (String newline "" +:+ rest) with (String newline rest). cbn [marks_from]. rewrite Ascii.eqb_refl, srev_involutive, Hm, Ha.
  unfold slen. simpl (String.length (String newline "")). by rewrite Z.add_assoc.
Qed.

Lemma marks_complete pos a b : no_marks a -> complete a -> marks_from "" pos (a +:+ b) = marks_from "" (pos + slen a) b.
Proof.
  intros Hn [->|Hc]; [by unfold slen; rewrite Z.add_0_r|]. rewrite marks_from_app by done. by rewrite no_marks_at.
Qed.

Definition good (t : ptx) : Prop := matchString tx_id (pt_id t) = true /\ no_marks (pt_log t).

Lemma marks_log_of i pos txs rest :
  0 <= i -> i + Z.of_nat (length txs) <= 4 -> Forall good txs -> Forall (fun t => complete (pt_log t)) txs ->
  marks_from "" pos (log_of i txs +:+ rest) = marks_of i pos txs ++ marks_from "" (pos + slen (log_of i txs)) rest.
Proof.
  revert i pos. induction txs as [|t txs IH]; intros i pos Hi Hl Hg Hc; [by simpl; unfold slen; rewrite Z.add_0_r|].
  apply Forall_cons in Hg as [[Hid Hnm] Hg]. apply Forall_cons in Hc as [Hct Hc]. simpl length in Hl.
  cbn [log_of marks_of]. rewrite !sapp_assoc, marks_mark by (done || lia). cbn [app]. f_equal.
  rewrite marks_complete, IH by (done || lia). rewrite !slen_app.
  f_equal. f_equal. lia.
Qed.

Lemma marks_of_length i pos txs : length (marks_of i pos txs) = length txs.
Proof. revert i pos. induction txs as [|t txs IH]; intros i pos; [done|]. simpl. by rewrite IH. Qed.
Lemma marks_of_last i pos txs m : last (marks_of i pos txs) = Some m ->
  exists t, last txs = Some t /\ pm_tx m = pt_id t /\ pm_phase m = i + Z.of_nat (length txs) - 1.
Proof.
  revert i pos. induction txs as [|t txs IH]; intros i pos H; [done|]. cbn [marks_of] in H.
  destruct txs as [|t' txs]; [simpl in H; simplify_eq; exists t; split_and!; [done|done|simpl; lia]|].
  cbn [marks_of] in H. rewrite last_cons_cons in H.
  destruct (IH (i + 1) _ H) as (u & H1 & H2 & H3). exists u. split_and!; [done|done|]. rewrite H3. simpl length. lia.
Qed.

(** ** What the log says at a restart *)

(** The log with the last transaction's output copied to [c]. *)
Definition marked_log (txs : list ptx) (t : ptx) (c : Z) : string :=
  log_of 0 txs +:+ mark_line (Z.of_nat (length txs)) (pt_id t) +:+ stake (Z.to_nat c) (pt_log t).


(** The transactions before the last, all over and well. *)
Definition past (txs : list ptx) : Prop :=
  Forall good txs /\ Forall (fun t => pt_running t = false /\ pt_result t = "success" /\ complete (pt_log t)) txs.

Lemma past_complete txs : past txs -> Forall (fun t => complete (pt_log t)) txs.
Proof. intros [_ H]. eapply Forall_impl; [exact H|]. by intros t (_ & _ & ?). Qed.

Lemma marks_marked txs t c : (length txs < 4)%nat -> past txs -> good t -> 0 <= c <= slen (pt_log t) ->
  let size := slen (marked_log txs t c) in
  marks_from "" 0 (marked_log txs t c) =
  marks_of 0 0 txs ++ [mkPhaseMark (Z.of_nat (length txs)) (pt_id t) (size - c)].
Proof.
  intros Hl Hp [Hid Hnm] Hc size. unfold marked_log at 1.
  rewrite marks_log_of, marks_mark by (done || lia || apply Hp || by apply past_complete). f_equal.
  rewrite (marks_from_none "" 0) by done. f_equal. f_equal. unfold size, marked_log. rewrite !slen_app.
  unfold slen in *. rewrite stake_length, Nat.min_l by lia. rewrite Z2Nat.id by lia. lia.
Qed.

Lemma resume_marked txs t c : (length txs < 4)%nat -> past txs -> good t -> 0 <= c <= slen (pt_log t) ->
  resume_at (marks_from "" 0 (marked_log txs t c)) (slen (marked_log txs t c)) (pt_id t) =
  (Z.of_nat (length txs), c, marks_of 0 0 txs, false).
Proof.
  intros Hl Hp Hg Hc. rewrite marks_marked by done. unfold resume_at. rewrite last_snoc. simpl. rewrite String.eqb_refl.
  rewrite removelast_last. repeat f_equal. lia.
Qed.

Lemma resume_unmarked txs t : (length txs < 4)%nat -> past txs -> good t -> (forall u, u ∈ txs -> pt_id u <> pt_id t) ->
  resume_at (marks_from "" 0 (log_of 0 txs)) (slen (log_of 0 txs)) (pt_id t) =
  (Z.of_nat (length txs), 0, marks_of 0 0 txs, true).
Proof.
  intros Hl Hp Hg Hu. pose proof (marks_log_of 0 0 txs "") as E. rewrite sapp_nil_r in E. simpl in E.
  rewrite E, app_nil_r by (done || lia || apply Hp || by apply past_complete). unfold resume_at.
  destruct (last (marks_of 0 0 txs)) as [m|] eqn:Em.
  - destruct (marks_of_last _ _ _ _ Em) as (u & Hlast & Htx & Hph). rewrite Htx.
    assert (Hne : (pt_id u ==s pt_id t) = false) by (apply String.eqb_neq, Hu; by apply last_Some_elem_of).
    rewrite Hne. repeat f_equal. unfold int_succ. destruct (pm_phase m =? _) eqn:E1; go_bools; lia.
  - apply last_None in Em. by destruct txs as [|u txs].
Qed.

(** ** The states of a step *)

Section Step.
Variable LogDir : string.
Variable spec : JobSpec.
Variable tx_path : string -> string.
Variable SanitizeOutput : string -> string.
Variable message_text : message -> string.
Variable fuel : nat.
Notation pkg_step := (pkg_step LogDir spec tx_path).
Notation effect := (pkg_effect LogDir spec tx_path).

Definition phases_of : list pkgPhase := packagePhases (spec_packages spec).
Lemma phases_length : (length phases_of <= 4)%nat.
Proof. unfold phases_of, packagePhases. rewrite !length_app. by repeat case_match; simpl; lia. Qed.

Definition in_order (txs : list ptx) : Prop := map pt_phase txs `prefix_of` phases_of /\ NoDup (map pt_id txs).

(** No transaction runs, and the log has what all of them logged. *)
Definition between (txs : list ptx) (w : pkgs) : Prop :=
  pw_txs w = txs /\ past txs /\ in_order txs /\ pw_log w = log_of 0 txs.
(** One does, and the others are over. *)
Definition on_tx (txs : list ptx) (t : ptx) (w : pkgs) : Prop :=
  pw_txs w = txs ++ [t] /\ past txs /\ in_order (txs ++ [t]) /\ good t /\
  (pt_running t = false -> pt_result t = "success" -> complete (pt_log t)).
Definition unmarked (txs : list ptx) (t : ptx) (w : pkgs) : Prop := on_tx txs t w /\ pw_log w = log_of 0 txs.
Definition inside (txs : list ptx) (t : ptx) (c : Z) (w : pkgs) : Prop :=
  on_tx txs t w /\ 0 <= c <= slen (pt_log t) /\ pw_log w = marked_log txs t c.

Definition all_succeeded (w : pkgs) : Prop :=
  map pt_phase (pw_txs w) = phases_of /\ Forall (fun t => pt_result t = "success") (pw_txs w) /\
  pw_log w = log_of 0 (pw_txs w).
Definition shape (w : pkgs) : Prop :=
  (exists txs, between txs w) \/ (exists txs t, unmarked txs t w) \/ (exists txs t c, inside txs t c w).
Definition ok (w : pkgs) : Prop :=
  shape w /\ (forall res, pw_end w = Some res -> rt_Status res = JobSucceeded -> all_succeeded w) /\
  (pw_txs w = [] -> pw_unit w = "").

Lemma order_length txs : in_order txs -> (length txs <= 4)%nat.
Proof. intros [H _]. apply prefix_length in H. rewrite length_map in H. pose proof phases_length. lia. Qed.

(** What is over stays as it is. *)
Lemma past_stays txs txs' : past txs -> Forall2 goes_on txs txs' -> txs' = txs.
Proof.
  intros [_ Hp]. revert txs'. induction Hp as [|t txs [Hr _] _ IH]; intros txs' H; inversion H as [|? t' ? ? Ht Hts]; subst; [done|].
  rewrite (IH _ Hts). destruct Ht as (_ & _ & _ & Ht). rewrite Hr in Ht. by subst.
Qed.
Lemma on_tx_goes txs t w txs' : on_tx txs t w -> Forall2 goes_on (pw_txs w) txs' ->
  exists t', txs' = txs ++ [t'] /\ goes_on t t' /\ on_tx txs t' (with_txs txs' w).
Proof.
  intros (Htx & Hp & Ho & Hg & Hc) H. rewrite Htx in H. apply Forall2_app_inv_l in H as (txs1 & l & H1 & H2 & ->).
  apply past_stays in H1 as ->; [|done]. inversion H2 as [|? t' ? ? Ht Hnil]; subst. inversion Hnil; subst.
  exists t'. split; [done|]. split; [done|]. destruct Ht as (E1 & E2 & Hn & Ht).
  split; [done|]. split; [done|]. split.
  { unfold in_order in *. rewrite !map_app in *. simpl in *. by rewrite E1, E2. }
  split; [split; [by rewrite E1; destruct Hg|done]|].
  destruct (pt_running t) eqn:Er; [by destruct Ht|]. intros _. subst t'. by apply Hc.
Qed.

(** A transaction some time later. *)
Definition later (t t' : ptx) : Prop :=
  pt_id t' = pt_id t /\ pt_phase t' = pt_phase t /\ (exists more, pt_log t' = pt_log t +:+ more) /\
  (pt_running t = false -> t' = t).
Lemma later_refl t : later t t.
Proof. split_and!; try done. exists "". by rewrite sapp_nil_r. Qed.
Lemma later_goes t t' : goes_on t t' -> later t t'.
Proof.
  intros (? & ? & _ & H). split_and!; [done|done| |].
  - destruct (pt_running t); [by destruct H|]. subst. exists "". by rewrite sapp_nil_r.
  - intros E. by rewrite E in H.
Qed.
Lemma later_trans t1 t2 t3 : later t1 t2 -> later t2 t3 -> later t1 t3.
Proof.
  intros (E1 & E2 & [m1 E3] & E4) (F1 & F2 & [m2 F3] & F4). split_and!; [congruence|congruence| |].
  - exists (m1 +:+ m2). by rewrite F3, E3, sapp_assoc.
  - intros H. specialize (E4 H). subst t2. auto.
Qed.
Lemma later_log t t' c : later t t' -> 0 <= c <= slen (pt_log t) ->
  c <= slen (pt_log t') /\ stake (Z.to_nat c) (pt_log t') = stake (Z.to_nat c) (pt_log t).
Proof.
  intros (_ & _ & [more ->] & _) Hc. rewrite slen_app. split; [unfold slen in *; lia|].
  rewrite <-(stake_sdrop (Z.to_nat c) (pt_log t)) at 1. rewrite sapp_assoc.
  assert (E : String.length (stake (Z.to_nat c) (pt_log t)) = Z.to_nat c) by (rewrite stake_length; unfold slen in *; lia).
  rewrite <-E at 1. by rewrite stake_app.
Qed.
#[local] Hint Resolve later_refl later_goes later_trans : core.

(** ** The stages of a job that has not ended *)

Definition live (w : pkgs) : Prop := pw_end w = None /\ (pw_txs w = [] -> pw_unit w = "").

(** What holds however long the program waits. *)
Definition stable (I : pkgs -> Prop) : Prop := forall w, I w ->
  live w /\ shape w /\ forall txs', Forall2 goes_on (pw_txs w) txs' -> I (with_txs txs' w).
Lemma stable_ok I w : stable I -> I w -> ok w.
Proof. intros HI Hw. destruct (HI w Hw) as ([He Hu] & Hs & _). split_and!; [done|by rewrite He|done]. Qed.

Definition at_between (txs : list ptx) (w : pkgs) : Prop := between txs w /\ live w.
Definition at_unmarked (txs : list ptx) (t : ptx) (w : pkgs) : Prop := exists t', later t t' /\ unmarked txs t' w /\ live w.
Definition at_inside (txs : list ptx) (t : ptx) (c : Z) (w : pkgs) : Prop :=
  exists t', later t t' /\ inside txs t' c w /\ live w.

Lemma live_goes w txs' : live w -> Forall2 goes_on (pw_txs w) txs' -> live (with_txs txs' w).
Proof. intros [He Hu] H. split; [done|]. simpl. intros ->. apply Hu. by inversion H. Qed.

Lemma stable_between txs : stable (at_between txs).
Proof.
  intros w [Hb Hl]. split_and!; [done|by left; exists txs|]. intros txs' Hg. split; [|by apply live_goes].
  destruct Hb as (E & Hp & Hr). rewrite E in Hg. apply past_stays in Hg as ->; [|done]. done.
Qed.
Lemma stable_unmarked txs t : stable (at_unmarked txs t).
Proof.
  intros w (t1 & Ht & [Hu Hlog] & Hl). split_and!; [done|right; left; by exists txs, t1|]. intros txs' Hg.
  destruct (on_tx_goes _ _ _ _ Hu Hg) as (t2 & _ & Hg' & Hu'). exists t2. split; [eauto|]. split; [done|by apply live_goes].
Qed.
Lemma inside_later txs t t' c w w' : inside txs t c w -> later t t' -> on_tx txs t' w' -> pw_log w' = pw_log w ->
  inside txs t' c w'.
Proof.
  intros (_ & Hc & Hl) Ht Ho El. destruct (later_log _ _ _ Ht Hc) as [Hc' Es]. split; [done|]. split; [lia|].
  rewrite El, Hl. unfold marked_log. destruct Ht as (-> & _). by rewrite Es.
Qed.
Lemma stable_inside txs t c : stable (at_inside txs t c).
Proof.
  intros w (t1 & Ht & Hi & Hl). split_and!; [done|right; right; by exists txs, t1, c|]. intros txs' Hg.
  destruct (on_tx_goes _ _ _ _ (proj1 Hi) Hg) as (t2 & _ & Hg' & Hu'). exists t2. split; [eauto|].
  split; [|by apply live_goes]. by eapply inside_later; [exact Hi|auto|done|].
Qed.
#[local] Hint Resolve stable_between stable_unmarked stable_inside : core.
Lemma between_ok txs w : at_between txs w -> ok w.
Proof. intros H. by eapply stable_ok, H. Qed.
Lemma unmarked_ok txs t w : at_unmarked txs t w -> ok w.
Proof. intros H. by eapply stable_ok, H. Qed.
Lemma inside_ok txs t c w : inside txs t c w -> live w -> ok w.
Proof. intros Hi Hl. eapply (stable_ok (at_inside txs t c)); [done|by exists t]. Qed.
#[local] Hint Resolve between_ok unmarked_ok inside_ok : core.

(** ** What the calls of the runner do *)

Notation wpp := (wpc pkg_step ok).

(** Calls that only look. *)
Definition pkg_quiet (c : jcall) : Prop :=
  match c with PkgStart _ _ | CopyTo _ _ | AppendFile _ _ | DbSetUnit _ _ | DbFinish _ _ _ => False | _ => True end.
Lemma quiet_effect w c x w' : pkg_quiet c -> effect w c x w' -> w' = w.
Proof. destruct c; try done; intros _ H; simpl in H; try done; by destruct H. Qed.

Lemma wpp_call {A} I c (f : janswer c -> jprog A) w Q :
  stable I -> I w -> (forall x w1 w2, I w1 -> effect w1 c x w2 -> wpp (f x) w2 Q) -> wpp (pbind (jdo c) f) w Q.
Proof.
  intros HI Hw Hf. apply wpc_call; [by eapply stable_ok|]. intros x w2 (txs' & Hg & He).
  eapply Hf; [|done]. by apply (HI w Hw).
Qed.
Lemma wpp_quiet {A} I c (f : janswer c -> jprog A) w Q :
  pkg_quiet c -> stable I -> I w -> (forall x w1, I w1 -> effect w1 c x w1 -> wpp (f x) w1 Q) -> wpp (pbind (jdo c) f) w Q.
Proof.
  intros Hq HI Hw Hf. eapply wpp_call; [done|done|]. intros x w1 w2 H1 He. pose proof (quiet_effect _ _ _ _ Hq He) as ->. auto.
Qed.
Lemma wpp_only {A} I (p : jprog A) w (Q : A -> pkgs -> Prop) :
  stable I -> only pkg_quiet p -> I w -> (forall a w1, I w1 -> Q a w1) -> wpp p w Q.
Proof.
  intros HI. revert w. induction p as [a|c k IH|]; intros w Hp Hw HQ.
  - split; [by eapply stable_ok|auto].
  - destruct Hp as [Hc Hk]. apply (wpp_quiet I c k); [done..|]. intros x w1 H1 _. by apply IH.
  - split; [by eapply stable_ok|done].
Qed.

Lemma shape_end w u e : shape w -> shape (mkPkgs (pw_log w) u (pw_txs w) e).
Proof. done. Qed.

(** The end of a job that was at [I]. *)
Lemma wpp_finish I id res w Q :
  stable I -> I w -> (rt_Status res = JobSucceeded -> forall w, I w -> all_succeeded w) ->
  (forall x w', ok w' -> Q x w') -> wpp (finish id res) w Q.
Proof.
  intros HI Hw Hs HQ. unfold finish. destruct (ends_job _); simpl negb; cbv iota; [|by split; eauto using stable_ok].
  apply (wpp_quiet I); [done|done|done|]. intros _ w1 H1 _. apply (wpp_quiet I); [done|done|done|]. intros now w2 H2 _.
  apply (wpp_call I); [done|done|]. intros x w3 w4 H3 He. clear w w1 w2 Hw H1 H2.
  assert (ok w4) as Hok; [|by apply wpc_ret; auto].
  pose proof (stable_ok _ _ HI H3) as Ho. simpl in He. destruct x as [e|]; [by subst|]. case_match; subst; [|done].
  destruct Ho as (Hsh & _ & Hu). split_and!; [by apply shape_end| |done]. intros r [= <-] Hr. by apply (Hs Hr w3 H3).
Qed.

Lemma only_changed done : only pkg_quiet (count_changed done).
Proof.
  induction done as [|tx done IH]; [done|]. split; [done|]. intros st. simpl. apply only_bind; [by destruct st|]. intros c.
  apply only_bind; [exact IH|]. by intros [a b].
Qed.
Lemma only_ended status summary exit done : only pkg_quiet (ended status summary exit done).
Proof. unfold ended. case_match; [done|]. apply only_bind; [apply only_changed|]. intros [n c]. by repeat case_match. Qed.
Lemma yields_tx_ended status summary exit done : yields (fun res => rt_Status res = status) (ended status summary exit done).
Proof. unfold ended. case_match; [done|]. apply yields_bind. intros [n c]. by repeat case_match. Qed.

(** A program that only looks, and what its result is. *)
Lemma wpp_yields {A} I P (p : jprog A) w (Q : A -> pkgs -> Prop) :
  stable I -> only pkg_quiet p -> yields P p -> I w -> (forall a w1, P a -> I w1 -> Q a w1) -> wpp p w Q.
Proof.
  intros HI. revert w. induction p as [a|c k IH|]; intros w Hp HP Hw HQ.
  - split; [by eapply stable_ok|auto].
  - destruct Hp as [Hc Hk]. apply (wpp_quiet I c k); [done..|]. intros x w1 H1 _. by apply IH.
  - split; [by eapply stable_ok|done].
Qed.

Lemma wpp_ended I status summary exit done w Q :
  stable I -> I w -> (forall res w1, rt_Status res = status -> I w1 -> Q res w1) -> wpp (ended status summary exit done) w Q.
Proof.
  intros HI Hw HQ. apply (wpp_yields I (fun res => rt_Status res = status));
    [done|apply only_ended|apply yields_tx_ended|done|done].
Qed.

(** A job that ends at [I], not well unless all of it went well. *)
Lemma wpp_end I j status summary exit done w :
  stable I -> I w -> (status = JobSucceeded -> forall w, I w -> all_succeeded w) ->
  wpp (end_packages j (ended status summary exit done)) w (fun _ => ok).
Proof.
  intros HI Hw Hs. apply wpc_bind, (wpp_ended I); [done|done|]. intros res w1 <- H1. apply wpc_bind.
  apply (wpp_finish I); [done|done|done|]. intros x w2 H2. by apply wpc_ret.
Qed.

(** ** Following a transaction *)

Definition our_job (j : Job) : Prop := job_Spec j = spec /\ job_LogPath j = job_log LogDir spec.

Lemma on_tx_in txs t w : on_tx txs t w -> t ∈ pw_txs w.
Proof. intros [-> _]. apply elem_of_app. right. by apply list_elem_of_singleton. Qed.
Lemma same_id (l : list ptx) t u : NoDup (map pt_id l) -> t ∈ l -> u ∈ l -> pt_id t = pt_id u -> t = u.
Proof.
  induction l as [|v l IH]; simpl; intros Hn Ht Hu E; [by apply not_elem_of_nil in Ht|].
  apply NoDup_cons in Hn as [Hv Hn].
  apply elem_of_cons in Ht as [->|Ht], Hu as [->|Hu]; [done| | |by auto]; destruct Hv; [rewrite E|rewrite <-E];
    by apply (list_elem_of_fmap_2 pt_id).
Qed.

Lemma copied_log txs t c : 0 <= c <= slen (pt_log t) ->
  marked_log txs t c +:+ sdrop (Z.to_nat c) (pt_log t) = marked_log txs t (slen (pt_log t)).
Proof.
  intros Hc. unfold marked_log. rewrite !sapp_assoc, stake_sdrop. unfold slen. by rewrite Nat2Z.id, stake_all.
Qed.

Lemma wpp_copy j txs t c w Q :
  our_job j -> inside txs t c w -> live w ->
  (forall t' w' n, later t t' -> inside txs t' n w' -> live w' -> (pt_running t = false -> n = slen (pt_log t)) -> Q n w') ->
  wpp (copyOutput j (tx_path (pt_id t)) c) w Q.
Proof.
  intros [_ Ej] Hi Hl HQ. unfold copyOutput. apply (wpp_quiet (at_inside txs t c)); [done|eauto|by exists t|].
  intros data w1 (t1 & Ht1 & Hi1 & Hl1) [_ He]. clear w Hi Hl.
  rewrite (He t1) by (by eapply on_tx_in, Hi1 || by destruct Ht1 as (-> & _)). cbv iota.
  apply (wpp_quiet (at_inside txs t1 c)); [done|eauto|by exists t1|]. intros opened w2 H2 [_ ->]. simpl negb. cbv iota.
  apply (wpp_call (at_inside txs t1 c)); [eauto|done|]. intros x w3 w4 (t3 & Ht3 & Hi3 & Hl3) [-> ->]. rewrite Ej, String.eqb_refl.
  pose proof (proj1 (proj2 Hi1)) as Hc. clear w1 w2 Hi1 Hl1 He H2.
  assert (En : c + Z.of_nat (String.length (sdrop (Z.to_nat c) (pt_log t1))) = slen (pt_log t1)).
  { rewrite sdrop_length. unfold slen in *. lia. }
  rewrite En. set (w4 := with_log _ w3).
  assert (Hi4 : inside txs t3 (slen (pt_log t1)) w4).
  { destruct (later_log t1 t3 (slen (pt_log t1)) Ht3) as [Hc3 Es]; [lia|]. split; [by apply Hi3|]. split; [lia|].
    simpl. destruct Hi3 as (_ & Hc' & ->). destruct (later_log t1 t3 c Ht3 Hc) as [_ Es'].
    transitivity (marked_log txs t1 (slen (pt_log t1))).
    - rewrite <-(copied_log txs t1 c Hc). f_equal. unfold marked_log. destruct Ht3 as (-> & _). by rewrite Es'.
    - unfold marked_log. destruct Ht3 as (-> & _). by rewrite Es. }
  assert (Hl4 : live w4) by done.
  apply wpc_ret; [by eauto|].
  eapply HQ; [by eapply later_trans|done|done|]. intros Hr. destruct Ht1 as (_ & _ & _ & E). by rewrite (E Hr).
Qed.

Lemma wpp_wait n j txs t c cancelled w Q :
  our_job j -> inside txs t c w -> live w ->
  (forall t' w' wt, later t t' -> inside txs t' (wt_copied wt) w' -> live w' ->
     (forall r code, wt_end wt = Some (r, code) -> pt_running t' = false /\ r = pt_result t' /\ wt_copied wt = slen (pt_log t')) ->
     Q wt w') ->
  wpp (wait_tx n j (pt_id t) cancelled c) w Q.
Proof.
  intros Hj. revert t c cancelled w. induction n as [|n IH]; intros t c cancelled w Hi Hl HQ.
  { split; [|done]. eauto. }
  cbn [wait_tx]. apply (wpp_quiet (at_inside txs t c)); [done|eauto|by exists t|].
  intros st w1 (t1 & Ht1 & Hi1 & Hl1) He. clear w Hi Hl.
  assert (Hok : ok w1) by eauto.
  destruct st as [st|e]; [|by apply wpc_ret; [done|]; eapply HQ].
  destruct He as (_ & u & Hu & Eid & Er & Eres & Ep). assert (u = t1) as ->.
  { pose proof (on_tx_in _ _ _ (proj1 Hi1)) as Hin. destruct Hi1 as ((Etx & _ & (_ & Hnd) & _) & _). rewrite <-Etx in Hnd.
    eapply same_id; [done|done|done|]. by destruct Ht1 as (-> & _). }
  assert (pt_id t = pt_id t1) as Et by (by destruct Ht1 as (-> & _)).
  rewrite Ep, Et. apply wpc_bind, (wpp_copy j txs t1 c); [done..|]. intros t2 w2 n2 Ht2 Hi2 Hl2 Hn.
  assert (later t t2) as Ht by eauto. clear Hok Hi1 Hl1.
  assert (Hok : ok w2) by eauto.
  assert (Et2 : pt_id t1 = pt_id t2) by (by destruct Ht2 as (-> & _)). rewrite Er.
  destruct (pt_running t1) eqn:Erun; simpl negb; cbv iota.
  - assert (Hgo : forall b w3, at_inside txs t2 n2 w3 -> wpp (wait_tx n j (pt_id t1) b n2) w3 Q).
    { intros b w3 (t3 & Ht3 & Hi3 & Hl3). rewrite Et2. replace (pt_id t2) with (pt_id t3) by (by destruct Ht3 as (-> & _)).
      apply IH; [done|done|]. intros t' w' wt Ht' Hi' Hl' Hw.
      apply (HQ t'); [|done..]. by eapply later_trans, later_trans. }
    destruct cancelled; (apply (wpp_quiet (at_inside txs t2 n2)); [done|eauto|by exists t2|]); intros; by apply Hgo.
  - apply wpc_ret; [done|]. eapply HQ; [done|done|done|]. intros r code [= <- <-].
    assert (t2 = t1) as -> by (by apply Ht2). split_and!; auto.
Qed.

Lemma no_suffix s : indexByte s newline = None -> hasSuffix s (String newline "") = false.
Proof.
  intros H. destruct (hasSuffix s _) eqn:E; [|done]. apply hasSuffix_split in E as [a ->]. clear -H. exfalso.
  induction a as [|c a IH]; [done|]. change (String c a +:+ ?b) with (String c (a +:+ b)) in H.
  rewrite indexByte_cons in H. case_match; [done|]. apply IH. by destruct (indexByte _ _).
Qed.

(** The mark of a transaction is written. *)
Lemma wpp_mark j txs t w Q :
  our_job j -> at_unmarked txs t w ->
  (forall t' w', later t t' -> inside txs t' 0 w' -> live w' -> Q tt w') ->
  wpp (appendLog j (phaseMarker +:+ itoa (Z.of_nat (length txs)) +:+ " tx=" +:+ pt_id t)) w Q.
Proof.
  intros [_ Ej] Hw HQ. assert (H := Hw). destruct H as (t0 & Ht0 & ((_ & Hp & Ho & [Hid _] & _) & _) & _).
  assert (Et : pt_id t0 = pt_id t) by (by destruct Ht0). rewrite Et in Hid.
  assert (Hi : 0 <= Z.of_nat (length txs) < 4).
  { apply order_length in Ho. rewrite length_app in Ho. simpl in Ho. lia. }
  destruct (match_mark _ _ Hi Hid) as (_ & _ & Hn). unfold appendLog. rewrite (no_suffix _ Hn).
  replace (_ ==s "") with false by done. cbv iota zeta. set (l := _ +:+ String newline "").
  assert (El : l = mark_line (Z.of_nat (length txs)) (pt_id t)) by (unfold l, mark_line; by rewrite !sapp_assoc).
  clearbody l. subst l.
  apply (wpp_call (at_unmarked txs t) _ Ret); [eauto|done|]. intros [] w1 w2 (t1 & Ht1 & [Hu Hlog] & Hl) He.
  cbn [pkg_effect] in He. rewrite Ej, String.eqb_refl in He. subst w2.
  assert (Hin : inside txs t1 0 (with_log (pw_log w1 +:+ mark_line (Z.of_nat (length txs)) (pt_id t)) w1)).
  { split; [done|]. split; [unfold slen; lia|]. cbn [with_log pw_log]. rewrite Hlog. unfold marked_log.
    destruct Ht1 as (-> & _). by rewrite sapp_nil_r. }
  assert (Hl' : live (with_log (pw_log w1 +:+ mark_line (Z.of_nat (length txs)) (pt_id t)) w1)) by done.
  apply wpc_ret; [by eauto|by eapply HQ].
Qed.

Lemma phase_next txs ph : in_order txs -> phases_of !! length txs = Some ph -> forall id,
  (forall t, t ∈ txs -> pt_id t <> id) -> in_order (txs ++ [mkPtx id ph "" true ""]).
Proof.
  intros [Hp Hn] Hph id Hid. unfold in_order. rewrite !map_app. simpl. split.
  - destruct Hp as [k Hk]. rewrite Hk in Hph |- *. rewrite <-(length_map pt_phase) in Hph.
    rewrite lookup_app_r, Nat.sub_diag in Hph by done. destruct k as [|p k]; [done|]. simpl in Hph. simplify_eq.
    exists k. by rewrite <-app_assoc.
  - apply NoDup_app. split_and!; [done| |apply NoDup_singleton]. intros i Hi Hi'.
    apply list_elem_of_singleton in Hi' as ->. apply list_elem_of_fmap_1 in Hi as (t & E & Ht). by apply (Hid t).
Qed.

Lemma wpp_start j i txs ph done w Q :
  our_job j -> at_between txs w -> phases_of !! length txs = Some ph -> i = Z.of_nat (length txs) ->
  (forall res w', rt_Status res <> JobSucceeded -> at_between txs w' -> Q (inl res) w') ->
  (forall t j' w', our_job j' -> pt_id t <> "" -> pt_phase t = ph -> inside txs t 0 w' -> live w' -> Q (inr (j', pt_id t)) w') ->
  wpp (start_tx SanitizeOutput j i ph done) w Q.
Proof.
  intros [Es Ej] Hw Hph -> Hend Hon. unfold start_tx.
  assert (Hstop : forall status summary w', status <> JobSucceeded -> at_between txs w' ->
    wpp (res <-- ended status summary None done ;; Ret (inl res)) w' Q).
  { intros status summary w' Hne H'. apply wpc_bind, (wpp_ended (at_between txs)); [eauto|done|]. intros res w2 <- H2.
    apply wpc_ret; eauto. }
  apply (wpp_quiet (at_between txs)); [done|eauto|done|]. intros gone w1 H1 _. clear w Hw.
  destruct gone; [by apply Hstop|].
  apply (wpp_call (at_between txs)); [eauto|done|]. intros [id|e] w2 w3 H2 He; cbn [pkg_effect] in He.
  2: { subst w3. by apply Hstop. }
  destruct He as (Hid & Hfresh & Ew). destruct H2 as [(Etx & Hp & Ho & Hl) [He Hu]].
  rewrite Etx in Hfresh, Ew. destruct ph as [kind names]. set (t := mkPtx id (mkPkgPhase kind names) "" true "").
  assert (Hw3 : at_unmarked txs t w3).
  { subst w3. exists t. split; [done|]. split; [split; [|done]|].
    - split; [done|]. split; [done|]. split; [by apply phase_next|]. by split.
    - split; [done|]. intros E. by destruct txs. }
  clear w1 w2 H1 Etx Hl He Hu Ew.
  unfold SetUnit. apply wpc_bind. apply (wpp_call (at_unmarked txs t)); [eauto|done|].
  intros x w4 w5 H4 [-> ->]. set (w5 := if _ ==s _ then _ else w4).
  assert (H5 : at_unmarked txs t w5).
  { destruct H4 as (t' & Ht' & Hun & He & Hu). exists t'. split; [done|]. unfold w5. case_match; [|by split].
    split; [by destruct Hun|]. split; [done|]. simpl. intros E. destruct Hun as ((E' & _) & _). rewrite E' in E. by destruct txs. }
  apply wpc_ret; [eauto|]. clear w3 Hw3. set (j' := mkJob _ _ _ _). assert (our_job j') as Hj' by done.
  apply wpc_bind, (wpp_mark j' txs t); [done..|]. intros t' w' Ht' Hi Hlv.
  apply wpc_ret; [by eauto|].
  destruct Ht' as (E1 & E2 & _). change id with (pt_id t). rewrite <-E1. apply Hon; [done| |done|done|done].
  rewrite E1. simpl. by intros ->.
Qed.

Lemma phase_end_end ph wt done p : phase_end ph wt done = Some p ->
  exists status summary exit, p = ended status summary exit done /\ status <> JobSucceeded.
Proof.
  unfold phase_end. destruct (default _ _) as [r code]. repeat case_match; intros; simplify_eq; by do 3 eexists.
Qed.
Lemma phase_end_on ph wt done : phase_end ph wt done = None -> exists code, wt_end wt = Some ("success", code).
Proof.
  unfold phase_end. destruct (wt_end wt) as [[r code]|]; simpl; repeat case_match; intros; go_bools; simplify_eq. by exists code.
Qed.

Lemma log_of_snoc i txs t : log_of i (txs ++ [t]) = log_of i txs +:+ mark_line (i + Z.of_nat (length txs)) (pt_id t) +:+ pt_log t.
Proof.
  revert i. induction txs as [|u txs IH]; intros i; cbn [app log_of length]; [by rewrite Z.add_0_r, sapp_nil_r|].
  rewrite IH, !sapp_assoc. replace (i + 1 + Z.of_nat (length txs)) with (i + Z.of_nat (S (length txs))) by lia. done.
Qed.
Lemma marked_all txs t : marked_log txs t (slen (pt_log t)) = log_of 0 (txs ++ [t]).
Proof. rewrite log_of_snoc. unfold marked_log, slen. by rewrite Nat2Z.id, stake_all. Qed.

(** The last transaction is over and well, and copied: none runs. *)
Lemma inside_between txs t w : inside txs t (slen (pt_log t)) w -> pt_running t = false -> pt_result t = "success" ->
  between (txs ++ [t]) w.
Proof.
  intros ((Etx & [Hg Hp] & Ho & Hgt & Hc) & _ & Hl) Hr Hs. split; [done|]. split; [|split; [done|by rewrite Hl, marked_all]].
  split; (apply Forall_app; split; [done|]); apply Forall_singleton; auto.
Qed.
Lemma between_inside txs t w : between (txs ++ [t]) w -> inside txs t (slen (pt_log t)) w.
Proof.
  intros (Etx & [Hg Hp] & Ho & Hl). rewrite !Forall_app, !Forall_singleton in Hg, Hp.
  destruct Hg as [Hg Hgt], Hp as [Hp Hpt]. destruct Hpt as (? & ? & ?).
  split; [|split; [unfold slen; lia|by rewrite marked_all]]. split; [done|]. split; [done|]. by split.
Qed.

Lemma wpp_run rest : forall j i txs tx copied done w,
  our_job j -> rest = drop (length txs) phases_of -> i = Z.of_nat (length txs) ->
  (tx = "" /\ at_between txs w) \/ (exists t, tx = pt_id t /\ tx <> "" /\ inside txs t copied w /\ live w) ->
  wpp (run_phases SanitizeOutput fuel j i rest tx copied done) w (fun _ => ok).
Proof.
  induction rest as [|ph rest IH]; intros j i txs tx copied done w Hj Er Ei Hst.
  - destruct Hst as [[-> Hb]|(t & _ & _ & ((_ & _ & [Hp _] & _) & _) & _)].
    + apply (wpp_end (at_between txs)); [eauto|done|]. intros _ w' [(Etx & [_ Hs] & [Hp _] & Hl) _].
      split_and!.
      * rewrite Etx. destruct Hp as [k Hk]. unfold phases_of in *. rewrite Hk in Er |- *.
        rewrite <-(length_map pt_phase), drop_app_length in Er. by rewrite <-Er, app_nil_r.
      * rewrite Etx. eapply Forall_impl; [exact Hs|]. by intros t (_ & ? & _).
      * by rewrite Etx.
    + exfalso. apply prefix_length in Hp. rewrite length_map, length_app in Hp. simpl in Hp.
      apply (f_equal length) in Er. rewrite length_drop in Er. simpl in Er. lia.
  - assert (Hph : phases_of !! length txs = Some ph).
    { rewrite <-(Nat.add_0_r (length txs)), <-lookup_drop, <-Er. done. }
    assert (Hrest : rest = drop (S (length txs)) phases_of).
    { by erewrite drop_S in Er by done; simplify_eq. }
    cbn [run_phases]. apply wpc_bind.
    assert (Hgo : forall j t c w, our_job j -> inside txs t c w -> live w ->
      wpp (w <-- wait_tx fuel j (pt_id t) false c ;;
           let done := if negb (ph_kind ph ==s pkgUpdate) then done ++ [pt_id t] else done in
           match phase_end ph w done with
           | Some res => end_packages j res
           | None => run_phases SanitizeOutput fuel j (i + 1) rest "" (wt_copied w) done
           end) w (fun _ => ok)).
    { clear Hst. intros j1 t c w1 Hj1 Hi1 Hl1. apply wpc_bind, (wpp_wait fuel j1 txs t c); [done..|].
      intros t' w2 wt Ht' Hi2 Hl2 Hwt. cbv zeta. destruct (phase_end ph wt _) as [p|] eqn:Ep.
      - apply phase_end_end in Ep as (status & summary & exit & -> & Hne).
        apply (wpp_end (at_inside txs t' (wt_copied wt))); [eauto|by exists t'|done].
      - apply phase_end_on in Ep as [code Ec]. destruct (Hwt _ _ Ec) as (Hr & Hs & Hc). rewrite Hc in Hi2.
        apply (IH j1 (i + 1) (txs ++ [t'])); [done| | |left].
        + by rewrite length_app, Nat.add_1_r.
        + rewrite length_app. simpl. lia.
        + split; [done|]. split; [|done]. by apply inside_between. }
    destruct Hst as [[-> Hb]|(t & -> & Hne & Hi & Hl)].
    + apply (wpp_start j i txs ph); [done..| |].
      * intros res w1 Hres H1. apply wpc_bind. apply (wpp_finish (at_between txs)); [eauto|done|done|].
        intros x w2 H2. by apply wpc_ret.
      * intros t j1 w1 Hj1 _ _ Hi1 Hl1. by apply Hgo.
    + replace (pt_id t ==s "") with false by (symmetry; by apply String.eqb_neq).
      apply wpc_ret; [by eauto|]. by apply Hgo.
Qed.

(** ** Taking a job back *)

Lemma unit_tx_unit ph id : tx_unit ph id <> "" -> unit_tx (tx_unit ph id) = Some id /\ (ph_kind ph ==s pkgUpdate) = false.
Proof.
  unfold tx_unit. destruct (ph_kind ph ==s pkgUpdate); simpl negb; cbv iota; [done|]. intros _. split; [|done].
  unfold unit_tx, cutPrefix. rewrite hasPrefix_app, sdrop_app. cbn [mbind option_bind].
  by rewrite hasSuffix_app, trimSuffix_app.
Qed.

(** A job that is taken back was in its last transaction. *)
Lemma live_last w : ok w -> live w -> pw_unit w <> "" ->
  (exists txs t, at_unmarked txs t w) \/ (exists txs t c, inside txs t c w /\ live w).
Proof.
  intros (Hs & _ & Hu) Hl Hne. destruct Hs as [(txs & Hb)|[(txs & t & Hun)|(txs & t & c & Hi)]].
  - right. destruct (exists_last (l := txs)) as (l & t & ->).
    { intros ->. destruct Hb as (E & _). by apply Hne, Hu. }
    by exists l, t, (slen (pt_log t)); split; [apply between_inside|].
  - left. exists txs, t. by exists t.
  - right. by exists txs, t, c.
Qed.

Lemma phase_of txs t w : on_tx txs t w -> phase_at phases_of (Z.of_nat (length txs)) = Some (pt_phase t) /\
  Z.of_nat (length txs) < Z.of_nat (length phases_of) /\ (length txs < 4)%nat.
Proof.
  intros (_ & _ & [[k Hk] Hn] & _). rewrite map_app in Hk. simpl in Hk. rewrite <-app_assoc in Hk. simpl in Hk.
  assert (Hlen : (length txs < length phases_of)%nat) by (rewrite Hk, length_app, length_map; simpl; lia).
  pose proof phases_length. unfold phase_at.
  replace (_ && _) with true by (symmetry; apply andb_true_intro; split; [apply Z.leb_le|apply Z.ltb_lt]; lia).
  rewrite Nat2Z.id. split; [|lia]. rewrite Hk. by rewrite lookup_app_r; rewrite length_map, ?Nat.sub_diag.
Qed.

Lemma resume_run j txs t c w done : our_job j -> inside txs t c w -> live w -> (ph_kind (pt_phase t) ==s pkgUpdate) = false ->
  wpp (let from := Z.of_nat (length txs) in
       if from <? 0 then Stuck
       else
         match phase_at phases_of from with
         | Some ph =>
             if ph_kind ph ==s pkgUpdate
             then Ret (Some ("the job's log does not say which transaction " +:+ pt_id t +:+ " was"))
             else run_phases SanitizeOutput fuel j from (drop (Z.to_nat from) phases_of) (pt_id t) c done ;;; Ret None
         | None => Ret (Some ("the job's log does not say which transaction " +:+ pt_id t +:+ " was"))
         end) w (fun _ => ok).
Proof.
  intros Hj Hi Hl Hk. cbv zeta. destruct (phase_of _ _ _ (proj1 Hi)) as (-> & _ & _).
  replace (_ <? 0) with false by (symmetry; apply Z.ltb_ge; lia). rewrite Hk, Nat2Z.id. apply wpc_bind.
  eapply wpc_mono; [apply (wpp_run _ j _ txs)|done|intros ? w' H'; by apply wpc_ret]; [done..|]. right. exists t.
  split_and!; [done| |done|done]. destruct Hi as ((_ & _ & _ & [Hid _] & _) & _). by intros E; rewrite E in Hid.
Qed.

Lemma wpp_resume at_ w : ok w -> live w -> pw_unit w <> "" -> unit_recorded w ->
  wpp (packages_Resume message_text SanitizeOutput fuel (started_job LogDir spec (pw_unit w) at_)) w (fun _ => ok).
Proof.
  intros Hok Hl Hne Hrec. unfold packages_Resume. set (j := started_job _ _ _ _). assert (our_job j) as Hj by done.
  change (packagePhases _) with phases_of. change (job_Unit j) with (pw_unit w).
  assert (Hlast : forall txs t, pw_txs w = txs ++ [t] -> unit_tx (pw_unit w) = Some (pt_id t) /\
    (ph_kind (pt_phase t) ==s pkgUpdate) = false).
  { intros txs t E. unfold unit_recorded in Hrec. rewrite E, last_snoc in Hrec.
    rewrite (Hrec t eq_refl) in Hne |- *. by apply unit_tx_unit. }
  unfold readPhaseMarks. apply wpc_bind, wpc_bind.
  destruct (live_last w Hok Hl Hne) as [(txs & t & Hw)|(txs & t & c & Hi & _)].
  - destruct Hw as (t0 & Ht0 & Hun & _). destruct (Hlast _ _ (proj1 (proj1 Hun))) as [-> Hk]. clear Hlast Hrec Hne Hok.
    apply (wpp_quiet (at_unmarked txs t0)); [done|eauto|by exists t0|].
    intros x w1 H1 [_ He]. rewrite (He eq_refl). apply wpc_ret; [eauto|]. destruct H1 as (t1 & Ht1 & [Ho1 Hl1] & Hlv1).
    apply wpc_ret; [by eapply unmarked_ok; exists t1|].
    assert (Ei : pt_id t1 = pt_id t0) by apply Ht1. assert (Eph : pt_phase t1 = pt_phase t0) by apply Ht1.
    destruct (phase_of _ _ _ Ho1) as (_ & Hlen & Hlt). rewrite Hl1, <-Ei.
    destruct Ho1 as (Etx & Hp & Hord & Hg & Hc). rewrite resume_unmarked; [|done..|].
    2: { intros u Hu E. destruct Hord as [_ Hnd]. rewrite map_app in Hnd. apply NoDup_app in Hnd as (_ & Hnd & _).
         apply (Hnd (pt_id u)); [by apply (list_elem_of_fmap_2 pt_id)|]. rewrite E. by apply list_elem_of_singleton. }
    replace (_ <? _) with true by (symmetry; by apply Z.ltb_lt). simpl andb. cbv iota.
    apply wpc_bind, (wpp_mark j txs t1); [done|by exists t1|]. intros t2 w2 Ht2 Hi2 Hlv2.
    replace (pt_id t1) with (pt_id t2) by apply Ht2. apply resume_run; [done..|].
    replace (pt_phase t2) with (pt_phase t0); [done|]. rewrite <-Eph. symmetry. apply Ht2.
  - destruct (Hlast _ _ (proj1 (proj1 Hi))) as [-> Hk]. clear Hlast Hrec Hne Hok.
    apply (wpp_quiet (at_inside txs t c)); [done|eauto|by exists t|].
    intros x w1 H1 [_ He]. rewrite (He eq_refl). destruct H1 as (t1 & Ht1 & Hi1 & Hlv1).
    apply wpc_ret; [eauto|]. apply wpc_ret; [eauto|].
    destruct (phase_of _ _ _ (proj1 Hi1)) as (_ & Hlen & Hlt). destruct Hi1 as (Ho1 & Hc1 & Hlog1). rewrite Hlog1.
    assert (Ei : pt_id t1 = pt_id t) by apply Ht1. rewrite <-Ei.
    rewrite resume_marked; [|done|apply Ho1|apply Ho1|done]. simpl andb. cbv iota. cbn [pbind].
    apply resume_run; [done|done|done|]. replace (pt_phase t1) with (pt_phase t) by (symmetry; apply Ht1). done.
Qed.

Lemma lives_ok at_ w : lives LogDir spec tx_path SanitizeOutput message_text fuel at_ w -> ok w.
Proof.
  induction 1 as [o w Hr|w o w' Hl IH He Hne Hrec Hr].
  - apply (wpc_sound _ ok _ _ (fun _ => ok)) in Hr as [? _]; [done|]. unfold packages_Start. apply wpc_bind.
    eapply wpc_mono; [apply (wpp_run _ _ _ [])|done|intros ? w' H'; by apply wpc_ret]; [done..|]. left.
    split; [done|]. split; [|done]. repeat split; try done; [by exists phases_of|apply NoDup_nil_2].
  - apply (wpc_sound _ ok _ _ (fun _ => ok)) in Hr as [? _]; [done|].
    apply wpp_resume; [done|split; [done|by apply IH]|done|done].
Qed.

(** C16: however often the panel is stopped and restarted under a packages
    job, as long as it is not stopped between a transaction's start and the
    record of its unit in the job's row ([unit_recorded]), the transactions it started are the step's phases, each at most once
    and in their order; its log is what they logged in that order, each after
    its mark, up to where it was copied; and a job recorded as succeeded has
    run every phase to success and copied everything. *)
Theorem packages_run_once at_ w :
  lives LogDir spec tx_path SanitizeOutput message_text fuel at_ w ->
  map pt_phase (pw_txs w) `prefix_of` packagePhases (spec_packages spec) /\ NoDup (map pt_id (pw_txs w)) /\
  (exists more, log_of 0 (pw_txs w) = pw_log w +:+ more) /\
  (forall res, pw_end w = Some res -> rt_Status res = JobSucceeded ->
     map pt_phase (pw_txs w) = packagePhases (spec_packages spec) /\
     Forall (fun t => pt_result t = "success") (pw_txs w) /\ pw_log w = log_of 0 (pw_txs w)).
Proof.
  intros (Hs & He & _)%lives_ok.
  assert (in_order (pw_txs w) /\ exists more, log_of 0 (pw_txs w) = pw_log w +:+ more) as [[H1 H2] H3]; [|done].
  destruct Hs as [(txs & -> & _ & Ho & ->)|[(txs & t & (-> & _ & Ho & _) & ->)|(txs & t & c & (-> & _ & Ho & _) & _ & ->)]];
    split; try done.
  - exists "". by rewrite sapp_nil_r.
  - rewrite log_of_snoc. by eexists.
  - exists (sdrop (Z.to_nat c) (pt_log t)). unfold marked_log. rewrite log_of_snoc, !sapp_assoc. by rewrite stake_sdrop.
Qed.
End Step.
