(* ===== verification/Disk.v ===== *)
(** * The host's files under a file step

    Two worlds for the calls of FileCall.  In the first, names lead to files
    and what was not flushed may be lost with the power: a name to what any
    state since its directory was flushed gave it, a file's content and
    attributes to anything.  Nobody else writes meanwhile, and no name is a
    link.  In the second, names and links are a tree, as path_resolution(7)
    follows them, and others may change it while directories are made. *)

From S2P Require Import Prelude GoStrings PathFacts Interact World FileCall FileGuard.

(** ** Files and power *)

Record file : Type := mkFile { f_data : string; f_perm : Z; f_uid : Z; f_gid : Z; f_regular : bool }.

Record disk : Type := mkDisk {
  dk_names : gmap string nat;          (* as the kernel has them *)
  dk_older : list (gmap string nat);   (* as the disk may still have them *)
  dk_files : gmap nat file;
  dk_synced : gset nat;                (* the files that are on the disk as they are *)
}.

Definition file_at (d : disk) (p : string) : option file := dk_names d !! p ≫= (dk_files d !!.).

(** What may be left when the power fails. *)
Definition power_loss (d d' : disk) : Prop :=
  (forall p, exists m, m ∈ dk_names d :: dk_older d /\ dk_names d' !! p = m !! p) /\
  (forall i, i ∈ dk_synced d -> dk_files d' !! i = dk_files d !! i).

(** [p]'s file, whatever is lost. *)
Definition flushed (d : disk) (p : string) : Prop :=
  Forall (fun m => m !! p = dk_names d !! p) (dk_older d) /\
  forall i, dk_names d !! p = Some i -> i ∈ dk_synced d /\ is_Some (dk_files d !! i).

Definition with_names (names : gmap string nat) (d : disk) : disk :=
  mkDisk names (dk_names d :: dk_older d) (dk_files d) (dk_synced d).
(** A file changed, which the disk does not have yet. *)
Definition change (i : nat) (g : file -> file) (d : disk) : disk :=
  mkDisk (dk_names d) (dk_older d) (alter g i (dk_files d)) (dk_synced d ∖ {[i]}).

Definition appended (s : string) (f : file) : file := mkFile (f_data f +:+ s) (f_perm f) (f_uid f) (f_gid f) (f_regular f).
Definition with_perm (m : Z) (f : file) : file := mkFile (f_data f) m (f_uid f) (f_gid f) (f_regular f).
(** [chown], where -1 leaves an id alone. *)
Definition owned (uid gid : Z) (f : file) : file :=
  mkFile (f_data f) (f_perm f) (if uid =? -1 then f_uid f else uid) (if gid =? -1 then f_gid f else gid) (f_regular f).

(** The names of a directory. *)
Definition in_dir (dir p : string) : bool := path_Dir p ==s dir.
Definition flush_dir (dir : string) (names m : gmap string nat) : gmap string nat :=
  filter (fun kv => in_dir dir kv.1 = true) names ∪ filter (fun kv => in_dir dir kv.1 = false) m.

(** The name [os.CreateTemp] makes of a pattern that ends in a star. *)
Definition temp_name (dir pattern r : string) : string :=
  (if hasSuffix dir "/" then dir else dir +:+ "/") +:+ trimSuffix pattern "*" +:+ r.

Section Disk.
(** The panel's ids, and the accounts. *)
Variable panel_uid panel_gid : Z.
Variable users groups : string -> option Z.

Definition changes (p : string) (g : file -> file) (d : disk) (x : option fs_error) (d' : disk) : Prop :=
  match x with
  | None => exists i, dk_names d !! p = Some i /\ is_Some (dk_files d !! i) /\ d' = change i g d
  | Some _ => d' = d
  end.

Definition disk_step (d : disk) (c : fcall) : fanswer c -> disk -> Prop :=
  match c return fanswer c -> disk -> Prop with
  | Stat p => fun x d' => d' = d /\
      match x with
      | Ok st => exists f dir, file_at d p = Some f /\
          st = mkFileInfo (f_regular f) (f_perm f) (Z.of_nat (String.length (f_data f))) (Some (f_uid f, f_gid f)) dir
      | Err e => fe_kind e = ErrNotExist <-> dk_names d !! p = None
      end
  | ReadFileAll p => fun x d' => d' = d /\
      match x with Ok b => exists f, file_at d p = Some f /\ b = f_data f | Err _ => True end
  | CreateTemp dir pattern => fun x d' =>
      match x with
      | Ok tmp => exists r i,
          tmp = temp_name dir pattern r /\ indexByte pattern "/" = None /\
          dk_names d !! tmp = None /\ dk_files d !! i = None /\ i ∉ dk_synced d /\
          Forall (fun m => forall p, m !! p <> Some i) (dk_names d :: dk_older d) /\
          d' = mkDisk (<[tmp := i]> (dk_names d)) (dk_names d :: dk_older d)
                 (<[i := mkFile "" 384 panel_uid panel_gid true]> (dk_files d)) (dk_synced d)
      | Err _ => d' = d
      end
  | TmpWrite tmp content => fun x d' =>
      match x with
      | None => changes tmp (appended content) d None d'
      | Some _ => d' = d \/ exists n, changes tmp (appended (stake n content)) d None d'
      end
  | TmpChmod tmp mode => changes tmp (with_perm mode) d
  | TmpChown tmp uid gid => changes tmp (owned uid gid) d
  | TmpSync tmp => fun x d' =>
      match x with
      | None => exists i, dk_names d !! tmp = Some i /\
          d' = mkDisk (dk_names d) (dk_older d) (dk_files d) ({[i]} ∪ dk_synced d)
      | Some _ => d' = d
      end
  | Rename from to => fun x d' =>
      match x with
      | None => exists i, dk_names d !! from = Some i /\ d' = with_names (<[to := i]> (delete from (dk_names d))) d
      | Some _ => d' = d
      end
  | Remove p => fun x d' => match x with None => d' = with_names (delete p (dk_names d)) d | Some _ => d' = d end
  | ChmodPath p mode => changes p (with_perm mode) d
  | ChownPath p uid gid => changes p (owned uid gid) d
  | SyncDir dir => fun x d' =>
      match x with
      | None => d' = mkDisk (dk_names d) (map (flush_dir dir (dk_names d)) (dk_older d)) (dk_files d) (dk_synced d)
      | Some _ => d' = d
      end
  | LookupUser n => fun x d' => d' = d /\ x = users n
  | LookupGroup n => fun x d' => d' = d /\ x = groups n
  | _ => fun _ d' => d' = d
  end.
End Disk.

(** ** Links *)

Inductive node : Type := NDir | NFile | NLink (target : string).
Notation tree := (gmap (list string) node).

(** From the directory [cur], the elements [rest] lead to [l], with at most
    [n] links followed, one that ends the path among them; from the first
    element that is not there on, they lead where they would once made. *)
Inductive follow (t : tree) : nat -> list string -> list string -> list string -> Prop :=
| follow_done n cur : follow t n cur [] cur
| follow_skip n cur e rest l : e = "" \/ e = "." -> follow t n cur rest l -> follow t n cur (e :: rest) l
| follow_up n cur rest l : follow t n (removelast cur) rest l -> follow t n cur (".." :: rest) l
| follow_dir n cur e rest l : plain_elem e -> t !! (cur ++ [e]) = Some NDir ->
    follow t n (cur ++ [e]) rest l -> follow t n cur (e :: rest) l
| follow_file n cur e : plain_elem e -> t !! (cur ++ [e]) = Some NFile -> follow t n cur [e] (cur ++ [e])
| follow_new n cur e rest : plain_elem e -> Forall plain_elem rest -> t !! (cur ++ [e]) = None ->
    follow t n cur (e :: rest) (cur ++ e :: rest)
| follow_link n cur e target rest l : plain_elem e -> t !! (cur ++ [e]) = Some (NLink target) ->
    follow t n (if isAbs target then [] else cur) (elems target ++ rest) l -> follow t (S n) cur (e :: rest) l.

(** Where the kernel opens an absolute path. *)
Definition opens (t : tree) (p : string) (l : list string) : Prop := follow t maxWriteLinkHops [] (elems p) l.
Definition opens_dir (t : tree) (p : string) (d : list string) : Prop := opens t p d /\ (d = [] \/ t !! d = Some NDir).
(** Where it renames to one: a link at the end is not followed. *)
Definition names_place (t : tree) (p : string) (l : list string) : Prop :=
  exists d, opens_dir t (path_Dir p) d /\ l = d ++ [path_Base p].

(** Every directory on the way to a place is one. *)
Definition all_dirs (t : tree) (l : list string) : Prop :=
  forall l1 l2, l = l1 ++ l2 -> l1 <> [] -> t !! l1 = Some NDir.

(** What holds panel credentials or the like. *)
Definition protected_dirs : list (list string) := [["etc"; "sfpanel"]; ["root"; ".ssh"]; ["etc"; "sudoers.d"]].
Definition protected_files : list (list string) :=
  [["etc"; "shadow"]; ["etc"; "gshadow"]; ["etc"; "sudoers"]; ["etc"; "sfpanel"; "config.yaml"];
   ["var"; "lib"; "sfpanel"; "sfpanel.db"]; ["var"; "lib"; "sfpanel"; "sfpanel.db-wal"];
   ["var"; "lib"; "sfpanel"; "sfpanel.db-shm"]].
Definition below_protected (l : list string) : Prop := exists d, d ∈ protected_dirs /\ d `prefix_of` l.
Definition protected (l : list string) : Prop := below_protected l \/ l ∈ protected_files.

(** No protected place is itself a link: nobody has put one where only the
    panel's and the system's own files are. *)
Definition no_planted (t : tree) : Prop := forall l target, t !! l = Some (NLink target) -> ~ protected l.

(** The tree, the places written to or changed, and the directories made. *)
Record links : Type := mkLinks { lk_tree : tree; lk_hits : list (list string); lk_made : list (list string) }.
Definition hit (l : list string) (w : links) : links := mkLinks (lk_tree w) (l :: lk_hits w) (lk_made w).
(** A directory MkdirAll makes for [p]: the first element that is missing in
    the directory the ones before it lead to, or one below it. *)
Definition makes (t : tree) (p : string) (l : list string) : Prop :=
  exists q1 e q2 q3 d, place p = q1 ++ e :: q2 ++ q3 /\ opens_dir t (spell q1) d /\ t !! (d ++ [e]) = None /\ l = d ++ e :: q2.

(** [next] is looked at where every directory before it is one. *)
Definition looked_at (t : tree) (p : string) (f : option node -> Prop) : Prop :=
  forall cur e, p = spell (cur ++ [e]) -> Forall plain_elem (cur ++ [e]) -> all_dirs t cur -> f (t !! (cur ++ [e])).

(** While the directories of a path are made, others may plant links, anywhere
    but over a protected place; those made are where the path led as that
    began.  From then on, and before, the links are as they are: one planted
    between a look and the write that follows it is no step of this world. *)
Definition links_step (w : links) (c : fcall) : fanswer c -> links -> Prop :=
  match c return fanswer c -> links -> Prop with
  | Lstat p => fun x w' => w' = w /\ looked_at (lk_tree w) p (fun o =>
      match x with
      | Ok b => exists nd, o = Some nd /\ b = match nd with NLink _ => true | _ => false end
      | Err _ => o = None
      end)
  | Readlink p => fun x w' => w' = w /\ looked_at (lk_tree w) p (fun o =>
      forall target, x = Ok target -> o = Some (NLink target))
  | MkdirAll p _ => fun _ w' => lk_hits w' = lk_hits w /\ no_planted (lk_tree w') /\
      exists made, lk_made w' = made ++ lk_made w /\ Forall (makes (lk_tree w) p) made
  | CreateTemp dir pattern => fun x w' =>
      match x with
      | Ok tmp => exists d r, opens_dir (lk_tree w) dir d /\ w' = hit (d ++ [trimSuffix pattern "*" +:+ r]) w
      | Err _ => w' = w
      end
  | Rename _ to => fun x w' =>
      match x with None => exists l, names_place (lk_tree w) to l /\ w' = hit l w | Some _ => w' = w end
  | ChmodPath p _ | ChownPath p _ _ => fun x w' =>
      match x with None => exists l, opens (lk_tree w) p l /\ w' = hit l w | Some _ => w' = w end
  | _ => fun _ w' => w' = w
  end.
