(* ===== verification/FileGuardFacts.v ===== *)
(** * Nothing protected is written through a link

    [resolveForWrite] ends where the kernel would, so what the guard lets
    through is no protected place, however many links lead there; and a file
    step that passed it writes to none, links planted while it makes its
    directories included. *)

From S2P Require Import Prelude GoStrings PathFacts TaskModel Interact World FileCall FileGuard.
From S2P Require Import JobProg JobFile Disk.

#[local] Open Scope prog_scope.

(** ** Following *)

Lemma all_dirs_nil t : all_dirs t [].
Proof. intros l1 l2 E Hne. symmetry in E. by apply app_eq_nil in E as [-> _]. Qed.
Lemma all_dirs_snoc t l e : all_dirs t l -> t !! (l ++ [e]) = Some NDir -> all_dirs t (l ++ [e]).
Proof.
  intros Hl He l1 l2 E Hne. destruct l2 as [|x l2 _] using rev_ind; [rewrite app_nil_r in E; by subst|].
  rewrite app_assoc in E. apply app_inj_tail in E as [-> _]. by apply (Hl l1 l2).
Qed.
Lemma all_dirs_parent t l : all_dirs t l -> all_dirs t (removelast l).
Proof.
  intros Hl. destruct l as [|e l _] using rev_ind; [done|]. rewrite removelast_last.
  intros l1 l2 -> Hne. apply (Hl l1 (l2 ++ [e])); [by rewrite app_assoc|done].
Qed.
Lemma plain_parent l : Forall plain_elem l -> Forall plain_elem (removelast l).
Proof. destruct l as [|e l _] using rev_ind; [done|]. rewrite removelast_last. by intros [? _]%plain_snoc. Qed.

Lemma follow_plain t n cur rest l : follow t n cur rest l -> Forall plain_elem cur -> Forall plain_elem l.
Proof.
  induction 1; intros Hc; try done; try (apply plain_snoc; by split).
  - by apply IHfollow.
  - by apply IHfollow, plain_parent.
  - apply IHfollow, plain_snoc. by split.
  - apply Forall_app. split; [done|by constructor].
  - apply IHfollow. by destruct (isAbs target).
Qed.

(** A plain element is none of the three the code looks for. *)
Lemma plain_tests e : plain_elem e -> (e ==s "") = false /\ (e ==s ".") = false /\ (e ==s "..") = false.
Proof. intros (H1 & H2 & H3 & _). by rewrite !String.eqb_neq. Qed.
Lemma tests_plain e :
  (e ==s "") = false -> (e ==s ".") = false -> (e ==s "..") = false -> indexByte e slash = None -> plain_elem e.
Proof. rewrite !String.eqb_neq. done. Qed.

Lemma follow_dots t n cur e rest l :
  (e ==s "") || (e ==s ".") = true -> follow t n cur (e :: rest) l -> follow t n cur rest l.
Proof.
  intros He H. inversion H; subst; try done.
  all: match goal with P : plain_elem _ |- _ => apply plain_tests in P as (E1 & E2 & E3); by rewrite E1, E2 in He end.
Qed.
Lemma follow_parent t n cur rest l : follow t n cur (".." :: rest) l -> follow t n (removelast cur) rest l.
Proof.
  intros H. inversion H; subst; try done; try (match goal with P : _ \/ _ |- _ => by destruct P end).
  all: match goal with P : plain_elem _ |- _ => by destruct P as (_ & _ & ? & _) end.
Qed.
(** Past a plain element: by what is there. *)
Lemma follow_plain_inv t n cur e rest l :
  plain_elem e -> follow t n cur (e :: rest) l ->
  match t !! (cur ++ [e]) with
  | Some NDir => follow t n (cur ++ [e]) rest l
  | Some (NLink target) => exists n', n = S n' /\ follow t n' (if isAbs target then [] else cur) (elems target ++ rest) l
  | Some NFile => rest = [] /\ l = cur ++ [e]
  | None => Forall plain_elem rest /\ l = cur ++ e :: rest
  end.
Proof.
  intros He H. inversion H; subst.
  all: repeat match goal with E : _ !! _ = _ |- _ => rewrite E end; eauto.
  - apply plain_tests in He as (E1 & E2 & _). apply String.eqb_neq in E1, E2. naive_solver.
  - by destruct He as (_ & _ & ? & _).
Qed.

(** A directory's entry that is no link is where its path leads. *)
Lemma follow_snoc t n cur rest d b :
  follow t n cur rest d -> d = [] \/ t !! d = Some NDir -> plain_elem b ->
  (forall target, t !! (d ++ [b]) <> Some (NLink target)) -> follow t n cur (rest ++ [b]) (d ++ [b]).
Proof.
  intros H Hd Hb Hl. induction H; simpl.
  - destruct (t !! (cur ++ [b])) as [[| |target]|] eqn:E.
    + by apply follow_dir, follow_done.
    + by apply follow_file.
    + by destruct (Hl target).
    + by apply (follow_new _ _ _ _ []).
  - apply follow_skip; auto.
  - apply follow_up; auto.
  - apply follow_dir; auto.
  - destruct Hd as [?%app_eq_nil|Hd]; [naive_solver|congruence].
  - rewrite <-app_assoc. apply follow_new; [done|apply plain_snoc; by split|done].
  - eapply follow_link; [done..|]. rewrite app_assoc. auto.
Qed.
(** What is missing from a directory, and all below it. *)
Lemma follow_missing t n cur rest d e more :
  follow t n cur rest d -> d = [] \/ t !! d = Some NDir -> t !! (d ++ [e]) = None -> Forall plain_elem (e :: more) ->
  follow t n cur (rest ++ e :: more) (d ++ e :: more).
Proof.
  intros H Hd He Hm. induction H; simpl.
  - apply Forall_cons in Hm as [? ?]. by apply follow_new.
  - apply follow_skip; auto.
  - apply follow_up; auto.
  - apply follow_dir; auto.
  - destruct Hd as [?%app_eq_nil|Hd]; [naive_solver|congruence].
  - rewrite <-app_assoc. apply follow_new; [done|by apply Forall_app|done].
  - eapply follow_link; [done..|]. rewrite app_assoc. auto.
Qed.

(** ** The guard *)

(** A program that leaves the links as they are throughout. *)
Notation wpl w := (wpc links_step (eq w)).

Lemma wpl_call {A} c (f : fanswer c -> fprog A) w Q :
  (forall x w1, links_step w c x w1 -> w1 = w /\ wpl w (f x) w Q) -> wpl w (pbind (fdo c) f) w Q.
Proof. intros H. apply wpc_call; [done|]. intros x w1 Hs. by destruct (H x w1 Hs) as [-> ?]. Qed.
Lemma wpl_ret {A} (a : A) w (Q : A -> links -> Prop) : Q a w -> wpl w (Ret a) w Q.
Proof. by apply wpc_ret. Qed.

(** Where the kernel goes, unless it says it cannot tell. *)
Definition leads (t : tree) (n : nat) (cur rest : list string) (r : result string string) : Prop :=
  rest = [] \/ all_dirs t cur -> forall l, follow t n cur rest l -> forall s, r = Ok s -> s = spell l.

Lemma resolve_loop_nil n cur : resolve_loop n cur [] = Ret (Ok cur).
Proof. by destruct n. Qed.
Lemma resolve_loop_cons n cur name rest :
  resolve_loop n cur (name :: rest) =
  if (name ==s "") || (name ==s ".") then resolve_loop n cur rest
  else if name ==s ".." then resolve_loop n (path_Dir cur) rest
  else
    let next := path_Join [cur; name] in
    fi <-- fdo (Lstat next) ;;
    match fi with
    | Err _ => Ret (Ok (path_Join (next :: rest)))
    | Ok false => resolve_loop n next rest
    | Ok true =>
        match n with
        | O => Ret (Err "too many levels of symbolic links")
        | S n =>
            target <-- fdo (Readlink next) ;;
            match target with
            | Err e => Ret (Err ("read the symbolic link " +:+ next +:+ ": " +:+ fe_text e))
            | Ok target => resolve_loop n (if isAbs target then "/" else cur) (splitByte target "/" ++ rest)
            end
        end
    end.
Proof. by destruct n. Qed.
#[local] Opaque resolve_loop.

Lemma resolve_loop_follows n cur rest w :
  Forall plain_elem cur -> Forall (fun e => indexByte e slash = None) rest ->
  wpl w (resolve_loop n (spell cur) rest) w (fun r w' => w' = w /\ leads (lk_tree w) n cur rest r).
Proof.
  revert cur rest. induction n as [n IHn] using lt_wf_ind. intros cur rest. revert cur.
  induction rest as [|e rest IH]; intros cur Hc Hr.
  { rewrite resolve_loop_nil. apply wpl_ret. split; [done|]. intros _ l Hf s [= <-]. by inversion Hf. }
  apply Forall_cons in Hr as [He Hr]. rewrite resolve_loop_cons.
  assert (Hgo : forall cur', Forall plain_elem cur' ->
    (all_dirs (lk_tree w) cur -> forall l, follow (lk_tree w) n cur (e :: rest) l ->
       (rest = [] \/ all_dirs (lk_tree w) cur') /\ follow (lk_tree w) n cur' rest l) ->
    wpl w (resolve_loop n (spell cur') rest) w (fun r w' => w' = w /\ leads (lk_tree w) n cur (e :: rest) r)).
  { intros cur' Hc' Hl. eapply wpc_mono; [by apply IH|done|]. intros r w' [-> Hr']. split; [done|].
    intros [?|Hd] l Hf; [done|]. destruct (Hl Hd l Hf) as [Hd' Hf']. by apply Hr'. }
  destruct ((e ==s "") || (e ==s ".")) eqn:E1; [apply Hgo; eauto using follow_dots|]. apply orb_false_iff in E1 as [E1 E2].
  destruct (e ==s "..") eqn:E3.
  { apply String.eqb_eq in E3 as ->. rewrite path_Dir_removelast by done. apply Hgo; [by apply plain_parent|].
    intros Hd l Hf. split; [right; by apply all_dirs_parent|by apply follow_parent]. }
  pose proof (tests_plain e E1 E2 E3 He) as Hp. assert (Hce : Forall plain_elem (cur ++ [e])) by (by apply plain_snoc).
  cbv zeta. rewrite path_Join_spell by done. apply wpl_call. intros fi w1 [-> Hfi]. split; [done|]. specialize (Hfi cur e eq_refl Hce).
  destruct fi as [[|]|err].
  - destruct n as [|n]; [by apply wpl_ret|]. apply wpl_call. intros target w2 [-> Htgt]. split; [done|].
    specialize (Htgt cur e eq_refl Hce). destruct target as [target|err]; [|by apply wpl_ret].
    replace (if isAbs target then "/" else spell cur) with (spell (if isAbs target then [] else cur))
      by (by destruct (isAbs target)).
    eapply wpc_mono; [apply (IHn n)|done|].
    + lia.
    + by destruct (isAbs target).
    + apply Forall_app. split; [|done]. apply Forall_forall. intros x. apply splitByte_elem.
    + intros r w' [-> Hr']. split; [done|]. intros [?|Hd] l Hf; [done|].
      apply follow_plain_inv in Hf; [|done]. rewrite (Htgt Hd target eq_refl) in Hf.
      destruct Hf as (n' & [= <-] & Hf). apply Hr'; [|done]. right. destruct (isAbs target); [apply all_dirs_nil|done].
  - apply Hgo; [done|]. intros Hd l Hf. apply follow_plain_inv in Hf; [|done].
    destruct (Hfi Hd) as ([| |target] & E & Eb); [|rewrite E in Hf|done].
    + rewrite E in Hf. split; [right; by apply all_dirs_snoc|done].
    + destruct Hf as [-> ->]. split; [by left|apply follow_done].
  - apply wpl_ret. split; [done|]. intros [?|Hd] l Hf s; [done|]. apply follow_plain_inv in Hf; [|done].
    rewrite (Hfi Hd) in Hf. destruct Hf as [Hrest ->]. rewrite path_Join_place by (done || apply isAbs_spell).
    rewrite place_spell, <-app_assoc by done. by intros [= <-].
Qed.

(** What the code asks of a text is the place's protection. *)
Lemma protected_spell l : Forall plain_elem l -> isWriteProtectedPath (spell l) = false -> ~ protected l.
Proof.
  intros Hl. unfold isWriteProtectedPath. rewrite path_Clean_spell by done. cbv zeta. intros [Hf Hd]%orb_false_iff.
  intros [(d & Hin & Hpre)|Hin].
  - assert (Hu : Forall plain_elem d /\ d <> [] /\ spell d +:+ "/" ∈ writeProtectedPrefixes /\
      trimSuffix (spell d +:+ "/") "/" = spell d).
    { unfold protected_dirs in Hin. repeat (apply elem_of_cons in Hin as [->|Hin]); [..|by apply elem_of_nil in Hin].
      all: split_and!; [repeat constructor; done|done|vm_compute; set_solver|done]. }
    destruct Hu as (Hpd & Hne & Hp & Ht). apply not_true_iff_false in Hd. apply Hd. apply existsb_exists.
    exists (spell d +:+ "/"). split; [by apply list_elem_of_In|]. rewrite Ht. by apply spell_under.
  - apply slices_contains_false in Hf. apply Hf. unfold protected_files in Hin.
    repeat (apply elem_of_cons in Hin as [->|Hin]); [..|by apply elem_of_nil in Hin]; vm_compute; set_solver.
Qed.

Lemma elems_clean p : isAbs p = true -> Forall (fun e => indexByte e slash = None) (elems (path_Clean p)).
Proof. intros _. apply Forall_forall. intros e. apply splitByte_elem. Qed.

Lemma resolveForWrite_opens p w :
  wpl w (resolveForWrite p) w (fun r w' => w' = w /\
    forall l, opens (lk_tree w) (path_Clean p) l -> forall s, r = Ok s -> s = spell l).
Proof.
  eapply wpc_mono; [apply (resolve_loop_follows maxWriteLinkHops [])|done|].
  - constructor.
  - apply Forall_forall. intros e. apply splitByte_elem.
  - intros r w' [-> H]. split; [done|]. apply H. right. apply all_dirs_nil.
Qed.

Lemma write_candidates_still p w : wpl w (write_candidates p) w (fun _ w' => w' = w).
Proof.
  unfold write_candidates. apply wpl_call. intros [r|e] w1 ->; (split; [done|]); [by apply wpl_ret|].
  apply wpl_call. intros [t|e'] w1 [-> _]; (split; [done|]); by apply wpl_ret.
Qed.

(** The guard's word: an absolute path that opens no protected place. *)
Definition passed (t : tree) (p : string) : Prop :=
  isAbs p = true /\ forall l, opens t (path_Clean p) l -> ~ protected l.

Lemma validatePath_abs p : validatePath p = None -> isAbs p = true.
Proof. unfold validatePath. by destruct (p ==s ""), (isAbs p). Qed.

Lemma guard_passed p w :
  wpl w (ValidatePathForWrite p) w (fun r w' => w' = w /\ (r = None -> passed (lk_tree w) p)).
Proof.
  unfold ValidatePathForWrite, validatePathForWrite. destruct (validatePath p) as [e|] eqn:Ev; [by apply wpl_ret|].
  apply validatePath_abs in Ev. apply wpc_bind. eapply wpc_mono; [apply write_candidates_still|done|].
  intros candidates w1 ->. apply wpc_bind. eapply wpc_mono; [apply resolveForWrite_opens|done|].
  intros [reached|e] w1 [-> Hr]; apply wpl_ret; (split; [done|]); [|done].
  destruct (existsb _ _) eqn:E; [done|]. intros _. split; [done|]. intros l Hl.
  specialize (Hr l Hl _ eq_refl). subst reached. apply protected_spell.
  - eapply follow_plain; [exact Hl|constructor].
  - apply not_true_iff_false. intros Ht. apply not_true_iff_false in E. apply E, existsb_exists.
    exists (spell l). split; [|done]. apply in_or_app. right. by left.
Qed.

(** ** The writes of a step that passed *)

Definition safe (w : links) : Prop :=
  no_planted (lk_tree w) /\ Forall (fun l => ~ protected l) (lk_hits w) /\ Forall (fun l => ~ below_protected l) (lk_made w).
Lemma safe_hit l w : safe w -> ~ protected l -> safe (hit l w).
Proof. intros (Ht & Hh & Hm) Hl. by split_and!; [|constructor|]. Qed.

Lemma place_snoc p : place p <> [] -> exists q b, place p = q ++ [b].
Proof. intros H. destruct (place p) as [|b q _] using rev_ind; [done|]. by exists q, b. Qed.

Lemma protected_length l : protected l -> (2 <= length l)%nat.
Proof.
  intros [(d & Hd & Hp)|Hl].
  - apply prefix_length in Hp. unfold protected_dirs in Hd. set_unfold in Hd.
    destruct Hd as [->|[->|[->|[]]]]; simpl in Hp; lia.
  - unfold protected_files in Hl. set_unfold in Hl.
    destruct Hl as [->|[->|[->|[->|[->|[->|[->|[]]]]]]]]; simpl; lia.
Qed.

Lemma opens_spell t q d : Forall plain_elem q -> opens t (spell q) d <-> follow t maxWriteLinkHops [] q d.
Proof.
  intros Hq. unfold opens. destruct (decide (q = [])) as [->|Hne].
  - change (elems (spell [])) with [""; ""]. split; intros H.
    + by do 2 (apply follow_dots in H; [|done]).
    + by do 2 (apply follow_skip; [by left|]).
  - rewrite elems_spell by done. split; intros H; [by apply follow_dots in H|by apply follow_skip; [left|]].
Qed.

(** The entry a rename to the path makes. *)
Lemma entry_passed t p d : no_planted t -> passed t p ->
  opens_dir t (path_Dir (path_Clean p)) d -> ~ protected (d ++ [path_Base (path_Clean p)]).
Proof.
  intros Ht [Ha Hp] [Hd Hdir]. rewrite path_Clean_place in * by done. pose proof (place_plain p) as Hpl.
  destruct (decide (place p = [])) as [E|(q & b & E)%place_snoc].
  - rewrite E in *. change (path_Dir (spell [])) with (spell []) in Hd. apply (opens_spell t []) in Hd; [|constructor].
    assert (d = []) as -> by (by inversion Hd). intros H%protected_length. simpl in H. lia.
  - rewrite E in *. rewrite path_Dir_spell in Hd by done. rewrite path_Base_spell by done.
    pose proof Hpl as [Hq Hb]%plain_snoc. apply (opens_spell t q) in Hd; [|done]. intros Hprot.
    eapply Hp; [|exact Hprot]. apply (opens_spell t (q ++ [b])); [done|]. apply follow_snoc; [done..|].
    intros target Et. by apply (Ht _ _ Et).
Qed.

(** The directories made for it. *)
Lemma made_passed t p l : passed t p -> makes t (path_Dir (path_Clean p)) l -> ~ below_protected l.
Proof.
  intros [Ha Hp] (q1 & e & q2 & q3 & d & Epl & [Hd Hdir] & He & ->) (x & Hx & Hpre).
  rewrite path_Clean_place in * by done. pose proof (place_plain p) as Hpl.
  destruct (decide (place p = [])) as [E|(q & b & E)%place_snoc].
  { rewrite E in Epl. change (place (path_Dir (spell []))) with (@nil string) in Epl. by destruct q1. }
  rewrite E, path_Dir_spell in Epl by (by rewrite <-E). assert (Hq : Forall plain_elem (q ++ [b])) by (by rewrite <-E).
  rewrite place_spell in Epl by (by apply plain_snoc in Hq as [? _]). subst q.
  rewrite <-!app_assoc in Hq, E. simpl in Hq, E. rewrite <-app_assoc in Hq, E. apply Forall_app in Hq as [Hq1 Hq].
  apply (Hp (d ++ e :: q2 ++ q3 ++ [b])).
  - rewrite E. apply opens_spell; [by apply Forall_app|]. apply follow_missing; [by apply opens_spell|done..].
  - left. exists x. split; [done|]. etransitivity; [exact Hpre|]. exists (q3 ++ [b]). by rewrite <-app_assoc.
Qed.

Lemma safe_made w p w1 made : safe w -> passed (lk_tree w) p -> lk_hits w1 = lk_hits w -> no_planted (lk_tree w1) ->
  lk_made w1 = made ++ lk_made w -> Forall (makes (lk_tree w) (path_Dir (path_Clean p))) made -> safe w1.
Proof.
  intros (_ & Hh & Hd) Hp Eh Ht Em Hm. split_and!; [done|by rewrite Eh|]. rewrite Em. apply Forall_app. split; [|done].
  eapply Forall_impl; [exact Hm|]. intros l. by apply made_passed.
Qed.

(** And the temporary file beside it. *)
Lemma temp_passed t p d r : no_planted t -> passed t p -> opens_dir t (path_Dir (path_Clean p)) d ->
  ~ protected (d ++ [trimSuffix (tmp_pattern (path_Clean p)) "*" +:+ r]).
Proof.
  intros Ht Hp Hd. pose proof (entry_passed t p d Ht Hp Hd) as Hb. set (b := path_Base (path_Clean p)) in *.
  assert (Et : trimSuffix (tmp_pattern (path_Clean p)) "*" = "." +:+ b +:+ ".sfpanel-").
  { unfold tmp_pattern. fold b. change ".sfpanel-*" with (".sfpanel-" +:+ "*"). rewrite <-!sapp_assoc. apply trimSuffix_app. }
  rewrite Et, !sapp_assoc. clear Et.
  assert (Hname : forall x n, last x = Some n -> (String.length n < 10)%nat -> x <> d ++ ["." +:+ b +:+ ".sfpanel-" +:+ r]).
  { intros x n Hl Hn ->. rewrite last_snoc in Hl. injection Hl as <-. simpl in Hn.
    rewrite !slength_app in Hn. simpl in Hn. lia. }
  assert (Hfile : forall x n, last x = Some n -> hasPrefix n "." = false -> x <> d ++ ["." +:+ b +:+ ".sfpanel-" +:+ r]).
  { intros x n Hl Hn ->. rewrite last_snoc in Hl. injection Hl as <-.
    apply not_true_iff_false in Hn. apply Hn, hasPrefix_spec. by eexists. }
  intros [(x & Hin & k & E)|Hin].
  - destruct k as [|y k _] using rev_ind.
    + rewrite app_nil_r in E. unfold protected_dirs in Hin. set_unfold in Hin.
      destruct Hin as [->|[->|[->|[]]]]; (eapply Hname; [..|symmetry; exact E]; [done|simpl; lia]).
    + rewrite app_assoc in E. apply app_inj_tail in E as [-> _]. apply Hb. left. exists x. split; [done|].
      rewrite <-app_assoc. by eexists.
  - unfold protected_files in Hin. set_unfold in Hin.
    destruct Hin as [Hin|[Hin|[Hin|[Hin|[Hin|[Hin|[Hin|[]]]]]]]]; symmetry in Hin; (eapply Hfile; [..|exact Hin]; done).
Qed.

(** ** A step *)

Notation wps := (wpc links_step safe).

Lemma wps_call {A} c (f : fanswer c -> fprog A) w Q :
  safe w -> (forall x w1, links_step w c x w1 -> wps (f x) w1 Q) -> wps (pbind (fdo c) f) w Q.
Proof. by apply wpc_call. Qed.

Lemma wps_guard {A} p (f : option string -> fprog A) w Q : safe w ->
  (forall r, (r = None -> passed (lk_tree w) p) -> wps (f r) w Q) -> wps (pbind (ValidatePathForWrite p) f) w Q.
Proof.
  intros Hs Hf. apply wpc_bind. eapply wpc_mono; [apply guard_passed|by intros ? <-|].
  intros r w1 [-> Hr]. by apply Hf.
Qed.

(** What an answer says of the places hit. *)
Ltac wps_answer H := simpl in H; try (lazymatch type of H with match ?x with _ => _ end => destruct x end); try subst.
Ltac wps_step :=
  lazymatch goal with
  | |- wpc _ _ (Ret _) _ _ => apply wpc_ret; [assumption|]
  | |- wpc _ _ (let _ := _ in _) _ _ => cbv zeta
  | |- wpc _ _ (pbind (fdo _) _) _ _ =>
      let H := fresh "Hstep" in apply wps_call; [assumption|]; intros ? ? H; wps_answer H
  | |- wpc _ _ (Do _ _) _ _ =>
      let H := fresh "Hstep" in split; [assumption|]; intros ? ? H; wps_answer H
  | |- wpc _ _ (pbind (if ?b then _ else _) _) _ _ => destruct b
  | |- wpc _ _ (pbind (pbind _ _) _) _ _ => apply wpc_bind
  | |- wpc _ _ (pbind (Ret _) _) _ _ => simpl pbind
  | |- wpc _ _ (if ?b then _ else _) _ _ => destruct b eqn:?
  | |- wpc _ _ (match ?x with _ => _ end) _ _ => destruct x eqn:?
  end.
Ltac wps_go := repeat wps_step.

Lemma writeAtomic_safe p content mode uid gid w (Q : option fs_error -> links -> Prop) :
  safe w -> passed (lk_tree w) p -> (forall r w', safe w' -> Q r w') -> wps (writeAtomic (path_Clean p) content mode uid gid) w Q.
Proof.
  intros Hs Hp HQ. pose proof Hs as [Ht _]. unfold writeAtomic. apply wps_call; [done|].
  intros [tmp|e] w1 H1; simpl in H1; [|subst; apply wpc_ret; auto]. destruct H1 as (d & r & Hd & ->).
  assert (Hs1 : safe (hit (d ++ [trimSuffix (tmp_pattern (path_Clean p)) "*" +:+ r]) w)) by (apply safe_hit; [done|]; by eapply temp_passed).
  assert (Hren : forall l, names_place (lk_tree w) (path_Clean p) l -> ~ protected l).
  { intros l (d' & Hd' & ->). by eapply entry_passed. }
  revert Hs1. generalize (d ++ [trimSuffix (tmp_pattern (path_Clean p)) "*" +:+ r]). intros l Hs1.
  wps_go; try (by apply HQ); destruct Hstep as (l' & Hl' & ->).
  all: lazymatch goal with H : names_place _ _ ?k |- _ => assert (Hs2 : safe (hit k (hit l w))) by (apply safe_hit; auto) end.
  all: wps_go; by apply HQ.
Qed.

Lemma setAttrs_safe p setMode mode uid gid SanitizeOutput w :
  safe w -> passed (lk_tree w) p -> wps (setAttrs SanitizeOutput (path_Clean p) setMode mode uid gid) w (fun _ _ => True).
Proof.
  intros Hs [_ Hp]. unfold setAttrs.
  assert (Hhit : forall w1 l, lk_tree w1 = lk_tree w -> safe w1 -> opens (lk_tree w) (path_Clean p) l -> safe (hit l w1)).
  { intros w1 l E Hs1 Hl. apply safe_hit; auto. }
  wps_go; try done; destruct Hstep as (l & Hl & ->).
  all: match goal with |- wpc _ _ _ ?w1 _ => assert (Hs1 : safe w1) by (by apply Hhit) end.
  all: wps_go; try done; destruct Hstep as (l' & Hl' & ->).
  all: match goal with |- wpc _ _ _ ?w1 _ => assert (safe w1) by (by apply Hhit) end.
  all: by wps_go.
Qed.

Lemma write_result_safe SanitizeOutput p content mode uid gid w :
  safe w -> passed (lk_tree w) p -> wps (write_result SanitizeOutput (path_Clean p) content mode uid gid) w (fun _ _ => True).
Proof. intros Hs Hp. apply wpc_bind, writeAtomic_safe; [done..|]. intros [e|] w' Hs'; by apply wpc_ret. Qed.

Lemma wps_owner {A} step (f : result message (Z * Z) -> fprog A) w Q :
  safe w -> (forall r, wps (f r) w Q) -> wps (pbind (step_owner step) f) w Q.
Proof.
  intros Hs Hf. apply wpc_bind.
  assert (Hid : forall ref lookup ans text (k : result message Z -> fprog (result message (Z * Z))),
    (forall x w1, links_step w (lookup ref) x w1 -> w1 = w) -> (forall r, wps (k r) w (fun r w' => wps (f r) w' Q)) ->
    wps (pbind (resolve_id ref lookup ans text) k) w (fun r w' => wps (f r) w' Q)).
  { intros ref lookup ans text k Hl Hk. unfold resolve_id. destruct (ref ==s ""); [apply Hk|].
    destruct (atoi ref); [apply Hk|]. apply wpc_bind, wps_call; [done|]. intros x w1 E%Hl. subst w1.
    apply wpc_ret; [done|apply Hk]. }
  unfold step_owner. destruct (fl_Owner step ==s ""); [by apply wpc_ret|].
  destruct (cutByte (fl_Owner step) ":") as [[u g] b]. unfold ResolveOwner, resolveOwner. apply Hid; [done|].
  intros [uid|e]; [|by apply wpc_ret]. apply Hid; [done|]. intros [gid|e]; by apply wpc_ret.
Qed.

(** C21: as long as no protected place is itself a link, however else links lie
    on the way, and whatever others are planted while its directories are made
    (none after that: the guard looks again only then), a file step writes to
    and changes no protected place; and where its directories are made as the
    links lay when that began, none is a protected directory or below one. *)
Theorem writeFileStep_guarded message_text SanitizeOutput step t o w :
  no_planted t -> runs links_step (mkLinks t [] []) (writeFileStep message_text SanitizeOutput step) o w ->
  Forall (fun l => ~ protected l) (lk_hits w) /\ Forall (fun l => ~ below_protected l) (lk_made w).
Proof.
  intros Ht Hr. refine (proj2 (proj1 (wpc_sound links_step safe _ _ (fun _ _ => True) _ _ _ Hr))). clear Hr.
  assert (Hs : safe (mkLinks t [] [])) by (split_and!; [done|constructor..]). revert Hs. generalize (mkLinks t [] []). intros w0 Hs.
  unfold writeFileStep. apply wps_guard; [done|]. intros [e|] Hp; [by apply wpc_ret|]. specialize (Hp eq_refl).
  wps_step; [by apply wpc_ret|]. cbv zeta. destruct (step_mode step) as [[mode setMode]|e]; [|by apply wpc_ret].
  apply wps_owner; [done|]. intros [[uid gid]|e]; [|by apply wpc_ret].
  apply wps_call; [done|]. intros [st|e] w1 ->.
  - wps_step; [by apply wpc_ret|]. unfold on_existing. apply wpc_bind.
    assert (Hh : forall Q, (forall r, Q r w0) -> wps (holds (path_Clean (fl_Path step)) st (fl_Content step)) w0 Q).
    { intros Q HQ. unfold holds. wps_go; apply HQ. }
    apply Hh. intros [same|e]; [|by apply wpc_ret]. cbv zeta.
    destruct (same && _ && _); [by apply wpc_ret|]. destruct same; [by apply setAttrs_safe|].
    destruct (match fi_Sys st with Some _ => _ | None => _ end). by apply write_result_safe.
  - destruct (fe_kind e); try by apply wpc_ret. unfold on_missing. apply wps_call; [done|].
    intros [e'|] w1 (Hh & Ht1 & made & Em & Hm);
      assert (Hs1 : safe w1) by (apply (safe_made w0 (fl_Path step) w1 made Hs Hp Hh Ht1 Em Hm)); [by apply wpc_ret|].
    apply wps_guard; [done|]. intros [e'|] Hp1; [by apply wpc_ret|]. by apply write_result_safe, Hp1.
Qed.
