(* ===== verification/JobFileFacts.v ===== *)
(** * A file step leaves the old file or the new one

    Whatever fails, and whenever the panel is killed or the power goes, the
    path holds the file it held or the one the step writes; and a step that
    ends says what it did. *)

From S2P Require Import Prelude GoStrings PathFacts TaskModel Interact World FileCall FileGuard.
From S2P Require Import JobProg JobFile Disk.

#[local] Open Scope prog_scope.

Section Disk.
Variable panel_uid panel_gid : Z.
Variable users groups : string -> option Z.
Notation disk_step := (disk_step panel_uid panel_gid users groups).
Notation wpd := (wpc disk_step).

Lemma wpd_call {A} (C : disk -> Prop) c (f : fanswer c -> fprog A) d Q :
  C d -> (forall x d1, disk_step d c x d1 -> wpd C (f x) d1 Q) -> wpd C (pbind (fdo c) f) d Q.
Proof. by apply wpc_call. Qed.

(** The file a step writes: the mode it is given, and each id that is. *)
Definition new_file (content : string) (mode uid gid : Z) : file :=
  let id i own := if (i =? -1) || negb ((0 <=? uid) || (0 <=? gid)) then own else i in
  mkFile content mode (id uid panel_uid) (id gid panel_gid) true.

(** ** The path while the temporary file is made *)

(** [p] has what it had, of which the disk has all. *)
Definition as_before (p : string) (d0 d : disk) : Prop :=
  dk_names d !! p = dk_names d0 !! p /\
  Forall (fun m => m !! p = dk_names d0 !! p) (dk_older d) /\
  (forall i, dk_names d0 !! p = Some i -> i ∈ dk_synced d /\ is_Some (dk_files d !! i) /\ dk_files d !! i = dk_files d0 !! i).

Lemma as_before_refl p d : flushed d p -> as_before p d d.
Proof. intros [H1 H2]. split_and!; [done|done|]. intros i Hi. by destruct (H2 i Hi). Qed.

Lemma as_before_file p d0 d : as_before p d0 d -> file_at d p = file_at d0 p.
Proof.
  intros (E & _ & Hf). unfold file_at. rewrite E. destruct (dk_names d0 !! p) as [i|] eqn:Ei; [|done]. simpl.
  by destruct (Hf i eq_refl) as (_ & _ & ?).
Qed.

(** The old file or [f] is at [p], now and whatever is lost. *)
Definition old_or (p : string) (d0 : disk) (f : file) (d : disk) : Prop :=
  (file_at d p = file_at d0 p \/ file_at d p = Some f) /\
  forall d', power_loss d d' -> file_at d' p = file_at d0 p \/ file_at d' p = Some f.

Lemma as_before_old_or p d0 f d : as_before p d0 d -> old_or p d0 f d.
Proof.
  intros Hb. split; [left; by apply as_before_file|]. intros d' [Hn Hf]. left. destruct Hb as (E & Ho & Hi).
  destruct (Hn p) as (m & Hm & Em). assert (m !! p = dk_names d0 !! p) as E'.
  { apply elem_of_cons in Hm as [->|Hm]; [done|]. rewrite Forall_forall in Ho. by apply Ho. }
  unfold file_at. rewrite Em, E'. destruct (dk_names d0 !! p) as [i|]; [|done]. simpl.
  destruct (Hi i eq_refl) as (Hs & _ & <-). by apply Hf.
Qed.

(** Every other name leads to the file it led to. *)
Definition others (p : string) (d0 d : disk) : Prop :=
  forall q j, q <> p -> dk_names d0 !! q = Some j -> dk_names d !! q = Some j /\ dk_files d !! j = dk_files d0 !! j.

(** The temporary file [f]: its own name and inode. *)
Definition beside (p tmp : string) (i : nat) (f : file) (d0 d : disk) : Prop :=
  as_before p d0 d /\ others p d0 d /\ tmp <> p /\ dk_names d0 !! tmp = None /\ dk_names d !! tmp = Some i /\
  dk_files d !! i = Some f /\ Forall (fun m => m !! p <> Some i) (dk_names d :: dk_older d) /\
  (forall q, dk_names d0 !! q <> Some i).

Lemma beside_change p tmp i f g d0 d : beside p tmp i f d0 d -> beside p tmp i (g f) d0 (change i g d).
Proof.
  intros ((E & Ho & Hk) & Hoth & Hne & Ht0 & Ht & Hf & Hm & Hi). split_and!; try done.
  - split_and!; [done|done|]. intros j Ej. destruct (Hk j Ej) as (Hs & Hj & E').
    assert (j <> i) by (intros ->; by apply (Hi p)). simpl. rewrite lookup_alter_ne by done. split; [set_solver|done].
  - intros q j Hq Ej. destruct (Hoth q j Hq Ej) as [H1 H2]. split; [done|]. simpl.
    rewrite lookup_alter_ne; [done|]. intros <-. by apply (Hi q).
  - simpl. by rewrite lookup_alter_eq, Hf.
Qed.

Lemma beside_changes p tmp i f g d0 d x d1 : beside p tmp i f d0 d -> changes tmp g d x d1 ->
  match x with None => beside p tmp i (g f) d0 d1 | Some _ => d1 = d end.
Proof.
  intros Hb. destruct x; [done|]. intros (j & Ej & _ & ->). assert (j = i) as ->.
  { destruct Hb as (_ & _ & _ & _ & Ht & _). congruence. }
  by apply beside_change.
Qed.

Lemma beside_synced p tmp i f d0 d : beside p tmp i f d0 d ->
  beside p tmp i f d0 (mkDisk (dk_names d) (dk_older d) (dk_files d) ({[i]} ∪ dk_synced d)).
Proof.
  intros ((E & Ho & Hk) & Hrest). split; [|done]. split_and!; [done|done|]. intros j Ej.
  destruct (Hk j Ej) as (Hs & ?). split; [simpl; set_solver|done].
Qed.

(** [p] is given up: what is left is no file of its own. *)
Lemma as_before_remove p tmp d0 d : as_before p d0 d -> tmp <> p -> as_before p d0 (with_names (delete tmp (dk_names d)) d).
Proof.
  intros (E & Ho & Hk) Hne. split_and!; [by simpl; rewrite lookup_delete_ne| |done]. by constructor.
Qed.
Lemma others_remove p tmp d0 d : others p d0 d -> dk_names d0 !! tmp = None -> others p d0 (with_names (delete tmp (dk_names d)) d).
Proof.
  intros H Ht q j Hq Ej. destruct (H q j Hq Ej) as [H1 H2]. split; [|done]. simpl.
  rewrite lookup_delete_ne; [done|]. intros ->. congruence.
Qed.

(** The new file is at [p], on the disk, and the old one is still where its
    name may be lost to. *)
Definition replaced (p : string) (f : file) (d0 d : disk) : Prop :=
  exists i, dk_names d !! p = Some i /\ dk_files d !! i = Some f /\ i ∈ dk_synced d /\
    Forall (fun m => m !! p = dk_names d0 !! p \/ m !! p = Some i) (dk_older d) /\
    (forall j, dk_names d0 !! p = Some j -> j ∈ dk_synced d /\ dk_files d !! j = dk_files d0 !! j).

Lemma replaced_old_or p f d0 d : replaced p f d0 d -> old_or p d0 f d.
Proof.
  intros (i & E & Hf & Hs & Ho & Hk). split; [right; unfold file_at; by rewrite E|].
  intros d' [Hn Hfd]. destruct (Hn p) as (m & Hm & Em). rewrite Forall_forall in Ho.
  assert (m !! p = dk_names d0 !! p \/ m !! p = Some i) as [E'|E'].
  { apply elem_of_cons in Hm as [->|Hm]; [by right|by apply Ho]. }
  - left. unfold file_at. rewrite Em, E'. destruct (dk_names d0 !! p) as [j|]; [|done]. simpl.
    destruct (Hk j eq_refl) as [Hj <-]. by apply Hfd.
  - right. unfold file_at. rewrite Em, E'. simpl. by rewrite (Hfd i Hs).
Qed.

Lemma beside_rename p tmp i f d0 d : beside p tmp i f d0 d -> i ∈ dk_synced d ->
  replaced p f d0 (with_names (<[p := i]> (delete tmp (dk_names d))) d) /\
  others p d0 (with_names (<[p := i]> (delete tmp (dk_names d))) d).
Proof.
  intros ((E & Ho & Hk) & Hoth & Hne & Ht0 & Ht & Hf & Hm & Hi) Hs. split.
  - exists i. split_and!; [apply lookup_insert_eq|done|done| |].
    + constructor; [by left|]. eapply Forall_impl; [exact Ho|]. by left.
    + intros j Ej. by destruct (Hk j Ej) as (? & _ & ?).
  - intros q j Hq Ej. destruct (Hoth q j Hq Ej) as [H1 H2]. split; [|done]. simpl.
    rewrite lookup_insert_ne by done. rewrite lookup_delete_ne; [done|]. intros ->. congruence.
Qed.

(** The directory flushed, nothing but what may be lost changes. *)
Lemma replaced_sync p f d0 d dir : replaced p f d0 d ->
  replaced p f d0 (mkDisk (dk_names d) (map (flush_dir dir (dk_names d)) (dk_older d)) (dk_files d) (dk_synced d)).
Proof.
  intros (i & E & Hf & Hs & Ho & Hk). exists i. split_and!; try done. simpl.
  apply Forall_fmap. eapply Forall_impl; [exact Ho|]. intros m Hm. simpl. unfold flush_dir.
  destruct (in_dir dir p) eqn:Ed.
  - right. apply lookup_union_Some_l, map_lookup_filter_Some. done.
  - rewrite lookup_union_r by (apply map_lookup_filter_None; right; intros ? _ ?; simpl in *; congruence).
    assert (E' : filter (fun kv => in_dir dir kv.1 = false) m !! p = m !! p); [|by rewrite E'].
    destruct (m !! p) as [j|] eqn:Em.
    + by apply map_lookup_filter_Some.
    + apply map_lookup_filter_None. by left.
Qed.

(** ** [writeAtomic] *)

Definition outcome (p : string) (f : file) (d0 : disk) (r : option fs_error) (d : disk) : Prop :=
  others p d0 d /\ match r with None => replaced p f d0 d | Some _ => as_before p d0 d end.

Lemma given_up p tmp i f f' e d0 d : beside p tmp i f' d0 d ->
  wpd (old_or p d0 f) (fdo (Remove tmp) ;;; Ret (Some e)) d (outcome p f d0).
Proof.
  intros (Hb & Ho & Hne & Ht0 & _). apply wpd_call; [by apply as_before_old_or|]. intros [e'|] d1 ->.
  - by apply wpc_ret; [apply as_before_old_or|].
  - apply wpc_ret; [by apply as_before_old_or, as_before_remove|]. split; [by apply others_remove|by apply as_before_remove].
Qed.

Lemma temp_name_other l r : Forall plain_elem l -> indexByte (tmp_pattern (spell l)) "/" = None ->
  temp_name (path_Dir (spell l)) (tmp_pattern (spell l)) r <> spell l.
Proof.
  intros Hl Hpat E. destruct l as [|b q _] using rev_ind; [done|]. apply (f_equal String.length) in E. revert E.
  unfold temp_name, tmp_pattern. rewrite path_Dir_spell, path_Base_spell by done.
  change ".sfpanel-*" with (".sfpanel-" +:+ "*"). rewrite <-!sapp_assoc, trimSuffix_app, spell_snoc.
  set (dir := if hasSuffix (spell q) "/" then _ else _).
  assert (Hd : (String.length (stem q) <= String.length dir)%nat).
  { unfold dir, stem. destruct (hasSuffix _ _), q; rewrite ?slength_app; simpl; lia. }
  clearbody dir. rewrite ?slength_app. simpl. rewrite ?slength_app. simpl. lia.
Qed.

(** The temporary file just made. *)
Lemma beside_created l tmp r i d : Forall plain_elem l -> flushed d (spell l) ->
  tmp = temp_name (path_Dir (spell l)) (tmp_pattern (spell l)) r -> indexByte (tmp_pattern (spell l)) "/" = None ->
  dk_names d !! tmp = None -> Forall (fun m => forall p, m !! p <> Some i) (dk_names d :: dk_older d) ->
  beside (spell l) tmp i (mkFile "" 384 panel_uid panel_gid true) d
    (mkDisk (<[tmp := i]> (dk_names d)) (dk_names d :: dk_older d)
       (<[i := mkFile "" 384 panel_uid panel_gid true]> (dk_files d)) (dk_synced d)).
Proof.
  intros Hl (E & Ho & Hk)%as_before_refl Etmp Hpat Hfresh Hnew. set (p := spell l) in *.
  assert (Hne : tmp <> p) by (subst tmp; by apply temp_name_other).
  inversion Hnew as [|? ? Hn Hold]; subst. split; [|split; [|split_and!]]; simpl; try done; try apply lookup_insert_eq.
  - split_and!; [by simpl; rewrite lookup_insert_ne|by constructor|]. intros j Ej. destruct (Hk j Ej) as (Hs & Hj & _).
    assert (j <> i) by (intros ->; by apply (Hn p)). simpl; by rewrite lookup_insert_ne.
  - intros q j Hq Ej. simpl. split; rewrite lookup_insert_ne; try done; [intros E1|intros E1]; subst; [congruence|by apply (Hn q)].
  - constructor; [by rewrite lookup_insert_ne|]. constructor; [done|]. eapply Forall_impl; [exact Hold|]. simpl. auto.
Qed.

(** Its owner set, it is the new file. *)
Lemma beside_owned p tmp i content mode uid gid d0 d :
  let nf := new_file content mode uid gid in
  beside p tmp i (mkFile content mode panel_uid panel_gid true) d0 d ->
  wpd (old_or p d0 nf) (if (0 <=? uid) || (0 <=? gid) then fdo (TmpChown tmp uid gid) else Ret None) d
    (fun x d' => match x with Some _ => exists f', beside p tmp i f' d0 d' | None => beside p tmp i nf d0 d' end).
Proof.
  intros nf Hb. destruct ((0 <=? uid) || (0 <=? gid)) eqn:Eo.
  - split; [apply as_before_old_or, Hb|]. intros x d' H. simpl in H. apply (beside_changes _ _ _ _ _ _ _ _ _ Hb) in H.
    apply wpc_ret; [|destruct x; [subst; eauto|]].
    + destruct x; [subst; apply as_before_old_or, Hb|apply as_before_old_or, H].
    + revert H. unfold owned, nf, new_file. simpl. rewrite Eo. simpl. by rewrite !orb_false_r.
  - apply wpc_ret; [apply as_before_old_or, Hb|]. revert Hb. unfold nf, new_file. rewrite Eo. simpl. by rewrite !orb_true_r.
Qed.

Lemma beside_inode p tmp i f d0 d j : beside p tmp i f d0 d -> dk_names d !! tmp = Some j -> j = i.
Proof. intros (_ & _ & _ & _ & Ht & _). congruence. Qed.

(** Closed and renamed over the path. *)
Lemma committed p tmp i nf d0 d : beside p tmp i nf d0 d -> i ∈ dk_synced d ->
  wpd (old_or p d0 nf)
    (err <-- fdo (TmpClose tmp) ;;
     match err with
     | Some e => fdo (Remove tmp) ;;; Ret (Some e)
     | None =>
         err <-- fdo (Rename tmp p) ;;
         match err with
         | Some e => fdo (Remove tmp) ;;; Ret (Some e)
         | None => fdo (SyncDir (path_Dir p)) ;;; Ret None
         end
     end) d (outcome p nf d0).
Proof.
  intros Hb Hs. apply wpd_call; [apply as_before_old_or, Hb|]. intros x d1 ->. destruct x as [e|]; [by eapply given_up|].
  apply wpd_call; [apply as_before_old_or, Hb|]. intros [e|] d1 H; simpl in H; [subst; by eapply given_up|].
  destruct H as (j & Ej%(beside_inode _ _ _ _ _ _ _ Hb) & ->). subst j.
  destruct (beside_rename _ _ _ _ _ _ Hb Hs) as [Hr Ho].
  apply wpd_call; [by apply replaced_old_or|]. intros [e|] d1 H; simpl in H; subst.
  - apply wpc_ret; [by apply replaced_old_or|by split].
  - pose proof (replaced_sync _ _ _ _ (path_Dir p) Hr) as Hr'. apply wpc_ret; [by apply replaced_old_or|by split].
Qed.

Lemma writeAtomic_outcome l content mode uid gid d :
  Forall plain_elem l -> flushed d (spell l) ->
  wpd (old_or (spell l) d (new_file content mode uid gid)) (writeAtomic (spell l) content mode uid gid) d
    (outcome (spell l) (new_file content mode uid gid) d).
Proof.
  intros Hl Hd. set (p := spell l). set (nf := new_file content mode uid gid). pose proof (as_before_refl p d Hd) as Hb0.
  unfold writeAtomic. apply wpd_call; [by apply as_before_old_or|]. intros [tmp|e] d1 H1; simpl in H1.
  2: { subst. apply wpc_ret; [by apply as_before_old_or|by split]. }
  destruct H1 as (r & i & Etmp & Hpat & Hfresh & Hi & His & Hnew & ->).
  pose proof (beside_created l tmp r i d Hl Hd Etmp Hpat Hfresh Hnew) as Hb. revert Hb. fold p.
  generalize (mkDisk (<[tmp := i]> (dk_names d)) (dk_names d :: dk_older d)
    (<[i := mkFile "" 384 panel_uid panel_gid true]> (dk_files d)) (dk_synced d)). intros d1 Hb.
  assert (Hgive : forall f' e d1, beside p tmp i f' d d1 ->
    wpd (old_or p d nf) (fdo (TmpClose tmp) ;;; fdo (Remove tmp) ;;; Ret (Some e)) d1 (outcome p nf d)).
  { intros f' e d2 H2. apply wpd_call; [apply as_before_old_or, H2|]. intros x d3 ->. by eapply given_up. }
  apply wpd_call; [apply as_before_old_or, Hb|]. intros [e|] d2 H2; simpl in H2.
  { destruct H2 as [->|[n H2]]; [by eapply Hgive|]. eapply Hgive. by apply (beside_changes _ _ _ _ _ _ _ None _ Hb) in H2. }
  apply (beside_changes _ _ _ _ _ _ _ None _ Hb) in H2. clear Hb.
  apply wpd_call; [apply as_before_old_or, H2|]. intros x d3 H3; simpl in H3. apply (beside_changes _ _ _ _ _ _ _ _ _ H2) in H3.
  destruct x as [e|]; [subst; by eapply Hgive|]. clear H2. apply wpc_bind.
  eapply wpc_mono; [by apply beside_owned|done|]. clear H3. intros [e|] d4 H4; [destruct H4 as [f' H4]; by eapply Hgive|].
  apply wpd_call; [apply as_before_old_or, H4|]. intros [e|] d5 H5; simpl in H5; [subst; by eapply Hgive|].
  destruct H5 as (j & Ej%(beside_inode _ _ _ _ _ _ _ H4) & ->). subst j.
  apply (committed p tmp i nf); [by apply beside_synced|]. simpl. set_solver.
Qed.

(** C18: wherever a write is cut off, by the panel's end or the power's, its path
    holds the whole old file or the whole new one; the new one when it says it
    wrote it, and the old one when it says it could not. *)
Theorem writeAtomic_old_or_new p content mode uid gid d o d' :
  isAbs p = true -> flushed d (path_Clean p) ->
  runs disk_step d (writeAtomic (path_Clean p) content mode uid gid) o d' ->
  let nf := new_file content mode uid gid in
  old_or (path_Clean p) d nf d' /\
  (o = Some None -> file_at d' (path_Clean p) = Some nf) /\
  (forall e, o = Some (Some e) -> file_at d' (path_Clean p) = file_at d (path_Clean p)).
Proof.
  intros Ha. rewrite path_Clean_place by done. intros Hd Hr nf.
  destruct (wpc_sound _ _ _ _ _ _ _ (writeAtomic_outcome _ content mode uid gid d (place_plain p) Hd) Hr) as [Hc Hq].
  split_and!; [done|..].
  - intros ->. destruct (Hq _ eq_refl) as [_ (i & E & Hf & _)]. unfold file_at. by rewrite E.
  - intros e ->. destruct (Hq _ eq_refl) as [_ Hb]. by apply as_before_file.
Qed.

(** ** [writeFileStep] *)

Notation wpt := (wpd (fun _ => True)).

Lemma wpt_call {A} c (f : fanswer c -> fprog A) d Q :
  (forall x d1, disk_step d c x d1 -> wpt (f x) d1 Q) -> wpt (pbind (fdo c) f) d Q.
Proof. by apply wpc_call. Qed.
Lemma wpt_ret {A} (a : A) d (Q : A -> disk -> Prop) : Q a d -> wpt (Ret a) d Q.
Proof. by apply wpc_ret. Qed.

(** The guard only looks. *)
Definition looks (c : fcall) : Prop :=
  match c with Lstat _ | Readlink _ | EvalSymlinks _ | LookupUser _ | LookupGroup _ => True | _ => False end.
Lemma looks_still c d x d1 : looks c -> disk_step d c x d1 -> d1 = d.
Proof. destruct c; try done; intros _ H; simpl in H; try done; by destruct H. Qed.

Lemma looks_resolve n cur rest : only looks (resolve_loop n cur rest).
Proof.
  revert cur rest. induction n as [|n IHn]; intros cur rest; revert cur; induction rest as [|e rest IH]; intros cur; try done;
    simpl; destruct ((e ==s "") || (e ==s ".")); [apply IH| |apply IH|]; (destruct (e ==s ".."); [apply IH|]);
    (split; [done|]); intros [[|]|]; try done; try apply IH.
  split; [done|]. intros [t|err]; [apply IHn|done].
Qed.
Lemma looks_guard p : only looks (ValidatePathForWrite p).
Proof.
  unfold ValidatePathForWrite, validatePathForWrite. destruct (validatePath p); [done|]. apply only_bind.
  - split; [done|]. intros [r|e]; [done|]. split; [done|]. by intros [t|].
  - intros c. apply only_bind; [apply looks_resolve|]. by intros [].
Qed.

Lemma wpt_guard {A} p (f : option string -> fprog A) d Q :
  (forall r, wpt (f r) d Q) -> wpt (pbind (ValidatePathForWrite p) f) d Q.
Proof. intros Hf. apply wpc_bind. apply (wpc_still _ _ looks); [|apply looks_guard|done..].
  intros c x d1. apply looks_still.
Qed.

(** The ids a step names. *)
Definition id_of (lookup : string -> option Z) (ref : string) : option Z :=
  if ref ==s "" then Some (-1) else match atoi ref with Some n => Some n | None => lookup ref end.
Definition owner_of (step : FileStep) : option (Z * Z) :=
  if fl_Owner step ==s "" then Some (-1, -1)
  else
    let '(u, g, _) := cutByte (fl_Owner step) ":" in
    uid ← id_of users u; gid ← id_of groups g;
    if (uid =? -1) && (gid =? -1) then None else Some (uid, gid).

Lemma wpt_owner {A} step (f : result message (Z * Z) -> fprog A) d Q :
  (forall r, match r with Ok ids => owner_of step = Some ids | Err _ => owner_of step = None end -> wpt (f r) d Q) ->
  wpt (pbind (step_owner step) f) d Q.
Proof.
  intros Hf. apply wpc_bind. unfold step_owner, owner_of in *. destruct (fl_Owner step ==s ""); [by apply wpt_ret, Hf|].
  destruct (cutByte (fl_Owner step) ":") as [[u g] b]. unfold ResolveOwner, resolveOwner.
  assert (Hid : forall lk c ans ref text (k : result message Z -> fprog (result message (Z * Z))),
    (forall x d1, disk_step d (c ref) x d1 -> d1 = d /\ ans ref x = lk ref) ->
    (forall r, match r with Ok n => id_of lk ref = Some n | Err _ => id_of lk ref = None end ->
       wpt (k r) d (fun r w' => wpt (f r) w' Q)) ->
    wpt (pbind (resolve_id ref c ans text) k) d (fun r w' => wpt (f r) w' Q)).
  { intros lk c ans ref text k Hl Hk. unfold resolve_id, id_of in *. destruct (ref ==s ""); [by apply Hk|].
    destruct (atoi ref); [by apply Hk|]. apply wpc_bind, wpt_call. intros x d1 [-> E]%Hl.
    apply wpt_ret, Hk. rewrite E. by destruct (lk ref). }
  apply (Hid users); [by intros ? ? [-> ->]|]. intros [uid|e] Eu.
  2: { apply wpt_ret, Hf. by rewrite Eu. }
  apply (Hid groups); [by intros ? ? [-> ->]|]. intros [gid|e] Eg; apply wpt_ret, Hf; rewrite Eu, Eg; simpl; [|done].
  by destruct (_ && _).
Qed.

(** A file as the step asks for it. *)
Definition asked (step : FileStep) (mode : Z) (setMode : bool) (uid gid : Z) : Prop :=
  step_mode step = Ok (mode, setMode) /\ owner_of step = Some (uid, gid).
Definition as_asked (step : FileStep) (mode : Z) (setMode : bool) (uid gid : Z) (f : file) : Prop :=
  f_data f = fl_Content step /\ (setMode = true -> f_perm f = mode) /\
  (0 <= uid -> f_uid f = uid) /\ (0 <= gid -> f_gid f = gid).
Definition attrs_set (mode : Z) (setMode : bool) (uid gid : Z) (f : file) : file :=
  let f := if setMode then with_perm mode f else f in
  if (0 <=? uid) || (0 <=? gid) then owned uid gid f else f.

(** What a step that ends did: nothing, or what it says. *)
Inductive step_did (step : FileStep) (p : string) (d d' : disk) : Result -> Prop :=
| did_nothing text : file_at d' p = file_at d p -> step_did step p d d' (mkResult JobFailed false None text)
| did_half mode uid gid f text : asked step mode true uid gid -> file_at d p = Some f ->
    file_at d' p = Some (with_perm mode f) -> step_did step p d d' (mkResult JobFailed true None text)
| did_find mode setMode uid gid f : asked step mode setMode uid gid -> file_at d p = Some f ->
    as_asked step mode setMode uid gid f -> d' = d -> step_did step p d d' (mkResult JobSucceeded false None "unchanged")
| did_attrs mode setMode uid gid f : asked step mode setMode uid gid -> file_at d p = Some f ->
    f_data f = fl_Content step -> ~ as_asked step mode setMode uid gid f ->
    file_at d' p = Some (attrs_set mode setMode uid gid f) ->
    step_did step p d d' (mkResult JobSucceeded true None "mode or owner set")
| did_replace mode setMode uid gid f : asked step mode setMode uid gid -> file_at d p = Some f ->
    f_data f <> fl_Content step ->
    file_at d' p = Some (new_file (fl_Content step) (if setMode then mode else f_perm f)
                           (keep uid (f_uid f)) (keep gid (f_gid f))) ->
    step_did step p d d' (mkResult JobSucceeded true None "written")
| did_create mode setMode uid gid : asked step mode setMode uid gid -> file_at d p = None ->
    file_at d' p = Some (new_file (fl_Content step) mode uid gid) ->
    step_did step p d d' (mkResult JobSucceeded true None "written").

(** The files of other names, but for the path's own under another. *)
Definition apart (p : string) (d d' : disk) : Prop :=
  forall q j, dk_names d !! q = Some j -> dk_names d !! p <> Some j ->
  dk_names d' !! q = Some j /\ dk_files d' !! j = dk_files d !! j.

Lemma apart_refl p d : apart p d d.
Proof. done. Qed.
Lemma others_apart p d d' : others p d d' -> apart p d d'.
Proof. intros H q j Ej Hn. apply H; [|done]. intros ->. by rewrite Ej in Hn. Qed.

Variable message_text : message -> string.
Variable SanitizeOutput : string -> string.

Definition did (step : FileStep) (p : string) (d : disk) (res : Result) (d' : disk) : Prop :=
  step_did step p d d' res /\ apart p d d'.

Lemma wpt_refused step p d code text : wpt (Ret (refusedResult code text)) d (did step p d).
Proof. apply wpt_ret. split; [by constructor|apply apart_refl]. Qed.
Lemma wpt_failed step p d e : wpt (Ret (fileFailed SanitizeOutput e false)) d (did step p d).
Proof. apply wpt_ret. split; [by constructor|apply apart_refl]. Qed.
#[local] Hint Resolve wpt_refused wpt_failed : core.

Lemma write_result_did step l d content mode uid gid :
  Forall plain_elem l -> flushed d (spell l) ->
  (forall d', file_at d' (spell l) = Some (new_file content mode uid gid) ->
     step_did step (spell l) d d' (mkResult JobSucceeded true None "written")) ->
  wpt (write_result SanitizeOutput (spell l) content mode uid gid) d (did step (spell l) d).
Proof.
  intros Hl Hd Hdid. apply wpc_bind. eapply wpc_mono; [by apply writeAtomic_outcome|done|].
  intros [e|] d' [Ho Hr]; apply wpt_ret; (split; [|by apply others_apart]).
  - constructor. by apply as_before_file.
  - destruct Hr as (i & E & Hf & _). apply Hdid. unfold file_at. by rewrite E.
Qed.

Lemma file_at_change p i g d : dk_names d !! p = Some i -> file_at (change i g d) p = g <$> file_at d p.
Proof. intros E. unfold file_at. simpl. rewrite E. simpl. by rewrite lookup_alter_eq. Qed.
Lemma apart_change p i g d d' : dk_names d !! p = Some i -> apart p d d' -> dk_names d' !! p = Some i -> apart p d (change i g d').
Proof.
  intros E Ha E' q j Ej Hn. destruct (Ha q j Ej Hn) as [H1 H2]. split; [done|]. simpl.
  rewrite lookup_alter_ne; [done|]. congruence.
Qed.

Lemma setAttrs_did step p d mode setMode uid gid f :
  asked step mode setMode uid gid -> file_at d p = Some f -> f_data f = fl_Content step ->
  ~ as_asked step mode setMode uid gid f ->
  wpt (setAttrs SanitizeOutput p setMode mode uid gid) d (did step p d).
Proof.
  intros Hask Hf Hdata Hno.
  assert (Hown : forall d1 f1, file_at d1 p = Some f1 -> apart p d d1 -> dk_names d1 !! p = dk_names d !! p ->
    f1 = (if setMode then with_perm mode f else f) ->
    wpt (if (0 <=? uid) || (0 <=? gid) then
           err <-- fdo (ChownPath p uid gid) ;;
           Ret (match err with
                | Some e => fileFailed SanitizeOutput e setMode
                | None => mkResult JobSucceeded true None "mode or owner set"
                end)
         else Ret (mkResult JobSucceeded true None "mode or owner set")) d1 (did step p d)).
  { intros d1 f1 Hf1 Ha1 En ->. destruct (_ || _) eqn:Eo.
    - apply wpt_call. intros [e|] d2 H2; simpl in H2.
      + subst. apply wpt_ret. split; [|done]. unfold fileFailed. destruct setMode; [by eapply did_half|].
        constructor. congruence.
      + destruct H2 as (i & Ei & _ & ->). apply wpt_ret. split; [|apply apart_change; [congruence|done|done]].
        eapply did_attrs; [done..|]. rewrite (file_at_change p) by done. rewrite Hf1. simpl. unfold attrs_set. by rewrite Eo.
    - apply wpt_ret. split; [|done]. eapply did_attrs; [done..|]. unfold attrs_set. by rewrite Eo. }
  unfold setAttrs. cbv zeta. destruct setMode; [|by apply (Hown d f)].
  apply wpt_call. intros [e|] d1 H1; simpl in H1; [subst; apply wpt_failed|].
  destruct H1 as (i & Ei & _ & ->). eapply Hown; [|by apply apart_change|done|done].
  rewrite (file_at_change p) by done. by rewrite Hf.
Qed.

Lemma on_existing_did step l d mode setMode uid gid f dir :
  Forall plain_elem l -> flushed d (spell l) -> asked step mode setMode uid gid -> file_at d (spell l) = Some f ->
  wpt (on_existing SanitizeOutput step (spell l) mode setMode uid gid
         (mkFileInfo (f_regular f) (f_perm f) (Z.of_nat (String.length (f_data f))) (Some (f_uid f, f_gid f)) dir)) d
    (did step (spell l) d).
Proof.
  intros Hl Hd Hask Hf. unfold on_existing. apply wpc_bind.
  assert (Hh : wpt (holds (spell l) (mkFileInfo (f_regular f) (f_perm f) (Z.of_nat (String.length (f_data f)))
      (Some (f_uid f, f_gid f)) dir) (fl_Content step)) d
    (fun r d' => d' = d /\ forall same, r = Ok same -> same = (f_data f ==s fl_Content step))).
  { unfold holds. cbn [fi_Size]. unfold size_of. destruct (_ =? _) eqn:Es; cbn [negb].
    - apply wpt_call. intros [b|e] d1 [-> H1]; apply wpt_ret; (split; [done|]); intros same [= <-].
      destruct H1 as (f' & Hf' & ->). congruence.
    - apply wpt_ret. split; [done|]. intros same [= <-]. symmetry. apply String.eqb_neq. intros E.
      apply Z.eqb_neq in Es. apply Es. by rewrite E. }
  eapply wpc_mono; [exact Hh|done|]. clear Hh. intros [same|e] d' [-> Hs]; [|by apply wpt_failed].
  rewrite (Hs _ eq_refl). cbv zeta. cbn [fi_Perm fi_Sys].
  destruct (f_data f ==s fl_Content step) eqn:Ed; go_bools.
  2: { rewrite andb_false_l. simpl. apply write_result_did; [done..|]. intros d' H. by eapply did_replace. }
  rewrite andb_true_l. match goal with |- context [(negb setMode || ?a) && ?b] => set (ok := (negb setMode || a) && b) end.
  assert (Hok : ok = true <-> as_asked step mode setMode uid gid f).
  { unfold ok, as_asked. rewrite !andb_true_iff, !orb_true_iff, negb_true_iff, !Z.ltb_lt, !Z.eqb_eq.
    destruct setMode; intuition lia. }
  destruct ok; cbv iota.
  - apply wpt_ret. split; [|apply apart_refl]. eapply did_find; [done..|by apply Hok|done].
  - eapply setAttrs_did; [done..|]. by intros ?%Hok.
Qed.

(** C36: A file step that ends did what it says: it found the file as asked and
    changed nothing, set the attributes asked for, replaced the file keeping the
    attributes not asked for, or made it; or it failed, and the file is as it
    was, but for its mode where the answer says it changed (the mode set, the
    owner refused).  No other file changes. *)
Theorem writeFileStep_does step d res d' :
  flushed d (path_Clean (fl_Path step)) ->
  runs disk_step d (writeFileStep message_text SanitizeOutput step) (Some res) d' ->
  step_did step (path_Clean (fl_Path step)) d d' res /\ apart (path_Clean (fl_Path step)) d d'.
Proof.
  intros Hd Hr. refine (proj2 (wpc_sound _ (fun _ => True) _ _ (did step (path_Clean (fl_Path step)) d) _ _ _ Hr) _ eq_refl).
  clear Hr. unfold writeFileStep. destruct (isAbs (fl_Path step)) eqn:Ha.
  2: { unfold ValidatePathForWrite at 1, validatePathForWrite, validatePath. rewrite Ha.
       destruct (_ ==s ""); apply wpt_refused. }
  rewrite path_Clean_place in * by done. pose proof (place_plain (fl_Path step)) as Hl.
  apply wpt_guard. intros [e|]; [done|]. destruct (_ <? _); [done|]. cbv zeta.
  destruct (step_mode step) as [[mode setMode]|e] eqn:Em; [|done]. apply wpt_owner. intros [[uid gid]|e] Eo; [|done].
  assert (Hask : asked step mode setMode uid gid) by done.
  apply wpt_call. intros [st|e] d1 [-> H1].
  - destruct H1 as (f & dir & Hf & ->). cbn [fi_IsRegular]. destruct (f_regular f) eqn:Er; cbn [negb]; cbv iota; [|done].
    rewrite <-Er. by apply on_existing_did.
  - destruct (fe_kind e) eqn:Ek; [|done..]. assert (Hn : file_at d (spell (place (fl_Path step))) = None).
    { unfold file_at. by rewrite (proj1 H1 eq_refl). }
    unfold on_missing. apply wpt_call. intros [e'|] d1 ->; [done|]. apply wpt_guard. intros [e'|]; [done|].
    apply write_result_did; [done..|]. intros d1 Hf. by eapply did_create.
Qed.
End Disk.
