(* ===== verification/JobHost.v ===== *)
(** * A node's goroutines, and what its jobs promise

    The whole of a node's side: a pool of goroutines over one table, one call
    of one of them at a time, requests that come at any moment and a panel
    that may be restarted at any moment.  Beside it, the abstract machine of
    a node's jobs it refines, and the laws a runner keeps to. *)

From S2P Require Import Prelude GoStrings GoTime HostGuard TaskModel Interact JobProg JobOutput.
From S2P Require Import JobNode.

#[local] Open Scope prog_scope.

(** ** The laws of a runner *)

(** Calls of no consequence for the jobs. *)
Definition quiet_call (c : jcall) : Prop :=
  match c with
  | StartLock | StartUnlock | DbActive | DbInsert _ | DbFinish _ _ _ | DbSetUnit _ _ | DbSetRebooting _ _ _ | DbDelete _
  | TakeCancel _ | CallCancel _ | Launch _ _ => False
  | _ => True
  end.
(** Those and the job's own. *)
Definition own_call (id : string) (c : jcall) : Prop :=
  match c with
  | DbFinish id' res _ => id' = id /\ ends_job (rt_Status res) = true
  | DbSetUnit id' _ | DbSetRebooting id' _ _ | TakeCancel id' => id' = id
  | _ => quiet_call c
  end.

(** Whether the job's end has been recorded, or failed to be. *)
Definition finish_monitor (id : string) : jmonitor :=
  mkMonitor bool (fun _ _ => True) (fun done a => match projT1 a with DbFinish id' _ _ => done || (id' ==s id) | _ => done end).
Definition always (_ : jaction) : Prop := True.
(** A method that returns without an error has said how its job ended. *)
Definition ends_its_job (f : Job -> jprog (option string)) : Prop :=
  forall j, wp always (finish_monitor (job_ID j)) (f j) false (fun err done => err = None -> done = true).

Class RunnerLaws (rn : Runner) : Prop := {
  Start_own j : only (own_call (job_ID j)) (rn_Start rn j);
  Start_ends : ends_its_job (rn_Start rn);
  Check_quiet s : only quiet_call (rn_Check rn s);
  Refuse_quiet f s : rn_Refuse rn = Some f -> only quiet_call (f s);
  Resume_own f j : rn_Resume rn = Some f -> only (own_call (job_ID j)) (f j);
  Resume_ends f : rn_Resume rn = Some f -> ends_its_job f;
  await_own f j : rn_await rn = Some f -> only (own_call (job_ID j)) (f j);
  await_ends f j : rn_await rn = Some f -> wp always (finish_monitor (job_ID j)) (f j) false (fun _ done => done = true);
}.

(** The runners registered on a node. *)
Class RunnersLaws (runners : string -> option Runner) : Prop :=
  runners_laws kind rn : runners kind = Some rn -> RunnerLaws rn.

(** ** The node *)

Record host : Type := mkHost {
  ho_table : table;
  ho_lock : option nat;              (* the goroutine that holds startMu *)
  ho_pool : list (jprog unit);
}.

Section Host.
Variable LogDir : string.
Variable message_text : message -> string.
Variable SanitizeOutput : string -> string.
Variable SanitizeLogPiece : string -> string.
Variable runners : string -> option Runner.

(** The goroutine of a request. *)
Inductive request : jprog unit -> Prop :=
| req_start verified spec user :
    request (StartJob LogDir SanitizeLogPiece runners verified spec user ;;; Ret tt)
| req_get verified id skip : request (GetJob LogDir SanitizeLogPiece verified id skip ;;; Ret tt)
| req_cancel verified id force : request (CancelJob LogDir SanitizeLogPiece verified id force ;;; Ret tt)
| req_check verified specs : request (CheckJobs message_text runners verified specs ;;; Ret tt).

(** The goroutines a call starts. *)
Definition spawned (c : jcall) : list (jprog unit) :=
  match c with Launch l j => [launched_body SanitizeOutput runners l j] | _ => [] end.

Definition may_call (h : host) (c : jcall) : Prop := match c with StartLock => ho_lock h = None | _ => True end.
Definition lock_after (h : host) (i : nat) (c : jcall) : option nat :=
  match c with StartLock => Some i | StartUnlock => None | _ => ho_lock h end.

(** A step, with the call it made and its answer if it made one. *)
Inductive host_step : host -> option jaction -> host -> Prop :=
| step_call h i c k x t :
    ho_pool h !! i = Some (Do c k) -> may_call h c -> table_step (ho_table h) c x t ->
    host_step h (Some (jact c x)) (mkHost t (lock_after h i c) (<[i := k x]> (ho_pool h) ++ spawned c))
| step_request h p : request p -> host_step h None (mkHost (ho_table h) (ho_lock h) (ho_pool h ++ [p]))
| step_restart h : host_step h None (mkHost (ho_table h) None [Recover LogDir runners]).

Inductive host_steps : host -> list (option jaction) -> host -> Prop :=
| steps_nil h : host_steps h [] h
| steps_snoc h tr h' a h'' : host_steps h tr h' -> host_step h' a h'' -> host_steps h (tr ++ [a]) h''.

(** A panel's first start: no job yet. *)
Definition new_host : host := mkHost [] None [Recover LogDir runners].
End Host.

(** ** What a node's jobs are to the cluster *)

Inductive phase : Type := PhaseRunning | PhaseRebooting | PhaseEnded (status : string).
#[export] Instance phase_eq_dec : EqDecision phase.
Proof. solve_decision. Defined.

(** Each job known, with its spec and where it is. *)
Notation book := (gmap string (JobSpec * phase)).
Definition in_progress (p : phase) : bool := match p with PhaseEnded _ => false | _ => true end.
Definition free_book (b : book) : Prop := forall id s p, b !! id = Some (s, p) -> in_progress p = false.

(** The jobs known, and those a sweep has listed. *)
Notation ledger := (book * gset string)%type.
(** A job starts on a free node under a new ID; it goes on to its reboot or
    to its end, once; a sweep lists jobs that have ended; and a job listed is
    forgotten. *)
Inductive book_step : ledger -> ledger -> Prop :=
| book_start b l s :
    b !! js_ID s = None -> free_book b -> book_step (b, l) (<[js_ID s := (s, PhaseRunning)]> b, l)
| book_reboot b l id s : b !! id = Some (s, PhaseRunning) -> book_step (b, l) (<[id := (s, PhaseRebooting)]> b, l)
| book_end b l id s p status : b !! id = Some (s, p) -> in_progress p = true -> ends_job status = true ->
    book_step (b, l) (<[id := (s, PhaseEnded status)]> b, l)
| book_list b l (ids : gset string) :
    (forall id, id ∈ ids -> exists s status, b !! id = Some (s, PhaseEnded status)) -> book_step (b, l) (b, l ∪ ids)
| book_forget b l id : id ∈ l -> book_step (b, l) (delete id b, l).

(** The jobs a step lists, and a run of the node. *)
Definition listed_by (a : option jaction) : gset string :=
  match a with Some (existT (DbOld _ _) (Ok ids)) => list_to_set ids | _ => ∅ end.
Definition listed (tr : list (option jaction)) : gset string := ⋃ (map listed_by tr).

Definition phase_of (status : string) : phase :=
  if status ==s JobRunning then PhaseRunning
  else if status ==s JobRebooting then PhaseRebooting
  else PhaseEnded status.
Definition entry (r : record) : string * (JobSpec * phase) := (jr_ID r, (jr_spec r, phase_of (jr_status r))).
Definition book_of (t : table) : book := list_to_map (map entry t).
