(* ===== verification/JobHostFacts.v ===== *)
(** * A node's jobs, whatever its goroutines do

    The invariant of the pool: the table holds each job once and one job in
    progress at most, and only the goroutine that holds the lock and saw the
    node free records a new one.  With it each step of the node is one of
    the abstract machine. *)

From S2P Require Import Prelude GoStrings GoTime HostGuard TaskModel Interact JobProg JobOutput.
From S2P Require Import JobNode.
From S2P Require Import JobHost.

#[local] Open Scope prog_scope.

(** ** The table *)

Definition known_status (status : string) : bool := active status || ends_job status.

Record table_ok (t : table) : Prop := {
  to_ids : NoDup (map jr_ID t);
  to_status r : r ∈ t -> known_status (jr_status r) = true;
  to_one r1 r2 : r1 ∈ t -> r2 ∈ t -> active (jr_status r1) = true -> active (jr_status r2) = true -> r1 = r2;
}.
Definition no_active (t : table) : Prop := forall r, r ∈ t -> active (jr_status r) = false.

Lemma ends_not_active status : ends_job status = true -> active status = false.
Proof.
  unfold ends_job. rewrite slices_contains_spec. set_unfold.
  by intros [-> | [-> | [-> | [-> | []]]]].
Qed.

Lemma phase_ended status : ends_job status = true -> phase_of status = PhaseEnded status.
Proof.
  intros H%ends_not_active. unfold active, phase_of in *. go_bools. by go_cases; go_bools.
Qed.

Lemma in_progress_active status : in_progress (phase_of status) = active status.
Proof. unfold phase_of, active. by destruct (status ==s JobRunning), (status ==s JobRebooting). Qed.

Lemma find_job_None id t : find_job id t = None <-> id ∉ map jr_ID t.
Proof.
  unfold find_job. induction t as [|r t IH]; cbn [List.find map]; [set_solver|].
  destruct (jr_ID r ==s id) eqn:E; go_bools; rewrite not_elem_of_cons; [naive_solver|]. rewrite IH. naive_solver.
Qed.

Lemma sql_active_None t : sql_active t = None <-> no_active t.
Proof.
  unfold sql_active, no_active. split.
  - intros H r Hr. destruct (active (jr_status r)) eqn:E; [|done].
    assert (Hf : r ∈ List.filter (fun r => active (jr_status r)) t)
      by (by apply list_elem_of_In, List.filter_In; rewrite <-list_elem_of_In).
    destruct (List.filter _ t) as [|r' l]; [by apply not_elem_of_nil in Hf|].
    simpl in H. by destruct (earliest l).
  - intros H. assert (List.filter (fun r => active (jr_status r)) t = []) as ->; [|done].
    induction t as [|r t IH]; [done|]. simpl. rewrite H by set_solver. apply IH. intros r' Hr'. apply H. set_solver.
Qed.

Lemma elem_of_update P f t r' : r' ∈ update_where P f t <-> exists r, r ∈ t /\ r' = (if P r then f r else r).
Proof. unfold update_where. rewrite list_elem_of_fmap. naive_solver. Qed.

Lemma elem_of_delete id t r : r ∈ sql_delete id t <-> r ∈ t /\ jr_ID r <> id.
Proof.
  unfold sql_delete. rewrite !list_elem_of_In, List.filter_In, negb_true_iff. by rewrite String.eqb_neq.
Qed.

Lemma update_ids P f t : (forall r, jr_ID (f r) = jr_ID r) -> map jr_ID (update_where P f t) = map jr_ID t.
Proof.
  intros Hf. unfold update_where. rewrite map_map. apply map_ext. intros r. by destruct (P r).
Qed.

Lemma delete_ids id t : map jr_ID (sql_delete id t) = filter (.≠ id) (map jr_ID t).
Proof.
  unfold sql_delete. induction t as [|r t IH]; [done|]. cbn [List.filter map]. rewrite filter_cons.
  destruct (jr_ID r ==s id) eqn:E; go_bools; [|cbn [negb map]; rewrite IH]; by case_decide.
Qed.

(** An update of rows that keeps each row's job, and leaves none in progress
    that was not. *)
Lemma update_ok P f t :
  table_ok t -> (forall r, jr_ID (f r) = jr_ID r) ->
  (forall r, r ∈ t -> P r = true ->
     known_status (jr_status (f r)) = true /\ (active (jr_status (f r)) = true -> active (jr_status r) = true)) ->
  table_ok (update_where P f t).
Proof.
  intros [Hid Hst Hone] Hf HP. split.
  - by rewrite update_ids.
  - intros r' (r & Hr & ->)%elem_of_update. destruct (P r) eqn:E; [by apply HP|by apply Hst].
  - intros r1' r2' (r1 & Hr1 & ->)%elem_of_update (r2 & Hr2 & ->)%elem_of_update A1 A2.
    assert (r1 = r2) as ->; [|done]. apply Hone; [done..| |].
    + destruct (P r1) eqn:E; [by apply (HP r1)|done].
    + destruct (P r2) eqn:E; [by apply (HP r2)|done].
Qed.

Lemma update_no_active P f t :
  no_active t -> (forall r, r ∈ t -> P r = true -> active (jr_status (f r)) = true -> active (jr_status r) = true) ->
  no_active (update_where P f t).
Proof.
  intros H HP r' (r & Hr & ->)%elem_of_update. destruct (P r) eqn:E; [|by apply H].
  destruct (active (jr_status (f r))) eqn:E'; [|done]. apply HP in E'; [|done..]. by rewrite H in E'.
Qed.

(** ** The table as the abstract machine sees it *)

Lemma book_lookup t id s p :
  NoDup (map jr_ID t) ->
  book_of t !! id = Some (s, p) <-> exists r, r ∈ t /\ jr_ID r = id /\ jr_spec r = s /\ phase_of (jr_status r) = p.
Proof.
  intros H. unfold book_of. rewrite <-elem_of_list_to_map.
  - rewrite list_elem_of_fmap. unfold entry. split.
    + intros (r & [= -> -> ->] & Hr). by exists r.
    + intros (r & Hr & <- & <- & <-). by exists r.
  - rewrite <-list_fmap_compose. exact H.
Qed.

Lemma book_lookup_None t id : book_of t !! id = None <-> id ∉ map jr_ID t.
Proof.
  unfold book_of. rewrite <-not_elem_of_list_to_map, <-list_fmap_compose. done.
Qed.

Lemma book_snoc t r : find_job (jr_ID r) t = None ->
  book_of (t ++ [r]) = <[jr_ID r := (jr_spec r, phase_of (jr_status r))]> (book_of t).
Proof.
  intros H%find_job_None. unfold book_of. rewrite map_app. cbn [map]. apply list_to_map_snoc.
  rewrite <-list_fmap_compose. exact H.
Qed.

Lemma book_delete t id : NoDup (map jr_ID t) -> book_of (sql_delete id t) = delete id (book_of t).
Proof.
  intros H. apply map_eq. intros id'. destruct (decide (id' = id)) as [->|Hne].
  - rewrite lookup_delete_eq. apply book_lookup_None. rewrite delete_ids, list_elem_of_filter. naive_solver.
  - rewrite lookup_delete_ne by done. apply option_eq. intros [s p]. rewrite !book_lookup; [|done|].
    + setoid_rewrite elem_of_delete. naive_solver.
    + rewrite delete_ids. by apply NoDup_filter.
Qed.

(** An update of the row of one job. *)
Lemma book_update P f t id r :
  NoDup (map jr_ID t) -> r ∈ t -> P r = true -> (forall r, P r = true -> jr_ID r = id) ->
  (forall r, jr_spec (f r) = jr_spec r) ->
  book_of (update_where P f t) = <[id := (jr_spec r, phase_of (jr_status (f r)))]> (book_of t).
Proof.
  intros Hn Hr Hp HP Hs. assert (Hid : forall r, jr_ID (f r) = jr_ID r) by (intros x; unfold jr_ID; by rewrite Hs).
  assert (Huniq : forall r', r' ∈ t -> jr_ID r' = id -> r' = r).
  { intros r' Hr' E. apply list_elem_of_lookup in Hr as [i Hi], Hr' as [j Hj].
    assert (i = j); [|by simplify_eq]. apply (NoDup_lookup _ i j id Hn); rewrite list_lookup_fmap.
    - rewrite Hi. simpl. by rewrite HP.
    - rewrite Hj. simpl. by rewrite E. }
  apply map_eq. intros id'. apply option_eq. intros [s p]. rewrite book_lookup by (by rewrite update_ids).
  setoid_rewrite elem_of_update. destruct (decide (id' = id)) as [->|Hne].
  - rewrite lookup_insert_eq. split.
    + intros (r' & (r0 & Hr0 & ->) & E & <- & <-). destruct (P r0) eqn:E0.
      * rewrite (Huniq r0) by (done || by apply HP). by rewrite Hs.
      * rewrite (Huniq r0) in E0 by done. congruence.
    + intros [= <- <-]. exists (f r). split; [|by rewrite Hid, Hs, HP].
      exists r. by rewrite Hp.
  - rewrite lookup_insert_ne by done. rewrite book_lookup by done. split.
    + intros (r' & (r0 & Hr0 & ->) & E & <- & <-). destruct (P r0) eqn:E0.
      * exfalso. apply Hne. rewrite <-E, Hid. by apply HP.
      * by exists r0.
    + intros (r0 & Hr0 & E & <- & <-). exists r0. split; [|done]. exists r0. split; [done|].
      destruct (P r0) eqn:E0; [|done]. exfalso. apply Hne. rewrite <-E. by apply HP.
Qed.

Lemma update_nothing P f t : (forall r, r ∈ t -> P r = false) -> update_where P f t = t.
Proof.
  intros H. unfold update_where. induction t as [|r t IH]; [done|]. simpl. rewrite H by set_solver.
  f_equal. apply IH. intros r' Hr'. apply H. set_solver.
Qed.

Lemma update_cases P (t : table) : (exists r, r ∈ t /\ P r = true) \/ (forall r : record, r ∈ t -> P r = false).
Proof.
  destruct (existsb P t) eqn:E.
  - left. apply existsb_exists in E as (r & Hr & HP). exists r. by rewrite list_elem_of_In.
  - right. intros r Hr. destruct (P r) eqn:E'; [|done]. assert (existsb P t = true); [|congruence].
    apply existsb_exists. exists r. by rewrite <-list_elem_of_In.
Qed.

(** ** What a goroutine knows of the lock and the node *)

Inductive know : Type := Outside | Locked | Free | Recorded (id : string).
#[export] Instance know_eq_dec : EqDecision know.
Proof. solve_decision. Defined.

Definition know_ok (k : know) (a : jaction) : Prop :=
  match projT1 a with
  | StartLock => k = Outside
  | StartUnlock => k <> Outside
  | DbInsert r => k = Free /\ jr_status r = JobRunning
  | DbFinish _ res _ => ends_job (rt_Status res) = true
  | Launch LaunchStart j => k = Recorded (job_ID j)
  | _ => True
  end.
Definition know_next (k : know) (a : jaction) : know :=
  match a with
  | existT c x =>
      match c return janswer c -> know with
      | StartLock => fun _ => Locked
      | StartUnlock => fun _ => Outside
      | DbActive => fun x => match k, x with Locked, Ok None => Free | _, _ => k end
      | DbInsert r => fun x => match x with None => Recorded (jr_ID r) | Some _ => k end
      | Launch LaunchStart _ => fun _ => Locked
      | _ => fun _ => k
      end x
  end.
Definition know_monitor : jmonitor := mkMonitor know know_ok know_next.

(** A goroutine that plays by the rules from what it knows. *)
Definition safe (k : know) (p : jprog unit) : Prop := wp always know_monitor p k (fun _ k => k = Outside).

(** Calls that change nothing of it. *)
Definition plain_call (c : jcall) : Prop :=
  match c with
  | StartLock | StartUnlock | DbInsert _ | DbActive | Launch LaunchStart _ => False
  | DbFinish _ res _ => ends_job (rt_Status res) = true
  | _ => True
  end.

Lemma wp_plain {A} (p : jprog A) k (Q : A -> know -> Prop) :
  only plain_call p -> (forall a, Q a k) -> wp always know_monitor p k Q.
Proof.
  apply wp_only. intros c x Hc. destruct c; simpl in *; try done. by destruct l.
Qed.

Lemma quiet_plain c : quiet_call c -> plain_call c.
Proof. by destruct c. Qed.
Lemma own_plain id c : own_call id c -> plain_call c.
Proof. destruct c; try done. by intros [_ ?]. Qed.

Section Host.
Variable LogDir : string.
Variable message_text : message -> string.
Variable SanitizeOutput : string -> string.
Variable SanitizeLogPiece : string -> string.
Variable runners : string -> option Runner.
Context `{!RunnersLaws runners}.

Notation host_steps := (host_steps LogDir message_text SanitizeOutput SanitizeLogPiece runners).
Notation host_step := (host_step LogDir message_text SanitizeOutput SanitizeLogPiece runners).
Notation new_host := (new_host LogDir runners).

(** ** The goroutines of a node play by the rules *)

Lemma only_finish id r : only plain_call (finish id r).
Proof. unfold finish. destruct (ends_job _) eqn:E; simpl negb; cbv iota; [|done]. by only_go. Qed.

Lemma only_sweep_ids ids : only plain_call (sweep_ids LogDir ids).
Proof. induction ids as [|id ids IH]; simpl sweep_ids; only_go. Qed.
Lemma only_sweep : only plain_call (sweep LogDir).
Proof. pose proof only_sweep_ids. unfold sweep. only_go. Qed.

Lemma only_view r skip out : only plain_call (view LogDir SanitizeLogPiece r skip out).
Proof. unfold view. only_go. Qed.

Lemma only_recover_all f rs : (forall r, only plain_call (f r)) -> only plain_call (recover_all f rs).
Proof. intros Hf. induction rs as [|r rs IH]; simpl; [done|]. by apply only_bind. Qed.

Lemma only_Recover : only plain_call (Recover LogDir runners).
Proof.
  pose proof only_sweep. pose proof only_finish. unfold Recover, recoverRebooting. only_go.
  - apply only_recover_all. intros r. unfold recover_running. only_go.
  - apply only_recover_all. intros r. unfold recover_reboot, settleReboot. only_go.
Qed.

Lemma only_run_method f j : only (own_call (job_ID j)) (f j) -> only plain_call (run_method SanitizeOutput f j).
Proof.
  intros H. pose proof only_finish. unfold run_method. only_go. eapply only_mono; [|done]. apply own_plain.
Qed.

Lemma only_launched l j : only plain_call (launched_body SanitizeOutput runners l j).
Proof.
  unfold launched_body. destruct l.
  - destruct (runners _) as [rn|] eqn:E; [|done]. apply only_run_method. by apply (runners_laws _ _ E).
  - destruct (runners _) as [rn|] eqn:E; simpl; [|done]. destruct (rn_Resume rn) as [f|] eqn:Ef; [|done].
    apply only_run_method. by apply (@Resume_own rn (runners_laws _ _ E)).
  - destruct (runners _) as [rn|] eqn:E; simpl; [|done]. destruct (rn_await rn) as [f|] eqn:Ef; [|done].
    eapply only_mono; [apply own_plain|]. by apply (@await_own rn (runners_laws _ _ E)).
Qed.

Lemma only_refuse rn kind spec : runners kind = Some rn ->
  only plain_call (match rn_Refuse rn with Some refuse => refuse spec | None => Ret None end).
Proof.
  intros E. destruct (rn_Refuse rn) as [f|] eqn:Ef; [|done]. eapply only_mono; [apply quiet_plain|].
  by apply (@Refuse_quiet rn (runners_laws _ _ E)).
Qed.

Lemma only_check rn kind spec : runners kind = Some rn -> only plain_call (rn_Check rn spec).
Proof. intros E. eapply only_mono; [apply quiet_plain|]. by apply (runners_laws _ _ E). Qed.

Lemma only_check_specs specs : only plain_call (check_specs message_text runners specs).
Proof.
  induction specs as [|s specs IH]; simpl check_specs; only_go. by eapply only_check.
Qed.

Ltac know_do x := apply wp_call; intros x _; split; [by simpl|cbn [know_monitor mn_next know_next]].
Ltac unlock_do := apply wp_call; intros ? _; split; [done|cbn [know_monitor mn_next know_next wp]].

Lemma know_start_locked spec rn kind user (Q : job_answer + record -> know -> Prop) :
  runners kind = Some rn -> (forall x, Q x Outside) ->
  wp always know_monitor (start_locked LogDir SanitizeLogPiece spec rn user) Locked Q.
Proof.
  intros E HQ. unfold start_locked. know_do rec. destruct rec as [[rec|]|e]; [unlock_do| |unlock_do; apply HQ].
  { apply wp_bind, wp_plain; [apply only_view|]. intros v. apply HQ. }
  apply wp_bind, wp_plain; [by eapply only_refuse|]. intros [ref|]; [unlock_do; apply HQ|].
  know_do holder. destruct holder as [[holder|]|e]; [unlock_do; apply HQ| |unlock_do; apply HQ].
  know_do boot. know_do now. know_do err. destruct err; [unlock_do; apply HQ|].
  know_do err. destruct err; [unlock_do; apply HQ|].
  know_do u. unlock_do. apply HQ.
Qed.

Lemma safe_request p : request LogDir message_text SanitizeLogPiece runners p -> safe Outside p.
Proof.
  intros [verified spec user|verified id skip|verified id force|verified specs]; apply wp_bind.
  - unfold StartJob. destruct (negb verified); [done|]. destruct spec as [spec|]; [|done].
    destruct (validate runners spec) as [rn|msg] eqn:Ev; [|done].
    assert (exists kind, runners kind = Some rn) as [kind Hk].
    { unfold validate in Ev. go_cases. eauto. }
    know_do u. apply wp_bind. eapply know_start_locked; [done|]. intros [a|rec]; [done|].
    apply wp_bind, wp_plain; [apply only_sweep|]. intros _. apply wp_bind, wp_plain; [apply only_view|]. done.
  - apply wp_plain; [|done]. pose proof only_view. unfold GetJob, lookup. only_go.
  - apply wp_plain; [|done]. pose proof only_view. unfold CancelJob, lookup. only_go.
  - apply wp_plain; [|done]. pose proof only_check_specs. unfold CheckJobs. only_go.
Qed.

(** ** The invariant of the pool *)

(** What the goroutines know, one by one: each plays by the rules from it,
    only the holder of the lock knows anything, and a node seen free is
    free. *)
Record pool_ok (h : host) (ks : list know) : Prop := {
  po_length : length ks = length (ho_pool h);
  po_safe i p k : ho_pool h !! i = Some p -> ks !! i = Some k -> safe k p;
  po_lock i k : ks !! i = Some k -> k <> Outside <-> ho_lock h = Some i;
  po_held i : ho_lock h = Some i -> (i < length ks)%nat;
  po_free i : ks !! i = Some Free -> no_active (ho_table h);
}.

(** A call of a goroutine, as the table and the knowledge see it. *)
Lemma table_step_ok t c x t' k :
  table_ok t -> (k = Free -> no_active t) -> know_ok k (jact c x) -> table_step t c x t' -> table_ok t'.
Proof.
  intros Ht Hfree Hok Hs. pose proof Ht as [Hid Hks Hone].
  destruct c; simpl in Hs; try (by subst); try (by destruct Hs as [-> _]).
  - destruct x as [e|]; [by subst|]. destruct Hs as [Hn%find_job_None ->]. destruct Hok as [-> Hst].
    specialize (Hfree eq_refl). split.
    + rewrite map_app. simpl. apply NoDup_app. split_and!; [done|set_solver|apply NoDup_singleton].
    + intros r' [Hr'| ->%list_elem_of_singleton]%elem_of_app; [by apply Hks|]. by rewrite Hst.
    + intros r1 r2 H1 H2 A1 A2.
      apply elem_of_app in H1 as [H1| ->%list_elem_of_singleton]; [by rewrite Hfree in A1|].
      apply elem_of_app in H2 as [H2| ->%list_elem_of_singleton]; [by rewrite Hfree in A2|done].
  - destruct x as [e|]; subst; [done|]. apply update_ok; [done|done|]. intros r' Hr' Hp. simpl in *.
    split; [|by intros ?; go_bools]. unfold known_status. by rewrite Hok, orb_true_r.
  - destruct x as [e|]; subst; [done|]. apply update_ok; [done|done|]. intros r' Hr' Hp. simpl. auto.
  - destruct x as [b|e]; [|by subst]. destruct Hs as [_ ->]. apply update_ok; [done|done|].
    intros r' Hr' Hp. unfold still_running in Hp. go_bools. simpl. split; [done|]. intros _. by rewrite H0.
  - destruct x as [e|]; subst; [done|]. split.
    + rewrite delete_ids. by apply NoDup_filter.
    + intros r' [Hr' _]%elem_of_delete. auto.
    + intros r1 r2 [? _]%elem_of_delete [? _]%elem_of_delete. auto.
Qed.

Lemma table_step_free t c x t' :
  no_active t -> table_step t c x t' -> (forall r, c = DbInsert r -> t' = t) -> no_active t'.
Proof.
  intros Hf Hs Hi. destruct c; simpl in Hs; try (by subst); try (by destruct Hs as [-> _]).
  - by erewrite Hi.
  - destruct x; subst; [done|]. apply update_no_active; [done|]. intros r' _ Hp _. by go_bools.
  - destruct x; subst; [done|]. by apply update_no_active.
  - destruct x; [|by subst]. destruct Hs as [_ ->]. apply update_no_active; [done|].
    intros r' _ Hp _. unfold still_running in Hp. go_bools. by rewrite H0.
  - destruct x; subst; [done|]. intros r' [? _]%elem_of_delete. auto.
Qed.

Lemma safe_spawned c : Forall (safe Outside) (spawned SanitizeOutput runners c).
Proof.
  destruct c; simpl; try constructor; [|done]. apply wp_plain; [|done]. apply only_launched.
Qed.

Lemma know_next_cases t k c x t' :
  know_ok k (jact c x) -> table_step t c x t' ->
  (know_next k (jact c x) = Outside <->
     match c with StartLock => False | StartUnlock => True | _ => k = Outside end) /\
  (know_next k (jact c x) = Free -> no_active t' \/ k = Free /\ forall r, c = DbInsert r -> t' = t).
Proof.
  unfold know_ok. intros Hok Hs. destruct c; simpl in *; try (split; [naive_solver|]; by right); try done.
  - destruct Hs as [-> Hx]. destruct k; try (split; [naive_solver|]; by right).
    destruct x as [[r|]|e]; try (split; [naive_solver|]; by right). split; [done|]. intros _. left.
    apply sql_active_None. by apply eq_sym, Hx.
  - destruct Hok as [-> ?]. destruct x; [|done]. split; [done|]. right. by subst.
  - destruct l; simpl in *; [by subst k|split; [done|]; by right..].
Qed.
Definition knows (ks : list know) (i : nat) (k' : know) (c : jcall) : list know :=
  <[i := k']> ks ++ map (fun _ => Outside) (spawned SanitizeOutput runners c).

Lemma knows_lookup ks i k' c j k :
  knows ks i k' c !! j = Some k ->
  (i < length ks)%nat ->
  (j = i /\ k = k') \/ (j <> i /\ ks !! j = Some k) \/ ((length ks <= j)%nat /\ k = Outside).
Proof.
  unfold knows. intros H Hi. apply lookup_app_Some in H as [H|[Hl H]]; rewrite ?length_insert in *.
  - apply list_lookup_insert_Some in H as [(<- & <- & _)|[? ?]]; [by left|]. right; left. by split; [congruence|].
  - right; right. split; [done|]. rewrite list_lookup_fmap in H. by destruct (spawned _ _ c !! _); simplify_eq/=.
Qed.

Lemma pool_step h ks i c f x t' :
  table_ok (ho_table h) -> pool_ok h ks -> ho_pool h !! i = Some (Do c f) -> may_call h c ->
  table_step (ho_table h) c x t' ->
  exists k, ks !! i = Some k /\ know_ok k (jact c x) /\
    pool_ok (mkHost t' (lock_after h i c) (<[i := f x]> (ho_pool h) ++ spawned SanitizeOutput runners c))
      (knows ks i (know_next k (jact c x)) c).
Proof.
  intros Ht [Hlen Hsafe Hlock Hheld Hfree] Hp Hmay Hs. pose proof (lookup_lt_Some _ _ _ Hp) as Hi.
  destruct (lookup_lt_is_Some_2 ks i) as [k Hk]; [lia|]. exists k. split; [done|].
  pose proof (Hsafe _ _ _ Hp Hk) as Hw. destruct (Hw x I) as [Hok Hw']. split; [done|].
  destruct (know_next_cases _ _ _ _ _ Hok Hs) as [Hout Hnf].
  assert (Hother : forall j kj, j <> i -> ks !! j = Some kj -> kj <> Outside -> k = Outside /\ c <> StartLock).
  { intros j kj Hj Hkj Hne. pose proof (proj1 (Hlock _ _ Hkj) Hne) as E. split.
    - destruct (decide (k = Outside)) as [|Hne']; [done|]. apply (Hlock _ _ Hk) in Hne'. congruence.
    - intros ->. simpl in Hmay. congruence. }
  split.
  - unfold knows. simpl. by rewrite !length_app, !length_insert, length_map, Hlen.
  - intros j p kj Hj Hkj. simpl in Hj. apply knows_lookup in Hkj; [|lia].
    destruct Hkj as [[-> ->]|[[Hne Hkj]|[Hge ->]]].
    + rewrite lookup_app_l in Hj by (by rewrite length_insert). rewrite list_lookup_insert_eq in Hj by done.
      by simplify_eq.
    + pose proof (lookup_lt_Some _ _ _ Hkj). rewrite lookup_app_l in Hj by (rewrite length_insert; lia).
      rewrite list_lookup_insert_ne in Hj by done. by eapply Hsafe.
    + rewrite lookup_app_r in Hj by (rewrite length_insert; lia).
      eapply (Forall_lookup_1 _ _ _ _ (safe_spawned c)). done.
  - intros j kj Hkj. simpl. apply knows_lookup in Hkj; [|lia].
    destruct Hkj as [[-> ->]|[[Hne Hkj]|[Hge ->]]].
    + rewrite Hout. unfold lock_after. destruct c; try (rewrite (Hlock _ _ Hk); done); naive_solver.
    + split; [|unfold lock_after].
      * intros Hkj'. destruct (Hother _ _ Hne Hkj Hkj') as [-> ?]. unfold know_ok in Hok.
        destruct c; simpl in *; try done; by apply (Hlock _ _ Hkj).
      * destruct c; try (by apply (Hlock _ _ Hkj)); intros [= E]; congruence.
    + split; [done|]. intros E. exfalso. unfold lock_after in E.
      destruct c; try (apply Hheld in E; lia); [simplify_eq; lia|done].
  - intros j E. simpl in E. unfold knows. rewrite length_app, length_insert. unfold lock_after in E.
    destruct c; try (apply Hheld in E; lia); [simplify_eq; lia|done].
  - intros j Hj. simpl. apply knows_lookup in Hj; [|lia]. destruct Hj as [[-> E]|[[Hne Hj]|[_ ?]]]; [| |done].
    + destruct (Hnf (eq_sym E)) as [?|[-> Hi']]; [done|]. eapply table_step_free; [|done..]. by eapply Hfree.
    + destruct (Hother _ _ Hne Hj) as [-> _]; [done|]. eapply table_step_free; [by eapply Hfree|done|].
      intros r ->. by destruct Hok.
Qed.

(** ** What holds of every node that runs *)

Definition host_ok (h : host) : Prop := table_ok (ho_table h) /\ exists ks, pool_ok h ks.

(** A panel that has just started has one goroutine, which knows nothing. *)
Lemma pool_ok_boot t : pool_ok (mkHost t None [Recover LogDir runners]) [Outside].
Proof.
  split; simpl; [done| |intros [|i] k; by naive_solver|done|by intros [|i]].
  intros [|i] p k; intros; simplify_eq/=. apply wp_plain; [|done]. apply only_Recover.
Qed.

Lemma host_ok_new : host_ok new_host.
Proof.
  split; [split; [constructor|set_solver..]|]. exists [Outside]. apply pool_ok_boot.
Qed.

Lemma pool_ok_more h ks p : pool_ok h ks -> safe Outside p ->
  pool_ok (mkHost (ho_table h) (ho_lock h) (ho_pool h ++ [p])) (ks ++ [Outside]).
Proof.
  intros [Hlen Hsafe Hlock Hheld Hfree] Hp. split; simpl.
  - rewrite !length_app. simpl. lia.
  - intros i q k Hq Hk. apply lookup_app_Some in Hq as [Hq|[Hl Hq]], Hk as [Hk|[Hl' Hk]].
    + by eapply Hsafe.
    + pose proof (lookup_lt_Some _ _ _ Hq). lia.
    + pose proof (lookup_lt_Some _ _ _ Hk). lia.
    + apply list_lookup_singleton_Some in Hq as [_ <-], Hk as [_ <-]. done.
  - intros i k [Hk|[Hl Hk]]%lookup_app_Some; [by apply Hlock|].
    apply list_lookup_singleton_Some in Hk as [? <-]. split; [done|]. intros ?%Hheld. lia.
  - intros i ?%Hheld. rewrite length_app. lia.
  - intros i [Hk|[_ Hk]]%lookup_app_Some; [by eapply Hfree|]. by apply list_lookup_singleton_Some in Hk as [_ ?].
Qed.

Lemma host_ok_step h a h' : host_ok h -> host_step h a h' -> host_ok h'.
Proof.
  intros [Ht (ks & Hks)] Hs. destruct Hs as [h i c f x t' Hp Hmay Hts|h p Hp|h].
  - destruct (pool_step _ _ _ _ _ _ _ Ht Hks Hp Hmay Hts) as (k & Hk & Hok & Hks'). split; [|by eexists].
    simpl. eapply table_step_ok; [done| |done..]. intros ->. by eapply po_free.
  - split; [done|]. exists (ks ++ [Outside]). apply pool_ok_more; [done|]. by apply safe_request.
  - split; [done|]. exists [Outside]. apply pool_ok_boot.
Qed.

Lemma host_ok_steps tr h : host_steps new_host tr h -> host_ok h.
Proof.
  intros H. remember new_host as h0. induction H as [|h0 tr h a h' _ IH Hs]; subst; [apply host_ok_new|].
  eapply host_ok_step; [by apply IH|done].
Qed.

(** ** Only a sweep drops jobs, and only those it listed *)

Definition sweep_monitor : jmonitor :=
  mkMonitor (gset string) (fun l a => match projT1 a with DbDelete id => id ∈ l | _ => True end)
    (fun l a => l ∪ listed_by (Some a)).
Definition sweeps {A} (l : gset string) (p : jprog A) : Prop := wp always sweep_monitor p l (fun _ _ => True).
Definition keeps_rows (c : jcall) : Prop := match c with DbDelete _ => False | _ => True end.

Lemma sweeps_more {A} l l' (p : jprog A) : l ⊆ l' -> sweeps l p -> sweeps l' p.
Proof.
  unfold sweeps. revert l l'. induction p as [a|c k IH|]; intros l l' Hl Hp; simpl in *; [done| |done].
  intros x _. destruct (Hp x I) as [Hc Hk]. split; [destruct c; try done; set_solver|]. eapply IH; [|exact Hk]. set_solver.
Qed.
Lemma sweeps_bind {A B} l (p : jprog A) (f : A -> jprog B) : sweeps l p -> (forall a, sweeps l (f a)) -> sweeps l (pbind p f).
Proof.
  intros Hp Hf. apply wp_bind. revert l Hp Hf. induction p as [a|c k IH|]; intros l Hp Hf; simpl in *; [by apply Hf| |done].
  intros x _. destruct (Hp x I) as [Hc Hk]. split; [done|]. apply IH; [exact Hk|]. intros a. eapply sweeps_more; [|apply Hf]. set_solver.
Qed.
Lemma sweeps_only {A} l (p : jprog A) : only keeps_rows p -> sweeps l p.
Proof.
  unfold sweeps. revert l. induction p as [a|c k IH|]; intros l Hp; simpl in *; [done| |done].
  destruct Hp as [Hc Hk]. intros x _. split; [by destruct c|]. by apply IH.
Qed.

Lemma sweeps_sweep l : sweeps l (sweep LogDir).
Proof.
  assert (Hids : forall ids l, list_to_set ids ⊆ l -> sweeps l (sweep_ids LogDir ids)).
  { induction ids as [|id ids IH]; intros l0 Hl; cbn [sweep_ids]; [done|].
    assert (Hrest : forall l1, l0 ⊆ l1 -> sweeps l1 (sweep_ids LogDir ids)) by (intros; apply IH; set_solver).
    intros err _. split; [done|]. destruct err; [apply Hrest; set_solver|]. intros err _. split; [done|].
    intros err' _. split; [simpl; set_solver|]. destruct err'; [done|]. apply Hrest. set_solver. }
  intros now _. split; [done|]. intros ids _. split; [done|]. destruct ids as [ids|e]; [|done]. apply Hids. simpl. set_solver.
Qed.

Lemma quiet_keeps c : quiet_call c -> keeps_rows c.
Proof. by destruct c. Qed.
Lemma own_keeps id c : own_call id c -> keeps_rows c.
Proof. by destruct c. Qed.
Lemma keeps_finish id r : only keeps_rows (finish id r).
Proof. unfold finish. only_go. Qed.
Lemma keeps_view r skip out : only keeps_rows (view LogDir SanitizeLogPiece r skip out).
Proof. unfold view. only_go. Qed.
Lemma keeps_run_method f j : only (own_call (job_ID j)) (f j) -> only keeps_rows (run_method SanitizeOutput f j).
Proof.
  intros H. pose proof keeps_finish. unfold run_method. only_go. eapply only_mono; [|done]. apply own_keeps.
Qed.
Lemma keeps_launched l j : only keeps_rows (launched_body SanitizeOutput runners l j).
Proof.
  unfold launched_body. destruct l.
  - destruct (runners _) as [rn|] eqn:E; [|done]. apply keeps_run_method. by apply (runners_laws _ _ E).
  - destruct (runners _) as [rn|] eqn:E; simpl; [|done]. destruct (rn_Resume rn) as [f|] eqn:Ef; [|done].
    apply keeps_run_method. by apply (@Resume_own rn (runners_laws _ _ E)).
  - destruct (runners _) as [rn|] eqn:E; simpl; [|done]. destruct (rn_await rn) as [f|] eqn:Ef; [|done].
    eapply only_mono; [apply own_keeps|]. by apply (@await_own rn (runners_laws _ _ E)).
Qed.
Lemma keeps_check rn kind spec : runners kind = Some rn -> only keeps_rows (rn_Check rn spec).
Proof. intros E. eapply only_mono; [apply quiet_keeps|]. by apply (runners_laws _ _ E). Qed.
Lemma keeps_check_specs specs : only keeps_rows (check_specs message_text runners specs).
Proof.
  induction specs as [|s specs IH]; simpl check_specs; only_go. by eapply keeps_check.
Qed.
Lemma keeps_start_locked spec rn kind user :
  runners kind = Some rn -> only keeps_rows (start_locked LogDir SanitizeLogPiece spec rn user).
Proof.
  intros E. pose proof keeps_view. assert (Hr : only keeps_rows (match rn_Refuse rn with Some refuse => refuse spec | None => Ret None end)).
  { destruct (rn_Refuse rn) as [f|] eqn:Ef; [|done]. eapply only_mono; [apply quiet_keeps|]. by apply (@Refuse_quiet rn (runners_laws _ _ E)). }
  unfold start_locked. only_go.
Qed.

Lemma sweeps_request l p : request LogDir message_text SanitizeLogPiece runners p -> sweeps l p.
Proof.
  pose proof keeps_view as Hv. intros [verified spec user|verified id skip|verified id force|verified specs]; (apply sweeps_bind; [|done]).
  - unfold StartJob. destruct (negb verified); [done|]. destruct spec as [spec|]; [|done].
    destruct (validate runners spec) as [rn|msg] eqn:Ev; [|done].
    assert (exists kind, runners kind = Some rn) as [kind Hk] by (unfold validate in Ev; go_cases; eauto).
    apply sweeps_bind; [by split|]. intros _. apply sweeps_bind; [by eapply sweeps_only, keeps_start_locked|]. intros [a|rec]; [done|].
    apply sweeps_bind; [apply sweeps_sweep|]. intros _. apply sweeps_only. only_go.
  - apply sweeps_only. unfold GetJob, lookup. only_go.
  - apply sweeps_only. unfold CancelJob, lookup. only_go.
  - apply sweeps_only. pose proof keeps_check_specs. unfold CheckJobs. only_go.
Qed.
Lemma sweeps_Recover l : sweeps l (Recover LogDir runners).
Proof.
  pose proof keeps_finish as Hf.
  assert (Hall : forall f rs, (forall r, only keeps_rows (f r)) -> only keeps_rows (recover_all f rs)).
  { intros f rs H. induction rs as [|r rs IH]; simpl; [done|]. by apply only_bind. }
  unfold Recover. apply sweeps_bind; [by split|]. intros [rows|e]; [|done]. apply sweeps_bind.
  { apply sweeps_only, Hall. intros r. unfold recover_running. only_go. }
  intros _. apply sweeps_bind.
  { apply sweeps_only. unfold recoverRebooting. only_go. apply Hall. intros r. unfold recover_reboot, settleReboot. only_go. }
  intros _. apply sweeps_bind; [apply sweeps_sweep|done].
Qed.

Lemma listed_snoc tr a : listed (tr ++ [a]) = listed tr ∪ listed_by a.
Proof. unfold listed. rewrite map_app, union_list_app_L. simpl. set_solver. Qed.

(** Every goroutine drops what it has listed, or another before it. *)
Lemma sweeps_steps tr h : host_steps new_host tr h -> Forall (sweeps (listed tr)) (ho_pool h).
Proof.
  intros H. remember new_host as h0. induction H as [|h0 tr h a h' Hst IH Hs]; subst.
  { apply Forall_singleton, sweeps_Recover. }
  specialize (IH eq_refl). rewrite listed_snoc.
  assert (IH' : Forall (sweeps (listed tr ∪ listed_by a)) (ho_pool h)).
  { eapply Forall_impl; [exact IH|]. intros p. apply sweeps_more. set_solver. }
  destruct Hs as [h i c k x t Hp Hmay Ht|h p Hp|h]; simpl.
  - apply Forall_app. split.
    + apply Forall_insert; [done|]. eapply Forall_lookup_1 in IH; [|exact Hp]. by apply (IH x I).
    + destruct c; simpl; constructor; [|constructor]. apply sweeps_only, keeps_launched.
  - apply Forall_app. split; [done|]. by apply Forall_singleton, sweeps_request.
  - apply Forall_singleton, sweeps_Recover.
Qed.

(** A table step is a step of the abstract machine, or none. *)
Lemma table_step_book t c x t' k l :
  table_ok t -> (k = Free -> no_active t) -> know_ok k (jact c x) -> mn_ok sweep_monitor l (jact c x) -> table_step t c x t' ->
  let l' := l ∪ listed_by (Some (jact c x)) in
  (book_of t', l') = (book_of t, l) \/ book_step (book_of t, l) (book_of t', l').
Proof.
  intros Ht Hfree Hok Hl Hs. pose proof Ht as [Hid Hks Hone].
  destruct c; simpl in Hs; cbn [listed_by jact act]; rewrite ?(right_id_L ∅ (∪)); cbv zeta;
    try (by left; subst); try (by left; destruct Hs as [-> _]).
  - destruct x as [e|]; [by left; subst|]. destruct Hs as [Hn ->]. destruct Hok as [-> Hst]. right.
    rewrite book_snoc, Hst by done. apply book_start; [by apply book_lookup_None, find_job_None|].
    intros id s p (r' & Hr' & _ & _ & <-)%book_lookup; [|done]. rewrite in_progress_active. by apply Hfree.
  - destruct x as [e|]; subst; [by left|].
    destruct (update_cases (fun r => (jr_ID r ==s id) && active (jr_status r)) t) as [(r' & Hr' & Hp)|Hp];
      [|left; unfold sql_finish; by rewrite update_nothing]. right.
    unfold sql_finish. rewrite (book_update _ _ t id r'); [|done..|by intros; go_bools|done].
    go_bools. simpl. rewrite phase_ended by done.
    eapply (book_end _ _ _ _ (phase_of (jr_status r'))); [|by rewrite in_progress_active|done].
    apply book_lookup; [done|]. by exists r'.
  - destruct x as [e|]; subst; [by left|].
    destruct (update_cases (fun r => jr_ID r ==s id) t) as [(r' & Hr' & Hp)|Hp];
      [|left; unfold sql_set_unit; by rewrite update_nothing]. left.
    unfold sql_set_unit. rewrite (book_update _ _ t id r'); [|done..|by intros; go_bools|done].
    f_equal. apply insert_id, book_lookup; [done|]. go_bools. by exists r'.
  - destruct x as [b|e]; [|by left; subst]. destruct Hs as [_ ->].
    destruct (update_cases (still_running id) t) as [(r' & Hr' & Hp)|Hp];
      [|left; unfold sql_set_rebooting; by rewrite update_nothing]. right.
    unfold sql_set_rebooting. rewrite (book_update _ _ t id r'); [|done..| |done].
    + apply book_reboot. apply book_lookup; [done|]. exists r'. unfold still_running in Hp. go_bools.
      split_and!; [done..|]. unfold phase_of. by rewrite H0.
    + intros r2 H2. unfold still_running in H2. by go_bools.
  - destruct x as [ids|e]; [|left; by rewrite (right_id_L ∅ (∪)), (proj1 Hs)]. destruct Hs as [-> Hx]. right. apply book_list.
    intros id Hin%elem_of_list_to_set. rewrite (Hx ids eq_refl) in Hin. unfold sql_old in Hin.
    apply list_elem_of_fmap in Hin as (r & -> & Hr). apply list_elem_of_In, List.filter_In in Hr as [Hr Hn].
    apply list_elem_of_In in Hr. apply andb_true_iff in Hn as [Hn%negb_true_iff _]. pose proof (Hks r Hr) as Hst.
    unfold known_status in Hst. rewrite Hn in Hst. exists (jr_spec r), (jr_status r). apply book_lookup; [done|].
    exists r. by rewrite phase_ended.
  - destruct x as [e|]; subst; [by left|]. right. rewrite book_delete by done. by apply book_forget.
Qed.

Lemma host_step_book tr h a h' :
  host_steps new_host tr h -> host_step h a h' ->
  let now := (book_of (ho_table h), listed tr) in
  let next := (book_of (ho_table h'), listed (tr ++ [a])) in
  next = now \/ book_step now next.
Proof.
  intros Hst Hs. destruct (host_ok_steps _ _ Hst) as [Ht (ks & Hks)]. pose proof (sweeps_steps _ _ Hst) as Hsw.
  cbv zeta. rewrite listed_snoc. destruct Hs as [h i c f x t' Hp Hmay Hts|h p Hp|h];
    [|left; simpl; by rewrite (right_id_L ∅ (∪))..].
  destruct (pool_step _ _ _ _ _ _ _ Ht Hks Hp Hmay Hts) as (k & Hk & Hok & _). simpl ho_table.
  eapply (table_step_book _ c x _ k); [done| |done| |done]; [intros ->; by eapply po_free|].
  eapply Forall_lookup_1 in Hsw; [|exact Hp]. by apply (Hsw x I).
Qed.

(** ** Jobs recorded, started and dropped, counted *)

Definition is_insert (id : string) (a : option jaction) : bool :=
  match a with Some (existT (DbInsert r) None) => jr_ID r ==s id | _ => false end.
Definition is_delete (id : string) (a : option jaction) : bool :=
  match a with Some (existT (DbDelete id') None) => id' ==s id | _ => false end.
Definition is_start (id : string) (a : option jaction) : bool :=
  match a with Some (existT (Launch LaunchStart j) _) => job_ID j ==s id | _ => false end.
Definition count (f : option jaction -> bool) (tr : list (option jaction)) : nat := length (List.filter f tr).

Lemma count_snoc f tr a : count f (tr ++ [a]) = (count f tr + (if f a then 1 else 0))%nat.
Proof. unfold count. rewrite List.filter_app, length_app. simpl. by destruct (f a). Qed.

(** The goroutine that has recorded [id] and not started it yet. *)
Definition to_start (id : string) (ks : list know) : nat :=
  if bool_decide (Recorded id ∈ ks) then 1%nat else 0%nat.
Definition present (id : string) (t : table) : nat := if bool_decide (id ∈ map jr_ID t) then 1%nat else 0%nat.

Lemma elem_of_knows ks i k' c k :
  (i < length ks)%nat -> k <> Outside ->
  k ∈ knows ks i k' c <-> k' = k \/ exists j, j <> i /\ ks !! j = Some k.
Proof.
  intros Hi Hk. split.
  - intros [j Hj]%list_elem_of_lookup. apply knows_lookup in Hj; [|done].
    destruct Hj as [[_ ->]|[?|[_ ?]]]; [by left|right; eauto|done].
  - unfold knows. rewrite elem_of_app. intros [->|(j & Hj & Hk')]; left; apply list_elem_of_lookup.
    + exists i. by apply list_lookup_insert_eq.
    + exists j. by rewrite list_lookup_insert_ne.
Qed.

Lemma know_next_recorded k a id :
  know_ok k a -> know_next k a = Recorded id ->
  is_start id (Some a) = false /\ (k = Recorded id \/ is_insert id (Some a) = true).
Proof.
  destruct a as [c x]. unfold know_ok. intros Hok Hn. destruct c; simpl in *; try (split; [done|by left]); try done.
  - destruct k; try (split; [done|by left]). destruct x as [[r|]|e]; try done.
  - destruct x; [split; [done|by left]|]. simplify_eq. by rewrite String.eqb_refl; split; [|right].
  - destruct l; simpl in *; [done|split; [done|by left]..].
Qed.

Lemma know_start k a id : know_ok k a -> is_start id (Some a) = true -> k = Recorded id /\ know_next k a = Locked.
Proof.
  destruct a as [c x]. unfold know_ok. intros Hok Hs. destruct c; try done. destruct l; try done.
  simpl in *. apply String.eqb_eq in Hs. by subst.
Qed.

Lemma to_start_step id h ks i k c x :
  pool_ok h ks -> ks !! i = Some k -> know_ok k (jact c x) ->
  ((if is_start id (Some (jact c x)) then 1 else 0) + to_start id (knows ks i (know_next k (jact c x)) c)
   <= to_start id ks + (if is_insert id (Some (jact c x)) then 1 else 0))%nat.
Proof.
  intros [_ _ Hlock _ _] Hk Hok. pose proof (lookup_lt_Some _ _ _ Hk) as Hi. unfold to_start.
  assert (Hin : forall j, ks !! j = Some (Recorded id) -> Recorded id ∈ ks) by (intros j ?; by eapply list_elem_of_lookup_2).
  assert (Hother : forall j, j <> i -> ks !! j = Some (Recorded id) -> k = Outside).
  { intros j Hj Hkj. destruct (decide (k = Outside)) as [|Hne]; [done|].
    apply (Hlock _ _ Hk) in Hne. assert (ho_lock h = Some j) by (by apply (Hlock _ _ Hkj)). congruence. }
  destruct (is_start id (Some (jact c x))) eqn:Es.
  - destruct (know_start _ _ _ Hok Es) as [-> Hn]. rewrite (bool_decide_eq_true_2 (Recorded id ∈ ks)) by eauto.
    rewrite bool_decide_eq_false_2; [lia|]. rewrite elem_of_knows, Hn by done. intros [?|(j & Hj & Hkj)]; [done|].
    by apply Hother in Hkj.
  - case_bool_decide as Hr; [|lia]. apply elem_of_knows in Hr; [|done..].
    destruct Hr as [Hr|(j & _ & Hkj)]; [|rewrite bool_decide_eq_true_2 by eauto; lia].
    destruct (know_next_recorded _ _ _ Hok Hr) as [_ [->| ->]]; [rewrite bool_decide_eq_true_2 by eauto|]; lia.
Qed.

Lemma present_step id t c x t' :
  table_step t c x t' ->
  (present id t + (if is_insert id (Some (jact c x)) then 1 else 0)
   <= present id t' + (if is_delete id (Some (jact c x)) then 1 else 0))%nat.
Proof.
  intros Hs. unfold present.
  assert (Hle : forall b1 b2 : bool, (b1 = true -> b2 = true) -> ((if b1 then 1%nat else 0%nat) <= (if b2 then 1%nat else 0%nat))%nat)
    by (intros [] []; naive_solver lia).
  destruct c; simpl in *; try match type of Hs with _ /\ (forall _, _) => destruct Hs as [-> _] end;
    try subst; rewrite ?Nat.add_0_r; try done.
  - destruct x as [e|]; [subst; lia|]. destruct Hs as [Hn%find_job_None ->]. rewrite map_app. simpl.
    destruct (jr_ID r ==s id) eqn:E; go_bools.
    + subst. rewrite bool_decide_eq_false_2, bool_decide_eq_true_2 by set_solver. lia.
    + rewrite !Nat.add_0_r. apply Hle. rewrite !bool_decide_eq_true. set_solver.
  - destruct x; [done|]. unfold sql_finish. by rewrite update_ids.
  - destruct x; [done|]. unfold sql_set_unit. by rewrite update_ids.
  - destruct x; [|by subst]. destruct Hs as [_ ->]. unfold sql_set_rebooting. by rewrite update_ids.
  - destruct x; [lia|]. rewrite delete_ids. destruct (id0 ==s id) eqn:E; go_bools; [subst; case_bool_decide; lia|].
    rewrite Nat.add_0_r. apply Hle. rewrite !bool_decide_eq_true, list_elem_of_filter. naive_solver.
Qed.

(** Each job started was recorded, and one recorded again had been dropped. *)
Lemma counts_steps tr h id :
  host_steps new_host tr h ->
  exists ks, table_ok (ho_table h) /\ pool_ok h ks /\
    (count (is_start id) tr + to_start id ks <= count (is_insert id) tr)%nat /\
    (count (is_insert id) tr <= count (is_delete id) tr + present id (ho_table h))%nat.
Proof.
  intros H. remember new_host as h0. induction H as [|h0 tr h a h' Hst IH Hs]; subst.
  { exists [Outside]. split_and!; [apply host_ok_new|apply pool_ok_boot|done..]. }
  destruct (IH eq_refl) as (ks & Ht & Hks & H1 & H2). rewrite !count_snoc.
  assert (Hok : host_ok h') by (eapply host_ok_step; [split; by eauto|done]).
  destruct Hs as [h i c f x t' Hp Hmay Hts|h p Hp|h].
  - destruct (pool_step _ _ _ _ _ _ _ Ht Hks Hp Hmay Hts) as (k & Hk & Hk' & Hks').
    eexists. split_and!; [apply Hok|done| |].
    + pose proof (to_start_step id _ _ _ _ _ _ Hks Hk Hk'). lia.
    + pose proof (present_step id _ _ _ _ Hts). simpl ho_table in *. lia.
  - exists (ks ++ [Outside]). split_and!; [done|by apply pool_ok_more, safe_request|..]; simpl.
    + assert (to_start id (ks ++ [Outside]) = to_start id ks) as ->; [|lia].
      unfold to_start. apply (f_equal (fun b : bool => if b then 1%nat else 0%nat)), bool_decide_ext. set_solver.
    + lia.
  - exists [Outside]. split_and!; [apply Hok|apply pool_ok_boot|..]; simpl.
    + unfold to_start in *. rewrite bool_decide_eq_false_2 by set_solver. lia.
    + lia.
Qed.

(** ** The properties *)

(** C5: a node runs one job at a time: whatever requests come, however its
    goroutines interleave, whichever statements fail and however often the
    panel is restarted, its table holds each job ID once and at most one job
    running or waiting on its reboot. *)
Theorem jobs_one_at_a_time tr h :
  host_steps new_host tr h ->
  NoDup (map jr_ID (ho_table h)) /\
  forall r1 r2, r1 ∈ ho_table h -> r2 ∈ ho_table h -> active (jr_status r1) = true -> active (jr_status r2) = true ->
    r1 = r2.
Proof. intros [[Hid _ Hone] _]%host_ok_steps. done. Qed.

(** C4: refinement: each step of the node is, for the cluster, no step or one of
    the abstract machine of jobs (a new job on a free node, its reboot, its one
    end, a sweep's listing of jobs that have ended, a listed job's being
    forgotten), so that whatever the node goes through the machine goes through
    too: a job that was never seen ended is never forgotten. *)
Theorem host_refines_book tr h :
  host_steps new_host tr h ->
  rtc book_step (∅, ∅) (book_of (ho_table h), listed tr) /\
  forall a h', host_step h a h' ->
    let now := (book_of (ho_table h), listed tr) in
    let next := (book_of (ho_table h'), listed (tr ++ [a])) in
    next = now \/ book_step now next.
Proof.
  intros H. split; [|intros a h'; by apply host_step_book].
  remember new_host as h0. induction H as [|h0 tr h a h' Hst IH Hs]; subst; [constructor|].
  destruct (host_step_book tr h a h') as [->|?]; [done|done|by apply IH|].
  eapply rtc_r; [by apply IH|done].
Qed.

(** However often the leader posts a job, its successor posts it again and the
    panel is restarted, the job is started at most once for each time it was
    recorded, and at most once more than it was dropped. *)
Theorem job_started_once tr h id :
  host_steps new_host tr h ->
  (count (is_start id) tr <= count (is_insert id) tr)%nat /\
  (count (is_insert id) tr <= 1 + count (is_delete id) tr)%nat.
Proof.
  intros H. destruct (counts_steps _ _ id H) as (ks & _ & _ & H1 & H2).
  assert (present id (ho_table h) <= 1)%nat by (unfold present; case_bool_decide; lia). lia.
Qed.

(** ** A job's goroutine ends its job *)

Lemma finished id (tr : list jaction) d :
  fold_left (mn_next (finish_monitor id)) tr d = true ->
  d = true \/ exists res now x, jact (DbFinish id res now) x ∈ tr.
Proof.
  revert d. induction tr as [|[c x] tr IH]; simpl; intros d H; [by left|].
  destruct (IH _ H) as [Hd|(res & now & y & Hy)]; [|right; exists res, now, y; by right].
  destruct c; simpl in Hd; auto. apply orb_true_iff in Hd as [?|E]; [by left|right].
  apply String.eqb_eq in E. subst. exists r, now, x. by left.
Qed.

Lemma wp_finish id res d (Q : option message -> bool -> Prop) :
  ends_job (rt_Status res) = true -> (forall e, Q e true) -> wp always (finish_monitor id) (finish id res) d Q.
Proof.
  intros E HQ. unfold finish. rewrite E. simpl. intros u _. split; [done|]. intros now _. split; [done|].
  intros e _. split; [done|]. rewrite String.eqb_refl, orb_true_r. apply HQ.
Qed.

Lemma wp_run_method f j : ends_its_job f ->
  wp always (finish_monitor (job_ID j)) (run_method SanitizeOutput f j) false (fun _ d => d = true).
Proof.
  intros Hf. unfold run_method. apply wp_bind. eapply wp_mono; [apply Hf|]. intros [text|] d Hd; [|by apply Hd].
  apply wp_bind, wp_finish; [done|]. done.
Qed.

(** The method a goroutine runs, if its kind's runner has it. *)
Definition has_method (l : launched) (j : Job) : Prop :=
  match l with
  | LaunchStart => is_Some (runners (js_Kind (job_Spec j)))
  | LaunchResume => is_Some (runners (js_Kind (job_Spec j)) ≫= rn_Resume)
  | LaunchAwait => is_Some (runners StepReboot ≫= rn_await)
  end.

(** The goroutine of a launched job returns only after the job's end was
    recorded, or the statement that records it was refused: a runner leaves no
    job behind that would hold the node. *)
Theorem launched_job_ends l j tr :
  has_method l j -> exec (launched_body SanitizeOutput runners l j) tr (Some tt) ->
  exists res now x, jact (DbFinish (job_ID j) res now) x ∈ tr.
Proof.
  intros Hm He.
  assert (Hw : wp always (finish_monitor (job_ID j)) (launched_body SanitizeOutput runners l j) false (fun _ d => d = true)).
  { unfold launched_body. destruct l; simpl in Hm; destruct (runners _) as [rn|] eqn:E; simpl in *;
      try (by destruct Hm); pose proof (runners_laws _ _ E) as Hl.
    - apply wp_run_method. apply Hl.
    - destruct (rn_Resume rn) as [f|] eqn:Ef; [|by destruct Hm]. apply wp_run_method. by apply (@Resume_ends rn Hl).
    - destruct (rn_await rn) as [f|] eqn:Ef; [|by destruct Hm]. by apply (@await_ends rn Hl). }
  eapply wp_sound in Hw as [_ Hq]; [|done|by apply Forall_true].
  destruct (finished _ _ _ (Hq tt eq_refl)) as [?|?]; [done|done].
Qed.
End Host.
