(* ===== verification/JobFacts.v ===== *)
(** * What a node does with its jobs: at boot, on a start, on a service *)

From S2P Require Import Prelude GoStrings GoRegexp GoTime ApiCodes HostGuard TaskModel Interact.
From S2P Require Import JobProg JobOutput.
From S2P Require Import JobNode JobRunners JobHost JobHostFacts.

#[local] Open Scope prog_scope.

(** Takes an execution of a sequence apart at its first part. *)
Ltac exec_go H :=
  repeat match type of H with
  | Interact.exec (pbind (jdo ?c) _) _ _ =>
      let x := fresh "x" in let t := fresh "t" in
      apply exec_first in H as [[_ ?]|(x & t & -> & H)]; [done|]; cbv beta in H
  | Interact.exec (Ret _) _ _ => apply exec_inv in H as [[_ ?]|[-> ?]]; [done|]; simplify_eq
  end.

Lemma elem_left {A} (a : A) l1 l2 : a ∈ l1 -> a ∈ l1 ++ l2.
Proof. rewrite elem_of_app. by left. Qed.
Lemma elem_right {A} (a : A) l1 l2 : a ∈ l2 -> a ∈ l1 ++ l2.
Proof. rewrite elem_of_app. by right. Qed.
Lemma elem_here {A} (a : A) l : a ∈ a :: l.
Proof. by left. Qed.
Lemma elem_further {A} (a b : A) l : a ∈ l -> a ∈ b :: l.
Proof. by right. Qed.
(** Finds an action in a trace put together of pieces. *)
Ltac in_tr := solve [eauto 12 using elem_left, elem_right, elem_here, elem_further].

Lemma exec_launch l j tr : exec (jdo (Launch l j)) tr (Some tt) -> tr = [jact (Launch l j) tt].
Proof. exact (exec_call (answer := janswer) (Launch l j) tt tr). Qed.

Section Recovery.
Variable LogDir : string.
Variable runners : string -> option Runner.

Definition left_job (r : record) : Job := mkJob (jr_spec r) (logPath LogDir (jr_ID r)) (jr_startedAt r) (jr_unit r).

(** The calls that end a job as [res]. *)
Definition ends_as (r : record) (res : Result) (tr : list jaction) : Prop :=
  exists now x, tr = [jact (TakeCancel (jr_ID r)) tt; jact JNow now; jact (DbFinish (jr_ID r) res now) x].
(** A unit systemd still has. *)
Definition unit_alive (state : string) : Prop :=
  state = "active" \/ state = "activating" \/ state = "deactivating" \/ state = "reloading" \/ state = "refreshing".
(** How a job whose unit is gone ended, by the last line of its log. *)
Inductive log_tells (tail : option string) : Result -> Prop :=
| tells_success data line rest :
    tail = Some data -> last_line data line -> trimSpace line = exitMarker +:+ rest -> atoi rest = Some 0 ->
    log_tells tail (mkResult JobSucceeded false (Some 0) "exit 0")
| tells_failure data line rest code :
    tail = Some data -> last_line data line -> trimSpace line = exitMarker +:+ rest -> atoi rest = Some code -> code <> 0 ->
    log_tells tail (mkResult JobFailed false (Some code) ("exit " +:+ itoa code))
| tells_nothing :
    (forall data, tail = Some data -> exists line, last_line data line /\
       forall rest, trimSpace line = exitMarker +:+ rest -> atoi rest = None) ->
    log_tells tail (interrupted "the job's unit ended without saying how").

(** What the node does about a job left running: these calls and no other. *)
Inductive running_settled (r : record) : list jaction -> Prop :=
| taken_back :
    is_Some (runners (js_Kind (jr_spec r)) ≫= rn_Resume) -> jr_unit r <> "" ->
    running_settled r [jact (Launch LaunchResume (left_job r)) tt]
| still_runs out :
    runners (js_Kind (jr_spec r)) ≫= rn_Resume = None -> jr_unit r <> "" -> unit_alive (trimSpace out.1) ->
    running_settled r [jact (Cmd systemctlTimeout ["systemctl"; "is-active"; jr_unit r]) out]
| unit_gone out tail res tr :
    runners (js_Kind (jr_spec r)) ≫= rn_Resume = None -> jr_unit r <> "" -> ~ unit_alive (trimSpace out.1) ->
    log_tells tail res -> ends_as r res tr ->
    running_settled r (jact (Cmd systemctlTimeout ["systemctl"; "is-active"; jr_unit r]) out ::
                       jact (ReadTail (logPath LogDir (jr_ID r)) logTail) tail :: tr)
| no_unit tr :
    jr_unit r = "" -> ends_as r (interrupted "the panel stopped while the job ran") tr -> running_settled r tr.

(** What it does about one left waiting on its reboot. *)
Inductive reboot_settled (r : record) : list jaction -> Prop :=
| rebooted boot tr :
    boot <> "" -> jr_bootID r <> "" -> boot <> jr_bootID r -> ends_as r (mkResult JobSucceeded true None "rebooted") tr ->
    reboot_settled r (jact BootID boot :: tr)
| awaited boot :
    boot = "" \/ jr_bootID r = "" \/ boot = jr_bootID r -> is_Some (runners StepReboot ≫= rn_await) ->
    reboot_settled r [jact BootID boot; jact (Launch LaunchAwait (left_job r)) tt]
| nobody_awaits boot :
    boot = "" \/ jr_bootID r = "" \/ boot = jr_bootID r -> runners StepReboot ≫= rn_await = None ->
    reboot_settled r [jact BootID boot].

Lemma exec_finish r res tr e : ends_job (rt_Status res) = true -> exec (finish (jr_ID r) res) tr (Some e) -> ends_as r res tr.
Proof.
  intros E H. unfold finish in H. rewrite E in H. simpl negb in H. cbv iota in H. exec_go H. destruct x.
  by exists x0, x1.
Qed.
Lemma exec_settle r res tr :
  ends_job (rt_Status res) = true -> exec (finish (jr_ID r) res ;;; Ret tt) tr (Some tt) -> ends_as r res tr.
Proof.
  intros E (tr1 & e & tr2 & -> & H1 & H2)%exec_bind. exec_go H2. rewrite app_nil_r. by eapply exec_finish.
Qed.

(** One job after another, each its own part of the calls. *)
Lemma recover_all_parts (f : record -> jprog unit) (P : record -> list jaction -> Prop) rs tr :
  (forall r t, exec (f r) t (Some tt) -> P r t) ->
  exec (recover_all f rs) tr (Some tt) -> exists parts, tr = concat parts /\ Forall2 P rs parts.
Proof.
  intros Hf. revert tr. induction rs as [|r rs IH]; intros tr H; simpl in H; [exec_go H; by exists []|].
  apply exec_bind in H as (tr1 & [] & tr2 & -> & H1 & H2). destruct (IH _ H2) as (parts & -> & Hp).
  exists (tr1 :: parts). split; [done|]. constructor; [by apply Hf|done].
Qed.

Lemma unitRunning_alive state : unitRunning state = true <-> unit_alive state.
Proof. unfold unitRunning, unit_alive. rewrite slices_contains_spec. set_unfold. tauto. Qed.

Lemma exitFromLog_tells tail :
  log_tells tail (match exitFromLog tail with
                  | Some code => exit_result code
                  | None => interrupted "the job's unit ended without saying how"
                  end).
Proof.
  destruct tail as [data|]; [|by constructor]. unfold exitFromLog. pose proof (last_line_found data) as Hl. cbv zeta in Hl |- *.
  set (line := sdrop _ (trimRightAny data trimmedTail)) in *. unfold cutPrefix.
  destruct (hasPrefix (trimSpace line) exitMarker) eqn:Ep.
  - apply hasPrefix_spec in Ep as [rest Er]. rewrite Er, sdrop_app. destruct (atoi rest) as [code|] eqn:Ea.
    + unfold exit_result. destruct (Z.eqb_spec code 0) as [->|Hc]; [by eapply tells_success|by eapply tells_failure].
    + constructor. intros ? [= <-]. exists line. split; [done|]. intros rest' E. rewrite Er in E.
      apply (f_equal (sdrop (String.length exitMarker))) in E. rewrite !sdrop_app in E. by subst.
  - constructor. intros ? [= <-]. exists line. split; [done|]. intros rest' E.
    rewrite (proj2 (hasPrefix_spec _ _)) in Ep by (by eexists). done.
Qed.

Lemma recover_running_settles r tr : exec (recover_running LogDir runners r) tr (Some tt) -> running_settled r tr.
Proof.
  intros H. unfold recover_running in H. destruct (jr_unit r ==s "") eqn:Eu; go_bools; cbn [negb] in H.
  - apply no_unit; [done|]. apply exec_settle; [done|]. by destruct (runners _ ≫= rn_Resume).
  - destruct (runners _ ≫= rn_Resume) as [f|] eqn:Er; [apply exec_launch in H as ->; by apply taken_back; [rewrite Er|]|].
    exec_go H. destruct (unitRunning _) eqn:Ea; [exec_go H; apply still_runs; [done..|by apply unitRunning_alive]|]. exec_go H.
    assert (Hal : ~ unit_alive (trimSpace x.1)) by (intros ?%unitRunning_alive; congruence).
    eapply unit_gone; [done..|apply exitFromLog_tells|]. apply exec_settle; [|by destruct (exitFromLog x0)].
    destruct (exitFromLog x0) as [code|]; [|done]. unfold exit_result. by destruct (code =? 0).
Qed.

Lemma recover_reboot_settles r tr : exec (recover_reboot LogDir runners r) tr (Some tt) -> reboot_settled r tr.
Proof.
  intros H. unfold recover_reboot in H. apply exec_bind in H as (tr1 & b & tr2 & -> & H1 & H2).
  unfold settleReboot in H1. exec_go H1.
  destruct ((jr_bootID r ==s "") || (x ==s "") || (x ==s jr_bootID r)) eqn:E.
  - assert (Hx : x = "" \/ jr_bootID r = "" \/ x = jr_bootID r).
    { apply orb_true_iff in E as [[E|E]%orb_true_iff|E]; apply String.eqb_eq in E; auto. }
    exec_go H1. destruct (runners StepReboot ≫= rn_await) as [f|] eqn:Er.
    + apply exec_launch in H2 as ->. apply awaited; [done|]. by rewrite Er.
    + exec_go H2. by apply nobody_awaits.
  - go_bools. apply exec_bind in H1 as (t1 & e & t2 & -> & H1 & H1'). exec_go H1'. exec_go H2.
    rewrite !app_nil_r. apply rebooted; [done..|]. by eapply exec_finish.
Qed.

Definition ends_none (c : jcall) : Prop := match c with DbFinish _ _ _ => False | _ => True end.
Lemma sweep_ends_none : only ends_none (sweep LogDir ;;; Ret tt).
Proof.
  assert (forall ids, only ends_none (sweep_ids LogDir ids)) by (induction ids as [|id ids IH]; simpl sweep_ids; only_go).
  unfold sweep. only_go.
Qed.

(** C37: at boot no job of the last process is left to itself.  Of the jobs left
    running, one after another: one with a unit whose kind's runner resumes is
    handed back to it; one whose unit systemd still has is left running; one
    whose unit is gone is ended as its log's last line says, succeeded only on
    an exit 0; one without a unit is ended interrupted.  Then of those waiting
    on a reboot: on another boot it is ended succeeded, and otherwise waited on
    again, where the node has a runner that waits.  To be ended is one
    statement on the table, whatever the database answers to it. *)
Theorem Recover_settles tr :
  exec (Recover LogDir runners) tr (Some tt) ->
  exists x tr', tr = jact (DbWithStatus JobRunning) x :: tr' /\ forall rows, x = Ok rows ->
    exists parts y rest, tr' = concat parts ++ jact (DbWithStatus JobRebooting) y :: rest /\
      Forall2 running_settled rows parts /\
      forall rows', y = Ok rows' -> exists parts' swept, rest = concat parts' ++ swept /\
        Forall2 reboot_settled rows' parts' /\ forall id res now z, jact (DbFinish id res now) z ∉ swept.
Proof.
  intros H. unfold Recover in H. apply exec_first in H as [[_ ?]|(x & t & -> & H)]; [done|].
  exists x, t. split; [done|]. intros rows ->.
  apply exec_bind in H as (tr1 & [] & tr2 & -> & H1 & H). apply exec_bind in H as (tr3 & [] & tr4 & -> & H3 & H4).
  apply (recover_all_parts _ running_settled) in H1 as (parts & -> & Hp); [|apply recover_running_settles].
  unfold recoverRebooting in H3. apply exec_first in H3 as [[_ ?]|(y & t & -> & H3)]; [done|].
  exists parts, y, (t ++ tr4). split_and!; [done|done|]. intros rows' ->.
  apply (recover_all_parts _ reboot_settled) in H3 as (parts' & -> & Hp'); [|apply recover_reboot_settles].
  exists parts', tr4. split_and!; [done|done|]. intros id res now z Hz.
  by apply (exec_only ends_none _ _ _ sweep_ends_none H4) in Hz.
Qed.
End Recovery.

(** ** A start alone on its node *)

(** The calls of one goroutine over the table, no other moving. *)
Inductive alone {A} : table -> jprog A -> list jaction -> A -> table -> Prop :=
| alone_ret t a : alone t (Ret a) [] a t
| alone_do t c k x t1 tr a t' :
    table_step t c x t1 -> alone t1 (k x) tr a t' -> alone t (Do c k) (jact c x :: tr) a t'.

Lemma alone_inv {A} t (p : jprog A) tr a t' :
  alone t p tr a t' ->
  match p with
  | Ret a' => tr = [] /\ a' = a /\ t' = t
  | Do c k => exists x t1 tr', tr = jact c x :: tr' /\ table_step t c x t1 /\ alone t1 (k x) tr' a t'
  | Stuck => False
  end.
Proof. destruct 1; eauto 10. Qed.

Lemma alone_first {A} t c (f : janswer c -> jprog A) tr a t' :
  alone t (pbind (jdo c) f) tr a t' ->
  exists x t1 tr', tr = jact c x :: tr' /\ table_step t c x t1 /\ alone t1 (f x) tr' a t'.
Proof. exact (alone_inv t (pbind (jdo c) f) tr a t'). Qed.

Lemma alone_bind {A B} t (p : jprog A) (f : A -> jprog B) tr b t' :
  alone t (pbind p f) tr b t' ->
  exists tr1 a t1 tr2, tr = tr1 ++ tr2 /\ alone t p tr1 a t1 /\ alone t1 (f a) tr2 b t'.
Proof.
  revert t tr. induction p as [a|c k IH|]; intros t tr H; simpl in H.
  - exists [], a, t, tr. split_and!; [done|constructor|done].
  - apply alone_inv in H as (x & t1 & tr' & -> & Hs & H).
    destruct (IH _ _ _ H) as (tr1 & a & t2 & tr2 & -> & H1 & H2).
    exists (jact c x :: tr1), a, t2, tr2. by split_and!; [|econstructor|].
  - by apply alone_inv in H.
Qed.

Definition no_launch (tr : list jaction) : Prop :=
  Forall (fun a => match projT1 a with Launch _ _ => False | _ => True end) tr.

Lemma alone_quiet {A} t (p : jprog A) tr a t' :
  only quiet_call p -> alone t p tr a t' -> t' = t /\ no_launch tr.
Proof.
  intros Hp H. induction H as [t a|t c k x t1 tr a t' Hs H IH]; [by repeat constructor|].
  destruct Hp as [Hc Hk]. destruct (IH (Hk x)) as [-> Hn].
  assert (t1 = t) as -> by (by destruct c; simpl in Hs; try (destruct Hs as [-> _])).
  split; [done|]. constructor; [by destruct c|done].
Qed.

Section Start.
Variable LogDir : string.
Variable SanitizeLogPiece : string -> string.
Variable runners : string -> option Runner.
Context `{!RunnersLaws runners}.

Lemma alone_sweep_ids ids t tr e t' :
  alone t (sweep_ids LogDir ids) tr e t' -> (forall r, r ∈ t -> jr_ID r ∉ ids -> r ∈ t') /\ forall r, r ∈ t' -> r ∈ t.
Proof.
  revert t tr. induction ids as [|id ids IH]; intros t tr H; cbn [sweep_ids] in H.
  - apply alone_inv in H as (_ & _ & ->). done.
  - apply alone_first in H as (x & t1 & tr1 & -> & -> & H).
    assert (Hskip : alone t (sweep_ids LogDir ids) tr1 e t' ->
      (forall r, r ∈ t -> jr_ID r ∉ id :: ids -> r ∈ t') /\ forall r, r ∈ t' -> r ∈ t).
    { intros [H1 H2]%IH. split; [|done]. intros r Hr Hn. apply H1; [done|]. set_solver. }
    destruct x; [by apply Hskip|]. apply alone_first in H as (y & t2 & tr2 & -> & -> & H).
    apply alone_first in H as (z & t3 & tr3 & -> & Hz & H). destruct z as [text|].
    + apply alone_inv in H as (_ & _ & ->). simpl in Hz. subst. split; [by intros|done].
    + simpl in Hz. subst t3. apply IH in H as [H1 H2]. split; [|intros r [? _]%H2%elem_of_delete; done].
      intros r Hr Hn. apply H1; [apply elem_of_delete|]; set_solver.
Qed.

Lemma alone_sweep t tr e t' :
  alone t (sweep LogDir) tr e t' ->
  (forall r, r ∈ t -> (forall r', r' ∈ t -> jr_ID r' = jr_ID r -> active (jr_status r') = true) -> r ∈ t') /\
  forall r, r ∈ t' -> r ∈ t.
Proof.
  intros H. unfold sweep in H. apply alone_first in H as (now & t1 & tr1 & -> & -> & H).
  apply alone_first in H as (x & t1 & tr2 & -> & [-> Hx] & H). destruct x as [ids|text].
  - apply alone_sweep_ids in H as [H1 H2]. split; [|done]. intros r Hr Hact. apply H1; [done|].
    rewrite (Hx _ eq_refl). unfold sql_old. intros (r' & E & Hr')%list_elem_of_fmap.
    apply list_elem_of_In, List.filter_In in Hr' as [Hr' Hf]. go_bools. rewrite <-list_elem_of_In in Hr'.
    specialize (Hact r' Hr' (eq_sym E)). congruence.
  - apply alone_inv in H as (_ & _ & ->). done.
Qed.

(** The answers of a start that starts nothing. *)
Inductive turned_away (t : table) (spec : JobSpec) : job_answer -> Prop :=
| already_there r : find_job (js_ID spec) t = Some r -> turned_away t spec (AnswerJob 200 (record_view r "" 0 false))
| node_busy r : find_job (js_ID spec) t = None -> sql_active t = Some r ->
    turned_away t spec (AnswerFail 409 ErrTaskNodeBusy (Sprintf "This node is running another task job" [])
      [("job_id", jr_ID r); ("run_id", js_RunID (jr_spec r)); ("task", js_Task (jr_spec r))])
| step_refused status code text : find_job (js_ID spec) t = None ->
    turned_away t spec (AnswerFail status code (Sprintf "%s" [FStr text]) [])
| no_db msg : turned_away t spec (AnswerFail 500 ErrDBError msg [])
| no_log msg : turned_away t spec (AnswerFail 500 ErrInternalError msg []).

(** What the locked part of a start does, alone. *)
Lemma alone_start_locked t spec rn kind user tr x t' :
  runners kind = Some rn -> alone t (start_locked LogDir SanitizeLogPiece spec rn user) tr x t' ->
  match x with
  | inl a => t' = t /\ no_launch tr /\ turned_away t spec a
  | inr rec =>
      find_job (js_ID spec) t = None /\ no_active t /\ t' = t ++ [rec] /\ jr_spec rec = spec /\
      jr_status rec = JobRunning /\ jr_username rec = user /\ jr_endedAt rec = 0 /\
      jact (Launch LaunchStart (mkJob spec (logPath LogDir (js_ID spec)) (jr_startedAt rec) "")) tt ∈ tr
  end.
Proof.
  intros E H. unfold start_locked in H.
  assert (Hunlock : forall t0 a tr0 t0', alone t0 (jdo StartUnlock ;;; Ret (inl a)) tr0 x t0' ->
    x = inl a /\ t0' = t0 /\ no_launch tr0).
  { intros t0 a tr0 t0' H0. apply alone_first in H0 as (u & t1 & tr1 & -> & -> & H0).
    apply alone_inv in H0 as (-> & <- & ->). by repeat constructor. }
  apply alone_first in H as (g & t1 & tr1 & -> & [-> Hg] & H). destruct g as [[r|]|text].
  { specialize (Hg _ eq_refl). apply alone_first in H as (u & t1 & tr2 & -> & -> & H).
    cbn [view negb] in H. apply alone_inv in H as (-> & <- & ->). split_and!; [done|by repeat constructor|].
    by apply already_there. }
  2: { apply Hunlock in H as (-> & -> & ?). split_and!; [done|by constructor|]. apply no_db. }
  specialize (Hg _ eq_refl). apply alone_bind in H as (tr2 & ref & t1 & tr3 & -> & Href & H).
  apply alone_quiet in Href as [-> Hn].
  2: { destruct (rn_Refuse rn) as [f|] eqn:Ef; [|done]. by apply (@Refuse_quiet rn (runners_laws _ _ E)). }
  destruct ref as [ref|].
  { apply Hunlock in H as (-> & -> & ?). split_and!; [done|constructor; [done|by apply Forall_app]|]. by apply step_refused. }
  apply alone_first in H as (o & t1 & tr4 & -> & [-> Ho] & H). destruct o as [[r|]|text].
  { specialize (Ho _ eq_refl). apply Hunlock in H as (-> & -> & ?).
    split_and!; [done|constructor; [done|apply Forall_app; split; [done|by constructor]]|]. by apply node_busy. }
  2: { apply Hunlock in H as (-> & -> & ?).
    split_and!; [done|constructor; [done|apply Forall_app; split; [done|by constructor]]|]. apply no_db. }
  specialize (Ho _ eq_refl). symmetry in Ho. apply sql_active_None in Ho.
  apply alone_first in H as (boot & t1 & tr5 & -> & -> & H). apply alone_first in H as (now & t1 & tr6 & -> & -> & H).
  apply alone_first in H as (e & t1 & tr7 & -> & -> & H). destruct e as [text|].
  { apply Hunlock in H as (-> & -> & ?). split_and!; [done| |apply no_log].
    constructor; [done|]. apply Forall_app. split; [done|]. by repeat constructor. }
  apply alone_first in H as (e & t1 & tr8 & -> & He & H). destruct e as [text|].
  { simpl in He. subst t1. apply Hunlock in H as (-> & -> & ?). split_and!; [done| |apply no_db].
    constructor; [done|]. apply Forall_app. split; [done|]. by repeat constructor. }
  destruct He as [_ ->]. apply alone_first in H as ([] & t1 & tr9 & -> & -> & H).
  apply alone_first in H as (u' & t1 & tr10 & -> & -> & H). apply alone_inv in H as (-> & <- & ->).
  split_and!; [done..|]. in_tr.
Qed.

(** C39: a start that has the node to itself: it answers 201, and then the job was
    new and the node free, the job is recorded running as it was asked for,
    its runner is started, and nothing else of the table has changed but what
    the sweep dropped; or it starts nothing and changes nothing, and answers
    the job that is there, the job that holds the node, the runner's refusal,
    or an error of the node's. *)
Theorem StartJob_alone t spec rn user tr a t' :
  validate runners spec = Ok rn -> alone t (StartJob LogDir SanitizeLogPiece runners true (Some spec) user) tr a t' ->
  (t' = t /\ no_launch tr /\ turned_away t spec a) \/
  (exists rec, a = AnswerJob 201 (record_view rec "" 0 false) /\ find_job (js_ID spec) t = None /\ no_active t /\
     jr_spec rec = spec /\ jr_status rec = JobRunning /\ jr_username rec = user /\ jr_endedAt rec = 0 /\
     rec ∈ t' /\ (forall r, r ∈ t' -> r = rec \/ r ∈ t) /\
     jact (Launch LaunchStart (mkJob spec (logPath LogDir (js_ID spec)) (jr_startedAt rec) "")) tt ∈ tr).
Proof.
  intros Hv H. unfold StartJob in H. cbn [negb] in H. rewrite Hv in H.
  assert (exists kind, runners kind = Some rn) as [kind Hk] by (unfold validate in Hv; go_cases; eauto).
  apply alone_first in H as (u & t1 & tr1 & -> & -> & H).
  apply alone_bind in H as (tr2 & x & t1 & tr3 & -> & H1 & H). eapply alone_start_locked in H1; [|done].
  destruct x as [b|rec].
  - destruct H1 as (-> & Hn & Ha). apply alone_inv in H as (-> & <- & ->). left. split_and!; [done| |done].
    constructor; [done|]. by rewrite app_nil_r.
  - destruct H1 as (Hf & Hno & -> & Hspec & Hst & Hu & He & Hl). right. exists rec.
    apply alone_bind in H as (tr4 & e & t2 & tr5 & -> & Hsw & H). apply alone_sweep in Hsw as [H1 H2].
    cbn [view negb pbind] in H. apply alone_inv in H as (-> & <- & ->).
    split_and!; try done; [| |in_tr].
    + apply H1; [set_solver|]. intros r' [Hr'| ->%list_elem_of_singleton]%elem_of_app E; [|by rewrite Hst].
      exfalso. apply find_job_None in Hf. apply Hf. rewrite <-Hspec. fold (jr_ID rec). rewrite <-E.
      apply list_elem_of_fmap. eauto.
    + intros r [?| ->%list_elem_of_singleton]%H2%elem_of_app; auto.
Qed.
End Start.

(** ** What a service step may run *)

(** Start and enable of any service; stop, restart and disable of one the
    panel does not need and the host can spare, or that the operator
    confirmed. *)
Definition may_act (info : Info) (name action : string) (confirmed : bool) : Prop :=
  in_re (list_ascii_of_string name) validServiceName /\
  (action ∈ ["start"; "enable"] \/
   action ∈ [ActionStop; ActionRestart; ActionDisable] /\ normalizeUnit name ∉ protectedSystemdUnits /\
   (UnitPolicy info name action).1 <> TierRefuse /\
   ((UnitPolicy info name action).1 = TierConfirm -> confirmed = true)).

Lemma UnitGuard_None info name action confirmed :
  UnitGuard info name action confirmed = None <-> may_act info name action confirmed.
Proof.
  unfold UnitGuard, may_act, matchString. rewrite <-re_match_spec.
  destruct (re_match _ _) eqn:Em; cbn [negb]; [|naive_solver].
  destruct ((action ==s "start") || (action ==s "enable")) eqn:E1.
  { split; [|done]. intros _. split; [done|]. left. apply orb_true_iff in E1 as [E1|E1]; go_bools; set_solver. }
  assert (Hno : action ∉ ["start"; "enable"]) by (go_bools; set_solver).
  destruct ((action ==s ActionStop) || (action ==s ActionRestart) || (action ==s ActionDisable)) eqn:E2; cbn [negb].
  2: { split; [done|]. intros (_ & [?|[Ha _]]); [done|]. go_bools. set_solver. }
  assert (Ha : action ∈ [ActionStop; ActionRestart; ActionDisable]).
  { apply orb_true_iff in E2 as [[E2|E2]%orb_true_iff|E2]; go_bools; set_solver. }
  assert (Hne : (name ==s "") = false) by (destruct name; [vm_compute in Em; done|done]).
  unfold IsProtectedSystemdUnit. rewrite Hne.
  destruct (slices_contains protectedSystemdUnits (normalizeUnit name)) eqn:E3.
  { apply slices_contains_spec in E3. naive_solver. }
  apply slices_contains_false in E3. destruct (UnitPolicy info name action) as [tier hint]. simpl.
  destruct (tier ==s TierRefuse) eqn:E4; go_bools; [naive_solver|].
  destruct (tier ==s TierConfirm) eqn:E5; go_bools; [|naive_solver]. destruct confirmed; naive_solver.
Qed.

(** A service step runs a command on the host only after the guard of the
    Services page let its action through on this host: never one that brings
    down a unit the panel needs or the platform's policy refuses, and one that
    has to be confirmed only when the step was. *)
Theorem service_guarded message_text SanitizeOutput j tr o d argv out :
  exec (service_Start message_text SanitizeOutput j) tr o -> jact (Cmd d argv) out ∈ tr ->
  exists info, jact Platform info ∈ tr /\
    may_act info (sv_Name (spec_service (job_Spec j))) (sv_Action (spec_service (job_Spec j))) (js_Confirmed (job_Spec j)).
Proof.
  intros H Hc. unfold service_Start in H. apply exec_first in H as [[-> _]|(info & t & -> & H)];
    [by apply not_elem_of_nil in Hc|].
  exists info. split; [by left|]. apply UnitGuard_None. destruct (UnitGuard _ _ _ _) as [ref|] eqn:E; [exfalso|done].
  apply elem_of_cons in Hc as [Hc|Hc]; [by apply (f_equal (fun a => projT1 a)) in Hc|]. clear E.
  cbn [pbind] in H. unfold say, finish in H. cbn [rt_Status negb] in H.
  assert (Hq : only (fun c => match c with Cmd _ _ => False | _ => True end)
    (pbind (finish (job_ID j) (mkResult JobFailed false None (rf_Code ref +:+ ": " +:+ message_text (rf_Message ref))))
       (fun _ => Ret (None (A := string))))) by done.
  pose proof (exec_only _ _ _ _ Hq H _ Hc). done.
Qed.
