(* ===== verification/JobRunnersFacts.v ===== *)
(** * The runners of steps keep the laws *)

From S2P Require Import Prelude GoStrings GoTime ApiCodes HostGuard TaskModel Interact JobProg.
From S2P Require Import JobOutput.
From S2P Require Import JobNode JobRunners JobHost JobHostFacts.
From S2P Require Import ComposeSafety ComposeCall ComposeManager.
From S2P Require Import World FileCall FileGuard JobFile JobPackages JobStack.

#[local] Open Scope prog_scope.

Section Runners.
Variable message_text : message -> string.
Variable SanitizeOutput : string -> string.
Variable fuel : nat.

(** ** Every call is the job's own *)

Lemma own_finish id r : only (own_call id) (finish id r).
Proof. unfold finish. destruct (ends_job _) eqn:E; simpl negb; cbv iota; [|done]. only_go. Qed.
Lemma own_appendLog id j text : only (own_call id) (appendLog j text).
Proof. unfold appendLog. only_go. Qed.
#[local] Hint Resolve own_finish own_appendLog : only_db.

Lemma own_say j res : only (own_call (job_ID j)) (say j res).
Proof. unfold say. only_go. Qed.
Lemma own_removeScript id j : only (own_call id) (removeScript j).
Proof. unfold removeScript. only_go. Qed.
#[local] Hint Resolve own_say own_removeScript : only_db.

Lemma own_settle id j timeout : only (own_call id) (settle j timeout).
Proof. unfold settle. only_go. Qed.
Lemma own_watch_unit id n j cancelled unknown : only (own_call id) (watch_unit n j cancelled unknown).
Proof. revert cancelled unknown. induction n as [|n IH]; intros cancelled unknown; simpl watch_unit; only_go. Qed.
#[local] Hint Resolve own_settle own_watch_unit : only_db.

Lemma own_watch id j timeout : job_ID j = id -> only (own_call id) (watch fuel j timeout).
Proof. intros <-. unfold watch. only_go. Qed.
Lemma own_runDirect id j script timeout : only (own_call id) (runDirect SanitizeOutput j script timeout).
Proof. unfold runDirect. only_go. Qed.
#[local] Hint Resolve own_watch own_runDirect : only_db.

(** The unit a job is given changes nothing of whose job it is. *)
Lemma own_SetUnit_then {A} j unit_ (f : result string Job -> jprog A) :
  (forall j', job_ID j' = job_ID j -> only (own_call (job_ID j)) (f (Ok j'))) ->
  (forall text, only (own_call (job_ID j)) (f (Err text))) -> only (own_call (job_ID j)) (pbind (SetUnit j unit_) f).
Proof. intros Hok Herr. split; [done|]. intros [text|]; simpl; [apply Herr|by apply Hok]. Qed.
Lemma own_setRebooting_then {A} j unit_ (f : result string Job -> jprog A) :
  (forall j', job_ID j' = job_ID j -> only (own_call (job_ID j)) (f (Ok j'))) ->
  (forall text, only (own_call (job_ID j)) (f (Err text))) ->
  only (own_call (job_ID j)) (pbind (setRebooting j unit_) f).
Proof.
  intros Hok Herr. split; [done|]. intros boot. split; [done|]. intros [[]|text]; simpl; [by apply Hok|apply Herr..].
Qed.
Lemma own_say_as id j res : job_ID j = id -> only (own_call id) (say j res).
Proof. intros <-. apply own_say. Qed.
#[local] Hint Resolve own_say_as : only_db.
Ltac own_go :=
  repeat first
    [ apply own_SetUnit_then; [intros ? ?|intros ?]
    | apply own_setRebooting_then; [intros ? ?|intros ?]
    | only_step ].

Lemma own_command_Start j : only (own_call (job_ID j)) (command_Start SanitizeOutput fuel j).
Proof. unfold command_Start. own_go. Qed.

Lemma own_service_state id unit_ : only (own_call id) (service_state unit_).
Proof. unfold service_state. only_go. Qed.
#[local] Hint Resolve own_service_state : only_db.
Lemma own_service_Start j : only (own_call (job_ID j)) (service_Start message_text SanitizeOutput j).
Proof. unfold service_Start, service_run. only_go. Qed.

Lemma quiet_own id c : quiet_call c -> own_call id c.
Proof. by destruct c. Qed.
Lemma quiet_reboot_Refuse s : only quiet_call (reboot_Refuse s).
Proof. unfold reboot_Refuse, refusePVE, not_required, reboot_required. only_go. Qed.
Lemma own_reboot_Refuse id s : only (own_call id) (reboot_Refuse s).
Proof. eapply only_mono; [apply quiet_own|apply quiet_reboot_Refuse]. Qed.
Lemma own_not_required id s : only (own_call id) (not_required s).
Proof. unfold not_required, reboot_required. only_go. Qed.
Lemma own_reboot_await id j : job_ID j = id -> only (own_call id) (reboot_await j).
Proof. intros <-. unfold reboot_await, goingDown. only_go. Qed.
#[local] Hint Resolve own_reboot_Refuse own_not_required own_reboot_await : only_db.
Lemma own_reboot_Start j : only (own_call (job_ID j)) (reboot_Start SanitizeOutput j).
Proof. unfold reboot_Start. own_go. Qed.

(** ** A method that returns has ended its job *)

(** The watch over a job's end forbids nothing and forgets nothing. *)
Lemma wp_any {A} id (p : jprog A) d (Q : A -> bool -> Prop) :
  (forall a d', (d = true -> d' = true) -> Q a d') -> wp always (finish_monitor id) p d Q.
Proof.
  revert d. induction p as [a|c k IH|]; simpl; intros d HQ; [by apply HQ| |done].
  intros x _. split; [done|]. apply IH. intros a d' Hd. apply HQ. intros ->. apply Hd. by destruct c.
Qed.

Lemma ends_say j res d :
  ends_job (rt_Status res) = true ->
  wp always (finish_monitor (job_ID j)) (say j res) d (fun err d' => err = None -> d' = true).
Proof. intros E. apply wp_bind, wp_finish; [done|]. done. Qed.

(** Past whatever comes before it. *)
Lemma ends_after {A B} id (p : jprog A) (f : A -> jprog B) (Q : B -> bool -> Prop) :
  (forall a d, wp always (finish_monitor id) (f a) d Q) -> forall d, wp always (finish_monitor id) (pbind p f) d Q.
Proof. intros H d. apply wp_bind, wp_any. auto. Qed.

Ltac ends_step :=
  match goal with
  | |- wp _ _ (say _ _) _ _ => apply ends_say
  | |- wp _ _ (Ret (Some _)) _ _ => by intros ?
  | |- wp _ _ (Ret _) _ _ => done
  | |- wp _ _ (if ?b then _ else _) _ _ => destruct b eqn:?
  | |- wp _ _ (match ?x with _ => _ end) _ _ => destruct x eqn:?
  | |- wp _ _ (let _ := _ in _) _ _ => cbv zeta
  | |- wp _ _ (pbind (finish _ _) _) _ _ => apply wp_bind, wp_finish
  | |- wp _ _ (pbind _ _) _ _ => apply ends_after; intros ? ?
  end.
Ltac ends_go := repeat ends_step.

(** How a job ended is one of the ways a job ends. *)
Definition says_end (p : jprog Result) : Prop :=
  forall id d, wp always (finish_monitor id) p d (fun res _ => ends_job (rt_Status res) = true).

Ltac says_go := intros id d; ends_go; unfold exitResult; simpl; by repeat case_match.
Lemma says_settle j timeout : says_end (settle j timeout).
Proof. unfold settle. says_go. Qed.
Lemma says_runDirect j script timeout : says_end (runDirect SanitizeOutput j script timeout).
Proof. unfold runDirect. says_go. Qed.
Lemma says_service_run j step : says_end (service_run SanitizeOutput j step).
Proof. unfold service_run. says_go. Qed.

Lemma ends_with {B} id (p : jprog Result) (f : Result -> jprog B) (Q : B -> bool -> Prop) d :
  says_end p ->
  (forall res d, ends_job (rt_Status res) = true -> wp always (finish_monitor id) (f res) d Q) ->
  wp always (finish_monitor id) (pbind p f) d Q.
Proof. intros Hp Hf. apply wp_bind. eapply wp_mono; [apply Hp|]. auto. Qed.

Lemma ends_watch j timeout d : wp always (finish_monitor (job_ID j)) (watch fuel j timeout) d (fun _ d => d = true).
Proof.
  unfold watch. apply ends_after. intros cancelled d'. apply ends_with; [apply says_settle|]. intros res d'' Hres.
  ends_go; simpl; [by destruct cancelled|done].
Qed.

Lemma ends_SetUnit_then {A} j unit_ (f : result string Job -> jprog A) (Q : A -> bool -> Prop) d :
  (forall j' d, job_ID j' = job_ID j -> wp always (finish_monitor (job_ID j)) (f (Ok j')) d Q) ->
  (forall text d, wp always (finish_monitor (job_ID j)) (f (Err text)) d Q) ->
  wp always (finish_monitor (job_ID j)) (pbind (SetUnit j unit_) f) d Q.
Proof. intros Hok Herr x _. split; [done|]. destruct x as [text|]; simpl; [apply Herr|by apply Hok]. Qed.
Lemma ends_setRebooting_then {A} j unit_ (f : result string Job -> jprog A) (Q : A -> bool -> Prop) d :
  (forall j' d, job_ID j' = job_ID j -> wp always (finish_monitor (job_ID j)) (f (Ok j')) d Q) ->
  (forall text d, wp always (finish_monitor (job_ID j)) (f (Err text)) d Q) ->
  wp always (finish_monitor (job_ID j)) (pbind (setRebooting j unit_) f) d Q.
Proof.
  intros Hok Herr boot _. split; [done|]. intros x _. split; [done|]. destruct x as [[]|text]; simpl; [by apply Hok|apply Herr..].
Qed.

Lemma ends_watch_then j j' timeout d : job_ID j' = job_ID j ->
  wp always (finish_monitor (job_ID j)) (watch fuel j' timeout ;;; Ret None) d
    (fun err d => err = None (A := string) -> d = true).
Proof. intros <-. apply wp_bind. eapply wp_mono; [apply ends_watch|]. by intros _ ? ->. Qed.

Lemma ends_command_Start : ends_its_job (command_Start SanitizeOutput fuel).
Proof.
  intros j. unfold command_Start.
  repeat first
    [ apply ends_SetUnit_then; [intros ? ? ?|intros ? ?]
    | by apply ends_watch_then
    | apply ends_with; [apply says_runDirect|intros ? ? ?]
    | ends_step ].
  all: done.
Qed.

Lemma ends_command_Resume : ends_its_job (command_Resume fuel).
Proof. intros j. by apply ends_watch_then. Qed.

Lemma ends_service_Start : ends_its_job (service_Start message_text SanitizeOutput).
Proof.
  intros j. unfold service_Start. apply ends_after. intros info d. apply ends_with; [|intros; by apply ends_say].
  intros id d'. destruct (UnitGuard _ _ _ _); [done|apply says_service_run].
Qed.

Lemma ends_reboot_await j d : wp always (finish_monitor (job_ID j)) (reboot_await j) d (fun _ d => d = true).
Proof.
  unfold reboot_await. apply ends_after. intros now d1. apply ends_after. intros cancelled d2. apply ends_with.
  - intros id d3. ends_go.
  - intros res d3 Hres. ends_go; done.
Qed.

Lemma ends_reboot_Start : ends_its_job (reboot_Start SanitizeOutput).
Proof.
  intros j. unfold reboot_Start.
  repeat first
    [ apply ends_setRebooting_then; [intros j' ? E|intros ? ?]
    | match goal with E : job_ID ?j' = job_ID _ |- wp _ _ (pbind (reboot_await ?j') _) _ _ =>
        rewrite <-E; apply wp_bind; eapply wp_mono; [apply ends_reboot_await|by intros _ ? ->] end
    | match goal with E : job_ID ?j' = job_ID _ |- wp _ _ (say ?j' _) _ _ => rewrite <-E; by apply ends_say end
    | ends_step ].
  all: done.
Qed.

(** ** The laws *)

#[export] Instance CommandRunner_laws : RunnerLaws (CommandRunner SanitizeOutput fuel).
Proof.
  split; try done.
  - apply own_command_Start.
  - apply ends_command_Start.
  - intros f j [= <-]. unfold command_Resume. own_go.
  - intros f [= <-]. apply ends_command_Resume.
Qed.

#[export] Instance ServiceRunner_laws : RunnerLaws (ServiceRunner message_text SanitizeOutput).
Proof.
  split; try done.
  - apply own_service_Start.
  - apply ends_service_Start.
Qed.

#[export] Instance RebootRunner_laws : RunnerLaws (RebootRunner SanitizeOutput).
Proof.
  split; try done.
  - apply own_reboot_Start.
  - apply ends_reboot_Start.
  - intros f s [= <-]. apply quiet_reboot_Refuse.
  - intros f j [= <-]. by apply own_reboot_await.
  - intros f j [= <-]. apply ends_reboot_await.
Qed.

(** ** File steps *)

Lemma own_on_host {A} id (p : fprog A) : only (own_call id) (on_host p).
Proof. by apply only_lift. Qed.
Lemma quiet_on_host {A} (p : fprog A) : only quiet_call (on_host p).
Proof. by apply only_lift. Qed.
#[local] Hint Resolve own_on_host quiet_on_host : only_db.

Lemma wp_yields {A} id P (p : jprog A) d : yields P p -> wp always (finish_monitor id) p d (fun a _ => P a).
Proof.
  intros Hp. revert d. induction p as [a|c k IH|]; intros d; simpl in *; [done| |done].
  intros x _. split; [done|]. by apply IH.
Qed.
Lemma says_yields p : yields (fun res => ends_job (rt_Status res) = true) p -> says_end p.
Proof. intros Hp id d. by apply wp_yields. Qed.

Ltac yields_step :=
  lazymatch goal with
  | |- yields _ (Ret _) => simpl
  | |- yields _ (let _ := _ in _) => cbv zeta
  | |- yields _ (pbind _ _) => apply yields_bind; intros ?
  | |- yields _ (match ?x with _ => _ end) => destruct x
  end.
Lemma yields_writeFileStep step :
  yields (fun res => ends_job (rt_Status res) = true) (writeFileStep message_text SanitizeOutput step).
Proof.
  unfold writeFileStep, on_existing, on_missing, write_result, setAttrs.
  repeat yields_step; done || by repeat case_match.
Qed.

#[export] Instance FileRunner_laws : RunnerLaws (FileRunner message_text SanitizeOutput).
Proof.
  split; try done.
  - intros j. unfold FileRunner, file_Start. cbn [rn_Start]. only_go.
  - intros j. unfold FileRunner, file_Start. cbn [rn_Start]. apply ends_with.
    + apply says_yields, yields_lift, yields_writeFileStep.
    + intros res d Hres. apply ends_after. intros _ d'. by apply ends_say.
  - intros s. unfold FileRunner, file_Check. cbn [rn_Check]. only_go.
Qed.

(** ** Packages steps *)

Lemma own_copyOutput id j src offset : only (own_call id) (copyOutput j src offset).
Proof. unfold copyOutput. only_go. Qed.
#[local] Hint Resolve own_copyOutput : only_db.
Lemma own_wait_tx id n j tx cancelled copied : only (own_call id) (wait_tx n j tx cancelled copied).
Proof. revert cancelled copied. induction n as [|n IH]; intros cancelled copied; simpl wait_tx; only_go. Qed.
Lemma own_count_changed id done : only (own_call id) (count_changed done).
Proof. induction done as [|tx done IH]; simpl count_changed; only_go. Qed.
#[local] Hint Resolve own_wait_tx own_count_changed : only_db.
Lemma own_ended id status summary exit done : only (own_call id) (ended status summary exit done).
Proof. unfold ended. only_go. Qed.
#[local] Hint Resolve own_ended : only_db.
Lemma yields_ended status summary exit done : yields (fun res => rt_Status res = status) (ended status summary exit done).
Proof. unfold ended. case_match; [done|]. apply yields_bind. intros [n c]. by repeat case_match. Qed.

(** A result that ends the job, or the same job still. *)
Definition goes_with (j : Job) (x : Result + (Job * string)) : Prop :=
  match x with inl res => ends_job (rt_Status res) = true | inr (j', _) => job_ID j' = job_ID j end.
Lemma yields_stop j status summary done : ends_job status = true ->
  yields (goes_with j) (res <-- ended status summary None done ;; Ret (inl res)).
Proof.
  intros Hs. pose proof (yields_ended status summary None done) as H.
  induction (ended status summary None done) as [res|c k IH|]; simpl in *; [by subst|auto|done].
Qed.
Lemma yields_start_tx j i ph done : yields (goes_with j) (start_tx SanitizeOutput j i ph done).
Proof.
  unfold start_tx. intros gone. destruct gone; [by apply yields_stop|]. intros [id|e]; [|by apply yields_stop].
  intros x. apply (yields_bind (goes_with j) (appendLog _ _)). intros _. simpl. by destruct x.
Qed.
Lemma own_start_tx j i ph done : only (own_call (job_ID j)) (start_tx SanitizeOutput j i ph done).
Proof. unfold start_tx. own_go. Qed.

Lemma phase_end_says ph w done p : phase_end ph w done = Some p -> yields (fun res => ends_job (rt_Status res) = true) p.
Proof.
  unfold phase_end. destruct (default _ _) as [r code].
  repeat case_match; intros; simplify_eq; (eapply yields_mono; [apply yields_ended|]); by intros res ->.
Qed.
Lemma phase_end_own id ph w done p : phase_end ph w done = Some p -> only (own_call id) p.
Proof. unfold phase_end. destruct (default _ _) as [r code]. repeat case_match; intros; simplify_eq; apply own_ended. Qed.

Lemma own_run_phases rest : forall j i tx copied done,
  only (own_call (job_ID j)) (run_phases SanitizeOutput fuel j i rest tx copied done).
Proof.
  induction rest as [|ph rest IH]; intros j i tx copied done; cbn [run_phases]; [unfold end_packages; only_go|].
  apply (only_then _ (goes_with j)); [case_match; [apply own_start_tx|done]|case_match; [apply yields_start_tx|done]|].
  intros [res|[j' id]] E; simpl in E; [only_go|]. rewrite <-E. apply only_bind; [apply own_wait_tx|]. intros w. cbv zeta.
  destruct (phase_end ph w _) as [p|] eqn:Ep; [|apply IH]. unfold end_packages. apply only_bind; [by eapply phase_end_own|].
  intros res. only_go.
Qed.

Lemma ends_end_packages j p d : yields (fun res => ends_job (rt_Status res) = true) p ->
  wp always (finish_monitor (job_ID j)) (end_packages j p) d (fun _ d => d = true).
Proof. intros Hp. apply ends_with; [by apply says_yields|]. intros res d' Hres. by apply wp_bind, wp_finish. Qed.

Lemma ends_run_phases rest : forall j i tx copied done d,
  wp always (finish_monitor (job_ID j)) (run_phases SanitizeOutput fuel j i rest tx copied done) d (fun _ d => d = true).
Proof.
  induction rest as [|ph rest IH]; intros j i tx copied done d; cbn [run_phases].
  { apply ends_end_packages. eapply yields_mono; [apply yields_ended|]. by intros res ->. }
  apply wp_bind. eapply wp_mono; [apply (wp_yields _ (goes_with j)); case_match; [apply yields_start_tx|done]|].
  intros [res|[j' id]] d' E; simpl in E; [by apply wp_bind, wp_finish|]. rewrite <-E.
  apply ends_after. intros w d''. cbv zeta. destruct (phase_end ph w _) as [p|] eqn:Ep; [|apply IH].
  apply ends_end_packages. by eapply phase_end_says.
Qed.
Lemma ends_phases_then rest j i tx copied done d :
  wp always (finish_monitor (job_ID j)) (run_phases SanitizeOutput fuel j i rest tx copied done ;;; Ret None) d
    (fun err d => err = None (A := string) -> d = true).
Proof. apply wp_bind. eapply wp_mono; [apply ends_run_phases|]. by intros _ ? ->. Qed.
#[local] Hint Resolve own_run_phases : only_db.

#[export] Instance PackageRunner_laws : RunnerLaws (PackageRunner message_text SanitizeOutput fuel).
Proof.
  split; try done.
  - intros j. unfold PackageRunner, packages_Start. cbn [rn_Start]. only_go.
  - intros j. apply ends_phases_then.
  - intros f j [= <-]. unfold packages_Resume, readPhaseMarks. only_go.
  - intros f [= <-] j. unfold packages_Resume. apply ends_after. intros marks d.
    repeat first [apply ends_phases_then | ends_step | exact I].
Qed.

(** ** Stack steps *)

Section Stack.
Variable baseDir : string.
Variable Unmarshal : string -> result string ymap.

Lemma own_managed {A} id j (p : cprog A) : only (own_call id) (managed j p).
Proof. apply only_handled. intros out c. unfold log_lines. destruct c; only_go. Qed.
#[local] Hint Resolve own_managed : only_db.
Lemma own_write_stack id j step : only (own_call id) (write_stack message_text SanitizeOutput baseDir j step).
Proof. unfold write_stack. only_go. Qed.
Lemma own_up_stack id j step wrote summary :
  only (own_call id) (up_stack message_text SanitizeOutput baseDir Unmarshal j step wrote summary).
Proof. unfold up_stack. only_go. Qed.
#[local] Hint Resolve own_write_stack own_up_stack : only_db.

Lemma yields_write_stack j step :
  yields (fun r => match r with Err res => ends_job (rt_Status res) = true | Ok _ => True end)
    (write_stack message_text SanitizeOutput baseDir j step).
Proof. unfold write_stack. repeat yields_step; done. Qed.
Lemma yields_runStack j :
  yields (fun res => ends_job (rt_Status res) = true) (runStack message_text SanitizeOutput baseDir Unmarshal j).
Proof.
  unfold runStack, up_stack. cbv zeta. destruct (stackGuard _ _ _) as [[code reason] confirm].
  destruct (_ && _); [done|]. intros compose. cbn [pbind]. destruct compose; [|done]. cbn [negb]. cbv iota.
  eapply yields_then; [apply yields_write_stack|]. intros [wrote|res] Hres; [|exact Hres].
  destruct (negb _); [done|]. repeat yields_step; done || by repeat case_match.
Qed.

#[export] Instance StackStepRunner_laws : RunnerLaws (StackStepRunner message_text SanitizeOutput baseDir Unmarshal).
Proof.
  split; try done.
  - intros j. unfold StackStepRunner, stack_Start, runStack. cbn [rn_Start]. only_go.
  - intros j. unfold StackStepRunner, stack_Start. cbn [rn_Start]. apply ends_with; [apply says_yields, yields_runStack|].
    intros res d Hres. by apply wp_bind, wp_finish.
  - intros s. unfold StackStepRunner, stack_Check. cbn [rn_Check]. only_go.
Qed.
End Stack.
End Runners.
