(* ===== verification/JobStackFacts.v ===== *)
(** * A stack step keeps behind the guards of the compose endpoints *)

From S2P Require Import Prelude GoStrings GoRegexp PathFacts ComposeSafety TaskModel Interact World.
From S2P Require Import FileCall ComposeCall.
From S2P Require Import ComposeManager ComposeManagerFacts ComposePlaces JobProg JobOutput JobNode JobRunners JobFile.
From S2P Require Import JobStack.

#[local] Open Scope prog_scope.

Section Stack.
Variable message_text : message -> string.
Variable SanitizeOutput : string -> string.
Variable baseDir : string.
Hypothesis base_abs : isAbs baseDir = true.
Variable Unmarshal : string -> result string ymap.

(** ** The manager's calls among the job's *)

Definition managers (a : jaction) : option caction :=
  let 'existT c x := a in
  match c return janswer c -> option caction with Cm c => fun x => Some (cact c x) | _ => fun _ => None end x.

(** A monitor of the manager's calls, as one of the job's. *)
Definition of_manager (m : cmonitor) : jmonitor :=
  mkMonitor (mn_state m)
    (fun s a => match managers a with Some b => mn_ok m s b | None => True end)
    (fun s a => match managers a with Some b => mn_next m s b | None => s end).
Definition anything (_ : jaction) : Prop := True.

(** Which lines are printed is nothing to it. *)
Definition not_lines (m : cmonitor) : Prop := forall s line, mn_next m s (cact (OnLine line) tt) = s.

Lemma wp_managed {A} m j (p : cprog A) s (Q : A -> mn_state m -> Prop) :
  not_lines m -> wp always m p s Q -> wp anything (of_manager m) (managed j p) s (fun r s => Q r.1 s).
Proof.
  intros Hm. unfold managed. generalize "". revert s. induction p as [a|c k IH|]; intros s out H; [done| |done].
  cbn [handled]. apply wp_bind.
  assert (Hcm : (forall line, c <> OnLine line) ->
    wp anything (of_manager m) (x <-- jdo (Cm c) ;; Ret (x, out)) s
      (fun xs s' => wp anything (of_manager m) (handled (log_lines j) xs.2 (k xs.1)) s' (fun r s => Q r.1 s))).
  { intros _ x _. destruct (H x I) as [Hok Hn]. split; [exact Hok|]. cbn [pbind wp fst snd]. by apply IH. }
  destruct c; try (by apply Hcm). clear Hcm. unfold log_lines. apply wp_bind.
  assert (Hl : forall (Q' : unit -> mn_state m -> Prop), Q' tt s -> wp anything (of_manager m) (appendLog j line) s Q').
  { intros Q' HQ. unfold appendLog. destruct (line ==s ""); [done|]. intros [] _. by split. }
  apply Hl. cbn [wp fst snd]. apply IH. destruct (H tt I) as [_ Hn]. by rewrite Hm in Hn.
Qed.

(** ** A step, as a monitor sees it *)

Section Watched.
Variable m : cmonitor.
Hypothesis lines : not_lines m.
Definition mild {A} (p : jprog A) : Prop := forall s, wp anything (of_manager m) p s (fun _ _ => True).
Lemma mild_bind {A B} (p : jprog A) (f : A -> jprog B) : mild p -> (forall a, mild (f a)) -> mild (pbind p f).
Proof. intros Hp Hf s. apply wp_bind. eapply wp_mono; [apply Hp|]. intros a s' _. apply Hf. Qed.
Lemma mild_managed {A} j (p : cprog A) : (forall s, wp always m p s (fun _ _ => True)) -> mild (managed j p).
Proof. intros H s. eapply wp_mono; [by apply (wp_managed m j p s (fun _ _ => True))|done]. Qed.
Lemma mild_own {A} (p : jprog A) : only (fun c => match c with Cm _ => False | _ => True end) p -> mild p.
Proof.
  induction p as [a|c k IH|]; intros Hp s; [done| |done]. destruct Hp as [Hc Hk]. intros x _.
  destruct c; try done; (split; [done|]; by apply IH).
Qed.
Lemma mild_appendLog j text : mild (appendLog j text).
Proof. apply mild_own. unfold appendLog. by destruct (text ==s ""). Qed.

Variable step : StackStep.
Hypothesis m_get : forall s, wp always m (GetProjectYAML baseDir (st_Name step)) s (fun _ _ => True).
Hypothesis m_create : forall s, wp always m (CreateProject baseDir (st_Name step) (st_Compose step)) s (fun _ _ => True).
Hypothesis m_update : forall s, wp always m (UpdateProject baseDir (st_Name step) (st_Compose step)) s (fun _ _ => True).
Hypothesis m_up : st_Up step = true -> forall s, wp always m (UpStream message_text baseDir Unmarshal (st_Name step)) s (fun _ _ => True).

Lemma mild_write_stack j : mild (write_stack message_text SanitizeOutput baseDir j step).
Proof.
  unfold write_stack. apply mild_bind; [by apply mild_managed|]. intros have.
  destruct (match have.1 with Ok _ => _ | Err _ => _ end); [by apply mild_bind; [apply mild_appendLog|]|].
  apply mild_bind; [by apply mild_managed|]. intros created. apply mild_bind.
  - destruct created.1 as [p|e]; [done|]. destruct (ce_exists e); [|done]. by apply mild_bind; [apply mild_managed|].
  - intros [verb [e|]]; [done|]. by apply mild_bind; [apply mild_appendLog|].
Qed.
Lemma mild_runStack j : spec_stack (job_Spec j) = step -> mild (runStack message_text SanitizeOutput baseDir Unmarshal j).
Proof.
  intros E. unfold runStack. cbv zeta. rewrite E. destruct (stackGuard _ _ step) as [[code reason] confirm].
  destruct (_ && _); [done|]. apply mild_bind; [apply mild_own; by split|]. intros compose. destruct (negb compose); [done|].
  apply mild_bind; [apply mild_write_stack|]. intros [wrote|res]; [|done].
  destruct (st_Up step) eqn:Eu; simpl negb; cbv iota; [|done]. unfold up_stack.
  apply mild_bind; [by apply mild_managed, m_up|]. intros [err out]. apply mild_bind; [apply mild_own; by split|]. by intros.
Qed.
End Watched.

Lemma watch_managers m s tr : Interact.watch (of_manager m) s tr -> Interact.watch m s (omap managers tr).
Proof.
  revert s. induction tr as [|a tr IH]; intros s H; [done|]. destruct H as [Hok Hn]. simpl in Hok, Hn |- *.
  destruct (managers a) as [b|]; [split; [done|]|]; by apply IH.
Qed.
Lemma wp_ignored {A} R m (p : cprog A) s :
  wp R m (ignored p) s (fun _ _ => True) -> wp R m p s (fun _ _ => True).
Proof.
  unfold ignored. revert s. induction p as [a|c k IH|]; intros s H; [done| |done]. intros x Hx. destruct (H x Hx). auto.
Qed.

(** ** The three monitors *)

Section Step.
Variable step : StackStep.
Notation name := (st_Name step).
Notation no_health := (fun _ : string => Err (A := list (string * option bool)) "").
Notation no_entries := (fun _ : list rollbackEntry => "").
Notation no_manifest := (fun _ : string => Err (A := list rollbackEntry) "").
Notation op_prog := (perform message_text baseDir Unmarshal no_health no_entries no_manifest).

(** Its stack's files only. *)
Lemma lines_place : not_lines (place_monitor baseDir name).
Proof. done. Qed.
(** The step's document, and only up where it says so. *)
Definition content_monitor : cmonitor :=
  mkMonitor unit
    (fun _ a => (forall tmp content, projT1 a = CFs (TmpWrite tmp content) -> content = st_Compose step) /\
                (is_Some (deploys (projT1 a)) -> st_Up step = true)) (fun _ _ => tt).
Notation ups := (up_monitor Unmarshal (fun _ _ => True)).

Lemma op_places op : op_name message_text baseDir Unmarshal op = name ->
  forall s, wp always (place_monitor baseDir name) (op_prog op) s (fun _ _ => True).
Proof. intros <- s. by apply keeps_perform. Qed.
Lemma op_ups op s : wp always ups (op_prog op) s (fun _ _ => True).
Proof.
  apply (tame_perform message_text baseDir Unmarshal _ _ _ always (fun _ _ => True) (fun _ _ => True)); [|done].
  intros n s' Q HQ. apply (wp_only always ups reads); [|apply reads_resolve|auto].
  intros c x Hc. split; [intros p E; by destruct c|by destruct c].
Qed.

Lemma lines_content : not_lines content_monitor.
Proof. by intros [] line. Qed.
Lemma lines_ups : not_lines ups.
Proof. done. Qed.

(** A call that writes no other document and brings nothing up. *)
Definition writes_step (c : ccall) : Prop :=
  match c with
  | CFs (TmpWrite _ content) => content = st_Compose step
  | ComposeCombined _ _ | ComposeBegin _ _ => False
  | _ => True
  end.
Lemma only_content {A} (p : cprog A) s : only writes_step p -> wp always content_monitor p s (fun _ _ => True).
Proof.
  intros Hp. apply (wp_only always content_monitor writes_step); [|done|done]. intros c x Hc. destruct s. split; [|done].
  split; [intros tmp content E; simpl in E; by subst|intros [q E]; simpl in E; by destruct c].
Qed.
Lemma reads_writes {A} (p : cprog A) : only reads p -> only writes_step p.
Proof. apply only_mono. intros []; try done. by destruct c. Qed.
Lemma writes_atomic path mode : only writes_step (writeFileAtomic path (st_Compose step) mode).
Proof. unfold writeFileAtomic. only_calls. Qed.

Lemma content_get s : wp always content_monitor (GetProjectYAML baseDir name) s (fun _ _ => True).
Proof. apply only_content, reads_writes, reads_GetProjectYAML. Qed.
Lemma content_create s : wp always content_monitor (CreateProject baseDir name (st_Compose step)) s (fun _ _ => True).
Proof.
  apply only_content. unfold CreateProject, checked. destruct (ComposeManager.validateProjectName _ _); [done|]. cbv zeta.
  apply only_bind; [apply reads_writes, reads_findComposeFile|]. intros f. destruct (negb _); [done|].
  split; [done|]. intros err. cbn [pbind]. destruct err as [e|]; [done|].
  apply only_bind; [apply writes_atomic|]. intros err. done.
Qed.
Lemma content_update s : wp always content_monitor (UpdateProject baseDir name (st_Compose step)) s (fun _ _ => True).
Proof.
  apply only_content. unfold UpdateProject, checked. destruct (ComposeManager.validateProjectName _ _); [done|]. cbv zeta.
  apply only_bind; [apply reads_writes, reads_findComposeFile|]. intros f. destruct (f ==s ""); [done|].
  apply only_bind; [apply writes_atomic|]. intros err. done.
Qed.
Lemma content_up s : st_Up step = true ->
  wp always content_monitor (UpStream message_text baseDir Unmarshal name) s (fun _ _ => True).
Proof.
  intros Hu. apply (wp_only always content_monitor hands_off); [|apply off_stream|done]. intros c x Hc. destruct s.
  split; [|done]. split; [|done]. intros tmp content E. simpl in E. by subst.
Qed.
End Step.

(** ** The property *)

Definition passes (step : StackStep) (confirmed : bool) : Prop :=
  ValidateProjectName (st_Name step) = None /\
  exists r, Analyze Unmarshal (st_Compose step) = Ok r /\ rp_Forbidden r = [] /\ (rp_Risky r = [] \/ confirmed = true).

Lemma stackGuard_passes step confirmed code reason confirm :
  stackGuard message_text Unmarshal step = (code, reason, confirm) ->
  negb (code ==s "") && (negb confirm || negb confirmed) = false -> passes step confirmed.
Proof.
  unfold stackGuard, passes. destruct (ValidateProjectName _); [by intros [= <- <- <-]|].
  destruct (Analyze _ _) as [r|e]; [|by intros [= <- <- <-]]. destruct (rp_Forbidden r) as [|f fs] eqn:Ef; simpl; [|by intros [= <- <- <-]].
  intros H Hc. split; [done|]. exists r. split_and!; [done|done|]. unfold Report_Error in H. rewrite Ef in H. simpl in H.
  destruct (rp_Risky r) as [|k ks]; [by left|right]. simpl in H. injection H as <- <- <-. simpl in Hc. by destruct confirmed.
Qed.

(** C15: A stack step calls on the compose manager only when its name and its
    document passed the endpoints' guards, a risky one confirmed; it writes
    only its own document, only in its stack's directory; and it brings the
    stack up only where it says so, after the resolved document was found to
    bind none of the panel's secrets. *)
Theorem runStack_guarded j tr o :
  exec (runStack message_text SanitizeOutput baseDir Unmarshal j) tr o ->
  let step := spec_stack (job_Spec j) in
  (omap managers tr <> [] -> passes step (js_Confirmed (job_Spec j))) /\
  Interact.watch (place_monitor baseDir (st_Name step)) [] (omap managers tr) /\
  forall tr1 a tr2, omap managers tr = tr1 ++ a :: tr2 ->
    (forall tmp content, projT1 a = CFs (TmpWrite tmp content) -> content = st_Compose step) /\
    (is_Some (deploys (projT1 a)) -> st_Up step = true /\ exists b q, b ∈ tr1 /\ judged Unmarshal b = Some q).
Proof.
  intros He step.
  assert (Hw : forall m s, mild m (runStack message_text SanitizeOutput baseDir Unmarshal j) -> Interact.watch m s (omap managers tr)).
  { intros m s Hm. apply watch_managers. eapply wp_sound; [apply Hm|exact He|]. apply Forall_forall. by intros. }
  split; [|split].
  - intros Hne. unfold runStack in He. cbv zeta in He. fold step in He.
    destruct (stackGuard _ _ step) as [[code reason] confirm] eqn:Eg. destruct (_ && _) eqn:Ec.
    + exfalso. apply Hne. by apply exec_inv in He as [[-> _]|[-> _]].
    + by eapply stackGuard_passes.
  - apply Hw, (mild_runStack _ (lines_place step) step); [..|done].
    + intros s. apply wp_ignored. by apply (op_places step (OpGetYAML _ _ _ (st_Name step))).
    + intros s. eapply wp_mono; [apply wp_ignored|done]. by apply (op_places step (OpCreate _ _ _ (st_Name step) (st_Compose step))).
    + intros s. apply wp_ignored. by apply (op_places step (OpUpdate _ _ _ (st_Name step) (st_Compose step))).
    + intros _ s. apply wp_ignored. by apply (op_places step (OpUpStream _ _ _ (st_Name step))).
  - assert (Hc : Interact.watch (content_monitor step) tt (omap managers tr)).
    { apply Hw, (mild_runStack _ (lines_content step) step); [apply content_get|apply content_create|apply content_update| |done].
      intros Hu s. by apply content_up. }
    assert (Hu : Interact.watch (up_monitor Unmarshal (fun _ _ => True)) [] (omap managers tr)).
    { apply Hw, (mild_runStack _ lines_ups step); [..|done]; intros; apply wp_ignored.
      - apply (op_ups (OpGetYAML _ _ _ (st_Name step))).
      - apply (op_ups (OpCreate _ _ _ (st_Name step) (st_Compose step))).
      - apply (op_ups (OpUpdate _ _ _ (st_Name step) (st_Compose step))).
      - apply (op_ups (OpUpStream _ _ _ (st_Name step))). }
    intros tr1 a tr2 E. rewrite E in Hc, Hu. apply watch_at in Hc as [Hc1 Hc2]. apply watch_at in Hu. split; [exact Hc1|].
    intros Hd. split; [by apply Hc2|]. destruct Hd as [p Hp]. destruct (Hu p Hp) as (q & Hq & _).
    apply seen_judged in Hq as [Hq|(b & Hb & Ej)]; [by apply elem_of_nil in Hq|by exists b, q].
Qed.
End Stack.
