(* ===== verification/JobLive.v ===== *)
(** * Every request to a node is answered

    Whatever a node's goroutines do, startMu is given back: the goroutine
    that holds it releases it on every way out of a start.  So where the
    scheduler is fair and every call is answered, each request to /task-jobs
    comes to its answer, unless the panel is restarted first. *)

From S2P Require Import Prelude GoStrings GoTime HostGuard TaskModel Interact World FileCall.
From S2P Require Import FileGuard.
From S2P Require Import JobProg.
From S2P Require Import JobOutput JobNode JobRunners JobFile JobPackages JobStack JobHost JobHostFacts.

#[local] Open Scope prog_scope.

(** ** Programs that never run out of fuel *)

Section Answers.
Context {call : Type} {answer : call -> Type}.

Fixpoint answers {A} (p : prog answer A) : Prop :=
  match p with
  | Ret _ => True
  | Do c k => forall x, answers (k x)
  | Stuck => False
  end.

Lemma prog_answers_bind {A B} (p : prog answer A) (f : A -> prog answer B) :
  answers p -> (forall a, answers (f a)) -> answers (pbind p f).
Proof. induction p as [a|c k IH|]; simpl; auto. Qed.
End Answers.

Lemma answers_lift {call1 call2 : Type} {answer1 : call1 -> Type} {answer2 : call2 -> Type} inj back {A}
    (p : prog answer1 A) : answers p -> answers (@lift call1 call2 answer1 answer2 inj back A p).
Proof. induction p as [a|c k IH|]; simpl; auto. Qed.

(** What the handlers rely on of a kind's checks: they come to an end. *)
Class RunnerAnswers (rn : Runner) : Prop := {
  Check_answers s : answers (rn_Check rn s);
  Refuse_answers f s : rn_Refuse rn = Some f -> answers (f s);
}.
Class RunnersAnswer (runners : string -> option Runner) : Prop :=
  runners_answer kind rn : runners kind = Some rn -> RunnerAnswers rn.

Create HintDb answers_db.
#[export] Hint Resolve eq_refl : answers_db.
Ltac answers_step :=
  match goal with
  | |- answers _ => solve [auto with answers_db nocore]
  | |- answers (pbind (do_call _) _) => intros ?; cbv beta
  | |- answers (pbind _ _) => apply prog_answers_bind; [|intros ?]
  | |- answers (Do _ _) => intros ?; cbv beta
  | |- answers (Ret _) => exact I
  | |- answers (do_call _) => intros ?; exact I
  | |- answers (if ?b then _ else _) => destruct b eqn:?
  | |- answers (match ?x with _ => _ end) => destruct x eqn:?
  end.
Ltac answers_go := repeat answers_step.

(** ** The checks of each kind *)

Lemma answers_resolve_loop hops cur rest : answers (resolve_loop hops cur rest).
Proof.
  revert cur rest. induction hops as [|hops IH]; intros cur rest; revert cur; induction rest as [|name rest IHr]; intros cur;
    simpl resolve_loop; answers_go.
Qed.

Lemma answers_ValidatePathForWrite p : answers (ValidatePathForWrite p).
Proof.
  pose proof answers_resolve_loop. unfold ValidatePathForWrite, validatePathForWrite, write_candidates, resolveForWrite.
  answers_go.
Qed.

#[export] Instance CommandRunner_answers san polls : RunnerAnswers (CommandRunner san polls).
Proof. split; [done|]. intros f s [=]. Qed.
#[export] Instance ServiceRunner_answers text san : RunnerAnswers (ServiceRunner text san).
Proof. split; [done|]. intros f s [=]. Qed.
#[export] Instance RebootRunner_answers san : RunnerAnswers (RebootRunner san).
Proof.
  split; [done|]. intros f s [= <-]. unfold reboot_Refuse, refusePVE, not_required, reboot_required. answers_go.
Qed.
#[export] Instance FileRunner_answers text san : RunnerAnswers (FileRunner text san).
Proof.
  split; [|intros f s [=]]. intros s. apply prog_answers_bind; [|done]. apply answers_lift, answers_ValidatePathForWrite.
Qed.
#[export] Instance PackageRunner_answers text san polls : RunnerAnswers (PackageRunner text san polls).
Proof. split; [done|]. intros f s [=]. Qed.

#[export] Instance StackStepRunner_answers text san base um : RunnerAnswers (StackStepRunner text san base um).
Proof. split; [|intros f s [=]]. intros s. simpl. unfold stack_Check. by destruct (stackGuard _ _ _) as [[code reason] confirm]. Qed.

(** ** A lock that is given back *)

Definition lock_call (held : bool) (c : jcall) : bool :=
  match c with StartLock => true | StartUnlock => false | _ => held end.

(** Locks only without the lock, unlocks only with it, and comes to no end
    with it but one [Q] allows. *)
Fixpoint balanced {A} (held : bool) (p : jprog A) (Q : A -> bool -> Prop) : Prop :=
  match p with
  | Ret a => Q a held
  | Stuck => held = false
  | Do c k =>
      match c with StartLock => held = false | StartUnlock => held = true | _ => True end /\
      forall x, balanced (lock_call held c) (k x) Q
  end.
Definition gives_back (held : bool) (p : jprog unit) : Prop := balanced held p (fun _ held => held = false).

Lemma balanced_bind {A B} held (p : jprog A) (f : A -> jprog B) Q :
  balanced held p (fun a h => balanced h (f a) Q) -> balanced held (pbind p f) Q.
Proof.
  revert held. induction p as [a|c k IH|]; intros held; simpl; [done| |done].
  intros [? Hk]. split; [done|]. intros x. by apply IH.
Qed.

Lemma balanced_call {A} held c (f : janswer c -> jprog A) Q :
  match c with StartLock => held = false | StartUnlock => held = true | _ => True end ->
  (forall x, balanced (lock_call held c) (f x) Q) -> balanced held (pbind (jdo c) f) Q.
Proof. by split. Qed.

Lemma plain_lock c held : plain_call c ->
  match c with StartLock => held = false | StartUnlock => held = true | _ => True end /\ lock_call held c = held.
Proof. by destruct c. Qed.

Lemma balanced_plain {A} held (p : jprog A) (Q : A -> bool -> Prop) :
  only plain_call p -> (held = false \/ answers p) -> (forall a, Q a held) -> balanced held p Q.
Proof.
  intros Hp Ha HQ. induction p as [a|c k IH|]; simpl in *; [done| |by destruct Ha].
  destruct Hp as [Hc Hk]. destruct (plain_lock c held Hc) as [? ->]. split; [done|]. intros x.
  apply IH; [done|]. destruct Ha; auto.
Qed.

Ltac by_unlock := split; [done|intros ?; simpl; by auto].

Section Host.
Variable LogDir : string.
Variable message_text : message -> string.
Variable SanitizeOutput : string -> string.
Variable SanitizeLogPiece : string -> string.
Variable runners : string -> option Runner.
Context `{!RunnersLaws runners} `{!RunnersAnswer runners}.

Notation host_step := (host_step LogDir message_text SanitizeOutput SanitizeLogPiece runners).
Notation new_host := (new_host LogDir runners).
Notation request := (request LogDir message_text SanitizeLogPiece runners).

Lemma balanced_start_locked spec rn kind user (Q : job_answer + record -> bool -> Prop) :
  runners kind = Some rn -> (forall x, Q x false) ->
  balanced true (start_locked LogDir SanitizeLogPiece spec rn user) Q.
Proof.
  intros E HQ. unfold start_locked. split; [done|]. intros [[rec|]|e]; simpl; [by_unlock| |by_unlock].
  apply balanced_bind, balanced_plain; [by eapply only_refuse| |].
  { right. destruct (rn_Refuse rn) as [f|] eqn:Ef; [|done]. by apply (@Refuse_answers rn (runners_answer _ _ E)). }
  intros [ref|]; [by_unlock|]. split; [done|]. intros [[holder|]|e]; simpl; [by_unlock| |by_unlock].
  do 2 (split; [done|intros ?; simpl]). split; [done|]. intros [e|]; simpl; [by_unlock|].
  split; [done|]. intros [e|]; simpl; [by_unlock|]. split; [done|]. intros _. by_unlock.
Qed.

Lemma gives_back_request p : request p -> gives_back false p.
Proof.
  intros Hp. destruct Hp as [verified spec user|verified id skip|verified id force|verified specs]; apply balanced_bind.
  - unfold StartJob. destruct (negb verified); [done|]. destruct spec as [spec|]; [|done].
    destruct (validate runners spec) as [rn|msg] eqn:Ev; [|done].
    assert (exists kind, runners kind = Some rn) as [kind Hk].
    { unfold validate in Ev. go_cases. eauto. }
    apply balanced_call; [done|]. intros u. cbn [lock_call]. apply balanced_bind. eapply balanced_start_locked; [done|]. intros [a|rec]; [done|].
    apply balanced_plain; [|by left|done]. pose proof only_sweep. pose proof only_view. only_go.
  - apply balanced_plain; [|by left|done]. pose proof only_view. unfold GetJob, JobNode.lookup. only_go.
  - apply balanced_plain; [|by left|done]. pose proof only_view. unfold CancelJob, JobNode.lookup. only_go.
  - apply balanced_plain; [|by left|done]. pose proof only_check_specs. unfold CheckJobs. only_go.
Qed.

(** What a node's lock is to its goroutines: a goroutine holds it and will
    give it back, or nobody does. *)
Record lock_ok (h : host) : Prop := {
  lk_back i p : ho_pool h !! i = Some p -> gives_back (bool_decide (ho_lock h = Some i)) p;
  lk_held i : ho_lock h = Some i -> (i < length (ho_pool h))%nat;
}.

Lemma lock_ok_boot t : lock_ok (mkHost t None [Recover LogDir runners]).
Proof.
  split; [|done]. intros [|i] p; intros; simplify_eq/=. apply balanced_plain; [apply only_Recover|by left|done].
Qed.

Lemma gives_back_spawned c : Forall (gives_back false) (spawned SanitizeOutput runners c).
Proof.
  destruct c; simpl; repeat constructor. pose proof (only_launched SanitizeOutput runners l j). by apply balanced_plain; [|left|].
Qed.

Lemma lock_ok_step h a h' : lock_ok h -> host_step h a h' -> lock_ok h'.
Proof.
  intros [Hback Hheld] Hs. destruct Hs as [h i c k x t Hp Hmay _|h p Hp|h]; [| |apply lock_ok_boot].
  - pose proof (lookup_lt_Some _ _ _ Hp) as Hi. destruct (Hback _ _ Hp) as [Hc Hk]. specialize (Hk x).
    assert (Hlock : forall j, lock_after h i c = Some j -> j = i \/ ho_lock h = Some j).
    { intros j E. unfold lock_after in E. destruct c; auto; simplify_eq; auto. }
    split; simpl; [|intros j [->|?%Hheld]%Hlock; rewrite length_app, length_insert; lia].
    intros j p Hj. destruct (decide (j = i)) as [->|Hne].
    + rewrite lookup_app_l, list_lookup_insert_eq in Hj by (rewrite ?length_insert; done). injection Hj as <-.
      assert (bool_decide (lock_after h i c = Some i) = lock_call (bool_decide (ho_lock h = Some i)) c) as ->; [|done].
      destruct c; simpl; try done. by apply bool_decide_eq_true_2.
    + assert (bool_decide (lock_after h i c = Some j) = bool_decide (ho_lock h = Some j)) as ->.
      { apply bool_decide_ext. split; [by intros [?|?]%Hlock|]. intros E. unfold lock_after.
        destruct c; simpl in *; try done; [congruence|]. apply bool_decide_eq_true in Hc. congruence. }
      apply lookup_app_Some in Hj as [Hj|[Hge Hj]]; rewrite ?length_insert in *.
      * rewrite list_lookup_insert_ne in Hj by done. by apply Hback.
      * rewrite bool_decide_eq_false_2 by (intros ?%Hheld; lia). eapply (Forall_lookup_1 _ _ _ _ (gives_back_spawned c)), Hj.
  - split; simpl; [|intros i ?%Hheld; rewrite length_app; lia]. intros i q [Hq|[Hge Hq]]%lookup_app_Some; [by apply Hback|].
    apply list_lookup_singleton_Some in Hq as [? <-]. rewrite bool_decide_eq_false_2 by (intros ?%Hheld; lia).
    by apply gives_back_request.
Qed.

(** ** Runs that go on *)

Section Run.
(** The node at each moment; at some it does nothing. *)
Variable f : nat -> host.

Definition run : Prop := f 0%nat = new_host /\ forall n, f (S n) = f n \/ exists a, host_step (f n) a (f (S n)).

(** Goroutine [i] makes its call and is answered. *)
Definition moves (i n : nat) : Prop :=
  match ho_pool (f n) !! i with
  | Some (Do c k) =>
      exists x t, may_call (f n) c /\ table_step (ho_table (f n)) c x t /\
        f (S n) = mkHost t (lock_after (f n) i c) (<[i := k x]> (ho_pool (f n)) ++ spawned SanitizeOutput runners c)
  | _ => False
  end.
Definition restarts (n : nat) : Prop := f (S n) = mkHost (ho_table (f n)) None [Recover LogDir runners].

(** A goroutine that has a call to make makes it sooner or later, or the
    panel is restarted: the scheduler is fair and calls are answered.  One
    that waits for startMu gets it if it keeps being free (sync.Mutex starves
    nobody). *)
Definition fair : Prop :=
  forall n i c k, ho_pool (f n) !! i = Some (Do c k) ->
    (c = StartLock -> forall m, (n <= m)%nat -> exists m', (m <= m')%nat /\ ho_lock (f m') = None) ->
    exists m, (n <= m)%nat /\ (moves i m \/ restarts m).

Hypothesis f_run : run.

Lemma run_lock_ok n : lock_ok (f n).
Proof.
  destruct f_run as [H0 HS]. induction n as [|n IH]; [rewrite H0; apply lock_ok_boot|].
  destruct (HS n) as [->|[a Ha]]; [done|]. by eapply lock_ok_step.
Qed.

(** A moment leaves a goroutine where it is, unless it is the one that moves
    or the panel is restarted; and it keeps the lock if it has it. *)
Lemma moment n i p : ho_pool (f n) !! i = Some p ->
  restarts n \/ moves i n \/
  ho_pool (f (S n)) !! i = Some p /\ (ho_lock (f n) = Some i -> ho_lock (f (S n)) = Some i).
Proof.
  intros Hp. pose proof (run_lock_ok n) as [Hback _]. destruct (proj2 f_run n) as [->|[a Ha]]; [auto|].
  pose proof (lookup_lt_Some _ _ _ Hp) as Hi. unfold restarts, moves.
  remember (f (S n)) as h' eqn:Eh. destruct Ha as [h j c k x t Hj Hmay Ht|h q Hq|h]; [| |by left].
  - destruct (decide (j = i)) as [->|Hne]; [right; left; rewrite Hj; by exists x, t|]. right; right; simpl. split.
    + rewrite lookup_app_l by (by rewrite length_insert). by rewrite list_lookup_insert_ne.
    + intros E. destruct (Hback _ _ Hj) as [Hc _]. unfold lock_after. destruct c; simpl in *; try done; [congruence|].
      apply bool_decide_eq_true in Hc. congruence.
  - right; right; simpl. split; [|done]. by rewrite lookup_app_l.
Qed.

Lemma moves_on i n c k : moves i n -> ho_pool (f n) !! i = Some (Do c k) ->
  exists x, ho_pool (f (S n)) !! i = Some (k x) /\ ho_lock (f (S n)) = lock_after (f n) i c.
Proof.
  unfold moves. intros Hm Hp. rewrite Hp in Hm. destruct Hm as (x & t & _ & _ & ->). exists x. split; [|done]. simpl.
  pose proof (lookup_lt_Some _ _ _ Hp) as Hi. rewrite lookup_app_l by (by rewrite length_insert).
  by apply list_lookup_insert_eq.
Qed.

Hypothesis f_fair : fair.

(** The panel is restarted from moment [n] on. *)
Definition restarted (n : nat) : Prop := exists m, (n <= m)%nat /\ restarts m.

Lemma restarted_later n m : (n <= m)%nat -> restarted m -> restarted n.
Proof. intros Hn (m' & Hm & Hr). exists m'. split; [lia|done]. Qed.

(** A goroutine that has a call to make gets its answer. *)
Lemma next_answer n i c k : ho_pool (f n) !! i = Some (Do c k) ->
  (c = StartLock -> forall m, (n <= m)%nat -> exists m', (m <= m')%nat /\ ho_lock (f m') = None) ->
  restarted n \/
  exists m x, (n < m)%nat /\ ho_pool (f m) !! i = Some (k x) /\
    (c <> StartLock -> ho_lock (f n) = Some i -> ho_lock (f m) = match c with StartUnlock => None | _ => Some i end).
Proof.
  intros Hp Hl. destruct (f_fair n i c k Hp Hl) as (m & Hm & Hmove). remember (m - n)%nat as d eqn:Ed.
  clear Hl. revert n Hm Ed Hp. induction d as [|d IH]; intros n Hm Ed Hp.
  all: destruct (moment n i _ Hp) as [Hr|[Hi|[Hsame Hlock]]]; [by left; exists n| |].
  1,3: right; destruct (moves_on _ _ _ _ Hi Hp) as (x & Hx & Hlx); exists (S n), x; split_and!; [lia|done|];
    intros ? E; rewrite Hlx; unfold lock_after; by destruct c.
  - assert (m = n) as -> by lia. destruct Hmove as [Hi|Hr]; [|by left; exists n]. right.
    destruct (moves_on _ _ _ _ Hi Hp) as (x & Hx & Hlx). exists (S n), x. split_and!; [lia|done|].
    intros ? E. rewrite Hlx. unfold lock_after. by destruct c.
  - destruct (IH (S n)) as [Hr|(m' & x & ? & ? & Hlx)]; [lia|lia|done|left; apply (restarted_later n (S n)); [lia|done]|].
    right. exists m', x. split_and!; [lia|done|]. intros ? ?. apply Hlx; auto.
Qed.

(** The holder of startMu gives it back. *)
Lemma lock_given_back n : exists m, (n <= m)%nat /\ ho_lock (f m) = None.
Proof.
  destruct (ho_lock (f n)) as [i|] eqn:El; [|by exists n].
  pose proof (run_lock_ok n) as [Hback Hheld]. destruct (lookup_lt_is_Some_2 _ _ (Hheld _ El)) as [p Hp].
  clear Hback Hheld. revert n El Hp. induction p as [a|c k IH|]; intros n El Hp.
  all: pose proof (lk_back _ (run_lock_ok n) _ _ Hp) as Hg; rewrite bool_decide_eq_true_2 in Hg by done; try done.
  destruct Hg as [Hc Hk]. assert (Hl : c <> StartLock) by (by intros ->).
  destruct (next_answer n i c k Hp) as [(m & Hm & Hr)|(m & x & Hm & Hx & Hlx)]; [done| |].
  - exists (S m). rewrite Hr. split; [lia|done].
  - specialize (Hlx Hl El). destruct (decide (ho_lock (f m) = None)) as [?|Hne]; [exists m; split; [lia|done]|].
    destruct (IH x m) as (m' & ? & ?); [|done|exists m'; split; [lia|done]]. by destruct c.
Qed.

Lemma settles n i p : answers p -> ho_pool (f n) !! i = Some p ->
  restarted n \/ exists m, (n <= m)%nat /\ ho_pool (f m) !! i = Some (Ret tt).
Proof.
  revert n. induction p as [[]|c k IH|]; intros n Ha Hp; [right; by exists n| |done].
  destruct (next_answer n i c k Hp) as [Hr|(m & x & Hm & Hx & _)]; [intros _ m _; apply lock_given_back|by left|].
  destruct (IH x m (Ha x) Hx) as [Hr|(m' & ? & ?)]; [left; apply (restarted_later n m); [lia|done]|].
  right. exists m'. split; [lia|done].
Qed.
End Run.

(** ** Requests end *)

Lemma answers_view r skip out : answers (view LogDir SanitizeLogPiece r skip out).
Proof. unfold view. answers_go. Qed.
Lemma answers_sweep_ids ids : answers (sweep_ids LogDir ids).
Proof. induction ids as [|id ids IH]; [done|]. unfold sweep_ids; fold (sweep_ids LogDir). answers_go. Qed.
Lemma answers_sweep : answers (sweep LogDir).
Proof. pose proof answers_sweep_ids. unfold sweep. answers_go. Qed.
Lemma answers_check_specs specs : answers (check_specs message_text runners specs).
Proof. induction specs as [|s specs IH]; simpl check_specs; answers_go. by apply (runners_answer _ _ Heqo). Qed.

Lemma answers_start_locked spec rn kind user : runners kind = Some rn ->
  answers (start_locked LogDir SanitizeLogPiece spec rn user).
Proof.
  intros E. pose proof answers_view. unfold start_locked. answers_go. by apply (@Refuse_answers rn (runners_answer _ _ E)).
Qed.

Lemma answers_request p : request p -> answers p.
Proof.
  pose proof answers_view. pose proof answers_sweep. pose proof answers_check_specs.
  intros [verified spec user|verified id skip|verified id force|verified specs]; apply prog_answers_bind; try done.
  - unfold StartJob. answers_go. eapply answers_start_locked. unfold validate in *. by go_cases.
  - unfold GetJob, JobNode.lookup. answers_go.
  - unfold CancelJob, JobNode.lookup. answers_go.
  - unfold CheckJobs. answers_go.
Qed.

(** C9: where the scheduler is fair and calls are answered, startMu is always
    given back, and every request to a node's /task-jobs comes to its answer,
    whatever else is asked of the node meanwhile, unless its panel is
    restarted first. *)
Theorem every_request_answered f :
  run f -> fair f ->
  (forall n, exists m, (n <= m)%nat /\ ho_lock (f m) = None) /\
  forall n i p, request p -> ho_pool (f n) !! i = Some p -> (forall m, (n <= m)%nat -> ~ restarts f m) ->
    exists m, (n <= m)%nat /\ ho_pool (f m) !! i = Some (Ret tt).
Proof.
  intros Hrun Hfair. split; [by apply lock_given_back|]. intros n i p Hp Hi Hn.
  destruct (settles f Hrun Hfair n i p) as [(m & Hm & Hr)|?]; [by apply answers_request|done| |done].
  by destruct (Hn m Hm).
Qed.
End Host.
