(* ===== verification/TaskRun.v ===== *)
(** * The runner of a task (internal/feature/tasks/run.go)

    One run on the leader: wave by wave, the nodes of a wave at once, each
    node's steps one after another.  The runner's maps and its cached head are
    memory its goroutines share, read and written by calls. *)

From S2P Require Import Prelude GoStrings GoTime TaskModel TaskRefs TaskRender TaskYaml TaskParse.
From S2P Require Import ClusterFSM ClusterTaskStore TaskPlan Interact RunProg ApiCodes.

#[local] Open Scope prog_scope.

Definition pollInterval : Duration := 2 * Second.
Definition startAttempts : nat := 3.
Definition lostAfter : Duration := 5 * Minute.
Definition keepRuns : Z := 200.
Definition maxSummary : nat := 200.

Definition reasonQuorum : string := "quorum".
Definition reasonProxmoxHost : string := "Proxmox host".
Definition reasonStopped : string := "stopped by the operator".
Definition reasonEarlierFail : string := "a node failed and the run stops on failure: no further nodes were started".
Definition reasonNotHandedOff : string := "leadership could not be handed over".

Definition nat_text (n : nat) : string := itoa (Z.of_nat n).
Definition jobID (runID : string) (step : nat) : string := runID +:+ "-" +:+ nat_text step.

Inductive nodeOutcome : Type := nodeDone | nodeFailed | nodeStopped | nodeQuorum | nodeAbandoned.
Inductive startingAnswer : Type := startingRepost | startingFollow | startingFresh | startingAbandoned.
Inductive stepResult : Type := stepDone | stepFailed | stepBusy | stepCancelled | stepUnknown | stepAbandoned.
(** How a runner ends: its run written to its end or handed over, or left for
    the next leader, or unreadable at the start. *)
Inductive runEnd : Type := RunEnded | RunHanded | RunAbandoned | RunUnreadable.

#[export] Instance nodeOutcome_eq_dec : EqDecision nodeOutcome.
Proof. solve_decision. Defined.
#[export] Instance stepResult_eq_dec : EqDecision stepResult.
Proof. solve_decision. Defined.
#[export] Instance runEnd_eq_dec : EqDecision runEnd.
Proof. solve_decision. Defined.

(** ** Records *)

Definition zero_step : RunStepRecord := mkRunStepRecord "" "" "" false 0 0.
Definition zero_rec : RunNodeRecord := mkRunNodeRecord "" "" ∅ [] "" "" "" "" "" false "" "" "" "".

Definition set_status (rec : RunNodeRecord) (status reason : string) : RunNodeRecord :=
  mkRunNodeRecord status reason (rn_ReasonDetails rec) (rn_Steps rec) (rn_Host rec) (rn_IP rec) (rn_Name rec)
    (rn_Group rec) (rn_NodeID rec) (rn_SFPanelBefore rec) (rn_Awaiting rec) (rn_HostKey rec) (rn_CheckURL rec)
    (rn_HostKeyTailscale rec).
Definition set_steps (rec : RunNodeRecord) (steps : list RunStepRecord) : RunNodeRecord :=
  mkRunNodeRecord (rn_Status rec) (rn_Reason rec) (rn_ReasonDetails rec) steps (rn_Host rec) (rn_IP rec) (rn_Name rec)
    (rn_Group rec) (rn_NodeID rec) (rn_SFPanelBefore rec) (rn_Awaiting rec) (rn_HostKey rec) (rn_CheckURL rec)
    (rn_HostKeyTailscale rec).
Definition set_reason (rec : RunNodeRecord) (reason : string) : RunNodeRecord :=
  set_status rec (rn_Status rec) reason.

Definition step_at (rec : RunNodeRecord) (i : nat) : RunStepRecord := default zero_step (rn_Steps rec !! i).
Definition set_step (rec : RunNodeRecord) (i : nat) (s : RunStepRecord) : RunNodeRecord :=
  set_steps rec (<[i := s]> (rn_Steps rec)).
Definition set_step_status (s : RunStepRecord) (status : string) : RunStepRecord :=
  mkRunStepRecord status (rs_JobID s) (rs_Summary s) (rs_Changed s) (rs_StartedAt s) (rs_EndedAt s).
Definition set_step_started (s : RunStepRecord) (t : Time) : RunStepRecord :=
  mkRunStepRecord (rs_Status s) (rs_JobID s) (rs_Summary s) (rs_Changed s) t (rs_EndedAt s).

Definition set_head (h : RunRecord) (status reason : string) (ended : Time) : RunRecord :=
  mkRunRecord (rr_ID h) (rr_Kind h) (rr_TaskID h) (rr_TaskName h) (rr_Rev h) (rr_Inputs h) (rr_Nodes h) (rr_Waves h)
    (rr_Confirmed h) (rr_Batch h) (rr_StopOnFailure h) status reason (rr_Force h) (rr_StoppedBy h) (rr_StartedBy h)
    (rr_StartedAt h) ended (rr_RerunOf h) (rr_StartAt h) (rr_CredentialsUntil h).
Definition set_head_status (h : RunRecord) (status : string) : RunRecord :=
  set_head h status (rr_Reason h) (rr_EndedAt h).

Definition inFlight (status : string) : bool := (status ==s RunStepStarting) || (status ==s RunStepRunning).

(** [capSummary]: at most [maxSummary] bytes, cut where a character starts. *)
Definition capSummary (s : string) : string :=
  if (String.length s <=? maxSummary)%nat then s else stake (cut_back s maxSummary) s.

Definition stepName (s : Step) : string := if negb (sp_Name s ==s "") then sp_Name s else sp_Kind s.
Definition stopReason (head : RunRecord) : string :=
  if negb (rr_Reason head ==s "") then rr_Reason head else reasonStopped.

Definition call_error_text (e : call_error) : string :=
  match e with Refusal code text _ => code +:+ ": " +:+ text | CallFailed text => text end.
Definition refusalCode (e : call_error) : string :=
  match e with Refusal code _ _ => code | CallFailed _ => "" end.

Definition active (status : string) : bool := (status ==s JobRunning) || (status ==s JobRebooting).
Definition cancellable (kind : string) : bool := (kind ==s StepCommand) || (kind ==s StepReboot).

Definition failedView (view : JobView) (summary : string) : JobView :=
  mkJobView (jv_ID view) (jv_RunID view) (jv_Kind view) JobFailed (jv_Changed view) (jv_ExitCode view) summary
    (jv_Output view) (jv_NextSkip view) (jv_Done view) (jv_StartedAt view) (jv_EndedAt view) (jv_Holder view).
Definition summaryView (summary : string) : JobView := mkJobView "" "" "" "" false None summary "" 0 false 0 0 None.
Definition failSummary (v : JobView) : string :=
  if negb (jv_Summary v ==s "") then jv_Summary v
  else match jv_ExitCode v with Some c => "exit code " +:+ itoa c | None => "failed" end.

(** The quorum of the managers without [id]. *)
Definition is_voter (n : Node) : bool := IsManager n && (nd_Role n ==s RoleVoter).
Definition quorum_without (health : gmap string string) (nodes : list Node) (id : string) : bool :=
  let voters := List.filter is_voter nodes in
  let online := List.filter (fun n => negb (nd_ID n ==s id) && (default "" (health !! nd_ID n) ==s StatusOnline)) voters in
  if existsb (fun n => nd_ID n ==s id) voters && (length voters =? 1)%nat then true
  else (length voters / 2 + 1 <=? length online)%nat.

Definition spec_with (spec : JobSpec) (id runID : string) (confirmed : bool) : JobSpec :=
  mkJobSpec id runID (js_Task spec) (js_Step spec) (js_Kind spec) confirmed (js_Packages spec) (js_Service spec)
    (js_Command spec) (js_File spec) (js_Stack spec) (js_Reboot spec).

Section Runner.
(** The text of a [fmt.Sprintf] kept unrendered, and the addresses of
    [net]. *)
Variable message_text : message -> string.
Variable SplitHostPort : string -> option string.
Variable ParseIP_String : string -> option string.

(** The fields of the runner that never change. *)
Record runner_env : Type := mkRunnerEnv {
  rc_run : RunRecord;
  rc_task : option Task;
  rc_nodes : gmap string Node;
  rc_local : string;   (* env.LocalID() *)
  rc_fuel : nat;       (* polls of one job *)
}.
Variable r : runner_env.
Definition runID : string := rr_ID (rc_run r).
Definition the_task : Task := default (mkTask "" "" [] (mkTargets None None None) 1 true []) (rc_task r).
Definition the_step (i : nat) : Step :=
  default (mkStep "" false "" None None None None None None) (tk_Steps the_task !! i).

Definition name_of (id : string) : string :=
  match rc_nodes r !! id with
  | Some n => if negb (nd_Name n ==s "") then nd_Name n else id
  | None => id
  end.

(** ** The head *)

Definition readHead (fresh : bool) : prog (option RunRecord) :=
  now <-- do_call Now ;;
  cached <-- do_call LoadHead ;;
  if negb fresh && (now - cached.2 <? pollInterval) then Ret (Some cached.1)
  else
    head <-- do_call GetRunHead ;;
    match head with
    | None => Ret None
    | Some h => do_call (StoreHead h (Some now)) ;;; Ret (Some h)
    end.

(** [putHead]: whether it was written. *)
Definition putHead (change : RunRecord -> prog RunRecord) : prog bool :=
  head <-- readHead true ;;
  match head with
  | None => Ret false
  | Some h =>
      h <-- change h ;;
      ok <-- do_call (PutRunHead h) ;;
      if negb ok then Ret false
      else do_call (StoreHead h None) ;;; Ret true
  end.

(** ** Node records *)

Definition record (id : string) : prog RunNodeRecord := do_call (LoadRec id).

Definition new_steps (steps : list RunStepRecord) (start : nat) : list RunStepRecord :=
  imap (fun i (_ : Step) =>
    let s := default zero_step (steps !! i) in
    if (i <? start)%nat && ((rs_Status s ==s "") || (rs_Status s ==s RunStepPending)) then
      mkRunStepRecord RunStepSucceeded "" ("succeeded in run " +:+ rr_RerunOf (rc_run r)) false 0 0
    else if rs_Status s ==s "" then set_step_status s RunStepPending
    else s) (tk_Steps the_task).
Definition newRecord (id : string) : prog RunNodeRecord :=
  rec <-- record id ;;
  Ret (set_steps rec (new_steps (rn_Steps rec) (default 0%nat (rr_StartAt (rc_run r) !! id)))).

Definition write (id : string) (rec : RunNodeRecord) : prog bool :=
  do_call (StoreRec id rec) ;;; do_call (PutRunNodeRec id rec).

Definition fail (id : string) (rec : RunNodeRecord) (status reason : string) : prog nodeOutcome :=
  ok <-- write id (set_status rec status reason) ;;
  Ret (if negb ok then nodeAbandoned
       else if status ==s RunNodeStopped then nodeStopped
       else if status ==s RunNodeSkipped then nodeQuorum
       else nodeFailed).

Definition failed_text (i : nat) : string :=
  "step " +:+ nat_text (S i) +:+ " (" +:+ stepName (the_step i) +:+ ") failed".
Definition unknown_text (i : nat) (summary : string) : string :=
  "step " +:+ nat_text (S i) +:+ ": " +:+ summary.

(** What the recorded steps already decide. *)
Inductive closing : Type := CloseWith (status reason : string) | CloseDone | StaysOpen.
Fixpoint close_steps (i : nat) (steps : list RunStepRecord) : closing :=
  match steps with
  | [] => CloseDone
  | s :: steps =>
      if rs_Status s ==s RunStepFailed then
        if negb (sp_ContinueOnError (the_step i)) then CloseWith RunNodeFailed (failed_text i)
        else close_steps (S i) steps
      else if rs_Status s ==s RunStepUnknown then CloseWith RunNodeUnknown (unknown_text i (rs_Summary s))
      else if rs_Status s ==s RunStepCancelled then CloseWith RunNodeStopped reasonStopped
      else if (rs_Status s ==s RunStepSucceeded) || (rs_Status s ==s RunStepSkipped) then close_steps (S i) steps
      else StaysOpen
  end.
Definition closeFromRecord (id : string) (rec : RunNodeRecord) : prog (option nodeOutcome) :=
  match close_steps 0 (rn_Steps rec) with
  | CloseWith status reason => out <-- fail id rec status reason ;; Ret (Some out)
  | CloseDone =>
      ok <-- write id (set_status rec RunNodeSucceeded "") ;;
      Ret (Some (if ok : bool then nodeDone else nodeAbandoned))
  | StaysOpen => Ret None
  end.

Definition quorumWithout (id : string) : prog bool :=
  health <-- do_call Health ;;
  nodes <-- do_call Nodes ;;
  Ret (quorum_without health nodes id).

(** ** One step *)

Definition spec_id (spec : JobSpec) (step : RunStepRecord) : string :=
  if negb (rs_JobID step ==s "") then rs_JobID step else js_ID spec.
Definition with_id (spec : JobSpec) (id : string) : JobSpec := spec_with spec id (js_RunID spec) (js_Confirmed spec).

(** The record and the spec as they are after, and the answer. *)
Definition askStarting (id : string) (rec : RunNodeRecord) (i : nat) (spec : JobSpec)
    : prog (RunNodeRecord * JobSpec * startingAnswer) :=
  let step := step_at rec i in
  let spec := with_id spec (spec_id spec step) in
  job <-- do_call (GetJob id (js_ID spec)) ;;
  let finish rec :=
    ok <-- write id rec ;;
    Ret (rec, spec,
         if negb ok then startingAbandoned
         else if rs_Status (step_at rec i) ==s RunStepPending then startingFresh
         else startingFollow) in
  match job with
  | Ok _ =>
      let step := set_step_status step RunStepRunning in
      if IsZero (rs_StartedAt step) then
        now <-- do_call Now ;; finish (set_step rec i (set_step_started step now))
      else finish (set_step rec i step)
  | Err e =>
      if refusalCode e ==s ErrTaskJobNotFound
      then finish (set_step rec i (mkRunStepRecord RunStepPending "" "" false 0 0))
      else Ret (rec, spec, startingRepost)
  end.

Definition endStep (step : RunStepRecord) (status summary : string) (changed : bool) : prog RunStepRecord :=
  now <-- do_call Now ;;
  Ret (mkRunStepRecord status (rs_JobID step) (capSummary summary) changed (rs_StartedAt step) now).

(** [start], with [attempts] posts left of [startAttempts]. *)
Fixpoint start_from (attempts : nat) (first : bool) (id : string) (spec : JobSpec) (err : call_error)
    : prog (result call_error JobView) :=
  match attempts with
  | O => Ret (Err err)
  | S attempts =>
      (if first then Ret tt else do_call (Sleep pollInterval)) ;;;
      cancelled <-- do_call CtxErr ;;
      if cancelled : bool then Ret (Err (CallFailed "context"))
      else
        v <-- do_call (StartJob id spec (rr_StartedBy (rc_run r))) ;;
        match v with
        | Ok view => Ret (Ok view)
        | Err (Refusal code text details) => Ret (Err (Refusal code text details))
        | Err (CallFailed text) => start_from attempts false id spec (CallFailed text)
        end
  end.
Definition start (id : string) (spec : JobSpec) : prog (result call_error JobView) :=
  start_from startAttempts true id spec (CallFailed "").

(** A forced stop cancels the job once: whether it has been. *)
Definition maybe_cancel (id : string) (spec : JobSpec) (cancelled : bool) : prog bool :=
  if negb cancelled && cancellable (js_Kind spec) then
    head <-- readHead false ;;
    match head with
    | Some h =>
        if (rr_Status h ==s RunStopping) && rr_Force h then
          let by_ := if rr_StoppedBy h ==s "" then rr_StartedBy (rc_run r) else rr_StoppedBy h in
          ok <-- do_call (CancelJob id (js_ID spec) by_) ;;
          Ret (ok : bool)
        else Ret false
    | None => Ret false
    end
  else Ret cancelled.

Definition late_text (waited : Duration) : string := "did not come back within " +:+ duration_String waited.

(** The polls of [wait]; [rebootBy] is set for a reboot. *)
Fixpoint wait_loop (fuel : nat) (id : string) (spec : JobSpec) (view : JobView) (started : Time)
    (rebootBy : option Time) (lastHeard : Time) (cancelled : bool) : prog (JobView * stepResult) :=
  if negb (active (jv_Status view)) then Ret (view, stepDone)
  else
    match fuel with
    | O => Stuck
    | S fuel =>
        gone <-- do_call CtxErr ;;
        if gone : bool then Ret (view, stepAbandoned)
        else
          do_call (Sleep pollInterval) ;;;
          cancelled <-- maybe_cancel id spec cancelled ;;
          job <-- do_call (GetJob id (js_ID spec)) ;;
          now <-- do_call Now ;;
          match job with
          | Ok v =>
              match rebootBy with
              | Some by_ =>
                  if (jv_Status v ==s JobRebooting) && (by_ <=? now)
                  then Ret (failedView v (late_text (by_ - started)), stepDone)
                  else wait_loop fuel id spec v started rebootBy now cancelled
              | None => wait_loop fuel id spec v started rebootBy now cancelled
              end
          | Err e =>
              gone <-- do_call CtxErr ;;
              if gone : bool then Ret (view, stepAbandoned)
              else if refusalCode e ==s ErrTaskJobNotFound
              then Ret (summaryView "the node has no record of the job", stepUnknown)
              else
                match rebootBy with
                | Some by_ =>
                    if by_ <=? now then Ret (failedView view (late_text (by_ - started)), stepDone)
                    else wait_loop fuel id spec view started rebootBy lastHeard cancelled
                | None =>
                    if lostAfter <=? now - lastHeard
                    then Ret (summaryView ("the node stopped answering: " +:+ call_error_text e), stepUnknown)
                    else wait_loop fuel id spec view started rebootBy lastHeard cancelled
                end
          end
    end.

Definition reboot_wait (spec : JobSpec) : Duration :=
  match js_Reboot spec with
  | Some rb => if 0 <? rb_Wait rb then rb_Wait rb else DefaultRebootWait
  | None => DefaultRebootWait
  end.
Definition wait (id : string) (spec : JobSpec) (view : JobView) (started : Time) : prog (JobView * stepResult) :=
  let rebootBy := if js_Kind spec ==s StepReboot then Some (started + reboot_wait spec) else None in
  lastHeard <-- do_call Now ;;
  wait_loop (rc_fuel r) id spec view started rebootBy lastHeard false.

Definition follow (id : string) (rec : RunNodeRecord) (i : nat) (spec : JobSpec) (view : JobView)
    : prog (RunNodeRecord * stepResult) :=
  let step := step_at rec i in
  w <-- wait id spec view (rs_StartedAt step) ;;
  let '(view, res) := w in
  if bool_decide (res = stepAbandoned) then Ret (rec, stepAbandoned)
  else
    ended <--
      (if bool_decide (res = stepUnknown) then
         s <-- endStep step RunStepUnknown (jv_Summary view) false ;; Ret (s, res)
       else if jv_Status view ==s JobSucceeded then
         s <-- endStep step RunStepSucceeded (jv_Summary view) (jv_Changed view) ;; Ret (s, res)
       else if jv_Status view ==s JobFailed then
         s <-- endStep step RunStepFailed (failSummary view) (jv_Changed view) ;; Ret (s, stepFailed)
       else if jv_Status view ==s JobCancelled then
         s <-- endStep step RunStepCancelled (jv_Summary view) (jv_Changed view) ;; Ret (s, stepCancelled)
       else
         s <-- endStep step RunStepUnknown ("the job's result is not known (" +:+ jv_Status view +:+ ")")
                 (jv_Changed view) ;; Ret (s, stepUnknown)) ;;
    let rec := set_step rec i ended.1 in
    ok <-- write id rec ;;
    Ret (rec, if ok : bool then ended.2 else stepAbandoned).

(** What a post that failed makes of the step. *)
Definition refused (rec : RunNodeRecord) (i : nat) (spec : JobSpec) (e : call_error)
    : prog (RunNodeRecord * stepResult) :=
  let step := step_at rec i in
  let text := call_error_text e in
  match e with
  | Refusal code _ details =>
      if (code ==s ErrTaskRebootPVEHost) && (js_Kind spec ==s StepReboot) then
        s <-- endStep step RunStepSkipped reasonProxmoxHost false ;; Ret (set_step rec i s, stepDone)
      else if code ==s ErrTaskNodeBusy then
        s <-- endStep step RunStepFailed text false ;;
        let detail k := default "" (details !! k) in
        Ret (set_reason (set_step rec i s)
               ("busy with job " +:+ detail "job_id" +:+ " of run " +:+ detail "run_id" +:+ " (" +:+ detail "task" +:+ ")"),
             stepBusy)
      else s <-- endStep step RunStepFailed text false ;; Ret (set_step rec i s, stepFailed)
  | CallFailed _ =>
      s <-- endStep step RunStepUnknown ("the node did not answer: " +:+ text) false ;;
      Ret (set_step rec i s, stepUnknown)
  end.

Definition following_view (spec : JobSpec) : JobView :=
  mkJobView (js_ID spec) "" (js_Kind spec)
    (if js_Kind spec ==s StepReboot then JobRebooting else JobRunning) false None "" "" 0 false 0 0 None.

(** The post and what follows it, the step being recorded starting. *)
Definition post_step (id : string) (rec : RunNodeRecord) (i : nat) (spec : JobSpec)
    : prog (RunNodeRecord * stepResult) :=
  v <-- start id spec ;;
  match v with
  | Err e =>
      gone <-- do_call CtxErr ;;
      if gone : bool then Ret (rec, stepAbandoned)
      else
        x <-- refused rec i spec e ;;
        ok <-- write id x.1 ;;
        Ret (x.1, if ok : bool then x.2 else stepAbandoned)
  | Ok view =>
      let rec := set_step rec i (set_step_status (step_at rec i) RunStepRunning) in
      ok <-- write id rec ;;
      if negb ok then Ret (rec, stepAbandoned) else follow id rec i spec view
  end.

Definition runStep (id : string) (rec : RunNodeRecord) (i : nat) (spec : JobSpec)
    : prog (RunNodeRecord * stepResult) :=
  let step := step_at rec i in
  if inFlight (rs_Status step) then
    let spec := with_id spec (spec_id spec step) in
    started <-- (if IsZero (rs_StartedAt step) then do_call Now else Ret (rs_StartedAt step)) ;;
    let rec := set_step rec i (set_step_started step started) in
    if rs_Status step ==s RunStepRunning then follow id rec i spec (following_view spec)
    else post_step id rec i spec
  else
    now <-- do_call Now ;;
    let rec := set_step rec i (mkRunStepRecord RunStepStarting (js_ID spec) "" false now 0) in
    ok <-- write id rec ;;
    if negb ok then Ret (rec, stepAbandoned) else post_step id rec i spec.

(** ** One node *)

(** What a step's result makes of the node: its end, or the next step. *)
Definition after_step (id : string) (rec : RunNodeRecord) (i : nat) (res : stepResult)
    (next : RunNodeRecord -> prog nodeOutcome) : prog nodeOutcome :=
  match res with
  | stepAbandoned => Ret nodeAbandoned
  | stepDone => next rec
  | stepBusy => fail id rec RunNodeFailed (rn_Reason rec)
  | stepCancelled => fail id rec RunNodeStopped reasonStopped
  | stepUnknown => fail id rec RunNodeUnknown (unknown_text i (rs_Summary (step_at rec i)))
  | stepFailed =>
      if sp_ContinueOnError (the_step i) then next rec
      else fail id rec RunNodeFailed (failed_text i)
  end.

(** A step whose turn it is: the stop, the quorum, then the step. *)
Definition turn (id : string) (n : Node) (rec : RunNodeRecord) (i : nat) (spec : JobSpec) (resume : bool)
    (next : RunNodeRecord -> prog nodeOutcome) : prog nodeOutcome :=
  head <-- readHead true ;;
  match head with
  | None => Ret nodeAbandoned
  | Some h =>
      if negb resume && (rr_Status h ==s RunStopping) then fail id rec RunNodeStopped (stopReason h)
      else
        let spec := spec_with spec (js_ID spec) (js_RunID spec) (bool_decide (i ∈ rr_Confirmed (rc_run r))) in
        keeps <-- (if negb resume && (js_Kind spec ==s StepReboot) && IsManager n
                   then quorumWithout id else Ret true) ;;
        if negb keeps then
          now <-- do_call Now ;;
          fail id (set_step rec i (mkRunStepRecord RunStepSkipped "" reasonQuorum false 0 now)) RunNodeSkipped reasonQuorum
        else
          x <-- runStep id rec i spec ;;
          after_step id x.1 i x.2 next
  end.

Fixpoint run_steps (id : string) (n : Node) (rec : RunNodeRecord) (i : nat) (specs : list JobSpec) : prog nodeOutcome :=
  match specs with
  | [] =>
      ok <-- write id (set_status rec RunNodeSucceeded "") ;;
      Ret (if ok : bool then nodeDone else nodeAbandoned)
  | spec :: specs =>
      let next rec := run_steps id n rec (S i) specs in
      let status := rs_Status (step_at rec i) in
      let resume := inFlight status in
      if negb resume && negb (status ==s RunStepPending) then next rec
      else
        gone <-- do_call CtxErr ;;
        if gone : bool then Ret nodeAbandoned
        else
          let spec := spec_with spec (jobID runID i) runID (js_Confirmed spec) in
          if status ==s RunStepStarting then
            x <-- askStarting id rec i spec ;;
            let '(rec, spec, ans) := x in
            match ans with
            | startingAbandoned => Ret nodeAbandoned
            | startingFresh => turn id n rec i spec false next
            | _ => turn id n rec i spec resume next
            end
          else turn id n rec i spec resume next
  end.

Definition runNode (id : string) : prog nodeOutcome :=
  rec <-- newRecord id ;;
  closed <-- closeFromRecord id rec ;;
  match closed with
  | Some out => Ret out
  | None =>
      let resuming := existsb (fun s => inFlight (rs_Status s)) (rn_Steps rec) in
      match rc_nodes r !! id with
      | None => fail id rec RunNodeFailed "the node is no longer in the cluster"
      | Some n =>
          let go :=
            match Render the_task (rr_Inputs (rc_run r)) (nodeVars SplitHostPort ParseIP_String n) with
            | Err e =>
                fail id rec RunNodeFailed
                  (match e with
                   | InputMissing name => message_text (Sprintf "input %q is required" [FStr name])
                   | UndefinedRef name => message_text (Sprintf "%q is not an input of this task" [FStr name])
                   | NilBody kind => kind
                   end)
            | Ok specs =>
                let rec := set_status rec RunNodeRunning "" in
                ok <-- write id rec ;;
                if negb ok then Ret nodeAbandoned else run_steps id n rec 0 specs
            end in
          if resuming then go
          else
            offline <-- (if negb (id ==s rc_local r) then
                           health <-- do_call Health ;; Ret (negb (default "" (health !! id) ==s StatusOnline))
                         else Ret false) ;;
            if offline : bool then fail id rec RunNodeFailed "the node was offline when its turn came"
            else
              away <-- do_call (Unreachable id) ;;
              if away : bool then fail id rec RunNodeFailed "this leader does not reach the node"
              else go
      end
  end.

(** ** The run *)

Definition runNodes (ids : list string) : prog (list nodeOutcome) :=
  par (rc_fuel r) (map runNode ids).

(** Records the nodes that never started as stopped. *)
Fixpoint stop_nodes (ids : list string) (reason : string) : prog bool :=
  match ids with
  | [] => Ret true
  | id :: ids =>
      rec <-- record id ;;
      if negb (rn_Status rec ==s "") && negb (rn_Status rec ==s RunNodePending) then stop_nodes ids reason
      else
        rec <-- (match rc_task r with Some _ => newRecord id | None => Ret rec end) ;;
        ok <-- write id (set_status rec RunNodeStopped reason) ;;
        if negb ok then Ret false else stop_nodes ids reason
  end.

Definition finish (status reason : string) : prog runEnd :=
  let nodeReason := if reason ==s "" then "the run ended before the node's turn" else reason in
  ok <-- stop_nodes (rr_Nodes (rc_run r)) nodeReason ;;
  if negb ok then Ret RunAbandoned
  else
    ok <-- putHead (fun h => now <-- do_call Now ;; Ret (set_head h status reason now)) ;;
    if negb ok then Ret RunAbandoned
    else do_call (PruneOld keepRuns) ;;; Ret RunEnded.

(** The nodes recorded as [P] says, in order. *)
Fixpoint select_nodes (ids : list string) (P : string -> bool) : prog (list string) :=
  match ids with
  | [] => Ret []
  | id :: ids =>
      rec <-- record id ;;
      rest <-- select_nodes ids P ;;
      Ret (if P (rn_Status rec) then id :: rest else rest)
  end.

Definition stop (head : RunRecord) : prog runEnd :=
  todo <-- select_nodes (rr_Nodes (rc_run r)) (String.eqb RunNodeRunning) ;;
  outcomes <-- runNodes todo ;;
  if existsb (fun o => bool_decide (o = nodeAbandoned)) outcomes then Ret RunAbandoned
  else finish RunStopped (stopReason head).

(** [handOver]: handed over or not, or an error. *)
Definition handOver : prog (option bool) :=
  ok <-- putHead (fun h =>
    Ret (if rr_Status h ==s RunRunning then set_head_status h RunHandingOver else h)) ;;
  if negb ok then Ret None
  else
    head <-- readHead false ;;
    if negb (match head with Some h => rr_Status h ==s RunHandingOver | None => false end) then Ret (Some false)
    else
      x <-- do_call HandOver ;;
      let '(target, err) := x in
      match err with
      | None =>
          if negb (target ==s "") then Ret (Some true)
          else
            ok <-- putHead (fun h =>
              Ret (if rr_Status h ==s RunHandingOver then set_head_status h RunRunning else h)) ;;
            Ret (if ok : bool then Some false else None)
      | Some text =>
          ok <-- putHead (fun h =>
            Ret (if rr_Status h ==s RunHandingOver then set_head_status h RunRunning else h)) ;;
          if negb ok then Ret None
          else
            rec <-- newRecord (rc_local r) ;;
            ok <-- write (rc_local r)
                     (set_status rec RunNodeFailed (reasonNotHandedOff +:+ " to " +:+ name_of target +:+ ": " +:+ text)) ;;
            Ret (if ok : bool then Some false else None)
      end.

(** A wave's nodes still to run, and whether one had failed. *)
Fixpoint wave_todo (wave : list string) : prog (list string * bool) :=
  match wave with
  | [] => Ret ([], false)
  | id :: wave =>
      rec <-- record id ;;
      rest <-- wave_todo wave ;;
      let st := rn_Status rec in
      Ret (if (st ==s RunNodeFailed) || (st ==s RunNodeUnknown) then (rest.1, true)
           else if (st ==s RunNodeSucceeded) || (st ==s RunNodeSkipped) || (st ==s RunNodeStopped) then rest
           else (id :: rest.1, rest.2))
  end.

(** The last node of a wave a reboot of which would cost the quorum. *)
Definition quorum_node (todo : list string) (outcomes : list nodeOutcome) : option string :=
  last (omap (fun io : string * nodeOutcome => if bool_decide (io.2 = nodeQuorum) then Some io.1 else None)
          (combine todo outcomes)).

(** The nodes of a wave run: how the run goes on. *)
Definition run_wave (todo : list string) (failed : bool) (next : bool -> prog runEnd) : prog runEnd :=
  outcomes <-- runNodes todo ;;
  if existsb (fun o => bool_decide (o = nodeAbandoned)) outcomes then Ret RunAbandoned
  else
    let failed := failed || existsb (fun o => bool_decide (o = nodeFailed)) outcomes in
    match quorum_node todo outcomes with
    | Some id =>
        finish RunStopped (reasonQuorum +:+ ": rebooting " +:+ name_of id +:+ " would leave the managers without a quorum")
    | None => next failed
    end.

Fixpoint run_waves (waves : list (list string)) (failed : bool) : prog runEnd :=
  match waves with
  | [] =>
      head <-- readHead true ;;
      match head with
      | Some h =>
          if rr_Status h ==s RunStopping then stop h
          else if failed then finish RunFailed "" else finish RunSucceeded ""
      | None => if failed then finish RunFailed "" else finish RunSucceeded ""
      end
  | wave :: waves =>
      gone <-- do_call CtxErr ;;
      leads <-- (if gone : bool then Ret false else do_call IsLeader) ;;
      if negb leads then Ret RunAbandoned
      else
        head <-- readHead true ;;
        match head with
        | None => Ret RunAbandoned
        | Some h =>
            if rr_Status h ==s RunStopping then stop h
            else if failed && rr_StopOnFailure (rc_run r) then finish RunFailed reasonEarlierFail
            else
              x <-- wave_todo wave ;;
              let todo := x.1 in
              let failed := failed || x.2 in
              match todo with
              | [] => run_waves waves failed
              | _ =>
                  if slices_contains todo (rc_local r) then
                    handed <-- handOver ;;
                    match handed with
                    | None => Ret RunAbandoned
                    | Some true => Ret RunHanded
                    | Some false =>
                        rec <-- record (rc_local r) ;;
                        if rn_Status rec ==s RunNodeFailed
                        then run_wave (List.filter (fun id => negb (id ==s rc_local r)) todo) true (run_waves waves)
                        else run_wave todo failed (run_waves waves)
                    end
                  else run_wave todo failed (run_waves waves)
              end
        end
  end.
End Runner.

(** [runTask], from the run as first read: its document is read and parsed,
    and its waves run. *)
Definition runTask `{YamlLib} (message_text : message -> string) (SplitHostPort ParseIP_String : string -> option string)
    (local : string) (fuel : nat) (run : RunRecord) : prog runEnd :=
  head <-- do_call GetRunHead ;;
  match head with
  | None => Ret RunUnreadable
  | Some h =>
      now <-- do_call Now ;;
      do_call (StoreHead h (Some now)) ;;;
      doc <-- do_call (TaskRevisionOf (rr_Rev run)) ;;
      match doc with
      | Err e => finish (mkRunnerEnv run None ∅ local fuel) RunFailed ("the task's document could not be read: " +:+ e)
      | Ok doc =>
          match Parse doc with
          | (None, problems) =>
              finish (mkRunnerEnv run None ∅ local fuel) RunFailed
                ("the task's document does not parse" +:+
                 match problems with
                 | [] => ""
                 | p :: _ => ": line " +:+ itoa (pr_Line p) +:+ ": " +:+ message_text (pr_Message p)
                 end)
          | (Some t, _) =>
              nodes <-- do_call Nodes ;;
              let byID := fold_left (fun m n => <[nd_ID n := n]> m) nodes ∅ in
              run_waves message_text SplitHostPort ParseIP_String (mkRunnerEnv run (Some t) byID local fuel)
                (rr_Waves run) false
          end
      end
  end.
