(* ===== verification/TaskRunSpec.v ===== *)
(** * What the runner promises of one node

    The record of a node as a state machine: which steps of it are over, which
    moves of a step a leader may record and when, and which jobs it may post.
    The runner is watched against it, whatever the cluster answers. *)

From S2P Require Import Prelude GoStrings GoTime TaskModel ClusterFSM ClusterTaskStore TaskPlan ApiCodes.
From S2P Require Import Interact RunProg.
From S2P Require Import TaskRun.

Section Protocol.
Context (r : runner_env) (id : string).

Definition step_kind (i : nat) : string := sp_Kind (the_step r i).
Definition start_at : nat := default 0%nat (rr_StartAt (rc_run r) !! id).
Definition step_job (i : nat) : string := jobID (runID r) i.

(** A step the node goes past. *)
Definition passed (i : nat) (s : RunStepRecord) : bool :=
  (rs_Status s ==s RunStepSucceeded) || (rs_Status s ==s RunStepSkipped) ||
  ((rs_Status s ==s RunStepFailed) && sp_ContinueOnError (the_step r i)).

Definition step_statuses : list string :=
  [RunStepPending; RunStepStarting; RunStepRunning; RunStepSucceeded; RunStepFailed; RunStepSkipped;
   RunStepUnknown; RunStepCancelled].
Definition is_pending (s : RunStepRecord) : Prop := rs_Status s = RunStepPending.
Definition is_open (s : RunStepRecord) : Prop := is_pending s \/ inFlight (rs_Status s) = true.

(** Steps recorded in order: passed ones, then at most one other, and only
    pending ones after it. *)
Fixpoint ordered (i : nat) (steps : list RunStepRecord) : Prop :=
  match steps with
  | [] => True
  | s :: steps => if passed i s then ordered (S i) steps else Forall is_pending steps
  end.

Record steps_ok (l : list RunStepRecord) : Prop := {
  so_length : length l = length (tk_Steps (the_task r));
  so_ordered : ordered 0 l;
  so_status : Forall (fun s => rs_Status s ∈ step_statuses) l;
  so_start : forall i s, l !! i = Some s -> is_open s -> (start_at <= i)%nat;
  so_job : forall i s, l !! i = Some s -> inFlight (rs_Status s) = true -> rs_JobID s = "" \/ rs_JobID s = step_job i;
}.

(** The steps of a record as [newRecord] completes them. *)
Definition filled (rec : RunNodeRecord) : list RunStepRecord := new_steps r (rn_Steps rec) start_at.
Definition rec_ok (rec : RunNodeRecord) : Prop := steps_ok (filled rec).

(** ** What has been seen *)

Record view : Type := mkView {
  vw_rec : option RunNodeRecord;     (* the record as read, then as last recorded; [None] once a write failed *)
  vw_head : option RunRecord;        (* the head, as last read from the store *)
  vw_cached : option RunRecord;      (* the head, the runner's copy of it included *)
  vw_health : gmap string string;
  vw_nodes : list Node;
  vw_missing : bool;                 (* the node's last answer was that it has no such job *)
}.
Definition no_view : view := mkView None None None ∅ [] false.

Definition seen (v : view) (a : action) : view :=
  match a with
  | existT (LoadRec _) rec =>
      mkView (Some (set_steps rec (filled rec))) (vw_head v) (vw_cached v) (vw_health v) (vw_nodes v) (vw_missing v)
  | existT (PutRunNodeRec _ rec) ok =>
      mkView (if ok then Some rec else None) (vw_head v) (vw_cached v) (vw_health v) (vw_nodes v) (vw_missing v)
  | existT GetRunHead h => mkView (vw_rec v) h h (vw_health v) (vw_nodes v) (vw_missing v)
  | existT LoadHead h => mkView (vw_rec v) (vw_head v) (Some h.1) (vw_health v) (vw_nodes v) (vw_missing v)
  | existT Health h => mkView (vw_rec v) (vw_head v) (vw_cached v) h (vw_nodes v) (vw_missing v)
  | existT Nodes ns => mkView (vw_rec v) (vw_head v) (vw_cached v) (vw_health v) ns (vw_missing v)
  | existT (GetJob _ _) ans =>
      mkView (vw_rec v) (vw_head v) (vw_cached v) (vw_health v) (vw_nodes v)
        (match ans with Ok _ => false | Err e => refusalCode e ==s ErrTaskJobNotFound end)
  | _ => v
  end.

(** ** What may be done *)

(** A manager restarts only when the others keep the quorum. *)
Definition quorum_judged (v : view) (i : nat) (keeps : bool) : Prop :=
  step_kind i = StepReboot -> forall n, rc_nodes r !! id = Some n -> IsManager n = true ->
  quorum_without (vw_health v) (vw_nodes v) id = keeps.

(** The moves of step [i], from [s] to [s'], the others as in [l]. *)
Inductive step_move (v : view) (l : list RunStepRecord) (i : nat) (s : RunStepRecord) : RunStepRecord -> Prop :=
| move_none : step_move v l i s s
| move_start s' h :
    rs_Status s = RunStepPending -> rs_Status s' = RunStepStarting -> rs_JobID s' = step_job i ->
    (forall j t, (j < i)%nat -> l !! j = Some t -> passed j t = true) ->
    vw_head v = Some h -> rr_Status h <> RunStopping ->
    quorum_judged v i true ->
    step_move v l i s s'
| move_quorum s' n :
    rs_Status s = RunStepPending -> rs_Status s' = RunStepSkipped -> rs_Summary s' = reasonQuorum ->
    step_kind i = StepReboot -> rc_nodes r !! id = Some n -> IsManager n = true ->
    quorum_without (vw_health v) (vw_nodes v) id = false ->
    step_move v l i s s'
| move_taken s' :
    rs_Status s = RunStepStarting -> rs_Status s' = RunStepRunning -> rs_JobID s' = rs_JobID s ->
    step_move v l i s s'
| move_lost s' :
    rs_Status s = RunStepStarting -> rs_Status s' = RunStepPending -> vw_missing v = true ->
    step_move v l i s s'
| move_refused s' :
    rs_Status s = RunStepStarting -> rs_JobID s' = rs_JobID s ->
    (rs_Status s' = RunStepFailed \/ rs_Status s' = RunStepUnknown \/
     rs_Status s' = RunStepSkipped /\ step_kind i = StepReboot) ->
    step_move v l i s s'
| move_end s' :
    rs_Status s = RunStepRunning -> rs_JobID s' = rs_JobID s ->
    rs_Status s' ∈ [RunStepSucceeded; RunStepFailed; RunStepCancelled; RunStepUnknown] ->
    step_move v l i s s'.

(** How a node's record may say it stands. *)
Definition has_step (rec : RunNodeRecord) (status : string) : Prop :=
  exists i s, rn_Steps rec !! i = Some s /\ rs_Status s = status.
Definition status_ok (v : view) (rec : RunNodeRecord) : Prop :=
  rn_Status rec = RunNodeRunning \/
  rn_Status rec = RunNodeSucceeded /\ (forall i s, rn_Steps rec !! i = Some s -> passed i s = true) \/
  rn_Status rec = RunNodeFailed \/
  rn_Status rec = RunNodeUnknown /\ has_step rec RunStepUnknown \/
  rn_Status rec = RunNodeSkipped /\ has_step rec RunStepSkipped \/
  rn_Status rec = RunNodeStopped /\
    (has_step rec RunStepCancelled \/ exists h, vw_head v = Some h /\ rr_Status h = RunStopping).

Definition write_ok (v : view) (rec' : RunNodeRecord) : Prop :=
  exists rec, vw_rec v = Some rec /\ steps_ok (rn_Steps rec') /\ status_ok v rec' /\
    forall i s, rn_Steps rec !! i = Some s -> exists s', rn_Steps rec' !! i = Some s' /\ step_move v (rn_Steps rec) i s s'.

(** A job is posted for the one step recorded starting, under its ID. *)
Definition post_ok (v : view) (spec : JobSpec) : Prop :=
  exists rec i s, vw_rec v = Some rec /\ rn_Status rec = RunNodeRunning /\ steps_ok (rn_Steps rec) /\
    rn_Steps rec !! i = Some s /\ rs_Status s = RunStepStarting /\
    (forall j t, (j < i)%nat -> rn_Steps rec !! j = Some t -> passed j t = true) /\
    js_ID spec = step_job i /\ js_RunID spec = runID r /\ js_Step spec = Z.of_nat i /\ js_Kind spec = step_kind i /\
    js_Confirmed spec = bool_decide (i ∈ rr_Confirmed (rc_run r)).

(** Only a forced stop cancels, and only a command or a restart. *)
Definition cancel_ok (v : view) (job : string) : Prop :=
  exists rec i s h, vw_rec v = Some rec /\ rn_Steps rec !! i = Some s /\ rs_Status s = RunStepRunning /\
    job = step_job i /\ cancellable (step_kind i) = true /\
    vw_cached v = Some h /\ rr_Status h = RunStopping /\ rr_Force h = true.

Definition allowed (v : view) (a : action) : Prop :=
  match a with
  | existT (StartJob node spec user) _ => node = id /\ user = rr_StartedBy (rc_run r) /\ post_ok v spec
  | existT (CancelJob node job _) _ => node = id /\ cancel_ok v job
  | existT (PutRunNodeRec node rec) _ => node = id /\ write_ok v rec
  | existT (StoreRec node _) _ | existT (LoadRec node) _ | existT (GetJob node _) _ => node = id
  | existT HandOver _ | existT (PutRunHead _) _ | existT (TaskRevisionOf _) _ | existT (PruneOld _) _
  | existT Pick _ => False
  | _ => True
  end.

Definition node_monitor : monitor := mkMonitor view allowed seen.

(** The record read is one a leader may have left. *)
Definition relied (a : action) : Prop :=
  match a with existT (LoadRec node) rec => node = id -> rec_ok rec | _ => True end.

(** What a node's outcome says of its record. *)
Definition outcome_status (o : nodeOutcome) (status : string) : Prop :=
  match o with
  | nodeDone => status = RunNodeSucceeded
  | nodeFailed => status = RunNodeFailed \/ status = RunNodeUnknown
  | nodeStopped => status = RunNodeStopped
  | nodeQuorum => status = RunNodeSkipped
  | nodeAbandoned => True
  end.
Definition all_passed (rec : RunNodeRecord) : Prop := forall i s, rn_Steps rec !! i = Some s -> passed i s = true.
Definition outcome_ok (o : nodeOutcome) (v : view) : Prop :=
  o = nodeAbandoned \/
  exists rec, vw_rec v = Some rec /\ outcome_status o (rn_Status rec) /\ (o = nodeDone -> all_passed rec).
End Protocol.
