(* ===== verification/TaskRunFacts.v ===== *)
(** * One node's part of a run *)

From S2P Require Import Prelude GoStrings GoTime TaskModel TaskRefs TaskRender ClusterFSM ClusterTaskStore.
From S2P Require Import TaskPlan ApiCodes Interact RunProg TaskRun TaskRunSpec.

(** ** The specs of a task's steps, in order *)

Lemma render_step_kind rd t i s spec err :
  render_step rd t i s = Ok (spec, err) -> js_Kind spec = sp_Kind s /\ js_Step spec = Z.of_nat i.
Proof. unfold render_step, empty_spec. intros H. repeat case_match; simplify_eq/=; done. Qed.

Lemma render_steps_kinds rd t steps i specs :
  render_steps rd t i steps = Ok specs ->
  length specs = length steps /\
  forall j spec, specs !! j = Some spec ->
    js_Step spec = Z.of_nat (i + j) /\ exists s, steps !! j = Some s /\ js_Kind spec = sp_Kind s.
Proof.
  revert i specs. induction steps as [|s steps IH]; intros i specs H; simpl in H.
  { simplify_eq/=. split; [done|]. by intros [|j]. }
  destruct (render_step rd t i s) as [[spec err]|] eqn:E; simpl in H; [|done].
  destruct err; [done|]. destruct (render_steps rd t (S i) steps) as [specs'|] eqn:E'; simpl in H; [|done].
  simplify_eq/=. destruct (IH _ _ E') as [Hl HI]. split; [by rewrite Hl|].
  apply render_step_kind in E as [Hk Hs]. intros [|j] sp; simpl; intros; simplify_eq.
  - split; [lia|eauto].
  - destruct (HI j sp) as (-> & s' & ? & ?); [done|]. split; [lia|eauto].
Qed.

Lemma Render_kinds t inputs node specs :
  Render t inputs node = Ok specs ->
  length specs = length (tk_Steps t) /\
  forall j spec, specs !! j = Some spec ->
    js_Step spec = Z.of_nat j /\ exists s, tk_Steps t !! j = Some s /\ js_Kind spec = sp_Kind s.
Proof.
  unfold Render. destruct (render_inputs _ _ _); simpl; [|done]. apply render_steps_kinds.
Qed.

(** ** A summary cut to fit *)

(** A step's summary is kept to 200 bytes, whole when it fits, and
    otherwise cut before the last character that starts within them, so that a
    valid text stays one. *)
Theorem capSummary_cut s :
  (String.length (capSummary s) <= 200)%nat /\
  ((String.length s <= 200)%nat -> capSummary s = s) /\
  ((200 < String.length s)%nat -> exists cut, capSummary s = stake cut s /\ (cut <= 200)%nat /\
     (cut = 0%nat \/ exists c, String.get cut s = Some c /\ runeStart c = true) /\
     forall i c, (cut < i <= 200)%nat -> String.get i s = Some c -> runeStart c = false).
Proof.
  assert (Hlen : forall n t, (String.length (stake n t) <= n)%nat) by (intros n t; rewrite stake_length; lia).
  unfold capSummary. change maxSummary with 200%nat. destruct (Nat.leb_spec (String.length s) 200) as [H|H].
  - split_and!; [done|done|lia].
  - destruct (cut_back_spec s 200 H) as (H1 & H2 & H3). split_and!; [|lia|eauto 6].
    etransitivity; [apply Hlen|done].
Qed.

Section Facts.
Variable message_text : message -> string.
Variable SplitHostPort : string -> option string.
Variable ParseIP_String : string -> option string.
Context (r : runner_env) (id : string).

Notation passed := (passed r).
Notation steps_ok := (steps_ok r id).
Notation wpn := (wp (relied r id) (node_monitor r id)).

(** ** Ordered steps *)

(** Step [i] is the one under way: those before it are passed and those
    after it wait. *)
Definition at_turn (l : list RunStepRecord) (i : nat) : Prop :=
  (forall j s, (j < i)%nat -> l !! j = Some s -> passed j s = true) /\
  (forall j s, (i < j)%nat -> l !! j = Some s -> is_pending s).

Lemma pending_not_passed i s : is_pending s -> passed i s = false.
Proof. unfold is_pending, TaskRunSpec.passed. by intros ->. Qed.
Lemma in_flight_not_passed i s : inFlight (rs_Status s) = true -> passed i s = false.
Proof.
  unfold inFlight, TaskRunSpec.passed. intros [H|H]%orb_true_iff; apply String.eqb_eq in H; by rewrite H.
Qed.
Lemma open_not_passed i s : is_open s -> passed i s = false.
Proof. intros [?|?]; eauto using pending_not_passed, in_flight_not_passed. Qed.

Lemma pending_ordered k l : Forall is_pending l -> ordered r k l.
Proof. destruct 1; simpl; [done|]. by rewrite pending_not_passed. Qed.

Lemma ordered_app k l1 l2 :
  (forall j s, l1 !! j = Some s -> passed (k + j) s = true) ->
  ordered r k (l1 ++ l2) <-> ordered r (k + length l1) l2.
Proof.
  revert k. induction l1 as [|s l1 IH]; intros k H; simpl.
  - by rewrite Nat.add_0_r.
  - specialize (H 0%nat s eq_refl) as H0. rewrite Nat.add_0_r in H0. rewrite H0.
    rewrite (IH (S k)); [by rewrite Nat.add_succ_comm|].
    intros j t Hj. specialize (H (S j) t Hj). by replace (S k + j)%nat with (k + S j)%nat by lia.
Qed.

Lemma ordered_split l i s :
  l !! i = Some s ->
  (forall j t, (j < i)%nat -> l !! j = Some t -> passed j t = true) ->
  ordered r 0 l <-> ordered r i (s :: drop (S i) l).
Proof.
  intros Hs Hp. rewrite <- (take_drop_middle l i s) at 1 by done.
  assert (Hl : length (take i l) = i) by (apply length_take_le; apply lookup_lt_Some in Hs; lia).
  rewrite ordered_app; [by rewrite Hl|].
  intros j t Hj. pose proof (lookup_lt_Some _ _ _ Hj) as Hlt. rewrite Hl in Hlt.
  rewrite lookup_take_lt in Hj by done. simpl. eauto.
Qed.

(** A step not passed, with passed ones before it, is the one under way. *)
Lemma ordered_turn l i s :
  ordered r 0 l -> l !! i = Some s -> passed i s = false ->
  (forall j t, (j < i)%nat -> l !! j = Some t -> passed j t = true) -> at_turn l i.
Proof.
  intros Ho Hs Hn Hp. split; [done|]. rewrite (ordered_split l i s) in Ho by done.
  simpl in Ho. rewrite Hn in Ho. intros j t Hj Ht. rewrite Forall_lookup in Ho.
  apply (Ho (j - S i)%nat). rewrite lookup_drop. by replace (S i + (j - S i))%nat with j by lia.
Qed.

Lemma ordered_update l i s' :
  (i < length l)%nat -> at_turn l i -> ordered r 0 (<[i := s']> l).
Proof.
  intros Hi [Hp Hw]. rewrite (ordered_split _ i s').
  - rewrite drop_insert_lt by lia.
    assert (HF : Forall is_pending (drop (S i) l)).
    { apply Forall_lookup. intros j t Ht. rewrite lookup_drop in Ht. eapply Hw; [|done]. lia. }
    simpl. destruct (passed i s'); [by apply pending_ordered|done].
  - by apply list_lookup_insert_eq.
  - intros j t Hj Ht. rewrite list_lookup_insert_ne in Ht by lia. eauto.
Qed.

Lemma at_turn_update l i s' : at_turn l i -> at_turn (<[i := s']> l) i.
Proof. intros [Hp Hw]. split; intros j s Hj Hs; rewrite list_lookup_insert_ne in Hs by lia; eauto. Qed.

(** What a step is to be replaced with while it is under way. *)
Definition step_fits (i : nat) (s s' : RunStepRecord) : Prop :=
  rs_Status s' ∈ step_statuses /\ (is_open s' -> is_open s) /\
  (inFlight (rs_Status s') = true -> rs_JobID s' = "" \/ rs_JobID s' = step_job r i).

Lemma steps_ok_update l i s s' :
  steps_ok l -> at_turn l i -> l !! i = Some s -> step_fits i s s' -> steps_ok (<[i := s']> l).
Proof.
  intros [H1 H2 H3 H4 H5] Ht Hs (Hf1 & Hf2 & Hf3). pose proof (lookup_lt_Some _ _ _ Hs) as Hi. split.
  - by rewrite length_insert.
  - by apply ordered_update.
  - by apply Forall_insert.
  - intros j t Hj Ho. apply list_lookup_insert_Some in Hj as [(<- & <- & _)|[_ Hj]]; eauto.
  - intros j t Hj Ho. apply list_lookup_insert_Some in Hj as [(<- & <- & _)|[_ Hj]]; eauto.
Qed.

(** ** Completed records *)

Lemma filled_lookup rec i :
  (i < length (tk_Steps (the_task r)))%nat ->
  exists s, filled r id rec !! i = Some s /\
    s = (let s := default zero_step (rn_Steps rec !! i) in
         if (i <? start_at r id)%nat && ((rs_Status s ==s "") || (rs_Status s ==s RunStepPending)) then
           mkRunStepRecord RunStepSucceeded "" ("succeeded in run " +:+ rr_RerunOf (rc_run r)) false 0 0
         else if rs_Status s ==s "" then set_step_status s RunStepPending
         else s).
Proof.
  intros Hi. unfold filled, new_steps. rewrite list_lookup_imap.
  destruct (lookup_lt_is_Some_2 _ _ Hi) as [t ->]. simpl. eauto.
Qed.

(** A good record is complete, and so good to the leader that reads it. *)
Lemma steps_ok_filled rec : steps_ok (rn_Steps rec) -> filled r id rec = rn_Steps rec.
Proof.
  intros [H1 H2 H3 H4 H5]. apply list_eq. intros i.
  destruct (decide (i < length (tk_Steps (the_task r)))%nat) as [Hi|Hi].
  - destruct (filled_lookup rec i Hi) as (s & -> & ->). rewrite <- H1 in Hi.
    destruct (lookup_lt_is_Some_2 _ _ Hi) as [t Et]. rewrite Et. change (default zero_step (Some t)) with t. cbv zeta.
    rewrite Forall_lookup in H3. specialize (H3 _ _ Et).
    assert (Hne : rs_Status t ==s "" = false).
    { apply String.eqb_neq. intros E. rewrite E in H3. unfold step_statuses in H3. by set_unfold in H3; naive_solver. }
    rewrite Hne. destruct (Nat.ltb_spec i (start_at r id)) as [Hlt|]; [|done].
    destruct (String.eqb_spec (rs_Status t) RunStepPending) as [E|]; [|done].
    specialize (H4 i t Et (or_introl E)). lia.
  - rewrite !lookup_ge_None_2; [done|lia|]. unfold filled, new_steps. rewrite length_imap. lia.
Qed.
Lemma steps_ok_rec_ok rec : steps_ok (rn_Steps rec) -> rec_ok r id rec.
Proof. intros H. unfold rec_ok. by rewrite steps_ok_filled. Qed.

(** ** The head and the records *)

(** Nothing of the node's own record has changed. *)
Definition same_rec (v v' : view) : Prop := vw_rec v' = vw_rec v.

Lemma wp_ret {A} (a : A) v (Q : A -> view -> Prop) : Q a v -> wpn (Ret a) v Q.
Proof. done. Qed.

(** One call, its answer named, what is allowed of it proved at once. *)
Ltac wp_do x := apply wp_call; intros x ?; split; [first [done | by simpl | idtac]|].

Lemma wp_readHead fresh v (Q : option RunRecord -> view -> Prop) :
  (forall h v', same_rec v v' -> vw_cached v' = Some h -> (fresh = true -> vw_head v' = Some h) -> Q (Some h) v') ->
  (forall v', same_rec v v' -> Q None v') ->
  wpn (readHead fresh) v Q.
Proof.
  intros HS HN. unfold readHead. wp_do now. wp_do cached.
  destruct (negb fresh && _) eqn:E.
  - apply wp_ret, HS; [done..|]. intros ->. done.
  - wp_do h. destruct h as [h|]; [|by apply wp_ret, HN]. wp_do u. apply wp_ret. by apply HS.
Qed.

Lemma wp_write v rec (Q : bool -> view -> Prop) :
  write_ok r id v rec ->
  (forall v', vw_rec v' = Some rec -> Q true v') -> (forall v', Q false v') ->
  wpn (write id rec) v Q.
Proof.
  intros Hw HT HF. unfold write. wp_do u. unfold do_call. intros [] _; (split; [by split|]); simpl; auto.
Qed.

Definition ends : list string := [RunNodeFailed; RunNodeUnknown; RunNodeSkipped; RunNodeStopped].
Lemma wp_fail v rec status reason :
  status ∈ ends -> write_ok r id v (set_status rec status reason) ->
  wpn (fail id rec status reason) v (outcome_ok r).
Proof.
  intros Hs Hw. unfold fail. apply wp_bind, wp_write; [done| |].
  - intros v' E. apply wp_ret. right. exists (set_status rec status reason). split; [done|].
    unfold ends in Hs. rewrite !elem_of_cons, elem_of_nil in Hs.
    destruct Hs as [->|[->|[->|[->|[]]]]]; simpl; (split; [by auto|done]).
  - intros v'. apply wp_ret. by left.
Qed.

(** ** The step under way *)

Definition recorded (v : view) (rec : RunNodeRecord) (i : nat) : Prop :=
  vw_rec v = Some rec /\ rn_Status rec = RunNodeRunning /\ steps_ok (rn_Steps rec) /\ at_turn (rn_Steps rec) i /\
  (i < length (rn_Steps rec))%nat.

(** Recorded but for when the step began. *)
Definition under_way (v : view) (rec : RunNodeRecord) (i : nat) : Prop :=
  rn_Status rec = RunNodeRunning /\
  exists rec0 s0 s, recorded v rec0 i /\ rn_Steps rec0 !! i = Some s0 /\ rn_Steps rec = <[i := s]> (rn_Steps rec0) /\
    rs_Status s = rs_Status s0 /\ rs_JobID s = rs_JobID s0.

Lemma recorded_under_way v rec i : recorded v rec i -> under_way v rec i.
Proof.
  intros H. destruct (H) as (H1 & H2 & H3 & H4 & H5). split; [done|].
  destruct (lookup_lt_is_Some_2 _ _ H5) as [s Es]. exists rec, s, s. split_and!; try done.
  by rewrite list_insert_id.
Qed.
Lemma recorded_same v v' rec i : same_rec v v' -> recorded v rec i -> recorded v' rec i.
Proof. unfold same_rec, recorded. by intros ->. Qed.
Lemma under_way_same v v' rec i : same_rec v v' -> under_way v rec i -> under_way v' rec i.
Proof. intros E (H & rec0 & s0 & s & Hr & H'). split; [done|]. exists rec0, s0, s. eauto using recorded_same. Qed.

Lemma step_at_insert rec l i s :
  rn_Steps rec = <[i := s]> l -> (i < length l)%nat -> step_at rec i = s.
Proof. unfold step_at. intros -> Hi. by rewrite list_lookup_insert_eq. Qed.
Lemma step_at_lookup rec i s : rn_Steps rec !! i = Some s -> step_at rec i = s.
Proof. unfold step_at. by intros ->. Qed.

Lemma under_way_started v rec i t :
  under_way v rec i -> under_way v (set_step rec i (set_step_started (step_at rec i) t)) i.
Proof.
  intros (H & rec0 & s0 & s & Hr & H1 & H2 & H3 & H4). split; [done|].
  exists rec0, s0, (set_step_started s t). split_and!; try done. simpl.
  erewrite step_at_insert by (first [done | apply Hr]). by rewrite H2, list_insert_insert_eq.
Qed.

(** The moves of a step, whatever the record says of when it began. *)
Definition moves (v : view) (rec : RunNodeRecord) (i : nat) (s' : RunStepRecord) : Prop :=
  forall l s0, at_turn l i -> rs_Status s0 = rs_Status (step_at rec i) -> rs_JobID s0 = rs_JobID (step_at rec i) ->
    step_move r id v l i s0 s'.

Lemma move_write_ok v rec i s' rec' :
  under_way v rec i -> moves v rec i s' -> step_fits i (step_at rec i) s' ->
  rn_Steps rec' = <[i := s']> (rn_Steps rec) ->
  status_ok r v rec' -> write_ok r id v rec' /\ steps_ok (rn_Steps rec') /\ at_turn (rn_Steps rec') i /\
    (i < length (rn_Steps rec'))%nat.
Proof.
  intros (H & rec0 & s0 & s & (R1 & R2 & R3 & R4 & R5) & H1 & H2 & H3 & H4) Hm Hf E Hst.
  erewrite step_at_insert in Hf by done. unfold moves in Hm. erewrite step_at_insert in Hm by done.
  rewrite E, H2, list_insert_insert_eq.
  assert (Hok : steps_ok (<[i:=s']> (rn_Steps rec0))).
  { eapply steps_ok_update; [done..|]. destruct Hf as (F1 & F2 & F3). split_and!; [done| |done].
    intros Ho. specialize (F2 Ho). unfold is_open, is_pending in *. by rewrite <- H3. }
  split_and!; [|done|by apply at_turn_update|by rewrite length_insert].
  exists rec0. rewrite E, H2, list_insert_insert_eq. split_and!; [done..|].
  intros j t Ht. destruct (decide (i = j)) as [<-|Hne].
  - exists s'. rewrite list_lookup_insert_eq by done. split; [done|]. simplify_eq. by apply Hm.
  - exists t. rewrite list_lookup_insert_ne by done. split; [done|constructor].
Qed.

Lemma wp_write_step v rec i s' rec' (Q : bool -> view -> Prop) :
  under_way v rec i -> moves v rec i s' -> step_fits i (step_at rec i) s' ->
  rn_Steps rec' = <[i := s']> (rn_Steps rec) -> rn_Status rec' = RunNodeRunning ->
  (forall v', recorded v' rec' i -> Q true v') -> (forall v', Q false v') ->
  wpn (write id rec') v Q.
Proof.
  intros Hu Hm Hf E Hr HT HF. destruct (move_write_ok v rec i s' rec') as (Hw & Hok & Ht & Hi); try done.
  { by left. }
  apply wp_write; [done| |done]. intros v' Ev. by apply HT.
Qed.

(** ** Following a job *)

(** The job's spec, as the step under way is to post it. *)
Definition spec_of (i : nat) (spec : JobSpec) : Prop :=
  js_ID spec = step_job r i /\ js_RunID spec = runID r /\ js_Step spec = Z.of_nat i /\ js_Kind spec = step_kind r i.

Definition running (v : view) (i : nat) : Prop :=
  exists rec s, vw_rec v = Some rec /\ rn_Steps rec !! i = Some s /\ rs_Status s = RunStepRunning.
Lemma running_same v v' i : same_rec v v' -> running v i -> running v' i.
Proof. unfold same_rec, running. by intros ->. Qed.

Lemma wp_maybe_cancel i spec cancelled v (Q : bool -> view -> Prop) :
  spec_of i spec -> running v i ->
  (forall b v', same_rec v v' -> Q b v') -> wpn (maybe_cancel r id spec cancelled) v Q.
Proof.
  intros (Hid & _ & _ & Hk) Hr HQ. unfold maybe_cancel. destruct (_ && _) eqn:E; [|by apply wp_ret, HQ].
  apply andb_true_iff in E as [_ Hc]. apply wp_bind, wp_readHead; [|intros v' ?; by apply wp_ret, HQ].
  intros h v' Hs Hh _. destruct (_ && _) eqn:E; [|by apply wp_ret, HQ]. go_bools.
  apply wp_call. intros ok _. split; [|by apply wp_ret, HQ].
  split; [done|]. destruct (running_same _ _ _ Hs Hr) as (rec & s & ? & ? & ?).
  exists rec, i, s, h. split_and!; try done; by rewrite <- Hk.
Qed.

Definition waited (v : view) (Q : JobView * stepResult -> view -> Prop) : Prop :=
  forall jv res v', same_rec v v' -> res ∈ [stepDone; stepAbandoned; stepUnknown] -> Q (jv, res) v'.

Lemma waited_same v v' Q : same_rec v v' -> waited v Q -> waited v' Q.
Proof. unfold waited, same_rec. intros E H jv res w Hw Hres. apply H; [by rewrite Hw|done]. Qed.

Lemma wp_wait_loop fuel i spec jv started by_ lastHeard cancelled v Q :
  spec_of i spec -> running v i -> waited v Q ->
  wpn (wait_loop r fuel id spec jv started by_ lastHeard cancelled) v Q.
Proof.
  intros Hsp. revert jv lastHeard cancelled v.
  induction fuel as [|fuel IH]; intros jv lastHeard cancelled v Hr HQ; simpl wait_loop.
  all: destruct (negb _); [apply wp_ret, HQ; [done|set_solver]|].
  { done. }
  wp_do gone. destruct gone; [apply wp_ret, HQ; [done|set_solver]|]. wp_do u.
  apply wp_bind. apply (wp_maybe_cancel i); [done..|]. intros c v1 H1.
  wp_do job. wp_do now.
  match goal with |- wp _ _ _ ?w _ => remember w as v2 eqn:Ev2 end.
  assert (Hv2 : same_rec v v2) by (by rewrite Ev2).
  assert (Hr2 : running v2 i) by (by apply (running_same v)).
  assert (HQ2 : waited v2 Q) by (by apply (waited_same v)).
  clear Ev2. destruct job as [jv'|e].
  - destruct by_ as [t|]; [|by apply IH]. destruct (_ && _); [apply wp_ret, HQ2; [done|set_solver]|by apply IH].
  - wp_do gone. destruct gone; [apply wp_ret, HQ2; [done|set_solver]|].
    destruct (_ ==s _); [apply wp_ret, HQ2; [done|set_solver]|].
    destruct by_; destruct (_ <=? _); first [by apply IH | apply wp_ret, HQ2; [done|set_solver]].
Qed.

Lemma wp_wait i spec jv started v Q :
  spec_of i spec -> running v i -> waited v Q -> wpn (wait r id spec jv started) v Q.
Proof. intros. unfold wait. wp_do now. by apply (wp_wait_loop _ i). Qed.

Lemma wp_endStep step status summary changed v (Q : RunStepRecord -> view -> Prop) :
  (forall now, Q (mkRunStepRecord status (rs_JobID step) (capSummary summary) changed (rs_StartedAt step) now) v) ->
  wpn (endStep step status summary changed) v Q.
Proof. intros H. unfold endStep. wp_do now. apply H. Qed.

(** What a step's result says of its record. *)
Definition result_status (res : stepResult) (status : string) : Prop :=
  match res with
  | stepDone => status = RunStepSucceeded \/ status = RunStepSkipped
  | stepFailed | stepBusy => status = RunStepFailed
  | stepCancelled => status = RunStepCancelled
  | stepUnknown => status = RunStepUnknown
  | stepAbandoned => True
  end.

(** A step over: abandoned, or recorded as its result says. *)
Definition stepped (Q : RunNodeRecord * stepResult -> view -> Prop) (i : nat) : Prop :=
  (forall rec v, Q (rec, stepAbandoned) v) /\
  (forall rec v res, recorded v rec i -> result_status res (rs_Status (step_at rec i)) -> Q (rec, res) v).

Definition end_statuses : list string :=
  [RunStepSucceeded; RunStepFailed; RunStepCancelled; RunStepUnknown; RunStepSkipped].
Lemma ended_fits i s s' : rs_Status s' ∈ end_statuses -> step_fits i s s'.
Proof.
  unfold end_statuses, step_fits, step_statuses, is_open, is_pending. rewrite !elem_of_cons, elem_of_nil.
  intros [->|[->|[->|[->|[->|[]]]]]]; (split; [naive_solver|]); (split; [intros [?|?]; done|done]).
Qed.

Lemma recorded_step_at v rec l i s' :
  recorded v rec i -> rn_Steps rec = <[i := s']> l -> step_at rec i = s'.
Proof.
  intros (_ & _ & _ & _ & Hi) E. eapply step_at_insert; [done|]. by rewrite E, length_insert in Hi.
Qed.

(** Records the end of the step and gives its result. *)
Lemma wp_write_end v rec i s' rec' res Q :
  under_way v rec i -> moves v rec i s' -> rs_Status s' ∈ end_statuses ->
  rn_Steps rec' = <[i := s']> (rn_Steps rec) -> rn_Status rec' = RunNodeRunning ->
  result_status res (rs_Status s') -> stepped Q i ->
  wpn (ok <-- write id rec' ;; Ret (rec', if ok : bool then res else stepAbandoned))%prog v Q.
Proof.
  intros Hu Hm Hs E Hr Hres [HA HS]. apply wp_bind. eapply wp_write_step; [done..| | | | |].
  - by apply ended_fits.
  - done.
  - done.
  - intros v' Hv'. apply wp_ret, HS; [done|]. by erewrite recorded_step_at by done.
  - intros v'. apply wp_ret, HA.
Qed.

Lemma under_way_running v rec i :
  under_way v rec i -> rs_Status (step_at rec i) = RunStepRunning -> running v i.
Proof.
  intros (_ & rec0 & s0 & s & Hr & H1 & H2 & H3 & _) Hs. exists rec0, s0. split_and!; [apply Hr|done|].
  erewrite step_at_insert in Hs by (first [done|apply Hr]). congruence.
Qed.

Definition posted_end (s s' : RunStepRecord) : Prop := rs_JobID s' = rs_JobID s.

Lemma wp_follow v rec i spec jv Q :
  under_way v rec i -> rs_Status (step_at rec i) = RunStepRunning -> spec_of i spec -> stepped Q i ->
  wpn (follow r id rec i spec jv) v Q.
Proof.
  intros Hu Hs Hsp HQ. unfold follow. apply wp_bind, (wp_wait i); [done|by eapply under_way_running|].
  intros jv' res v1 Hv1 Hres. destruct (bool_decide_reflect (res = stepAbandoned)) as [->|Hne].
  { apply wp_ret, (proj1 HQ). }
  assert (Hu1 : under_way v1 rec i) by (by eapply under_way_same).
  assert (Hend : forall s' res', rs_JobID s' = rs_JobID (step_at rec i) ->
    rs_Status s' ∈ [RunStepSucceeded; RunStepFailed; RunStepCancelled; RunStepUnknown] ->
    result_status res' (rs_Status s') ->
    wpn (ok <-- write id (set_step rec i s') ;; Ret (set_step rec i s', if ok : bool then res' else stepAbandoned))%prog v1 Q).
  { intros s' res' Hj Hst Hr'. eapply wp_write_end; try done.
    - intros l s0 _ E1 E2. apply move_end; congruence.
    - unfold end_statuses. set_solver.
    - apply Hu1. }
  apply wp_bind. destruct (bool_decide_reflect (res = stepUnknown)) as [->|Hu2].
  { apply wp_bind, wp_endStep. intros now. apply Hend; [done|set_solver|done]. }
  assert (res = stepDone) as -> by set_solver.
  repeat (destruct (_ ==s _); [apply wp_bind, wp_endStep; intros now; apply Hend; [done|set_solver|by simpl; auto]|]).
  apply wp_bind, wp_endStep; intros now; apply Hend; [done|set_solver|by simpl; auto].
Qed.

(** ** Posting a job *)

Definition posting (v : view) (spec : JobSpec) (i : nat) : Prop :=
  exists rec s, vw_rec v = Some rec /\ rn_Status rec = RunNodeRunning /\ steps_ok (rn_Steps rec) /\
    rn_Steps rec !! i = Some s /\ rs_Status s = RunStepStarting /\
    (forall j t, (j < i)%nat -> rn_Steps rec !! j = Some t -> passed j t = true) /\ spec_of i spec /\
    js_Confirmed spec = bool_decide (i ∈ rr_Confirmed (rc_run r)).
Lemma posting_same v v' spec i : same_rec v v' -> posting v spec i -> posting v' spec i.
Proof. unfold posting, same_rec. by intros ->. Qed.

Lemma wp_start v i spec (Q : result call_error JobView -> view -> Prop) :
  posting v spec i -> (forall x v', same_rec v v' -> Q x v') -> wpn (start r id spec) v Q.
Proof.
  unfold start. generalize startAttempts true (CallFailed ""). intros n.
  revert v. induction n as [|n IH]; intros v first err Hp HQ; cbn [start_from]; [by apply wp_ret, HQ|].
  assert (Hgo : wpn (cancelled <-- do_call CtxErr ;;
      if cancelled : bool then Ret (Err (CallFailed "context"))
      else v <-- do_call (StartJob id spec (rr_StartedBy (rc_run r))) ;;
        match v with
        | Ok view => Ret (Ok view)
        | Err (Refusal code text details) => Ret (Err (Refusal code text details))
        | Err (CallFailed text) => start_from r n false id spec (CallFailed text)
        end)%prog v Q).
  { wp_do c. destruct c; [by apply wp_ret, HQ|]. apply wp_call. intros a _. split.
    - split_and!; [done..|]. destruct Hp as (rec & s & ? & ? & ? & ? & ? & ? & (? & ? & ? & ?) & ?).
      exists rec, i, s. done.
    - destruct a as [jv|[code text details|text]]; [by apply wp_ret, HQ..|]. by apply IH. }
  destruct first; [exact Hgo|]. wp_do u. exact Hgo.
Qed.

Lemma under_way_posting v rec i spec :
  under_way v rec i -> rs_Status (step_at rec i) = RunStepStarting -> spec_of i spec ->
  js_Confirmed spec = bool_decide (i ∈ rr_Confirmed (rc_run r)) -> posting v spec i.
Proof.
  intros (_ & rec0 & s0 & s & (R1 & R2 & R3 & R4 & R5) & H1 & H2 & H3 & _) Hs Hsp Hc.
  erewrite step_at_insert in Hs by done. exists rec0, s0. split_and!; try done; [congruence|apply R4].
Qed.

Lemma under_way_job v rec i :
  under_way v rec i -> inFlight (rs_Status (step_at rec i)) = true ->
  rs_JobID (step_at rec i) = "" \/ rs_JobID (step_at rec i) = step_job r i.
Proof.
  intros (_ & rec0 & s0 & s & (R1 & R2 & R3 & R4 & R5) & H1 & H2 & H3 & H4) Hs.
  erewrite step_at_insert in * by done. rewrite H3 in Hs. rewrite H4. by apply R3.
Qed.

Lemma wp_post_step v rec i spec Q :
  under_way v rec i -> rs_Status (step_at rec i) = RunStepStarting -> spec_of i spec ->
  js_Confirmed spec = bool_decide (i ∈ rr_Confirmed (rc_run r)) -> stepped Q i ->
  wpn (post_step r id rec i spec) v Q.
Proof.
  intros Hu Hs Hsp Hc HQ. unfold post_step. apply wp_bind, (wp_start _ i); [by eapply under_way_posting|].
  intros x v1 Hv1. assert (Hu1 : under_way v1 rec i) by (by eapply under_way_same).
  destruct x as [jv|e].
  - set (s' := set_step_status (step_at rec i) RunStepRunning).
    apply wp_bind, (wp_write_step _ rec i s'); [done| | |done|apply Hu1| |].
    + intros l s0 _ E1 E2. apply move_taken; simpl; congruence.
    + split_and!; [unfold step_statuses; set_solver|by right; rewrite Hs|].
      intros _. eapply under_way_job; [done|by rewrite Hs].
    + intros v2 Hv2. simpl negb. apply wp_follow; [by apply recorded_under_way| |done..].
      by erewrite recorded_step_at by done.
    + intros v2. simpl. apply (proj1 HQ).
  - wp_do gone. destruct gone; [apply wp_ret, (proj1 HQ)|].
    assert (Hend : forall status summary rec' res,
      (status = RunStepFailed \/ status = RunStepUnknown \/ status = RunStepSkipped /\ step_kind r i = StepReboot) ->
      result_status res status ->
      (forall s', rn_Steps (rec' s') = <[i := s']> (rn_Steps rec) /\ rn_Status (rec' s') = RunNodeRunning) ->
      wpn (x <-- (s <-- endStep (step_at rec i) status summary false ;; Ret (rec' s, res)) ;;
           ok <-- write id x.1 ;; Ret (x.1, if ok : bool then x.2 else stepAbandoned))%prog v1 Q).
    { intros status summary rec' res Hst Hres Hr. apply wp_bind, wp_bind, wp_endStep. intros now.
      apply wp_ret. simpl fst. simpl snd. destruct (Hr (mkRunStepRecord status (rs_JobID (step_at rec i))
        (capSummary summary) false (rs_StartedAt (step_at rec i)) now)) as [Hr1 Hr2].
      eapply wp_write_end; try done.
      - intros l s0 _ E1 E2. apply move_refused; simpl; [congruence..|]. naive_solver.
      - simpl. unfold end_statuses. rewrite !elem_of_cons. naive_solver. }
    unfold refused. destruct e as [code text details|text].
    + destruct ((code ==s ErrTaskRebootPVEHost) && _) eqn:E; [|destruct (code ==s ErrTaskNodeBusy)].
      * go_bools. destruct Hsp as (_ & _ & _ & Hk).
        apply (Hend _ _ (fun s => set_step rec i s)); [|by right|by split; [|apply Hu1]].
        right; right. split; [done|congruence].
      * cbv zeta. match goal with |- context [set_reason _ ?why] =>
          apply (Hend RunStepFailed _ (fun s => set_reason (set_step rec i s) why) stepBusy) end;
          [by left|done|by split; [|apply Hu1]].
      * by apply (Hend _ _ (fun s => set_step rec i s)); [left|..|split; [|apply Hu1]].
    + by apply (Hend _ _ (fun s => set_step rec i s)); [right; left|..|split; [|apply Hu1]].
Qed.

(** ** A step's turn *)

Definition may_start (v : view) (i : nat) : Prop :=
  (exists h, vw_head v = Some h /\ rr_Status h <> RunStopping) /\ quorum_judged r id v i true.

Lemma spec_of_id i spec id' : spec_of i spec -> id' = "" \/ id' = step_job r i ->
  (if negb (id' ==s "") then id' else js_ID spec) = step_job r i.
Proof.
  intros (Hid & _) [->| ->]; [done|]. destruct (negb _); done.
Qed.

Lemma spec_of_with i spec step :
  spec_of i spec -> rs_JobID step = "" \/ rs_JobID step = step_job r i -> spec_of i (with_id spec (spec_id spec step)).
Proof. intros Hsp Hj. split; [by apply spec_of_id|apply Hsp]. Qed.

Lemma wp_runStep v rec i spec Q :
  recorded v rec i -> is_open (step_at rec i) -> spec_of i spec ->
  js_Confirmed spec = bool_decide (i ∈ rr_Confirmed (rc_run r)) ->
  (inFlight (rs_Status (step_at rec i)) = false -> may_start v i) -> stepped Q i ->
  wpn (runStep r id rec i spec) v Q.
Proof.
  intros Hr Ho Hsp Hc Hst HQ. pose proof (recorded_under_way _ _ _ Hr) as Hu.
  unfold runStep. destruct (inFlight _) eqn:Ef.
  - assert (Hsp' : spec_of i (with_id spec (spec_id spec (step_at rec i)))).
    { apply spec_of_with; [done|]. by eapply under_way_job. }
    assert (Hgo : forall v' t, same_rec v v' ->
      let rec' := set_step rec i (set_step_started (step_at rec i) t) in
      wpn (if rs_Status (step_at rec i) ==s RunStepRunning
           then follow r id rec' i (with_id spec (spec_id spec (step_at rec i)))
                  (following_view (with_id spec (spec_id spec (step_at rec i))))
           else post_step r id rec' i (with_id spec (spec_id spec (step_at rec i)))) v' Q).
    { intros v' t Hv' rec'. assert (Hu' : under_way v' rec' i).
      { apply under_way_started. by eapply under_way_same. }
      assert (Es : rs_Status (step_at rec' i) = rs_Status (step_at rec i)).
      { erewrite step_at_insert by (first [done|apply Hr]). done. }
      destruct (String.eqb_spec (rs_Status (step_at rec i)) RunStepRunning) as [E|E].
      - apply wp_follow; [done|congruence|done..].
      - apply wp_post_step; [done| |done..]. rewrite Es. unfold inFlight in Ef.
        apply orb_true_iff in Ef as [Ef|Ef]; go_bools; done. }
    cbv zeta. apply wp_bind. destruct (IsZero _); [wp_do now|]; by apply Hgo.
  - destruct Ho as [Hp|?]; [|congruence]. destruct (Hst eq_refl) as [(h & Hh & Hns) Hq].
    cbv zeta. wp_do now. set (s' := mkRunStepRecord RunStepStarting (js_ID spec) "" false now 0).
    pose proof (proj1 Hsp) as Hjob. apply wp_bind, (wp_write_step _ rec i s'); [done| | |done|apply Hr| |].
    + intros l s0 Ht E1 E2. apply (move_start _ _ _ _ _ _ _ h); [by rewrite E1|done|done|apply Ht|done..].
    + split_and!; [unfold step_statuses; set_solver|by left|]. by right.
    + intros v2 Hv2. apply wp_post_step; [by apply recorded_under_way| |done..].
      by erewrite recorded_step_at by done.
    + intros v2. apply (proj1 HQ).
Qed.

(** A taken-over step the node is asked about. *)
Lemma wp_askStarting v rec i spec (Q : RunNodeRecord * JobSpec * startingAnswer -> view -> Prop) :
  recorded v rec i -> rs_Status (step_at rec i) = RunStepStarting -> spec_of i spec ->
  (forall rec' spec' v', Q (rec', spec', startingAbandoned) v') ->
  (forall rec' spec' ans v', recorded v' rec' i -> spec_of i spec' -> js_Confirmed spec' = js_Confirmed spec ->
     is_open (step_at rec' i) -> (inFlight (rs_Status (step_at rec' i)) = false <-> ans = startingFresh) ->
     ans <> startingAbandoned -> Q (rec', spec', ans) v') ->
  wpn (askStarting id rec i spec) v Q.
Proof.
  intros Hr Hs Hsp HA HQ. unfold askStarting. cbv zeta.
  assert (Hu : under_way v rec i) by (by apply recorded_under_way).
  assert (Hj : rs_JobID (step_at rec i) = "" \/ rs_JobID (step_at rec i) = step_job r i).
  { eapply under_way_job; [done|by rewrite Hs]. }
  set (spec' := with_id spec (spec_id spec (step_at rec i))).
  assert (Hsp' : spec_of i spec') by (by apply spec_of_with).
  wp_do job. match goal with |- wp _ _ _ ?w _ => remember w as v1 eqn:Ev1 end.
  assert (Hr1 : recorded v1 rec i) by (apply (recorded_same v); by subst v1).
  assert (Hrun : forall v' t, same_rec v1 v' -> let rec' := set_step rec i (set_step_started (set_step_status (step_at rec i) RunStepRunning) t) in
    wpn (ok <-- write id rec' ;;
         Ret (rec', spec', if negb ok then startingAbandoned
                           else if rs_Status (step_at rec' i) ==s RunStepPending then startingFresh
                           else startingFollow))%prog v' Q).
  { intros v' t Hv' rec'. assert (Hr' : recorded v' rec i) by (by eapply recorded_same).
    apply wp_bind. set (s' := set_step_started (set_step_status (step_at rec i) RunStepRunning) t).
    apply (wp_write_step _ rec i s'); [by apply recorded_under_way| | |done|apply Hr| |].
    - intros l s0 _ E1 E2. apply move_taken; simpl; congruence.
    - split_and!; [unfold step_statuses; set_solver|by right; rewrite Hs|done].
    - intros v2 Hv2. assert (Es : step_at rec' i = s') by (by eapply recorded_step_at).
      rewrite Es. apply wp_ret, HQ; [done..| | |done]; rewrite Es; [by right|done].
    - intros v2. apply wp_ret, HA. }
  destruct job as [jv|e].
  - destruct (IsZero _); [wp_do now; by apply Hrun|]. by apply (Hrun v1 (rs_StartedAt (step_at rec i))).
  - destruct (refusalCode e ==s ErrTaskJobNotFound) eqn:E.
    + set (s' := mkRunStepRecord RunStepPending "" "" false 0 0). apply wp_bind.
      apply (wp_write_step _ rec i s'); [by apply recorded_under_way| | |done|apply Hr| |].
      * intros l s0 _ E1 E2. apply move_lost; [congruence|done|by subst v1].
      * split_and!; [unfold step_statuses; set_solver|by right; rewrite Hs|done].
      * intros v2 Hv2. assert (Es : step_at (set_step rec i s') i = s') by (by eapply recorded_step_at).
        rewrite Es. apply wp_ret, HQ; [done..| | |done]; rewrite Es; [by left|done].
      * intros v2. apply wp_ret, HA.
    + apply wp_ret, HQ; [done..| | |done]; [by right; rewrite Hs|by rewrite Hs].
Qed.

(** ** A node's steps *)

(** The record of a node whose steps before [i] are passed and whose other
    steps may all still run. *)
Definition looping (v : view) (rec : RunNodeRecord) (i : nat) : Prop :=
  vw_rec v = Some rec /\ rn_Status rec = RunNodeRunning /\ steps_ok (rn_Steps rec) /\
  (forall j s, (j < i)%nat -> rn_Steps rec !! j = Some s -> passed j s = true) /\
  (forall j s, rn_Steps rec !! j = Some s -> passed j s = true \/ is_open s).

Lemma write_same_ok v rec rec' :
  vw_rec v = Some rec -> steps_ok (rn_Steps rec) -> rn_Steps rec' = rn_Steps rec -> status_ok r v rec' ->
  write_ok r id v rec'.
Proof.
  intros Hv Hok E Hs. exists rec. rewrite E. split_and!; [done..|]. intros i s Hi. exists s. split; [done|constructor].
Qed.

Lemma wp_fail_same v rec status reason :
  vw_rec v = Some rec -> steps_ok (rn_Steps rec) -> status ∈ ends -> status_ok r v (set_status rec status reason) ->
  wpn (fail id rec status reason) v (outcome_ok r).
Proof. intros. apply wp_fail; [done|]. by eapply write_same_ok. Qed.

Lemma wp_succeed v rec :
  vw_rec v = Some rec -> steps_ok (rn_Steps rec) ->
  (forall j s, rn_Steps rec !! j = Some s -> passed j s = true) ->
  wpn (ok <-- write id (set_status rec RunNodeSucceeded "") ;; Ret (if ok : bool then nodeDone else nodeAbandoned))%prog
    v (outcome_ok r).
Proof.
  intros Hv Hok Hp. apply wp_bind, wp_write.
  - eapply write_same_ok; [done..|]. by right; left.
  - intros v' Hv'. apply wp_ret. right. by eexists.
  - intros v'. apply wp_ret. by left.
Qed.

Lemma recorded_has_step v rec i status :
  recorded v rec i -> rs_Status (step_at rec i) = status -> forall st why, has_step (set_status rec st why) status.
Proof.
  intros (_ & _ & _ & _ & Hi) E st why. destruct (lookup_lt_is_Some_2 _ _ Hi) as [s Es].
  exists i, s. split; [done|]. by erewrite step_at_lookup in E by done.
Qed.

Lemma recorded_next v rec i :
  recorded v rec i -> passed i (step_at rec i) = true -> looping v rec (S i).
Proof.
  intros (R1 & R2 & R3 & [Hp Hw] & R5) Hi. destruct (lookup_lt_is_Some_2 _ _ R5) as [s Es].
  erewrite step_at_lookup in Hi by done. split_and!; [done..| |].
  - intros j t Hj Ht. destruct (decide (j = i)) as [->|]; [congruence|]. apply (Hp j t); [lia|done].
  - intros j t Ht. destruct (lt_eq_lt_dec j i) as [[Hj| ->]|Hj].
    + left. by eapply Hp.
    + left. congruence.
    + right. left. by eapply Hw.
Qed.

Lemma wp_after_step v rec i res next :
  (res = stepAbandoned \/ recorded v rec i /\ result_status res (rs_Status (step_at rec i))) ->
  (forall rec v, looping v rec (S i) -> wpn (next rec) v (outcome_ok r)) ->
  wpn (after_step r id rec i res next) v (outcome_ok r).
Proof.
  intros [->|[Hr Hres]] Hn; [by left|]. pose proof Hr as (R1 & R2 & R3 & R4 & R5).
  unfold after_step. destruct res; simpl in Hres.
  - apply Hn, recorded_next; [done|]. unfold TaskRunSpec.passed. by destruct Hres as [-> | ->].
  - destruct (sp_ContinueOnError (the_step r i)) eqn:E.
    + apply Hn, recorded_next; [done|]. unfold TaskRunSpec.passed. by rewrite Hres, E.
    + apply wp_fail_same; [done..|unfold ends; set_solver|by right; right; left].
  - apply wp_fail_same; [done..|unfold ends; set_solver|by right; right; left].
  - apply wp_fail_same; [done..|unfold ends; set_solver|]. do 5 right. split; [done|].
    left. by eapply recorded_has_step.
  - apply wp_fail_same; [done..|unfold ends; set_solver|]. do 3 right. left. split; [done|].
    by eapply recorded_has_step.
  - by left.
Qed.

Lemma wp_turn v rec i spec resume n next :
  rc_nodes r !! id = Some n ->
  recorded v rec i -> is_open (step_at rec i) -> inFlight (rs_Status (step_at rec i)) = resume -> spec_of i spec ->
  (forall rec v, looping v rec (S i) -> wpn (next rec) v (outcome_ok r)) ->
  wpn (turn r id n rec i spec resume next) v (outcome_ok r).
Proof.
  intros Hnode Hr Ho Ef Hsp Hn. unfold turn. apply wp_bind, wp_readHead; [|by left].
  intros h v1 Hv1 _ Hh. specialize (Hh eq_refl). assert (Hr1 : recorded v1 rec i) by (by eapply recorded_same).
  destruct (_ && _) eqn:E.
  { go_bools. apply wp_fail_same; [apply Hr1..|unfold ends; set_solver|]. do 5 right. split; [done|]. eauto. }
  cbv zeta. set (spec' := spec_with _ _ _ _). assert (Hsp' : spec_of i spec') by apply Hsp.
  assert (Hrun : forall v', same_rec v1 v' -> (resume = false -> may_start v' i) ->
    wpn (x <-- runStep r id rec i spec' ;; after_step r id x.1 i x.2 next)%prog v' (outcome_ok r)).
  { intros v' Hv' Hm. apply wp_bind, wp_runStep; [by eapply recorded_same|done..|by rewrite Ef|].
    split; [intros; apply wp_after_step; [by left|done]|]. intros; apply wp_after_step; [by right|done]. }
  assert (Hns : resume = false -> rr_Status h <> RunStopping).
  { intros ->. simpl in E. by apply String.eqb_neq in E. }
  apply wp_bind. destruct (negb resume && (js_Kind spec' ==s StepReboot) && IsManager n) eqn:Eq.
  - go_bools. destruct Hsp' as (_ & _ & _ & Hk). apply wp_bind. apply wp_call; intros health _; split; [done|].
    apply wp_bind. apply wp_call; intros nodes _; split; [done|]. apply wp_ret, wp_ret.
    destruct (quorum_without health nodes id) eqn:Equ; simpl negb; cbv iota.
    + apply Hrun; [done|]. intros _. split; [exists h; by split; [|apply Hns]|]. intros _ n' Hn' _. done.
    + apply wp_call; intros now _; split; [done|].
      set (s' := mkRunStepRecord RunStepSkipped "" reasonQuorum false 0 now).
      assert (Hu : under_way v1 rec i) by (by apply recorded_under_way).
      apply wp_fail; [unfold ends; set_solver|].
      eapply (move_write_ok _ rec i s'); [by apply (under_way_same v1)| | |done|].
      * intros l s0 _ E1 E2. apply (move_quorum _ _ _ _ _ _ _ n); try done; [|congruence].
        rewrite E1. destruct Ho as [?|Ho]; [done|congruence].
      * apply ended_fits. unfold end_statuses. set_solver.
      * do 4 right. left. split; [done|]. exists i, s'. split; [|done].
        simpl. apply list_lookup_insert_eq, Hr.
  - apply wp_ret. simpl negb. cbv iota. apply Hrun; [done|]. intros Hf. split; [exists h; by split; [|apply Hns]|].
    intros Hk n' Hn' Hm. simplify_eq. destruct Hsp' as (_ & _ & _ & Hk'). rewrite Hk', Hk, Hm in Eq.
    by rewrite Hf in Eq.
Qed.

(** The specs of the steps from [i] on. *)
Definition specs_from (i : nat) (specs : list JobSpec) : Prop :=
  (i + length specs = length (tk_Steps (the_task r)))%nat /\
  forall k spec, specs !! k = Some spec -> js_Step spec = Z.of_nat (i + k) /\ js_Kind spec = step_kind r (i + k).

Lemma specs_from_cons i spec specs : specs_from i (spec :: specs) ->
  (i < length (tk_Steps (the_task r)))%nat /\ js_Step spec = Z.of_nat i /\ js_Kind spec = step_kind r i /\
  specs_from (S i) specs.
Proof.
  intros [Hl Hs]. simpl in Hl. specialize (Hs 0%nat spec eq_refl) as H0. rewrite Nat.add_0_r in H0.
  split_and!; [lia|apply H0..|]. split; [lia|]. intros k sp Hk.
  specialize (Hs (S k) sp Hk). by replace (S i + k)%nat with (i + S k)%nat by lia.
Qed.

Lemma wp_run_steps n specs v rec i :
  rc_nodes r !! id = Some n -> looping v rec i -> specs_from i specs ->
  wpn (run_steps r id n rec i specs) v (outcome_ok r).
Proof.
  intros Hn. revert v rec i. induction specs as [|spec specs IH]; intros v rec i Hl Hsp; cbn [run_steps].
  - destruct Hl as (L1 & L2 & L3 & L4 & L5). apply wp_succeed; [done..|]. intros j s Hj.
    apply (L4 j); [|done]. apply lookup_lt_Some in Hj. rewrite (so_length _ _ _ L3) in Hj.
    destruct Hsp as [Hlen _]. simpl in Hlen. lia.
  - apply specs_from_cons in Hsp as (Hi & Hst & Hk & Hsp). pose proof Hl as (L1 & L2 & L3 & L4 & L5).
    assert (Hi' : (i < length (rn_Steps rec))%nat) by (by rewrite (so_length _ _ _ L3)).
    destruct (lookup_lt_is_Some_2 _ _ Hi') as [s Es]. pose proof (step_at_lookup _ _ _ Es) as Ea.
    cbv zeta. destruct (negb (inFlight _) && _) eqn:Esk.
    + apply IH; [|done]. split_and!; [done..| |done]. intros j t Hj Ht.
      destruct (decide (j = i)) as [->|]; [|apply (L4 j); [lia|done]]. simplify_eq.
      go_bools. destruct (L5 _ _ Es) as [?|[Hp|?]]; [done|by unfold is_pending in Hp|congruence].
    + assert (Ho : is_open (step_at rec i)).
      { unfold is_open, is_pending. apply andb_false_iff in Esk as [E|E]; apply negb_false_iff in E; [by right|].
        left. by apply String.eqb_eq in E. }
      assert (Hr : recorded v rec i).
      { split_and!; [done..| |done]. apply (ordered_turn _ _ s); [apply L3|done| |done].
        rewrite Ea in Ho. by apply open_not_passed. }
      assert (Hnext : forall rec v, looping v rec (S i) -> wpn (run_steps r id n rec (S i) specs) v (outcome_ok r)).
      { intros rec' v' Hl'. by apply IH. }
      set (spec' := spec_with spec _ _ _). assert (Hspec : spec_of i spec') by done.
      apply wp_call; intros gone _; split; [done|]. destruct gone; [by left|].
      destruct (String.eqb_spec (rs_Status (step_at rec i)) RunStepStarting) as [E|E].
      * apply wp_bind, (wp_askStarting _ _ i); [done..|by left|].
        intros rec' spec2 ans v' Hr' Hsp2 Hc2 Ho' Hf Ha. destruct ans; [| | |done]; (eapply wp_turn; [done..| |done|done]).
        -- rewrite E. destruct (inFlight (rs_Status (step_at rec' i))); [done|]. by destruct Hf as [Hf _]; specialize (Hf eq_refl).
        -- rewrite E. destruct (inFlight (rs_Status (step_at rec' i))); [done|]. by destruct Hf as [Hf _]; specialize (Hf eq_refl).
        -- by apply Hf.
      * by eapply wp_turn.
Qed.

(** ** A node *)

Lemma close_steps_spec k l :
  ordered r k l -> Forall (fun s => rs_Status s ∈ step_statuses) l ->
  match close_steps r k l with
  | CloseDone => forall j s, l !! j = Some s -> passed (k + j) s = true
  | StaysOpen => forall j s, l !! j = Some s -> passed (k + j) s = true \/ is_open s
  | CloseWith status reason =>
      status = RunNodeFailed \/
      exists j s, l !! j = Some s /\
        (status = RunNodeUnknown /\ rs_Status s = RunStepUnknown \/
         status = RunNodeStopped /\ rs_Status s = RunStepCancelled)
  end.
Proof.
  revert k. induction l as [|s l IH]; intros k Ho Hs; [done|]. apply Forall_cons in Hs as [Hs Hl].
  assert (Hnext : passed k s = true ->
    match close_steps r (S k) l with
    | CloseDone => forall j t, (s :: l) !! j = Some t -> passed (k + j) t = true
    | StaysOpen => forall j t, (s :: l) !! j = Some t -> passed (k + j) t = true \/ is_open t
    | CloseWith status reason =>
        status = RunNodeFailed \/
        exists j t, (s :: l) !! j = Some t /\
          (status = RunNodeUnknown /\ rs_Status t = RunStepUnknown \/
           status = RunNodeStopped /\ rs_Status t = RunStepCancelled)
    end).
  { intros Hp. simpl in Ho. rewrite Hp in Ho. specialize (IH (S k) Ho Hl).
    destruct (close_steps r (S k) l).
    - destruct IH as [?|(j & t & ? & ?)]; [by left|right]. by exists (S j), t.
    - intros [|j] t Ht; simpl in Ht; simplify_eq; [by rewrite Nat.add_0_r|]. specialize (IH j t Ht).
      by replace (k + S j)%nat with (S k + j)%nat by lia.
    - intros [|j] t Ht; simpl in Ht; simplify_eq; [rewrite Nat.add_0_r; by left|]. specialize (IH j t Ht).
      by replace (k + S j)%nat with (S k + j)%nat by lia. }
  cbn [close_steps].
  destruct (String.eqb_spec (rs_Status s) RunStepFailed) as [E|E1].
  { destruct (sp_ContinueOnError (the_step r k)) eqn:Ec; simpl; [|by left]. apply Hnext.
    unfold TaskRunSpec.passed. by rewrite E, Ec. }
  destruct (String.eqb_spec (rs_Status s) RunStepUnknown) as [E|E2].
  { right. exists 0%nat, s. split; [done|by left]. }
  destruct (String.eqb_spec (rs_Status s) RunStepCancelled) as [E|E3].
  { right. exists 0%nat, s. split; [done|by right]. }
  destruct ((rs_Status s ==s RunStepSucceeded) || _) eqn:E4.
  { apply Hnext. unfold TaskRunSpec.passed. by rewrite E4. }
  apply orb_false_iff in E4 as [E4 E5]. go_bools.
  assert (Hop : is_open s).
  { unfold step_statuses in Hs. rewrite !elem_of_cons, elem_of_nil in Hs. unfold is_open, is_pending, inFlight.
    destruct Hs as [->|[->|[->|Hs]]]; [by left|by right..|naive_solver]. }
  simpl in Ho. rewrite open_not_passed in Ho by done. intros [|j] t Ht; simpl in Ht; simplify_eq; [by right|].
  right. left. rewrite Forall_lookup in Ho. eauto.
Qed.

Lemma wp_runNode v : wpn (runNode message_text SplitHostPort ParseIP_String r id) v (outcome_ok r).
Proof.
  unfold runNode. apply wp_bind. unfold newRecord, record. apply wp_call; intros rec0 Hrec0; split; [done|].
  apply wp_ret. change (default 0%nat (rr_StartAt (rc_run r) !! id)) with (start_at r id).
  change (new_steps r (rn_Steps rec0) (start_at r id)) with (filled r id rec0).
  set (rec := set_steps rec0 (filled r id rec0)). set (v1 := mn_next (node_monitor r id) v _).
  assert (Hv1 : vw_rec v1 = Some rec) by done. assert (Hok : steps_ok (rn_Steps rec)) by exact (Hrec0 eq_refl).
  clearbody v1. clearbody rec. clear rec0 Hrec0. apply wp_bind. unfold closeFromRecord.
  pose proof (close_steps_spec 0 (rn_Steps rec) (so_ordered _ _ _ Hok) (so_status _ _ _ Hok)) as Hclose.
  destruct (close_steps r 0 (rn_Steps rec)) as [status reason| |].
  - apply wp_bind. eapply wp_mono; [|intros out v2 Hout; apply wp_ret, wp_ret; exact Hout].
    apply wp_fail_same; [done..| |].
    + unfold ends. destruct Hclose as [->|(j & s & _ & [[-> _]|[-> _]])]; set_solver.
    + destruct Hclose as [->|(j & s & Hj & [[-> Hs]|[-> Hs]])]; [by right; right; left| |].
      * do 3 right. left. split; [done|]. by exists j, s.
      * do 5 right. split; [done|]. left. by exists j, s.
  - apply wp_bind, wp_write.
    + eapply write_same_ok; [done..|]. by right; left.
    + intros v2 Hv2. apply wp_ret, wp_ret. right. by eexists.
    + intros v2. apply wp_ret, wp_ret. by left.
  - apply wp_ret. destruct (rc_nodes r !! id) as [n|] eqn:Hn.
    2: { apply wp_fail_same; [done..|unfold ends; set_solver|by right; right; left]. }
    cbv zeta. match goal with |- wp _ _ (if _ then ?g else _) _ _ => set (go := g) end.
    assert (Hgo : forall v', same_rec v1 v' -> wpn go v' (outcome_ok r)).
    { intros v' Hv'. assert (Hr' : vw_rec v' = Some rec) by (by rewrite Hv').
      unfold go. destruct (Render _ _ _) as [specs|e] eqn:Er.
      2: { apply wp_fail_same; [done..|unfold ends; set_solver|by right; right; left]. }
      apply wp_bind, wp_write; [eapply write_same_ok; [done..|by left]| |by left].
      intros v2 Hv2. apply wp_run_steps; [done| |].
      - split_and!; [done..|intros; lia|]. intros j s Hj. exact (Hclose j s Hj).
      - apply Render_kinds in Er as [Hl Hs]. split; [done|]. intros k sp Hk.
        destruct (Hs k sp Hk) as (Hst & st & Hst2 & Hkd). split; [done|].
        unfold step_kind, the_step. simpl. by rewrite Hst2. }
    clearbody go. destruct (existsb _ _); [by apply Hgo|].
    assert (Hoff : forall v' why, same_rec v1 v' -> wpn (fail id rec RunNodeFailed why) v' (outcome_ok r)).
    { intros v' why Hv'. apply wp_fail_same; [by rewrite Hv'|done|unfold ends; set_solver|by right; right; left]. }
    assert (Haway : forall v' (offline : bool), same_rec v1 v' ->
      wpn (if offline then fail id rec RunNodeFailed "the node was offline when its turn came"
           else away <-- do_call (Unreachable id) ;;
                if away : bool then fail id rec RunNodeFailed "this leader does not reach the node" else go)%prog
        v' (outcome_ok r)).
    { intros v' [] Hv'; [by apply Hoff|]. apply wp_call; intros away _; split; [done|].
      destruct away; [by apply Hoff|by apply Hgo]. }
    apply wp_bind. destruct (negb (id ==s rc_local r)); [|by apply Haway].
    apply wp_bind. apply wp_call; intros health _; split; [done|]. by apply Haway.
Qed.

(** Every execution keeps to the protocol, and its outcome is the record's. *)
Lemma runNode_watched tr o :
  exec (runNode message_text SplitHostPort ParseIP_String r id) tr o -> Forall (relied r id) tr ->
  watch (node_monitor r id) no_view tr /\
  forall out, o = Some out -> outcome_ok r out (fold_left (seen r id) tr no_view).
Proof. apply (wp_sound _ (node_monitor r id)), wp_runNode. Qed.

(** What has been seen when the last action of a trace is done. *)
Definition seen_by (tr : list action) : view := fold_left (seen r id) tr no_view.

Lemma runNode_allowed tr1 a tr2 o :
  exec (runNode message_text SplitHostPort ParseIP_String r id) (tr1 ++ a :: tr2) o ->
  Forall (relied r id) (tr1 ++ a :: tr2) -> allowed r id (seen_by tr1) a.
Proof. intros He HR. destruct (runNode_watched _ _ He HR) as [Hw _]. by apply watch_at in Hw. Qed.

(** C1: a job is posted only for a step the node's record, as last written
    and acknowledged by the store, has starting, under the job ID and with
    the kind and the confirmation that step has, on behalf of who started
    the run; every step before it is passed, so the node runs one step at a
    time and in order, and a leader that takes over finds the job by its
    ID. *)
Theorem runNode_posts_recorded tr1 tr2 o node spec user x :
  exec (runNode message_text SplitHostPort ParseIP_String r id) (tr1 ++ act (StartJob node spec user) x :: tr2) o ->
  Forall (relied r id) (tr1 ++ act (StartJob node spec user) x :: tr2) ->
  node = id /\ user = rr_StartedBy (rc_run r) /\
  exists rec i s, vw_rec (seen_by tr1) = Some rec /\ rn_Status rec = RunNodeRunning /\
    rn_Steps rec !! i = Some s /\ rs_Status s = RunStepStarting /\
    (forall j t, (j < i)%nat -> rn_Steps rec !! j = Some t -> passed j t = true) /\
    (forall j t, (i < j)%nat -> rn_Steps rec !! j = Some t -> rs_Status t = RunStepPending) /\
    js_ID spec = jobID (runID r) i /\ js_RunID spec = runID r /\ js_Step spec = Z.of_nat i /\
    js_Kind spec = sp_Kind (the_step r i) /\ js_Confirmed spec = bool_decide (i ∈ rr_Confirmed (rc_run r)).
Proof.
  intros He HR. destruct (runNode_allowed _ _ _ _ He HR) as (-> & -> & rec & i & s & H1 & H2 & H3 & H4 & H5 & H6 & H7).
  split_and!; [done..|]. exists rec, i, s. split_and!; try done; try apply H7.
  apply (ordered_turn _ _ s); [apply H3|done| |done]. apply in_flight_not_passed. by rewrite H5.
Qed.

(** C12: a step is recorded starting only after the head read last from the
    store was not a stopping one; and the restart of a manager only when the
    managers left by the last health and membership seen keep their
    quorum. *)
Theorem runNode_starts_judged tr1 tr2 o node rec' ok i s rec t :
  exec (runNode message_text SplitHostPort ParseIP_String r id) (tr1 ++ act (PutRunNodeRec node rec') ok :: tr2) o ->
  Forall (relied r id) (tr1 ++ act (PutRunNodeRec node rec') ok :: tr2) ->
  rn_Steps rec' !! i = Some s -> rs_Status s = RunStepStarting ->
  vw_rec (seen_by tr1) = Some rec -> rn_Steps rec !! i = Some t -> rs_Status t <> RunStepStarting ->
  rs_Status t = RunStepPending /\
  (exists h, vw_head (seen_by tr1) = Some h /\ rr_Status h <> RunStopping) /\
  (forall n, sp_Kind (the_step r i) = StepReboot -> rc_nodes r !! id = Some n -> IsManager n = true ->
     quorum_without (vw_health (seen_by tr1)) (vw_nodes (seen_by tr1)) id = true).
Proof.
  intros He HR Hs Es Hrec Ht Et. destruct (runNode_allowed _ _ _ _ He HR) as (_ & rec1 & Hr1 & _ & _ & Hmv).
  simplify_eq. destruct (Hmv _ _ Ht) as (s' & Hs' & Hm). simplify_eq.
  destruct Hm as [|? h E1 E2 E3 E4 E5 E6 E7|? ? ? E|? ? E|? ? E|? E|? ? ? E]; try congruence.
  - split_and!; [done|by exists h|]. intros n Hk Hn Hmg. exact (E7 Hk n Hn Hmg).
  - by rewrite Es in E.
  - rewrite Es in E. set_unfold in E. naive_solver.
Qed.

(** C28: each write of the node's record moves every step as the state
    machine of a step allows, leaves one a next leader may rely on, and
    never changes a step that has ended. *)
Theorem runNode_writes_move tr1 tr2 o node rec' ok :
  exec (runNode message_text SplitHostPort ParseIP_String r id) (tr1 ++ act (PutRunNodeRec node rec') ok :: tr2) o ->
  Forall (relied r id) (tr1 ++ act (PutRunNodeRec node rec') ok :: tr2) ->
  node = id /\ rec_ok r id rec' /\ status_ok r (seen_by tr1) rec' /\
  exists rec, vw_rec (seen_by tr1) = Some rec /\
    forall i s, rn_Steps rec !! i = Some s -> exists s', rn_Steps rec' !! i = Some s' /\
      step_move r id (seen_by tr1) (rn_Steps rec) i s s' /\ (~ is_open s -> s' = s).
Proof.
  intros He HR. destruct (runNode_allowed _ _ _ _ He HR) as (-> & rec & Hrec & Hok & Hst & Hmv).
  split_and!; [done|by apply steps_ok_rec_ok|done|]. exists rec. split; [done|]. intros i s Hs.
  destruct (Hmv _ _ Hs) as (s' & Hs' & Hm). exists s'. split_and!; [done..|]. intros Hno.
  unfold is_open, is_pending, inFlight in Hno.
  destruct Hm as [|? h E|? ? E|? E|? E|? E|? E]; [done|exfalso; apply Hno; rewrite E..]; auto.
Qed.

(** A job is cancelled only in a run stopped by force, only while its
    step is recorded running, and only a command's or a restart's. *)
Theorem runNode_cancels_forced tr1 tr2 o node job user x :
  exec (runNode message_text SplitHostPort ParseIP_String r id) (tr1 ++ act (CancelJob node job user) x :: tr2) o ->
  Forall (relied r id) (tr1 ++ act (CancelJob node job user) x :: tr2) ->
  node = id /\ exists rec i s h, vw_rec (seen_by tr1) = Some rec /\ rn_Steps rec !! i = Some s /\
    rs_Status s = RunStepRunning /\ job = jobID (runID r) i /\
    (sp_Kind (the_step r i) = StepCommand \/ sp_Kind (the_step r i) = StepReboot) /\
    vw_cached (seen_by tr1) = Some h /\ rr_Status h = RunStopping /\ rr_Force h = true.
Proof.
  intros He HR. destruct (runNode_allowed _ _ _ _ He HR) as (-> & rec & i & s & h & H1 & H2 & H3 & H4 & H5 & H6).
  split; [done|]. exists rec, i, s, h. split_and!; try done; try apply H6.
  unfold cancellable in H5. apply orb_true_iff in H5 as [H5|H5]; apply String.eqb_eq in H5; auto.
Qed.

(** What the runner says of a node is what the node's record says, as
    the store last acknowledged it; a node done has passed every step. *)
Theorem runNode_outcome_recorded tr out :
  exec (runNode message_text SplitHostPort ParseIP_String r id) tr (Some out) -> Forall (relied r id) tr ->
  out = nodeAbandoned \/
  exists rec, vw_rec (seen_by tr) = Some rec /\ outcome_status out (rn_Status rec) /\
    (out = nodeDone -> forall i s, rn_Steps rec !! i = Some s -> passed i s = true).
Proof. intros He HR. destruct (runNode_watched _ _ He HR) as [_ Hout]. by apply Hout. Qed.
End Facts.
