(* ===== verification/TaskRerun.v ===== *)
(** * Running a run again (internal/feature/tasks/rerun.go)

    A new run over some of a run's nodes, each started at its first step that
    did not succeed; with the runner, no step before it is posted again. *)

From S2P Require Import Prelude GoStrings GoTime TaskModel TaskRefs TaskRender ClusterFSM ClusterTaskStore.
From S2P Require Import TaskPlan ApiCodes Interact RunProg TaskRun TaskRunSpec TaskRunFacts.

Fixpoint first_from (i : nat) (steps : list RunStepRecord) : nat :=
  match steps with
  | [] => 0
  | s :: steps => if negb (rs_Status s ==s RunStepSucceeded) then i else first_from (S i) steps
  end.
Definition firstUnsuccessful (rec : RunNodeRecord) : nat := first_from 0 (rn_Steps rec).

Definition rerunFrom (src : RunRecord) (nodes : gmap string RunNodeRecord) (only : list string)
    : RunRecord * gmap string nat :=
  let chosen := List.filter (slices_contains only) in
  let order := concat (map chosen (rr_Waves src)) in
  let waves := List.filter (fun w => negb (bool_decide (w = []))) (map chosen (rr_Waves src)) in
  let startAt := foldl (fun m id => <[id := firstUnsuccessful (default zero_rec (nodes !! id))]> m) ∅ order in
  (mkRunRecord "" "" (rr_TaskID src) (rr_TaskName src) (rr_Rev src) (rr_Inputs src) order waves (rr_Confirmed src)
     (rr_Batch src) (rr_StopOnFailure src) RunRunning "" false "" "" 0 0 (rr_ID src) startAt 0, startAt).

(** ** The first step that did not succeed *)

Lemma first_from_spec i steps :
  (first_from i steps = 0%nat /\ Forall (fun s => rs_Status s = RunStepSucceeded) steps) \/
  exists j s, first_from i steps = (i + j)%nat /\ steps !! j = Some s /\ rs_Status s <> RunStepSucceeded /\
    Forall (fun s => rs_Status s = RunStepSucceeded) (take j steps).
Proof.
  revert i. induction steps as [|s steps IH]; intros i; simpl; [by left|].
  destruct (rs_Status s ==s RunStepSucceeded) eqn:E; go_bools; simpl.
  - destruct (IH (S i)) as [[H1 H2]|(j & t & H1 & H2 & H3 & H4)].
    + left. split; [done|by constructor].
    + right. exists (S j), t. split_and!; [lia|done..|by constructor].
  - right. exists 0%nat, s. rewrite Nat.add_0_r. by split_and!; [..|constructor].
Qed.

Lemma firstUnsuccessful_spec rec :
  (firstUnsuccessful rec = 0%nat /\ Forall (fun s => rs_Status s = RunStepSucceeded) (rn_Steps rec)) \/
  exists s, rn_Steps rec !! firstUnsuccessful rec = Some s /\ rs_Status s <> RunStepSucceeded /\
    Forall (fun s => rs_Status s = RunStepSucceeded) (take (firstUnsuccessful rec) (rn_Steps rec)).
Proof.
  unfold firstUnsuccessful. destruct (first_from_spec 0 (rn_Steps rec)) as [?|(j & s & E & ?)]; [by left|right].
  simpl in E. rewrite E. by exists s.
Qed.

(** ** The new run *)

Lemma foldl_insert_lookup {A} (f : string -> A) (l : list string) (m : gmap string A) id :
  foldl (fun m id => <[id := f id]> m) m l !! id = if decide (id ∈ l) then Some (f id) else m !! id.
Proof.
  revert m. induction l as [|x l IH]; intros m; cbn [foldl]; [by rewrite decide_False by apply not_elem_of_nil|].
  rewrite IH. destruct (decide (id ∈ l)) as [|Hn]; [by rewrite decide_True by (by right)|].
  destruct (decide (id = x)) as [->|Hne].
  - rewrite decide_True by (by left). apply lookup_insert_eq.
  - rewrite decide_False by (rewrite elem_of_cons; tauto). by apply lookup_insert_ne.
Qed.

Lemma rerun_StartAt src nodes only id :
  rr_StartAt (rerunFrom src nodes only).1 !! id =
  if decide (id ∈ rr_Nodes (rerunFrom src nodes only).1)
  then Some (firstUnsuccessful (default zero_rec (nodes !! id))) else None.
Proof. unfold rerunFrom. simpl. by rewrite foldl_insert_lookup, lookup_empty. Qed.

Lemma concat_nonempty {A} `{EqDecision A} (ll : list (list A)) :
  concat (List.filter (fun w => negb (bool_decide (w = []))) ll) = concat ll.
Proof. induction ll as [|l ll IH]; simpl; [done|]. case_bool_decide; simpl; rewrite IH; [by subst|done]. Qed.

(** The new run is of the same document with the same inputs and confirmed
    steps; its nodes are those chosen of the source's waves, in the same order,
    in waves of which none is empty; and each starts at its first step that did
    not succeed, or from the start when every step had. *)
Theorem rerunFrom_spec src nodes only :
  let run := (rerunFrom src nodes only).1 in
  rr_Rev run = rr_Rev src /\ rr_Inputs run = rr_Inputs src /\ rr_Confirmed run = rr_Confirmed src /\
  rr_RerunOf run = rr_ID src /\
  concat (rr_Waves run) = rr_Nodes run /\ [] ∉ rr_Waves run /\
  rr_Nodes run = List.filter (slices_contains only) (concat (rr_Waves src)) /\
  forall id, id ∈ rr_Nodes run -> exists k, rr_StartAt run !! id = Some k /\
    let steps := rn_Steps (default zero_rec (nodes !! id)) in
    (k = 0%nat /\ Forall (fun s => rs_Status s = RunStepSucceeded) steps) \/
    exists s, steps !! k = Some s /\ rs_Status s <> RunStepSucceeded /\
      Forall (fun s => rs_Status s = RunStepSucceeded) (take k steps).
Proof.
  cbv zeta. split_and!; try done.
  - simpl. apply concat_nonempty.
  - simpl. rewrite list_elem_of_In, List.filter_In. by intros [_ H].
  - simpl. induction (rr_Waves src) as [|w ws IH]; simpl; [done|]. by rewrite IH, List.filter_app.
  - intros id Hid. exists (firstUnsuccessful (default zero_rec (nodes !! id))).
    split; [by rewrite rerun_StartAt, decide_True|]. apply firstUnsuccessful_spec.
Qed.

(** The runner of a rerun posts none of the steps a node had succeeded in before its
    first unsuccessful one, whatever the order and the rest of the run have
    become. *)
Theorem rerun_posts_unsuccessful message_text SplitHostPort ParseIP_String r src nodes only id tr1 tr2 o node spec user x :
  rr_StartAt (rc_run r) = rr_StartAt (rerunFrom src nodes only).1 -> id ∈ rr_Nodes (rerunFrom src nodes only).1 ->
  exec (runNode message_text SplitHostPort ParseIP_String r id) (tr1 ++ act (StartJob node spec user) x :: tr2) o ->
  Forall (relied r id) (tr1 ++ act (StartJob node spec user) x :: tr2) ->
  exists i, js_Step spec = Z.of_nat i /\ (firstUnsuccessful (default zero_rec (nodes !! id)) <= i)%nat.
Proof.
  intros Hst Hid He HR.
  destruct (runNode_allowed _ _ _ _ _ _ _ _ _ He HR) as (-> & -> & rec & i & s & _ & _ & Hok & Hs & Es & _ & _ & _ & Hi & _).
  exists i. split; [done|]. assert (Hle : (start_at r id <= i)%nat).
  { eapply so_start; [exact Hok|done|]. right. by rewrite Es. }
  unfold start_at in Hle. rewrite Hst, rerun_StartAt, decide_True in Hle by done. done.
Qed.
