(* ===== verification/TaskSupervise.v ===== *)
(** * The supervisor of a cluster's runs (internal/feature/tasks/supervise.go)

    One look of the leader at the runs of the store: a runner for each task
    run in progress, an end for an agent install no session here runs, and no
    runner at all on a node that does not lead.  The store is any [RunStore];
    a look's writes under [headMu] are not interleaved with a runner's. *)

From S2P Require Import Prelude GoStrings GoTime TaskModel TaskYaml ClusterFSM.
From S2P Require Import ClusterTaskStore RunStore Interact RunProg ApiCodes TaskRun.

(** A row of the audit log. *)
Record AuditEvent : Type := mkAuditEvent {
  ae_User : string; ae_Method : string; ae_Path : string; ae_Status : Z; ae_Node : string;
}.
Definition taskRunsAuditPath : string := "/api/v1/cluster/task-runs/".
Definition auditEnd (node : string) (run : RunRecord) : AuditEvent :=
  mkAuditEvent (rr_StartedBy run) "TASK" (taskRunsAuditPath +:+ rr_ID run +:+ "#end:" +:+ rr_Status run) 200 node.

(** The run ended as a left install is; its credentials time cleared. *)
Definition clear_credentials (h : RunRecord) : RunRecord :=
  mkRunRecord (rr_ID h) (rr_Kind h) (rr_TaskID h) (rr_TaskName h) (rr_Rev h) (rr_Inputs h) (rr_Nodes h) (rr_Waves h)
    (rr_Confirmed h) (rr_Batch h) (rr_StopOnFailure h) (rr_Status h) (rr_Reason h) (rr_Force h) (rr_StoppedBy h)
    (rr_StartedBy h) (rr_StartedAt h) (rr_EndedAt h) (rr_RerunOf h) (rr_StartAt h) 0.
Definition left_head (h : RunRecord) (now : Time) : RunRecord :=
  clear_credentials (set_head h RunFailed ErrAgentInstallLeaderChanged now).

Definition installStep : nat := 2.
Definition installBegan (rec : RunNodeRecord) : bool :=
  match rn_Steps rec !! installStep with
  | None => false
  | Some s => negb (rs_Status s ==s RunStepPending) && negb (rs_Status s ==s RunStepSkipped)
  end.

(** A row that has not ended. *)
Definition row_open (rec : RunNodeRecord) : bool :=
  (rn_Status rec ==s RunNodePending) || (rn_Status rec ==s RunNodeRunning).

Section Supervise.
Context {E S : Type} `{!RunStore E S}.
Variable SplitHostPort : string -> option string.
(** [net.ParseIP] and [IP.String]: the address in its one text. *)
Variable ParseIP_String : string -> option string.

(** What a look goes by; [le_owns] is [None] with no agent installs here. *)
Record look_env : Type := mkLookEnv {
  le_store : E;
  le_manager : bool;                       (* newEnv() is not nil *)
  le_caughtUp : bool;
  le_done : bool;                          (* ctx.Err() is not nil *)
  le_owns : option (string -> bool);
  le_now : Time;
  le_nodes : list Node;
  le_local : string;
}.

(** The handler's part: its store, its runners and whether each was told to
    stop, those it started in this look, and the audit log. *)
Record handler : Type := mkHandler {
  hd_store : S;
  hd_runners : gmap string bool;
  hd_started : list RunRecord;
  hd_audit : list AuditEvent;
}.
Definition with_store (h : handler) (s : S) : handler := mkHandler s (hd_runners h) (hd_started h) (hd_audit h).

Definition AgentAt (nodes : list Node) (ip : option string) : option Node :=
  match ip with
  | None => None
  | Some ip =>
      List.find (fun n => negb (IsManager n) &&
        existsb (fun a => match ParseIP_String a with Some p => p ==s ip | None => false end)
          (AllAddresses SplitHostPort ParseIP_String n)) nodes
  end.

Variable e : look_env.
Definition owned (id : string) : bool := match le_owns e with Some f => f id | None => false end.

Definition hasRunner (h : handler) (id : string) : bool := if hd_runners h !! id is Some _ then true else false.

Definition stopRunners (h : handler) : handler :=
  mkHandler (hd_store h) ((fun _ => true) <$> hd_runners h) (hd_started h) (hd_audit h).

(** [launch]: the runner's entry, its goroutine started ([run_body]). *)
Definition launch (h : handler) (run : RunRecord) : handler * bool :=
  if negb (le_manager e) then (h, false)
  else if le_done e then (h, false)
  else if hasRunner h (rr_ID run) then (h, false)
  else (mkHandler (hd_store h) (<[rr_ID run := false]> (hd_runners h)) (hd_started h ++ [run]) (hd_audit h), true).

Definition resumeHandedOver (s : S) (id : string) : S * result StoreError RunRecord :=
  match st_get s id with
  | Err err => (s, Err err)
  | Ok (head, _) =>
      if rr_Status head ==s RunHandingOver then
        let head := set_head_status head RunRunning in
        match st_put (le_store e) s head with
        | (s, Some err) => (s, Err err)
        | (s, None) => (s, Ok head)
        end
      else (s, Ok head)
  end.

(** ** Agent installs left behind *)

Definition end_left_step (s : RunStepRecord) : RunStepRecord :=
  if inFlight (rs_Status s) then
    mkRunStepRecord RunStepUnknown (rs_JobID s) (rs_Summary s) (rs_Changed s) (rs_StartedAt s) (le_now e)
  else s.
Definition left_node_id (rec : RunNodeRecord) : string :=
  if (rn_NodeID rec ==s "") && installBegan rec then
    match AgentAt (le_nodes e) (ParseIP_String (rn_IP rec)) with Some a => nd_ID a | None => rn_NodeID rec end
  else rn_NodeID rec.
Definition end_left_row (rec : RunNodeRecord) : RunNodeRecord :=
  mkRunNodeRecord RunNodeFailed ErrAgentInstallLeaderChanged (rn_ReasonDetails rec) (map end_left_step (rn_Steps rec))
    (rn_Host rec) (rn_IP rec) (rn_Name rec) (rn_Group rec) (left_node_id rec) (rn_SFPanelBefore rec) ""
    (rn_HostKey rec) "" (rn_HostKeyTailscale rec).

Fixpoint end_left_rows (s : S) (id : string) (recs : gmap string RunNodeRecord) (keys : list string)
    : S * option StoreError :=
  match keys with
  | [] => (s, None)
  | key :: keys =>
      let rec := default zero_rec (recs !! key) in
      if (if recs !! key is Some _ then true else false) && negb (row_open rec) then end_left_rows s id recs keys
      else
        match st_put_node (le_store e) s id key (end_left_row rec) with
        | (s, Some err) => (s, Some err)
        | (s, None) => end_left_rows s id recs keys
        end
  end.

(** The writes of [endLeftInstall]; [None] for a run that is not its own. *)
Definition end_left_writes (s : S) (id : string) : S * result StoreError (option RunRecord) :=
  match st_get s id with
  | Err err => (s, Err err)
  | Ok (head, recs) =>
      if negb (Active head) || owned id then (s, Ok None)
      else
        match end_left_rows s id recs (rr_Nodes head) with
        | (s, Some err) => (s, Err err)
        | (s, None) =>
            match st_put (le_store e) s (left_head head (le_now e)) with
            | (s, Some err) => (s, Err err)
            | (s, None) => (s, Ok (Some (left_head head (le_now e))))
            end
        end
  end.

Definition endLeftInstall (h : handler) (id : string) : handler * option StoreError :=
  match end_left_writes (hd_store h) id with
  | (s, Err err) => (with_store h s, Some err)
  | (s, Ok None) => (with_store h s, None)
  | (s, Ok (Some head)) =>
      let s := (st_prune (le_store e) s keepRuns).1 in
      (mkHandler s (hd_runners h) (hd_started h) (hd_audit h ++ [auditEnd (le_local e) head]), None)
  end.

Definition clearLeftCredentials (s : S) (id : string) : S * option StoreError :=
  match st_get s id with
  | Err err => (s, Some err)
  | Ok (head, _) =>
      if Active head || IsZero (rr_CredentialsUntil head) then (s, None)
      else if owned id then (s, None)
      else st_put (le_store e) s (clear_credentials head)
  end.

(** ** One look *)

Definition supervise_run (h : handler) (run : RunRecord) : handler :=
  if negb (Active run) && (rr_Kind run ==s RunKindAgentInstall) && negb (IsZero (rr_CredentialsUntil run)) then
    with_store h (clearLeftCredentials (hd_store h) (rr_ID run)).1
  else if negb (Active run) || hasRunner h (rr_ID run) then h
  else if rr_Kind run ==s RunKindAgentInstall then
    if owned (rr_ID run) then h else (endLeftInstall h (rr_ID run)).1
  else if rr_Status run ==s RunHandingOver then
    match resumeHandedOver (hd_store h) (rr_ID run) with
    | (s, Err _) => with_store h s
    | (s, Ok run) => (launch (with_store h s) run).1
    end
  else (launch h run).1.

Definition superviseOnce (h : handler) : handler :=
  if negb (le_caughtUp e) then stopRunners h
  else
    match st_list (hd_store h) with
    | Err _ => h
    | Ok runs => fold_left supervise_run runs h
    end.
End Supervise.

(** The goroutine of a runner: the run as it ended, if it is this node's to
    audit. *)
#[local] Open Scope prog_scope.
Definition run_body `{YamlLib} (message_text : message -> string) (SplitHostPort ParseIP_String : string -> option string)
    (local : string) (fuel : nat) (run : RunRecord) : prog (option AuditEvent) :=
  head <-- do_call GetRunHead ;;
  match head with
  | None => Ret None
  | Some h =>
      if negb (Active h) then Ret None
      else
        ended <-- runTask message_text SplitHostPort ParseIP_String local fuel run ;;
        match ended with
        | RunAbandoned | RunUnreadable => Ret None
        | RunEnded | RunHanded =>
            head <-- do_call GetRunHead ;;
            Ret (match head with
                 | Some h => if Active h then None else Some (auditEnd local h)
                 | None => None
                 end)
        end
  end.
