(* ===== verification/TaskSuperviseFacts.v ===== *)
(** * What a look of the supervisor leaves *)

From S2P Require Import Prelude GoStrings GoTime TaskModel TaskYaml ClusterFSM.
From S2P Require Import ClusterTaskStore RunStore Interact RunProg ApiCodes TaskRun TaskSupervise.

Section Supervise.
Context {E St : Type} `{!RunStore E St}.
Variable SplitHostPort : string -> option string.
Variable ParseIP_String : string -> option string.
Notation end_left_row := (end_left_row SplitHostPort ParseIP_String).
Notation end_left_rows := (end_left_rows SplitHostPort ParseIP_String).
Notation end_left_writes := (end_left_writes SplitHostPort ParseIP_String).
Notation endLeftInstall := (endLeftInstall SplitHostPort ParseIP_String).
Notation supervise_run := (supervise_run SplitHostPort ParseIP_String).
Notation superviseOnce := (superviseOnce SplitHostPort ParseIP_String).
Variable e : look_env (E := E).
Implicit Types (h : handler (S := St)) (s : St).

(** ** Runners *)

(** The runners of [h] are still [h']'s, and each started since is of a run
    that had none. *)
Definition grown h h' : Prop :=
  (forall id c, hd_runners h !! id = Some c -> hd_runners h' !! id = Some c) /\
  exists l, hd_started h' = hd_started h ++ l /\ NoDup (map rr_ID l) /\
    forall run, run ∈ l -> hd_runners h !! rr_ID run = None /\ hd_runners h' !! rr_ID run = Some false.

Lemma grown_same h h' : hd_runners h' = hd_runners h -> hd_started h' = hd_started h -> grown h h'.
Proof.
  intros Hr Hs. split; [by rewrite Hr|]. exists []. rewrite app_nil_r. split_and!; [done|constructor|].
  by intros ? ?%elem_of_nil.
Qed.

#[local] Instance grown_preorder : PreOrder grown.
Proof.
  split; [intros h; by apply grown_same|]. intros h1 h2 h3 [H12 (l & El & Hl & Hin)] [H23 (l' & El' & Hl' & Hin')].
  split; [auto|]. exists (l ++ l'). rewrite El', El, app_assoc. split; [done|]. split.
  - rewrite map_app, NoDup_app. split_and!; [done| |done]. intros id (r & -> & Hr)%list_elem_of_fmap (r' & Eid & Hr')%list_elem_of_fmap.
    apply Hin in Hr as [_ Hr]. apply Hin' in Hr' as [Hr' _]. congruence.
  - intros run [Hr|Hr]%elem_of_app; [apply Hin in Hr as [? ?]; auto|]. apply Hin' in Hr as [Hn Hr]. split; [|done].
    destruct (hd_runners h1 !! rr_ID run) as [c|] eqn:E1; [|done]. apply H12 in E1. congruence.
Qed.

Lemma hasRunner_spec h id : hasRunner h id = true <-> is_Some (hd_runners h !! id).
Proof. unfold hasRunner. destruct (hd_runners h !! id); split; eauto; try done; by intros [? ?]. Qed.

Lemma hasRunner_grown h h' id : grown h h' -> hasRunner h id = true -> hasRunner h' id = true.
Proof. rewrite !hasRunner_spec. intros [Hg _] [c Hc]. eauto. Qed.

Lemma launch_grown h run : grown h (launch e h run).1.
Proof.
  unfold launch. repeat case_match; try by apply grown_same. simpl. unfold hasRunner in *.
  destruct (hd_runners h !! rr_ID run) eqn:Er; [done|]. split; simpl.
  - intros id c Hc. rewrite lookup_insert_ne; [done|congruence].
  - exists [run]. split_and!; [done|by apply NoDup_singleton|]. intros ? ->%list_elem_of_singleton.
    by rewrite lookup_insert_eq.
Qed.

Lemma launch_has h run :
  le_manager e = true -> le_done e = false -> hasRunner (launch e h run).1 (rr_ID run) = true.
Proof.
  intros Hm Hd. unfold launch. rewrite Hm, Hd. cbn [negb]. destruct (hasRunner h (rr_ID run)) eqn:Er; [done|].
  apply hasRunner_spec. simpl. rewrite lookup_insert_eq. by eexists.
Qed.

Lemma endLeftInstall_runners h id :
  hd_runners (endLeftInstall e h id).1 = hd_runners h /\ hd_started (endLeftInstall e h id).1 = hd_started h.
Proof. unfold TaskSupervise.endLeftInstall. by repeat case_match. Qed.

Lemma supervise_run_grown h run : grown h (supervise_run e h run).
Proof.
  unfold TaskSupervise.supervise_run.
  repeat case_match; try by apply grown_same; try apply launch_grown.
  - apply grown_same; apply endLeftInstall_runners.
  - etrans; [|apply launch_grown]. by apply grown_same.
  - apply launch_grown.
Qed.

Lemma supervise_fold_grown h runs : grown h (fold_left (supervise_run e) runs h).
Proof.
  revert h. induction runs as [|run runs IH]; intros h; [reflexivity|]. simpl.
  etrans; [apply supervise_run_grown|apply IH].
Qed.

(** A run handed over that was not put back: its record could not be read or
    written. *)
Definition not_resumed (id : string) : Prop := exists s err, (resumeHandedOver e s id).2 = Err err.

(** The runner a run in progress gets: its own, or the one of its latest
    record. *)
Definition run_covered h (run : RunRecord) : Prop :=
  hasRunner h (rr_ID run) = true \/
  rr_Status run = RunHandingOver /\
  exists s head, (resumeHandedOver e s (rr_ID run)).2 = Ok head /\ hasRunner h (rr_ID head) = true.

Lemma supervise_run_covers h run :
  le_manager e = true -> le_done e = false -> Active run = true -> rr_Kind run <> RunKindAgentInstall ->
  run_covered (supervise_run e h run) run \/ rr_Status run = RunHandingOver /\ not_resumed (rr_ID run).
Proof.
  intros Hm Hd Ha Hk. unfold TaskSupervise.supervise_run, run_covered, not_resumed. rewrite Ha. cbn [negb andb orb].
  apply String.eqb_neq in Hk. rewrite Hk. destruct (hasRunner h (rr_ID run)) eqn:Er; [by left; left|].
  destruct (rr_Status run ==s RunHandingOver) eqn:Es; [|left; left; by apply launch_has].
  apply String.eqb_eq in Es. destruct (resumeHandedOver e (hd_store h) (rr_ID run)) as [s [head|err]] eqn:Eh.
  - left. right. split; [done|]. exists (hd_store h), head. rewrite Eh. split; [done|]. by apply launch_has.
  - right. split; [done|]. exists (hd_store h), err. by rewrite Eh.
Qed.

(** A look of a leader that is not caught up writes nothing and tells
    every runner of its node to stop.  A look of one that is keeps every
    runner, starts one for no run that has one and no two for one run, and
    leaves each task run in progress of the list with a runner, but for one
    handed over whose record could not be read or put back to running. *)
Theorem superviseOnce_runners h h' :
  hd_started h = [] -> superviseOnce e h = h' ->
  if le_caughtUp e then
    (forall id c, hd_runners h !! id = Some c -> hd_runners h' !! id = Some c) /\
    NoDup (map rr_ID (hd_started h')) /\
    (forall run, run ∈ hd_started h' -> hd_runners h !! rr_ID run = None) /\
    (le_manager e = true -> le_done e = false -> forall runs, st_list (hd_store h) = Ok runs ->
       forall run, run ∈ runs -> Active run = true -> rr_Kind run <> RunKindAgentInstall ->
       run_covered h' run \/ rr_Status run = RunHandingOver /\ not_resumed (rr_ID run))
  else
    hd_store h' = hd_store h /\ hd_audit h' = hd_audit h /\ hd_started h' = [] /\
    forall id c, hd_runners h' !! id = Some c -> c = true.
Proof.
  intros Hs <-. unfold TaskSupervise.superviseOnce. destruct (le_caughtUp e); cbn [negb].
  - set (h' := match st_list (hd_store h) with Ok runs => fold_left (supervise_run e) runs h | Err _ => h end).
    assert (Hg : grown h h') by (unfold h'; destruct (st_list (hd_store h)); [apply supervise_fold_grown|reflexivity]).
    destruct Hg as [Hk (l & El & Hl & Hin)]. rewrite Hs in El. simpl in El. rewrite El.
    split_and!; [done|done|by intros run Hr; apply Hin|]. intros Hm Hd runs Er. unfold h'. rewrite Er.
    clear h' Hk l El Hl Hin Er Hs. revert h. induction runs as [|run runs IH]; intros h r Hr Ha Hkind; [by apply elem_of_nil in Hr|].
    apply elem_of_cons in Hr as [->|Hr]; [|by apply IH]. simpl.
    destruct (supervise_run_covers h run Hm Hd Ha Hkind) as [[Hc|(Es & s & head & Eh & Hc)]|?]; [..|by right]; left.
    + left. eapply hasRunner_grown; [apply supervise_fold_grown|done].
    + right. split; [done|]. exists s, head. split; [done|]. eapply hasRunner_grown; [apply supervise_fold_grown|done].
  - simpl. split_and!; auto. intros id c Hc. rewrite lookup_fmap in Hc.
    destruct (hd_runners h !! id); by simplify_eq/=.
Qed.

(** ** Agent installs *)

(** A row [end_left_rows] ends: one that has not ended, or is missing. *)
Definition left_open (recs : gmap string RunNodeRecord) (k : string) : Prop :=
  forall rec, recs !! k = Some rec -> row_open rec = true.
Definition left_row (recs : gmap string RunNodeRecord) (k : string) : RunNodeRecord :=
  end_left_row e (default zero_rec (recs !! k)).

#[local] Instance left_open_dec recs k : Decision (left_open recs k).
Proof.
  destruct (recs !! k) as [rec|] eqn:E1; [|left; intros ? ?; congruence].
  destruct (row_open rec) eqn:E2; [left|right]; unfold left_open; rewrite E1; [by intros ? [= <-]|].
  intros Hn. specialize (Hn rec eq_refl). congruence.
Defined.

Lemma end_left_rows_cons s id recs k keys :
  end_left_rows e s id recs (k :: keys) =
  if decide (left_open recs k) then
    match st_put_node (le_store e) s id k (left_row recs k) with
    | (s, Some err) => (s, Some err)
    | (s, None) => end_left_rows e s id recs keys
    end
  else end_left_rows e s id recs keys.
Proof.
  simpl. case_decide as Hd; unfold left_open in Hd; unfold left_row; destruct (recs !! k) as [rec|] eqn:E1; simpl; try done.
  - by rewrite (Hd rec).
  - destruct (row_open rec) eqn:E2; [|done]. destruct Hd. by intros ? [= <-].
  - destruct Hd. done.
Qed.

Lemma end_left_rows_spec s id recs keys s' err c :
  (forall k, k ∈ keys -> node_keeps (left_row recs k)) ->
  end_left_rows e s id recs keys = (s', err) -> st_get s id = Ok c ->
  exists c', st_get s' id = Ok c' /\ c'.1 = c.1 /\
    (forall k, c'.2 !! k = c.2 !! k \/ k ∈ keys /\ left_open recs k /\ c'.2 !! k = Some (left_row recs k)) /\
    (err = None -> forall k, k ∈ keys -> left_open recs k -> c'.2 !! k = Some (left_row recs k)).
Proof.
  revert s c. induction keys as [|k keys IH]; intros s c Hk Hr Hg.
  { simpl in Hr. simplify_eq. exists c. split_and!; auto. by intros _ ? ?%elem_of_nil. }
  assert (Hk' : forall k, k ∈ keys -> node_keeps (left_row recs k)) by (intros; apply Hk; by right).
  rewrite end_left_rows_cons in Hr. case_decide as Hd.
  2: { destruct (IH _ _ Hk' Hr Hg) as (c' & ? & ? & Ha & Hb). exists c'. split_and!; [done|done| |].
       - intros k0. destruct (Ha k0) as [|(? & ? & ?)]; [by left|right]. split_and!; [by right|done|done].
       - intros He k0 [->|Hin]%elem_of_cons Ho; [done|]. by apply Hb. }
  destruct (st_put_node (le_store e) s id k (left_row recs k)) as [s1 er] eqn:Ep.
  destruct (put_node_reads _ _ _ _ _ _ _ id c (Hk k (list_elem_of_here _ _)) Ep Hg) as (c1 & Hg1 & Hw).
  rewrite decide_True in Hw by done.
  assert (H1 : c1.1 = c.1 /\ forall k0, c1.2 !! k0 = c.2 !! k0 \/ k0 = k /\ c1.2 !! k0 = Some (left_row recs k)).
  { destruct Hw as [->|[_ ->]]; [|by auto]. split; [done|]. intros k0. simpl. destruct (decide (k0 = k)) as [->|].
    - right. by rewrite lookup_insert_eq.
    - left. by rewrite lookup_insert_ne. }
  destruct H1 as [Hh H1]. destruct er as [er|].
  { simplify_eq. exists c1. split_and!; [done|done| |done]. intros k0. destruct (H1 k0) as [|[-> ?]]; [by left|right].
    split_and!; [by left|done|done]. }
  destruct Hw as [->|[? _]]; [|done].
  destruct (IH _ _ Hk' Hr Hg1) as (c' & ? & E1 & Ha & Hb). exists c'. split_and!; [done|by rewrite E1| |].
  - intros k0. destruct (Ha k0) as [->|(? & ? & ?)]; [|right; split_and!; [by right|done|done]].
    destruct (H1 k0) as [|[-> ?]]; [by left|right; split_and!; [by left|done|done]].
  - intros He k0 Hin Ho. destruct (decide (k0 ∈ keys)) as [Hi|Hn]; [by apply Hb|].
    apply elem_of_cons in Hin as [->|]; [|done].
    destruct (Ha k) as [->|(? & _)]; [|done]. simpl. by rewrite lookup_insert_eq.
Qed.

Lemma end_left_rows_other s id recs keys s' err id2 c :
  (forall k, k ∈ keys -> node_keeps (left_row recs k)) -> id2 <> id ->
  end_left_rows e s id recs keys = (s', err) -> st_get s id2 = Ok c -> st_get s' id2 = Ok c.
Proof.
  revert s. induction keys as [|k keys IH]; intros s Hk Hne Hr Hg; [simpl in Hr; by simplify_eq|].
  assert (Hk' : forall k, k ∈ keys -> node_keeps (left_row recs k)) by (intros; apply Hk; by right).
  rewrite end_left_rows_cons in Hr. case_decide as Hd; [|by eapply IH].
  destruct (st_put_node (le_store e) s id k (left_row recs k)) as [s1 er] eqn:Ep.
  destruct (put_node_reads _ _ _ _ _ _ _ id2 c (Hk k (list_elem_of_here _ _)) Ep Hg) as (c1 & Hg1 & Hw).
  rewrite decide_False in Hw by done. subst c1. destruct er; [by simplify_eq|by eapply IH].
Qed.

(** What a row of a left install becomes. *)
Definition left_row_ok (old : option RunNodeRecord) (new : RunNodeRecord) : Prop :=
  row_open new = false /\
  match old with
  | Some rec =>
      if row_open rec then
        rn_Status new = RunNodeFailed /\ rn_Reason new = ErrAgentInstallLeaderChanged /\
        Forall (fun p => inFlight (rs_Status p) = false) (rn_Steps new) /\
        (forall i p, rn_Steps rec !! i = Some p -> inFlight (rs_Status p) = false -> rn_Steps new !! i = Some p) /\
        (rn_NodeID rec <> "" \/ installBegan rec = false -> rn_NodeID new = rn_NodeID rec) /\
        rn_Awaiting new = "" /\ rn_CheckURL new = ""
      else new = rec
  | None => rn_Status new = RunNodeFailed
  end.

Lemma end_left_row_ok rec : row_open rec = true -> left_row_ok (Some rec) (end_left_row e rec).
Proof.
  intros Ho. unfold left_row_ok. rewrite Ho. split; [done|]. split_and!; try done; simpl.
  - apply Forall_fmap, Forall_forall. intros p _. unfold compose, end_left_step. by destruct (inFlight (rs_Status p)) eqn:E1.
  - intros i p Hi Hf. rewrite list_lookup_fmap, Hi. simpl. unfold end_left_step. by rewrite Hf.
  - unfold left_node_id. intros [Hn%String.eqb_neq|Hb]; [by rewrite Hn|by rewrite Hb, andb_false_r].
Qed.

(** The store's part of ending an install. *)
Lemma end_left_writes_spec s id head recs :
  st_get s id = Ok (head, recs) -> rr_ID head = id -> Active head = true -> owned e id = false ->
  run_keeps (left_head head (le_now e)) -> (forall k, k ∈ rr_Nodes head -> node_keeps (left_row recs k)) ->
  match end_left_writes e s id with
  | (s', Err _) => exists head' recs', st_get s' id = Ok (head', recs') /\
      (head' = head \/ head' = left_head head (le_now e) /\
         forall k, k ∈ rr_Nodes head -> exists rec, recs' !! k = Some rec /\ left_row_ok (recs !! k) rec)
  | (s', Ok o) => o = Some (left_head head (le_now e)) /\
      exists recs', st_get s' id = Ok (left_head head (le_now e), recs') /\
      (forall k, k ∉ rr_Nodes head -> recs' !! k = recs !! k) /\
      forall k, k ∈ rr_Nodes head -> exists rec, recs' !! k = Some rec /\ left_row_ok (recs !! k) rec
  end.
Proof.
  intros Hg Hid Ha Ho Hrk Hnk. unfold TaskSupervise.end_left_writes. rewrite Hg, Ha, Ho. cbn [negb orb].
  destruct (end_left_rows e s id recs (rr_Nodes head)) as [s1 err] eqn:E1.
  destruct (end_left_rows_spec _ _ _ _ _ _ _ Hnk E1 Hg) as ([head1 recs1] & Hg1 & Hh & Hsome & Hall). simpl in Hh. subst head1.
  destruct err as [err|]; [exists head, recs1; auto|].
  assert (Hrows : forall k, k ∈ rr_Nodes head -> exists rec, recs1 !! k = Some rec /\ left_row_ok (recs !! k) rec).
  { intros k Hk. destruct (decide (left_open recs k)) as [Hopen|Hclosed].
    - exists (left_row recs k). split; [by apply Hall|]. unfold left_row. unfold left_open in Hopen.
      destruct (recs !! k) as [rec|] eqn:Er; [apply end_left_row_ok; auto|done].
    - destruct (Hsome k) as [Hk1|(_ & ? & _)]; [|done]. simpl in Hk1. unfold left_open in Hclosed.
      destruct (recs !! k) as [rec|] eqn:Er; [|destruct Hclosed; congruence].
      exists rec. split; [done|]. unfold left_row_ok.
      destruct (row_open rec) eqn:Eo; [|done]. destruct Hclosed. by intros ? [= <-]. }
  destruct (st_put (le_store e) s1 (left_head head (le_now e))) as [s2 er] eqn:E2.
  destruct (put_reads _ _ _ _ _ id _ Hrk E2 Hg1) as ([head2 recs2] & Hg2 & Hw).
  rewrite decide_True in Hw by done. simpl in Hw.
  destruct er as [er|]; destruct Hw as [[= -> ->]|[He [= -> ->]]]; try done; eauto.
  - exists (left_head head (le_now e)), recs1. split; [done|]. by right.
  - split; [done|]. exists recs1. split_and!; [done| |done].
    intros k Hk. by destruct (Hsome k) as [|(? & _)].
Qed.

(** Ending an install left behind: every row that had not ended fails for
    the leader change, none of its steps is left in flight and its ended ones
    are as they were; ended rows and rows of others are not touched; the run
    fails with its credentials cleared and is audited; every other run in
    progress reads as before, through the pruning too.  When a write fails
    the run is still there, nothing is audited, and it reads as ended only
    with every row ended. *)
Theorem endLeftInstall_ends h id head recs h' err :
  st_get (hd_store h) id = Ok (head, recs) -> rr_ID head = id -> Active head = true -> owned e id = false ->
  run_keeps (left_head head (le_now e)) -> (forall k, k ∈ rr_Nodes head -> node_keeps (left_row recs k)) ->
  endLeftInstall e h id = (h', err) ->
  (forall id2 c, id2 <> id -> st_get (hd_store h) id2 = Ok c -> rr_ID c.1 = id2 -> Active c.1 = true ->
     st_get (hd_store h') id2 = Ok c) /\
  match err with
  | Some _ => hd_audit h' = hd_audit h /\ exists head' recs', st_get (hd_store h') id = Ok (head', recs') /\
      (Active head' = false -> forall k, k ∈ rr_Nodes head -> exists rec, recs' !! k = Some rec /\ left_row_ok (recs !! k) rec)
  | None =>
      hd_audit h' = hd_audit h ++ [auditEnd (le_local e) (left_head head (le_now e))] /\
      exists s1 recs', hd_store h' = (st_prune (le_store e) s1 keepRuns).1 /\
        st_get s1 id = Ok (left_head head (le_now e), recs') /\
        (forall k, k ∉ rr_Nodes head -> recs' !! k = recs !! k) /\
        forall k, k ∈ rr_Nodes head -> exists rec, recs' !! k = Some rec /\ left_row_ok (recs !! k) rec
  end.
Proof.
  intros Hg Hid Ha Ho Hrk Hnk He.
  pose proof (end_left_writes_spec _ _ _ _ Hg Hid Ha Ho Hrk Hnk) as Hw.
  assert (Hother : forall id2 c, id2 <> id -> st_get (hd_store h) id2 = Ok c ->
    st_get (end_left_writes e (hd_store h) id).1 id2 = Ok c).
  { intros id2 c Hne Hg2. unfold TaskSupervise.end_left_writes. rewrite Hg, Ha, Ho. cbn [negb orb].
    destruct (end_left_rows e (hd_store h) id recs (rr_Nodes head)) as [s1 er] eqn:E1.
    pose proof (end_left_rows_other _ _ _ _ _ _ _ _ Hnk Hne E1 Hg2) as Hg3. destruct er; [done|].
    destruct (st_put (le_store e) s1 (left_head head (le_now e))) as [s2 er] eqn:E2.
    destruct (put_reads _ _ _ _ _ id2 _ Hrk E2 Hg3) as (c2 & Hg4 & Hw').
    rewrite decide_False in Hw' by (simpl; congruence). subst c2. by destruct er. }
  unfold TaskSupervise.endLeftInstall in He.
  destruct (end_left_writes e (hd_store h) id) as [s1 [o|er]]; simpl in Hother.
  - destruct Hw as [-> (recs' & Hg1 & Hk & Hrows)]. simplify_eq/=. split.
    + intros id2 c Hne Hg2 Hid2 Ha2. destruct (st_prune _ _ _) as [s2 er] eqn:E2. eapply prune_reads; eauto.
    + split; [done|]. by exists s1, recs'.
  - simplify_eq/=. split; [auto|]. split; [done|]. destruct Hw as (head' & recs' & Hg1 & Hor).
    exists head', recs'. split; [done|]. intros Hna. destruct Hor as [->|[_ Hrows]]; [congruence|done].
Qed.
End Supervise.
