(* ===== verification/ApiProg.v ===== *)
(** * The calls of the task API (internal/feature/tasks/handler.go)

    What a handler of /cluster/tasks and /cluster/task-runs asks of its
    environment (runEnv, taskStore), of the start gate, of the lock of the
    runs' heads and of the agent installs; and what each does to the store.
    Handlers run at once, call by call. *)

From S2P Require Import Prelude GoStrings GoTime TaskModel ClusterFSM ClusterTaskStore TaskPlan Interact.
From S2P Require Import TaskSupervise.

(** ** Answers *)

(** A task as the API answers with it. *)
Record taskView : Type := mkTaskView {
  tv_ID : string;
  tv_Name : string;
  tv_Description : string;
  tv_Source : TaskSource;
  tv_ReadOnly : bool;
  tv_UpdatedAt : Time;
  tv_UpdatedBy : string;
  tv_YAML : string;
  tv_Task : option Task;
}.

(** A step of a document, as a client labels it. *)
Record runStep : Type := mkRunStep { us_Name : string; us_Kind : string }.

Notation details := (list (string * string)).

Inductive api_answer : Type :=
| OkTasks (l : list taskView)
| OkTask (v : taskView)
| OkValid (valid : bool) (problems : list Problem) (t : option Task)
| OkFormat (doc : string)
| OkDeleted (id : string)
| OkPlan (p : Plan) (planID : string) (notReady : list string) (steps : list runStep)
| OkRuns (l : list RunRecord)
| OkRun (r : RunRecord) (nodes : gmap string RunNodeRecord) (steps : option (list runStep))
| OkHead (r : RunRecord)
| OkOutput (v : JobView)
| Accepted (run_id : string)
| BadDocument (problems : list Problem)      (* 400 TASK_INVALID, with its problems *)
| AnswerFail (status : Z) (code : string) (msg : message) (d : details).

(** An error on its way to an answer: a refusal, the store's, or another's
    text. *)
Inductive api_error : Type :=
| Refused (status : Z) (code : string) (msg : message) (d : details)
| StoreFailed (e : StoreError)
| OtherError (text : message).

(** What is under way as a start is judged (feature/cluster/task_gate.go). *)
Record Busy : Type := mkBusy { by_UpdateRunning : bool; by_CARotation : bool; by_Converting : bool; by_Promoting : bool }.

(** A call to a node that failed: its refusal, or the call's own error. *)
Inductive node_error : Type :=
| NodeRefused (status : Z) (code text : string) (d : details)
| NodeFailed (text : string).

(** ** Calls *)

Inductive acall : Type :=
| InCluster                                  (* h.newEnv() != nil *)
| IsLeader
| CaughtUp
| ToLeader                                   (* the request sent on; [None]: not handled there *)
| ANow
| APlanEnv                                   (* what ordering a run asks, one answer each *)
| ANodes
| TasksReady
| NewTaskID
| NewRunID (now : Time)
| StListTasks
| StGetTask (id : string)
| StPutTask (t : StoredTask)
| StDeleteTask (id : string)
| StPutTaskRevision (doc : string)
| StTaskRevision (sha : string)
| StListRuns
| StGetRun (id : string)
| StPutRun (r : RunRecord)
| GateLock                                   (* StartGate takes startMu *)
| GateUnlock
| HeadLock                                   (* headMu *)
| HeadUnlock
| InstallsActive                             (* an installer is set, and Active *)
| InstallOwns (id : string)                  (* an installer is set, and Owns *)
| InstallStop (id by_ : string)
| InstallOutput (id key : string) (step skip : Z)
| EndLeftInstall (id : string)               (* the supervisor's, whole under headMu *)
| AskJob (node job : string) (skip : Z)
| Audit (e : AuditEvent)
| LocalID
| Launch (r : RunRecord)                     (* under the supervisor, if one runs *)
| StPutRunNode (id node : string) (rec : RunNodeRecord)   (* the runner's and the installer's *)
| StPruneRuns (keep : Z).

Definition aanswer (c : acall) : Type :=
  match c with
  | InCluster | IsLeader | CaughtUp | InstallsActive | InstallOwns _ => bool
  | ToLeader => option api_answer
  | ANow => Time
  | APlanEnv => planEnv
  | ANodes => list Node
  | TasksReady => list string
  | NewTaskID | NewRunID _ | LocalID => string
  | StListTasks => result StoreError (list StoredTask)
  | StGetTask _ => result StoreError StoredTask
  | StPutTask _ | StDeleteTask _ | StPutRun _ | EndLeftInstall _ | StPutRunNode _ _ _ | StPruneRuns _ => option StoreError
  | StPutTaskRevision _ | StTaskRevision _ => result StoreError string
  | StListRuns => result StoreError (list RunRecord)
  | StGetRun _ => result StoreError (RunRecord * gmap string RunNodeRecord)
  | GateLock => Busy
  | GateUnlock | HeadLock | HeadUnlock | Audit _ | Launch _ => unit
  | InstallStop _ _ => option api_error
  | InstallOutput _ _ _ _ => option JobView
  | AskJob _ _ _ => result node_error JobView
  end.

Notation aprog := (Interact.prog aanswer).
Notation aaction := (Interact.action aanswer).
Notation amonitor := (Interact.monitor aanswer).
Notation ado := (@Interact.do_call acall aanswer).
Notation aact := (@Interact.act acall aanswer).
