(* ===== verification/TaskApi.v ===== *)
(** * The task API (internal/feature/tasks/handler.go)

    The handlers of /cluster/tasks and /cluster/task-runs on a manager: the
    definitions, the preview and the start of a run, its stop, its rerun and
    its output.  A request's body is an argument, [None] when it does not
    decode; [user] is the operator. *)

From S2P Require Import ApiCodes Prelude GoStrings GoTime TaskModel TaskYaml TaskParse TaskFormat.
From S2P Require Import TaskRender.
From S2P Require Import ClusterFSM ClusterTaskStore TaskPlan Interact RunProg TaskRun TaskSupervise TaskRerun.
From S2P Require Import ApiProg.

#[local] Open Scope prog_scope.

Definition sourceBuiltin : string := "builtin".
Definition AgentInstallTaskID : string := "builtin/agent-install".
Definition builtinOrder : list string := ["package-update"; "package-install"; "service-restart"; "command"; "reboot"].

Record taskDoc : Type := mkTaskDoc {
  td_ID : string;
  td_Name : string;
  td_Description : string;
  td_YAML : string;
  td_Source : TaskSource;
  td_UpdatedAt : Time;
  td_UpdatedBy : string;
}.
Definition builtin (d : taskDoc) : bool := so_Kind (td_Source d) ==s sourceBuiltin.
Definition readOnly (d : taskDoc) : bool := builtin d || (so_Kind (td_Source d) ==s TaskSourceGit).

Definition builtin_source : TaskSource := mkTaskSource sourceBuiltin "" "" "" "".
Definition installBuiltin : taskDoc :=
  mkTaskDoc AgentInstallTaskID "에이전트 설치 (SSH)" "SSH로 서버에 접속해 SFPanel 에이전트를 설치하고 클러스터에 등록합니다." ""
    builtin_source 0 "".

(** ** Errors *)

Definition fail (err : api_error) : api_answer :=
  match err with
  | Refused status code msg d => AnswerFail status code msg d
  | StoreFailed ErrNotLeader =>
      AnswerFail 503 ErrInternalError (Sprintf "This node is not the cluster leader: retry in a few seconds" []) []
  | StoreFailed _ | OtherError _ =>
      AnswerFail 500 ErrInternalError (Sprintf "The task store could not be read or written" []) []
  end.

Definition max_kib (bytes : nat) : string * string := ("max_kib", itoa (Z.of_nat bytes / 1024)).
Definition ErrTaskTooLarge_text : message := Sprintf "a task document is at most %d KiB" [FInt (Z.of_nat MaxDocumentBytes / 1024)].
Definition tooLarge : api_error := Refused 400 ApiCodes.ErrTaskTooLarge ErrTaskTooLarge_text [max_kib MaxDocumentBytes].

Definition storeError (err : StoreError) : api_error :=
  match err with
  | ErrTaskNameTaken => Refused 409 ApiCodes.ErrTaskNameTaken (Sprintf "Another task already has this name" []) []
  | ErrTaskTooLarge => tooLarge
  | ErrTaskNotFound => Refused 404 ApiCodes.ErrTaskNotFound (Sprintf "No such task" []) []
  | ErrTaskNameRequired => Refused 400 ErrTaskInvalid (Sprintf "The task's name is blank" []) []
  | err => StoreFailed err
  end.
Definition errBuiltinName : api_error :=
  Refused 409 ApiCodes.ErrTaskNameTaken (Sprintf "A built-in task already has this name" []) [].
Definition runNotFound (err : StoreError) : api_error :=
  match err with
  | ErrTaskRunNotFound => Refused 404 ApiCodes.ErrTaskRunNotFound (Sprintf "No such task run" []) []
  | err => StoreFailed err
  end.

Definition renderError_text (err : RenderError) : message :=
  match err with
  | InputMissing name => Sprintf "input %q is required" [FStr name]
  | UndefinedRef name => Sprintf "the task references %q, which is not defined; parse the task before rendering it" [FStr name]
  | NilBody _ => Sprintf "runtime error: invalid memory address or nil pointer dereference" []
  end.
Definition planError (err : PlanError) : api_error :=
  match err with
  | ErrRender (InputMissing name) =>
      Refused 400 ErrTaskInputMissing (Sprintf "input %q is required" [FStr name]) [("input", name)]
  | ErrTooManyTargets =>
      Refused 400 ErrTaskTooManyTargets (Sprintf "a task run takes at most %d nodes" [FInt (Z.of_nat MaxTargets)])
        [("max", itoa (Z.of_nat MaxTargets))]
  | ErrListRuns e => StoreFailed e
  | ErrRender e => OtherError (renderError_text e)
  end.
Definition busyNode (nodeID runID : string) : api_error :=
  Refused 409 ErrTaskTargetBusy (Sprintf "Node %s is taken by run %s, which is under way" [FStr nodeID; FStr runID])
    [("node_id", nodeID); ("run_id", runID)].

Definition invalid_body : api_answer := AnswerFail 400 ErrInvalidRequest (Sprintf "Invalid request body" []) [].
Definition not_configured : api_answer := AnswerFail 400 ErrInvalidRequest (Sprintf "Cluster not configured" []) [].

(** A handler on a manager; a write is the leader's. *)
Definition apiEnv (f : aprog api_answer) : aprog api_answer :=
  here <-- ado InCluster ;; if here : bool then f else Ret not_configured.
Definition forward (f : aprog api_answer) : aprog api_answer :=
  leads <-- ado IsLeader ;;
  if leads : bool then
    caught_up <-- ado CaughtUp ;;
    if caught_up : bool then f
    else Ret (AnswerFail 503 ErrInternalError (Sprintf "The cluster leader is catching up: retry in a few seconds" []) [])
  else
    sent <-- ado ToLeader ;;
    match sent with Some a => Ret a | None => f end.

(** The result of an operation, or its error as an answer. *)
Definition answered {A} (x : aprog (result api_error A)) (f : A -> aprog api_answer) : aprog api_answer :=
  x <-- x ;; match x with Ok a => f a | Err e => Ret (fail e) end.

Section Api.
Context `{YamlLib}.
Variable SplitHostPort : string -> option string.
Variable ParseIP_String : string -> option string.
Variable SanitizeOutput : string -> string.
Variable sha256_hex : string -> string.
(** [json.Marshal] of a run's inputs ([nil] when empty) and of its targets. *)
Variable marshal_inputs : gmap string string -> string.
Variable marshal_targets : Targets -> string.
(** The built-in tasks' documents, as they are embedded. *)
Variable builtinFS : string -> string.
(** [url.PathUnescape]. *)
Variable PathUnescape : string -> option string.

(** ** Tasks *)

Definition Builtins : list (string * string) :=
  map (fun name => ("builtin/" +:+ name, builtinFS ("builtin/" +:+ name +:+ ".yaml"))) builtinOrder.
Definition builtins : list taskDoc :=
  map (fun b : string * string =>
    mkTaskDoc b.1 (match (Parse b.2).1 with Some t => tk_Name t | None => b.1 end) "" b.2 builtin_source 0 "") Builtins
  ++ [installBuiltin].
Definition builtinDoc (id : string) : option taskDoc := find (fun d => td_ID d ==s id) builtins.
Definition builtinName (name : string) : bool := existsb (fun d => td_Name d ==s name) builtins.

Definition taskParam (id : string) : string := default id (PathUnescape id).

Definition stored_doc (t : StoredTask) : taskDoc :=
  mkTaskDoc (sk_ID t) (sk_Name t) "" (sk_YAML t) (sk_Source t) (sk_UpdatedAt t) (sk_UpdatedBy t).

Definition loadTask (id : string) : aprog (result api_error taskDoc) :=
  match builtinDoc id with
  | Some d => Ret (Ok d)
  | None =>
      t <-- ado (StGetTask id) ;;
      Ret (match t with
           | Ok t => Ok (stored_doc t)
           | Err ErrTaskNotFound => Err (Refused 404 ApiCodes.ErrTaskNotFound (Sprintf "No such task" []) [])
           | Err e => Err (StoreFailed e)
           end)
  end.

Definition viewOf (d : taskDoc) (full : bool) : taskView :=
  let view description yaml t :=
    mkTaskView (td_ID d) (td_Name d) description (td_Source d) (readOnly d) (td_UpdatedAt d) (td_UpdatedBy d) yaml t in
  if td_YAML d ==s "" then view (td_Description d) "" None
  else
    let t := (Parse (td_YAML d)).1 in
    view (match t with Some t => tk_Description t | None => td_Description d end)
      (if full then td_YAML d else "") (if full then t else None).

Definition too_large (doc : string) : bool := (MaxDocumentBytes <? String.length doc)%nat.
Definition checkDocument (doc : string) : result api_answer Task :=
  if too_large doc then Err (fail tooLarge)
  else match Parse doc with (Some t, _) => Ok t | (None, problems) => Err (BadDocument problems) end.

Definition ListTasks : aprog api_answer :=
  apiEnv
    (stored <-- ado StListTasks ;;
     Ret (match stored with
          | Err e => fail (StoreFailed e)
          | Ok stored =>
              OkTasks (map (fun d => viewOf d false) builtins ++ map (fun t => viewOf (stored_doc t) false) stored)
          end)).

Definition GetTask (id : string) : aprog api_answer :=
  apiEnv (answered (loadTask (taskParam id)) (fun d => Ret (OkTask (viewOf d true)))).

Definition ValidateTask (body : option string) : aprog api_answer :=
  Ret (match body with
       | None => invalid_body
       | Some doc =>
           if too_large doc then fail tooLarge
           else let '(t, problems) := Parse doc in OkValid (bool_decide (is_Some t)) problems t
       end).

(** [body]: the task of a body that decodes, [nil] or not. *)
Definition FormatTask (body : option (option Task)) : aprog api_answer :=
  Ret (match body with
       | None => invalid_body
       | Some None => AnswerFail 400 ErrInvalidRequest (Sprintf "task is required" []) []
       | Some (Some t) =>
           match Format (Some t) with
           | Ok doc => OkFormat doc
           | Err _ => AnswerFail 500 ErrInternalError (Sprintf "The task could not be written as YAML" []) []
           end
       end).

(** A document written under [id], by [user]. *)
Definition put_document (doc : string) (user : string) (source : TaskSource) (id : aprog string) : aprog api_answer :=
  match checkDocument doc with
  | Err a => Ret a
  | Ok t =>
      if builtinName (tk_Name t) then Ret (fail errBuiltinName)
      else
        id <-- id ;;
        now <-- ado ANow ;;
        let st := mkStoredTask id (tk_Name t) doc source now user in
        err <-- ado (StPutTask st) ;;
        Ret (match err with Some e => fail (storeError e) | None => OkTask (viewOf (stored_doc st) true) end)
  end.

Definition user_source : TaskSource := mkTaskSource TaskSourceUser "" "" "" "".

Definition CreateTask (body : option string) (user : string) : aprog api_answer :=
  apiEnv (forward
    match body with
    | None => Ret invalid_body
    | Some doc => put_document doc user user_source (ado NewTaskID)
    end).

Definition UpdateTask (id : string) (body : option string) (user : string) : aprog api_answer :=
  apiEnv (forward
    (answered (loadTask (taskParam id)) (fun d =>
       if readOnly d then
         Ret (AnswerFail 409 ErrTaskReadOnly (Sprintf "This task is read-only: built in, or imported from Git" []) [])
       else
         match body with
         | None => Ret invalid_body
         | Some doc => put_document doc user (td_Source d) (Ret (td_ID d))
         end))).

Definition DeleteTask (id : string) : aprog api_answer :=
  apiEnv (forward
    (answered (loadTask (taskParam id)) (fun d =>
       if builtin d then Ret (AnswerFail 409 ErrTaskReadOnly (Sprintf "A built-in task cannot be deleted" []) [])
       else
         err <-- ado (StDeleteTask (td_ID d)) ;;
         Ret (match err with Some e => fail (storeError e) | None => OkDeleted (td_ID d) end)))).

(** ** What a run request asks for *)

Record runRequest : Type := mkRunRequest {
  rq_TaskID : string;
  rq_Inputs : gmap string string;
  rq_Targets : option Targets;
  rq_Batch : Z;
  rq_StopOnFailure : option bool;
  rq_Confirmed : list Z;
  rq_PlanID : string;
}.

Definition maxInputBytes : nat := 16 * 1024.
Definition maxInputsBytes : nat := 64 * 1024.

Definition runInputs (t : Task) (given : gmap string string) : gmap string string :=
  fold_left (fun inputs i => match given !! in_Name i with Some v => <[in_Name i := v]> inputs | None => inputs end)
    (tk_Inputs t) ∅.

(** The loop over the sorted names; [total]: the bytes so far. *)
Fixpoint check_sizes (inputs : gmap string string) (names : list string) (total : nat) : option api_error :=
  match names with
  | [] =>
      if (maxInputsBytes <? total)%nat then
        Some (Refused 400 ApiCodes.ErrTaskTooLarge
                (Sprintf "The inputs are over %d KiB together" [FInt (Z.of_nat maxInputsBytes / 1024)])
                [("input", "*"); max_kib maxInputsBytes])
      else None
  | name :: names =>
      let v := default "" (inputs !! name) in
      if (maxInputBytes <? String.length v)%nat then
        Some (Refused 400 ApiCodes.ErrTaskTooLarge
                (Sprintf "Input %s is over %d KiB" [FStr name; FInt (Z.of_nat maxInputBytes / 1024)])
                [("input", name); max_kib maxInputBytes])
      else check_sizes inputs names (total + String.length v)
  end.
Definition checkInputSizes (inputs : gmap string string) : option api_error :=
  check_sizes inputs (sort_Strings (map fst (map_to_list inputs))) 0.

Record runTarget : Type := mkRunTarget { rt_doc : taskDoc; rt_task : Task; rt_targets : Targets; rt_batch : Z }.

Definition planID (doc : string) (inputs : gmap string string) (targets : Targets) : string :=
  let zero := bytes_of [0]%nat in
  sha256_hex (sha256_hex doc +:+ zero +:+ marshal_inputs inputs +:+ zero +:+ marshal_targets targets).

Definition readRunRequest (body : option runRequest) : aprog (result api_error (runRequest * runTarget)) :=
  match body with
  | None => Ret (Err (Refused 400 ErrInvalidRequest (Sprintf "Invalid request body" []) []))
  | Some req =>
      if rq_TaskID req ==s AgentInstallTaskID then
        Ret (Err (Refused 404 ApiCodes.ErrTaskNotFound
                    (Sprintf "The agent install is not a task: it starts from its own form" []) []))
      else
        d <-- loadTask (rq_TaskID req) ;;
        Ret (match d with
             | Err e => Err e
             | Ok d =>
                 match Parse (td_YAML d) with
                 | (None, []) => Err (Refused 400 ErrTaskInvalid (Sprintf "The task's document has problems" []) [])
                 | (None, p :: _) =>
                     Err (Refused 400 ErrTaskInvalid
                            (Sprintf "The task's document has problems: line %d: %s" [FInt (pr_Line p); FMsg (pr_Message p)]) [])
                 | (Some t, _) =>
                     match checkInputSizes (runInputs t (rq_Inputs req)) with
                     | Some e => Err e
                     | None =>
                         Ok (req, mkRunTarget d t (default (tk_Targets t) (rq_Targets req)) (runBatch t (rq_Batch req)))
                     end
                 end
             end)
  end.

Definition managersNotReady : aprog (option api_error) :=
  wait <-- ado TasksReady ;;
  Ret (match wait with
       | [] => None
       | _ =>
           let names := String.concat ", " wait in
           Some (Refused 409 ErrTaskManagersNotReady
                   (Sprintf "Every manager must be online and run a version that keeps group tasks: waiting for %s" [FStr names])
                   [("managers", names)])
       end).

Definition stepLabels (t : Task) : list runStep := map (fun s => mkRunStep (sp_Name s) (sp_Kind s)) (tk_Steps t).

Definition PlanRun (body : option runRequest) : aprog api_answer :=
  apiEnv (forward
    (answered (readRunRequest body) (fun '(req, rt) =>
       env <-- ado APlanEnv ;;
       match planRun SplitHostPort ParseIP_String env (rt_task rt) (rt_targets rt) (rq_Inputs req) (rt_batch rt) with
       | None => Stuck
       | Some (Err e) => Ret (fail (planError e))
       | Some (Ok plan) =>
           wait <-- ado TasksReady ;;
           Ret (OkPlan plan (planID (td_YAML (rt_doc rt)) (runInputs (rt_task rt) (rq_Inputs req)) (rt_targets rt)) wait
                  (stepLabels (rt_task rt)))
       end))).

(** ** Recording a run *)

Definition has_reboot (t : Task) : bool := existsb (fun s => sp_Kind s ==s StepReboot) (tk_Steps t).
Definition rebootsManager (doc : string) (nodes : list string) (managers : gset string) : bool :=
  match (Parse doc).1 with
  | None => false
  | Some t => has_reboot t && existsb (fun id => bool_decide (id ∈ managers)) nodes
  end.

Definition managers_of (nodes : list Node) : gset string := list_to_set (map nd_ID (List.filter IsManager nodes)).

(** The loop over the runs under way. *)
Fixpoint reboot_run (managers : gset string) (runs : list RunRecord) : aprog (result api_error string) :=
  match runs with
  | [] => Ret (Ok "")
  | r :: runs =>
      if negb (Active r) then reboot_run managers runs
      else
        other <-- ado (StTaskRevision (rr_Rev r)) ;;
        match other with
        | Err ErrTaskRevisionNotFound => reboot_run managers runs
        | Err e => Ret (Err (StoreFailed e))
        | Ok other => if rebootsManager other (rr_Nodes r) managers then Ret (Ok (rr_ID r)) else reboot_run managers runs
        end
  end.
Definition rebootBusy (doc : string) (nodes : list string) : aprog (result api_error string) :=
  all <-- ado ANodes ;;
  let managers := managers_of all in
  if negb (rebootsManager doc nodes managers) then Ret (Ok "")
  else
    runs <-- ado StListRuns ;;
    match runs with Err e => Ret (Err (StoreFailed e)) | Ok runs => reboot_run managers runs end.

(** The refusal of what is under way. *)
Definition busy_error (b : Busy) : option api_error :=
  if by_UpdateRunning b then Some (Refused 409 ErrUpdateInProgress (Sprintf "A cluster update is under way" []) [])
  else if by_CARotation b then
    Some (Refused 409 ErrClusterCARotating
            (Sprintf "the cluster CA is being replaced: joins, registrations, conversions, promotions and updates wait until it has finished — see 'sfpanel cluster rotate status'" []) [])
  else if by_Converting b then
    Some (Refused 409 ErrTaskClusterChanging (Sprintf "A manager is being converted to an agent" []) [("what", "conversion")])
  else if by_Promoting b then
    Some (Refused 409 ErrTaskClusterChanging (Sprintf "An agent is being promoted to a manager" []) [("what", "promotion")])
  else None.

(** The first node of the run another holds. *)
Definition first_held (held : gmap string string) (nodes : list string) : option (string * string) :=
  head (omap (fun id => let other := default "" (held !! id) in if other ==s "" then None else Some (id, other)) nodes).

Definition claimed_run (run : RunRecord) (id rev : string) (now : Time) : RunRecord :=
  mkRunRecord id (rr_Kind run) (rr_TaskID run) (rr_TaskName run) rev (rr_Inputs run) (rr_Nodes run) (rr_Waves run)
    (rr_Confirmed run) (rr_Batch run) (rr_StopOnFailure run) (rr_Status run) (rr_Reason run) (rr_Force run)
    (rr_StoppedBy run) (rr_StartedBy run) now (rr_EndedAt run) (rr_RerunOf run) (rr_StartAt run) (rr_CredentialsUntil run).

(** The claim's body, under startMu. *)
Definition claim_body (b : Busy) (run : RunRecord) (doc : string) : aprog (result api_error RunRecord) :=
  match busy_error b with
  | Some e => Ret (Err e)
  | None =>
      installing <-- ado InstallsActive ;;
      if installing : bool then
        Ret (Err (Refused 409 ErrAgentInstallActive
                    (Sprintf "An agent install is under way: start the run once it has finished" []) []))
      else
        runs <-- ado StListRuns ;;
        match heldNodes runs with
        | Err e => Ret (Err (StoreFailed e))
        | Ok held =>
            match first_held held (rr_Nodes run) with
            | Some (id, other) => Ret (Err (busyNode id other))
            | None =>
                other <-- rebootBusy doc (rr_Nodes run) ;;
                match other with
                | Err e => Ret (Err e)
                | Ok other =>
                    if negb (other ==s "") then
                      Ret (Err (Refused 409 ErrTaskRebootBusy
                                  (Sprintf "Run %s reboots a manager and is under way: one run at a time reboots managers" [FStr other])
                                  [("run_id", other)]))
                    else
                      rev <-- ado (StPutTaskRevision doc) ;;
                      match rev with
                      | Err e => Ret (Err (storeError e))
                      | Ok rev =>
                          now <-- ado ANow ;;
                          id <-- ado (NewRunID now) ;;
                          let run := claimed_run run id rev now in
                          err <-- ado (StPutRun run) ;;
                          Ret (match err with Some e => Err (StoreFailed e) | None => Ok run end)
                      end
                end
            end
        end
  end.
Definition claim (run : RunRecord) (doc : string) : aprog (result api_error RunRecord) :=
  b <-- ado GateLock ;;
  x <-- claim_body b run doc ;;
  ado GateUnlock ;;;
  Ret x.

Definition auditStart (node : string) (run : RunRecord) : AuditEvent :=
  mkAuditEvent (rr_StartedBy run) "POST" (taskRunsAuditPath +:+ rr_ID run +:+ "#start") 202 node.
Definition begin (run : RunRecord) : aprog unit :=
  here <-- ado InCluster ;;
  local <-- (if here : bool then ado LocalID else Ret "") ;;
  ado (Audit (auditStart local run)) ;;;
  ado (Launch run).

(** ** Starting a run *)

Fixpoint compact (l : list Z) : list Z :=
  match l with
  | a :: (b :: _) as l => if a =? b then compact l else a :: compact l
  | l => l
  end.
Definition confirmed_steps (l : list Z) : list Z := compact (merge_sort Z.le l).

(** The confirmation's own check: it is of what the preview showed. *)
Definition confirmable (req : runRequest) (rt : runTarget) : option api_answer :=
  match rq_Confirmed req with
  | [] => None
  | _ =>
      if rq_PlanID req ==s "" then
        Some (AnswerFail 400 ErrInvalidRequest (Sprintf "confirmed steps need the preview's plan_id" []) [])
      else if rq_PlanID req ==s planID (td_YAML (rt_doc rt)) (runInputs (rt_task rt) (rq_Inputs req)) (rt_targets rt) then None
      else
        Some (AnswerFail 409 ErrTaskPlanChanged
                (Sprintf "the task, its inputs or its targets changed since the preview: preview again" []) [])
  end.
Definition no_such_step (t : Task) (confirmed : list Z) : option Z :=
  find (fun n => (n <? 0) || (Z.of_nat (length (tk_Steps t)) <=? n)) confirmed.

(** No wave: for a node that is taken, or for none at all. *)
Definition no_target (left_ : list PlanNode) (msg : string) : api_answer :=
  match find (fun n => pn_Reason n ==s LeftBusy) left_ with
  | Some n => fail (busyNode (pn_ID n) (pn_RunID n))
  | None => AnswerFail 400 ErrTaskNoTargets (Sprintf msg []) []
  end.

Definition started_run (req : runRequest) (rt : runTarget) (plan : Plan) (confirmed : list Z) (user : string) : RunRecord :=
  mkRunRecord "" "" (td_ID (rt_doc rt)) (tk_Name (rt_task rt)) "" (runInputs (rt_task rt) (rq_Inputs req)) (NodeIDs plan)
    (WaveIDs plan) (map Z.to_nat confirmed) (rt_batch rt)
    (default (tk_StopOnFailure (rt_task rt)) (rq_StopOnFailure req)) RunRunning "" false "" user 0 0 "" ∅ 0.

(** A run judged, recorded and begun. *)
Definition start (run : RunRecord) (doc : string) : aprog api_answer :=
  answered (claim run doc) (fun run => begin run ;;; Ret (Accepted (rr_ID run))).

Definition StartRun (body : option runRequest) (user : string) : aprog api_answer :=
  apiEnv (forward
    (answered (readRunRequest body) (fun '(req, rt) =>
       wait <-- managersNotReady ;;
       match wait with
       | Some e => Ret (fail e)
       | None =>
           match confirmable req rt with
           | Some a => Ret a
           | None =>
               let confirmed := confirmed_steps (rq_Confirmed req) in
               match no_such_step (rt_task rt) confirmed with
               | Some n =>
                   Ret (AnswerFail 400 ErrInvalidRequest (Sprintf "The task has no step %d to confirm" [FInt n]) [])
               | None =>
                   env <-- ado APlanEnv ;;
                   match orderRun env (rt_targets rt) (rt_batch rt) with
                   | None => Stuck
                   | Some (Err e) => Ret (fail (planError e))
                   | Some (Ok plan) =>
                       match renderPlan SplitHostPort ParseIP_String (rt_task rt) (rq_Inputs req) (pe_Nodes env) plan with
                       | Err e => Ret (fail (planError (ErrRender e)))
                       | Ok _ =>
                           match pl_Waves plan with
                           | [] => Ret (no_target (pl_Left plan) "The run would take no node")
                           | _ => start (started_run req rt plan confirmed user) (td_YAML (rt_doc rt))
                           end
                       end
                   end
               end
           end
       end))).

(** ** Runs as they stand *)

Definition pending_rec : RunNodeRecord := set_status zero_rec RunNodePending "".
Definition withPending (run : RunRecord) (nodes : gmap string RunNodeRecord) : gmap string RunNodeRecord :=
  fold_left (fun nodes id => if nodes !! id is Some _ then nodes else <[id := pending_rec]> nodes) (rr_Nodes run) nodes.

(** [h.ActiveRun]: the start gate's view of the runs. *)
Definition ActiveRun : aprog string :=
  here <-- ado InCluster ;;
  if negb here then Ret ""
  else
    runs <-- ado StListRuns ;;
    Ret (match runs with
         | Err _ => ""
         | Ok runs => match find Active runs with Some r => rr_ID r | None => "" end
         end).

Definition ListRuns : aprog api_answer :=
  apiEnv (runs <-- ado StListRuns ;; Ret (match runs with Err e => fail (StoreFailed e) | Ok runs => OkRuns runs end)).

Definition runSteps (run : RunRecord) : aprog (option (list runStep)) :=
  doc <-- ado (StTaskRevision (rr_Rev run)) ;;
  Ret (match doc with Err _ => None | Ok doc => stepLabels <$> (Parse doc).1 end).

Definition GetRun (id : string) : aprog api_answer :=
  apiEnv
    (x <-- ado (StGetRun id) ;;
     match x with
     | Err e => Ret (fail (runNotFound e))
     | Ok (run, nodes) =>
         if rr_Kind run ==s RunKindAgentInstall then Ret (OkRun run (withPending run nodes) None)
         else steps <-- runSteps run ;; Ret (OkRun run (withPending run nodes) steps)
     end).

(** ** Stopping a run *)

Definition set_stop (h : RunRecord) (status reason : string) (force : bool) (by_ : string) : RunRecord :=
  mkRunRecord (rr_ID h) (rr_Kind h) (rr_TaskID h) (rr_TaskName h) (rr_Rev h) (rr_Inputs h) (rr_Nodes h) (rr_Waves h)
    (rr_Confirmed h) (rr_Batch h) (rr_StopOnFailure h) status reason force by_ (rr_StartedBy h) (rr_StartedAt h)
    (rr_EndedAt h) (rr_RerunOf h) (rr_StartAt h) (rr_CredentialsUntil h).
(** The head as a stop leaves it, when it changes it. *)
Definition stopped_head (h : RunRecord) (force : bool) (user : string) : option RunRecord :=
  if (rr_Status h ==s RunRunning) || (rr_Status h ==s RunHandingOver)
  then Some (set_stop h RunStopping ("stopped by " +:+ user) force user)
  else if (rr_Status h ==s RunStopping) && force && negb (rr_Force h)
  then Some (set_stop h RunStopping (rr_Reason h) true user)
  else None.

(** Under headMu. *)
Definition stop_task (id : string) (force : bool) (user : string) : aprog api_answer :=
  ado HeadLock ;;;
  x <-- ado (StGetRun id) ;;
  a <-- (match x with
         | Err e => Ret (fail (runNotFound e))
         | Ok (head, _) =>
             match stopped_head head force user with
             | None => Ret (OkHead head)
             | Some head =>
                 err <-- ado (StPutRun head) ;;
                 Ret (match err with Some e => fail (StoreFailed e) | None => OkHead head end)
             end
         end) ;;
  ado HeadUnlock ;;;
  Ret a.

Definition head_now (id : string) : aprog api_answer :=
  x <-- ado (StGetRun id) ;;
  Ret (match x with Err e => fail (runNotFound e) | Ok (head, _) => OkHead head end).
Definition stopInstall (head : RunRecord) (user : string) : aprog api_answer :=
  if negb (Active head) then head_now (rr_ID head)
  else
    owns <-- ado (InstallOwns (rr_ID head)) ;;
    if owns : bool then
      err <-- ado (InstallStop (rr_ID head) user) ;;
      match err with Some e => Ret (fail e) | None => head_now (rr_ID head) end
    else
      err <-- ado (EndLeftInstall (rr_ID head)) ;;
      match err with Some e => Ret (fail (runNotFound e)) | None => head_now (rr_ID head) end.

(** [force]: of the body. *)
Definition StopRun (id : string) (force : option bool) (user : string) : aprog api_answer :=
  apiEnv (forward
    match force with
    | None => Ret invalid_body
    | Some force =>
        x <-- ado (StGetRun id) ;;
        match x with
        | Ok (head, _) => if rr_Kind head ==s RunKindAgentInstall then stopInstall head user else stop_task id force user
        | Err _ => stop_task id force user
        end
    end).

(** ** Running a run again *)

(** The nodes chosen: [only], the query parameter, and the body's nodes,
    [None] when it does not decode. *)
Definition chosen_nodes (src : RunRecord) (nodes : gmap string RunNodeRecord) (only : string) (body : option (list string))
    : result api_answer (list string) :=
  if only ==s "failed" then
    Ok (List.filter (fun id => negb (rn_Status (default zero_rec (nodes !! id)) ==s RunNodeSucceeded)) (rr_Nodes src))
  else if only ==s "" then match body with Some l => Ok l | None => Err invalid_body end
  else Err (AnswerFail 400 ErrInvalidRequest (Sprintf "only takes failed" []) []).

(** The rerun over the plan's nodes. *)
Definition planned_rerun (run : RunRecord) (startAt : gmap string nat) (plan : Plan) (user : string) : RunRecord :=
  mkRunRecord (rr_ID run) (rr_Kind run) (rr_TaskID run) (rr_TaskName run) (rr_Rev run) (rr_Inputs run) (NodeIDs plan)
    (WaveIDs plan) (rr_Confirmed run) (rr_Batch run) (rr_StopOnFailure run) (rr_Status run) (rr_Reason run) (rr_Force run)
    (rr_StoppedBy run) user (rr_StartedAt run) (rr_EndedAt run) (rr_RerunOf run)
    (fold_left (fun m id => <[id := default 0%nat (startAt !! id)]> m) (NodeIDs plan) ∅) (rr_CredentialsUntil run).

Definition no_node_left : string :=
  "The run would take no node: every node chosen is offline, outdated, out of reach or gone".

Definition rerun_nodes (src run : RunRecord) (startAt : gmap string nat) (user : string) : aprog api_answer :=
  wait <-- managersNotReady ;;
  match wait with
  | Some e => Ret (fail e)
  | None =>
      env <-- ado APlanEnv ;;
      match orderRun env (mkTargets None None (Some (rr_Nodes run))) (rr_Batch run) with
      | None => Stuck
      | Some (Err e) => Ret (fail (planError e))
      | Some (Ok plan) =>
          match pl_Waves plan with
          | [] => Ret (no_target (pl_Left plan) no_node_left)
          | _ =>
              doc <-- ado (StTaskRevision (rr_Rev src)) ;;
              match doc with
              | Err e => Ret (fail (StoreFailed e))
              | Ok doc => start (planned_rerun run startAt plan user) doc
              end
          end
      end
  end.

Definition RerunRun (id only : string) (body : option (list string)) (user : string) : aprog api_answer :=
  apiEnv (forward
    (x <-- ado (StGetRun id) ;;
     match x with
     | Err e => Ret (fail (runNotFound e))
     | Ok (src, nodes) =>
         if rr_Kind src ==s RunKindAgentInstall then
           Ret (AnswerFail 409 ErrAgentInstallNotRerunnable
                  (Sprintf "An agent install does not run again as a task: start another install from its form" []) [])
         else if Active src then
           Ret (AnswerFail 409 ErrTaskRunActive (Sprintf "Run %s is still under way" [FStr (rr_ID src)]) [("run_id", rr_ID src)])
         else
           match chosen_nodes src nodes only body with
           | Err a => Ret a
           | Ok chosen =>
               let '(run, startAt) := rerunFrom src nodes chosen in
               match rr_Nodes run with
               | [] =>
                   Ret (AnswerFail 400 ErrTaskNoTargets
                          (Sprintf "None of the nodes chosen is one the run ran, or every one succeeded" []) [])
               | _ => rerun_nodes src run startAt user
               end
           end
     end)).

(** ** A step's output *)

Definition log_gone : api_answer :=
  AnswerFail 404 ErrAgentInstallLogGone (Sprintf "This install's output went with the session that ran it" []) [].
Definition installOutput (runID key : string) (step skip : Z) : aprog api_answer :=
  forward
    (owns <-- ado (InstallOwns runID) ;;
     if negb owns then Ret log_gone
     else view <-- ado (InstallOutput runID key step skip) ;; Ret (match view with Some v => OkOutput v | None => log_gone end)).

(** The node as the answer names it, and whether it is an agent: the last of
    its ID. *)
Definition named_node (nodeID : string) (nodes : list Node) : string * bool :=
  fold_left (fun na n =>
    if nd_ID n ==s nodeID then (if nd_Name n ==s "" then na.1 else nd_Name n, negb (IsManager n)) else na)
    nodes (nodeID, false).

Definition output_error (nodeID : string) (nodes : list Node) (err : node_error) : api_answer :=
  let '(name, isAgent) := named_node nodeID nodes in
  match err with
  | NodeRefused status code text d =>
      if status =? 401 then
        if isAgent : bool
        then AnswerFail 502 ErrClusterAgentAuthFailed (Sprintf "the agent refused the request as unauthenticated" []) [("name", name)]
        else AnswerFail 502 ErrInternalError (Sprintf "%s refused the request as unauthenticated" [FStr name]) [("name", name)]
      else AnswerFail status code (Sprintf "%s" [FStr text]) d
  | NodeFailed text =>
      AnswerFail 502 ErrClusterNodeUnreachable (Sprintf "%s did not answer: %s" [FStr name; FStr (SanitizeOutput text)])
        [("name", name)]
  end.

Definition output_skip (skip : string) : option Z :=
  if skip ==s "" then Some 0 else match atoi skip with Some v => if v <? 0 then None else Some v | None => None end.

Definition StepOutput (id nodeID n skip : string) : aprog api_answer :=
  apiEnv
    (x <-- ado (StGetRun id) ;;
     match x with
     | Err e => Ret (fail (runNotFound e))
     | Ok (run, nodes) =>
         match atoi n with
         | None => Ret (AnswerFail 400 ErrInvalidRequest (Sprintf "Invalid step" []) [])
         | Some step =>
             if step <? 0 then Ret (AnswerFail 400 ErrInvalidRequest (Sprintf "Invalid step" []) [])
             else
               match output_skip skip with
               | None => Ret (AnswerFail 400 ErrInvalidRequest (Sprintf "Invalid skip" []) [])
               | Some skip =>
                   if rr_Kind run ==s RunKindAgentInstall then installOutput (rr_ID run) nodeID step skip
                   else
                     let job := rs_JobID (default zero_step (rn_Steps (default zero_rec (nodes !! nodeID)) !! Z.to_nat step)) in
                     if job ==s "" then
                       Ret (AnswerFail 404 ErrTaskJobNotFound (Sprintf "No job has run this step on this node" []) [])
                     else
                       view <-- ado (AskJob nodeID job skip) ;;
                       match view with
                       | Ok v => Ret (OkOutput v)
                       | Err e => all <-- ado ANodes ;; Ret (output_error nodeID all e)
                       end
               end
         end
     end).
End Api.
