(* ===== verification/ApiHost.v ===== *)
(** * The leader's goroutines over the cluster's runs

    The API's handlers, the writers of the runs' heads in the engine (run.go,
    supervise.go) and the agent installs, one call of one of them at a time
    over one store of runs, with the start gate's lock and headMu. *)

From S2P Require Import Prelude GoStrings GoTime TaskModel TaskYaml ClusterFSM ClusterTaskStore TaskPlan.
From S2P Require Import Interact.
From S2P Require Import TaskRun TaskSupervise ApiProg TaskApi.

#[local] Open Scope prog_scope.

(** ** The store *)

(** The runs by ID, every ID a run was ever recorded under, and every ID
    minted. *)
Record run_table : Type := mkRunTable {
  ru_runs : gmap string (RunRecord * gmap string RunNodeRecord);
  ru_used : gset string;
  ru_minted : gset string;
}.

Definition put_run (r : RunRecord) (s : run_table) : run_table :=
  mkRunTable (<[rr_ID r := (r, from_option snd ∅ (ru_runs s !! rr_ID r))]> (ru_runs s))
    ({[rr_ID r]} ∪ ru_used s) ({[rr_ID r]} ∪ ru_minted s).
Definition put_run_node (id node : string) (rec : RunNodeRecord) (s : run_table) : run_table :=
  mkRunTable (alter (fun c => (c.1, <[node := rec]> c.2)) id (ru_runs s)) (ru_used s) (ru_minted s).
Definition mint (id : string) (s : run_table) : run_table := mkRunTable (ru_runs s) (ru_used s) ({[id]} ∪ ru_minted s).

(** Runs that have ended may be dropped. *)
Definition pruned (s s' : run_table) : Prop :=
  ru_used s' = ru_used s /\ ru_minted s' = ru_minted s /\ ru_runs s' ⊆ ru_runs s /\
  forall id c, ru_runs s !! id = Some c -> Active c.1 = true -> ru_runs s' !! id = Some c.

(** A later head of a run: it has not come back from its end. *)
Definition keeps (h h' : RunRecord) : Prop :=
  rr_ID h' = rr_ID h /\ rr_Kind h' = rr_Kind h /\ rr_Nodes h' = rr_Nodes h /\ (Active h' = true -> Active h = true).

Definition lists (rs : list RunRecord) (s : run_table) : Prop :=
  forall r, r ∈ rs <-> exists id ns, ru_runs s !! id = Some (r, ns).

(** What a call does to the runs, with its answer.  A write that fails may
    have been made; an ID is minted once. *)
Definition runs_step (s : run_table) (c : acall) : aanswer c -> run_table -> Prop :=
  match c return aanswer c -> run_table -> Prop with
  | StListRuns => fun x s' => s' = s /\ forall rs, x = Ok rs -> lists rs s
  | APlanEnv => fun x s' => s' = s /\ forall rs, pe_ListRuns x = Ok rs -> lists rs s
  | StGetRun id => fun x s' => s' = s /\ forall c, x = Ok c -> ru_runs s !! id = Some c
  | StPutRun r => fun x s' => s' = put_run r s \/ x <> None /\ s' = s
  | StPutRunNode id node rec => fun x s' => s' = put_run_node id node rec s \/ x <> None /\ s' = s
  | StPruneRuns _ => fun _ s' => pruned s s'
  | NewRunID _ => fun x s' => s' = mint x s /\ x ∉ ru_minted s /\ x <> ""
  | EndLeftInstall id => fun _ s' =>
      pruned s s' \/
      exists c c', ru_runs s !! id = Some c /\ keeps c.1 c'.1 /\ pruned (mkRunTable (<[id := c']> (ru_runs s)) (ru_used s) (ru_minted s)) s'
  | _ => fun _ s' => s' = s
  end.

(** ** The engine's writes of a head *)

(** A head read and written under headMu; [change] says what is written. *)
Definition write_head (id : string) (change : RunRecord -> option RunRecord) : aprog unit :=
  ado HeadLock ;;;
  x <-- ado (StGetRun id) ;;
  (match x with
   | Err _ => Ret tt
   | Ok (h, _) => match change h with None => Ret tt | Some h => ado (StPutRun h) ;;; Ret tt end
   end) ;;;
  ado HeadUnlock.

Definition when (status : string) (h h' : RunRecord) : option RunRecord :=
  Some (if rr_Status h ==s status then h' else h).

(** The changes made: a run's end (finish of run.go, endLeftInstall), its
    handing over and its taking back (handOver, resumeHandedOver), and an
    install's credentials (clearLeftCredentials). *)
Inductive head_change : (RunRecord -> option RunRecord) -> Prop :=
| change_finish status reason now :
    status ∈ [RunSucceeded; RunFailed; RunStopped] -> head_change (fun h => Some (set_head h status reason now))
| change_hand : head_change (fun h => when RunRunning h (set_head_status h RunHandingOver))
| change_back : head_change (fun h => when RunHandingOver h (set_head_status h RunRunning))
| change_credentials : head_change (fun h => if Active h then None else Some (clear_credentials h)).

(** ** The leader *)

Record api_host : Type := mkApiHost {
  ah_runs : run_table;
  ah_gate : option nat;              (* the goroutine in the start gate *)
  ah_head : option nat;              (* the one that holds headMu *)
  ah_pool : list (aprog unit);
}.

Section Host.
Context `{YamlLib}.
Variable SplitHostPort : string -> option string.
Variable ParseIP_String : string -> option string.
Variable SanitizeOutput : string -> string.
Variable sha256_hex : string -> string.
Variable marshal_inputs : gmap string string -> string.
Variable marshal_targets : Targets -> string.
Variable builtinFS : string -> string.
Variable PathUnescape : string -> option string.

(** The goroutines that start on a leader. *)
Inductive api_request : aprog unit -> Prop :=
| req_list : api_request (ListTasks builtinFS ;;; Ret tt)
| req_get id : api_request (GetTask builtinFS PathUnescape id ;;; Ret tt)
| req_create body user : api_request (CreateTask builtinFS body user ;;; Ret tt)
| req_update id body user : api_request (UpdateTask builtinFS PathUnescape id body user ;;; Ret tt)
| req_delete id : api_request (DeleteTask builtinFS PathUnescape id ;;; Ret tt)
| req_plan body :
    api_request (PlanRun SplitHostPort ParseIP_String sha256_hex marshal_inputs marshal_targets builtinFS body ;;; Ret tt)
| req_start body user :
    api_request (StartRun SplitHostPort ParseIP_String sha256_hex marshal_inputs marshal_targets builtinFS body user ;;; Ret tt)
| req_rerun id only body user : api_request (RerunRun id only body user ;;; Ret tt)
| req_stop id force user : api_request (StopRun id force user ;;; Ret tt)
| req_runs : api_request (ListRuns ;;; Ret tt)
| req_run id : api_request (GetRun id ;;; Ret tt)
| req_output id node n skip : api_request (StepOutput SanitizeOutput id node n skip ;;; Ret tt)
| req_active : api_request (ActiveRun ;;; Ret tt)
| req_head id change : head_change change -> api_request (write_head id change)
| req_node id node rec : api_request (ado (StPutRunNode id node rec) ;;; Ret tt)
| req_prune keep : api_request (ado (StPruneRuns keep) ;;; Ret tt).

Definition task_run (r : RunRecord) : bool := negb (rr_Kind r ==s RunKindAgentInstall).

(** The agent installs change runs of their own kind alone. *)
Definition installs (s s' : run_table) : Prop :=
  (forall id c, task_run c.1 = true -> ru_runs s' !! id = Some c <-> ru_runs s !! id = Some c) /\
  (forall id c, ru_runs s' !! id = Some c -> rr_ID c.1 = id /\ (id <> "") /\
     (id ∈ ru_minted s -> exists c0, ru_runs s !! id = Some c0 /\ task_run c0.1 = task_run c.1)) /\
  ru_used s' = dom (ru_runs s') ∪ ru_used s /\ ru_minted s' = dom (ru_runs s') ∪ ru_minted s.

Definition may_acall (h : api_host) (c : acall) : Prop :=
  match c with
  | GateLock => ah_gate h = None
  | HeadLock | EndLeftInstall _ => ah_head h = None
  | _ => True
  end.
Definition gate_after (h : api_host) (i : nat) (c : acall) : option nat :=
  match c with GateLock => Some i | GateUnlock => None | _ => ah_gate h end.
Definition head_after (h : api_host) (i : nat) (c : acall) : option nat :=
  match c with HeadLock => Some i | HeadUnlock => None | _ => ah_head h end.

Inductive api_step : api_host -> api_host -> Prop :=
| api_call h i c k x s :
    ah_pool h !! i = Some (Do c k) -> may_acall h c -> runs_step (ah_runs h) c x s ->
    api_step h (mkApiHost s (gate_after h i c) (head_after h i c) (<[i := k x]> (ah_pool h)))
| api_more h p : api_request p -> api_step h (mkApiHost (ah_runs h) (ah_gate h) (ah_head h) (ah_pool h ++ [p]))
| api_install h s : installs (ah_runs h) s -> api_step h (mkApiHost s (ah_gate h) (ah_head h) (ah_pool h))
| api_restart h : api_step h (mkApiHost (ah_runs h) None None []).

(** A cluster that never ran a task. *)
Definition new_cluster : api_host := mkApiHost (mkRunTable ∅ ∅ ∅) None None [].
End Host.

(** Two task runs under way that hold a node are one. *)
Definition exclusive (s : run_table) : Prop :=
  forall id1 id2 c1 c2 n,
    ru_runs s !! id1 = Some c1 -> ru_runs s !! id2 = Some c2 ->
    task_run c1.1 = true -> task_run c2.1 = true -> Active c1.1 = true -> Active c2.1 = true ->
    n ∈ rr_Nodes c1.1 -> n ∈ rr_Nodes c2.1 -> id1 = id2.
