(* ===== verification/ApiHostFacts.v ===== *)
(** * One run at a time on a node

    Whatever is asked of a leader, two task runs under way never hold one
    node: a run is recorded in the start gate, where the runs under way were
    read, and no head ever comes back from its end. *)

From S2P Require Import Prelude GoStrings GoTime TaskModel TaskYaml ClusterFSM ClusterTaskStore TaskPlan.
From S2P Require Import Interact.
From S2P Require Import TaskRun TaskSupervise TaskRerun ApiProg TaskApi ApiHost.

#[local] Open Scope prog_scope.

(** ** What a goroutine knows *)

Inductive aknow : Type :=
| Outside
| InGate
| GateRead (rs : list RunRecord)
| GateNew (rs : list RunRecord) (id : string)
| InHead
| HeadRead (h : RunRecord).

(** The runs under way as they were read, and what a new run may hold. *)
Definition named (rs : list RunRecord) : Prop := Forall (fun r => rr_ID r <> "") rs.
Definition free_of (rs : list RunRecord) (nodes : list string) : Prop :=
  forall r n, r ∈ rs -> Active r = true -> n ∈ rr_Nodes r -> n ∉ nodes.

Definition in_gate (k : aknow) : bool := match k with InGate | GateRead _ | GateNew _ _ => true | _ => false end.
Definition in_head (k : aknow) : bool := match k with InHead | HeadRead _ => true | _ => false end.

Definition aknow_ok (k : aknow) (a : aaction) : Prop :=
  match projT1 a with
  | GateLock | HeadLock | EndLeftInstall _ => k = Outside
  | GateUnlock => in_gate k = true
  | HeadUnlock => in_head k = true
  | StPutRun r =>
      match k with
      | GateNew rs id => rr_ID r = id /\ (named rs -> free_of rs (rr_Nodes r))
      | HeadRead h => keeps h r
      | _ => False
      end
  | _ => True
  end.
Definition aknow_next (k : aknow) (a : aaction) : aknow :=
  match a with
  | existT c x =>
      match c return aanswer c -> aknow with
      | GateLock => fun _ => InGate
      | HeadLock => fun _ => InHead
      | GateUnlock | HeadUnlock => fun _ => Outside
      | StListRuns => fun x => match k, x with InGate, Ok rs => GateRead rs | _, _ => k end
      | NewRunID _ => fun x => match k with GateRead rs => GateNew rs x | _ => k end
      | StGetRun _ => fun x => match k, x with InHead, Ok (h, _) => HeadRead h | _, _ => k end
      | StPutRun _ => fun _ => match k with GateNew _ _ => InGate | HeadRead _ => InHead | _ => k end
      | _ => fun _ => k
      end x
  end.
Definition aknow_monitor : amonitor := mkMonitor aknow aknow_ok aknow_next.

Definition any_answer (_ : aaction) : Prop := True.
Definition asafe (k : aknow) (p : aprog unit) : Prop := wp any_answer aknow_monitor p k (fun _ k => k = Outside).

(** Calls that are no business of the locks and the heads. *)
Definition aplain (c : acall) : Prop :=
  match c with
  | GateLock | GateUnlock | HeadLock | HeadUnlock | EndLeftInstall _ | StPutRun _ => False
  | _ => True
  end.
(** Those that leave what is known as it is, too. *)
Definition astill (c : acall) : Prop :=
  match c with StListRuns | NewRunID _ | StGetRun _ => False | _ => aplain c end.

Lemma wp_still {A} (p : aprog A) k (Q : A -> aknow -> Prop) :
  only astill p -> (forall a, Q a k) -> wp any_answer aknow_monitor p k Q.
Proof. apply wp_only. intros c x Hc. by destruct c. Qed.

Lemma wp_outside {A} (p : aprog A) (Q : A -> aknow -> Prop) :
  only aplain p -> (forall a, Q a Outside) -> wp any_answer aknow_monitor p Outside Q.
Proof. apply wp_only. intros c x Hc. destruct c; try done; by destruct x. Qed.

(** One call, with what is known after it. *)
Ltac aknow_do x := apply wp_call; intros x _; split; [try done|cbn [aknow_monitor mn_next aknow_next]].

Section Host.
Context `{YamlLib}.
Variable SplitHostPort : string -> option string.
Variable ParseIP_String : string -> option string.
Variable SanitizeOutput : string -> string.
Variable sha256_hex : string -> string.
Variable marshal_inputs : gmap string string -> string.
Variable marshal_targets : Targets -> string.
Variable builtinFS : string -> string.
Variable PathUnescape : string -> option string.

Notation api_request :=
  (api_request SplitHostPort ParseIP_String SanitizeOutput sha256_hex marshal_inputs marshal_targets builtinFS PathUnescape).
Notation api_step :=
  (api_step SplitHostPort ParseIP_String SanitizeOutput sha256_hex marshal_inputs marshal_targets builtinFS PathUnescape).

(** ** The goroutines keep to the rules *)

Lemma only_loadTask id : only aplain (loadTask builtinFS id).
Proof. unfold loadTask. only_go. Qed.
Lemma only_put_document doc user source id :
  only aplain id -> only aplain (put_document builtinFS doc user source id).
Proof. intros Hid. unfold put_document. only_go. Qed.

Lemma wp_apiEnv f (Q : api_answer -> aknow -> Prop) :
  (forall a, Q a Outside) -> wp any_answer aknow_monitor f Outside Q -> wp any_answer aknow_monitor (apiEnv f) Outside Q.
Proof. intros HQ Hf. unfold apiEnv. aknow_do here. destruct here; [done|apply HQ]. Qed.
Lemma wp_forward f (Q : api_answer -> aknow -> Prop) :
  (forall a, Q a Outside) -> wp any_answer aknow_monitor f Outside Q -> wp any_answer aknow_monitor (forward f) Outside Q.
Proof.
  intros HQ Hf. unfold forward. aknow_do leads. destruct leads.
  - aknow_do up. destruct up; [done|apply HQ].
  - aknow_do sent. destruct sent; [apply HQ|done].
Qed.

(** ** A claim *)

Lemma held_by held run r n : n ∈ rr_Nodes r -> rr_ID r <> "" ->
  default "" (hold_nodes r held !! n) <> "" /\ (default "" (held !! run) <> "" -> default "" (hold_nodes r held !! run) <> "").
Proof.
  intros Hn Hr. unfold hold_nodes.
  assert (Hk : forall l (m : gmap string string) i, default "" (m !! i) <> "" ->
    default "" (fold_left (fun m id => <[id := rr_ID r]> m) l m !! i) <> "").
  { induction l as [|x l IH]; intros m i Hm; simpl; [done|]. apply IH.
    destruct (decide (x = i)) as [->|]; [by rewrite lookup_insert_eq|by rewrite lookup_insert_ne]. }
  split; [|apply Hk]. revert held Hn. induction (rr_Nodes r) as [|x l IH]; intros m Hn; simpl; [by apply not_elem_of_nil in Hn|].
  apply elem_of_cons in Hn as [->|Hn]; [|by apply IH]. apply Hk. by rewrite lookup_insert_eq.
Qed.

Lemma heldNodes_held rs held r n :
  heldNodes (Ok rs) = Ok held -> named rs -> r ∈ rs -> Active r = true -> n ∈ rr_Nodes r -> default "" (held !! n) <> "".
Proof.
  unfold heldNodes. cbn. intros [= <-] Hn Hr Ha Hin. generalize (∅ : gmap string string).
  assert (Hk : forall l (m : gmap string string), named l -> default "" (m !! n) <> "" ->
    default "" (fold_left (fun held r => if negb (Active r) then held else hold_nodes r held) l m !! n) <> "").
  { induction l as [|x l IH]; intros m Hl Hm; simpl; [done|]. inversion Hl; subst. apply IH; [done|].
    destruct (negb (Active x)); [done|]. unfold hold_nodes. revert m Hm.
    induction (rr_Nodes x) as [|y ys IHy]; intros m Hm; simpl; [done|]. apply IHy.
    destruct (decide (y = n)) as [->|]; [by rewrite lookup_insert_eq|by rewrite lookup_insert_ne]. }
  induction rs as [|x l IH]; intros m; simpl; [by apply not_elem_of_nil in Hr|]. inversion Hn; subst.
  apply elem_of_cons in Hr as [<-|Hr]; [|by apply IH]. apply Hk; [done|]. rewrite Ha. by apply held_by.
Qed.

Lemma first_held_None held nodes n : first_held held nodes = None -> n ∈ nodes -> default "" (held !! n) = "".
Proof.
  unfold first_held. induction nodes as [|x l IH]; intros Hf Hn; [by apply not_elem_of_nil in Hn|]. simpl in Hf.
  destruct (default "" (held !! x) ==s "") eqn:E; [|done]. go_bools.
  apply elem_of_cons in Hn as [->|Hn]; [done|by apply IH].
Qed.

Lemma free_to_claim rs held nodes :
  heldNodes (Ok rs) = Ok held -> first_held held nodes = None -> named rs -> free_of rs nodes.
Proof.
  intros Hh Hf Hn r n Hr Ha Hin Hin'. eapply heldNodes_held; [done..|]. by eapply first_held_None.
Qed.

Lemma wp_rebootBusy doc nodes rs (Q : result api_error string -> aknow -> Prop) :
  (forall x, Q x (GateRead rs)) -> wp any_answer aknow_monitor (rebootBusy doc nodes) (GateRead rs) Q.
Proof.
  intros HQ. unfold rebootBusy. aknow_do ns. cbv zeta. destruct (negb _); [apply HQ|].
  aknow_do runs. destruct runs as [runs|e]; [|apply HQ].
  apply wp_still; [|done]. induction runs as [|r runs IH]; simpl reboot_run; only_go.
Qed.

Lemma wp_claim run doc (Q : result api_error RunRecord -> aknow -> Prop) :
  (forall x, Q x Outside) -> wp any_answer aknow_monitor (claim run doc) Outside Q.
Proof.
  intros HQ. unfold claim. aknow_do b. apply wp_bind.
  assert (Hout : forall x k, in_gate k = true -> wp any_answer aknow_monitor (ado GateUnlock ;;; Ret x) k Q).
  { intros x k Hk u _. split; [done|apply HQ]. }
  unfold claim_body. destruct (busy_error b); [by apply Hout|]. aknow_do busy. destruct busy; [by apply Hout|].
  aknow_do runs. destruct (heldNodes runs) as [held|e] eqn:Eh; [|destruct runs; by apply Hout].
  destruct runs as [rs|e]; [|done]. destruct (first_held held (rr_Nodes run)) as [[n other]|] eqn:Ef; [by apply Hout|].
  apply wp_bind, wp_rebootBusy. intros [other|e]; [|by apply Hout]. destruct (negb _); [by apply Hout|].
  aknow_do sha. destruct sha as [sha|e]; [|by apply Hout]. aknow_do t. aknow_do nid. cbv zeta.
  apply wp_call. intros err _. split; [|destruct err; by apply Hout]. simpl. split; [done|]. by apply free_to_claim with held.
Qed.

Lemma wp_start_claimed run doc (Q : api_answer -> aknow -> Prop) :
  (forall a, Q a Outside) -> wp any_answer aknow_monitor (start run doc) Outside Q.
Proof.
  intros HQ. unfold start, answered. apply wp_bind, wp_claim. intros [run'|e]; [|apply HQ].
  apply wp_outside; [|done]. unfold begin. only_go.
Qed.

Lemma wp_answered {A} (x : aprog (result api_error A)) f (Q : api_answer -> aknow -> Prop) :
  only aplain x -> (forall a, Q a Outside) -> (forall a, wp any_answer aknow_monitor (f a) Outside Q) ->
  wp any_answer aknow_monitor (answered x f) Outside Q.
Proof. intros Hx HQ Hf. apply wp_bind, wp_outside; [done|]. intros [a|e]; [apply Hf|apply HQ]. Qed.

Lemma only_readRunRequest body : only aplain (readRunRequest builtinFS body).
Proof. pose proof only_loadTask. unfold readRunRequest. only_go. Qed.

Lemma wp_StartRun body user (Q : api_answer -> aknow -> Prop) :
  (forall a, Q a Outside) ->
  wp any_answer aknow_monitor
    (StartRun SplitHostPort ParseIP_String sha256_hex marshal_inputs marshal_targets builtinFS body user) Outside Q.
Proof.
  intros HQ. apply wp_apiEnv, wp_forward, wp_answered; [done..|apply only_readRunRequest|done|]. intros [req rt].
  aknow_do ws. destruct ws; [|apply HQ]. cbn [pbind].
  destruct (confirmable _ _ _ req rt); [apply HQ|]. cbv zeta. destruct (no_such_step _ _); [apply HQ|].
  aknow_do env. destruct (orderRun _ _ _) as [[plan|e]|]; [|apply HQ|done].
  destruct (renderPlan _ _ _ _ _ _); [|apply HQ]. destruct (pl_Waves plan); [apply HQ|]. by apply wp_start_claimed.
Qed.

Lemma wp_RerunRun id only body user (Q : api_answer -> aknow -> Prop) :
  (forall a, Q a Outside) -> wp any_answer aknow_monitor (RerunRun id only body user) Outside Q.
Proof.
  intros HQ. apply wp_apiEnv, wp_forward; [done..|]. aknow_do x. destruct x as [[src nodes]|e]; [|apply HQ].
  destruct (_ ==s RunKindAgentInstall); [apply HQ|]. destruct (Active src); [apply HQ|].
  destruct (chosen_nodes _ _ _ _) as [chosen|a]; [|apply HQ]. destruct (rerunFrom _ _ _) as [run startAt].
  destruct (rr_Nodes run) eqn:En; [apply HQ|]. unfold rerun_nodes. aknow_do ws. destruct ws; [|apply HQ]. cbn [pbind].
  aknow_do env. destruct (orderRun _ _ _) as [[plan|e]|]; [|apply HQ|done]. destruct (pl_Waves plan); [apply HQ|].
  aknow_do doc. destruct doc; [by apply wp_start_claimed|apply HQ].
Qed.

(** A head read under the lock, and written or not. *)
Lemma keeps_stop h force user h' : stopped_head h force user = Some h' -> keeps h h'.
Proof.
  unfold stopped_head. destruct ((_ ==s RunRunning) || _) eqn:E1; [|destruct (_ && _ && _) eqn:E2; [|done]]; intros [= <-].
  all: split_and!; [done..|]; intros _; unfold Active.
  all: by destruct (rr_Status h ==s RunRunning), (rr_Status h ==s RunStopping), (rr_Status h ==s RunHandingOver).
Qed.

Lemma keeps_change change h h' : head_change change -> change h = Some h' -> keeps h h'.
Proof.
  intros [status reason now Hs| | |] Hc; simpl in Hc.
  - injection Hc as <-. split_and!; [done..|]. unfold Active, set_head; simpl.
    set_unfold. by destruct Hs as [-> | [-> | [-> | []]]].
  - unfold when in Hc. destruct (_ ==s _) eqn:E; injection Hc as <-; [|done]. split_and!; [done..|]. intros _.
    unfold Active. by rewrite E.
  - unfold when in Hc. destruct (_ ==s _) eqn:E; injection Hc as <-; [|done]. split_and!; [done..|]. intros _.
    unfold Active. by rewrite E, !orb_true_r.
  - destruct (Active h) eqn:E; [done|]. injection Hc as <-. by split_and!.
Qed.

Lemma wp_stop_task id force user (Q : api_answer -> aknow -> Prop) :
  (forall a, Q a Outside) -> wp any_answer aknow_monitor (stop_task id force user) Outside Q.
Proof.
  intros HQ. unfold stop_task. aknow_do u. aknow_do x. apply wp_bind.
  assert (Hout : forall a k, in_head k = true -> wp any_answer aknow_monitor (ado HeadUnlock ;;; Ret a) k Q).
  { intros a k Hk v _. split; [done|apply HQ]. }
  destruct x as [[h ns]|e]; [|by apply Hout]. destruct (stopped_head h force user) as [h'|] eqn:Eh; [|by apply Hout].
  apply wp_call. intros err _. split; [by eapply keeps_stop|by apply Hout].
Qed.

Lemma wp_write_head id change : head_change change -> asafe Outside (write_head id change).
Proof.
  intros Hc. unfold asafe, write_head. aknow_do u. aknow_do x. apply wp_bind.
  assert (Hout : forall k, in_head k = true -> wp any_answer aknow_monitor (ado HeadUnlock) k (fun _ k => k = Outside)).
  { intros k Hk v _. by split. }
  destruct x as [[h ns]|e]; [|by apply Hout]. destruct (change h) as [h'|] eqn:Eh; [|by apply Hout].
  apply wp_call. intros err _. split; [by eapply keeps_change|by apply Hout].
Qed.

Lemma wp_StopRun id force user (Q : api_answer -> aknow -> Prop) :
  (forall a, Q a Outside) -> wp any_answer aknow_monitor (StopRun id force user) Outside Q.
Proof.
  intros HQ. apply wp_apiEnv, wp_forward; [done..|]. destruct force as [force|]; [|apply HQ]. aknow_do x.
  assert (Hs : wp any_answer aknow_monitor (stop_task id force user) Outside Q) by (by apply wp_stop_task).
  assert (Hn : forall id, wp any_answer aknow_monitor (head_now id) Outside Q).
  { intros id'. apply wp_outside; [|done]. unfold head_now. only_go. }
  destruct x as [[h ns]|e]; [|done]. destruct (_ ==s RunKindAgentInstall); [|done].
  unfold stopInstall. destruct (negb _); [apply Hn|]. aknow_do owns. destruct owns.
  - aknow_do err. destruct err; [apply HQ|apply Hn].
  - aknow_do err. destruct err; [apply HQ|apply Hn].
Qed.

Lemma asafe_request p : api_request p -> asafe Outside p.
Proof.
  pose proof only_loadTask. pose proof only_put_document. pose proof only_readRunRequest.
  assert (only aplain (ado NewTaskID)) by only_go.
  assert (forall id, only aplain (Ret id : aprog string)) by done.
  destruct 1; unfold asafe; try (by apply wp_write_head); apply wp_bind;
    try (by apply wp_StartRun); try (by apply wp_RerunRun); try (by apply wp_StopRun); apply wp_outside; try done.
  - unfold ListTasks, apiEnv. only_go.
  - unfold GetTask, apiEnv, answered. only_go.
  - unfold CreateTask, apiEnv, forward. only_go.
  - unfold UpdateTask, apiEnv, forward, answered. only_go.
  - unfold DeleteTask, apiEnv, forward, answered. only_go.
  - unfold PlanRun, apiEnv, forward, answered. only_go.
  - unfold ListRuns, apiEnv. only_go.
  - unfold GetRun, runSteps, apiEnv. only_go.
  - unfold StepOutput, installOutput, apiEnv, forward. only_go.
  - unfold ActiveRun. only_go.
Qed.
End Host.

(** ** The runs *)

Record table_ok (s : run_table) : Prop := {
  ta_ids id c : ru_runs s !! id = Some c -> rr_ID c.1 = id /\ id ∈ ru_used s;
  ta_minted : ru_used s ⊆ ru_minted s;
  ta_named : "" ∉ ru_used s;
  ta_exclusive : exclusive s;
}.

(** What is read stays known: the runs under way since are among them. *)
Definition covers (rs : list RunRecord) (s : run_table) : Prop :=
  forall id c, ru_runs s !! id = Some c -> task_run c.1 = true -> Active c.1 = true ->
    exists r, r ∈ rs /\ Active r = true /\ rr_Nodes r = rr_Nodes c.1.
(** The head read is the run's, as far as a task run's goes. *)
Definition heads (h : RunRecord) (s : run_table) : Prop :=
  rr_ID h ∈ ru_used s /\
  match ru_runs s !! rr_ID h with
  | Some c => rr_Kind c.1 = rr_Kind h /\ (task_run h = true -> rr_Nodes c.1 = rr_Nodes h /\ Active c.1 = Active h)
  | None => task_run h = true -> Active h = false
  end.
Definition known (k : aknow) (s : run_table) : Prop :=
  match k with
  | GateRead rs => named rs /\ covers rs s
  | GateNew rs id => named rs /\ covers rs s /\ id ∈ ru_minted s /\ id ∉ ru_used s /\ id <> ""
  | HeadRead h => heads h s
  | _ => True
  end.

(** The runs under way go on with the nodes they have; other runs may end,
    and be dropped. *)
Definition fewer (s s' : run_table) : Prop :=
  forall id c, ru_runs s' !! id = Some c -> task_run c.1 = true -> Active c.1 = true ->
    exists c0, ru_runs s !! id = Some c0 /\ task_run c0.1 = true /\ Active c0.1 = true /\ rr_Nodes c0.1 = rr_Nodes c.1.

Lemma fewer_exclusive s s' : fewer s s' -> exclusive s -> exclusive s'.
Proof.
  intros Hf He id1 id2 c1 c2 n H1 H2 T1 T2 A1 A2 N1 N2.
  destruct (Hf _ _ H1 T1 A1) as (d1 & D1 & DT1 & DA1 & E1), (Hf _ _ H2 T2 A2) as (d2 & D2 & DT2 & DA2 & E2).
  apply (He id1 id2 d1 d2 n); congruence.
Qed.
Lemma fewer_covers rs s s' : fewer s s' -> covers rs s -> covers rs s'.
Proof.
  intros Hf Hc id c H T A. destruct (Hf _ _ H T A) as (d & D & DT & DA & E).
  destruct (Hc _ _ D DT DA) as (r & ? & ? & ?). exists r. split_and!; [done|done|congruence].
Qed.
Lemma lists_covers rs s : table_ok s -> lists rs s -> named rs /\ covers rs s.
Proof.
  intros [Hid _ Hn _] Hl. split.
  - apply Forall_forall. intros r (id & ns & Hr)%Hl. destruct (Hid _ _ Hr) as [E ?]. simpl in E. congruence.
  - intros id [r ns] H T A. exists r. split_and!; [|done|done]. apply Hl. by exists id, ns.
Qed.

(** A change that brings no run under way: what a gate goroutine has read
    still covers the runs. *)
Record mild (s s' : run_table) : Prop := {
  mi_ok : table_ok s';
  mi_fewer : fewer s s';
  mi_used : ru_used s' = ru_used s;
  mi_minted : ru_minted s' = ru_minted s;
}.

Lemma mild_trans s1 s2 s3 : mild s1 s2 -> mild s2 s3 -> mild s1 s3.
Proof.
  intros [_ F1 U1 M1] [O2 F2 U2 M2]. split; [done| |congruence..]. intros id c H T A.
  destruct (F2 _ _ H T A) as (d & D & DT & DA & E). destruct (F1 _ _ D DT DA) as (e & ? & ? & ? & ?).
  exists e. split_and!; [done..|congruence].
Qed.

Lemma mild_pruned s s' : table_ok s -> pruned s s' -> mild s s'.
Proof.
  intros [Hid Hm Hn He] (Hu & Hmi & Hsub & _). assert (Hf : fewer s s').
  { intros id c H T A. exists c. split_and!; [|done..]. by eapply lookup_weaken. }
  split; [split|done..]; rewrite ?Hu, ?Hmi; try done; [|by eapply fewer_exclusive].
  intros id c H. apply Hid. by eapply lookup_weaken.
Qed.

Lemma mild_node id node rec s : table_ok s -> mild s (put_run_node id node rec s).
Proof.
  intros [Hid Hm Hn He]. assert (Hl : forall j c, ru_runs (put_run_node id node rec s) !! j = Some c ->
    exists c0, ru_runs s !! j = Some c0 /\ c.1 = c0.1).
  { intros j c H. simpl in H. destruct (decide (id = j)) as [<-|Hne].
    - rewrite lookup_alter_eq in H. destruct (ru_runs s !! id) as [c0|]; simplify_eq/=. by exists c0.
    - rewrite lookup_alter_ne in H by done. by exists c. }
  assert (Hf : fewer s (put_run_node id node rec s)).
  { intros j c (c0 & H & ->)%Hl T A. by exists c0. }
  split; [split|done..]; try done; [|by eapply fewer_exclusive].
  intros j c (c0 & H & ->)%Hl. by apply Hid.
Qed.

(** A head written over what is at its ID, if it keeps to it. *)
Lemma mild_head s h c : table_ok s -> heads h s -> keeps h c.1 ->
  mild s (mkRunTable (<[rr_ID h := c]> (ru_runs s)) (ru_used s) (ru_minted s)).
Proof.
  intros [Hid Hm Hn He] [Hu Hh] (Ei & Ek & En & Ha).
  assert (Hf : fewer s (mkRunTable (<[rr_ID h := c]> (ru_runs s)) (ru_used s) (ru_minted s))).
  { intros j d H T A. simpl in H. destruct (decide (rr_ID h = j)) as [<-|Hne].
    - rewrite lookup_insert_eq in H. injection H as <-. assert (Th : task_run h = true) by (unfold task_run in *; by rewrite <-Ek).
      specialize (Ha A). destruct (ru_runs s !! rr_ID h) as [c0|]; [|by rewrite Hh in Ha].
      destruct Hh as [Ek0 Hc0]. destruct (Hc0 Th) as [En0 Ea0]. exists c0. split_and!; [done| |congruence..].
      unfold task_run in *. by rewrite Ek0.
    - rewrite lookup_insert_ne in H by done. by exists d. }
  split; [split|done..]; try done; [|by eapply fewer_exclusive].
  intros j d H. simpl in H. apply lookup_insert_Some in H as [[<- <-]|[_ H]]; [|by apply Hid]. by rewrite Ei.
Qed.

Lemma put_run_head h r s : table_ok s -> heads h s -> keeps h r -> mild s (put_run r s).
Proof.
  intros Ht Hh Hk. pose proof Hk as (Ei & _). pose proof Hh as [Hu _]. pose proof (ta_minted _ Ht) as Hm.
  unfold put_run. rewrite Ei.
  replace ({[rr_ID h]} ∪ ru_used s) with (ru_used s) by set_solver.
  replace ({[rr_ID h]} ∪ ru_minted s) with (ru_minted s) by set_solver. by apply mild_head.
Qed.

(** A new run, under an ID of its own, over nodes none under way has. *)
Lemma put_run_new rs r s :
  table_ok s -> covers rs s -> free_of rs (rr_Nodes r) -> rr_ID r ∈ ru_minted s -> rr_ID r ∉ ru_used s -> rr_ID r <> "" ->
  table_ok (put_run r s).
Proof.
  intros [Hid Hm Hn He] Hc Hf Hmi Hu Hne. split; simpl; [|set_solver..|].
  - intros id c [[<- <-]|[_ H]]%lookup_insert_Some; [set_solver|]. destruct (Hid _ _ H). set_solver.
  - assert (Hnew : forall id c n, ru_runs s !! id = Some c -> task_run c.1 = true -> Active c.1 = true ->
      n ∈ rr_Nodes c.1 -> n ∈ rr_Nodes r -> False).
    { intros id c n H T A N1 N2. destruct (Hc _ _ H T A) as (r0 & Hr0 & A0 & E). apply (Hf r0 n Hr0 A0); [by rewrite E|done]. }
    intros id1 id2 c1 c2 n H1 H2 T1 T2 A1 A2 N1 N2. simpl in *.
    apply lookup_insert_Some in H1 as [[<- <-]|[Hne1 H1]]; apply lookup_insert_Some in H2 as [[<- <-]|[Hne2 H2]]; simpl in *.
    + done.
    + exfalso. by apply (Hnew id2 c2 n).
    + exfalso. by apply (Hnew id1 c1 n).
    + by apply (He id1 id2 c1 c2 n).
Qed.

(** ** What a call leaves of what is known *)

Lemma heads_pruned h s s' : heads h s -> pruned s s' -> heads h s'.
Proof.
  intros [Hu Hh] (Eu & _ & Hsub & Hact). split; [by rewrite Eu|].
  destruct (ru_runs s' !! rr_ID h) as [c|] eqn:E.
  - by rewrite (lookup_weaken _ _ _ _ E Hsub) in Hh.
  - intros T. destruct (ru_runs s !! rr_ID h) as [c|] eqn:E0; [|by apply Hh].
    destruct Hh as [_ Hh]. destruct (Hh T) as [_ <-]. destruct (Active c.1) eqn:Ea; [|done].
    by rewrite (Hact _ _ E0 Ea) in E.
Qed.
Lemma heads_node h id node rec s : heads h s -> heads h (put_run_node id node rec s).
Proof.
  intros [Hu Hh]. split; [done|]. simpl. destruct (decide (id = rr_ID h)) as [->|Hne].
  - rewrite lookup_alter_eq. by destruct (ru_runs s !! rr_ID h).
  - by rewrite lookup_alter_ne.
Qed.
Lemma heads_other h r s : heads h s -> rr_ID r ∉ ru_used s -> heads h (put_run r s).
Proof.
  intros [Hu Hh] Hr. split; simpl; [set_solver|]. rewrite lookup_insert_ne; [done|]. intros E. by rewrite E in Hr.
Qed.
Lemma heads_installs h s s' : table_ok s -> heads h s -> installs s s' -> heads h s'.
Proof.
  intros Ht [Hu Hh] (Htask & Hrest & Eu & _). split; [rewrite Eu; set_solver|].
  pose proof (ta_minted _ Ht _ Hu) as Hm. destruct (ru_runs s' !! rr_ID h) as [c|] eqn:E.
  - destruct (Hrest _ _ E) as (_ & _ & Hc). destruct (Hc Hm) as (c0 & E0 & T0). rewrite E0 in Hh.
    destruct (task_run c.1) eqn:T.
    + apply Htask in E; [|done]. by simplify_eq.
    + destruct Hh as [K0 _]. unfold task_run in *. go_bools. rewrite T, T0 in *. split; [done|].
      intros Th. by rewrite <-K0 in Th.
  - intros T. destruct (ru_runs s !! rr_ID h) as [c|] eqn:E0; [|by apply Hh].
    destruct Hh as [K Hh]. assert (Tc : task_run c.1 = true) by (unfold task_run in *; by rewrite K).
    apply Htask in E0; [|done]. congruence.
Qed.
Lemma heads_read h ns id s : table_ok s -> ru_runs s !! id = Some (h, ns) -> heads h s.
Proof. intros Ht H. destruct (ta_ids _ Ht _ _ H) as [E ?]. simpl in E. subst id. split; [done|]. by rewrite H. Qed.

Lemma installs_ok s s' : table_ok s -> installs s s' -> table_ok s'.
Proof.
  intros [Hid Hm Hn He] (Htask & Hrest & Eu & Em). split.
  - intros id c H. destruct (Hrest _ _ H) as (E & _). split; [done|]. rewrite Eu. apply elem_of_union_l.
    by apply elem_of_dom.
  - rewrite Eu, Em. set_solver.
  - rewrite Eu. intros [[c H]%elem_of_dom|H]%elem_of_union; [|done]. by destruct (Hrest _ _ H) as (_ & ? & _).
  - intros id1 id2 c1 c2 n H1 H2 T1 T2. apply Htask in H1; [|done]. apply Htask in H2; [|done]. by eapply He.
Qed.
Lemma installs_gate k s s' : table_ok s -> in_gate k = true -> known k s -> installs s s' -> known k s'.
Proof.
  intros Ht Hg Hk (Htask & Hrest & Eu & Em).
  assert (Hc : forall rs, covers rs s -> covers rs s').
  { intros rs Hc id c H T. apply Htask in H; [|done]. by apply Hc with id. }
  destruct k as [| |rs|rs id| |]; try done; simpl in *.
  - destruct Hk. by auto.
  - destruct Hk as (? & ? & Hm & Hu & ?). split_and!; [done|by auto|rewrite Em; set_solver| |done].
    rewrite Eu. intros [[c Hin]%elem_of_dom|Hin]%elem_of_union; [|done]. destruct (Hrest _ _ Hin) as (_ & _ & H').
    destruct (H' Hm) as (c0 & Hc0 & _). by destruct (ta_ids _ Ht _ _ Hc0).
Qed.
Lemma known_installs k s s' : table_ok s -> known k s -> installs s s' -> known k s'.
Proof.
  intros Ht Hk Hi. destruct k; try done; try (by eapply installs_gate). by eapply heads_installs.
Qed.

Lemma mint_ok id s : table_ok s -> id <> "" -> table_ok (mint id s).
Proof. intros [Hid Hm Hn He] Hne. split; try done. simpl. set_solver. Qed.
Lemma mint_gate k id s : in_gate k = true -> known k s -> known k (mint id s).
Proof. destruct k; try done. intros _ (Hn & Hc & Hm & Hr). split_and!; [done|exact Hc|simpl; set_solver|apply Hr..]. Qed.
Lemma mild_gate k s s' : in_gate k = true -> known k s -> mild s s' -> known k s'.
Proof.
  intros Hg Hk [_ Hf Eu Em]. destruct k as [| |rs|rs id| |]; try done; simpl in *; rewrite ?Eu, ?Em.
  - destruct Hk. split; [done|]. by eapply fewer_covers.
  - destruct Hk as (? & ? & ?). split_and!; try naive_solver. by eapply fewer_covers.
Qed.

(** A call that keeps to the rules: it brings no run under way, mints an ID,
    or records a claim. *)
Lemma step_cases k c x s s' :
  table_ok s -> known k s -> aknow_ok k (aact c x) -> runs_step s c x s' ->
  mild s s' \/ (exists id, s' = mint id s /\ id <> "") \/
  (exists rs r, k = GateNew rs (rr_ID r) /\ c = StPutRun r /\ s' = put_run r s /\ table_ok s').
Proof.
  intros Ht Hk Hok Hs. pose proof (mild_pruned s s Ht) as Hsame.
  assert (Hm : mild s s) by (apply Hsame; by split_and!).
  destruct c; simpl in Hs; try (subst s'; by left); try (destruct Hs as [-> _]; by left).
  - right; left. destruct Hs as (-> & _ & ?). by eexists.
  - destruct Hs as [->|[_ ->]]; [|by left]. destruct k as [| |rs|rs id| |h]; try done; simpl in *.
    + right; right. destruct Hok as [<- Hfree], Hk as (Hn & Hc & Hmi & Hu & Hne). exists rs, r. split_and!; try done.
      by eapply put_run_new; eauto.
    + left. by eapply put_run_head.
  - left. destruct Hs as [Hs|(c & c' & Hc & Hkeeps & Hs)]; [by apply mild_pruned|].
    destruct c as [h ns], c' as [h' ns']. pose proof (heads_read _ _ _ _ Ht Hc) as Hh.
    assert (id = rr_ID h) as -> by (symmetry; by apply (ta_ids _ Ht _ _ Hc)).
    pose proof (mild_head _ _ (h', ns') Ht Hh Hkeeps) as Hm'. eapply mild_trans; [done|].
    by apply mild_pruned; [apply Hm'|].
  - destruct Hs as [->|[_ ->]]; [|by left]. left. by apply mild_node.
  - left. by apply mild_pruned.
Qed.

Lemma step_table_ok k c x s s' :
  table_ok s -> known k s -> aknow_ok k (aact c x) -> runs_step s c x s' -> table_ok s'.
Proof.
  intros Ht Hk Hok Hs. destruct (step_cases _ _ _ _ _ Ht Hk Hok Hs) as [Hm|[(id & -> & ?)|(rs & r & _ & _ & _ & ?)]].
  - apply Hm.
  - by apply mint_ok.
  - done.
Qed.

(** The calls that leave a head to the one that holds it. *)
Lemma heads_step h c x s s' :
  heads h s -> (forall r, c = StPutRun r -> rr_ID r ∉ ru_used s) -> (forall id, c <> EndLeftInstall id) ->
  runs_step s c x s' -> heads h s'.
Proof.
  intros Hh Hput Hend Hs. destruct c; simpl in Hs; try (by subst s'); try (by destruct Hs as [-> _]).
  - destruct Hs as [->|[_ ->]]; [|done]. by apply heads_other, Hput.
  - by edestruct Hend.
  - destruct Hs as [->|[_ ->]]; [|done]. by apply heads_node.
  - by eapply heads_pruned.
Qed.

(** What another knows, as one takes a step: they are not both in the gate,
    nor both at the heads. *)
Lemma known_other k' k c x s s' :
  table_ok s -> known k s -> aknow_ok k (aact c x) -> runs_step s c x s' ->
  known k' s ->
  (in_gate k' = true -> in_gate k = false) ->
  (in_head k' = true -> in_head k = false /\ forall id, c <> EndLeftInstall id) ->
  known k' s'.
Proof.
  intros Ht Hk Hok Hs Hk' Hg Hh. destruct (in_gate k') eqn:Eg.
  - specialize (Hg eq_refl). destruct (step_cases _ _ _ _ _ Ht Hk Hok Hs) as [Hm|[(id & -> & ?)|(rs & r & -> & _)]].
    + by eapply mild_gate.
    + by apply mint_gate.
    + done.
  - destruct k' as [| | | | |h]; try done. destruct (Hh eq_refl) as [Hh' Hend].
    eapply heads_step; [done| |done..]. intros r ->. destruct k; try done. simpl in *. destruct Hok as [-> _], Hk. naive_solver.
Qed.

(** And what one knows itself. *)
Lemma known_own k c x s s' :
  table_ok s -> known k s -> aknow_ok k (aact c x) -> runs_step s c x s' -> known (aknow_next k (aact c x)) s'.
Proof.
  intros Ht Hk Hok Hs. pose proof (step_table_ok _ _ _ _ _ Ht Hk Hok Hs) as Ht'.
  assert (Hstill : in_gate k = true -> (forall r, c <> StPutRun r) -> known k s').
  { intros Hg Hput. destruct (step_cases _ _ _ _ _ Ht Hk Hok Hs) as [Hm|[(id & -> & ?)|(rs & r & _ & E & _)]].
    - by eapply mild_gate.
    - by apply mint_gate.
    - by destruct (Hput r). }
  assert (Hhead : in_head k = true -> (forall r, c <> StPutRun r) -> known k s').
  { intros Hi Hput. destruct k as [| | | | |h]; try done. eapply heads_step; [done| | |done]; [intros r E; by destruct (Hput r)|].
    by intros id ->. }
  assert (Hkept : aknow_next k (aact c x) = k -> (forall r, c <> StPutRun r) -> known (aknow_next k (aact c x)) s').
  { intros E Hput. rewrite E. destruct k; try done; solve [by apply Hstill|by apply Hhead]. }
  destruct c; try (by apply Hkept); try done; simpl in *.
  - destruct k as [| |rs|rs id| |h]; try (by apply Hkept). destruct Hs as (-> & Hnew & Hne), Hk as [Hn Hc].
    pose proof (ta_minted _ Ht). split_and!; [done..|simpl; set_solver|simpl; set_solver|done].
  - destruct Hs as [-> Hl]. destruct k; try (by apply Hkept). destruct x; [|by apply Hkept].
    by apply lists_covers; [|apply Hl].
  - destruct Hs as [-> Hl]. destruct k; try (by apply Hkept). destruct x as [[h ns]|]; [|by apply Hkept].
    by eapply heads_read; [|apply Hl].
  - by destruct k.
Qed.

(** ** The pool *)

(** What the goroutines know, one by one: each keeps to the rules from it,
    one at most is in the gate and one at the heads, and what they know is
    so. *)
Section Pool.
Context `{YamlLib}.
Variable SplitHostPort : string -> option string.
Variable ParseIP_String : string -> option string.
Variable SanitizeOutput : string -> string.
Variable sha256_hex : string -> string.
Variable marshal_inputs : gmap string string -> string.
Variable marshal_targets : Targets -> string.
Variable builtinFS : string -> string.
Variable PathUnescape : string -> option string.

Notation api_request :=
  (api_request SplitHostPort ParseIP_String SanitizeOutput sha256_hex marshal_inputs marshal_targets builtinFS PathUnescape).
Notation api_step :=
  (api_step SplitHostPort ParseIP_String SanitizeOutput sha256_hex marshal_inputs marshal_targets builtinFS PathUnescape).

Record apool_ok (h : api_host) (ks : list aknow) : Prop := {
  ap_length : length ks = length (ah_pool h);
  ap_safe i p k : ah_pool h !! i = Some p -> ks !! i = Some k -> asafe k p;
  ap_gate i k : ks !! i = Some k -> in_gate k = true <-> ah_gate h = Some i;
  ap_head i k : ks !! i = Some k -> in_head k = true <-> ah_head h = Some i;
  ap_gate_in i : ah_gate h = Some i -> (i < length ks)%nat;
  ap_head_in i : ah_head h = Some i -> (i < length ks)%nat;
  ap_known i k : ks !! i = Some k -> known k (ah_runs h);
}.

Definition api_ok (h : api_host) : Prop := table_ok (ah_runs h) /\ exists ks, apool_ok h ks.

Lemma in_gate_next k c x : aknow_ok k (aact c x) ->
  in_gate (aknow_next k (aact c x)) = match c with GateLock => true | GateUnlock => false | _ => in_gate k end.
Proof. intros Hok. destruct c; simpl in *; try done; destruct k; try done; repeat case_match; done. Qed.
Lemma in_head_next k c x : aknow_ok k (aact c x) ->
  in_head (aknow_next k (aact c x)) = match c with HeadLock => true | HeadUnlock => false | _ => in_head k end.
Proof. intros Hok. destruct c; simpl in *; try done; destruct k; try done; repeat case_match; done. Qed.
Lemma not_both k : in_gate k = true -> in_head k = false.
Proof. by destruct k. Qed.

Lemma api_call_ok h ks i c f x s' :
  table_ok (ah_runs h) -> apool_ok h ks -> ah_pool h !! i = Some (Do c f) -> may_acall h c ->
  runs_step (ah_runs h) c x s' ->
  table_ok s' /\
  exists k, ks !! i = Some k /\
    apool_ok (mkApiHost s' (gate_after h i c) (head_after h i c) (<[i := f x]> (ah_pool h)))
      (<[i := aknow_next k (aact c x)]> ks).
Proof.
  intros Ht [Hlen Hsafe Hgate Hhead Hgin Hhin Hknown] Hp Hmay Hs. pose proof (lookup_lt_Some _ _ _ Hp) as Hi.
  destruct (lookup_lt_is_Some_2 ks i) as [k Hk]; [lia|].
  destruct (Hsafe _ _ _ Hp Hk x I) as [Hok Hw]. simpl in Hok, Hw. pose proof (Hknown _ _ Hk) as Hkk.
  split; [by eapply step_table_ok|]. exists k. split; [done|]. pose proof (Hgate _ _ Hk) as Hgk. pose proof (Hhead _ _ Hk) as Hhk.
  split; cbn [ah_runs ah_gate ah_head ah_pool]; rewrite ?length_insert; try done.
  - intros j p kj Hj Hkj. apply list_lookup_insert_Some in Hkj as [(<- & <- & _)|[Hne Hkj]].
    + rewrite list_lookup_insert_eq in Hj by done. by injection Hj as <-.
    + rewrite list_lookup_insert_ne in Hj by done. by eapply Hsafe.
  - intros j kj Hkj. apply list_lookup_insert_Some in Hkj as [(<- & <- & _)|[Hne Hkj]].
    + rewrite in_gate_next by done. unfold gate_after. by destruct c.
    + rewrite (Hgate _ _ Hkj). unfold gate_after. destruct c; try done; simpl in *; [naive_solver|].
      split; [|done]. intros E. pose proof (proj1 Hgk Hok). congruence.
  - intros j kj Hkj. apply list_lookup_insert_Some in Hkj as [(<- & <- & _)|[Hne Hkj]].
    + rewrite in_head_next by done. unfold head_after. by destruct c.
    + rewrite (Hhead _ _ Hkj). unfold head_after. destruct c; try done; simpl in *; [naive_solver|].
      split; [|done]. intros E. pose proof (proj1 Hhk Hok). congruence.
  - intros j. unfold gate_after. destruct c; try apply Hgin; [intros [= <-]; lia|done].
  - intros j. unfold head_after. destruct c; try apply Hhin; [intros [= <-]; lia|done].
  - intros j kj Hkj. apply list_lookup_insert_Some in Hkj as [(<- & <- & _)|[Hne Hkj]]; [by eapply known_own|].
    eapply known_other; [done|done|done|done|by eapply Hknown|..].
    + intros E. destruct (in_gate k); [|done]. apply (Hgate _ _ Hkj) in E. pose proof (proj1 Hgk eq_refl). congruence.
    + intros E. pose proof E as E'. apply (Hhead _ _ Hkj) in E'. split.
      * destruct (in_head k); [|done]. pose proof (proj1 Hhk eq_refl). congruence.
      * intros id ->. simpl in Hmay. congruence.
Qed.

Lemma apool_more h ks p : apool_ok h ks -> asafe Outside p ->
  apool_ok (mkApiHost (ah_runs h) (ah_gate h) (ah_head h) (ah_pool h ++ [p])) (ks ++ [Outside]).
Proof.
  intros [Hlen Hsafe Hgate Hhead Hgin Hhin Hknown] Hp.
  assert (Hnew : forall j k, (ks ++ [Outside]) !! j = Some k -> ks !! j = Some k \/ j = length ks /\ k = Outside).
  { intros j k [Hk|[Hl Hk]]%lookup_app_Some; [by left|]. apply list_lookup_singleton_Some in Hk as [? <-].
    right. split; [lia|done]. }
  split; simpl.
  - rewrite !length_app. simpl. lia.
  - intros j q k Hq [Hk|[-> ->]]%Hnew.
    + pose proof (lookup_lt_Some _ _ _ Hk). rewrite lookup_app_l in Hq by lia. by eapply Hsafe.
    + rewrite Hlen, lookup_app_r, Nat.sub_diag in Hq by done. by injection Hq as <-.
  - intros j k [Hk|[-> ->]]%Hnew; [by apply Hgate|]. split; [done|]. intros ?%Hgin. lia.
  - intros j k [Hk|[-> ->]]%Hnew; [by apply Hhead|]. split; [done|]. intros ?%Hhin. lia.
  - intros j ?%Hgin. rewrite length_app. lia.
  - intros j ?%Hhin. rewrite length_app. lia.
  - intros j k [Hk|[-> ->]]%Hnew; [by eapply Hknown|done].
Qed.

Lemma api_ok_step h h' : api_ok h -> api_step h h' -> api_ok h'.
Proof.
  intros [Ht (ks & Hks)] Hs. destruct Hs as [h i c f x s' Hp Hmay Hs|h p Hp|h s' Hi|h].
  - destruct (api_call_ok _ _ _ _ _ _ _ Ht Hks Hp Hmay Hs) as [Ht' (k & _ & Hks')]. split; [done|by eexists].
  - split; [done|]. exists (ks ++ [Outside]). apply apool_more; [done|]. by eapply asafe_request.
  - split; [by eapply installs_ok|]. exists ks. destruct Hks as [Hlen Hsafe Hgate Hhead Hgin Hhin Hknown].
    split; try done. intros j k Hk. simpl. eapply known_installs; [done| |done]. by eapply Hknown.
  - split; [done|]. exists []. by split.
Qed.

Lemma api_ok_reachable h : rtc api_step new_cluster h -> api_ok h.
Proof.
  intros Hr. assert (H0 : api_ok new_cluster).
  { split; [|exists []; by split]. split; try done. }
  revert H0. induction Hr as [|a b c Hs _ IH]; [done|]. intros. by eapply IH, api_ok_step.
Qed.

(** C3: whatever is asked of a leader and however its goroutines interleave,
    two task runs under way never hold one node: from a cluster that never
    ran a task, with starts, reruns, stops, deletions, the runner's writes of
    heads, agent installs and restarts in any order, a node is held by one
    run at most. *)
Theorem runs_exclusive h : rtc api_step new_cluster h -> exclusive (ah_runs h).
Proof. intros [Ht _]%api_ok_reachable. by apply ta_exclusive. Qed.
End Pool.
