(* ===== verification/ApiFacts.v ===== *)
(** * What a start records and launches, and what the API writes of tasks

    A run is launched only once the store has acknowledged it, as its request
    orders it; its confirmed steps are those of the preview whose plan it
    names; and no handler writes a task that is built in or imported. *)

From S2P Require Import Prelude GoStrings ApiCodes GoTime TaskModel TaskYaml TaskParse ClusterFSM.
From S2P Require Import ClusterTaskStore TaskPlan TaskPlanFacts Interact RunProg TaskRun TaskRerun TaskSupervise.
From S2P Require Import ApiProg TaskApi ApiHost.

#[local] Open Scope prog_scope.

(** ** The confirmed steps *)

Lemma compact_elem n l : n ∈ compact l <-> n ∈ l.
Proof.
  induction l as [|a [|b l] IH]; [done|done|]. change (compact (a :: b :: l)) with
    (if a =? b then compact (b :: l) else a :: compact (b :: l)).
  destruct (Z.eqb_spec a b) as [->|]; rewrite ?elem_of_cons, IH, ?elem_of_cons; naive_solver.
Qed.
Lemma confirmed_elem n l : n ∈ confirmed_steps l <-> n ∈ l.
Proof. unfold confirmed_steps. by rewrite compact_elem, merge_sort_Permutation. Qed.

Lemma no_such_step_None t l n :
  no_such_step t (confirmed_steps l) = None -> n ∈ l -> 0 <= n < Z.of_nat (length (tk_Steps t)).
Proof.
  intros Hf Hn. apply confirmed_elem, list_elem_of_In in Hn. pose proof (find_none _ _ Hf _ Hn) as E. cbv beta in E. go_bools. lia.
Qed.
Lemma confirmed_nats t l (n : nat) :
  no_such_step t (confirmed_steps l) = None -> n ∈ map Z.to_nat (confirmed_steps l) <-> Z.of_nat n ∈ l.
Proof.
  intros Hf. rewrite list_elem_of_fmap. split.
  - intros (z & -> & Hz). apply (proj1 (confirmed_elem _ _)) in Hz. pose proof (no_such_step_None _ _ _ Hf Hz). by rewrite Z2Nat.id by lia.
  - intros Hn. exists (Z.of_nat n). rewrite Nat2Z.id, confirmed_elem. done.
Qed.

(** ** What a start asks for *)

Section Api.
Context `{YamlLib}.
Variable SplitHostPort : string -> option string.
Variable ParseIP_String : string -> option string.
Variable sha256_hex : string -> string.
Variable marshal_inputs : gmap string string -> string.
Variable marshal_targets : Targets -> string.
Variable builtinFS : string -> string.
Variable PathUnescape : string -> option string.

Notation planID := (planID sha256_hex marshal_inputs marshal_targets).
Notation StartRun := (StartRun SplitHostPort ParseIP_String sha256_hex marshal_inputs marshal_targets builtinFS).
Notation PlanRun := (PlanRun SplitHostPort ParseIP_String sha256_hex marshal_inputs marshal_targets builtinFS).

(** The task [id], as it was read: built in, or as the store answered. *)
Definition loaded (past : list aaction) (id : string) (d : taskDoc) : Prop :=
  builtinDoc builtinFS id = Some d \/
  builtinDoc builtinFS id = None /\ exists t, aact (StGetTask id) (Ok t) ∈ past /\ d = stored_doc t.

(** The run request of a body: its task as read, with a document that
    parses, inputs in bounds and the targets it asks for or the task's. *)
Definition requested (body : option runRequest) (past : list aaction) (req : runRequest) (rt : runTarget) : Prop :=
  body = Some req /\ loaded past (rq_TaskID req) (rt_doc rt) /\ (Parse (td_YAML (rt_doc rt))).1 = Some (rt_task rt) /\
  checkInputSizes (runInputs (rt_task rt) (rq_Inputs req)) = None /\
  rt_targets rt = default (tk_Targets (rt_task rt)) (rq_Targets req) /\ rt_batch rt = runBatch (rt_task rt) (rq_Batch req).

(** The confirmed steps are steps of the task, confirmed on its preview. *)
Definition confirmed_on (req : runRequest) (rt : runTarget) (steps : list nat) : Prop :=
  (rq_Confirmed req <> [] ->
     rq_PlanID req = planID (td_YAML (rt_doc rt)) (runInputs (rt_task rt) (rq_Inputs req)) (rt_targets rt)) /\
  (forall n, n ∈ steps <-> Z.of_nat n ∈ rq_Confirmed req) /\
  (forall n, n ∈ rq_Confirmed req -> 0 <= n < Z.of_nat (length (tk_Steps (rt_task rt)))).

(** The run [r] as [run] is claimed: in the gate with nothing in its way,
    its nodes taken by no run, under a revision of the document. *)
Definition claimed (past : list aaction) (run : RunRecord) (doc : string) (r : RunRecord) : Prop :=
  exists b rs held,
    aact GateLock b ∈ past /\ busy_error b = None /\ aact InstallsActive false ∈ past /\
    aact StListRuns (Ok rs) ∈ past /\ heldNodes (Ok rs) = Ok held /\ first_held held (rr_Nodes run) = None /\
    aact (StPutTaskRevision doc) (Ok (rr_Rev r)) ∈ past /\
    r = claimed_run run (rr_ID r) (rr_Rev r) (rr_StartedAt r).

(** The run [r] as the request orders it, claimed. *)
Definition ordered (body : option runRequest) (user : string) (past : list aaction) (r : RunRecord) : Prop :=
  exists req rt env plan,
    requested body past req rt /\ aact TasksReady [] ∈ past /\
    aact APlanEnv env ∈ past /\ orderRun env (rt_targets rt) (rt_batch rt) = Some (Ok plan) /\ pl_Waves plan <> [] /\
    confirmed_on req rt (rr_Confirmed r) /\
    claimed past (started_run req rt plan (confirmed_steps (rq_Confirmed req)) user) (td_YAML (rt_doc rt)) r.

(** A run is put only as [order] says, and launched only once it is
    acknowledged. *)
Definition start_rule (order : list aaction -> RunRecord -> Prop) (past : list aaction) (a : aaction) : Prop :=
  match projT1 a with
  | StPutRun r => order past r
  | Launch r => aact (StPutRun r) None ∈ past
  | _ => True
  end.
Definition no_business (c : acall) : Prop :=
  match c with StPutRun _ | Launch _ | StPutTask _ | StDeleteTask _ => False | _ => True end.

(** How a start that ended is answered: 202 with the run launched, or a
    refusal with none acknowledged; or the leader it was sent to answered. *)
Definition start_answered (a : api_answer) (past : list aaction) : Prop :=
  match a with
  | Accepted id => exists r, rr_ID r = id /\ aact (StPutRun r) None ∈ past /\ aact (Launch r) tt ∈ past
  | _ => forall r, aact (StPutRun r) None ∉ past
  end \/ aact ToLeader (Some a) ∈ past.

(** ** The claim, watched *)

Lemma no_business_rule order past c x : no_business c -> start_rule order past (aact c x).
Proof. by destruct c. Qed.
Lemma no_put past more : Forall (fun a => no_business (projT1 a)) more -> forall r e, aact (StPutRun r) e ∈ past ++ more -> aact (StPutRun r) e ∈ past.
Proof. intros Hm r e [?|Ha]%elem_of_app; [done|]. rewrite Forall_forall in Hm. by apply Hm in Ha. Qed.

(** Since then nothing has been put. *)
Notation no_puts := (since no_business).
Lemma no_puts_none past past' r e : no_puts past past' -> aact (StPutRun r) e ∈ past' -> aact (StPutRun r) e ∈ past.
Proof. intros (m & -> & Hm). by apply no_put. Qed.

(** The run an action has recorded. *)
Definition acknowledged (a : aaction) : option RunRecord :=
  match a with
  | existT c x =>
      match c return aanswer c -> option RunRecord with
      | StPutRun r => fun x => match x with None => Some r | Some _ => None end
      | _ => fun _ => None
      end x
  end.

Section Claim.
Variable ok : list aaction -> aaction -> Prop.
Hypothesis Hok : forall past c x, no_business c -> ok past (aact c x).

Lemma only_rebootBusy doc nodes : only no_business (rebootBusy doc nodes).
Proof.
  assert (forall managers runs, only no_business (reboot_run managers runs)).
  { intros managers runs. induction runs as [|r runs IH]; simpl reboot_run; only_go. }
  unfold rebootBusy. only_go.
Qed.

Lemma wp_claim_history run doc past (Q : result api_error RunRecord -> list aaction -> Prop) :
  (forall past' r e, no_puts past past' -> claimed past' run doc r -> ok past' (aact (StPutRun r) e)) ->
  (forall past' r, no_puts past past' -> claimed past' run doc r ->
     Q (Ok r) (past' ++ [aact (StPutRun r) None] ++ [aact GateUnlock tt])) ->
  (forall past' e, (forall r, aact (StPutRun r) None ∈ past' -> aact (StPutRun r) None ∈ past) -> Q (Err e) past') ->
  wp anything (history ok) (claim run doc) past Q.
Proof.
  intros Hput HQ He. unfold claim. pose proof (since_refl no_business past) as H0. asked b. apply wp_bind.
  assert (Hno : forall past' e, no_puts past past' ->
    wp anything (history ok) (ado GateUnlock ;;; Ret (Err e)) past' Q).
  { intros past' e Hp' [] _. split; [by apply Hok|]. apply He. intros r Hr. eapply no_puts_none; [|done].
    eapply since_trans; [done|]. by apply since_one. }
  unfold claim_body. destruct (busy_error b) eqn:Eb; [by apply Hno|]. asked installing. destruct installing; [by apply Hno|]. asked runs.
  destruct (heldNodes runs) as [held|] eqn:Eh; [|by apply Hno]. destruct runs as [rs|]; [|done].
  destruct (first_held _ _) as [[? ?]|] eqn:Ef; [by apply Hno|].
  apply (wp_quietly no_business); [done|apply only_rebootBusy|]. intros x p' Hp'. since_on Hp'.
  destruct x as [other|]; [|by apply Hno]. destruct (negb _); [by apply Hno|]. asked rev.
  destruct rev as [rev|]; [|by apply Hno]. asked now. asked id. cbv zeta. set (r := claimed_run run id rev now).
  assert (Hc : claimed p4 run doc r) by (by exists b, rs, held).
  intros e _. split; [by apply Hput|]. destruct e as [e|].
  - intros [] _. split; [by apply Hok|]. apply He. intros r' [[Hr|Hr]%elem_of_app|Hr]%elem_of_app.
    + by eapply no_puts_none.
    + apply list_elem_of_singleton in Hr. by apply (f_equal acknowledged) in Hr.
    + apply list_elem_of_singleton in Hr. by apply (f_equal acknowledged) in Hr.
  - intros [] _. split; [by apply Hok|]. simpl. rewrite <-app_assoc. by apply HQ.
Qed.
End Claim.

(** ** A start, watched *)

Definition unput (past : list aaction) : Prop := forall r, aact (StPutRun r) None ∉ past.

Definition refusal (a : api_answer) : Prop := match a with AnswerFail _ _ _ _ => True | _ => False end.
Lemma fail_refusal e : refusal (fail e).
Proof. by destruct e as [| []|]. Qed.
Lemma no_target_refusal l msg : refusal (no_target l msg).
Proof. unfold no_target. case_match; [apply fail_refusal|done]. Qed.
Lemma unput_more past past' : unput past -> no_puts past past' -> unput past'.
Proof. intros Hu Hp r Hr. apply (Hu r). by eapply no_puts_none. Qed.
Lemma unput_refused a past : refusal a -> unput past -> start_answered a past.
Proof. intros Ha Hu. left. by destruct a. Qed.

(** A handler that may refuse, and may be sent on to the leader. *)
Section Handler.
Variable ok : list aaction -> aaction -> Prop.
Variable Q : api_answer -> list aaction -> Prop.
Hypothesis Hrule : forall past c x, no_business c -> ok past (aact c x).
Hypothesis Hrefuse : forall a past, refusal a -> unput past -> Q a past.
Hypothesis Hsent : forall a past, aact ToLeader (Some a) ∈ past -> Q a past.
Notation watched p past := (wp anything (history ok) p past Q).

Lemma wp_sent_on f : (forall past, unput past -> watched f past) -> watched (apiEnv (forward f)) [].
Proof.
  intros Hf. pose proof (since_refl no_business ([] : list aaction)) as H0. assert (Hu : unput []) by (intros r ?%not_elem_of_nil; done).
  assert (Hno : forall past a, no_puts [] past -> refusal a -> Q a past).
  { intros past a Hp Ha. apply Hrefuse; [done|]. by eapply unput_more. }
  unfold apiEnv, forward. asked here. destruct here; [|by apply Hno]. asked leads. destruct leads.
  - asked up. destruct up; [|by apply Hno]. apply Hf. by eapply unput_more.
  - asked sent. destruct sent as [a|]; [by apply Hsent|]. apply Hf. by eapply unput_more.
Qed.

Lemma wp_loadTask {A} id past (f : result api_error taskDoc -> aprog A) (Q' : A -> list aaction -> Prop) :
  (forall past' d, no_puts past past' -> loaded past' id d -> wp anything (history ok) (f (Ok d)) past' Q') ->
  (forall past' e, no_puts past past' -> wp anything (history ok) (f (Err e)) past' Q') ->
  wp anything (history ok) (pbind (loadTask builtinFS id) f) past Q'.
Proof.
  intros Hf He. pose proof (since_refl no_business past) as H0. unfold loadTask.
  destruct (builtinDoc builtinFS id) as [d|] eqn:Eb; [apply Hf; [done|by left]|]. apply wp_bind.
  asked t. destruct t as [t|[]]; try (by apply He). apply Hf; [done|]. right. split; [done|]. by exists t.
Qed.

Lemma wp_readRunRequest body past (f : runRequest * runTarget -> aprog api_answer) :
  unput past ->
  (forall req rt past', no_puts past past' -> requested body past' req rt -> watched (f (req, rt)) past') ->
  watched (answered (readRunRequest builtinFS body) f) past.
Proof.
  intros Hu Hf. assert (Hno : forall past' e, no_puts past past' -> Q (fail e) past').
  { intros past' e Hp. apply Hrefuse; [apply fail_refusal|]. by eapply unput_more. }
  pose proof (since_refl no_business past) as H0. unfold answered. apply wp_bind. unfold readRunRequest.
  destruct body as [req|]; [|by apply Hno]. destruct (rq_TaskID req ==s AgentInstallTaskID); [by apply Hno|].
  apply wp_loadTask; [|intros; by apply Hno]. intros past' d Hp Hl.
  destruct (Parse (td_YAML d)) as [[t|] [|p ps]] eqn:Ep; cbn [wp]; try (by apply Hno);
    (destruct (checkInputSizes _) eqn:Es; [by apply Hno|]); apply Hf; try done; split_and!; try done; simpl; by rewrite Ep.
Qed.
End Handler.

Section Start.
Variable order : list aaction -> RunRecord -> Prop.
Notation watched p past := (wp anything (history (start_rule order)) p past start_answered).

Lemma wp_start_history run doc past :
  (forall past' r, no_puts past past' -> claimed past' run doc r -> order past' r) -> unput past ->
  watched (start run doc) past.
Proof.
  intros Hord Hu. unfold start, answered. apply wp_bind, wp_claim_history; [apply no_business_rule|..].
  - intros past' r e Hp Hc. by apply Hord.
  - intros past' r Hp Hc. apply wp_bind. unfold begin. set (past1 := past' ++ _).
    assert (H1 : aact (StPutRun r) None ∈ past1) by (apply elem_of_app; right; by left).
    pose proof (since_refl no_business past1) as H0. pose proof (no_business_rule order) as Hrule. asked here. apply wp_bind.
    assert (Hend : forall past' local, aact (StPutRun r) None ∈ past' ->
      wp anything (history (start_rule order)) (ado (Audit (auditStart local r)) ;;; ado (Launch r)) past'
        (fun _ past => start_answered (Accepted (rr_ID r)) past)).
    { intros past2 local H2. pose proof (since_refl no_business past2) as H3. asked u. intros [] _. split; [done|].
      left. exists r. split_and!; [done|by apply elem_of_app; left|]. apply elem_of_app. right. by left. }
    destruct here; [|by apply Hend]. intros local _. split; [done|]. apply Hend. by apply elem_of_app; left.
  - intros past' e Hr. apply unput_refused; [apply fail_refusal|]. intros r ?%Hr. by apply (Hu r).
Qed.
End Start.

Lemma ordered_run past req rt env plan body user r :
  requested body past req rt -> aact TasksReady [] ∈ past -> aact APlanEnv env ∈ past ->
  orderRun env (rt_targets rt) (rt_batch rt) = Some (Ok plan) -> pl_Waves plan <> [] ->
  confirmable sha256_hex marshal_inputs marshal_targets req rt = None ->
  no_such_step (rt_task rt) (confirmed_steps (rq_Confirmed req)) = None ->
  claimed past (started_run req rt plan (confirmed_steps (rq_Confirmed req)) user) (td_YAML (rt_doc rt)) r ->
  ordered body user past r.
Proof.
  intros Hreq Hready Henv Hplan Hw Hc Hs Hcl. exists req, rt, env, plan. split_and!; try done.
  destruct Hcl as (b & rs & held & _ & _ & _ & _ & _ & _ & _ & ->). split_and!.
  - intros Hne. unfold confirmable in Hc. destruct (rq_Confirmed req); [done|].
    destruct (rq_PlanID req ==s ""); [done|]. destruct (_ ==s _) eqn:E; [|done]. by go_bools.
  - intros n. by apply confirmed_nats with (t := rt_task rt).
  - intros n. by apply no_such_step_None.
Qed.

Lemma wp_StartRun_ordered body user :
  wp anything (history (start_rule (ordered body user))) (StartRun body user) [] start_answered.
Proof.
  pose proof (no_business_rule (ordered body user)) as Hrule.
  apply wp_sent_on; [done|apply unput_refused|by right|]. intros past Hu.
  apply wp_readRunRequest; [done|apply unput_refused|done|]. intros req rt past1 Hp Hreq. cbv beta iota.
  pose proof (since_refl no_business past1) as H0. pose proof (unput_more _ _ Hu Hp) as Hu1.
  assert (Hno : forall past' a, no_puts past1 past' -> refusal a -> start_answered a past').
  { intros past' a Hp' Ha. apply unput_refused; [done|]. by eapply unput_more. }
  unfold managersNotReady. asked ready. destruct ready; [|by apply Hno]. cbn [pbind].
  destruct (confirmable _ _ _ req rt) as [a|] eqn:Ec.
  { apply Hno; [done|]. unfold confirmable in Ec. repeat case_match; by simplify_eq. }
  cbv zeta. destruct (no_such_step _ _) eqn:Es; [by apply Hno|]. asked env.
  destruct (orderRun _ _ _) as [[plan|e]|] eqn:Ep; [|by apply Hno; [|apply fail_refusal]|done].
  destruct (renderPlan _ _ _ _ _ _); [|by apply Hno; [|apply fail_refusal]].
  destruct (pl_Waves plan) eqn:Ew; [by apply Hno; [|apply no_target_refusal]|].
  apply wp_start_history; [|by eapply unput_more]. intros past' r Hp' Hcl.
  assert (Hpp : no_puts past1 past') by (by eapply since_trans).
  apply (ordered_run past' req rt env plan); try done; try (by eapply since_keep; [exact Hp'|]); [|by rewrite Ew].
  destruct Hreq as (Hb & Hl & Hrest). split; [done|]. split; [|done].
  destruct Hl as [Hl|(Hn & t & Ht & Hd)]; [by left|]. right. split; [done|]. exists t. split; [|done].
  by eapply since_keep.
Qed.

(** C13: a start launches a run only once the store has acknowledged it, and
    puts none but the one its request orders: of the task as it was read,
    over the nodes the order gives, none of them taken by a run under way,
    with nothing else under way at the gate, with the steps confirmed that
    the request names, on the plan of that document, those inputs and those
    targets.  It answers 202 with the run launched; any other answer of its
    own leaves no run acknowledged. *)
Theorem StartRun_as_ordered body user tr o :
  exec (StartRun body user) tr o ->
  (forall tr1 r tr2, tr = tr1 ++ aact (Launch r) tt :: tr2 -> aact (StPutRun r) None ∈ tr1) /\
  (forall tr1 r e tr2, tr = tr1 ++ aact (StPutRun r) e :: tr2 -> ordered body user tr1 r) /\
  (forall a, o = Some a -> start_answered a tr).
Proof.
  intros He. destruct (history_sound _ _ _ _ _ (wp_StartRun_ordered body user) He) as [Hok Ha].
  split_and!; [|intros tr1 r e tr2 E|done]; [intros tr1 r tr2 E|]; by apply Hok in E.
Qed.

(** ** What a preview shows *)

Definition previewed (body : option runRequest) (a : api_answer) (past : list aaction) : Prop :=
  match a with
  | OkPlan plan pid _ steps =>
      exists req rt env, requested body past req rt /\ aact APlanEnv env ∈ past /\
        planRun SplitHostPort ParseIP_String env (rt_task rt) (rt_targets rt) (rq_Inputs req) (rt_batch rt) = Some (Ok plan) /\
        pid = planID (td_YAML (rt_doc rt)) (runInputs (rt_task rt) (rq_Inputs req)) (rt_targets rt) /\
        steps = stepLabels (rt_task rt)
  | _ => True
  end \/ aact ToLeader (Some a) ∈ past.

Lemma loaded_keep past past' id d : no_puts past past' -> loaded past id d -> loaded past' id d.
Proof.
  intros Hp [Hl|(Hn & t & Ht & Hd)]; [by left|]. right. split; [done|]. exists t. split; [by eapply since_keep|done].
Qed.
Lemma requested_keep body past past' req rt :
  no_puts past past' -> requested body past req rt -> requested body past' req rt.
Proof. intros Hp (Hb & Hl & Hr). split_and!; try done; [by eapply loaded_keep|apply Hr..]. Qed.

Lemma wp_PlanRun body : wp anything (history (fun _ _ => True)) (PlanRun body) [] (previewed body).
Proof.
  assert (Href : forall a past, refusal a -> unput past -> previewed body a past) by (intros [] past; try done; by left).
  apply wp_sent_on; [done|done|by right|]. intros past Hu. apply wp_readRunRequest; [done|done|done|].
  intros req rt past1 Hp Hreq. cbv beta iota. pose proof (since_refl no_business past1) as H0.
  assert (Hno : forall past' a, no_puts past1 past' -> refusal a -> previewed body a past').
  { intros past' a Hp' Ha. apply Href; [done|]. eapply unput_more; [|done]. by eapply unput_more. }
  asked env. destruct (planRun _ _ _ _ _ _ _) as [[plan|e]|] eqn:Ep; [|by apply Hno; [|apply fail_refusal]|done].
  asked ready. left. exists req, rt, env. split_and!; [by eapply requested_keep|done..].
Qed.

(** A text without a NUL. *)
Definition nul_free (s : string) : Prop := Ascii.zero ∉ list_ascii_of_string s.

Lemma split_nul a1 b1 a2 b2 : nul_free a1 -> nul_free a2 ->
  a1 +:+ bytes_of [0%nat] +:+ b1 = a2 +:+ bytes_of [0%nat] +:+ b2 -> a1 = a2 /\ b1 = b2.
Proof.
  revert a2. unfold nul_free. induction a1 as [|c a1 IH]; intros [|c' a2] H1 H2; simpl; intros E.
  - by injection E as <-.
  - injection E as <- _. by destruct H2; left.
  - injection E as -> _. by destruct H1; left.
  - injection E as <- E. destruct (IH a2) as [-> ->]; [..|done|done]; [intros ?; apply H1; by right|intros ?; apply H2; by right].
Qed.

(** Two texts of one digest. *)
Definition collision : Prop := exists a b, a <> b /\ sha256_hex a = sha256_hex b.

(** A plan's ID names its document, its inputs and its targets, as far as
    the digest tells texts apart. *)
Lemma planID_names doc inputs targets doc' inputs' targets' :
  (forall s, nul_free (sha256_hex s)) -> (forall i, nul_free (marshal_inputs i)) ->
  planID doc inputs targets = planID doc' inputs' targets' ->
  (doc = doc' /\ marshal_inputs inputs = marshal_inputs inputs' /\ marshal_targets targets = marshal_targets targets') \/
  collision.
Proof.
  intros Hhex Hjson. unfold TaskApi.planID. cbv zeta. set (t := _ +:+ _) at 1. set (t' := _ +:+ _) at 1. intros E.
  destruct (decide (t = t')) as [Et|Hne]; [|right; by exists t, t']. unfold t, t' in Et.
  apply split_nul in Et as [Ed Et]; [|done..]. apply split_nul in Et as [Ei Et]; [|done..].
  destruct (decide (doc = doc')) as [->|Hne]; [by left|right; by exists doc, doc'].
Qed.

(** C8: the steps a start confirms are those its preview showed: where a start
    confirms steps and its plan's ID is the one a preview answered with, the
    run put is of the document, the inputs and the targets of that preview, and
    its confirmed steps are among those it listed; or the digest has two texts
    of one hash.  A start that confirms nothing is not held to its plan's ID. *)
Theorem StartRun_previewed pbody ptr plan pid ready steps req user tr o r e :
  (forall s, nul_free (sha256_hex s)) -> (forall i, nul_free (marshal_inputs i)) ->
  exec (PlanRun pbody) ptr (Some (OkPlan plan pid ready steps)) -> aact ToLeader (Some (OkPlan plan pid ready steps)) ∉ ptr ->
  exec (StartRun (Some req) user) tr o -> aact (StPutRun r) e ∈ tr ->
  rq_Confirmed req <> [] -> rq_PlanID req = pid ->
  (exists preq prt rt,
     requested pbody ptr preq prt /\ requested (Some req) tr req rt /\
     aact (StPutTaskRevision (td_YAML (rt_doc prt))) (Ok (rr_Rev r)) ∈ tr /\ rt_task rt = rt_task prt /\
     marshal_inputs (rr_Inputs r) = marshal_inputs (runInputs (rt_task prt) (rq_Inputs preq)) /\
     marshal_targets (rt_targets rt) = marshal_targets (rt_targets prt) /\
     (forall n, n ∈ rr_Confirmed r -> is_Some (steps !! n)) /\ steps = stepLabels (rt_task rt)) \/
  collision.
Proof.
  intros Hhex Hjson Hplan Hsent Hstart Hput Hconf Hpid.
  destruct (history_sound _ _ _ _ _ (wp_PlanRun pbody) Hplan) as [_ Hshown]. destruct (Hshown _ eq_refl) as [Hs|]; [|done].
  destruct Hs as (preq & prt & env & Hpreq & _ & _ & -> & Hsteps).
  destruct (history_sound _ _ _ _ _ (wp_StartRun_ordered (Some req) user) Hstart) as [Hok _].
  apply list_elem_of_split in Hput as (tr1 & tr2 & Etr). pose proof (Hok _ _ _ Etr) as Hord. simpl in Hord.
  destruct Hord as (req' & rt & env' & plan' & Hreq & _ & _ & _ & _ & (Hconf' & Hsame & Hbound) & Hcl).
  assert (req' = req) as -> by (by destruct Hreq as [[= ->] _]).
  destruct Hcl as (b & rs & held & _ & _ & _ & _ & _ & _ & Hrev & Er).
  specialize (Hconf' Hconf). rewrite Hpid in Hconf'. apply planID_names in Hconf' as [(Ed & Ei & Et)|]; [left|by right|done..].
  assert (Hsub : forall a, a ∈ tr1 -> a ∈ tr) by (intros a Ha; rewrite Etr; by apply elem_of_app; left).
  assert (Htask : rt_task rt = rt_task prt).
  { destruct Hreq as (_ & _ & Hp & _), Hpreq as (_ & _ & Hp' & _). rewrite <-Ed, Hp' in Hp. congruence. }
  exists preq, prt, rt. split_and!; try done.
  - destruct Hreq as (? & Hl & Hrest). split; [done|]. split; [|done].
    destruct Hl as [?|(? & t & Ht & ?)]; [by left|right]. split; [done|]. exists t. auto.
  - rewrite Ed. by apply Hsub.
  - rewrite Er. by rewrite Ei.
  - intros n Hn%Hsame%Hbound. rewrite Hsteps, <-Htask. unfold stepLabels. apply lookup_lt_is_Some_2. rewrite length_map. lia.
  - by rewrite Htask.
Qed.

(** ** Running again *)

(** The node [n] is asked for: as one that did not succeed, or by its ID. *)
Definition asked_for (src : RunRecord) (nodes : gmap string RunNodeRecord) (only : string) (body : option (list string)) (n : string)
    : Prop :=
  (only = "failed" /\ n ∈ rr_Nodes src /\ rn_Status (default zero_rec (nodes !! n)) <> RunNodeSucceeded) \/
  (only = "" /\ exists l, body = Some l /\ n ∈ l).
(** The first of [steps] that did not succeed; the first of all where each
    did. *)
Definition first_undone (steps : list RunStepRecord) (k : nat) : Prop :=
  (k = 0%nat /\ Forall (fun s => rs_Status s = RunStepSucceeded) steps) \/
  exists s, steps !! k = Some s /\ rs_Status s <> RunStepSucceeded /\
    Forall (fun s => rs_Status s = RunStepSucceeded) (take k steps).
(** The run [r] as a rerun of the run [id] puts it: of a task run that has
    ended, as it was read; over nodes of its own, none but those asked for and
    each from its first step that did not succeed; of the document, the
    inputs and the confirmed steps the run had. *)
Definition reordered (id only : string) (body : option (list string)) (user : string) (past : list aaction) (r : RunRecord)
    : Prop :=
  exists src nodes env doc run,
    aact (StGetRun id) (Ok (src, nodes)) ∈ past /\ rr_Kind src <> RunKindAgentInstall /\ Active src = false /\
    aact TasksReady [] ∈ past /\ aact APlanEnv env ∈ past /\
    aact (StTaskRevision (rr_Rev src)) (Ok doc) ∈ past /\ claimed past run doc r /\
    rr_RerunOf r = rr_ID src /\ rr_Inputs r = rr_Inputs src /\ rr_Confirmed r = rr_Confirmed src /\
    rr_TaskID r = rr_TaskID src /\ rr_StartedBy r = user /\
    forall n, n ∈ rr_Nodes r ->
      n ∈ concat (rr_Waves src) /\ asked_for src nodes only body n /\ n ∈ map nd_ID (pe_Nodes env) /\
      exists k, rr_StartAt r !! n = Some k /\ first_undone (rn_Steps (default zero_rec (nodes !! n))) k.

Lemma chosen_asked_for src nodes only body chosen n :
  chosen_nodes src nodes only body = Ok chosen -> n ∈ chosen -> asked_for src nodes only body n.
Proof.
  unfold chosen_nodes. destruct (only ==s "failed") eqn:Ef; go_bools.
  - intros [= <-] Hn. apply list_elem_of_In, List.filter_In in Hn as [Hn Hs]. left. apply negb_true_iff, String.eqb_neq in Hs.
    by split_and!; [|apply list_elem_of_In|].
  - destruct (only ==s "") eqn:Ee; [|done]. go_bools. destruct body as [l|]; [|done]. intros [= <-] Hn. right. by split; [|exists l].
Qed.

Lemma planned_StartAt (startAt : gmap string nat) l (m : gmap string nat) n :
  n ∈ l -> fold_left (fun m id => <[id := default 0%nat (startAt !! id)]> m) l m !! n = Some (default 0%nat (startAt !! n)).
Proof.
  intros Hn. transitivity (foldl (fun m id => <[id := default 0%nat (startAt !! id)]> m) m l !! n).
  - f_equal. clear Hn. revert m. induction l as [|x l IH]; intros m; [done|]. apply IH.
  - rewrite (foldl_insert_lookup (fun id => default 0%nat (startAt !! id))). by rewrite decide_True.
Qed.

(** The nodes of a rerun's plan are the rerun's. *)
Lemma rerun_planned env src nodes chosen plan n :
  let run := (rerunFrom src nodes chosen).1 in
  orderRun env (mkTargets None None (Some (rr_Nodes run))) (rr_Batch run) = Some (Ok plan) -> n ∈ NodeIDs plan ->
  n ∈ rr_Nodes run /\ n ∈ concat (rr_Waves src) /\ n ∈ chosen /\ n ∈ map nd_ID (pe_Nodes env).
Proof.
  intros run Ho Hn. destruct (orderRun_nodes _ _ _ _ _ Ho Hn) as (m & Hm & <-).
  unfold TaskPlanFacts.chosen in Hm. apply list_elem_of_In, filter_In in Hm as [Hm Ht]. unfold targeted in Ht.
  cbn [tg_Groups tg_Kinds tg_Nodes default] in Ht. change (slices_contains [] _) with false in Ht.
  rewrite andb_false_r in Ht. change (slices_contains [] _) with false in Ht. cbn [orb] in Ht. apply slices_contains_spec in Ht. split; [done|]. unfold run in Ht.
  destruct (rerunFrom_spec src nodes chosen) as (_ & _ & _ & _ & _ & _ & E & _). unfold id in Ht. rewrite E in Ht.
  apply list_elem_of_In, filter_In in Ht as [Hc Hs]. split_and!.
  - by apply list_elem_of_In.
  - by apply slices_contains_spec.
  - apply list_elem_of_fmap. exists m. split; [done|]. by apply list_elem_of_In.
Qed.

Lemma wp_RerunRun_ordered id only body user :
  wp anything (history (start_rule (reordered id only body user))) (RerunRun id only body user) [] start_answered.
Proof.
  pose proof (no_business_rule (reordered id only body user)) as Hrule.
  apply wp_sent_on; [done|apply unput_refused|by right|]. intros past Hu. pose proof (since_refl no_business past) as H0.
  assert (Hno : forall past' a, no_puts past past' -> refusal a -> start_answered a past').
  { intros past' a Hp' Ha. apply unput_refused; [done|]. by eapply unput_more. }
  asked got. destruct got as [[src nodes]|e]; [|by apply Hno; [|apply fail_refusal]].
  destruct (rr_Kind src ==s RunKindAgentInstall) eqn:Ek; [by apply Hno|]. go_bools.
  destruct (Active src) eqn:Ea; [by apply Hno|].
  destruct (chosen_nodes src nodes only body) as [chosen|a] eqn:Ec.
  2: { apply Hno; [done|]. unfold chosen_nodes in Ec. repeat case_match; by simplify_eq. }
  pose proof (fun n => rerun_StartAt src nodes chosen n) as Hsa. pose proof (rerun_planned) as Hplan.
  destruct (rerunFrom src nodes chosen) as [run startAt] eqn:Er. destruct (rr_Nodes run) eqn:En; [by apply Hno|].
  unfold rerun_nodes, managersNotReady. asked ready. destruct ready; [|by apply Hno]. cbn [pbind]. asked env.
  destruct (orderRun _ _ _) as [[plan|e]|] eqn:Ep; [|by apply Hno; [|apply fail_refusal]|done].
  destruct (pl_Waves plan) eqn:Ew; [by apply Hno; [|apply no_target_refusal]|]. asked doc.
  destruct doc as [doc|]; [|by apply Hno; [|apply fail_refusal]]. apply wp_start_history; [|by eapply unput_more].
  intros past' r Hp' Hcl. since_on Hp'. pose proof Hcl as (b & rs & held & _ & _ & _ & _ & _ & _ & _ & Hr).
  exists src, nodes, env, doc, (planned_rerun run startAt plan user). unfold rerunFrom in Er. injection Er as <- <-.
  split_and!; try done; try (by rewrite Hr). rewrite Hr. simpl. intros n Hn. rewrite planned_StartAt by done.
  destruct (Hplan env src nodes chosen plan n) as (Hin & Hsub); [exact Ep|done|]. destruct Hsub as (Hw & Hch & Hpe).
  split_and!; [done|by eapply chosen_asked_for|done|]. exists (firstUnsuccessful (default zero_rec (nodes !! n))).
  split; [|apply firstUnsuccessful_spec]. f_equal. specialize (Hsa n). rewrite decide_True in Hsa by done. simpl in Hsa. by rewrite Hsa.
Qed.

(** C30: a rerun launches a run only once the store has acknowledged it, and
    puts none but one over nodes the ended run had that were asked for - those
    that had not succeeded, or those named - each from the first step that did
    not succeed there, of the run's own document, inputs and confirmed steps. *)
Theorem RerunRun_as_ordered id only body user tr o :
  exec (RerunRun id only body user) tr o ->
  (forall tr1 r tr2, tr = tr1 ++ aact (Launch r) tt :: tr2 -> aact (StPutRun r) None ∈ tr1) /\
  (forall tr1 r e tr2, tr = tr1 ++ aact (StPutRun r) e :: tr2 -> reordered id only body user tr1 r) /\
  (forall a, o = Some a -> start_answered a tr).
Proof.
  intros He. destruct (history_sound _ _ _ _ _ (wp_RerunRun_ordered id only body user) He) as [Hok Ha].
  split_and!; [|intros tr1 r e tr2 E|done]; [intros tr1 r tr2 E|]; by apply Hok in E.
Qed.
End Api.

(** ** What the API writes of tasks

    Whatever is asked of it, the API stores a document only if it parses,
    under the name it gives and no built-in task's, as a task of its own or
    over one that is a user's; and it drops none that is built in. *)

Section Tasks.
Context `{YamlLib}.
Variable SplitHostPort : string -> option string.
Variable ParseIP_String : string -> option string.
Variable SanitizeOutput : string -> string.
Variable sha256_hex : string -> string.
Variable marshal_inputs : gmap string string -> string.
Variable marshal_targets : Targets -> string.
Variable builtinFS : string -> string.
Variable PathUnescape : string -> option string.

Notation api_request :=
  (api_request SplitHostPort ParseIP_String SanitizeOutput sha256_hex marshal_inputs marshal_targets builtinFS PathUnescape).
Notation loaded := (loaded builtinFS).

(** The ID and the source a request may store a task under: new, or those of
    a user's task as it was read. *)
Definition owned (past : list aaction) (id : string) (source : TaskSource) : Prop :=
  (aact NewTaskID id ∈ past /\ source = user_source) \/
  exists pid d, loaded past pid d /\ so_Kind source <> sourceBuiltin /\ so_Kind source <> TaskSourceGit /\
    id = td_ID d /\ source = td_Source d.
(** A task it may store. *)
Definition storable (past : list aaction) (t : StoredTask) : Prop :=
  (String.length (sk_YAML t) <= MaxDocumentBytes)%nat /\
  (exists task, (Parse (sk_YAML t)).1 = Some task /\ sk_Name t = tk_Name task) /\
  (forall d, d ∈ builtins builtinFS -> td_Name d <> sk_Name t) /\ owned past (sk_ID t) (sk_Source t).

Definition tasks_rule (past : list aaction) (a : aaction) : Prop :=
  match projT1 a with
  | StPutTask t => storable past t
  | StDeleteTask id => exists pid d, loaded past pid d /\ so_Kind (td_Source d) <> sourceBuiltin /\ id = td_ID d
  | _ => True
  end.
Definition no_task_write (c : acall) : Prop := match c with StPutTask _ | StDeleteTask _ => False | _ => True end.
Notation guarded p past := (wp anything (history tasks_rule) p past (fun _ _ => True)).

Lemma tasks_quiet {A} (p : aprog A) past : only no_task_write p -> guarded p past.
Proof. intros Hp. apply (wp_quiet tasks_rule no_task_write); [done| |done]. by intros ? []. Qed.

Lemma wp_put_document doc user source id past :
  (forall f : string -> aprog api_answer, (forall i past', owned past' i source -> guarded (f i) past') -> guarded (pbind id f) past) ->
  guarded (put_document builtinFS doc user source id) past.
Proof.
  intros Hid. unfold put_document, checkDocument. destruct (too_large doc) eqn:El; [done|].
  destruct (Parse doc) as [[t|] problems] eqn:Ep; [|done]. destruct (builtinName builtinFS (tk_Name t)) eqn:En; [done|].
  apply Hid. intros i past' Ho. intros now _. split; [done|]. cbn [pbind do_call]. cbv zeta. intros e _. split; [|done].
  split_and!.
  - by apply Nat.ltb_ge.
  - exists t. cbn [sk_YAML]. by rewrite Ep.
  - intros d Hd Ed. apply list_elem_of_In in Hd. unfold builtinName in En. apply not_true_iff_false in En. apply En.
    apply existsb_exists. exists d. split; [done|]. apply String.eqb_eq. done.
  - destruct Ho as [[Hin Hs]|(pid & d & Hl & Hrest)]; [left|right].
    + split; [|done]. by apply elem_of_app; left.
    + exists pid, d. split; [|done]. eapply loaded_keep; [|exact Hl]. by apply since_one.
Qed.

Lemma no_business_tasks past c x : no_business c -> tasks_rule past (aact c x).
Proof. by destruct c. Qed.

Lemma wp_CreateTask body user : guarded (CreateTask builtinFS body user) [].
Proof.
  apply wp_sent_on; [apply no_business_tasks|done..|]. intros past _. destruct body as [doc|]; [|done].
  apply wp_put_document. intros f Hf. intros i _. split; [done|]. apply Hf. left. split; [|done].
  apply elem_of_app. right. by apply list_elem_of_singleton.
Qed.

Lemma wp_UpdateTask id body user : guarded (UpdateTask builtinFS PathUnescape id body user) [].
Proof.
  apply wp_sent_on; [apply no_business_tasks|done..|]. intros past _. unfold answered.
  apply wp_loadTask; [apply no_business_tasks| |done]. intros past' d _ Hl. destruct (readOnly d) eqn:Er; [done|].
  destruct body as [doc|]; [|done]. apply wp_put_document. intros f Hf. apply Hf. right. unfold readOnly, builtin in Er. go_bools. by exists (taskParam PathUnescape id), d.
Qed.

Lemma wp_DeleteTask id : guarded (DeleteTask builtinFS PathUnescape id) [].
Proof.
  apply wp_sent_on; [apply no_business_tasks|done..|]. intros past _. unfold answered.
  apply wp_loadTask; [apply no_business_tasks| |done]. intros past' d _ Hl. destruct (builtin d) eqn:Er; [done|].
  intros e _. split; [|done]. unfold builtin in Er. go_bools. by exists (taskParam PathUnescape id), d.
Qed.

Lemma only_loadTask_writes id : only no_task_write (loadTask builtinFS id).
Proof. unfold loadTask. only_go. Qed.
Lemma only_readRunRequest_writes body : only no_task_write (readRunRequest builtinFS body).
Proof. pose proof only_loadTask_writes. unfold readRunRequest. only_go. Qed.
Lemma only_start run doc : only no_task_write (start run doc).
Proof.
  assert (Hr : only no_task_write (rebootBusy doc (rr_Nodes run))).
  { apply (only_mono no_business); [by intros []|apply only_rebootBusy]. }
  unfold start, answered, claim, claim_body, begin. only_go.
Qed.

Lemma guarded_request p : api_request p -> guarded p [].
Proof.
  pose proof only_loadTask_writes. pose proof only_readRunRequest_writes. pose proof only_start.
  destruct 1.
  all: try (apply wp_bind; eapply wp_mono; [first [apply wp_CreateTask|apply wp_UpdateTask|apply wp_DeleteTask]|done]).
  all: apply tasks_quiet; unfold ListTasks, GetTask, PlanRun, StartRun, RerunRun, rerun_nodes, StopRun, stop_task,
    stopInstall, head_now, ListRuns, GetRun, runSteps, StepOutput, installOutput, ActiveRun, write_head, managersNotReady,
    apiEnv, forward, answered;
    only_go.
Qed.

(** C22: whatever is asked of the API, a document it stores is in bounds and
    parses to a task of its name, which is no built-in's; it is stored under
    an ID made for it or over a user's task that was read, with the source
    that one has; and no built-in task is dropped. *)
Theorem api_tasks_guarded p tr o :
  api_request p -> exec p tr o -> forall tr1 a tr2, tr = tr1 ++ a :: tr2 -> tasks_rule tr1 a.
Proof. intros Hp He. by destruct (history_sound _ _ _ _ _ (guarded_request p Hp) He). Qed.
End Tasks.
