(* ===== verification/TaskWaves.v ===== *)
(** * The waves of a run

    The nodes of a wave run at once, each as it would alone; a wave starts
    once every node of the waves before it is recorded over, and, in a run
    that stops on failure, none of them failed. *)

From S2P Require Import Prelude GoStrings ApiCodes GoTime TaskModel TaskRefs TaskRender ClusterFSM.
From S2P Require Import ClusterTaskStore TaskPlan Interact RunProg TaskRun TaskRunSpec TaskRunFacts.

#[local] Open Scope prog_scope.

Section Waves.
Variable message_text : message -> string.
Variable SplitHostPort : string -> option string.
Variable ParseIP_String : string -> option string.
Context (r : runner_env).

(** ** What the trace of a run says *)

(** The records the runner reads are ones a leader may have left. *)
Definition relied_all (a : action) : Prop :=
  match a with existT (LoadRec id) rec => rec_ok r id rec | _ => True end.

(** Node [id] was read or recorded with a status of which [P] holds. *)
Definition seen_as (tr : list action) (id : string) (P : string -> Prop) : Prop :=
  exists rec, P (rn_Status rec) /\ (act (LoadRec id) rec ∈ tr \/ act (PutRunNodeRec id rec) true ∈ tr).

Definition node_over (status : string) : Prop :=
  status ∈ [RunNodeSucceeded; RunNodeFailed; RunNodeUnknown; RunNodeSkipped; RunNodeStopped].
Definition node_failed (status : string) : Prop := status = RunNodeFailed \/ status = RunNodeUnknown.

(** A node of wave [k] may get jobs: those of the waves before are over. *)
Definition wave_open (waves : list (list string)) (tr : list action) (node : string) : Prop :=
  exists k wave, waves !! k = Some wave /\ node ∈ wave /\
    forall j w id, (j < k)%nat -> waves !! j = Some w -> id ∈ w ->
      seen_as tr id (fun st => node_over st /\ (rr_StopOnFailure (rc_run r) = true -> ~ node_failed st)).
Definition stopping_seen (tr : list action) : Prop :=
  exists h, act GetRunHead (Some h) ∈ tr /\ rr_Status h = RunStopping.
Definition may_post (waves : list (list string)) (tr : list action) (node : string) : Prop :=
  stopping_seen tr \/ wave_open waves tr node.

(** The run may be recorded succeeded: its nodes are all over and none failed,
    or it is recorded so already. *)
Definition succeeded_seen (tr : list action) : Prop :=
  exists h, act GetRunHead (Some h) ∈ tr /\ rr_Status h = RunSucceeded.
Definition ended_well (waves : list (list string)) (tr : list action) : Prop :=
  forall j w id, waves !! j = Some w -> id ∈ w -> seen_as tr id (fun st => node_over st /\ ~ node_failed st).
Definition may_succeed (waves : list (list string)) (tr : list action) : Prop :=
  succeeded_seen tr \/ ended_well waves tr.

Definition waves_monitor (waves : list (list string)) : monitor :=
  mkMonitor (list action)
    (fun tr a =>
       match a with
       | existT (StartJob node _ _) _ => may_post waves tr node
       | existT (PutRunHead h) _ => rr_Status h = RunSucceeded -> may_succeed waves tr
       | _ => True
       end)
    (fun tr a => tr ++ [a]).

Lemma seen_as_app tr tr' id P : seen_as tr id P -> seen_as (tr ++ tr') id P.
Proof. intros (rec & HP & H). exists rec. rewrite !elem_of_app. tauto. Qed.
Lemma seen_as_impl tr id (P P' : string -> Prop) : (forall s, P s -> P' s) -> seen_as tr id P -> seen_as tr id P'.
Proof. intros HP (rec & H & H'). exists rec. eauto. Qed.
Lemma stopping_seen_app tr tr' : stopping_seen tr -> stopping_seen (tr ++ tr').
Proof. intros (h & H & ?). exists h. rewrite elem_of_app. tauto. Qed.
Lemma may_post_app waves tr tr' node : may_post waves tr node -> may_post waves (tr ++ tr') node.
Proof.
  intros [H|(k & wave & H1 & H2 & H3)]; [left; by apply stopping_seen_app|right].
  exists k, wave. split_and!; [done..|]. intros j w id Hj Hw Hid. apply seen_as_app. eauto.
Qed.

Lemma may_succeed_app waves tr tr' : may_succeed waves tr -> may_succeed waves (tr ++ tr').
Proof.
  intros [(h & H & ?)|H]; [left; exists h; rewrite elem_of_app; tauto|right]. intros j w id Hj Hid. apply seen_as_app. eauto.
Qed.

(** ** Nodes at once *)

Lemma seen_recorded id tr v rec :
  watch (node_monitor r id) v tr -> vw_rec (fold_left (seen r id) tr v) = Some rec ->
  vw_rec v = Some rec \/ seen_as tr id (fun st => st = rn_Status rec).
Proof.
  revert v. induction tr as [|[c x] tr IH]; intros v Hw Hr; [by left|].
  destruct Hw as [Hok Hw]. destruct (IH _ Hw Hr) as [Hv|(rec' & E & H)].
  2: { right. exists rec'. split; [done|]. rewrite !elem_of_cons. tauto. }
  destruct c; try by left.
  - simpl in Hok, Hv. destruct Hok as [-> _]. destruct x; [|done]. simplify_eq. right. exists rec.
    split; [done|]. right. by left.
  - simpl in Hok, Hv. subst id0. simplify_eq. right. exists x. split; [done|]. left. by left.
Qed.

Lemma fold_snoc (s tr : list action) : fold_left (fun tr a => tr ++ [a]) tr s = s ++ tr.
Proof.
  revert s. induction tr as [|a tr IH]; intros s; simpl; [by rewrite app_nil_r|].
  by rewrite IH, <- app_assoc.
Qed.

Lemma wp_runNodes waves ids s (Q : list nodeOutcome -> list action -> Prop) :
  (forall id, id ∈ ids -> may_post waves s id) ->
  (forall outs t, length outs = length ids ->
     (forall i id out, ids !! i = Some id -> outs !! i = Some out ->
        out = nodeAbandoned \/ seen_as (s ++ t) id (outcome_status out)) ->
     Q outs (s ++ t)) ->
  wp relied_all (waves_monitor waves) (runNodes message_text SplitHostPort ParseIP_String r ids) s Q.
Proof.
  intros Hp HQ. apply wp_complete. intros tr o He HR. cbn [mn_next waves_monitor]. rewrite fold_snoc.
  apply par_exec in He as (trs & os & (L1 & L2 & He) & Hm & Ho). rewrite length_map in L1, L2.
  assert (Hnode : forall i id t, ids !! i = Some id -> trs !! i = Some t ->
    Forall (relied r id) t /\ exists oi, os !! i = Some oi /\
      exec (runNode message_text SplitHostPort ParseIP_String r id) t oi).
  { intros i id t Hi Ht. split.
    - apply Forall_forall. intros a Ha. rewrite Forall_forall in HR. specialize (HR a (merge_elem _ _ _ _ _ Hm Ht Ha)).
      destruct a as [[] x]; try done. by intros ->.
    - destruct (lookup_lt_is_Some_2 os i) as [oi Hoi]; [apply lookup_lt_Some in Hi; lia|].
      exists oi. split; [done|]. apply (He i); [|done..]. by rewrite list_lookup_fmap, Hi. }
  split.
  - apply watch_intro. intros tr1 a tr2 E. cbn [mn_next mn_ok waves_monitor]. rewrite fold_snoc.
    destruct a as [[] x]; try done.
    all: destruct (merge_split _ _ _ _ _ Hm E) as [(i & Hi)|(i & t1 & t2 & Ht)]; [done|].
    all: destruct (lookup_lt_is_Some_2 ids i) as [id Hid]; [apply lookup_lt_Some in Ht; lia|].
    all: destruct (Hnode _ _ _ Hid Ht) as (HR' & oi & _ & He').
    all: pose proof (runNode_allowed _ _ _ _ _ _ _ _ _ He' HR') as Hall.
    2: destruct Hall.
    destruct Hall as [-> _]. apply may_post_app, Hp. by eapply list_elem_of_lookup_2.
  - intros outs ->. specialize (Ho _ eq_refl) as ->. rewrite length_map in L2. apply HQ; [done|].
    intros i id out Hi Hout. destruct (lookup_lt_is_Some_2 trs i) as [t Ht]; [apply lookup_lt_Some in Hi; lia|].
    destruct (Hnode _ _ _ Hi Ht) as (HR' & oi & Hoi & He'). rewrite list_lookup_fmap, Hout in Hoi. simplify_eq/=.
    destruct (runNode_watched _ _ _ _ _ _ _ He' HR') as [Hw Hok].
    destruct (Hok _ eq_refl) as [?|(rec & Hrec & Hst & _)]; [by left|right].
    destruct (seen_recorded _ _ _ _ Hw Hrec) as [?|(rec' & E & H)]; [done|].
    exists rec'. rewrite E. split; [done|]. rewrite !elem_of_app.
    destruct H; [left|right]; right; by eapply merge_elem.
Qed.

(** ** The runner between the waves *)

Section Run.
Context (waves : list (list string)).
Notation wpw := (wp relied_all (waves_monitor waves)).

(** A program that posts no job and records no success of its own. *)
Definition silent {A} (p : prog A) : Prop := forall s Q, (forall a t, Q a (s ++ t)) -> wpw p s Q.

Definition posts (c : call) : bool := match c with StartJob _ _ _ | PutRunHead _ => true | _ => false end.

Lemma silent_ret {A} (a : A) : silent (Ret a).
Proof. intros s Q H. specialize (H a []). by rewrite app_nil_r in H. Qed.
Lemma silent_bind {A B} (p : prog A) (f : A -> prog B) : silent p -> (forall a, silent (f a)) -> silent (pbind p f).
Proof.
  intros Hp Hf s Q H. apply wp_bind, Hp. intros a t. apply Hf. intros b t'. rewrite <- app_assoc. apply H.
Qed.
Lemma silent_call c : posts c = false -> silent (do_call c).
Proof. intros Hc s Q H. simpl. intros x _. split; [by destruct c|]. apply H. Qed.

Ltac silent :=
  repeat first
    [ apply silent_ret | match goal with |- silent (do_call ?c) => exact (silent_call c eq_refl) end | apply silent_bind; [|intros ?]
    | progress intros | progress cbv zeta | progress cbn [fst snd] | case_match ].

Lemma silent_readHead fresh : silent (readHead fresh).
Proof. unfold readHead. silent. Qed.
(** A fresh read of the head is a read of the store. *)
Lemma wp_head s (Q : option RunRecord -> list action -> Prop) :
  (forall h t, act GetRunHead (Some h) ∈ s ++ t -> Q (Some h) (s ++ t)) -> (forall t, Q None (s ++ t)) ->
  wpw (readHead true) s Q.
Proof.
  intros HS HN. unfold readHead. apply wp_call; intros now _; split; [done|].
  apply wp_call; intros cached _; split; [done|]. simpl andb. cbv iota.
  apply wp_call; intros h _; split; [done|]. cbn [mn_next waves_monitor]. destruct h as [h|].
  - apply wp_call; intros u _; split; [done|]. cbn [mn_next waves_monitor wp].
    rewrite <- !app_assoc. apply HS. rewrite !elem_of_app. simpl. rewrite !elem_of_cons. tauto.
  - cbn [wp]. rewrite <- !app_assoc. apply HN.
Qed.

(** The head is written as it was read, but for [change]. *)
Lemma wp_putHead change s (Q : bool -> list action -> Prop) :
  (forall h s' (Q' : RunRecord -> list action -> Prop), (exists t, s' = s ++ t) ->
     (forall h' t, (rr_Status h' = RunSucceeded -> rr_Status h = RunSucceeded \/ may_succeed waves s') -> Q' h' (s' ++ t)) ->
     wpw (change h) s' Q') ->
  (forall ok t, Q ok (s ++ t)) -> wpw (putHead change) s Q.
Proof.
  intros Hc HQ. unfold putHead. apply wp_bind, wp_head; [|intros t; cbn [wp]; apply HQ].
  intros h t Hh. apply wp_bind, Hc; [eauto|]. intros h' t' Hs.
  apply wp_call; intros ok _. cbn [mn_ok mn_next waves_monitor]. split.
  { intros E. destruct (Hs E) as [E'|?]; [|by apply may_succeed_app]. left. exists h. rewrite elem_of_app. tauto. }
  destruct ok; [|cbn [negb wp]; rewrite <- !app_assoc; apply HQ].
  apply wp_call; intros u _; split; [done|]. cbn [mn_next waves_monitor wp]. rewrite <- !app_assoc. apply HQ.
Qed.
(** A change that makes no success of its own. *)
Definition tame (change : RunRecord -> prog RunRecord) : Prop :=
  forall h s Q, (forall h' t, (rr_Status h' = RunSucceeded -> rr_Status h = RunSucceeded) -> Q h' (s ++ t)) -> wpw (change h) s Q.
Lemma silent_putHead change : tame change -> silent (putHead change).
Proof. intros Hc s Q HQ. apply wp_putHead; [|done]. intros h s' Q' _ HQ'. apply Hc. intros h' t Hs. apply HQ'. auto. Qed.
Lemma tame_ret f : (forall h, rr_Status (f h) = RunSucceeded -> rr_Status h = RunSucceeded) -> tame (fun h => Ret (f h)).
Proof. intros Hf h s Q H. specialize (H (f h) []). rewrite app_nil_r in H. cbn [wp]. apply H, Hf. Qed.

Lemma tame_resume (st st' : string) : st' <> RunSucceeded ->
  tame (fun h => Ret (if rr_Status h ==s st then set_head_status h st' else h)).
Proof. intros Hne. apply tame_ret. intros h. by destruct (_ ==s _). Qed.
Lemma silent_write id rec : silent (write id rec).
Proof. unfold write. silent. Qed.
Lemma silent_newRecord id : silent (newRecord r id).
Proof. unfold newRecord, record. silent. Qed.

Lemma silent_stop_nodes ids reason : silent (stop_nodes r ids reason).
Proof.
  induction ids as [|id ids IH]; cbn [stop_nodes]; [silent|]. apply silent_bind; [by apply (silent_call (LoadRec id))|]. intros rec.
  destruct (_ && _); [done|]. apply silent_bind.
  { destruct (rc_task r); [apply silent_newRecord|silent]. }
  intros rec'. apply silent_bind; [apply silent_write|]. intros []; [done|silent].
Qed.

Lemma silent_finish status reason : status <> RunSucceeded -> silent (finish r status reason).
Proof.
  intros Hne. unfold finish. cbv zeta. apply silent_bind; [apply silent_stop_nodes|]. intros []; [|silent].
  apply silent_bind; [|silent]. apply silent_putHead. intros h s Q HQ.
  apply wp_call; intros now _; split; [done|]. by apply HQ.
Qed.

Lemma silent_handOver : silent (handOver r).
Proof.
  unfold handOver. apply silent_bind; [apply silent_putHead, tame_resume; done|]. intros []; [|silent].
  apply silent_bind; [apply silent_readHead|]. intros head. destruct (negb _); [silent|].
  apply silent_bind; [silent|]. intros [target [text|]].
  - apply silent_bind; [apply silent_putHead, tame_resume; done|]. intros []; [|silent].
    apply silent_bind; [apply silent_newRecord|]. intros rec. apply silent_bind; [apply silent_write|]. silent.
  - destruct (negb _); [silent|]. apply silent_bind; [apply silent_putHead, tame_resume; done|]. silent.
Qed.

Lemma silent_select_nodes ids P : silent (select_nodes ids P).
Proof. induction ids as [|id ids IH]; cbn [select_nodes]; [silent|]. unfold record. silent. done. Qed.

Lemma wp_stop h s Q : stopping_seen s -> (forall e t, Q e (s ++ t)) ->
  wpw (stop message_text SplitHostPort ParseIP_String r h) s Q.
Proof.
  intros Hs HQ. unfold stop. apply wp_bind, silent_select_nodes. intros todo t.
  apply wp_bind, wp_runNodes; [by left; apply stopping_seen_app|]. intros outs t' _ _.
  destruct (existsb _ _); [|apply silent_finish; [done|]; intros e t''; rewrite <- !app_assoc; apply HQ].
  cbn [wp]. rewrite <- app_assoc. apply HQ.
Qed.

Definition any_end (e : runEnd) (tr : list action) : Prop := True.

Lemma silent_end (p : prog runEnd) s : silent p -> wpw p s any_end.
Proof. intros Hp. by apply Hp. Qed.

(** The run recorded succeeded once its nodes have. *)
Lemma wp_finish_succeeded s : ended_well waves s -> wpw (finish r RunSucceeded "") s any_end.
Proof.
  intros Hs. unfold finish. cbv zeta. apply wp_bind, silent_stop_nodes. intros [] t; [|done]. simpl negb. cbv iota.
  apply wp_bind, wp_putHead; [|intros [] t'; [|done]; by apply silent_end; silent].
  intros h s' Q' [t' ->] HQ'. apply wp_call; intros now _; split; [done|]. cbn [mn_next waves_monitor wp].
  apply HQ'. intros _. right. rewrite <- app_assoc. apply may_succeed_app. by right.
Qed.
Lemma wp_end (failed : bool) s : (failed = false -> ended_well waves s) ->
  wpw (if failed then finish r RunFailed "" else finish r RunSucceeded "") s any_end.
Proof. intros Hs. destruct failed; [by apply silent_end, silent_finish|]. by apply wp_finish_succeeded, Hs. Qed.

(** ** The waves in order *)

(** The node is over, and the run knows if it failed. *)
Definition over (failed : bool) (tr : list action) (id : string) : Prop :=
  seen_as tr id (fun st => node_over st /\ (node_failed st -> failed = true)).

Lemma over_app failed tr tr' id : over failed tr id -> over failed (tr ++ tr') id.
Proof. apply seen_as_app. Qed.
Lemma over_failed failed failed' tr id : (failed = true -> failed' = true) -> over failed tr id -> over failed' tr id.
Proof. intros H. apply seen_as_impl. intros st [H1 H2]. split; [done|]. intros Hf. by apply H, H2. Qed.

Lemma wp_wave_todo wave s (Q : list string * bool -> list action -> Prop) :
  (forall todo failed t, (forall id, id ∈ todo -> id ∈ wave) ->
     (forall id, id ∈ wave -> id ∈ todo \/ over failed (s ++ t) id) -> Q (todo, failed) (s ++ t)) ->
  wpw (wave_todo wave) s Q.
Proof.
  revert s Q. induction wave as [|id wave IH]; intros s Q HQ; cbn [wave_todo].
  { specialize (HQ [] false []). rewrite app_nil_r in HQ. apply HQ; [done|]. intros id Hid. by apply not_elem_of_nil in Hid. }
  unfold record. apply wp_call; intros rec _; split; [done|]. apply wp_bind, IH. intros todo failed t Ht Ho.
  cbn [fst snd wp mn_next waves_monitor] in *.
  rewrite <- app_assoc. assert (Hseen : act (LoadRec id) rec ∈ s ++ [act (LoadRec id) rec] ++ t).
  { rewrite !elem_of_app. simpl. rewrite elem_of_cons. tauto. }
  rewrite <- app_assoc in Ho. set (tr := s ++ [act (LoadRec id) rec] ++ t) in *.
  destruct ((rn_Status rec ==s RunNodeFailed) || _) eqn:Ef;
    [|destruct ((rn_Status rec ==s RunNodeSucceeded) || _ || _) eqn:Ee].
  - apply HQ; [intros; right; auto|]. intros id' Hid'. apply elem_of_cons in Hid' as [->|Hid'].
    + right. exists rec. split; [|by left]. unfold node_over.
      apply orb_true_iff in Ef as [E|E]; apply String.eqb_eq in E; rewrite E; (split; [set_solver|done]).
    + destruct (Ho id' Hid') as [?|Hov]; [by left|right]. by eapply over_failed; [|exact Hov].
  - apply HQ; [intros; right; auto|]. intros id' Hid'. apply elem_of_cons in Hid' as [->|Hid'].
    + right. exists rec. split; [|by left]. unfold node_over, node_failed. split; [|].
      * apply orb_true_iff in Ee as [Ee|E]; [apply orb_true_iff in Ee as [E|E]|]; apply String.eqb_eq in E; rewrite E; set_solver.
      * apply orb_false_iff in Ef as [E1 E2]. go_bools. intros [?|?]; done.
    + apply Ho, Hid'.
  - apply HQ; [intros id' [->|?]%elem_of_cons; [by left|right; auto]|].
    intros id' Hid'. apply elem_of_cons in Hid' as [->|Hid']; [left; by left|].
    destruct (Ho id' Hid') as [?|Hov]; [left; by right|by right].
Qed.

Lemma wp_run_wave todo failed next s :
  (forall id, id ∈ todo -> may_post waves s id) ->
  (forall failed' t, (failed = true -> failed' = true) -> (forall id, id ∈ todo -> over failed' (s ++ t) id) ->
     wpw (next failed') (s ++ t) any_end) ->
  wpw (run_wave message_text SplitHostPort ParseIP_String r todo failed next) s any_end.
Proof.
  intros Hp Hn. unfold run_wave. apply wp_bind, wp_runNodes; [done|]. intros outs t Hl Hout.
  destruct (existsb _ outs) eqn:Ea; [done|]. cbv zeta. destruct (quorum_node todo outs); [by apply silent_end, silent_finish|].
  apply Hn; [by intros ->|]. intros id Hid. apply list_elem_of_lookup_1 in Hid as [i Hi].
  destruct (lookup_lt_is_Some_2 outs i) as [out Ho]; [apply lookup_lt_Some in Hi; lia|].
  assert (Hin : In out outs) by (by apply list_elem_of_In, (list_elem_of_lookup_2 _ i)).
  destruct (Hout i id out Hi Ho) as [->|Hseen].
  - exfalso. rewrite <- not_true_iff_false, existsb_exists in Ea. apply Ea. by exists nodeAbandoned.
  - eapply seen_as_impl; [|exact Hseen]. intros st Hst. split.
    + unfold node_over. destruct out; simpl in Hst; try (rewrite Hst; set_solver).
      * destruct Hst as [->| ->]; set_solver.
      * exfalso. rewrite <- not_true_iff_false, existsb_exists in Ea. apply Ea. by exists nodeAbandoned.
    + intros Hf. apply orb_true_iff. right. apply existsb_exists. exists out. split; [done|].
      apply bool_decide_eq_true_2. destruct out; simpl in Hst; try done; exfalso.
      * rewrite Hst in Hf. by destruct Hf.
      * rewrite Hst in Hf. by destruct Hf.
      * rewrite Hst in Hf. by destruct Hf.
      * rewrite <- not_true_iff_false, existsb_exists in Ea. apply Ea. by exists nodeAbandoned.
Qed.

Lemma wp_run_waves past rest failed s :
  waves = past ++ rest ->
  (forall j w id, past !! j = Some w -> id ∈ w -> over failed s id) ->
  wpw (run_waves message_text SplitHostPort ParseIP_String r rest failed) s any_end.
Proof.
  revert past failed s. induction rest as [|wave rest IH]; intros past failed s E Hov; cbn [run_waves].
  { assert (Hwell : forall t, failed = false -> ended_well waves (s ++ t)).
    { intros t -> j w id Hj Hid. rewrite app_nil_r in E. subst past. apply seen_as_app.
      eapply seen_as_impl; [|by eapply Hov]. intros st [H1 H2]. split; [done|]. by intros Hf%H2. }
    apply wp_bind, wp_head.
    - intros h t Hh. destruct (String.eqb_spec (rr_Status h) RunStopping) as [Es|_].
      + apply wp_stop; [by exists h|done].
      + apply wp_end, Hwell.
    - intros t. apply wp_end, Hwell. }
  apply wp_bind. apply (silent_call CtxErr eq_refl). intros gone t1. apply wp_bind.
  assert (Hleads : silent (if gone : bool then Ret false else do_call IsLeader)).
  { destruct gone; [apply silent_ret|by apply (silent_call IsLeader)]. }
  apply Hleads. intros leads t2. destruct leads; [|done]. simpl negb. cbv iota. apply wp_bind, wp_head; [|done].
  intros h t3 Hh. destruct (String.eqb_spec (rr_Status h) RunStopping) as [Es|_].
  { apply wp_stop; [by exists h|done]. }
  destruct (failed && rr_StopOnFailure (rc_run r)) eqn:Esf; [by apply silent_end, silent_finish|].
  apply wp_bind, wp_wave_todo. intros todo f2 t4 Htodo Hwave. cbn [fst snd].
  repeat rewrite <- app_assoc in *. set (tr := t1 ++ t2 ++ t3 ++ t4) in *.
  assert (Hpost : forall t id, id ∈ todo -> may_post waves (s ++ tr ++ t) id).
  { intros t id Hid. right. exists (length past), wave. split_and!; [|auto|].
    - by rewrite E, list_lookup_middle.
    - intros j w id' Hj Hw Hid'. rewrite E, lookup_app_l in Hw by done.
      apply seen_as_app. eapply seen_as_impl; [|by eapply Hov]. intros st [H1 H2]. split; [done|].
      intros Hsf Hf. rewrite (H2 Hf), Hsf in Esf. done. }
  assert (Hnext : forall failed' t, (failed || f2 = true -> failed' = true) ->
    (forall id, id ∈ todo -> over failed' (s ++ tr ++ t) id) ->
    wpw (run_waves message_text SplitHostPort ParseIP_String r rest failed') (s ++ tr ++ t) any_end).
  { intros failed' t Hf Hdone. apply (IH (past ++ [wave])); [by rewrite <- app_assoc|].
    intros j w id Hj Hid. apply lookup_app_Some in Hj as [Hj|[_ Hj]].
    - apply over_app. eapply over_failed; [|by eapply Hov]. intros ->. by apply Hf.
    - apply list_lookup_singleton_Some in Hj as [_ <-]. destruct (Hwave id Hid) as [?|Ho]; [auto|].
      rewrite (app_assoc s). apply over_app. eapply over_failed; [|exact Ho]. intros ->. apply Hf. by rewrite orb_true_r. }
  destruct todo as [|id0 todo0] eqn:Etodo.
  { specialize (Hnext (failed || f2) []). rewrite app_nil_r in Hnext. apply Hnext; [done|].
    intros id Hid. by apply not_elem_of_nil in Hid. }
  rewrite <- Etodo in *. clear Etodo id0 todo0.
  assert (Hrun : forall t, wpw (run_wave message_text SplitHostPort ParseIP_String r todo (failed || f2)
    (run_waves message_text SplitHostPort ParseIP_String r rest)) (s ++ tr ++ t) any_end).
  { intros t. apply wp_run_wave; [by apply Hpost|]. intros failed' t' Hf Ho.
    rewrite <- !app_assoc in *. by apply Hnext. }
  destruct (slices_contains todo (rc_local r)).
  2: { specialize (Hrun []). by rewrite app_nil_r in Hrun. }
  apply wp_bind, silent_handOver. intros [[]|] t5; [done| |done]. unfold record.
  apply wp_call; intros rec _; split; [done|]. cbn [mn_next waves_monitor]. rewrite <- !app_assoc.
  destruct (String.eqb_spec (rn_Status rec) RunNodeFailed) as [Ef|_]; [|apply Hrun].
  apply wp_run_wave.
  - intros id Hid. apply list_elem_of_In, List.filter_In in Hid as [Hid _]. by apply Hpost, list_elem_of_In.
  - intros failed' t Hf Ho. rewrite <- !app_assoc in *. apply Hnext; [intros _; by apply Hf|].
    intros id Hid. destruct (decide (id = rc_local r)) as [->|Hne].
    + exists rec. rewrite Ef. split; [split; [unfold node_over; set_solver|by intros _; apply Hf]|].
      left. rewrite !elem_of_app, list_elem_of_singleton. tauto.
    + apply Ho, list_elem_of_In, List.filter_In. split; [by apply list_elem_of_In|].
      by apply negb_true_iff, String.eqb_neq.
Qed.
End Run.

Lemma run_waves_watched waves tr o :
  exec (run_waves message_text SplitHostPort ParseIP_String r waves false) tr o -> Forall relied_all tr ->
  watch (waves_monitor waves) [] tr.
Proof.
  intros He HR.
  assert (Hw : wp relied_all (waves_monitor waves) (run_waves message_text SplitHostPort ParseIP_String r waves false)
    [] any_end) by (by apply (wp_run_waves waves [])).
  by destruct (wp_sound _ _ _ _ _ _ _ Hw He HR).
Qed.

(** C2: in a run no job is posted to a node before every node of the waves
    before its own is over, and, in a run that stops on failure, over
    without failing; except once the run was seen stopping, when the nodes a
    former leader left under way are run to their end. *)
Theorem run_waves_in_order waves tr1 tr2 o node spec user x :
  exec (run_waves message_text SplitHostPort ParseIP_String r waves false)
    (tr1 ++ act (StartJob node spec user) x :: tr2) o ->
  Forall relied_all (tr1 ++ act (StartJob node spec user) x :: tr2) ->
  stopping_seen tr1 \/ wave_open waves tr1 node.
Proof.
  intros He HR. pose proof (run_waves_watched waves _ _ He HR) as Hwatch. apply watch_at in Hwatch.
  cbn [mn_ok mn_next waves_monitor] in Hwatch. by rewrite fold_snoc in Hwatch.
Qed.

(** C10: a run is recorded succeeded only once every node of every wave was
    read or recorded over, and neither failed nor unknown; or it was recorded
    so already. *)
Theorem run_succeeds_whole waves tr1 tr2 o h x :
  exec (run_waves message_text SplitHostPort ParseIP_String r waves false) (tr1 ++ act (PutRunHead h) x :: tr2) o ->
  Forall relied_all (tr1 ++ act (PutRunHead h) x :: tr2) -> rr_Status h = RunSucceeded ->
  succeeded_seen tr1 \/ ended_well waves tr1.
Proof.
  intros He HR. pose proof (run_waves_watched waves _ _ He HR) as Hwatch. apply watch_at in Hwatch.
  cbn [mn_ok mn_next waves_monitor] in Hwatch. by rewrite fold_snoc in Hwatch.
Qed.
End Waves.

(** ** Waiting for a job comes to an end

    A world answers the calls of a program and keeps the clock.  In a world
    whose clock passes with the runner's sleeps, the wait for a job the node
    is silent about, or that restarts it, ends. *)

(** What answers the calls. *)
Record world : Type := mkWorld { wd_state : Type; wd_step : wd_state -> forall c : call, answer c * wd_state }.

(** A program run in a world: its result, unless it is out of fuel. *)
Fixpoint run_in {A} (w : world) (s : wd_state w) (p : prog A) : option (A * wd_state w) :=
  match p with
  | Ret a => Some (a, s)
  | Stuck => None
  | Do c k => let (x, s') := wd_step w s c in run_in w s' (k x)
  end.

(** A clock that does not go back and passes with a sleep. *)
Class Clock (w : world) := {
  time : wd_state w -> Time;
  time_now s : (wd_step w s Now).1 = time s;
  time_passes s c : time s <= time (wd_step w s c).2;
  time_sleeps s d : time s + d <= time (wd_step w s (Sleep d)).2;
}.

Lemma run_in_bind {A B} w (p : prog A) (f : A -> prog B) s :
  run_in w s (pbind p f) = match run_in w s p with Some (a, s') => run_in w s' (f a) | None => None end.
Proof.
  revert s. induction p as [a|c k IH|]; intros s; simpl; [done| |done]. destruct (wd_step w s c). apply IH.
Qed.

Section Wait.
Context (w : world) `{!Clock w}.
Context (r : runner_env) (id : string) (spec : JobSpec).

(** The program ends, and no earlier than it began. *)
Definition ends_in {A} (s : wd_state w) (p : prog A) (P : A -> wd_state w -> Prop) : Prop :=
  exists a s', run_in w s p = Some (a, s') /\ time s <= time s' /\ P a s'.

Lemma ends_ret {A} s (a : A) (P : A -> wd_state w -> Prop) : P a s -> ends_in s (Ret a) P.
Proof. intros H. exists a, s. split_and!; [done|lia|done]. Qed.
Lemma ends_bind {A B} s (p : prog A) (f : A -> prog B) P :
  ends_in s p (fun a s' => time s <= time s' -> ends_in s' (f a) P) -> ends_in s (pbind p f) P.
Proof.
  intros (a & s' & E & Ht & H). destruct (H Ht) as (b & s'' & E' & Ht' & HP).
  exists b, s''. rewrite run_in_bind, E. split_and!; [done|lia|done].
Qed.
Lemma ends_call {A} s c (f : answer c -> prog A) P :
  (let x := (wd_step w s c).1 in let s' := (wd_step w s c).2 in time s <= time s' -> ends_in s' (f x) P) ->
  ends_in s (pbind (do_call c) f) P.
Proof.
  intros H. destruct (H (time_passes s c)) as (b & s'' & E' & Ht' & HP). exists b, s''.
  pose proof (time_passes s c) as Ht. simpl. destruct (wd_step w s c) as [x s']. simpl in *. split_and!; [done|lia|done].
Qed.
Lemma ends_now {A} s (f : Time -> prog A) P :
  (forall s', time s <= time s' -> ends_in s' (f (time s)) P) -> ends_in s (pbind (do_call Now) f) P.
Proof. intros Hf. apply ends_call. intros x s' Ht. unfold x. rewrite time_now. by apply Hf. Qed.
Lemma ends_sleep {A} s d (f : unit -> prog A) P :
  (forall s', time s + d <= time s' -> ends_in s' (f tt) P) -> ends_in s (pbind (do_call (Sleep d)) f) P.
Proof. intros Hf. apply ends_call. intros x s' _. destruct x. apply Hf, time_sleeps. Qed.
Lemma ends_mono {A} s (p : prog A) (P P' : A -> wd_state w -> Prop) :
  ends_in s p P -> (forall a s', P a s' -> P' a s') -> ends_in s p P'.
Proof. intros (a & s' & ? & ? & ?) HP. exists a, s'. auto. Qed.

Lemma ends_readHead fresh s : ends_in s (readHead fresh) (fun _ _ => True).
Proof.
  unfold readHead. apply ends_call; intros now s1 _. apply ends_call; intros c s2 _.
  destruct (_ && _); [by apply ends_ret|]. apply ends_call; intros h s3 _. destruct h; [|by apply ends_ret].
  apply ends_call; intros u s4 _. by apply ends_ret.
Qed.
Lemma ends_maybe_cancel cancelled s : ends_in s (maybe_cancel r id spec cancelled) (fun _ _ => True).
Proof.
  unfold maybe_cancel. destruct (_ && _); [|by apply ends_ret].
  apply ends_bind. eapply ends_mono; [apply ends_readHead|]. intros [h|] s' _ _; [|by apply ends_ret].
  destruct (_ && _); [|by apply ends_ret]. apply ends_call; intros ok s2 _. by apply ends_ret.
Qed.

(** The node, when it answers about the job, says that it has ended, or that
    it is restarting the node. *)
Definition answers_end : Prop :=
  forall s, match (wd_step w s (GetJob id (js_ID spec))).1 with
            | Ok v => active (jv_Status v) = true -> js_Kind spec = StepReboot /\ jv_Status v = JobRebooting
            | Err _ => True
            end.

(** The time by which the wait is over. *)
Definition deadline (by_ : option Time) (lastHeard : Time) : Time :=
  match by_ with Some t => t | None => lastHeard + lostAfter end.

Lemma wait_loop_done fuel view started by_ lastHeard cancelled s :
  active (jv_Status view) = false ->
  wait_loop r fuel id spec view started by_ lastHeard cancelled = Ret (view, stepDone) /\
  ends_in s (wait_loop r fuel id spec view started by_ lastHeard cancelled)
    (fun x _ => active (jv_Status x.1) = false \/ x.2 <> stepDone).
Proof.
  intros Ea. assert (E : wait_loop r fuel id spec view started by_ lastHeard cancelled = Ret (view, stepDone)).
  { destruct fuel; simpl; by rewrite Ea. }
  split; [done|]. rewrite E. apply ends_ret. by left.
Qed.

Lemma wait_loop_ends fuel view started by_ lastHeard cancelled s :
  answers_end -> (by_ = None -> js_Kind spec <> StepReboot) ->
  deadline by_ lastHeard - time s < Z.of_nat (S fuel) * pollInterval ->
  ends_in s (wait_loop r (S fuel) id spec view started by_ lastHeard cancelled)
    (fun x _ => active (jv_Status x.1) = false \/ x.2 <> stepDone).
Proof.
  intros Hans Hby. revert view lastHeard cancelled s.
  induction fuel as [fuel IH] using lt_wf_ind. intros view lastHeard cancelled s Hd. cbn [wait_loop].
  destruct (active (jv_Status view)) eqn:Ea; simpl negb; cbv iota; [|by apply ends_ret; left].
  apply ends_call; intros gone s1 H1. destruct gone; [by apply ends_ret; right|].
  apply ends_sleep; intros s2 H2. apply ends_bind. eapply ends_mono; [apply ends_maybe_cancel|].
  intros c s3 _ H3. apply ends_call; intros job s4 H4. apply ends_now; intros s5 H5.
  specialize (Hans s3). fold job in Hans. clearbody job.
  assert (Hagain : forall view' c' lh s', deadline by_ lh <= deadline by_ lastHeard -> time s4 < deadline by_ lh ->
    time s4 <= time s' -> ends_in s' (wait_loop r fuel id spec view' started by_ lh c')
      (fun x _ => active (jv_Status x.1) = false \/ x.2 <> stepDone)).
  { intros view' c' lh s' Hlh Hlt Hs'. destruct fuel as [|fuel]; [unfold pollInterval, Second in *; lia|].
    apply IH; [lia|]. unfold pollInterval, Second in *; lia. }
  destruct job as [v|e].
  - destruct (active (jv_Status v)) eqn:Ev.
    + destruct (Hans eq_refl) as [Hk Hs]. destruct by_ as [t|]; [|by destruct Hby]. rewrite Hs. simpl andb.
      destruct (Z.leb_spec t (time s4)); [apply ends_ret; by left|]. by apply Hagain.
    + destruct by_ as [t|]; [|by apply wait_loop_done].
      destruct (_ && _); [apply ends_ret; by left|by apply wait_loop_done].
  - apply ends_call; intros gone s6 H6. destruct gone; [by apply ends_ret; right|].
    destruct (_ ==s _); [by apply ends_ret; right|]. destruct by_ as [t|].
    + destruct (Z.leb_spec t (time s4)); [apply ends_ret; by left|]. apply Hagain; simpl in *; lia.
    + destruct (Z.leb_spec lostAfter (time s4 - lastHeard)); [by apply ends_ret; right|]. apply Hagain; simpl in *; lia.
Qed.

(** C40: a job whose node is silent, says it is over or says it restarts is
    waited for to an end, a restart's for its wait and any other's for the
    five minutes a node may be silent, in as many polls as fit in that time;
    and a wait not given up ends with the job's last state, which is not a
    running one. *)
Theorem wait_returns view started s :
  answers_end -> started <= time s ->
  Z.max lostAfter (reboot_wait spec) < Z.of_nat (rc_fuel r) * pollInterval ->
  exists jv res s', run_in w s (wait r id spec view started) = Some ((jv, res), s') /\
    (active (jv_Status jv) = false \/ res <> stepDone).
Proof.
  intros Hans Hst Hf.
  assert (H : ends_in s (wait r id spec view started) (fun x _ => active (jv_Status x.1) = false \/ x.2 <> stepDone)).
  { unfold wait. cbv zeta. apply ends_now. intros s1 H1.
    assert (Hl : 0 < lostAfter) by done. unfold pollInterval, Second in *.
    destruct (rc_fuel r) as [|fuel] eqn:Ef; [lia|]. apply wait_loop_ends; [done| |].
    - destruct (String.eqb_spec (js_Kind spec) StepReboot); [done|by intros _].
    - unfold pollInterval, Second. destruct (js_Kind spec ==s StepReboot); simpl deadline; lia. }
  destruct H as ([jv res] & s' & E & _ & HP). by exists jv, res, s'.
Qed.
End Wait.
