(* ===== verification/TaskWitness.v ===== *)
(** * The theorems on tasks at work

    A small task, its document as a toy YAML library has it, and each theorem
    applied to them: the hypotheses of the development can hold, the interface
    to YAML included. *)

From S2P Require Import Prelude GoStrings GoRegexp GoTime TaskModel TaskRefs ShellPlaces.
From S2P Require Import ShellFacts TaskRender TaskYaml TaskParse TaskFormat TaskWf TaskParseFacts TaskRoundtrip.
From S2P Require Import TaskRenderFacts.

Definition sample : Task :=
  mkTask "Install" "" [mkInput "pkg" "" "curl" true false] (mkTargets None (Some ["manager"]) None) 2 true
    [ mkStep "" false StepPackages (Some (mkPackagesStep true false None (Some ["{{ pkg }}"]) None)) None None None None None;
      mkStep "" true StepCommand None None (Some (mkCommandStep "echo {{ pkg }}" "" (5 * Minute))) None None None;
      mkStep "" false StepReboot None None None None None (Some (mkRebootStep true DefaultRebootWait)) ].

(** A YAML library with one document, and scalars as the formatter writes
    them. *)
Definition toy_decode_int (n : Node) : option Z :=
  let number s := match leadingInt s 0 with Some (m, "") => Some m | _ => None end in
  match n_Value n with
  | String "-" s => m ← number s; if (0 <=? m) && (m <=? 2 ^ 63) then Some (- m) else None
  | s => m ← number s; if (0 <=? m) && (m <? 2 ^ 63) then Some m else None
  end.

Definition sample_doc : string := "name: Install".
#[local] Instance toy_yaml : YamlLib := {|
  yaml_decode_first doc :=
    if doc ==s sample_doc then Decoded (mkNode DocumentNode 0 "" "" [format_tree sample] 1)
    else DecodeFailed "yaml: line 3: did not find expected key";
  yaml_decode_second _ := DecodeEOF;
  node_decode_bool n :=
    if n_Value n ==s "true" then Some true else if n_Value n ==s "false" then Some false else None;
  node_decode_int := toy_decode_int;
  yaml_encode _ := Some sample_doc;
|}.

Lemma leadingInt_dec_all n : 0 <= n <= 2 ^ 63 -> leadingInt (dec n) 0 = Some (n, "").
Proof. intros Hn. pose proof (leadingInt_dec n "" Hn) as E. rewrite sapp_nil_r in E. by rewrite E, leadingInt_stop. Qed.

Lemma dec_no_sign z : 0 <= z <= 2 ^ 63 -> forall s, dec z <> String "-" s.
Proof.
  intros Hz s E. pose proof (leadingInt_dec_all z Hz) as H. rewrite E in H. by rewrite leadingInt_stop in H.
Qed.

#[local] Instance toy_scalars : YamlScalars toy_yaml.
Proof.
  split.
  - intros [] st l; reflexivity.
  - intros z st l Hz. unfold node_decode_int, toy_yaml, toy_decode_int, itoa. cbn [n_Value].
    destruct (Z.ltb_spec z 0).
    + change ("-" +:+ dec (- z)) with (String "-" (dec (- z))). cbv iota zeta. rewrite leadingInt_dec_all by lia.
      unfold base.mbind, option_bind. assert ((0 <=? - z) && (- z <=? 2 ^ 63) = true) as ->.
      { apply andb_true_iff. split; apply Z.leb_le; lia. }
      f_equal. lia.
    + pose proof (dec_no_sign z ltac:(lia)) as Hd. pose proof (leadingInt_dec_all z ltac:(lia)) as Hn.
      assert (Hb : (0 <=? z) && (z <? 2 ^ 63) = true).
      { apply andb_true_iff. split; [apply Z.leb_le|apply Z.ltb_lt]; lia. }
      destruct (dec z) as [|c s]; [simpl in *; by simplify_eq|].
      destruct c as [[] [] [] [] [] [] [] []]; first [by destruct (Hd s eq_refl) | cbv iota zeta; rewrite Hn; unfold base.mbind, option_bind; by rewrite Hb].
  - intros n z. unfold node_decode_int, toy_yaml, toy_decode_int.
    assert (Hbind : forall (o : option Z) (f : Z -> option Z), (m ← o; f m) = Some z -> exists m, f m = Some z).
    { intros [m|] f; unfold base.mbind, option_bind; [eauto|done]. }
    destruct (n_Value n) as [|c s]; [|destruct c as [[] [] [] [] [] [] [] []]];
      intros [m Hm]%Hbind; destruct (_ && _) eqn:E in Hm; try done; go_bools; simplify_eq; lia.
Qed.

Lemma Parse_well_formed_witness :
  Parse sample_doc = (Some sample, []) /\ ([] = [] :> list Problem /\ task_ok sample).
Proof.
  assert (E : Parse sample_doc = (Some sample, [])) by (vm_compute; reflexivity).
  split; [exact E|]. exact (Parse_well_formed sample_doc sample [] E).
Defined.

(** The sample is well formed: what the parser keeps, applied to its tree. *)
Lemma sample_ok : task_ok sample.
Proof.
  assert (E : parse_tree (format_tree sample) = (Some sample, [])) by (vm_compute; reflexivity).
  destruct (parse_tree_answer _ _ _ E) as [(_ & t & Et & H)|[H _]].
  - exact (eq_ind_r task_ok H (inj Some _ _ Et)).
  - by destruct H.
Qed.

Lemma parse_format_tree_witness :
  doc_node (mkNode DocumentNode 0 "" "" [format_tree sample] 1) = format_tree sample /\
  parse_tree (mkNode DocumentNode 0 "" "" [format_tree sample] 1) = (Some sample, []).
Proof. split; [reflexivity|]. apply (parse_format_tree sample); [exact sample_ok|reflexivity]. Defined.

(** A document with two problems, the later one found first. *)
Definition broken_tree : Node :=
  mkNode MappingNode 0 "" ""
    [ mkNode ScalarNode 0 "!!str" "steps" [] 4; mkNode SequenceNode 0 "" "" [] 4;
      mkNode ScalarNode 0 "!!str" "colour" [] 2; mkNode ScalarNode 0 "!!str" "red" [] 2 ] 1.

Lemma Parse_task_or_problems_witness :
  Parse "steps" = (None, [syntaxProblem "yaml: line 3: did not find expected key"]) /\
  (None = None :> option Task <-> [syntaxProblem "yaml: line 3: did not find expected key"] <> []).
Proof.
  assert (E : Parse "steps" = (None, [syntaxProblem "yaml: line 3: did not find expected key"])) by (vm_compute; reflexivity).
  split; [exact E|]. exact (Parse_task_or_problems "steps" None _ E).
Defined.

Lemma parse_tree_problems_witness :
  map pr_Line (p_problems (p_task broken_tree new_parser).2) = [2; 1; 4] /\
  map pr_Line (parse_tree broken_tree).2 = [1; 2; 4] /\
  stably_sorted (p_problems (p_task broken_tree new_parser).2) (parse_tree broken_tree).2.
Proof.
  split; [vm_compute; reflexivity|]. split; [vm_compute; reflexivity|].
  apply (parse_tree_problems broken_tree _ (p_task broken_tree new_parser).1 _ (parse_tree broken_tree).1);
    apply surjective_pairing.
Defined.

(** [it's] quoted, with [;] after it. *)
Lemma ShellQuote_reads_back_witness :
  shell_word 5 (los "; ls") = Some ([], los "; ls") /\
  exists fuel', shell_word fuel' (los (ShellQuote "it's $HOME") ++ los "; ls") = Some (los "it's $HOME" ++ [], los "; ls").
Proof.
  assert (E : shell_word 5 (los "; ls") = Some ([], los "; ls")) by reflexivity.
  split; [exact E|]. exact (ShellQuote_reads_back "it's $HOME" _ _ _ 5 E).
Defined.

Definition sample_node : NodeVars := mkNodeVars "web-1" "10.0.0.7".

Lemma Render_well_formed_witness :
  missing_input (tk_Inputs sample) ∅ = None /\
  exists specs, Render sample ∅ sample_node = Ok specs /\ length specs = 3%nat /\
    forall i s, tk_Steps sample !! i = Some s -> exists spec, specs !! i = Some spec /\
      step_rendered "Install" (plain_of sample ∅ sample_node) (command_of sample ∅ sample_node) i s spec.
Proof. split; [reflexivity|]. exact (Render_well_formed sample ∅ sample_node sample_ok). Defined.
