(* ===== verification/ClusterWitness.v ===== *)
(** * The theorems on the cluster at work

    Small codecs that read back what they write, a cluster of a few records,
    and each theorem applied to them. *)

From S2P Require Import Prelude GoStrings GoRegexp GoTime TaskModel ClusterFSM ClusterFSMFacts ClusterQuorum.
From S2P Require Import ClusterTokens ClusterTaskStore ClusterTaskStoreFacts.

(** A table whose texts differ reads back what it writes. *)
Lemma table_reads_back {A} `{EqDecision A} (l : list (string * A)) a d :
  NoDup l.*1 -> json_marshal (Codec := table_codec l) a = Some d -> json_unmarshal (Codec := table_codec l) d = Some a.
Proof.
  simpl. induction l as [|[k b] l IH]; simpl; [done|]. intros [Hk Hl]%NoDup_cons.
  destruct (bool_decide_reflect (b = a)) as [->|Hne]; simpl.
  - intros [= ->]. by rewrite String.eqb_refl.
  - intros H. destruct (String.eqb_spec k d) as [->|_]; [|by apply IH]. exfalso. apply Hk.
    destruct (List.find _ l) as [[k' b']|] eqn:E; [|done]. simpl in H. simplify_eq.
    apply List.find_some in E as [E _]. apply list_elem_of_fmap. exists (d, b'). split; [done|]. by apply list_elem_of_In.
Qed.

(** ** A cluster *)

Definition web : Node :=
  mkNode "n1" "web" "10.0.0.1:8443" "10.0.0.1:9443" None RoleVoter KindManager StatusOnline None 50 60.
Definition web_seen : Node :=
  mkNode "n1" "web" "10.0.0.1:8443" "10.0.0.1:9443" None RoleVoter KindManager StatusOffline None 50 90.
Definition add_web : Command := mkCommand CmdAddNode "n1" "{web}".
Definition update_web : Command := mkCommand CmdUpdateNode "n1" "{web}".

Definition task1 : StoredTask :=
  mkStoredTask "t1" "Install" "name: Install" (mkTaskSource "" "" "" "" "") 0 "admin".
Definition task1_stored : StoredTask :=
  mkStoredTask "t1" "Install" "name: Install" (mkTaskSource TaskSourceUser "" "" "" "") 100 "admin".
Definition run_of (id rev status : string) : RunRecord :=
  mkRunRecord id "" "t1" "Install" rev ∅ ["n1"] [["n1"]] [] 1 true status "" false "" "admin" 10 0 "" ∅ 0.
Definition run_new : RunRecord := run_of "20260102-120000-abcdef" "aa" RunRunning.
Definition run_old : RunRecord := run_of "20260101-120000-abcdef" "bb" RunSucceeded.
Definition node_rec : RunNodeRecord := mkRunNodeRecord RunNodeRunning "" ∅ [] "" "" "" "" "" false "" "" "" "".

Definition set_command (key value : string) : Command := mkCommand CmdSetConfig key value.
Definition delete_command (key : string) : Command := mkCommand CmdDeleteConfig key "".
Definition commands : list (string * Command) :=
  [ ("add", add_web); ("update", update_web); ("task", set_command (taskKey "t1") "{t1}");
    ("node", set_command (runNodeKey (rr_ID run_new) "n1") "{rec}");
    ("drop run", delete_command (runKey (rr_ID run_old))); ("drop rev", delete_command (taskRevKey "bb")) ].

#[local] Instance command_codec : Codec Command := table_codec commands.
#[local] Instance node_codec : Codec Node := table_codec [("{web}", web)].
#[local] Instance string_codec : Codec string := {| json_marshal s := Some s; json_unmarshal s := Some s |}.
#[local] Instance account_codec : Codec AdminAccount := table_codec [].
#[local] Instance codes_codec : Codec (list string) := table_codec [].
#[local] Instance task_codec : Codec StoredTask := table_codec [("{t1}", task1_stored)].
#[local] Instance run_codec : Codec RunRecord := table_codec [("{new}", run_new); ("{old}", run_old)].
#[local] Instance rec_codec : Codec RunNodeRecord := table_codec [("{rec}", node_rec)].

#[local] Instance store_json : StoreJSON.
Proof.
  unshelve econstructor; [exact (fun _ => True)..| | | | | | | | |].
  - intros s. by exists s.
  - by intros s t _ [= ->].
  - intros c d _. apply table_reads_back. by apply (bool_decide_unpack _).
  - intros t d _. apply table_reads_back. by apply (bool_decide_unpack _).
  - intros t d _. apply table_reads_back. by apply (bool_decide_unpack _).
  - intros t d _. apply table_reads_back. by apply (bool_decide_unpack _).
  - done.
  - done.
  - done.
Defined.

(** ** The state machine *)

Lemma replay_state_ok_witness :
  state_ok (fsm_state NewFSM) /\
  cs_Nodes (fsm_state (replay NewFSM [(1, "add"); (2, "update")] (fun _ => 99)).1.1) !! "n1" = Some web /\
  state_ok (fsm_state (replay NewFSM [(1, "add"); (2, "update")] (fun _ => 99)).1.1).
Proof.
  assert (H : state_ok (fsm_state NewFSM)) by (split; apply map_Forall_empty).
  split; [exact H|]. split; [vm_compute; reflexivity|].
  exact (replay_state_ok NewFSM [(1, "add"); (2, "update")] (fun _ => 99) H).
Defined.

Lemma replay_replicas_witness :
  let f := with_state NewFSM (set_nodes (fsm_state NewFSM) {[ "n1" := web ]}) in
  let g := with_state NewFSM (set_nodes (fsm_state NewFSM)
    {[ "n1" := mkNode "n1" "web" "10.0.0.1:8443" "10.0.0.1:9443" None RoleVoter KindManager StatusOnline None 50 77 ]}) in
  replica_eq f g /\
  replica_eq (replay f [(1, "update")] (fun _ => 5)).1.1 (replay g [(1, "update")] (fun _ => 6)).1.1 /\
  (replay f [(1, "update")] (fun _ => 5)).1.2 = (replay g [(1, "update")] (fun _ => 6)).1.2 /\
  (replay f [(1, "update")] (fun _ => 5)).2 = (replay g [(1, "update")] (fun _ => 6)).2.
Proof.
  intros f g. assert (H : replica_eq f g) by (split; [vm_compute; reflexivity|done]).
  split; [exact H|]. exact (replay_replicas f g [(1, "update")] (fun _ => 5) (fun _ => 6) H).
Defined.

(** What replicas may differ in they do: an update with no time of its own is
    stamped with each manager's clock. *)
Definition bare_update : Node := mkNode "n1" "" "" "" None "" "" StatusOnline None 0 0.
Lemma Apply_clock_diverges :
  let stamped now := merge_node web bare_update now in nd_LastSeen (stamped 5) = 5 /\ nd_LastSeen (stamped 6) = 6.
Proof. by vm_compute. Qed.

Definition web_fsm : FSM := with_state NewFSM (set_nodes (fsm_state NewFSM) {[ "n1" := web ]}).
#[local] Instance snapshot_codec : Codec Snapshot := {|
  json_marshal sn := if bool_decide (sn = snapshot_of (fsm_state web_fsm)) then Some "{snapshot}" else None;
  json_unmarshal s := if s ==s "{snapshot}" then Some (snapshot_norm (snapshot_of (fsm_state web_fsm))) else None;
|}.
#[local] Instance snapshot_json : SnapshotJSON snapshot_codec.
Proof.
  split. intros sn s. unfold json_marshal, json_unmarshal, snapshot_codec.
  destruct (bool_decide_reflect (sn = snapshot_of (fsm_state web_fsm))) as [->|]; [|discriminate].
  intros E. injection E as <-. reflexivity.
Qed.

Lemma Restore_TakeSnapshot_witness :
  TakeSnapshot web_fsm = Some "{snapshot}" /\
  exists g', ClusterFSM.Restore NewFSM "{snapshot}" = Some (g', configChanged NewFSM "") /\
    fsm_state g' = set_nodes (fsm_state web_fsm) (node_norm <$> cs_Nodes (fsm_state web_fsm)) /\
    fsm_replayUpTo g' = fsm_replayUpTo NewFSM.
Proof.
  assert (E : TakeSnapshot web_fsm = Some "{snapshot}").
  { unfold TakeSnapshot, json_marshal, snapshot_codec. by rewrite bool_decide_eq_true_2. }
  split; [exact E|]. exact (Restore_TakeSnapshot web_fsm NewFSM "{snapshot}" E).
Defined.

(** ** Labels and tokens *)

Lemma ValidateLabels_spec_witness :
  ValidateLabels [("zone", "eu-1")] = None /\
  (ValidateLabels [("zone", "eu-1")] = None <->
   (size ({[ "zone" := "eu-1" ]} : gmap string string) <= 32)%nat /\
   map_Forall (fun k v => label_ok (k, v)) ({[ "zone" := "eu-1" ]} : gmap string string)).
Proof.
  split; [vm_compute; reflexivity|]. apply (ValidateLabels_spec {[ "zone" := "eu-1" ]}).
  rewrite map_to_list_singleton. reflexivity.
Defined.

(** A stand-in for the HMAC; the theorems hold of any. *)
Definition toy_hmac (key msg : string) : string := key +:+ msg.
Definition secret : string := "0123456789abcdef0123456789abcdef".
Definition tokens0 : TokenManager := mkTokenManager ∅ secret "/var/lib/tokens.json" None.
Definition minted : TokenManager * result TokenError JoinToken :=
  CreateFor toy_hmac tokens0 (10 * Minute) "admin" KindAgent "n9" "" "r1" 1000 1001 true.
Definition minted_token : JoinToken :=
  mkJoinToken (mint toy_hmac secret "r1") (1000 + 10 * Minute) false "admin" KindAgent "n9" "".

Lemma CreateFor_Validate_witness :
  minted = (minted.1, Ok minted_token) /\
  Validate toy_hmac minted.1 (jt_Token minted_token) KindManager 2000 true = (minted.1, Err ErrTokenKind) /\
  (Validate toy_hmac minted.1 (jt_Token minted_token) KindAgent 2000 true).2 = Ok (set_used minted_token true).
Proof.
  assert (E : minted = (minted.1, Ok minted_token)) by (vm_compute; reflexivity).
  split; [exact E|]. split.
  - apply (CreateFor_Validate toy_hmac tokens0 (10 * Minute) "admin" KindAgent "n9" "" "r1" 1000 1001 true
      minted.1 minted_token 2000 KindManager E); vm_compute; discriminate.
  - apply (CreateFor_Validate toy_hmac tokens0 (10 * Minute) "admin" KindAgent "n9" "" "r1" 1000 1001 true
      minted.1 minted_token 2000 KindAgent E); first [reflexivity | vm_compute; discriminate].
Defined.

Definition taken : TokenManager := (Validate toy_hmac minted.1 (jt_Token minted_token) KindAgent 2000 true).1.
Definition history : list token_op := [OpRestart "r2" 3000 true; OpList [jt_Token minted_token] 3001].
Definition after : TokenManager := default taken (token_run toy_hmac taken history).

Lemma Validate_once_witness :
  Validate toy_hmac minted.1 (jt_Token minted_token) KindAgent 2000 true = (taken, Ok (set_used minted_token true)) /\
  exists tm2, token_run toy_hmac taken history = Some tm2 /\
    is_ok (Validate toy_hmac tm2 (jt_Token minted_token) KindAgent 4000 true).2 = false.
Proof.
  assert (E : Validate toy_hmac minted.1 (jt_Token minted_token) KindAgent 2000 true =
    (taken, Ok (set_used minted_token true))) by (vm_compute; reflexivity).
  assert (Er : token_run toy_hmac taken history = Some after) by (vm_compute; reflexivity).
  split; [exact E|]. exists after. split; [exact Er|].
  apply (Validate_once toy_hmac minted.1 (jt_Token minted_token) KindAgent 2000 true taken
    (set_used minted_token true) history after KindAgent 4000 true E); [|exact Er].
  repeat constructor; intros [].
Defined.

(** ** The task store *)

Definition store_fsm : FSM :=
  with_state NewFSM (mkClusterState "lab" ∅
    (list_to_map [ (runKey (rr_ID run_new), "{new}"); (runKey (rr_ID run_old), "{old}");
                   (taskRevKey "aa", "name: Install"); (taskRevKey "bb", "name: Old") ]) ∅ ∅).
Definition store : Manager := mkManager (Some store_fsm) true ∅.
Definition raft : raft_env := mkRaftEnv (fun _ => RaftOk 7) 100.

Lemma store_run_tasks_ok_witness :
  tasks_ok (config store) /\
  let ops := [(raft, OpPutTask task1); (raft, OpPruneRuns 1)] in
  storedTasks (fold_left (store_step (fun s => s)) ops store) = [task1_stored] /\
  tasks_ok (config (fold_left (store_step (fun s => s)) ops store)).
Proof.
  assert (H0 : forall k t, ~ task_entry (config store) k t).
  { intros k t (v & Hl & Hp & _). unfold config in Hl. simpl in Hl.
    repeat (apply lookup_insert_Some in Hl as [[<- _]|[_ Hl]]; [done|]). by rewrite lookup_empty in Hl. }
  assert (H : tasks_ok (config store)) by (split; [intros k t Ht|intros k1 k2 t1 t2 Ht]; by destruct (H0 _ _ Ht)).
  split; [exact H|]. split; [vm_compute; reflexivity|].
  apply (store_run_tasks_ok (fun s => s) store); [exact H|]. repeat constructor.
Defined.

Lemma PutTask_GetTask_witness :
  PutTask raft store task1 = ((PutTask raft store task1).1, None) /\
  exists s, fill_source task1 = Some s /\ GetTask (PutTask raft store task1).1 "t1" = Ok (stamp task1 s 100).
Proof.
  assert (E : PutTask raft store task1 = ((PutTask raft store task1).1, None)) by (vm_compute; reflexivity).
  split; [exact E|]. exact (PutTask_GetTask raft store task1 _ I E).
Defined.

Lemma PutRunNode_GetRun_witness :
  GetRun store (rr_ID run_new) = Ok (run_new, ∅) /\
  GetRun (PutRunNode raft store (rr_ID run_new) "n1" node_rec).1 (rr_ID run_new) = Ok (run_new, <["n1" := node_rec]> ∅).
Proof.
  assert (E : PutRunNode raft store (rr_ID run_new) "n1" node_rec =
    ((PutRunNode raft store (rr_ID run_new) "n1" node_rec).1, None)) by (vm_compute; reflexivity).
  assert (Eg : GetRun store (rr_ID run_new) = Ok (run_new, ∅)) by (vm_compute; reflexivity).
  split; [exact Eg|]. exact (proj1 (PutRunNode_GetRun raft store (rr_ID run_new) "n1" node_rec _ I E) _ _ Eg).
Defined.

Lemma PruneRuns_keeps_witness :
  let m' := (PruneRuns raft store 1).1 in
  PruneRuns raft store 1 = (m', None) /\
  config m' !! taskRevKey "aa" = Some "name: Install" /\ config m' !! taskRevKey "bb" = None.
Proof.
  intros m'. assert (E : PruneRuns raft store 1 = (m', None)) by (vm_compute; reflexivity).
  split; [exact E|]. destruct (PruneRuns_keeps raft store 1 m' None E) as (_ & Hkept & _ & Hdrop). split.
  - assert (Hk : kept store 1 run_new) by (exists 0%nat; split; [vm_compute; reflexivity|left; lia]).
    destruct (Hkept run_new Hk) as [Hrev _]. exact Hrev.
  - apply (Hdrop eq_refl). assert (Ed : prune_drop store 1 (re_now raft) = [taskRevKey "bb"; runKey (rr_ID run_old)])
      by (vm_compute; reflexivity). rewrite Ed. left.
Defined.
