(* ===== verification/JobWitness.v ===== *)
(** * The theorems on a node's jobs at work

    A node with runners of its steps: two leaders
    ask it for jobs at once, and its panel is restarted under one.  Its host
    answers as a quiet one does. *)

From S2P Require Import Prelude GoStrings GoRegexp GoTime ApiCodes HostGuard TaskModel Interact.
From S2P Require Import FileCall ComposeCall.
From S2P Require Import JobProg.
From S2P Require Import JobOutput JobNode JobRunners JobFile JobPackages JobHost JobHostFacts JobFacts.
From S2P Require Import JobRunnersFacts JobLive.

Definition no_texts : message -> string := fun _ => "".
Definition same (s : string) : string := s.
Definition log_dir : string := "/var/log/sfpanel".
Definition the_runners (kind : string) : option Runner :=
  if kind ==s StepCommand then Some (CommandRunner same 100)
  else if kind ==s StepService then Some (ServiceRunner no_texts same)
  else if kind ==s StepReboot then Some (RebootRunner same)
  else if kind ==s StepFile then Some (FileRunner no_texts same)
  else if kind ==s StepPackages then Some (PackageRunner no_texts same 100)
  else None.
#[local] Instance the_runners_laws : RunnersLaws the_runners.
Proof. intros kind rn. unfold the_runners. repeat case_match; intros; simplify_eq; apply _. Qed.

(** ** A host that answers *)

(** A host with no files but what it is told to make. *)
Definition host_file (c : fcall) : fanswer c :=
  match c with
  | Lstat _ | EvalSymlinks _ | ReadFileAll _ | Readlink _ | Stat _ => Err (mkFsError ErrNotExist "no such file")
  | CreateTemp dir _ => Ok (dir +:+ "/.tmp")
  | LookupUser _ | LookupGroup _ => None
  | _ => None
  end.

Definition host_compose (c : ccall) : canswer c :=
  match c with
  | CFs c => host_file c
  | ReadDir _ => Ok []
  | ListContainersCached | ListContainersByComposeProject _ => Ok []
  | InspectImage _ | CheckImageUpdate _ => Err "no such image"
  | DockerTag _ _ | ComposeStdin _ _ _ | ComposeCombined _ _ => ("", None)
  | ComposeStdout _ _ => ("", "", None)
  | ComposeLines => ([], None)
  | HasClient => false
  | OnLine _ => tt
  | RemoveAll _ | Trash _ | ComposeBegin _ _ | ComposeWait => None
  end.

(** The host's answers to the calls other than the table's. *)
Definition host_answer (c : jcall) : janswer c :=
  match c with
  | StartLock | StartUnlock | JSleep _ | Launch _ _ | TakeCancel _ | CallCancel _ | KillChild | AppendFile _ _ => tt
  | DbGet _ | DbActive => Ok None
  | DbInsert _ | DbFinish _ _ _ | DbSetUnit _ _ | DbDelete _ => None
  | DbSetRebooting _ _ _ => Ok true
  | DbWithStatus _ | DbOld _ _ => Ok []
  | JNow => 100
  | BootID => "boot-2"
  | Platform => mkInfo false StackNetplan
  | SystemdActive | CmdExists _ | FileExists _ | OpenAppend _ => true
  | Cmd _ _ => ("inactive", None)
  | ReadFile _ => Ok None
  | ReadTail _ _ => Some (exitMarker +:+ "0")
  | CreateLog _ | WriteFile _ _ _ | Chmod _ _ | StartChild _ | RemoveFile _ => None
  | WaitChild _ => ChildDone
  | JobCtxErr | SelectCancel _ => false
  | Fs c => host_file c
  | HasCompose => true
  | Cm c => host_compose c
  | PkgStart _ _ => Err (TxRefused "PACKAGES_BUSY" "apt is at work")
  | PkgStatus _ => Err "no such transaction"
  | PkgChanged _ | ReadFrom _ _ => None
  | CopyTo _ data => Z.of_nat (String.length data)
  end.

(** Every call's answer, the table's included. *)
Definition answer_of (t : table) (c : jcall) : janswer c * table :=
  match c return janswer c * table with
  | DbGet id => (Ok (find_job id t), t)
  | DbActive => (Ok (sql_active t), t)
  | DbInsert r => match find_job (jr_ID r) t with None => (None, t ++ [r]) | Some _ => (Some "UNIQUE constraint failed", t) end
  | DbFinish id res now => (None, sql_finish id res now t)
  | DbSetUnit id unit_ => (None, sql_set_unit id unit_ t)
  | DbSetRebooting id unit_ boot => (Ok (existsb (still_running id) t), sql_set_rebooting id unit_ boot t)
  | DbWithStatus status => (Ok (List.filter (fun r => jr_status r ==s status) t), t)
  | DbOld before keep => (Ok (sql_old before keep t), t)
  | DbDelete id => (None, sql_delete id t)
  | c => (host_answer c, t)
  end.

Lemma answer_of_step t c : table_step t c (answer_of t c).1 (answer_of t c).2.
Proof. destruct c; simpl; try done; try (by split; [|intros ? [= ->]]). by destruct (find_job _ t) eqn:E; rewrite ?E. Qed.

(** ** A node that runs *)

Inductive event : Type := EvStart (spec : JobSpec) | EvCancel (id : string) | EvStep (i : nat) | EvRestart.

Definition event_prog (e : event) : jprog unit :=
  match e with
  | EvStart spec => pbind (StartJob log_dir same the_runners true (Some spec) "admin") (fun _ => Ret tt)
  | EvCancel id => pbind (CancelJob log_dir same true id (Some true)) (fun _ => Ret tt)
  | _ => Ret tt
  end.

Definition lock_free (h : host) (c : jcall) : bool :=
  match c with StartLock => if ho_lock h is None then true else false | _ => true end.

Definition happens (h : host) (e : event) : host * list (option jaction) :=
  match e with
  | EvRestart => (mkHost (ho_table h) None [Recover log_dir the_runners], [None])
  | EvStep i =>
      match ho_pool h !! i with
      | Some (Do c k) =>
          if lock_free h c then
            (mkHost (answer_of (ho_table h) c).2 (lock_after h i c)
               (<[i := k (answer_of (ho_table h) c).1]> (ho_pool h) ++ spawned same the_runners c),
             [Some (jact c (answer_of (ho_table h) c).1)])
          else (h, [])
      | _ => (h, [])
      end
  | e => (mkHost (ho_table h) (ho_lock h) (ho_pool h ++ [event_prog e]), [None])
  end.

Notation steps := (host_steps log_dir no_texts same same the_runners (new_host log_dir the_runners)).

Lemma happens_steps tr h e : steps tr h -> steps (tr ++ (happens h e).2) (happens h e).1.
Proof.
  intros H. destruct e as [spec|id|i|]; simpl.
  - eapply steps_snoc; [done|]. apply step_request, req_start.
  - eapply steps_snoc; [done|]. apply step_request, req_cancel.
  - destruct (ho_pool h !! i) as [[|c k|]|] eqn:Ei; rewrite ?app_nil_r; try done.
    destruct (lock_free h c) eqn:El; rewrite ?app_nil_r; [|done].
    eapply steps_snoc; [done|]. apply step_call; [done| |apply answer_of_step].
    unfold lock_free in El. destruct c; simpl; try done. by destruct (ho_lock h).
  - eapply steps_snoc; [done|]. apply step_restart.
Qed.

Fixpoint history (es : list event) : host * list (option jaction) :=
  match es with
  | [] => (new_host log_dir the_runners, [])
  | e :: es => let '(h, tr) := history es in ((happens h e).1, tr ++ (happens h e).2)
  end.
Lemma history_steps es : steps (history es).2 (history es).1.
Proof.
  induction es as [|e es IH]; [constructor|]. simpl. destruct (history es) as [h tr]. by apply happens_steps.
Qed.

(** ** Two jobs *)

Definition service_spec : JobSpec :=
  mkJobSpec "20260102-120000-abcdef-0" "20260102-120000-abcdef" "Work" 0 StepService false None
    (Some (mkServiceStep "nginx.service" "restart")) None None None None.
Definition command_spec : JobSpec :=
  mkJobSpec "20260102-120001-123456-3" "20260102-120001-123456" "Other" 3 StepCommand false None None
    (Some (mkCommandStep "sync" "" (5 * Minute))) None None None.

(** The last event first: a start of each job, their goroutines taking turns;
    the service's job is done, the command's asked for again, and the panel
    restarted once its unit runs. *)
Definition turns (n : nat) (pool : list nat) : list event := concat (repeat (map EvStep pool) n).
Definition story : list event :=
  turns 40 [0%nat] ++ [EvRestart] ++ turns 13 [4; 5]%nat ++ [EvStart command_spec] ++
  turns 40 [3; 2; 1]%nat ++ [EvStart command_spec; EvStart service_spec] ++ turns 10 [0%nat].

Definition after : host := (history story).1.
Definition happened : list (option jaction) := (history story).2.

Lemma jobs_one_at_a_time_witness :
  map (fun r => (jr_ID r, jr_status r)) (ho_table after) =
    [("20260102-120000-abcdef-0", JobSucceeded); ("20260102-120001-123456-3", JobRunning)] /\
  NoDup (map jr_ID (ho_table after)) /\
  forall r1 r2, r1 ∈ ho_table after -> r2 ∈ ho_table after ->
    active (jr_status r1) = true -> active (jr_status r2) = true -> r1 = r2.
Proof.
  split; [vm_compute; reflexivity|]. apply (jobs_one_at_a_time log_dir no_texts same same the_runners happened).
  apply history_steps.
Defined.

Lemma host_refines_book_witness :
  book_of (ho_table after) !! js_ID command_spec = Some (command_spec, PhaseRunning) /\
  rtc book_step (∅, ∅) (book_of (ho_table after), listed happened) /\
  forall a h', host_step log_dir no_texts same same the_runners after a h' ->
    (book_of (ho_table h'), listed (happened ++ [a])) = (book_of (ho_table after), listed happened) \/
    book_step (book_of (ho_table after), listed happened) (book_of (ho_table h'), listed (happened ++ [a])).
Proof.
  split; [vm_compute; reflexivity|]. apply (host_refines_book log_dir no_texts same same the_runners happened).
  apply history_steps.
Defined.

Lemma job_started_once_witness :
  count (is_start (js_ID command_spec)) happened = 1%nat /\
  (count (is_start (js_ID command_spec)) happened <= count (is_insert (js_ID command_spec)) happened)%nat /\
  (count (is_insert (js_ID command_spec)) happened <= 1 + count (is_delete (js_ID command_spec)) happened)%nat.
Proof.
  split; [vm_compute; reflexivity|]. apply (job_started_once log_dir no_texts same same the_runners happened after).
  apply history_steps.
Defined.

(** ** A node that runs on *)

#[local] Instance the_runners_answer : RunnersAnswer the_runners.
Proof. intros kind rn. unfold the_runners. repeat case_match; intros; simplify_eq; apply _. Qed.

(** The node after the first [n] of some events; then nothing happens. *)
Fixpoint moments (h : host) (es : list event) (n : nat) : host :=
  match n, es with S n, e :: es => moments (happens h e).1 es n | _, _ => h end.

Lemma moments_S h es n : moments h es (S n) = moments h es n \/
  exists e, e ∈ es /\ moments h es (S n) = (happens (moments h es n) e).1.
Proof.
  revert h n. induction es as [|e es IH]; intros h n; [left; by destruct n|].
  destruct n as [|n]; [right; exists e; split; [by left|by destruct es]|].
  destruct (IH (happens h e).1 n) as [E|(e' & He & E)]; [by left|right]. exists e'. split; [by right|exact E].
Qed.

Lemma moments_end h es n : (length es <= n)%nat -> moments h es n = moments h es (length es).
Proof.
  revert h n. induction es as [|e es IH]; intros h n Hn; [by destruct n|]. destruct n as [|n]; simpl in *; [lia|].
  apply IH. lia.
Qed.

Definition step_of := host_step log_dir no_texts same same the_runners.
Lemma happens_step h e : (happens h e).1 = h \/ exists a, step_of h a (happens h e).1.
Proof.
  destruct e as [spec|id|i|]; simpl; [right; eexists; apply step_request, req_start|
    right; eexists; apply step_request, req_cancel| |right; eexists; apply step_restart].
  destruct (ho_pool h !! i) as [[|c k|]|] eqn:Ei; auto. destruct (lock_free h c) eqn:El; [|auto]. right.
  eexists. apply step_call; [done| |apply answer_of_step].
  unfold lock_free in El. destruct c; simpl; try done. by destruct (ho_lock h).
Qed.

Lemma happens_pool h e : e <> EvRestart -> (length (ho_pool h) <= length (ho_pool (happens h e).1))%nat.
Proof.
  intros He. destruct e as [spec|id|i|]; simpl; [rewrite length_app; lia..| |done].
  destruct (ho_pool h !! i) as [[|c k|]|]; simpl; try lia. destruct (lock_free h c); simpl; [|lia].
  rewrite length_app, length_insert. lia.
Qed.

(** Recovered with nothing to recover, asked for a job, and done with it. *)
Definition day : list event := turns 10 [0%nat] ++ [EvStart service_spec] ++ turns 40 [1; 2]%nat.
Definition node_at : nat -> host := moments (new_host log_dir the_runners) day.
Definition is_done (p : jprog unit) : bool := match p with Ret _ => true | _ => false end.

Lemma all_done (pool : list (jprog unit)) i c k :
  forallb is_done pool = true -> pool !! i = Some (Do c k) -> False.
Proof.
  intros Hd Hp. rewrite forallb_forall in Hd. apply list_elem_of_lookup_2, list_elem_of_In, Hd in Hp. done.
Qed.

Lemma node_at_run : run log_dir no_texts same same the_runners node_at.
Proof.
  split; [done|]. intros n. destruct (moments_S (new_host log_dir the_runners) day n) as [?|(e & _ & E)]; [by left|].
  unfold node_at. rewrite E. apply happens_step.
Qed.

Lemma day_restartless e : e ∈ day -> e <> EvRestart.
Proof.
  intros He ->. assert (Hd : existsb (fun e => match e with EvRestart => true | _ => false end) day = false) by reflexivity.
  rewrite <-not_true_iff_false, existsb_exists in Hd. apply Hd. exists EvRestart. by rewrite <-list_elem_of_In.
Qed.

Lemma node_at_pool n m : (n <= m)%nat -> (length (ho_pool (node_at n)) <= length (ho_pool (node_at m)))%nat.
Proof.
  induction 1 as [|m _ IH]; [done|]. destruct (moments_S (new_host log_dir the_runners) day m) as [E|(e & He & E)];
    unfold node_at in *; rewrite E; [done|]. pose proof (happens_pool (moments (new_host log_dir the_runners) day m) e).
  specialize (H (day_restartless e He)). lia.
Qed.

Lemma node_at_fair : fair log_dir same the_runners node_at.
Proof.
  intros n i c k Hp _. remember (length day - n)%nat as d eqn:Ed. revert n Ed Hp. induction d as [|d IH]; intros n Ed Hp.
  - exfalso. unfold node_at in Hp. rewrite moments_end in Hp by lia.
    refine (all_done _ _ _ _ _ Hp). vm_compute. reflexivity.
  - destruct (moment _ _ _ _ _ _ node_at_run n i _ Hp) as [?|[?|[? _]]]; [by exists n; auto..|].
    destruct (IH (S n)) as (m & ? & ?); [lia|done|]. exists m. split; [lia|done].
Qed.

Lemma every_request_answered_witness :
  request log_dir no_texts same the_runners (event_prog (EvStart service_spec)) /\
  ho_pool (node_at 11) !! 1%nat = Some (event_prog (EvStart service_spec)) /\
  (forall n, exists m, (n <= m)%nat /\ ho_lock (node_at m) = None) /\
  exists m, (11 <= m)%nat /\ ho_pool (node_at m) !! 1%nat = Some (Ret tt).
Proof.
  assert (Hr : request log_dir no_texts same the_runners (event_prog (EvStart service_spec))) by apply req_start.
  assert (Hp : ho_pool (node_at 11) !! 1%nat = Some (event_prog (EvStart service_spec))) by reflexivity.
  split; [exact Hr|]. split; [exact Hp|].
  destruct (every_request_answered log_dir no_texts same same the_runners node_at node_at_run node_at_fair) as [Hl Ha].
  split; [exact Hl|]. apply (Ha _ _ _ Hr Hp). intros m Hm E.
  pose proof (node_at_pool 11 (S m) ltac:(lia)) as Hlen. unfold restarts in E. rewrite E in Hlen.
  revert Hlen. vm_compute. lia.
Defined.

(** ** One goroutine *)

Fixpoint trace_of {A} (p : jprog A) : list jaction * option A :=
  match p with
  | Ret a => ([], Some a)
  | Stuck => ([], None)
  | Do c k => let '(tr, o) := trace_of (k (host_answer c)) in (jact c (host_answer c) :: tr, o)
  end.
Lemma trace_of_exec {A} (p : jprog A) : exec p (trace_of p).1 (trace_of p).2.
Proof.
  induction p as [a|c k IH|]; simpl; try constructor. specialize (IH (host_answer c)).
  destruct (trace_of (k (host_answer c))). by constructor.
Qed.
Lemma trace_exec {A} (p : jprog A) o : (trace_of p).2 = o -> exec p (trace_of p).1 o.
Proof. intros <-. apply trace_of_exec. Qed.

Fixpoint alone_of {A} (t : table) (p : jprog A) : list jaction * option A * table :=
  match p with
  | Ret a => ([], Some a, t)
  | Stuck => ([], None, t)
  | Do c k =>
      let '(tr, o, t') := alone_of (answer_of t c).2 (k (answer_of t c).1) in
      (jact c (answer_of t c).1 :: tr, o, t')
  end.
Lemma alone_of_alone {A} t (p : jprog A) a : (alone_of t p).1.2 = Some a -> alone t p (alone_of t p).1.1 a (alone_of t p).2.
Proof.
  revert t. induction p as [b|c k IH|]; intros t; simpl; [intros [= ->]; constructor| |done].
  specialize (IH (answer_of t c).1 (answer_of t c).2).
  destruct (alone_of _ (k _)) as [[tr o] t']. simpl in *. intros ->. econstructor; [apply answer_of_step|auto].
Qed.

Definition service_job : Job := mkJob service_spec (logPath log_dir (js_ID service_spec)) 100 "".
Definition service_body : jprog unit := launched_body same the_runners LaunchStart service_job.

Lemma launched_job_ends_witness :
  has_method the_runners LaunchStart service_job /\
  exists res now x, jact (DbFinish (job_ID service_job) res now) x ∈ (trace_of service_body).1.
Proof.
  assert (H : has_method the_runners LaunchStart service_job) by (eexists; reflexivity).
  split; [exact H|]. apply (launched_job_ends same the_runners LaunchStart service_job); [exact H|].
  apply trace_exec. vm_compute. reflexivity.
Defined.

Definition service_start : jprog (option string) := service_Start no_texts same service_job.
Definition restart_cmd : jaction :=
  jact (Cmd DefaultTimeout ["systemctl"; "restart"; "nginx.service"]) ("inactive", None).
Lemma service_guarded_witness :
  restart_cmd ∈ (trace_of service_start).1 /\
  exists info, jact Platform info ∈ (trace_of service_start).1 /\ may_act info "nginx.service" "restart" false.
Proof.
  assert (H : restart_cmd ∈ (trace_of service_start).1).
  { apply (list_elem_of_lookup_2 _ 4). vm_compute. reflexivity. }
  split; [exact H|]. apply (service_guarded no_texts same service_job _ _ _ _ _ (trace_of_exec service_start) H).
Defined.

(** The command asked for while the service's job holds the node. *)
Definition holder : record := mkRecord service_spec JobRunning false None "" "" "boot-1" "admin" 50 0.
Definition second_start : jprog job_answer := StartJob log_dir same the_runners true (Some command_spec) "admin".
Definition busy_answer : job_answer :=
  AnswerFail 409 ErrTaskNodeBusy (Sprintf "This node is running another task job" [])
    [("job_id", js_ID service_spec); ("run_id", js_RunID service_spec); ("task", "Work")].
Lemma StartJob_alone_witness :
  (alone_of [holder] second_start).1.2 = Some busy_answer /\
  let '(tr, t') := ((alone_of [holder] second_start).1.1, (alone_of [holder] second_start).2) in
  (t' = [holder] /\ no_launch tr /\ turned_away [holder] command_spec busy_answer) \/
  (exists rec, busy_answer = AnswerJob 201 (record_view rec "" 0 false) /\ find_job (js_ID command_spec) [holder] = None /\
     no_active [holder] /\ jr_spec rec = command_spec /\ jr_status rec = JobRunning /\ jr_username rec = "admin" /\
     jr_endedAt rec = 0 /\ rec ∈ t' /\ (forall r, r ∈ t' -> r = rec \/ r ∈ [holder]) /\
     jact (Launch LaunchStart (mkJob command_spec (logPath log_dir (js_ID command_spec)) (jr_startedAt rec) "")) tt ∈ tr).
Proof.
  assert (H : (alone_of [holder] second_start).1.2 = Some busy_answer) by (vm_compute; reflexivity).
  split; [exact H|]. cbv zeta iota beta.
  assert (Hok : is_ok (validate the_runners command_spec) = true) by (vm_compute; reflexivity).
  destruct (validate the_runners command_spec) as [rn|] eqn:E; [|discriminate Hok].
  apply (StartJob_alone log_dir same the_runners [holder] command_spec rn "admin"); [exact E|].
  apply alone_of_alone. exact H.
Defined.

(** A panel that finds a command with its unit, and a service cut off. *)
Definition left_rows : list record :=
  [mkRecord command_spec JobRunning false None "" "sfpanel-task-u.service" "boot-1" "admin" 50 0; holder].
Definition boot_answer (c : jcall) : janswer c :=
  match c return janswer c with
  | DbWithStatus status => Ok (if status ==s JobRunning then left_rows else [])
  | c => host_answer c
  end.
Fixpoint boot_trace {A} (p : jprog A) : list jaction * option A :=
  match p with
  | Ret a => ([], Some a)
  | Stuck => ([], None)
  | Do c k => let '(tr, o) := boot_trace (k (boot_answer c)) in (jact c (boot_answer c) :: tr, o)
  end.
Lemma boot_trace_exec {A} (p : jprog A) o : (boot_trace p).2 = o -> exec p (boot_trace p).1 o.
Proof.
  intros <-. induction p as [a|c k IH|]; simpl; try constructor. specialize (IH (boot_answer c)).
  destruct (boot_trace (k (boot_answer c))). by constructor.
Qed.
Definition boot : jprog unit := Recover log_dir the_runners.
Lemma Recover_settles_witness :
  length (boot_trace boot).1 = 8%nat /\
  exists x tr', (boot_trace boot).1 = jact (DbWithStatus JobRunning) x :: tr' /\ forall rows, x = Ok rows ->
    exists parts y rest, tr' = concat parts ++ jact (DbWithStatus JobRebooting) y :: rest /\
      Forall2 (running_settled log_dir the_runners) rows parts /\
      forall rows', y = Ok rows' -> exists parts' swept, rest = concat parts' ++ swept /\
        Forall2 (reboot_settled log_dir the_runners) rows' parts' /\
        forall id res now z, jact (DbFinish id res now) z ∉ swept.
Proof.
  split; [vm_compute; reflexivity|]. apply (Recover_settles log_dir the_runners (boot_trace boot).1).
  apply boot_trace_exec. vm_compute. reflexivity.
Defined.

(** ** A log *)

Definition short_log : string := "building" +:+ String newline "[sfpanel-task] exit=0".
Lemma short_log_ends : has_ends short_log.
Proof. intros skip Hs Hl. exfalso. revert Hl. unfold slen, outputPiece. simpl String.length. lia. Qed.
Lemma read_log_whole_witness :
  read_log same (S (String.length short_log)) short_log 0 = Some [short_log] /\
  exists raws, read_log same (S (String.length short_log)) short_log 0 = Some (map same raws) /\
    foldr String.append "" raws = short_log /\ Forall (fun raw => slen raw <= outputPiece) raws.
Proof. split; [vm_compute; reflexivity|]. apply (read_log_whole same short_log), short_log_ends. Defined.
