(* ===== verification/RunWitness.v ===== *)
(** * The theorems on plans and runs at work

    A plan of three nodes, and a run of a command and a restart on one manager,
    in a world that answers each call and keeps a clock. *)

From S2P Require Import Prelude GoStrings ApiCodes GoRegexp GoTime TaskModel TaskRefs TaskRender.
From S2P Require Import TaskYaml ClusterFSM ClusterTaskStore ClusterTaskStoreFacts RunStore TaskPlan TaskPlanFacts Interact.
From S2P Require Import RunProg TaskRun TaskRunSpec TaskRunFacts TaskRerun TaskSupervise TaskSuperviseFacts TaskWaves.
From S2P Require Import ClusterWitness.

(** ** A plan *)

Definition node (id name kind : string) : Node :=
  mkNode id name "" "" None RoleVoter kind StatusOnline None 0 0.
Definition cluster : list Node := [node "n1" "lead" KindManager; node "n2" "mgr" KindManager; node "a1" "edge" KindAgent].
Definition plan_env : planEnv :=
  mkPlanEnv "n1" cluster {[ "n1" := StatusOnline; "n2" := StatusOnline; "a1" := StatusOnline ]}
    (fun _ => true) (fun _ => false) (Ok []) (fun _ _ => Ok []).
Definition everyone : Targets := mkTargets None (Some ["manager"; "agent"]) (Some ["gone"]).

Lemma orderRun_partition_witness :
  (length (chosen plan_env everyone) <= MaxTargets)%nat /\
  exists p, orderRun plan_env everyone 2 = Some (Ok p) /\
    concat (pl_Waves p) ++ pl_Left p ≡ₚ
      map unknown_node (unknown_ids plan_env everyone) ++ map (plan_node plan_env ∅) (chosen plan_env everyone) /\
    Forall (fun pn => pn_Reason pn = "" /\ may_run plan_env ∅ (pn_ID pn)) (concat (pl_Waves p)) /\
    Forall (fun pn => pn_Reason pn <> "") (pl_Left p).
Proof.
  assert (Hl : (length (chosen plan_env everyone) <= MaxTargets)%nat) by (vm_compute; lia).
  split; [exact Hl|]. apply (orderRun_partition plan_env everyone 2 ∅).
  - apply (bool_decide_unpack _). reflexivity.
  - reflexivity.
  - exact Hl.
  - discriminate.
Defined.

Definition the_plan : Plan := match orderRun plan_env everyone 2 with Some (Ok p) => p | _ => mkPlan [] [] end.
Lemma orderRun_order_witness :
  WaveIDs the_plan = [["a1"]; ["n2"]; ["n1"]] /\
  exists agents managers leader,
    pl_Waves the_plan = agents ++ map (fun m => [m]) managers ++ map (fun l => [l]) leader /\
    Forall (fun w => 1 <= Z.of_nat (length w) <= 2) agents /\
    Sorted plan_le (concat agents) /\ Sorted plan_le managers /\ (length leader <= 1)%nat /\
    Forall (fun pn => pn_Kind pn = KindAgent /\ pn_Leader pn = false) (concat agents) /\
    Forall (fun pn => pn_Kind pn = KindManager /\ pn_Leader pn = false) managers /\
    Forall (fun pn => pn_Leader pn = true) leader.
Proof.
  split; [vm_compute; reflexivity|]. apply (orderRun_order plan_env everyone 2 ∅); [reflexivity|discriminate|].
  vm_compute. reflexivity.
Defined.

(** ** Traces of a world *)

Fixpoint run_trace {A} (w : world) (s : wd_state w) (p : prog A) : list action * option A :=
  match p with
  | Ret a => ([], Some a)
  | Stuck => ([], None)
  | Do c k =>
      let (x, s') := wd_step w s c in
      let '(tr, o) := run_trace w s' (k x) in (act c x :: tr, o)
  end.

Lemma run_trace_exec {A} w s (p : prog A) : exec p (run_trace w s p).1 (run_trace w s p).2.
Proof.
  revert s. induction p as [a|c k IH|]; intros s; simpl; try constructor.
  destruct (wd_step w s c) as [x s']. specialize (IH x s'). destruct (run_trace w s' (k x)). by constructor.
Qed.

Lemma run_trace_relied {A} (R : action -> Prop) w s (p : prog A) :
  (forall s c, R (act c (wd_step w s c).1)) -> Forall R (run_trace w s p).1.
Proof.
  intros HR. revert s. induction p as [a|c k IH|]; intros s; simpl; [constructor| |constructor].
  specialize (HR s c). destruct (wd_step w s c) as [x s']. specialize (IH x s').
  destruct (run_trace w s' (k x)). by constructor.
Qed.

(** A trace around its [k]-th action. *)
Lemma run_trace_at {A} w s (p : prog A) k a o :
  (run_trace w s p).2 = o -> (run_trace w s p).1 !! k = Some a ->
  exec p (take k (run_trace w s p).1 ++ a :: drop (S k) (run_trace w s p).1) o.
Proof. intros <- H. rewrite take_drop_middle by done. apply run_trace_exec. Qed.

(** ** A run *)

Definition work : Task :=
  mkTask "Work" "" [] (mkTargets None (Some ["manager"]) None) 1 true
    [ mkStep "" false StepCommand None None (Some (mkCommandStep "sync" "" (5 * Minute))) None None None;
      mkStep "" false StepReboot None None None None None (Some (mkRebootStep true DefaultRebootWait)) ].
Definition run_id : string := "20260102-120000-abcdef".
Definition run (status : string) (force : bool) : RunRecord :=
  mkRunRecord run_id "" "t1" "Work" "aa" ∅ ["n1"] [["n1"]] [] 1 true status "" force "" "admin" 10 0 "" ∅ 0.
Definition env : runner_env := mkRunnerEnv (run RunRunning false) (Some work) {[ "n1" := node "n1" "lead" KindManager ]} "n9" 1000.

(** The world: the node is up and ends each job at once, unless the run is
    stopped by force at the time [stop], until when it runs a command. *)
Definition view_of (job : string) (status : string) : JobView := mkJobView job "" "" status true None "" "" 0 false 0 0 None.
Definition answers (stop : option Time) (now : Time) (c : call) : answer c :=
  let stopping := match stop with Some t => t <=? now | None => false end in
  match c with
  | CtxErr => false
  | IsLeader => true
  | Now => now
  | Sleep _ => tt
  | Health => {[ "n1" := StatusOnline ]}
  | Nodes => [node "n1" "lead" KindManager]
  | Unreachable _ => false
  | StartJob _ spec _ => Ok (view_of (js_ID spec) JobRunning)
  | GetJob _ job =>
      Ok (view_of job (match stop with
                       | Some _ => if stopping then JobCancelled else JobRunning
                       | None => JobSucceeded
                       end))
  | CancelJob _ _ _ => true
  | HandOver => ("n2", None)
  | GetRunHead => Some (run (if stopping then RunStopping else RunRunning) stopping)
  | TaskRevisionOf _ => Err "no such revision"
  | PutRunHead _ => true
  | PutRunNodeRec _ _ => true
  | PruneOld _ => tt
  | LoadHead => (run RunRunning false, 0)
  | StoreHead _ _ => tt
  | LoadRec _ => zero_rec
  | StoreRec _ _ => tt
  | Pick => 0%nat
  end.
Definition lab (stop : option Time) : world :=
  mkWorld Time (fun now c =>
    (answers stop now c, match c with Sleep d => now + Z.max 0 d | _ => now end)).

Definition no_texts : message -> string := fun _ => "".
Definition node_prog : prog nodeOutcome := runNode no_texts (fun _ => None) (fun _ => None) env "n1".
Definition wave_prog : prog runEnd := run_waves no_texts (fun _ => None) (fun _ => None) env [["n1"]] false.
Definition start_time : Time := 60 * Second.

(** A record nothing has been written to is one a leader may have left. *)
Lemma empty_rec_ok id : rec_ok env id zero_rec.
Proof.
  assert (E : filled env id zero_rec = [mkRunStepRecord RunStepPending "" "" false 0 0; mkRunStepRecord RunStepPending "" "" false 0 0])
    by reflexivity.
  unfold rec_ok. rewrite E. split.
  - reflexivity.
  - repeat constructor.
  - repeat constructor.
  - intros i s _ _. change (start_at env id) with 0%nat. lia.
  - intros [|[|i]] s Hs Hf; simpl in Hs; simplify_eq; discriminate.
Qed.
Lemma lab_relied stop s p : Forall (relied env "n1") (run_trace (lab stop) s (A := nodeOutcome) p).1.
Proof. apply run_trace_relied. intros t []; try exact I. intros _. apply empty_rec_ok. Qed.
Lemma lab_relied_all stop s p : Forall (relied_all env) (run_trace (lab stop) s (A := runEnd) p).1.
Proof. apply run_trace_relied. intros t []; try exact I. apply empty_rec_ok. Qed.

Definition sync_spec : JobSpec :=
  mkJobSpec "20260102-120000-abcdef-0" run_id "Work" 0 StepCommand false None None
    (Some (mkCommandStep "sync" "" (5 * Minute))) None None None.
Definition restart_spec : JobSpec :=
  mkJobSpec "20260102-120000-abcdef-1" run_id "Work" 1 StepReboot false None None None None None
    (Some (mkRebootStep true DefaultRebootWait)).

Definition node_trace : list action := (run_trace (lab None) start_time node_prog).1.
Lemma node_done : (run_trace (lab None) start_time node_prog).2 = Some nodeDone.
Proof. vm_compute. reflexivity. Qed.
Lemma node_at k a : node_trace !! k = Some a -> exec node_prog (take k node_trace ++ a :: drop (S k) node_trace) (Some nodeDone).
Proof. unfold node_trace. apply run_trace_at, node_done. Qed.
Definition before (k : nat) : list action := take k node_trace.
Definition past (k : nat) : list action := drop (S k) node_trace.

(** The restart of step 2 is posted last: its record is the one before it. *)
Lemma runNode_posts_recorded_witness :
  exec node_prog (before 40 ++ act (StartJob "n1" restart_spec "admin") (Ok (view_of (js_ID restart_spec) JobRunning)) :: past 40)
    (Some nodeDone) /\
  exists rec i s, vw_rec (seen_by env "n1" (before 40)) = Some rec /\ rn_Steps rec !! i = Some s /\
    rs_Status s = RunStepStarting /\ js_ID restart_spec = jobID run_id i /\
    forall j t, (j < i)%nat -> rn_Steps rec !! j = Some t -> passed env j t = true.
Proof.
  set (a := act (StartJob "n1" restart_spec "admin") (Ok (view_of (js_ID restart_spec) JobRunning))).
  assert (Ek : node_trace !! 40%nat = Some a) by (vm_compute; reflexivity).
  assert (He : exec node_prog (before 40 ++ a :: past 40) (Some nodeDone)) by exact (node_at _ _ Ek).
  assert (HR : Forall (relied env "n1") (before 40 ++ a :: past 40)).
  { unfold before, past. rewrite take_drop_middle by exact Ek. unfold node_trace. apply lab_relied. }
  split; [exact He|].
  destruct (runNode_posts_recorded no_texts (fun _ => None) (fun _ => None) env "n1" _ _ _ _ _ _ _ He HR)
    as (_ & _ & rec & i & s & H1 & _ & H2 & H3 & H4 & _ & H5 & _).
  exists rec, i, s. split_and!; [exact H1|exact H2|exact H3|exact H5|exact H4].
Defined.

Definition both (status0 status1 : string) (rec : RunNodeRecord) : Prop := map rs_Status (rn_Steps rec) = [status0; status1].

Lemma runNode_starts_judged_witness :
  exists rec rec' s t,
    exec node_prog (before 38 ++ act (PutRunNodeRec "n1" rec') true :: past 38) (Some nodeDone) /\
    vw_rec (seen_by env "n1" (before 38)) = Some rec /\
    rn_Steps rec !! 1%nat = Some t /\ rs_Status t = RunStepPending /\
    rn_Steps rec' !! 1%nat = Some s /\ rs_Status s = RunStepStarting /\
    quorum_without (vw_health (seen_by env "n1" (before 38))) (vw_nodes (seen_by env "n1" (before 38))) "n1" = true.
Proof.
  destruct (node_trace !! 38%nat) as [a|] eqn:Ek; [|vm_compute in Ek; discriminate].
  destruct (vw_rec (seen_by env "n1" (before 38))) as [rec|] eqn:Er; [|vm_compute in Er; discriminate].
  assert (Ha : exists rec', a = act (PutRunNodeRec "n1" rec') true /\ exists s, rn_Steps rec' !! 1%nat = Some s /\ rs_Status s = RunStepStarting).
  { vm_compute in Ek. injection Ek as <-. eexists. split; [reflexivity|]. eexists. split; reflexivity. }
  assert (Ht : exists t, rn_Steps rec !! 1%nat = Some t /\ rs_Status t = RunStepPending).
  { vm_compute in Er. injection Er as <-. eexists. split; reflexivity. }
  destruct Ha as (rec' & -> & s & Hs & Hss). destruct Ht as (t & Ht & Hts).
  assert (He : exec node_prog (before 38 ++ act (PutRunNodeRec "n1" rec') true :: past 38) (Some nodeDone))
    by exact (node_at _ _ Ek).
  assert (HR : Forall (relied env "n1") (before 38 ++ act (PutRunNodeRec "n1" rec') true :: past 38)).
  { unfold before, past. rewrite take_drop_middle by exact Ek. unfold node_trace. apply lab_relied. }
  assert (Hne : rs_Status t <> RunStepStarting) by (rewrite Hts; discriminate).
  destruct (runNode_starts_judged no_texts (fun _ => None) (fun _ => None) env "n1" _ _ _ _ _ _ _ _ _ _ He HR Hs Hss Er Ht Hne)
    as (_ & _ & Hq).
  exists rec, rec', s, t. split_and!; try assumption; [reflexivity|].
  apply (Hq (node "n1" "lead" KindManager)); reflexivity.
Defined.

Lemma runNode_writes_move_witness :
  exists rec rec',
    exec node_prog (before 54 ++ act (PutRunNodeRec "n1" rec') true :: past 54) (Some nodeDone) /\
    vw_rec (seen_by env "n1" (before 54)) = Some rec /\
    both RunStepSucceeded RunStepRunning rec /\ both RunStepSucceeded RunStepSucceeded rec' /\ rec_ok env "n1" rec'.
Proof.
  destruct (node_trace !! 54%nat) as [a|] eqn:Ek; [|vm_compute in Ek; discriminate].
  destruct (vw_rec (seen_by env "n1" (before 54))) as [rec|] eqn:Er; [|vm_compute in Er; discriminate].
  assert (Ha : exists rec', a = act (PutRunNodeRec "n1" rec') true /\ both RunStepSucceeded RunStepSucceeded rec').
  { vm_compute in Ek. injection Ek as <-. eexists. split; reflexivity. }
  assert (Hb : both RunStepSucceeded RunStepRunning rec) by (vm_compute in Er; injection Er as <-; reflexivity).
  destruct Ha as (rec' & -> & Hb').
  assert (He : exec node_prog (before 54 ++ act (PutRunNodeRec "n1" rec') true :: past 54) (Some nodeDone))
    by exact (node_at _ _ Ek).
  assert (HR : Forall (relied env "n1") (before 54 ++ act (PutRunNodeRec "n1" rec') true :: past 54)).
  { unfold before, past. rewrite take_drop_middle by exact Ek. unfold node_trace. apply lab_relied. }
  destruct (runNode_writes_move no_texts (fun _ => None) (fun _ => None) env "n1" _ _ _ _ _ _ He HR) as (_ & Hok & _).
  exists rec, rec'. split_and!; [exact He|reflexivity|exact Hb|exact Hb'|exact Hok].
Defined.

(** The run is stopped by force while its command runs. *)
Definition stopped_trace : list action := (run_trace (lab (Some (61 * Second))) start_time node_prog).1.

Lemma node_stopped : (run_trace (lab (Some (61 * Second))) start_time node_prog).2 = Some nodeStopped.
Proof. vm_compute. reflexivity. Qed.
Lemma stopped_at k a : stopped_trace !! k = Some a ->
  exec node_prog (take k stopped_trace ++ a :: drop (S k) stopped_trace) (Some nodeStopped).
Proof. unfold stopped_trace. apply run_trace_at, node_stopped. Qed.

Lemma runNode_cancels_forced_witness :
  exec node_prog (take 24 stopped_trace ++ act (CancelJob "n1" (js_ID sync_spec) "admin") true :: drop (S 24) stopped_trace)
    (Some nodeStopped) /\
  exists h, vw_cached (seen_by env "n1" (take 24 stopped_trace)) = Some h /\ rr_Status h = RunStopping /\ rr_Force h = true.
Proof.
  set (a := act (CancelJob "n1" (js_ID sync_spec) "admin") true).
  assert (Ek : stopped_trace !! 24%nat = Some a) by (vm_compute; reflexivity).
  assert (He : exec node_prog (take 24 stopped_trace ++ a :: drop (S 24) stopped_trace) (Some nodeStopped))
    by exact (stopped_at 24 a Ek).
  assert (HR : Forall (relied env "n1") (take 24 stopped_trace ++ a :: drop (S 24) stopped_trace)).
  { rewrite take_drop_middle by exact Ek. unfold stopped_trace. apply lab_relied. }
  split; [exact He|].
  destruct (runNode_cancels_forced no_texts (fun _ => None) (fun _ => None) env "n1" _ _ _ _ _ _ _ He HR)
    as (_ & rec & i & s & h & _ & _ & _ & _ & _ & H1 & H2 & H3).
  exists h. split_and!; assumption.
Defined.

Lemma runNode_outcome_recorded_witness :
  exec node_prog node_trace (Some nodeDone) /\
  exists rec, vw_rec (seen_by env "n1" node_trace) = Some rec /\ rn_Status rec = RunNodeSucceeded.
Proof.
  assert (He : exec node_prog node_trace (Some nodeDone)).
  { rewrite <- node_done. exact (run_trace_exec (lab None) start_time node_prog). }
  split; [exact He|].
  destruct (runNode_outcome_recorded no_texts (fun _ => None) (fun _ => None) env "n1" _ _ He (lab_relied None start_time node_prog))
    as [E|(rec & H1 & H2 & _)]; [discriminate|]. exists rec. split; assumption.
Defined.

Definition wave_trace : list action := (run_trace (lab None) start_time wave_prog).1.

Lemma wave_ended : (run_trace (lab None) start_time wave_prog).2 = Some RunEnded.
Proof. vm_compute. reflexivity. Qed.
Lemma wave_at k a : wave_trace !! k = Some a -> exec wave_prog (take k wave_trace ++ a :: drop (S k) wave_trace) (Some RunEnded).
Proof. unfold wave_trace. apply run_trace_at, wave_ended. Qed.

Lemma run_waves_in_order_witness :
  exec wave_prog (take 88 wave_trace ++ act (StartJob "n1" restart_spec "admin") (Ok (view_of (js_ID restart_spec) JobRunning))
    :: drop (S 88) wave_trace) (Some RunEnded) /\
  (stopping_seen (take 88 wave_trace) \/ wave_open env [["n1"]] (take 88 wave_trace) "n1").
Proof.
  set (a := act (StartJob "n1" restart_spec "admin") (Ok (view_of (js_ID restart_spec) JobRunning))).
  assert (Ek : wave_trace !! 88%nat = Some a) by (vm_compute; reflexivity).
  assert (He : exec wave_prog (take 88 wave_trace ++ a :: drop (S 88) wave_trace) (Some RunEnded)) by exact (wave_at 88 a Ek).
  assert (HR : Forall (relied_all env) (take 88 wave_trace ++ a :: drop (S 88) wave_trace)).
  { rewrite take_drop_middle by exact Ek. unfold wave_trace. apply lab_relied_all. }
  split; [exact He|]. exact (run_waves_in_order no_texts (fun _ => None) (fun _ => None) env [["n1"]] _ _ _ _ _ _ _ He HR).
Defined.

(** The run's head, written succeeded at its end. *)
Definition done_head : RunRecord := set_head (run RunRunning false) RunSucceeded "" (64 * Second).
Lemma run_succeeds_whole_witness :
  exec wave_prog (take 134 wave_trace ++ act (PutRunHead done_head) true :: drop (S 134) wave_trace) (Some RunEnded) /\
  (succeeded_seen (take 134 wave_trace) \/ ended_well [["n1"]] (take 134 wave_trace)).
Proof.
  set (a := act (PutRunHead done_head) true).
  assert (Ek : wave_trace !! 134%nat = Some a) by (vm_compute; reflexivity).
  assert (He : exec wave_prog (take 134 wave_trace ++ a :: drop (S 134) wave_trace) (Some RunEnded)) by exact (wave_at 134 a Ek).
  assert (HR : Forall (relied_all env) (take 134 wave_trace ++ a :: drop (S 134) wave_trace)).
  { rewrite take_drop_middle by exact Ek. unfold wave_trace. apply lab_relied_all. }
  split; [exact He|].
  exact (run_succeeds_whole no_texts (fun _ => None) (fun _ => None) env [["n1"]] _ _ _ _ _ He HR eq_refl).
Defined.

(** ** A rerun *)

(** The run failed at its restart: run again, it starts there. *)
Definition failed_before : RunNodeRecord :=
  set_steps zero_rec [mkRunStepRecord RunStepSucceeded "" "" true 1 2; mkRunStepRecord RunStepFailed "" "" false 3 4].
Definition source_nodes : gmap string RunNodeRecord := {[ "n1" := failed_before ]}.
Definition again : RunRecord := (rerunFrom (run RunFailed false) source_nodes ["n1"]).1.
Definition again_run : RunRecord :=
  mkRunRecord "20260103-120000-abcdef" "" "t1" "Work" "aa" ∅ ["n1"] [["n1"]] [] 1 true RunRunning "" false "" "admin" 10 0
    run_id (rr_StartAt again) 0.
Definition again_env : runner_env :=
  mkRunnerEnv again_run (Some work) {[ "n1" := node "n1" "lead" KindManager ]} "n9" 1000.
Definition again_prog : prog nodeOutcome := runNode no_texts (fun _ => None) (fun _ => None) again_env "n1".
Definition again_trace : list action := (run_trace (lab None) start_time again_prog).1.
Definition again_spec : JobSpec :=
  mkJobSpec "20260103-120000-abcdef-1" "20260103-120000-abcdef" "Work" 1 StepReboot false None None None None None
    (Some (mkRebootStep true DefaultRebootWait)).

Lemma again_rec_ok : rec_ok again_env "n1" zero_rec.
Proof.
  assert (E : filled again_env "n1" zero_rec =
    [mkRunStepRecord RunStepSucceeded "" ("succeeded in run " +:+ run_id) false 0 0;
     mkRunStepRecord RunStepPending "" "" false 0 0]) by reflexivity.
  unfold rec_ok. rewrite E. split.
  - reflexivity.
  - repeat constructor.
  - repeat constructor.
  - change (start_at again_env "n1") with 1%nat. intros [|i] s Hs Hp; [|lia]. simpl in Hs. simplify_eq. by destruct Hp.
  - intros [|[|i]] s Hs Hf; simpl in Hs; simplify_eq; discriminate.
Qed.

Lemma rerun_posts_unsuccessful_witness :
  rr_StartAt (rc_run again_env) !! "n1" = Some 1%nat /\
  exists i, js_Step again_spec = Z.of_nat i /\ (firstUnsuccessful (default zero_rec (source_nodes !! "n1")) <= i)%nat.
Proof.
  split; [vm_compute; reflexivity|].
  set (a := act (StartJob "n1" again_spec "admin") (Ok (view_of (js_ID again_spec) JobRunning))).
  assert (Ek : again_trace !! 16%nat = Some a) by (vm_compute; reflexivity).
  assert (He : exec again_prog (take 16 again_trace ++ a :: drop (S 16) again_trace) (Some nodeDone)).
  { unfold again_trace. apply run_trace_at; [vm_compute; reflexivity|exact Ek]. }
  assert (HR : Forall (relied again_env "n1") (take 16 again_trace ++ a :: drop (S 16) again_trace)).
  { rewrite take_drop_middle by exact Ek. apply run_trace_relied. intros t []; try exact I. intros ->. apply again_rec_ok. }
  refine (rerun_posts_unsuccessful no_texts (fun _ => None) (fun _ => None) again_env (run RunFailed false) source_nodes
    ["n1"] "n1" _ _ _ _ _ _ _ eq_refl _ He HR).
  apply (bool_decide_unpack _). vm_compute. reflexivity.
Defined.

Lemma rerunFrom_spec_witness :
  rr_Nodes again = ["n1"] /\
  exists k, rr_StartAt again !! "n1" = Some k /\
    let steps := rn_Steps (default zero_rec (source_nodes !! "n1")) in
    (k = 0%nat /\ Forall (fun s => rs_Status s = RunStepSucceeded) steps) \/
    exists s, steps !! k = Some s /\ rs_Status s <> RunStepSucceeded /\
      Forall (fun s => rs_Status s = RunStepSucceeded) (take k steps).
Proof.
  assert (E : rr_Nodes again = ["n1"]) by (vm_compute; reflexivity). split; [exact E|].
  destruct (rerunFrom_spec (run RunFailed false) source_nodes ["n1"]) as (_ & _ & _ & _ & _ & _ & _ & H).
  apply (H "n1"). change (rr_Nodes (rerunFrom (run RunFailed false) source_nodes ["n1"]).1) with (rr_Nodes again).
  rewrite E. left.
Defined.

(** ** A wait *)

(** A node that went down for a restart and never answers. *)
Definition silent : world :=
  mkWorld Time (fun now c =>
    (match c return answer c with GetJob _ _ => Err (CallFailed "connection refused") | c => answers None now c end,
     match c with Sleep d => now + Z.max 0 d | _ => now end)).
#[local] Instance silent_clock : Clock silent.
Proof.
  refine (Build_Clock silent (fun s : Time => s) _ _ _).
  - reflexivity.
  - intros s []; simpl; lia.
  - intros s d. simpl. lia.
Defined.

Lemma wait_returns_witness :
  exists jv res s', run_in silent start_time (wait env "n1" restart_spec (view_of (js_ID restart_spec) JobRebooting) start_time)
      = Some ((jv, res), s') /\
    (active (jv_Status jv) = false \/ res <> stepDone).
Proof.
  apply (wait_returns silent env "n1" restart_spec).
  - intros s. exact I.
  - apply Z.le_refl.
  - reflexivity.
Defined.

(** ** The supervisor's theorems at work

    The task store of a manager whose leader just changed: an agent install
    with no session left, and a task run nobody runs yet. *)

Definition run_of_kind (id kind : string) (nodes : list string) : RunRecord :=
  mkRunRecord id kind "t1" "Install" "aa" ∅ nodes [nodes] [] 1 true RunRunning "" false "" "admin" 10 0 "" ∅ 500.
Definition install : RunRecord := run_of_kind "20260102-120000-abcdef" RunKindAgentInstall ["row1"; "row2"].
Definition task_run : RunRecord := run_of_kind "20260102-130000-abcdef" "" ["n1"].

Definition step_of (status : string) : RunStepRecord := mkRunStepRecord status "" "" false 0 0.
Definition row_of (status ip : string) (steps : list string) : RunNodeRecord :=
  mkRunNodeRecord status "" ∅ (map step_of steps) "" ip "" "" "" false "password" "" "" "".
Definition row1 : RunNodeRecord := row_of RunNodeRunning "10.0.0.9" [RunStepSucceeded; RunStepSucceeded; RunStepRunning].
Definition row2 : RunNodeRecord := row_of RunNodePending "10.0.0.8" [RunStepPending; RunStepPending; RunStepPending].

(** The agent the first row's install had registered. *)
Definition registered : Node :=
  mkNode "a9" "edge" "" "10.0.0.9:9443" None RoleVoter KindAgent StatusOnline None 50 60.
Definition host_of (addr : string) : option string := Some (cutByte addr ":").1.1.
Definition some_ip (s : string) : option string := Some s.

Definition env_with (caughtUp : bool) : look_env (E := raft_env) :=
  mkLookEnv (mkRaftEnv (fun _ => RaftOk 7) 100) true caughtUp false None 100 [registered] "n1".
Definition look : look_env (E := raft_env) := env_with true.

Definition row1_left : RunNodeRecord := end_left_row host_of some_ip look row1.
Definition row2_left : RunNodeRecord := end_left_row host_of some_ip look row2.
Definition install_left : RunRecord := left_head install 100.

Definition set_command (key value : string) : Command := mkCommand CmdSetConfig key value.
Definition commands : list (string * Command) :=
  [ ("row1", set_command (runNodeKey (rr_ID install) "row1") "{row1 left}");
    ("row2", set_command (runNodeKey (rr_ID install) "row2") "{row2 left}");
    ("run", set_command (runKey (rr_ID install)) "{install left}") ].

#[local] Instance command_codec : Codec Command := table_codec commands.
#[local] Instance node_codec : Codec Node := table_codec [].
#[local] Instance string_codec : Codec string := {| json_marshal s := Some s; json_unmarshal s := Some s |}.
#[local] Instance account_codec : Codec AdminAccount := table_codec [].
#[local] Instance codes_codec : Codec (list string) := table_codec [].
#[local] Instance task_codec : Codec StoredTask := table_codec [].
#[local] Instance run_codec : Codec RunRecord :=
  table_codec [("{install}", install); ("{install left}", install_left); ("{task}", task_run)].
#[local] Instance rec_codec : Codec RunNodeRecord :=
  table_codec [("{row1}", row1); ("{row2}", row2); ("{row1 left}", row1_left); ("{row2 left}", row2_left)].

#[local] Instance store_json : StoreJSON.
Proof.
  unshelve econstructor; [exact (fun _ => True)..| | | | | | | | |].
  - intros s. by exists s.
  - by intros s t _ [= ->].
  - intros c d _. apply table_reads_back. by apply (bool_decide_unpack _).
  - intros t d _. apply table_reads_back. by apply (bool_decide_unpack _).
  - intros t d _. apply table_reads_back. by apply (bool_decide_unpack _).
  - intros t d _. apply table_reads_back. by apply (bool_decide_unpack _).
  - done.
  - done.
  - done.
Defined.

Definition store_fsm : FSM :=
  with_state NewFSM (mkClusterState "lab" ∅
    (list_to_map [ (runKey (rr_ID install), "{install}"); (runKey (rr_ID task_run), "{task}");
                   (runNodeKey (rr_ID install) "row1", "{row1}"); (runNodeKey (rr_ID install) "row2", "{row2}") ]) ∅ ∅).
Definition panel : handler (S := Manager) := mkHandler (mkManager (Some store_fsm) true ∅) ∅ [] [].
Definition looked (caughtUp : bool) : handler := superviseOnce host_of some_ip (env_with caughtUp) panel.
Definition ended : handler := (endLeftInstall host_of some_ip look panel (rr_ID install)).1.

Lemma endLeftInstall_ends_witness :
  endLeftInstall host_of some_ip look panel (rr_ID install) = (ended, None) /\
  rn_NodeID row1_left = "a9" /\
  (forall id2 c, id2 <> rr_ID install -> st_get (hd_store panel) id2 = Ok c -> rr_ID c.1 = id2 -> Active c.1 = true ->
     st_get (hd_store ended) id2 = Ok c) /\
  hd_audit ended = hd_audit panel ++ [auditEnd "n1" install_left].
Proof.
  assert (E : endLeftInstall host_of some_ip look panel (rr_ID install) = (ended, None)).
  { unfold ended. destruct (endLeftInstall _ _ _ _ _) as [h' o] eqn:Eq. simpl. f_equal.
    change o with (h', o).2. rewrite <-Eq. vm_compute. reflexivity. }
  assert (Eg : st_get (hd_store panel) (rr_ID install) = Ok (install, {["row1" := row1; "row2" := row2]}))
    by (vm_compute; reflexivity).
  split; [exact E|]. split; [vm_compute; reflexivity|].
  destruct (endLeftInstall_ends host_of some_ip look panel (rr_ID install) install _ ended None Eg) as [H1 [H2 _]];
    [reflexivity|reflexivity|reflexivity|exact I|intros; exact I|exact E|]. split; [exact H1|exact H2].
Defined.

Lemma superviseOnce_runners_witness :
  hd_started (looked true) = [task_run] /\
  (NoDup (map rr_ID (hd_started (looked true))) /\ run_covered look (looked true) task_run \/
   not_resumed look (rr_ID task_run)) /\
  hd_store (looked false) = hd_store panel.
Proof.
  split; [vm_compute; reflexivity|]. split.
  - assert (El : st_list (hd_store panel) = Ok [task_run; install]) by (vm_compute; reflexivity).
    destruct (superviseOnce_runners host_of some_ip look panel (looked true) eq_refl eq_refl) as (_ & Hn & _ & Hc).
    destruct (Hc eq_refl eq_refl _ El task_run (list_elem_of_here _ _) eq_refl) as [H|[_ H]]; [discriminate| |right; exact H].
    left. split; [exact Hn|exact H].
  - destruct (superviseOnce_runners host_of some_ip (env_with false) panel (looked false) eq_refl eq_refl) as (H & _). exact H.
Defined.
