(* ===== verification/StepWitness.v ===== *)
(** * The theorems on file, packages and stack steps at work

    A disk with one file, whose write is cut off; a tree with links into and
    out of what is protected; a packages step whose panel is killed twice. *)

From S2P Require Import Prelude GoStrings PathFacts ComposeSafety ComposeSafetyFacts GoRegexp GoTime TaskModel.
From S2P Require Import Interact World FileCall ComposeCall ComposeManager ComposeManagerFacts ComposePlaces FileGuard.
From S2P Require Import JobProg JobOutput JobNode JobRunners JobFile JobStack JobPackages JobPackagesFacts.
From S2P Require Import Disk FileGuardFacts JobFileFacts JobStackFacts JobWitness.

Definition quiet_text : message -> string := fun _ => "".
Definition as_is (s : string) : string := s.

(** ** A disk *)

Definition nobody (_ : string) : option Z := None.
Definition gone : fs_error := mkFsError ErrNotExist "no such file or directory".

Definition changed_at (p : string) (g : file -> file) (d : disk) : option fs_error * disk :=
  match dk_names d !! p with
  | Some i => if decide (is_Some (dk_files d !! i)) then (None, change i g d) else (Some gone, d)
  | None => (Some gone, d)
  end.

Definition disk_ans (d : disk) (c : fcall) : fanswer c * disk :=
  match c return fanswer c * disk with
  | Stat p =>
      (match file_at d p, dk_names d !! p with
       | Some f, _ => Ok (mkFileInfo (f_regular f) (f_perm f) (Z.of_nat (String.length (f_data f))) (Some (f_uid f, f_gid f)) (negb (f_regular f)))
       | None, Some _ => Err (mkFsError ErrOther "input/output error")
       | None, None => Err gone
       end, d)
  | ReadFileAll p => (match file_at d p with Some f => Ok (f_data f) | None => Err gone end, d)
  | CreateTemp dir pattern =>
      let tmp := temp_name dir pattern "1" in
      let i := 7%nat in
      if decide (indexByte pattern "/" = None /\ dk_names d !! tmp = None /\ dk_files d !! i = None /\ i ∉ dk_synced d /\
                 Forall (map_Forall (fun _ j => j <> i)) (dk_names d :: dk_older d))
      then (Ok tmp, mkDisk (<[tmp := i]> (dk_names d)) (dk_names d :: dk_older d)
                      (<[i := mkFile "" 384 0 0 true]> (dk_files d)) (dk_synced d))
      else (Err gone, d)
  | TmpWrite tmp content => changed_at tmp (appended content) d
  | TmpChmod tmp mode => changed_at tmp (with_perm mode) d
  | TmpChown tmp uid gid => changed_at tmp (owned uid gid) d
  | TmpSync tmp =>
      match dk_names d !! tmp with
      | Some i => (None, mkDisk (dk_names d) (dk_older d) (dk_files d) ({[i]} ∪ dk_synced d))
      | None => (Some gone, d)
      end
  | Rename from to =>
      match dk_names d !! from with
      | Some i => (None, with_names (<[to := i]> (delete from (dk_names d))) d)
      | None => (Some gone, d)
      end
  | Remove p => (None, with_names (delete p (dk_names d)) d)
  | ChmodPath p mode => changed_at p (with_perm mode) d
  | ChownPath p uid gid => changed_at p (owned uid gid) d
  | SyncDir dir => (None, mkDisk (dk_names d) (map (flush_dir dir (dk_names d)) (dk_older d)) (dk_files d) (dk_synced d))
  | LookupUser n | LookupGroup n => (None, d)
  | Lstat p => (Ok false, d)
  | Readlink _ => (Err gone, d)
  | EvalSymlinks p => (Ok p, d)
  | MkdirAll _ _ | TmpClose _ => (None, d)
  end.

Lemma changed_at_changes p g d : changes p g d (changed_at p g d).1 (changed_at p g d).2.
Proof.
  unfold changed_at. destruct (dk_names d !! p) as [i|] eqn:E; [|done]. destruct (decide _); [|done]. by exists i.
Qed.

Lemma disk_ans_step d c : disk_step 0 0 nobody nobody d c (disk_ans d c).1 (disk_ans d c).2.
Proof.
  destruct c; simpl; try apply changed_at_changes; try done.
  - split; [done|]. unfold file_at. destruct (dk_names d !! p) as [i|] eqn:E; simpl; [|by split].
    destruct (dk_files d !! i) as [f|] eqn:Ef; [by eexists f, _|by split].
  - split; [done|]. by destruct (file_at d p) as [f|] eqn:E; [exists f|].
  - destruct (decide _) as [(H1 & H2 & H3 & H4 & H5)|]; [|done]. exists "1", 7%nat. split_and!; try done.
    eapply Forall_impl; [exact H5|]. intros m Hm q Hq. by apply (Hm q 7%nat).
  - pose proof (changed_at_changes tmp (appended content) d) as H.
    destruct (changed_at tmp (appended content) d) as [[e|] d']; simpl in *; [by left|done].
  - destruct (dk_names d !! tmp) as [i|] eqn:E; [by exists i|done].
  - destruct (dk_names d !! from) as [i|] eqn:E; [by exists i|done].
Qed.

Definition motd_disk : disk :=
  mkDisk {["/srv/motd" := 1%nat]} [{["/srv/motd" := 1%nat]}] {[1%nat := mkFile "old" 384 5 6 true]} {[1%nat]}.
Lemma motd_flushed : flushed motd_disk "/srv/motd".
Proof.
  split; [by vm_compute; repeat constructor|]. intros i Hi. assert (i = 1%nat) as -> by (vm_compute in Hi; congruence).
  split; [apply (bool_decide_unpack _); by vm_compute|]. by eexists.
Qed.

Definition motd_write (n : nat) : option (option fs_error) * disk :=
  play disk_ans n (writeAtomic "/srv/motd" "new" 416 5 (-1)) motd_disk.

(** Power that fails after the rename, and before. *)
Lemma writeAtomic_old_or_new_witness :
  file_at (motd_write 3).2 "/srv/motd" = Some (mkFile "old" 384 5 6 true) /\
  file_at (motd_write 7).2 "/srv/motd" = Some (mkFile "new" 416 5 0 true) /\
  let nf := new_file 0 0 "new" 416 5 (-1) in
  forall n, old_or "/srv/motd" motd_disk nf (motd_write n).2 /\
    ((motd_write n).1 = Some None -> file_at (motd_write n).2 "/srv/motd" = Some nf) /\
    (forall e, (motd_write n).1 = Some (Some e) ->
       file_at (motd_write n).2 "/srv/motd" = file_at motd_disk "/srv/motd").
Proof.
  split; [vm_compute; reflexivity|]. split; [vm_compute; reflexivity|]. cbv zeta. intros n.
  apply (writeAtomic_old_or_new 0 0 nobody nobody "/srv/motd" "new" 416 5 (-1)); [reflexivity|exact motd_flushed|].
  apply (play_runs _ _ (fun _ => True)); [|exact I]. intros w c _. split; [apply disk_ans_step|exact I].
Defined.

Definition motd_step : FileStep := mkFileStep "/srv/motd" "new" "" "5".
Definition motd_done : option Result * disk := play disk_ans 100 (writeFileStep quiet_text as_is motd_step) motd_disk.

Lemma writeFileStep_does_witness :
  motd_done.1 = Some (mkResult JobSucceeded true None "written") /\
  file_at motd_done.2 "/srv/motd" = Some (mkFile "new" 384 5 6 true) /\
  step_did 0 0 nobody nobody motd_step "/srv/motd" motd_disk motd_done.2 (mkResult JobSucceeded true None "written") /\
  apart "/srv/motd" motd_disk motd_done.2.
Proof.
  assert (H : motd_done.1 = Some (mkResult JobSucceeded true None "written")) by (vm_compute; reflexivity).
  split; [exact H|]. split; [vm_compute; reflexivity|].
  apply (writeFileStep_does 0 0 nobody nobody quiet_text as_is motd_step motd_disk); [exact motd_flushed|].
  rewrite <-H. apply (play_runs _ _ (fun _ => True)); [|exact I]. intros w c _. split; [apply disk_ans_step|exact I].
Defined.

(** ** Links *)

(** [/tmp/s] leads to [/srv], [/tmp/l] to what is protected. *)
Definition linked : tree :=
  {[["srv"] := NDir; ["tmp"] := NDir; ["tmp"; "s"] := NLink "/srv"; ["etc"] := NDir;
    ["etc"; "sudoers.d"] := NDir; ["tmp"; "l"] := NLink "/etc/sudoers.d"]}.

Definition links_ans (w : links) (c : fcall) : fanswer c * links :=
  match c return fanswer c * links with
  | Lstat p =>
      (match linked !! place p with
       | Some nd => Ok (match nd with NLink _ => true | _ => false end)
       | None => Err gone
       end, w)
  | Readlink p => (match linked !! place p with Some (NLink target) => Ok target | _ => Err gone end, w)
  | EvalSymlinks _ | Stat _ | ReadFileAll _ => (Err gone, w)
  | CreateTemp dir pattern =>
      if dir ==s "/tmp/s" then (Ok "/tmp/s/.x.sfpanel-1", hit (["srv"] ++ [trimSuffix pattern "*" +:+ "1"]) w) else (Err gone, w)
  | Rename _ to => if to ==s "/tmp/s/x" then (None, hit ["srv"; "x"] w) else (Some gone, w)
  | ChmodPath _ _ | ChownPath _ _ _ => (Some gone, w)
  | LookupUser _ | LookupGroup _ => (None, w)
  | MkdirAll p _ =>
      (None, if p ==s "/tmp/s/d" then mkLinks (lk_tree w) (lk_hits w) (["srv"; "d"] :: lk_made w)
             else if p ==s "/etc/gshadow" then mkLinks (lk_tree w) (lk_hits w) (["etc"; "gshadow"] :: lk_made w)
             else w)
  | TmpWrite _ _ | TmpChmod _ _ | TmpChown _ _ _ | TmpSync _ | TmpClose _ | Remove _ | SyncDir _ => (None, w)
  end.

Lemma linked_plain : no_planted linked.
Proof.
  set (ok kv := match kv.2 with NLink _ => bool_decide (kv.1 = ["tmp"; "s"] \/ kv.1 = ["tmp"; "l"]) | _ => true end).
  assert (H : forallb ok (map_to_list linked) = true) by (by vm_compute).
  rewrite forallb_forall in H. intros l target Hl Hp.
  assert (Hin : (l, NLink target) ∈ map_to_list linked) by (by apply elem_of_map_to_list).
  apply list_elem_of_In, H, bool_decide_eq_true in Hin. simpl in Hin. clear H. rename Hin into H.
  assert (Hd : exists a b r, l = a :: b :: r /\ a = "tmp") by (destruct H as [->| ->]; by do 3 eexists).
  destruct Hd as (a & b & r & -> & ->). destruct Hp as [(d & Hd & [k Hk])|Hp].
  - repeat (apply elem_of_cons in Hd as [->|Hd]; [by simplify_eq|]). by apply elem_of_nil in Hd.
  - repeat (apply elem_of_cons in Hp as [Hp|Hp]; [by simplify_eq|]). by apply elem_of_nil in Hp.
Qed.

Lemma tmp_s_opens : opens_dir linked "/tmp/s" ["srv"].
Proof.
  assert (Hplain : forall e, bool_decide (e <> "" /\ e <> "." /\ e <> ".." /\ indexByte e slash = None) = true -> plain_elem e).
  { intros e H. by apply bool_decide_eq_true in H. }
  split; [|right; by vm_compute]. unfold opens. change (elems "/tmp/s") with [""; "tmp"; "s"].
  apply follow_skip; [by left|]. apply follow_dir; [by apply Hplain|by vm_compute|].
  apply (follow_link _ 39 _ _ "/srv"); [by apply Hplain|by vm_compute|]. change (elems "/srv" ++ []) with [""; "srv"].
  apply follow_skip; [by left|]. apply follow_dir; [by apply Hplain|by vm_compute|]. constructor.
Qed.

Lemma etc_opens : opens_dir linked "/etc" ["etc"].
Proof.
  split; [|right; by vm_compute]. unfold opens. change (elems "/etc") with [""; "etc"].
  apply follow_skip; [by left|]. apply follow_dir; [|by vm_compute|constructor].
  apply (bool_decide_eq_true_1 ("etc" <> "" /\ "etc" <> "." /\ "etc" <> ".." /\ indexByte "etc" slash = None)). by vm_compute.
Qed.

Lemma links_ans_step w c : lk_tree w = linked ->
  links_step w c (links_ans w c).1 (links_ans w c).2 /\ lk_tree (links_ans w c).2 = linked.
Proof.
  intros E. destruct c; simpl; try (by split).
  - split; [|done]. split; [done|]. intros cur e -> Hp _. rewrite E, place_spell by done.
    destruct (linked !! (cur ++ [e])) as [nd|]; [by exists nd|done].
  - split; [|done]. split; [done|]. intros cur e -> Hp _ target. rewrite E, place_spell by done.
    destruct (linked !! (cur ++ [e])) as [[]|]; by intros [= ->].
  - destruct (p ==s "/tmp/s/d") eqn:Ed; [|destruct (p ==s "/etc/gshadow") eqn:Eg].
    + apply String.eqb_eq in Ed as ->. split; [|done]. split_and!; [done|rewrite E; apply linked_plain|].
      exists [["srv"; "d"]]. rewrite E. split; [done|]. apply Forall_singleton. exists ["tmp"; "s"], "d", [], [], ["srv"].
      split_and!; [by vm_compute|apply tmp_s_opens|by vm_compute|done].
    + apply String.eqb_eq in Eg as ->. split; [|done]. split_and!; [done|rewrite E; apply linked_plain|].
      exists [["etc"; "gshadow"]]. rewrite E. split; [done|]. apply Forall_singleton. exists ["etc"], "gshadow", [], [], ["etc"].
      split_and!; [by vm_compute|apply etc_opens|by vm_compute|done].
    + split; [|done]. split_and!; [done|rewrite E; apply linked_plain|by exists []].
  - destruct (dir ==s "/tmp/s") eqn:Ed; [|by split]. apply String.eqb_eq in Ed as ->. split; [|done].
    exists ["srv"], "1". rewrite E. split; [apply tmp_s_opens|done].
  - destruct (to ==s "/tmp/s/x") eqn:Et; [|by split]. apply String.eqb_eq in Et as ->. split; [|done].
    exists ["srv"; "x"]. rewrite E. split; [|done]. exists ["srv"]. split; [apply tmp_s_opens|by vm_compute].
Qed.

Definition link_write (p : string) : option Result * links :=
  play links_ans 100 (writeFileStep quiet_text as_is (mkFileStep p "x" "" "")) (mkLinks linked [] []).

(** The step through one link writes, or makes a directory; through the other
    it is refused.  Below a protected file that is not there it makes a
    directory in its place. *)
Lemma writeFileStep_guarded_witness :
  lk_hits (link_write "/tmp/s/x").2 = [["srv"; "x"]; ["srv"; ".x.sfpanel-1"]] /\
  lk_made (link_write "/tmp/s/d/x").2 = [["srv"; "d"]] /\
  (link_write "/tmp/l/x").2 = mkLinks linked [] [] /\
  lk_made (link_write "/etc/gshadow/x").2 = [["etc"; "gshadow"]] /\
  forall p, Forall (fun l => ~ protected l) (lk_hits (link_write p).2) /\
            Forall (fun l => ~ below_protected l) (lk_made (link_write p).2).
Proof.
  split; [vm_compute; reflexivity|]. split; [vm_compute; reflexivity|]. split; [vm_compute; reflexivity|].
  split; [vm_compute; reflexivity|]. intros p.
  apply (writeFileStep_guarded quiet_text as_is (mkFileStep p "x" "" "") linked (link_write p).1); [exact linked_plain|].
  apply (play_runs _ _ (fun w => lk_tree w = linked)); [exact links_ans_step|reflexivity].
Defined.

(** ** A packages step *)

(** A transaction is done by the time it is asked about. *)
Definition tx_end (t : ptx) : ptx :=
  if pt_running t then mkPtx (pt_id t) (pt_phase t) (pt_log t +:+ "done" +:+ String newline "") false "success" else t.
Definition find_tx (id : string) (txs : list ptx) : option ptx := List.find (fun t => pt_id t ==s id) txs.

Definition apt_spec : JobSpec :=
  mkJobSpec "20260102-120000-abcdef-0" "20260102-120000-abcdef" "Work" 0 StepPackages false
    (Some (mkPackagesStep true false None (Some ["nginx"]) None)) None None None None None.
Definition apt_log : string := job_log "/var/log" apt_spec.
Notation apt_step := (pkg_step "/var/log" apt_spec as_is).

Definition next_id (w : pkgs) : string := "20260102-120000-000" +:+ itoa (Z.of_nat (length (pw_txs w))).
Definition apt_ans (w : pkgs) (c : jcall) : janswer c * pkgs :=
  match c return janswer c * pkgs with
  | PkgStart kind names =>
      if matchString tx_id (next_id w) && negb (bool_decide (next_id w ∈ map pt_id (pw_txs w)))
      then (Ok (next_id w), with_txs (pw_txs w ++ [mkPtx (next_id w) (mkPkgPhase kind names) "" true ""]) w)
      else (Err (TxRefused "BUSY" ""), w)
  | PkgStatus id =>
      let w' := with_txs (map tx_end (pw_txs w)) w in
      match find_tx id (pw_txs w') with
      | Some t => (Ok (mkTxStatus (pt_running t) (pt_result t) 0 id), w')
      | None => (Err "gone", w')
      end
  | ReadFrom path offset => ((fun t => sdrop (Z.to_nat offset) (pt_log t)) <$> find_tx path (pw_txs w), w)
  | OpenAppend _ => (true, w)
  | CopyTo path data =>
      (Z.of_nat (String.length data), if path ==s apt_log then with_log (pw_log w +:+ data) w else w)
  | AppendFile path text => (tt, if path ==s apt_log then with_log (pw_log w +:+ text) w else w)
  | ReadFile _ => (Ok (Some (pw_log w)), w)
  | DbSetUnit id unit_ => (None, if id ==s js_ID apt_spec then mkPkgs (pw_log w) unit_ (pw_txs w) (pw_end w) else w)
  | DbFinish id res _ =>
      (None, if (id ==s js_ID apt_spec) && negb (bool_decide (is_Some (pw_end w)))
             then mkPkgs (pw_log w) (pw_unit w) (pw_txs w) (Some res) else w)
  | StartLock | StartUnlock | JSleep _ | Launch _ _ | TakeCancel _ | CallCancel _ | KillChild => (tt, w)
  | DbGet _ | DbActive => (Ok None, w)
  | DbInsert _ | DbDelete _ | CreateLog _ | WriteFile _ _ _ | Chmod _ _ | StartChild _ | RemoveFile _ => (None, w)
  | DbSetRebooting _ _ _ => (Ok true, w)
  | DbWithStatus _ | DbOld _ _ => (Ok [], w)
  | JNow => (100, w)
  | BootID => ("boot", w)
  | Platform => (HostGuard.mkInfo false HostGuard.StackNetplan, w)
  | SystemdActive | CmdExists _ | FileExists _ => (true, w)
  | Cmd _ _ => (("", None), w)
  | ReadTail _ _ => (None, w)
  | WaitChild _ => (ChildDone, w)
  | JobCtxErr | SelectCancel _ => (false, w)
  | Fs c => ((disk_ans motd_disk c).1, w)
  | HasCompose => (true, w)
  | Cm c => (host_compose c, w)
  | PkgChanged _ => (Some 1, w)
  end.

Definition done_line : string := "done" +:+ String newline "".
Definition plain_txs (w : pkgs) : Prop :=
  Forall (fun t => pt_log t = if pt_running t then "" else done_line) (pw_txs w) /\ NoDup (map pt_id (pw_txs w)).

Lemma still_on txs : Forall (fun t => pt_log t = if pt_running t then "" else done_line) txs -> Forall2 goes_on txs txs.
Proof.
  induction 1 as [|t txs Ht _ IH]; constructor; [|done]. split_and!; [done|done|rewrite Ht; by destruct (pt_running t)|].
  destruct (pt_running t) eqn:E; [|done]. split; [|done]. exists "". by rewrite sapp_nil_r.
Qed.
Lemma ends_on txs : Forall (fun t => pt_log t = if pt_running t then "" else done_line) txs -> Forall2 goes_on txs (map tx_end txs).
Proof.
  induction 1 as [|t txs Ht _ IH]; constructor; [|done]. unfold tx_end.
  destruct (pt_running t) eqn:E; (split_and!; [done|done|by rewrite Ht|]); rewrite E; [|done].
  split; [by eexists|]. intros _ _. right. by rewrite Ht.
Qed.
Lemma find_tx_some txs t : NoDup (map pt_id txs) -> t ∈ txs -> find_tx (pt_id t) txs = Some t.
Proof.
  induction txs as [|u txs IH]; simpl; intros Hn Ht; [by apply not_elem_of_nil in Ht|]. apply NoDup_cons in Hn as [Hu Hn].
  destruct (pt_id u ==s pt_id t) eqn:E; apply elem_of_cons in Ht as [->|Ht]; try done.
  - apply String.eqb_eq in E. destruct Hu. rewrite E. by apply (list_elem_of_fmap_2 pt_id).
  - by rewrite String.eqb_refl in E.
  - by apply IH.
Qed.
Lemma find_tx_in id txs t : find_tx id txs = Some t -> t ∈ txs /\ pt_id t = id.
Proof. intros [H1 H2]%find_some. split; [by apply list_elem_of_In|by apply String.eqb_eq]. Qed.
Lemma ended_plain txs : Forall (fun t => pt_log t = if pt_running t then "" else done_line) txs ->
  Forall (fun t => pt_log t = if pt_running t then "" else done_line) (map tx_end txs) /\ map pt_id (map tx_end txs) = map pt_id txs.
Proof.
  induction 1 as [|t txs Ht _ [IH1 IH2]]; [done|]. simpl. rewrite IH2. unfold tx_end.
  destruct (pt_running t) eqn:E; (split; [constructor; [|done]|done]); simpl; by rewrite Ht, ?E.
Qed.

Lemma apt_ans_step w c : plain_txs w -> apt_step w c (apt_ans w c).1 (apt_ans w c).2 /\ plain_txs (apt_ans w c).2.
Proof.
  intros [Hp Hn]. assert (Hsame : with_txs (pw_txs w) w = w) by (by destruct w).
  assert (Hstay : forall x w', (pkg_effect "/var/log" apt_spec as_is w c x w' -> apt_step w c x w')).
  { intros x w' H. exists (pw_txs w). split; [by apply still_on|]. by rewrite Hsame. }
  destruct c; try (by split; [by apply Hstay|]); simpl.
  - split; [by apply Hstay|by case_match].
  - split; [by apply Hstay|by case_match].
  - split; [by apply Hstay|by case_match].
  - destruct (matchString tx_id (next_id w) && _) eqn:E; [|by split; [apply Hstay|]].
    apply andb_true_iff in E as [Hid Hf]. apply negb_true_iff, bool_decide_eq_false in Hf.
    split.
    + apply Hstay. split; [done|]. split; [|done]. intros t Ht Et. apply Hf. rewrite <-Et. by apply (list_elem_of_fmap_2 pt_id).
    + split; simpl; [apply Forall_app; split; [done|by constructor]|]. rewrite map_app. apply NoDup_app.
      split_and!; [done| |apply NoDup_singleton]. intros i Hi Hi'. by apply list_elem_of_singleton in Hi' as ->.
  - destruct (ended_plain _ Hp) as [Hp' Hn'].
    assert (Hpl : plain_txs (with_txs (map tx_end (pw_txs w)) w)) by (split; simpl; [done|by rewrite Hn']).
    destruct (find_tx id _) as [t|] eqn:Et; (split; [|done]); exists (map tx_end (pw_txs w));
      (split; [by apply ends_on|]); (split; [done|]); [|done]. apply find_tx_in in Et as [Ht Eid]. by exists t.
  - split; [|done]. apply Hstay. split; [done|]. intros t Ht ->. unfold as_is. by rewrite find_tx_some.
  - split; [by apply Hstay|by case_match].
Qed.

Definition no_job : pkgs := mkPkgs "" "" [] None.
Definition first_life : pkgs :=
  (play apt_ans 11 (packages_Start as_is 5 (started_job "/var/log" apt_spec "" 100)) no_job).2.
Definition second_life : pkgs :=
  (play apt_ans 100 (packages_Resume quiet_text as_is 5 (started_job "/var/log" apt_spec (pw_unit first_life) 100)) first_life).2.

Lemma apt_runs {A} n (p : jprog A) w : plain_txs w -> runs apt_step w p (play apt_ans n p w).1 (play apt_ans n p w).2.
Proof. apply play_runs. exact apt_ans_step. Qed.
Lemma no_job_plain : plain_txs no_job.
Proof. split; constructor. Qed.
Lemma first_life_plain : plain_txs first_life.
Proof. vm_compute. split; [by repeat constructor|]. apply (bool_decide_unpack _). by vm_compute. Qed.

(** The panel is killed once the second transaction has its unit, before its
    mark; the next life ends the job. *)
Lemma packages_run_once_witness :
  pw_log first_life = mark_line 0 "20260102-120000-0000" +:+ done_line /\ length (pw_txs first_life) = 2%nat /\
  rt_Status <$> pw_end second_life = Some JobSucceeded /\
  map pt_phase (pw_txs second_life) = packagePhases (spec_packages apt_spec) /\
  Forall (fun t => pt_result t = "success") (pw_txs second_life) /\ pw_log second_life = log_of 0 (pw_txs second_life).
Proof.
  split; [vm_compute; reflexivity|]. split; [vm_compute; reflexivity|].
  assert (E : rt_Status <$> pw_end second_life = Some JobSucceeded) by (vm_compute; reflexivity). split; [exact E|].
  destruct (pw_end second_life) as [res|] eqn:Er; [|discriminate E]. injection E as Es.
  refine (proj2 (proj2 (proj2 (packages_run_once "/var/log" apt_spec as_is as_is quiet_text 5 100 second_life _))) res Er Es).
  apply (life_next _ _ _ _ _ _ _ first_life (play apt_ans 100 (packages_Resume quiet_text as_is 5
    (started_job "/var/log" apt_spec (pw_unit first_life) 100)) first_life).1).
  - apply (life_first _ _ _ _ _ _ _ (play apt_ans 11 (packages_Start as_is 5 (started_job "/var/log" apt_spec "" 100)) no_job).1).
    apply apt_runs, no_job_plain.
  - vm_compute. reflexivity.
  - vm_compute. discriminate.
  - intros t Ht. vm_compute in Ht. injection Ht as <-. vm_compute. reflexivity.
  - apply apt_runs, first_life_plain.
Defined.

(** ** Stacks *)

Section Answered.
Context {call : Type} {answer : call -> Type}.
Variable ans : forall c : call, answer c.
Fixpoint answered {A} (p : Interact.prog answer A) : list (Interact.action answer) * option A :=
  match p with
  | Ret a => ([], Some a)
  | Stuck => ([], None)
  | Do c k => let '(tr, o) := answered (k (ans c)) in (act c (ans c) :: tr, o)
  end.
Lemma answered_exec {A} (p : Interact.prog answer A) : exec p (answered p).1 (answered p).2.
Proof.
  induction p as [a|c k IH|]; simpl; try constructor. specialize (IH (ans c)). destruct (answered (k (ans c))). by constructor.
Qed.
Lemma answered_all (P : Interact.action answer -> Prop) {A} (p : Interact.prog answer A) :
  (forall c, P (act c (ans c))) -> Forall P (answered p).1.
Proof.
  intros HP. induction p as [a|c k IH|]; simpl; try constructor. specialize (IH (ans c)).
  destruct (answered (k (ans c))). by constructor.
Qed.
End Answered.

(** A document with no services, and one that cannot be read. *)
Definition read_doc (s : string) : result string ymap :=
  if s ==s "services: {}" then Ok [("services", YMap [])] else Err "not a document".
Definition web_file : string := "/opt/stacks/web/docker-compose.yml".
Definition web_stat (p : string) : result fs_error FileInfo :=
  if p ==s web_file then Ok (mkFileInfo true 384 12 None false) else Err gone.
Definition manifest_text : string := "[nginx]".
Definition web_answer (c : ccall) : canswer c :=
  match c return canswer c with
  | CFs c => match c return canswer (CFs c) with
             | Stat p => web_stat p
             | ReadFileAll p => if p ==s web_file then Ok "old" else Ok manifest_text
             | c => host_file c
             end
  | ComposeStdout _ _ => ("services: {}", "", None)
  | ComposeLines => (["Container web-app-1  Started"], None)
  | c => host_compose c
  end.
Definition entry : rollbackEntry := mkRollbackEntry "app" "nginx:latest" "sha256:0123456789ab".
Definition read_manifest (s : string) : result string (list rollbackEntry) :=
  if s ==s manifest_text then Ok [entry] else Err "not a manifest".
Notation no_health := (fun _ : string => Err (A := list (string * option bool)) "").
Notation no_entries := (fun _ : list rollbackEntry => "").
Notation stacks_op := (perform quiet_text "/opt/stacks" read_doc no_health no_entries read_manifest).
Notation stacks_ops := (compose_op quiet_text "/opt/stacks" read_doc).

Definition web_up : stacks_ops := OpUpStream _ _ _ "web".
Definition web_trace : list caction := (answered web_answer (stacks_op web_up)).1.

Lemma web_steady : Forall (steady false (Ok []) web_stat) web_trace.
Proof.
  apply answered_all. intros c x Hx. destruct c; try done; simpl in Hx |- *; try congruence. destruct c; simpl in *; congruence.
Qed.

Lemma up_judged_witness :
  option_map (fun a => deploys (projT1 a)) (web_trace !! 5%nat) = Some (Some (web_file, "/opt/stacks/web")) /\
  exists b, b ∈ take 5 web_trace /\ judged read_doc b = Some (web_file, "/opt/stacks/web").
Proof.
  split; [vm_compute; reflexivity|].
  destruct (web_trace !! 5%nat) as [a|] eqn:Ea; [|vm_compute in Ea; discriminate Ea].
  apply (up_judged quiet_text "/opt/stacks" read_doc no_health no_entries read_manifest false (Ok []) web_stat
    web_up web_trace (answered web_answer (stacks_op web_up)).2 (answered_exec web_answer _)
    (take 5 web_trace) a (drop 6 web_trace)); [| |exact web_steady].
  - symmetry. apply take_drop_middle. exact Ea.
  - vm_compute in Ea. injection Ea as <-. vm_compute. reflexivity.
Defined.

Definition web_create : stacks_ops := OpCreate _ _ _ "api" "services: {}".
Definition create_trace : list caction := (answered web_answer (stacks_op web_create)).1.
(** The same of a name kept for a migration. *)
Definition backup_create : stacks_ops := OpCreate _ _ _ "api.migbak" "services: {}".
Definition backup_trace : list caction := (answered web_answer (stacks_op backup_create)).1.
Lemma backup_name : ~ stack_name "api.migbak".
Proof. intros [_ []]. by exists "api". Qed.
Lemma manager_in_stack_witness :
  existsb (fun a => match projT1 a with CFs (Rename _ to) => to ==s "/opt/stacks/api/docker-compose.yml" | _ => false end)
    create_trace = true /\
  Interact.watch (place_monitor "/opt/stacks" "api") [] create_trace /\
  forall a, a ∈ backup_trace -> projT1 a = HasClient.
Proof.
  split; [vm_compute; reflexivity|split].
  - apply (manager_in_stack quiet_text "/opt/stacks" eq_refl read_doc no_health no_entries read_manifest web_create
      create_trace (answered web_answer (stacks_op web_create)).2), answered_exec.
  - apply (manager_in_stack quiet_text "/opt/stacks" eq_refl read_doc no_health no_entries read_manifest backup_create
      backup_trace (answered web_answer (stacks_op backup_create)).2); [apply answered_exec|discriminate|exact backup_name].
Defined.

Definition rollback_trace : list caction :=
  (answered web_answer (RollbackStack quiet_text "/opt/stacks" read_doc read_manifest "web")).1.
Definition rollback_up : option nat :=
  fst <$> list_find (fun a => bool_decide (is_Some (deploys (projT1 a))) = true) rollback_trace.
Lemma RollbackStack_whole_witness :
  rollback_up = Some 7%nat /\ all_back "/opt/stacks" read_manifest "web" (take 7 rollback_trace).
Proof.
  split; [vm_compute; reflexivity|].
  destruct (rollback_trace !! 7%nat) as [a|] eqn:Ea; [|vm_compute in Ea; discriminate Ea].
  apply (RollbackStack_whole quiet_text "/opt/stacks" read_doc read_manifest "web" rollback_trace
    (answered web_answer (RollbackStack quiet_text "/opt/stacks" read_doc read_manifest "web")).2 (answered_exec web_answer _)
    (take 7 rollback_trace) a (drop 8 rollback_trace)).
  - symmetry. apply take_drop_middle. exact Ea.
  - vm_compute in Ea. injection Ea as <-. vm_compute. eexists. reflexivity.
Defined.

Definition stack_job : Job :=
  mkJob (mkJobSpec "20260102-120000-abcdef-0" "20260102-120000-abcdef" "Work" 0 StepStack false None None None None
           (Some (mkStackStep "web" "services: {}" true)) None) "/var/log/j.log" 0 "".
Definition stack_answer (c : jcall) : janswer c :=
  match c return janswer c with Cm c => web_answer c | c => host_answer c end.
Definition stack_run : jprog Result := runStack quiet_text as_is "/opt/stacks" read_doc stack_job.
Notation stack_trace := (omap managers (answered stack_answer stack_run).1).

Lemma runStack_guarded_witness :
  (answered stack_answer stack_run).2 = Some (mkResult JobSucceeded true None "compose file written, up") /\
  stack_trace <> [] /\ passes read_doc (spec_stack (job_Spec stack_job)) (js_Confirmed (job_Spec stack_job)) /\
  Interact.watch (place_monitor "/opt/stacks" (st_Name (spec_stack (job_Spec stack_job)))) [] stack_trace.
Proof.
  split; [vm_compute; reflexivity|]. assert (Hne : stack_trace <> []) by (vm_compute; discriminate). split; [exact Hne|].
  destruct (runStack_guarded quiet_text as_is "/opt/stacks" eq_refl read_doc stack_job (answered stack_answer stack_run).1
    (answered stack_answer stack_run).2 (answered_exec stack_answer stack_run)) as (H1 & H2 & _).
  split; [exact (H1 Hne)|exact H2].
Defined.

(** ** The compose gate's theorems at work

    A stack that reaches for the panel's secrets in each of the ways there are,
    and the same stack with its maps ranged over in another order. *)

Definition long_mount (type source target : string) : yval :=
  YMap [("type", YStr type); ("source", YStr source); ("target", YStr target)].
Definition web : yval :=
  YMap [("image", YStr "nginx");
        ("volumes", YList [YStr "/etc//sfpanel/../sfpanel:/cfg:ro"; YStr "data:/data"; long_mount "BIND" " /root/.ssh" "/keys";
                           long_mount "tmpfs" "/root/.ssh" "/tmp"; YStr "/var/run/docker.sock:/s"])].
Definition db : yval := YMap [("privileged", YStr "Yes"); ("network_mode", YStr "Host")].
Definition secrets : ymap :=
  [("jwt", YMap [("file", YStr "/etc/sfpanel/config.yaml")]); ("own", YMap [("file", YStr "./own.txt")])].
Definition volumes : ymap :=
  [("panel", YMap [("driver_opts", YMap [("type", YStr "none"); ("device", YStr "/var/lib/./sfpanel/db")])]);
   ("nfs", YMap [("driver_opts", YMap [("device", YStr ":/export")])])].
Definition stack : ymap :=
  [("services", YMap [("web", web); ("db", db)]); ("secrets", YMap secrets); ("volumes", YMap volumes)].
(** Its maps in the other order. *)
Definition stack_reversed : ymap :=
  [("volumes", YMap (reverse volumes)); ("secrets", YMap (reverse secrets)); ("services", YMap [("db", db); ("web", web)])].

Definition reads (doc : ymap) (content : string) : result string ymap := Ok doc.

Definition stack_report : Report := match Analyze (reads stack) "" with Ok r => r | Err _ => mkReport [] [] end.

Example stack_forbidden :
  map fd_Detail (rp_Forbidden stack_report) =
  ["/etc//sfpanel/../sfpanel"; "/root/.ssh"; "/etc/sfpanel/config.yaml"; "/var/lib/./sfpanel/db"].
Proof. vm_compute. reflexivity. Qed.
Example stack_risky :
  map fd_Detail (rp_Risky stack_report) = ["true"; "network_mode: host"; "/var/run/docker.sock"].
Proof. vm_compute. reflexivity. Qed.
Example stack_refused :
  length <$> Report_Error stack_report true = Some 4%nat /\ length <$> Report_Error stack_report false = Some 7%nat.
Proof. by vm_compute. Qed.

Lemma bind_tiers_places_witness :
  isAbs (trimSpace " /etc/./ssl/../sfpanel/ca.key") = true /\
  (forbiddenBind " /etc/./ssl/../sfpanel/ca.key" = true <->
     in_place secret_places (host_place " /etc/./ssl/../sfpanel/ca.key")).
Proof.
  split; [reflexivity|]. apply (bind_tiers_places " /etc/./ssl/../sfpanel/ca.key"). reflexivity.
Defined.

Lemma Analyze_forbidden_witness :
  Analyze (reads stack) "" = Ok stack_report /\
  exists doc, reads stack "" = Ok doc /\
    forall p, (exists f, f ∈ rp_Forbidden stack_report /\ fd_Detail f = p) <-> binds doc p /\ secret_path p.
Proof. split; [vm_compute; reflexivity|]. apply (Analyze_forbidden (reads stack) ""). vm_compute. reflexivity. Defined.

Lemma stack_alike k : alike (field stack k) (field stack_reversed k).
Proof.
  unfold field, stack, stack_reversed. cbn [find fst snd].
  destruct ("services" ==s k) eqn:E1; [apply String.eqb_eq in E1 as <-; simpl; constructor; [apply perm_swap|]|].
  { repeat constructor; set_solver. }
  destruct ("secrets" ==s k) eqn:E2; [apply String.eqb_eq in E2 as <-; simpl; constructor; [apply perm_swap|]|].
  { repeat constructor; set_solver. }
  destruct ("volumes" ==s k) eqn:E3; simpl; constructor; [apply perm_swap|].
  repeat constructor; set_solver.
Qed.
Lemma Analyze_any_order_witness :
  reads stack "" = Ok stack /\ reads stack_reversed "" = Ok stack_reversed /\
  Analyze (reads stack) "" = Analyze (reads stack_reversed) "".
Proof.
  split; [reflexivity|]. split; [reflexivity|].
  apply (Analyze_any_order (reads stack) (reads stack_reversed) "" stack stack_reversed);
    [reflexivity|reflexivity|exact stack_alike].
Defined.
