(* ===== verification/ApiWitness.v ===== *)
(** * The theorems on the task API at work

    One leader with a store of one task: a preview, the start it confirms, a
    second start refused while the first run holds its nodes, a rerun, and a
    new task written. *)

From S2P Require Import ApiCodes Prelude GoStrings GoTime TaskModel TaskYaml TaskParse ClusterFSM.
From S2P Require Import ClusterTaskStore TaskPlan.
From S2P Require Import Interact RunProg TaskRun TaskSupervise TaskRerun ApiProg TaskApi ApiHost.
From S2P Require Import ApiHostFacts ApiFacts.
From S2P Require Import TaskWitness RunWitness StepWitness.

#[local] Existing Instance toy_yaml.

(** ** The pieces *)

(** A digest that keeps its text, in hexadecimal. *)
Definition hex_digit (n : nat) : ascii := default "0"%char (list_ascii_of_string "0123456789abcdef" !! n).
Definition hex_byte (c : ascii) (s : string) : string :=
  String (hex_digit (nat_of_ascii c / 16)) (String (hex_digit (nat_of_ascii c mod 16)) s).
Fixpoint hex (s : string) : string := match s with EmptyString => "" | String c s => hex_byte c (hex s) end.
Definition inputs_json (inputs : gmap string string) : string := if decide (inputs = ∅) then "null" else "{}".
Definition targets_json (t : Targets) : string := if default [] (tg_Kinds t) is [] then "{}" else "{kinds}".
Definition no_documents (_ : string) : string := "".

Lemma hex_nul_free s : nul_free (hex s).
Proof.
  assert (Hd : forall n, Ascii.zero <> hex_digit n).
  { intros n. do 16 (destruct n as [|n]; [by vm_compute|]). by vm_compute. }
  unfold nul_free. induction s as [|c s IH]; simpl; [by intros ?%not_elem_of_nil|].
  intros [Hc|[Hc|Hc]%elem_of_cons]%elem_of_cons; [by apply Hd in Hc..|done].
Qed.
Lemma inputs_nul_free i : nul_free (inputs_json i).
Proof. unfold nul_free, inputs_json. by destruct (decide _); apply (bool_decide_unpack _); vm_compute. Qed.

Definition sample_task : StoredTask := mkStoredTask "t1" "Install" sample_doc user_source 100 "ada".
Definition idle : Busy := mkBusy false false false false.
Definition old_run : RunRecord :=
  mkRunRecord "r0" "" "t1" "Install" "sha" ∅ ["n2"; "a1"] [["a1"]; ["n2"]] [1%nat] 1 false RunFailed "" false "" "bob" 10 20 "" ∅ 0.

(** ** One request *)

Definition api_answers (c : acall) : aanswer c :=
  match c with
  | InCluster | IsLeader | CaughtUp => true
  | InstallsActive | InstallOwns _ => false
  | ToLeader => None
  | ANow => 1000
  | APlanEnv => plan_env
  | ANodes => cluster
  | TasksReady => []
  | NewTaskID => "t2"
  | NewRunID _ => "r1"
  | LocalID => "n1"
  | StListTasks => Ok [sample_task]
  | StGetTask id => if id ==s "t1" then Ok sample_task else Err ErrTaskNotFound
  | StPutTaskRevision _ => Ok "sha"
  | StTaskRevision _ => Ok sample_doc
  | StListRuns => Ok [old_run]
  | StGetRun _ => Ok (old_run, ∅)
  | GateLock => idle
  | InstallOutput _ _ _ _ => None
  | InstallStop _ _ => None
  | AskJob _ _ _ => Err (NodeFailed "timeout")
  | StPutTask _ | StDeleteTask _ | StPutRun _ | EndLeftInstall _ | StPutRunNode _ _ _ | StPruneRuns _ => None
  | GateUnlock | HeadLock | HeadUnlock | Audit _ | Launch _ => tt
  end.

Notation unsplit := (fun _ : string => None (A := string)).
Notation preview := (PlanRun unsplit unsplit hex inputs_json targets_json no_documents).
Notation start_run := (StartRun unsplit unsplit hex inputs_json targets_json no_documents).

Definition preview_body : option runRequest := Some (mkRunRequest "t1" ∅ None 0 None [] "").
Definition preview_ran : list aaction * option api_answer := answered api_answers (preview preview_body).
Definition shown : Plan * string * list string * list runStep :=
  match preview_ran.2 with Some (OkPlan p pid ready steps) => (p, pid, ready, steps) | _ => (mkPlan [] [], "", [], []) end.
Definition start_body : runRequest := mkRunRequest "t1" ∅ None 0 None [2; 0; 2] shown.1.1.2.
Definition start_ran : list aaction * option api_answer := answered api_answers (start_run (Some start_body) "ada").
Definition launched (tr : list aaction) : list RunRecord :=
  omap (fun a => match projT1 a with Launch r => Some r | _ => None end) tr.
Definition the_run : RunRecord := default old_run (head (launched start_ran.1)).

Lemma StartRun_as_ordered_witness :
  map (fun r => (rr_ID r, rr_Nodes r, rr_Confirmed r)) (launched start_ran.1) = [("r1", ["n2"; "n1"], [0; 2]%nat)] /\
  start_ran.2 = Some (Accepted "r1") /\
  (forall tr1 r tr2, start_ran.1 = tr1 ++ aact (Launch r) tt :: tr2 -> aact (StPutRun r) None ∈ tr1).
Proof.
  split; [vm_compute; reflexivity|]. split; [vm_compute; reflexivity|].
  apply (StartRun_as_ordered unsplit unsplit hex inputs_json targets_json no_documents (Some start_body) "ada" _ start_ran.2).
  exact (answered_exec api_answers (start_run (Some start_body) "ada")).
Defined.

Lemma put_lookup (tr : list aaction) i a : tr !! i = Some a -> a ∈ tr.
Proof. apply list_elem_of_lookup_2. Qed.

Lemma StartRun_previewed_witness :
  length shown.2 = 3%nat /\
  ((exists preq prt rt,
      requested no_documents preview_body preview_ran.1 preq prt /\ requested no_documents (Some start_body) start_ran.1 start_body rt /\
      aact (StPutTaskRevision (td_YAML (rt_doc prt))) (Ok (rr_Rev the_run)) ∈ start_ran.1 /\ rt_task rt = rt_task prt /\
      inputs_json (rr_Inputs the_run) = inputs_json (runInputs (rt_task prt) (rq_Inputs preq)) /\
      targets_json (rt_targets rt) = targets_json (rt_targets prt) /\
      (forall n, n ∈ rr_Confirmed the_run -> is_Some (shown.2 !! n)) /\ shown.2 = stepLabels (rt_task rt)) \/
   collision hex).
Proof.
  split; [vm_compute; reflexivity|].
  apply (StartRun_previewed unsplit unsplit hex inputs_json targets_json no_documents
    preview_body preview_ran.1 shown.1.1.1 shown.1.1.2 shown.1.2 shown.2 start_body "ada" start_ran.1 start_ran.2 the_run None).
  - exact hex_nul_free.
  - exact inputs_nul_free.
  - assert (E : preview_ran.2 = Some (OkPlan shown.1.1.1 shown.1.1.2 shown.1.2 shown.2)) by (vm_compute; reflexivity).
    rewrite <-E. exact (answered_exec api_answers (preview preview_body)).
  - assert (H : Forall (fun a => projT1 a <> ToLeader) preview_ran.1) by (vm_compute; repeat constructor; discriminate).
    intros Hin. rewrite Forall_forall in H. by apply (H _ Hin).
  - exact (answered_exec api_answers (start_run (Some start_body) "ada")).
  - apply (put_lookup _ 14). vm_compute. reflexivity.
  - discriminate.
  - reflexivity.
Defined.

(** The ended run again, on the nodes that failed: both, from the start. *)
Definition rerun_ran : list aaction * option api_answer := answered api_answers (RerunRun "r0" "failed" None "eve").
Lemma RerunRun_as_ordered_witness :
  map (fun r => (rr_RerunOf r, rr_Nodes r, rr_StartAt r !! "a1")) (launched rerun_ran.1) = [("r0", ["a1"; "n2"], Some 0%nat)] /\
  (forall tr1 r tr2, rerun_ran.1 = tr1 ++ aact (Launch r) tt :: tr2 -> aact (StPutRun r) None ∈ tr1).
Proof.
  split; [vm_compute; reflexivity|].
  apply (RerunRun_as_ordered "r0" "failed" None "eve" rerun_ran.1 rerun_ran.2).
  exact (answered_exec api_answers (RerunRun "r0" "failed" None "eve")).
Defined.

(** ** A task written *)

Definition create_ran : list aaction * option unit :=
  answered api_answers (pbind (CreateTask no_documents (Some sample_doc) "eve") (fun _ => Ret tt)).
Lemma api_tasks_guarded_witness :
  option_map (fun a => match projT1 a with StPutTask t => (sk_ID t, sk_Name t) | _ => ("", "") end) (create_ran.1 !! 5%nat) =
    Some ("t2", "Install") /\
  forall tr1 a tr2, create_ran.1 = tr1 ++ a :: tr2 -> tasks_rule no_documents tr1 a.
Proof.
  split; [vm_compute; reflexivity|].
  apply (api_tasks_guarded unsplit unsplit hex hex inputs_json targets_json no_documents (fun _ => None)
    (pbind (CreateTask no_documents (Some sample_doc) "eve") (fun _ => Ret tt)) create_ran.1 create_ran.2).
  - apply req_create.
  - exact (answered_exec api_answers _).
Defined.

(** ** A leader at work *)

Notation leader_step := (api_step unsplit unsplit hex hex inputs_json targets_json no_documents (fun _ => None)).

Definition runs_now (s : run_table) : list RunRecord := map (fun c => c.2.1) (map_to_list (ru_runs s)).
Definition next_id (s : run_table) : string := "r" +:+ dec (Z.of_nat (size (ru_minted s))).

(** The answers of a store that keeps what is put in it. *)
Definition store_answer (s : run_table) (c : acall) : aanswer c :=
  match c with
  | StListRuns => Ok (runs_now s)
  | APlanEnv => mkPlanEnv "n1" cluster (pe_Health plan_env) (fun _ => true) (fun _ => false) (Ok (runs_now s)) (fun _ _ => Ok [])
  | StGetRun id => match ru_runs s !! id with Some c => Ok c | None => Err ErrTaskRunNotFound end
  | NewRunID _ => next_id s
  | c => api_answers c
  end.
Definition store_after (s : run_table) (c : acall) : run_table :=
  match c with
  | StPutRun r => put_run r s
  | StPutRunNode id node rec => put_run_node id node rec s
  | NewRunID _ => mint (next_id s) s
  | _ => s
  end.
(** The lock is free, and the ID new. *)
Definition may_go (h : api_host) (c : acall) : bool :=
  match c with
  | GateLock => bool_decide (ah_gate h = None)
  | HeadLock | EndLeftInstall _ => bool_decide (ah_head h = None)
  | NewRunID _ => bool_decide (next_id (ah_runs h) ∉ ru_minted (ah_runs h))
  | _ => true
  end.

(** The goroutine [i], call by call, as far as it may go. *)
Fixpoint drive (fuel : nat) (i : nat) (h : api_host) : api_host :=
  match fuel, ah_pool h !! i with
  | S fuel, Some (Do c k) =>
      if may_go h c then
        drive fuel i (mkApiHost (store_after (ah_runs h) c) (gate_after h i c) (head_after h i c)
          (<[i := k (store_answer (ah_runs h) c)]> (ah_pool h)))
      else h
  | _, _ => h
  end.

Lemma runs_now_lists s : lists (runs_now s) s.
Proof.
  intros r. unfold runs_now. rewrite list_elem_of_fmap. split.
  - intros ([id [r' ns]] & -> & H%elem_of_map_to_list). by exists id, ns.
  - intros (id & ns & H). exists (id, (r, ns)). split; [done|]. by apply elem_of_map_to_list.
Qed.

Lemma drive_steps fuel i h : rtc leader_step h (drive fuel i h).
Proof.
  revert h. induction fuel as [|fuel IH]; intros h; simpl; [done|].
  destruct (ah_pool h !! i) as [[a|c k|]|] eqn:Ep; try done. destruct (may_go h c) eqn:Em; [|done].
  eapply rtc_l; [|apply IH]. apply api_call; [done| |].
  - destruct c; try done; simpl in *; by case_bool_decide.
  - destruct c; try done; simpl in *; try (by split; [|intros rs [= <-]; apply runs_now_lists]); try (by left).
    + case_bool_decide; [|done]. by split_and!.
    + split; [done|]. intros c. destruct (ru_runs (ah_runs h) !! id) as [c'|] eqn:E; [|done]. by intros [= <-].
Qed.

Definition asked (p : aprog unit) (h : api_host) : api_host :=
  mkApiHost (ah_runs h) (ah_gate h) (ah_head h) (ah_pool h ++ [p]).
Definition start_ada : aprog unit := pbind (start_run (Some start_body) "ada") (fun _ => Ret tt).

(** Two starts of one task at once: both ordered, the first claims the nodes
    and the second is refused. *)
Definition at_work : api_host := drive 40 0 (drive 40 1 (drive 8 0 (asked start_ada (asked start_ada new_cluster)))).

Lemma runs_exclusive_witness :
  map (fun r => (rr_ID r, rr_Nodes r, rr_StartedBy r)) (runs_now (ah_runs at_work)) = [("r0", ["n2"; "n1"], "ada")] /\
  exclusive (ah_runs at_work).
Proof.
  split; [vm_compute; reflexivity|].
  apply (runs_exclusive unsplit unsplit hex hex inputs_json targets_json no_documents (fun _ => None)).
  assert (Hr : api_request unsplit unsplit hex hex inputs_json targets_json no_documents (fun _ => None) start_ada).
  { apply req_start. }
  etrans; [|apply drive_steps]. etrans; [|apply drive_steps].
  etrans; [|apply drive_steps]. eapply rtc_l; [apply api_more; exact Hr|].
  eapply rtc_l; [apply api_more; exact Hr|]. apply rtc_refl.
Defined.
