(* ===== verification/AuthGuards.v ===== *)
(** * The guards of the sign-in and of the calls between nodes

    The login limit and the bounds on credentials (feature/auth/handler.go,
    bounds.go), the second factor's spent codes, the WebSocket tickets and the
    signature of internal requests (internal/auth), and what the middleware
    lets pass (api/middleware/auth.go, csrf.go).  Each guard keeps a map in
    memory, under a lock of its own: one operation is one step on it, but for
    the login limit's pruner, whose look and deletion are two. *)

From S2P Require Import ApiCodes Prelude GoStrings GoTime.

(** [t.Unix()] and [t.UnixMilli()]: whole units since 1970. *)
Definition unixToInternal : Z := 62135596800.
Definition Unix (t : Time) : Z := t / Second - unixToInternal.
Definition UnixMilli (t : Time) : Z := t / Millisecond - unixToInternal * 1000.

(** ** The login limit *)

Record loginAttempt : Type := mkAttempt { la_count : Z; la_firstAt : Time; la_blockedUntil : Time }.

Definition rateLimitMaxAttempts : Z := 5.
Definition rateLimitWindow : Duration := 60 * Second.
Definition rateLimitBlockDuration : Duration := 5 * Minute.

Definition fresh_attempt (now : Time) : loginAttempt := mkAttempt 1 now 0.

(** Whether the address is blocked, with the attempt counted. *)
Definition preRecordLoginAttempt (now : Time) (ip : string) (m : gmap string loginAttempt) : bool * gmap string loginAttempt :=
  match m !! ip with
  | None => (false, <[ip := fresh_attempt now]> m)
  | Some a =>
      if now <? la_blockedUntil a then (true, m)
      else if rateLimitWindow <? now - la_firstAt a then (false, <[ip := fresh_attempt now]> m)
      else
        let count := la_count a + 1 in
        let until := if rateLimitMaxAttempts <=? count then now + rateLimitBlockDuration else la_blockedUntil a in
        (false, <[ip := mkAttempt count (la_firstAt a) until]> m)
  end.

(** An entry the pruner may drop: past twice its minute, its block over. *)
Definition idle_attempt (now : Time) (a : loginAttempt) : bool :=
  (2 * rateLimitWindow <? now - la_firstAt a) && (la_blockedUntil a <? now).

(** The limit: its table, and the pruner at work on it, with the clock it read
    when it began and the entry it has judged and not dropped yet.  It judges
    an entry under the entry's lock and drops the address after, whatever is
    under it by then. *)
Record login_limit : Type := mkLimit {
  ll_attempts : gmap string loginAttempt;
  ll_pruning : option (Time * option (string * loginAttempt));
}.
Definition no_attempts : login_limit := mkLimit ∅ None.
Definition set_attempts (m : gmap string loginAttempt) (l : login_limit) : login_limit := mkLimit m (ll_pruning l).

Definition pruneLoginAttempts_begin (now : Time) (l : login_limit) : login_limit := mkLimit (ll_attempts l) (Some (now, None)).
Definition pruneLoginAttempts_judge (ip : string) (l : login_limit) : login_limit :=
  match ll_pruning l, ll_attempts l !! ip with
  | Some (began, None), Some a =>
      mkLimit (ll_attempts l) (Some (began, if idle_attempt began a then Some (ip, a) else None))
  | _, _ => l
  end.
Definition pruneLoginAttempts_drop (l : login_limit) : login_limit :=
  match ll_pruning l with
  | Some (began, Some (ip, _)) => mkLimit (delete ip (ll_attempts l)) (Some (began, None))
  | _ => l
  end.

(** What happens to the limit, at its time.  The address of a sign-in, a
    step-up, a password change or a second factor taken off that succeeds is
    cleared; the table is in memory, empty after a restart. *)
Inductive limit_op : Type :=
| Attempt (ip : string)
| ClearAttempts (ip : string)
| PruneBegin
| PruneJudge (ip : string)
| PruneDrop
| LimitRestart.
Definition limit_step (now : Time) (op : limit_op) (l : login_limit) : option (string * bool) * login_limit :=
  match op with
  | Attempt ip =>
      let '(blocked, m) := preRecordLoginAttempt now ip (ll_attempts l) in (Some (ip, blocked), set_attempts m l)
  | ClearAttempts ip => (None, set_attempts (delete ip (ll_attempts l)) l)
  | PruneBegin => (None, pruneLoginAttempts_begin now l)
  | PruneJudge ip => (None, pruneLoginAttempts_judge ip l)
  | PruneDrop => (None, pruneLoginAttempts_drop l)
  | LimitRestart => (None, no_attempts)
  end.
(** How many attempts of an address pass. *)
Fixpoint admitted (ip : string) (ops : list (Time * limit_op)) (l : login_limit) : nat :=
  match ops with
  | [] => 0
  | (now, op) :: ops =>
      let '(x, l) := limit_step now op l in
      (if decide (x = Some (ip, false)) then 1 else 0) + admitted ip ops l
  end.

(** The limit on first-run setups: five a minute from an address. *)
Definition setup_attempt (now : Time) (ip : string) (m : gmap string (list Time)) : bool * gmap string (list Time) :=
  let m := omap (fun ts => match List.filter (fun t => now - t <? Minute) ts with [] => None | ts => Some ts end) m in
  let attempts := default [] (m !! ip) in
  if (5 <=? length attempts)%nat then (true, m) else (false, <[ip := attempts ++ [now]]> m).

(** ** Credentials *)

Definition maxUsernameBytes : nat := 64.
Definition maxPasswordBytes : nat := 256.
Definition maxTOTPCodeBytes : nat := 16.

Fixpoint all_digits (s : string) : bool := match s with EmptyString => true | String c s => is_digit c && all_digits s end.
(** [^\d{6,8}$]. *)
Definition totpCodeRe (s : string) : bool := all_digits s && (6 <=? String.length s)%nat && (String.length s <=? 8)%nat.

Definition validCredentialBounds (username password totp : string) : bool :=
  if (String.length username =? 0)%nat || (maxUsernameBytes <? String.length username)%nat then false
  else if (String.length password =? 0)%nat || (maxPasswordBytes <? String.length password)%nat then false
  else if negb (totp ==s "") && ((maxTOTPCodeBytes <? String.length totp)%nat || negb (totpCodeRe totp)) then false
  else true.

Definition minPasswordLen : nat := 12.
Definition commonPasswords : list string :=
  ["password"; "password1"; "password123"; "passw0rd"; "passw0rd123"; "p@ssw0rd"; "p@ssword1"; "12345678";
   "123456789"; "1234567890"; "qwertyuiop"; "qwerty123"; "admin123"; "administrator"; "letmein123"; "welcome123";
   "iloveyou1"; "sunshine1"; "princess1"; "changeme123"; "baseball1"; "football1"; "superman1"; "abcd1234";
   "abc123456"; "1q2w3e4r5t"; "zaq12wsx"; "qazwsxedc"; "1qaz2wsx3edc"; "trustno1!"; "sfpanel123"].
(** The message of a refused password. *)
Definition validatePassword (pw : string) : option string :=
  if (String.length pw <? minPasswordLen)%nat then Some "Password must be at least 12 characters."
  else if slices_contains commonPasswords (ToLower pw) then Some "Password is too common — choose something less guessable."
  else None.

(** ** The second factor *)

Definition totpPeriod : Z := 30.

Definition used_key (secret code : string) (period : Z) : string := secret +:+ ":" +:+ code +:+ ":" +:+ itoa period.
Definition code_key (now : Time) (secret code : string) : string := used_key secret code (Z.quot (Unix now) totpPeriod).

(** A code's slot, reserved before the code is checked: its key, [None] when
    it is taken.  Slots past their end are dropped on the way. *)
Definition reserve_code (now : Time) (secret code : string) (used : gmap string Z) : option string * gmap string Z :=
  let nowUnix := Unix now in
  let period := Z.quot nowUnix totpPeriod in
  let key := used_key secret code period in
  let used := filter (fun kv => ~ kv.2 < nowUnix) used in
  match used !! key with
  | Some _ => (None, used)
  | None => (Some key, <[key := (period + 2) * totpPeriod]> used)
  end.

(** ** WebSocket tickets *)

Definition wsTicketTTL : Duration := 60 * Second.
Record wsTicketEntry : Type := mkTicket { wt_username : string; wt_expires : Time }.
(** [ticket]: of 24 random bytes; [None] when there were none. *)
Definition MintWSTicket (ticket : option string) (username : string) (now : Time) (m : gmap string wsTicketEntry)
    : string * gmap string wsTicketEntry :=
  match ticket with
  | None => ("", m)
  | Some ticket =>
      let m := if (1024 <? size m)%nat then filter (fun kv => ~ wt_expires kv.2 < now) m else m in
      (ticket, <[ticket := mkTicket username (now + wsTicketTTL)]> m)
  end.
Definition ConsumeWSTicket (ticket : string) (now : Time) (m : gmap string wsTicketEntry)
    : option string * gmap string wsTicketEntry :=
  if ticket ==s "" then (None, m)
  else
    match m !! ticket with
    | None => (None, m)
    | Some e => (if wt_expires e <? now then None else Some (wt_username e), delete ticket m)
    end.
Definition ClearWSTickets (m : gmap string wsTicketEntry) : gmap string wsTicketEntry := ∅.

(** ** Requests between nodes *)

Definition proxyClockSkew : Duration := 30 * Second.
Definition nonceCacheTTL : Duration := 2 * proxyClockSkew.
Definition sameRequestWindow : Duration := 50 * Millisecond.

(** A nonce recorded; past a size, those past their time go. *)
Definition record_nonce (now : Time) (nonce : string) (cache : gmap string Time) : gmap string Time :=
  let cache := <[nonce := now]> cache in
  if (2048 <? size cache)%nat then filter (fun kt => ~ nonceCacheTTL < now - kt.2) cache else cache.
Definition registerNonce (now : Time) (nonce : string) (cache : gmap string Time) : bool * gmap string Time :=
  match cache !! nonce with
  | None => (true, record_nonce now nonce cache)
  | Some seen =>
      if now - seen <=? sameRequestWindow then (true, cache)
      else if now - seen <=? nonceCacheTTL then (false, cache)
      else (true, record_nonce now nonce cache)
  end.

Section Proxy.
(** The HMAC-SHA256 of a text under a key, in hexadecimal. *)
Variable hmac_hex : string -> string -> string.

Definition signed_text (ts nonce method path : string) : string := ts +:+ ":" +:+ nonce +:+ ":" +:+ method +:+ ":" +:+ path.
(** [nonce]: of 16 random bytes. *)
Definition SignProxyRequestV2With (key method path nonce : string) (now : Time) : string :=
  if key ==s "" then ""
  else
    let ts := itoa (UnixMilli now) in
    ts +:+ ":" +:+ nonce +:+ ":" +:+ hmac_hex key (signed_text ts nonce method path).

(** [checked], [now]: as the timestamp is judged, and as the nonce is. *)
Definition validateV2 (secret header method path : string) (checked now : Time) (cache : gmap string Time)
    : bool * gmap string Time :=
  match splitByteN 3 header ":" with
  | [tsStr; nonce; providedMAC] =>
      match atoi tsStr with
      | None => (false, cache)
      | Some ts =>
          let skewMs := proxyClockSkew / Millisecond in
          if (ts <? UnixMilli checked - skewMs) || (UnixMilli checked + skewMs <? ts) then (false, cache)
          else if providedMAC ==s hmac_hex secret (signed_text tsStr nonce method path) then registerNonce now nonce cache
          else (false, cache)
      end
  | _ => (false, cache)
  end.

(** The accepted secrets, tried in turn; each with its times. *)
Fixpoint accepted_by (accept : list string) (times : list (Time * Time)) (header method path : string)
    (cache : gmap string Time) : bool * gmap string Time :=
  match accept, times with
  | secret :: accept, (checked, now) :: times =>
      if secret ==s "" then accepted_by accept times header method path cache
      else
        let '(ok, cache) := validateV2 secret header method path checked now cache in
        if ok : bool then (true, cache) else accepted_by accept times header method path cache
  | _, _ => (false, cache)
  end.

(** [header]: X-SFPanel-Internal-Proxy-V2, [""] when there is none. *)
Definition IsInternalProxyRequest (accept : list string) (times : list (Time * Time)) (header method path : string)
    (cache : gmap string Time) : bool * gmap string Time :=
  match accept with
  | [] => (false, cache)
  | _ => if header ==s "" then (false, cache) else accepted_by accept times header method path cache
  end.
End Proxy.

(** ** Addresses

    An address is its four bytes, or its sixteen when it is no IPv4 one. *)

Definition IP : Type := list Z.
Definition IsLoopback (ip : IP) : bool :=
  match ip with
  | [a; _; _; _] => a =? 127
  | _ => bool_decide (ip = replicate 15 0 ++ [1])
  end.
Definition IsPrivate (ip : IP) : bool :=
  match ip with
  | [a; b; _; _] => (a =? 10) || ((a =? 172) && (Z.land b 240 =? 16)) || ((a =? 192) && (b =? 168))
  | a :: _ => (length ip =? 16)%nat && (Z.land a 254 =? 252)
  | _ => false
  end.
Definition IsLinkLocalUnicast (ip : IP) : bool :=
  match ip with
  | [a; b; _; _] => (a =? 169) && (b =? 254)
  | a :: b :: _ => (length ip =? 16)%nat && (a =? 254) && (Z.land b 192 =? 128)
  | _ => false
  end.

(** ** What the middleware lets pass *)

(** A request, as far as the sign-in reads it; a header that is not there
    is [""]. *)
Record httpRequest : Type := mkRequest {
  hq_Method : string;
  hq_Path : string;
  hq_RequestURI : string;
  hq_RemoteAddr : string;
  hq_RealIP : string;
  hq_TLS : bool;
  hq_Authorization : string;
  hq_ProxyV2 : string;                (* X-SFPanel-Internal-Proxy-V2 *)
  hq_OriginalUser : string;           (* X-SFPanel-Original-User *)
  hq_OriginalNode : string;           (* X-SFPanel-Original-Node *)
  hq_CSRFHeader : string;             (* X-CSRF-Token *)
  hq_ForwardedProto : string;         (* X-Forwarded-Proto *)
  hq_QueryToken : string;
  hq_QueryTicket : string;
  hq_CSRFCookie : option string;
  hq_RefreshCookie : option string;
}.

Inductive verdict : Type :=
| Through (username : string)
| Refuse (status : Z) (code text : string).

Definition allowsQueryToken (path : string) : bool :=
  (path ==s "/api/v1/files/download") || (path ==s "/api/v1/files/thumbnail") || (path ==s "/api/v1/system/backup").

Definition csrfSafeMethods (method : string) : bool := (method ==s "GET") || (method ==s "HEAD") || (method ==s "OPTIONS").
Definition csrf_bootstrap (path : string) : bool :=
  (path ==s "/api/v1/auth/login") || (path ==s "/api/v1/auth/setup") || (path ==s "/api/v1/auth/refresh").

Section Gates.
Variable hmac_hex : string -> string -> string.
Variable sha256_hex : string -> string.
(** [net.ParseIP]. *)
Variable ParseIP : string -> option IP.
(** [jwt.ParseWithClaims] under a key: the user name of a valid token of
    this issuer. *)
Variable jwt_parse : string -> string -> option string.

(** The secrets a request from another node may be signed with. *)
Variable accept : list string.

Definition internal (r : httpRequest) (times : list (Time * Time)) (cache : gmap string Time) : bool * gmap string Time :=
  IsInternalProxyRequest hmac_hex accept times (hq_ProxyV2 r) (hq_Method r) (hq_RequestURI r) cache.

Definition ParseToken (token secret : string) : option string := if secret ==s "" then None else jwt_parse token secret.

(** The name a relayed request acts under. *)
Definition relayed_user (r : httpRequest) : string := if hq_OriginalUser r ==s "" then "admin" else hq_OriginalUser r.

Definition JWTMiddleware (secret : string) (r : httpRequest) (times : list (Time * Time)) (cache : gmap string Time)
    : verdict * gmap string Time :=
  let '(ok, cache) := internal r times cache in
  if ok : bool then (Through (relayed_user r), cache)
  else
    let bearer (header : string) :=
      match splitByteN 2 header " " with
      | [scheme; token] =>
          if ToLower scheme ==s "bearer" then
            match ParseToken token secret with
            | Some username => Through username
            | None => Refuse 401 ErrInvalidToken "Invalid or expired token"
            end
          else Refuse 401 ErrInvalidToken "Invalid authorization header format"
      | _ => Refuse 401 ErrInvalidToken "Invalid authorization header format"
      end in
    if hq_Authorization r ==s "" then
      if negb (hq_QueryToken r ==s "") && allowsQueryToken (hq_Path r) then (bearer ("Bearer " +:+ hq_QueryToken r), cache)
      else (Refuse 401 ErrMissingToken "Authorization header is required", cache)
    else (bearer (hq_Authorization r), cache).

Definition double_submit (r : httpRequest) : option verdict :=
  match hq_CSRFCookie r with
  | None | Some "" => Some (Refuse 403 ErrCSRFTokenMissing "CSRF cookie missing")
  | Some cookie =>
      if hq_CSRFHeader r ==s "" then Some (Refuse 403 ErrCSRFTokenMissing "CSRF header missing")
      else if hq_CSRFHeader r ==s cookie then None
      else Some (Refuse 403 ErrCSRFTokenMismatch "CSRF token mismatch")
  end.
(** [None]: the request goes on. *)
Definition CSRFProtect (r : httpRequest) (times : list (Time * Time)) (cache : gmap string Time)
    : option verdict * gmap string Time :=
  if csrfSafeMethods (hq_Method r) then (None, cache)
  else
    let '(ok, cache) := internal r times cache in
    if ok : bool then (None, cache)
    else if csrf_bootstrap (hq_Path r) then (None, cache)
    else if hasPrefix (hq_Authorization r) "Bearer " && bool_decide (hq_CSRFCookie r = None) && bool_decide (hq_RefreshCookie r = None)
    then (None, cache)
    else (double_submit r, cache).

(** A protected route of a manager: the token, then the cross-site check. *)
Definition authorized (secret : string) (r : httpRequest) (times1 times2 : list (Time * Time)) (cache : gmap string Time)
    : verdict * gmap string Time :=
  match JWTMiddleware secret r times1 cache with
  | (Through username, cache) =>
      match CSRFProtect r times2 cache with
      | (None, cache) => (Through username, cache)
      | (Some v, cache) => (v, cache)
      end
  | refused => refused
  end.

(** An agent's whole authentication. *)
Definition InternalProxyOnly (r : httpRequest) (times : list (Time * Time)) (cache : gmap string Time)
    : verdict * gmap string Time :=
  let '(ok, cache) := internal r times cache in
  if ok : bool then (Through (relayed_user r), cache)
  else (Refuse 401 ErrMissingToken "This node accepts only requests its managers sign", cache).

(** ** WebSocket upgrades *)

Definition isLoopbackRequest (r : httpRequest) : bool :=
  let host := match lastIndexByte (hq_RemoteAddr r) ":" with Some i => stake i (hq_RemoteAddr r) | None => hq_RemoteAddr r end in
  match ParseIP (trimRightAny (trimLeftAny host "[]") "[]") with Some ip => IsLoopback ip | None => false end.

(** [""]: not authenticated. *)
Definition AuthenticateWSRequest (r : httpRequest) (secret : string) (now : Time) (tickets : gmap string wsTicketEntry)
    : string * gmap string wsTicketEntry :=
  if negb (hq_QueryTicket r ==s "") then
    let '(user, tickets) := ConsumeWSTicket (hq_QueryTicket r) now tickets in (default "" user, tickets)
  else if hq_QueryToken r ==s "" then ("", tickets)
  else if negb (isLoopbackRequest r) then ("", tickets)
  else (default "" (ParseToken (hq_QueryToken r) secret), tickets).

(** [None]: 401. *)
Definition AuthenticateWSUpgrade (r : httpRequest) (secret : string) (times : list (Time * Time)) (now : Time)
    (cache : gmap string Time) (tickets : gmap string wsTicketEntry)
    : option string * gmap string Time * gmap string wsTicketEntry :=
  let '(ok, cache) := internal r times cache in
  if ok : bool then
    (if negb (hq_OriginalUser r ==s "") then Some (hq_OriginalUser r) else None, cache, tickets)
  else
    let '(user, tickets) := AuthenticateWSRequest r secret now tickets in
    (if negb (user ==s "") then Some user else None, cache, tickets).

(** ** A manager's word that it checked the password *)

Definition StepUpProofWith (key proxyHeader body : string) : string :=
  hmac_hex key ("step-up" +:+ String (ascii_of_nat 10) (proxyHeader +:+ String (ascii_of_nat 10) (sha256_hex body))).
Definition VerifyStepUpProof (proxyHeader body proof : string) : bool :=
  if (proxyHeader ==s "") || (proof ==s "") then false
  else existsb (fun key => negb (key ==s "") && (proof ==s StepUpProofWith key proxyHeader body)) accept.
End Gates.
