(* ===== verification/AuthApi.v ===== *)
(** * The sign-in (internal/feature/auth)

    The handlers of /auth as programs of calls: to the guards in memory, to
    the panel's database, to the cluster's replicated accounts, to the random
    source and to the libraries that hash and sign.  A request's body is an
    argument, [None] when it does not decode; [username] is what the middleware
    put in the request's context. *)

From S2P Require Import ApiCodes Prelude GoStrings GoTime ClusterFSM Interact AuthGuards.

#[local] Open Scope prog_scope.

(** ** Data *)

Record loginRequest : Type := mkLogin { lq_Username : string; lq_Password : string; lq_TOTPCode : string; lq_RecoveryCode : string }.
Record verify2FARequest : Type := mkVerify2FA { vq_Secret : string; vq_Code : string }.
Record changePasswordRequest : Type := mkChangePassword { cq_CurrentPassword : string; cq_NewPassword : string }.
Record setupAdminRequest : Type := mkSetupAdmin { sq_Username : string; sq_Password : string }.
Record disable2FARequest : Type := mkDisable2FA { dq_Password : string; dq_TOTPCode : string }.

(** A row of refresh_tokens, under its token's hash; a row from before
    families has the family [""]. *)
Record tokenRow : Type := mkTokenRow { tr_username : string; tr_family : string; tr_expires : string; tr_consumed : option string }.

(** The rows a DELETE names. *)
Inductive tokenSel : Type :=
| SelToken (hash : string)
| SelFamily (family : string)
| SelUser (username : string)
| SelOtherFamilies (username family : string)
| SelOtherTokens (username hash : string)
| SelAll
| SelStale (cutoff consumed_before : string).

Inductive auth_error : Type := NoRows | NotLeader | OtherFailure.

(** A row of audit_logs. *)
Record auditRow : Type := mkAuditRow {
  au_username : string; au_method : string; au_path : string; au_status : Z; au_ip : string; au_node : string;
}.

Record Cookie : Type := mkCookie {
  ck_Name : string; ck_Value : string; ck_Path : string; ck_MaxAge : Z;
  ck_HttpOnly : bool; ck_Secure : bool; ck_SameSiteStrict : bool;
}.

Inductive auth_answer : Type :=
| OkSession (token refresh_token : string) (expires_in : Z)
| OkMessage (text : string)
| OkSecret (secret url : string)
| OkEnabled (enabled : bool)
| OkSetupStatus (setup_required allowed_from_here : bool)
| OkCodes (codes : list string)
| OkRecovery (generated : bool) (remaining : nat)
| OkTicket (ticket : string)
| AuthFail (status : Z) (code : string) (msg : message).
Definition Fail (status : Z) (code text : string) : auth_answer := AuthFail status code (Sprintf text []).

(** ** Calls *)

Inductive ucall : Type :=
| UNow
(* in memory *)
| LimitAttempt (ip : string)                 (* preRecordLoginAttempt *)
| LimitClear (ip : string)                   (* loginAttempts.Delete *)
| SetupAttempt (ip : string)
| ReserveCode (secret code : string)
| CheckCode (secret code : string)           (* totp.Validate *)
| ReleaseCode (key : string)
| MintTicket (username : string)
| ClearTickets
| RefreshLock
| RefreshUnlock
| JWTSecret
| SwapKey                                    (* the key change that ends the sessions *)
(* random, hashed and signed *)
| RandToken                                  (* 32 bytes, in hexadecimal *)
| RandFamily                                 (* 16 *)
| RandCode                                   (* 10, as they are *)
| RandCSRF
| RandSecret (username : string)             (* totp.Generate: the secret and its URL *)
| HashPassword (password : string)
| SignToken (username secret : string) (expiry : Duration)
(* the cluster *)
| HasManager
| ToLeader                                   (* the request sent on; [None]: not handled there *)
| LeaderID
| AccountCount
| GetAccount (username : string)
| SetAccount (a : AdminAccount)
| GetRecoveryCodes (username : string)
| SetRecoveryCodes (username : string) (hashes : list string)
(* the database *)
| DBAccount (username : string)              (* password, totp_secret *)
| DBRecovery (username : string)
| DBAdmins
| DBFamily (hash username : string)
| DBUpdateAccount (username password : string) (totp : option string)
| DBUpdateRecovery (username : string) (codes : option string)
| DBInsertToken (hash : string) (row : tokenRow)
| DBDeleteTokens (sel : tokenSel)
| TxBegin
| TxToken (hash : string)
| TxAdminNamed (username : string)
| TxAdmins
| TxDeleteTokens (sel : tokenSel)
| TxConsume (hash at_ : string)
| TxInsertToken (hash : string) (row : tokenRow)
| TxInsertAdmin (username password : string)
| TxCommit
| TxRollback
(* the answer *)
| SetCookie (c : Cookie)
| SubmitAudit (row : auditRow).

Definition uanswer (c : ucall) : Type :=
  match c with
  | UNow => Time
  | LimitAttempt _ | SetupAttempt _ | CheckCode _ _ | HasManager => bool
  | ReserveCode _ _ | RandToken | RandFamily | HashPassword _ | SignToken _ _ _ => option string
  | RandCode => option (list Z)
  | RandSecret _ => option (string * string)
  | MintTicket _ | RandCSRF | JWTSecret | LeaderID => string
  | ToLeader => option auth_answer
  | AccountCount => nat
  | GetAccount _ => option AdminAccount
  | SetAccount _ | SetRecoveryCodes _ _ => option auth_error
  | GetRecoveryCodes _ => list string
  | DBAccount _ => result auth_error (string * option string)
  | DBRecovery _ => result auth_error (option string)
  | DBAdmins | TxAdminNamed _ | TxAdmins => option nat
  | DBFamily _ _ => option string
  (* whether the statement ran *)
  | DBUpdateAccount _ _ _ | DBUpdateRecovery _ _ | DBInsertToken _ _ | DBDeleteTokens _
  | TxBegin | TxDeleteTokens _ | TxConsume _ _ | TxInsertToken _ _ | TxInsertAdmin _ _ | TxCommit => bool
  | TxToken _ => result auth_error tokenRow
  | LimitClear _ | ReleaseCode _ | ClearTickets | RefreshLock | RefreshUnlock | SwapKey | TxRollback | SetCookie _ | SubmitAudit _ => unit
  end.

Notation uprog := (Interact.prog uanswer).
Notation uaction := (Interact.action uanswer).
Notation umonitor := (Interact.monitor uanswer).
Notation udo := (@Interact.do_call ucall uanswer).
Notation uact := (@Interact.act ucall uanswer).

(** ** Cookies (internal/auth/cookies.go) *)

Definition RefreshCookieName : string := "sfpanel_refresh".
Definition CSRFCookieName : string := "sfpanel_csrf".
(** [int(d.Seconds())], for a whole number of seconds. *)
Definition whole_seconds (d : Duration) : Z := Z.quot d Second.

Definition refresh_cookie (value : string) (maxAge : Z) (secure : bool) : Cookie :=
  mkCookie RefreshCookieName value "/api/v1/auth" maxAge true secure true.
Definition csrf_cookie (value : string) (maxAge : Z) (secure : bool) : Cookie :=
  mkCookie CSRFCookieName value "/" maxAge false secure true.
Definition SetRefreshCookie (token : string) (maxAge : Duration) (secure : bool) : uprog unit :=
  udo (SetCookie (refresh_cookie token (whole_seconds maxAge) secure)).
Definition SetCSRFCookie (token : string) (maxAge : Duration) (secure : bool) : uprog unit :=
  udo (SetCookie (csrf_cookie token (whole_seconds maxAge) secure)).
Definition ClearAuthCookies (secure : bool) : uprog unit :=
  udo (SetCookie (refresh_cookie "" (-1) secure)) ;;; udo (SetCookie (csrf_cookie "" (-1) secure)).
Definition IsSecureRequest (r : httpRequest) : bool := hq_TLS r || (hq_ForwardedProto r ==s "https").

(** ** Recovery codes, their text *)

Definition recoveryCodeCount : nat := 10.
Definition recoveryCodeAlphabet : string := "abcdefghjkmnpqrstuvwxyz23456789".
Definition recovery_char (b : Z) : string :=
  match String.get (Z.to_nat (b mod Z.of_nat (String.length recoveryCodeAlphabet))) recoveryCodeAlphabet with
  | Some c => String c ""
  | None => ""
  end.
Fixpoint recovery_text (j : nat) (raw : list Z) : string :=
  match raw with
  | [] => ""
  | b :: raw => (if (j =? 5)%nat then "-" else "") +:+ recovery_char b +:+ recovery_text (S j) raw
  end.
Definition normalizeRecoveryCode (code : string) : string :=
  replaceByte (replaceByte (ToLower (trimSpace code)) "-" "") " " "".

Definition refreshTokenLifetime : Duration := 7 * 24 * Hour.

Section Auth.
(** SHA-256, in hexadecimal. *)
Variable sha256_hex : string -> string.
(** [bcrypt.CompareHashAndPassword] finds them alike. *)
Variable CheckPassword : string -> string -> bool.
(** [json.Marshal] and [json.Unmarshal] of a list of hashes; what is unread
    is no hash. *)
Variable marshal_hashes : list string -> string.
Variable unmarshal_hashes : string -> list string.
(** A time in UTC as RFC 3339 writes it, to the second, and its reading. *)
Variable RFC3339 : Time -> string.
Variable parse_RFC3339 : string -> option Time.
(** [net.ParseIP]. *)
Variable ParseIP : string -> option IP.
(** [cfg.Auth.TokenExpiry]. *)
Variable TokenExpiry : string.

(** ** What the handlers share *)

Definition GenerateToken (username secret : string) (expiry : Duration) : uprog (option string) :=
  if secret ==s "" then Ret None else udo (SignToken username secret expiry).

Definition sign_session (username : string) (expiry : Duration) : uprog (option string) :=
  secret <-- udo JWTSecret ;; GenerateToken username secret expiry.

Definition ValidateCode (secret code : string) : uprog bool :=
  key <-- udo (ReserveCode secret code) ;;
  match key with
  | None => Ret false
  | Some key =>
      ok <-- udo (CheckCode secret code) ;;
      if ok : bool then Ret true else udo (ReleaseCode key) ;;; Ret false
  end.

Definition insertSecurityAuditRow (username ip action reason method : string) (status : Z) (nodeID : string) : uprog unit :=
  udo (SubmitAudit (mkAuditRow username method ("/api/v1/auth/" +:+ action +:+ "#" +:+ reason) status ip nodeID)).
Definition recordLoginEvent (username ip : string) (status : Z) (reason : string) : uprog unit :=
  insertSecurityAuditRow username ip "login" reason "POST" status "".
Definition recordSecurityEvent (r : httpRequest) (username action reason : string) (status : Z) : uprog unit :=
  insertSecurityAuditRow username (hq_RealIP r) action reason (if hq_Method r ==s "" then "POST" else hq_Method r) status (hq_OriginalNode r).

Definition writeAuthCookies (r : httpRequest) (refreshTok : string) : uprog unit :=
  if refreshTok ==s "" then Ret tt
  else
    let secure := IsSecureRequest r in
    SetRefreshCookie refreshTok (7 * 24 * Hour) secure ;;;
    csrf <-- udo RandCSRF ;;
    if csrf ==s "" then Ret tt else SetCSRFCookie csrf (7 * 24 * Hour) secure.

Definition issueRefreshToken (username : string) : uprog (option string) :=
  tok <-- udo RandToken ;;
  match tok with
  | None => Ret None
  | Some tok =>
      family <-- udo RandFamily ;;
      match family with
      | None => Ret None
      | Some family =>
          now <-- udo UNow ;;
          ok <-- udo (DBInsertToken (sha256_hex tok) (mkTokenRow username family (RFC3339 (now + refreshTokenLifetime)) None)) ;;
          Ret (if ok : bool then Some tok else None)
      end
  end.

(** A session for [username]: the access token, the refresh token when one
    could be kept, and the cookies. *)
Definition open_session (r : httpRequest) (username failed : string) (then_ : uprog unit) : uprog auth_answer :=
  let expiry := default (24 * Hour) (ParseDuration TokenExpiry) in
  token <-- sign_session username expiry ;;
  match token with
  | None => Ret (Fail 500 ErrTokenError failed)
  | Some token =>
      refresh <-- issueRefreshToken username ;;
      let refreshTok := default "" refresh in
      writeAuthCookies r refreshTok ;;;
      then_ ;;;
      Ret (OkSession token refreshTok (whole_seconds expiry))
  end.

Definition totp_text (t : option string) : string := default "" t.

(** The password's hash, the second factor's secret, and whether they are
    the cluster's. *)
Definition loadAdminAccount (username : string) : uprog (result auth_error (string * string * bool)) :=
  acct <-- udo (GetAccount username) ;;
  match acct with
  | Some a => Ret (Ok (ac_Password a, ac_TOTPSecret a, true))
  | None =>
      row <-- udo (DBAccount username) ;;
      Ret (match row with Ok (pw, totp) => Ok (pw, totp_text totp, false) | Err e => Err e end)
  end.

Definition syncAccountToCluster (username : string) : uprog unit :=
  here <-- udo HasManager ;;
  if here : bool then
    row <-- udo (DBAccount username) ;;
    match row with
    | Err _ => Ret tt
    | Ok (pw, totp) => udo (SetAccount (mkAdminAccount username pw (totp_text totp) 0)) ;;; Ret tt
    end
  else Ret tt.

(** The error of the write, if any.  The account's [UpdatedAt] is set by the
    cluster's manager. *)
Definition persistAdminAccount (username passwordHash totpSecret : string) (fromCluster : bool) : uprog (option auth_error) :=
  if fromCluster then
    here <-- udo HasManager ;;
    if here : bool then udo (SetAccount (mkAdminAccount username passwordHash totpSecret 0)) else Ret (Some OtherFailure)
  else
    ok <-- udo (DBUpdateAccount username passwordHash (if totpSecret ==s "" then None else Some totpSecret)) ;;
    if ok : bool then syncAccountToCluster username ;;; Ret None else Ret (Some OtherFailure).

Definition failClusterPersist (err : auth_error) : uprog auth_answer :=
  match err with
  | NotLeader =>
      leader <-- udo LeaderID ;;
      Ret (AuthFail 503 ErrInternalError
        (if leader ==s "" then Sprintf "Account changes for cluster admins must run on the leader node." []
         else Sprintf "Account changes for cluster admins must run on the leader node. Switch to node %s and retry." [FStr leader]))
  | _ => Ret (Fail 500 ErrDBError "Failed to persist account changes")
  end.

(** [keepHash] is given up where its row is not found. *)
Definition revokeOtherSessions (r : httpRequest) (username : string) : uprog unit :=
  sel <-- (match hq_RefreshCookie r with
           | None | Some "" => Ret (SelUser username)
           | Some cookie =>
               let keepHash := sha256_hex cookie in
               fid <-- udo (DBFamily keepHash username) ;;
               Ret (match fid with
                    | None => SelUser username
                    | Some fid => if fid ==s "" then SelOtherTokens username keepHash else SelOtherFamilies username fid
                    end)
           end) ;;
  udo (DBDeleteTokens sel) ;;; Ret tt.

(** A change of an account runs on the cluster's leader. *)
Definition on_leader (f : uprog auth_answer) : uprog auth_answer :=
  sent <-- udo ToLeader ;; match sent with Some a => Ret a | None => f end.

Definition user_or_refuse {A} (refused : A) (username : string) (f : uprog A) : uprog A :=
  if username ==s "" then Ret refused else f.

(** ** Recovery codes *)

Definition hashRecoveryCode (code : string) : string := sha256_hex (normalizeRecoveryCode code).

Fixpoint recovery_codes (n : nat) : uprog (option (list string)) :=
  match n with
  | O => Ret (Some [])
  | S n =>
      raw <-- udo RandCode ;;
      match raw with
      | None => Ret None
      | Some raw => rest <-- recovery_codes n ;; Ret (cons (recovery_text 0 raw) <$> rest)
      end
  end.
(** The codes, and their hashes. *)
Definition generateRecoveryCodes : uprog (option (list string * list string)) :=
  codes <-- recovery_codes recoveryCodeCount ;; Ret ((fun l => (l, map hashRecoveryCode l)) <$> codes).

Definition loadRecoveryCodes (username : string) : uprog (result auth_error (list string * bool)) :=
  acct <-- udo (GetAccount username) ;;
  match acct with
  | Some _ =>
      here <-- udo HasManager ;;
      if here : bool then hashes <-- udo (GetRecoveryCodes username) ;; Ret (Ok (hashes, true)) else Ret (Ok ([], true))
  | None =>
      raw <-- udo (DBRecovery username) ;;
      Ret (match raw with
           | Err e => Err e
           | Ok (Some raw) => Ok (if raw ==s "" then [] else unmarshal_hashes raw, false)
           | Ok None => Ok ([], false)
           end)
  end.

Definition persistRecoveryCodes (username : string) (hashes : list string) (fromCluster : bool) : uprog (option auth_error) :=
  if fromCluster then
    here <-- udo HasManager ;;
    if here : bool then udo (SetRecoveryCodes username hashes) else Ret (Some OtherFailure)
  else
    ok <-- udo (DBUpdateRecovery username (if (0 <? length hashes)%nat then Some (marshal_hashes hashes) else None)) ;;
    Ret (if ok : bool then None else Some OtherFailure).

Fixpoint index_of (l : list string) (s : string) : option nat :=
  match l with
  | [] => None
  | x :: l => if x ==s s then Some 0%nat else S <$> index_of l s
  end.

Definition consumeRecoveryCode (username code : string) : uprog (result auth_error bool) :=
  loaded <-- loadRecoveryCodes username ;;
  match loaded with
  | Err e => Ret (Err e)
  | Ok (hashes, fromCluster) =>
      match index_of hashes (hashRecoveryCode code) with
      | None => Ret (Ok false)
      | Some idx =>
          err <-- persistRecoveryCodes username (take idx hashes ++ drop (S idx) hashes) fromCluster ;;
          Ret (match err with Some e => Err e | None => Ok true end)
      end
  end.

Definition RegenerateRecoveryCodes (r : httpRequest) (username : string) : uprog auth_answer :=
  on_leader
    (user_or_refuse (Fail 401 ErrMissingToken "No authenticated user") username
      (acct <-- loadAdminAccount username ;;
       match acct with
       | Err NoRows => Ret (Fail 404 ErrUserNotFound "User not found")
       | Err _ => Ret (Fail 500 ErrDBError "Database error")
       | Ok (_, totpSecret, fromCluster) =>
           if totpSecret ==s "" then Ret (Fail 400 ErrInvalidRequest "Enable 2FA before generating recovery codes")
           else
             codes <-- generateRecoveryCodes ;;
             match codes with
             | None => Ret (Fail 500 ErrInternalError "Failed to generate codes")
             | Some (plaintext, hashes) =>
                 err <-- persistRecoveryCodes username hashes fromCluster ;;
                 match err with
                 | Some e => failClusterPersist e
                 | None =>
                     recordSecurityEvent r username "2fa_recovery_regenerate" "success" 200 ;;;
                     Ret (OkCodes plaintext)
                 end
             end
       end)).

Definition GetRecoveryStatus (username : string) : uprog auth_answer :=
  user_or_refuse (Fail 401 ErrMissingToken "No authenticated user") username
    (loaded <-- loadRecoveryCodes username ;;
     Ret (match loaded with
          | Ok (hashes, _) => OkRecovery (0 <? length hashes)%nat (length hashes)
          | Err NoRows => OkRecovery false 0
          | Err _ => Fail 500 ErrDBError "Database error"
          end)).

(** ** Signing in *)

(** The account as a sign-in reads it; [None]: answered already. *)
Definition login_account (username ip : string) : uprog (auth_answer + string * string) :=
  acct <-- udo (GetAccount username) ;;
  match acct with
  | Some a => Ret (inr (ac_Password a, ac_TOTPSecret a))
  | None =>
      row <-- udo (DBAccount username) ;;
      match row with
      | Err NoRows =>
          recordLoginEvent username ip 401 "unknown_user" ;;;
          Ret (inl (Fail 401 ErrInvalidCredentials "Invalid username or password"))
      | Err _ => Ret (inl (Fail 500 ErrDBError "Database error"))
      | Ok (pw, totp) => Ret (inr (pw, totp_text totp))
      end
  end.

(** The second factor; [None]: it is given. *)
Definition second_factor (req : loginRequest) (ip secret : string) : uprog (option auth_answer) :=
  if secret ==s "" then Ret None
  else if negb (lq_RecoveryCode req ==s "") then
    let refused := recordLoginEvent (lq_Username req) ip 401 "invalid_recovery" ;;;
                   Ret (Some (Fail 401 ErrInvalidTOTP "Invalid recovery code")) in
    if (64 <? String.length (lq_RecoveryCode req))%nat then refused
    else
      ok <-- consumeRecoveryCode (lq_Username req) (lq_RecoveryCode req) ;;
      match ok with
      | Err NotLeader => Ret (Some (Fail 503 ErrInternalError "Recovery login must be performed on the cluster leader node"))
      | Err _ => Ret (Some (Fail 500 ErrDBError "Recovery code check failed"))
      | Ok false => refused
      | Ok true => Ret None
      end
  else if lq_TOTPCode req ==s "" then Ret (Some (Fail 400 ErrTOTPRequired "2FA code is required"))
  else
    ok <-- ValidateCode secret (lq_TOTPCode req) ;;
    if ok : bool then Ret None
    else
      recordLoginEvent (lq_Username req) ip 401 "invalid_totp" ;;;
      Ret (Some (Fail 401 ErrInvalidTOTP "Invalid 2FA code")).

Definition Login (r : httpRequest) (body : option loginRequest) : uprog auth_answer :=
  let ip := hq_RealIP r in
  match body with
  | None => Ret (Fail 400 ErrInvalidRequest "Invalid request body")
  | Some req =>
      if (lq_Username req ==s "") || (lq_Password req ==s "") then
        Ret (Fail 400 ErrMissingFields "Username and password are required")
      else if negb (validCredentialBounds (lq_Username req) (lq_Password req) (lq_TOTPCode req)) then
        Ret (Fail 400 ErrInvalidRequest "Credential field exceeds bounds")
      else
        blocked <-- udo (LimitAttempt ip) ;;
        if blocked : bool then Ret (Fail 429 ErrRateLimited "Too many login attempts. Try again later.")
        else
          acct <-- login_account (lq_Username req) ip ;;
          match acct with
          | inl a => Ret a
          | inr (passwordHash, totpSecret) =>
              if negb (CheckPassword (lq_Password req) passwordHash) then
                recordLoginEvent (lq_Username req) ip 401 "invalid_password" ;;;
                Ret (Fail 401 ErrInvalidCredentials "Invalid username or password")
              else
                refused <-- second_factor req ip totpSecret ;;
                match refused with
                | Some a => Ret a
                | None =>
                    open_session r (lq_Username req) "Failed to generate token"
                      (udo (LimitClear ip) ;;; recordLoginEvent (lq_Username req) ip 200 "success")
                end
          end
  end.

Definition Logout (r : httpRequest) : uprog auth_answer :=
  (match hq_RefreshCookie r with
   | None | Some "" => Ret tt
   | Some cookie => udo (DBDeleteTokens (SelToken (sha256_hex cookie))) ;;; Ret tt
   end) ;;;
  ClearAuthCookies (IsSecureRequest r) ;;;
  Ret (OkMessage "logged out").

(** A step-up: the operator's password again; the refusal, if any. *)
Definition VerifyStepUp (r : httpRequest) (username password : string) : uprog (option (Z * string * string)) :=
  let refused := Some (403, ErrInvalidCredentials, "Re-authentication required for advanced install") in
  user_or_refuse refused username
    (if password ==s "" then Ret (Some (400, ErrMissingFields, "Password is required for advanced install"))
     else
       blocked <-- udo (LimitAttempt (hq_RealIP r)) ;;
       if blocked : bool then Ret (Some (429, ErrRateLimited, "Too many attempts, try again later"))
       else
         acct <-- loadAdminAccount username ;;
         match acct with
         | Err _ => Ret refused
         | Ok (hash, _, _) =>
             if negb (CheckPassword password hash) then Ret (Some (403, ErrInvalidPassword, "Incorrect password"))
             else udo (LimitClear (hq_RealIP r)) ;;; Ret None
         end).

(** ** First-run setup *)

Definition isLoopbackOrPrivate (ip : string) : bool :=
  match ParseIP ip with
  | None => false
  | Some ip => IsLoopback ip || IsPrivate ip || IsLinkLocalUnicast ip
  end.

Definition clusterHasAdmin : uprog bool :=
  here <-- udo HasManager ;;
  if here : bool then n <-- udo AccountCount ;; Ret (0 <? n)%nat else Ret false.

Definition GetSetupStatus (r : httpRequest) : uprog auth_answer :=
  let allowed := isLoopbackOrPrivate (hq_RealIP r) in
  has <-- clusterHasAdmin ;;
  if has : bool then Ret (OkSetupStatus false allowed)
  else
    count <-- udo DBAdmins ;;
    Ret (match count with
         | None => Fail 500 ErrDBError "Database error"
         | Some count => OkSetupStatus (count =? 0)%nat allowed
         end).

(** The transaction that makes the first admin; [None]: made. *)
Definition insert_admin (username hash : string) : uprog (option auth_answer) :=
  let failed := Some (Fail 500 ErrDBError "Failed to create admin account") in
  began <-- udo TxBegin ;;
  if began : bool then
    done_ <-- (count <-- udo TxAdmins ;;
               match count with
               | None => Ret (Some (Fail 500 ErrDBError "Database error"))
               | Some count =>
                   if (0 <? count)%nat then Ret (Some (Fail 409 ErrAlreadySetup "Admin account already exists"))
                   else
                     ok <-- udo (TxInsertAdmin username hash) ;;
                     if ok : bool then
                       ok <-- udo TxCommit ;; Ret (if ok : bool then None else failed)
                     else Ret failed
               end) ;;
    match done_ with
    | Some a => udo TxRollback ;;; Ret (Some a)
    | None => Ret None
    end
  else Ret (Some (Fail 500 ErrDBError "Database error")).

Definition SetupAdmin (r : httpRequest) (body : option setupAdminRequest) : uprog auth_answer :=
  let ip := hq_RealIP r in
  if negb (isLoopbackOrPrivate ip) then
    Ret (Fail 403 ErrPermissionDenied "First-run setup is restricted to local/private networks. Connect from the LAN or over an SSH tunnel (http://127.0.0.1).")
  else
    limited <-- udo (SetupAttempt ip) ;;
    if limited : bool then Ret (Fail 429 ErrRateLimited "Too many setup attempts. Try again later.")
    else
      match body with
      | None => Ret (Fail 400 ErrInvalidRequest "Invalid request body")
      | Some req =>
          if (sq_Username req ==s "") || (sq_Password req ==s "") then
            Ret (Fail 400 ErrMissingFields "Username and password are required")
          else if negb (validCredentialBounds (sq_Username req) (sq_Password req) "") then
            Ret (Fail 400 ErrInvalidRequest "Username or password exceeds bounds")
          else
            match validatePassword (sq_Password req) with
            | Some msg => Ret (Fail 400 ErrWeakPassword msg)
            | None =>
                has <-- clusterHasAdmin ;;
                if has : bool then
                  Ret (Fail 409 ErrAlreadySetup "Cluster admin already configured; this node cannot bootstrap a separate admin")
                else
                  hash <-- udo (HashPassword (sq_Password req)) ;;
                  match hash with
                  | None => Ret (Fail 500 ErrHashError "Failed to hash password")
                  | Some hash =>
                      failed <-- insert_admin (sq_Username req) hash ;;
                      match failed with
                      | Some a => Ret a
                      | None =>
                          syncAccountToCluster (sq_Username req) ;;;
                          open_session r (sq_Username req) "Admin created but failed to generate token" (Ret tt)
                      end
                  end
            end
      end.

(** ** The password and the second factor of an account *)

Definition Setup2FA (r : httpRequest) (username : string) : uprog auth_answer :=
  user_or_refuse (Fail 401 ErrNoUser "No authenticated user") username
    (key <-- udo (RandSecret username) ;;
     match key with
     | None => Ret (Fail 500 ErrTOTPError "Failed to generate 2FA secret")
     | Some (secret, url) => recordSecurityEvent r username "2fa_setup" "success" 200 ;;; Ret (OkSecret secret url)
     end).

Definition Get2FAStatus (username : string) : uprog auth_answer :=
  user_or_refuse (Fail 401 ErrNoUser "No authenticated user") username
    (acct <-- loadAdminAccount username ;;
     Ret (match acct with
          | Err NoRows => OkEnabled false
          | Err _ => Fail 500 ErrDBError "Database error"
          | Ok (_, totpSecret, _) => OkEnabled (negb (totpSecret ==s ""))
          end)).

Definition Verify2FA (r : httpRequest) (username : string) (body : option verify2FARequest) : uprog auth_answer :=
  on_leader
    (user_or_refuse (Fail 401 ErrNoUser "No authenticated user") username
      (match body with
       | None => Ret (Fail 400 ErrInvalidRequest "Invalid request body")
       | Some req =>
           if (vq_Secret req ==s "") || (vq_Code req ==s "") then Ret (Fail 400 ErrMissingFields "Secret and code are required")
           else
             ok <-- ValidateCode (vq_Secret req) (vq_Code req) ;;
             if negb ok then
               recordSecurityEvent r username "2fa_verify" "invalid_code" 400 ;;;
               Ret (Fail 400 ErrInvalidTOTP "Invalid 2FA code")
             else
               acct <-- loadAdminAccount username ;;
               match acct with
               | Err NoRows =>
                   recordSecurityEvent r username "2fa_verify" "user_not_found" 404 ;;;
                   Ret (Fail 404 ErrUserNotFound "User not found")
               | Err _ => Ret (Fail 500 ErrDBError "Database error")
               | Ok (passwordHash, _, fromCluster) =>
                   err <-- persistAdminAccount username passwordHash (vq_Secret req) fromCluster ;;
                   match err with
                   | Some e => failClusterPersist e
                   | None =>
                       revokeOtherSessions r username ;;;
                       recordSecurityEvent r username "2fa_verify" "success" 200 ;;;
                       Ret (OkMessage "2FA enabled successfully")
                   end
               end
       end)).

(** The code that goes with an active second factor; the refusal, if any. *)
Definition current_code (r : httpRequest) (username totpSecret code : string) : uprog (option auth_answer) :=
  if totpSecret ==s "" then Ret None
  else if code ==s "" then
    recordSecurityEvent r username "2fa_disable" "totp_required" 400 ;;;
    Ret (Some (Fail 400 ErrTOTPRequired "Current 2FA code is required to disable 2FA"))
  else
    ok <-- ValidateCode totpSecret code ;;
    if ok : bool then Ret None
    else
      recordSecurityEvent r username "2fa_disable" "invalid_totp" 401 ;;;
      Ret (Some (Fail 401 ErrInvalidTOTP "Invalid 2FA code")).

Definition too_many : auth_answer := Fail 429 ErrRateLimited "Too many attempts, try again later".

Definition Disable2FA (r : httpRequest) (username : string) (body : option disable2FARequest) : uprog auth_answer :=
  on_leader
    (blocked <-- udo (LimitAttempt (hq_RealIP r)) ;;
     if blocked : bool then Ret too_many
     else
       user_or_refuse (Fail 401 ErrNoUser "No authenticated user") username
         (match body with
          | None => Ret (Fail 400 ErrInvalidRequest "Invalid request body")
          | Some req =>
              if dq_Password req ==s "" then Ret (Fail 400 ErrMissingFields "Password is required")
              else
                acct <-- loadAdminAccount username ;;
                match acct with
                | Err NoRows => Ret (Fail 404 ErrUserNotFound "User not found")
                | Err _ => Ret (Fail 500 ErrDBError "Database error")
                | Ok (passwordHash, totpSecret, fromCluster) =>
                    if negb (CheckPassword (dq_Password req) passwordHash) then
                      recordSecurityEvent r username "2fa_disable" "invalid_password" 401 ;;;
                      Ret (Fail 401 ErrInvalidPassword "Invalid password")
                    else
                      refused <-- current_code r username totpSecret (dq_TOTPCode req) ;;
                      match refused with
                      | Some a => Ret a
                      | None =>
                          err <-- persistAdminAccount username passwordHash "" fromCluster ;;
                          match err with
                          | Some e => failClusterPersist e
                          | None =>
                              persistRecoveryCodes username [] fromCluster ;;;
                              revokeOtherSessions r username ;;;
                              udo (LimitClear (hq_RealIP r)) ;;;
                              recordSecurityEvent r username "2fa_disable" "success" 200 ;;;
                              Ret (OkMessage "2FA disabled successfully")
                          end
                      end
                end
          end)).

Definition ChangePassword (r : httpRequest) (username : string) (body : option changePasswordRequest) : uprog auth_answer :=
  on_leader
    (blocked <-- udo (LimitAttempt (hq_RealIP r)) ;;
     if blocked : bool then Ret too_many
     else
       match body with
       | None => Ret (Fail 400 ErrInvalidRequest "Invalid request body")
       | Some req =>
           if (cq_CurrentPassword req ==s "") || (cq_NewPassword req ==s "") then
             Ret (Fail 400 ErrMissingFields "Current password and new password are required")
           else
             match validatePassword (cq_NewPassword req) with
             | Some msg => Ret (Fail 400 ErrWeakPassword msg)
             | None =>
                 user_or_refuse (Fail 401 ErrNoUser "No authenticated user") username
                   (acct <-- loadAdminAccount username ;;
                    match acct with
                    | Err NoRows => Ret (Fail 404 ErrUserNotFound "User not found")
                    | Err _ => Ret (Fail 500 ErrDBError "Database error")
                    | Ok (passwordHash, totpSecret, fromCluster) =>
                        if negb (CheckPassword (cq_CurrentPassword req) passwordHash) then
                          recordSecurityEvent r username "password_change" "invalid_password" 401 ;;;
                          Ret (Fail 401 ErrInvalidPassword "Current password is incorrect")
                        else
                          newHash <-- udo (HashPassword (cq_NewPassword req)) ;;
                          match newHash with
                          | None => Ret (Fail 500 ErrHashError "Failed to hash new password")
                          | Some newHash =>
                              err <-- persistAdminAccount username newHash totpSecret fromCluster ;;
                              match err with
                              | Some e => failClusterPersist e
                              | None =>
                                  revokeOtherSessions r username ;;;
                                  udo (LimitClear (hq_RealIP r)) ;;;
                                  recordSecurityEvent r username "password_change" "success" 200 ;;;
                                  Ret (OkMessage "Password changed successfully")
                              end
                          end
                    end)
             end
       end).

(** ** Refreshing a session *)

Definition tokenExpiry : Duration :=
  if TokenExpiry ==s "" then 24 * Hour
  else match ParseDuration TokenExpiry with Some d => if d <=? 0 then 24 * Hour else d | None => 24 * Hour end.

(** A token that is refused for good: its row goes, whether that is kept or
    not. *)
Definition drop_token (hash text : string) : uprog auth_answer :=
  udo (TxDeleteTokens (SelToken hash)) ;;; udo TxCommit ;;; Ret (Fail 401 ErrInvalidToken text).

(** A token used again: its family's rows go. *)
Definition reused (row : tokenRow) : uprog auth_answer :=
  udo (TxDeleteTokens (if negb (tr_family row ==s "") then SelFamily (tr_family row) else SelUser (tr_username row))) ;;;
  ok <-- udo TxCommit ;;
  Ret (if ok : bool then Fail 401 ErrInvalidToken "Session revoked" else Fail 500 ErrDBError "Database error").

(** Whether the user is there still. *)
Definition user_exists (username : string) : uprog bool :=
  acct <-- udo (GetAccount username) ;;
  match acct with
  | Some _ => Ret true
  | None => count <-- udo (TxAdminNamed username) ;; Ret (match count with Some (S _) => true | _ => false end)
  end.

Definition own_family (family : string) : uprog (option string) :=
  if family ==s "" then udo RandFamily else Ret (Some family).

(** The next token of the family, in place of this one. *)
Definition rotate (r : httpRequest) (hash : string) (row : tokenRow) (family : string) : uprog auth_answer :=
  let db_error := Fail 500 ErrDBError "Database error" in
  access <-- sign_session (tr_username row) tokenExpiry ;;
  match access with
  | None => Ret (Fail 500 ErrInternalError "Failed to issue access token")
  | Some access =>
      now <-- udo UNow ;;
      ok <-- udo (TxConsume hash (RFC3339 now)) ;;
      if negb ok then Ret db_error
      else
        tok <-- udo RandToken ;;
        match tok with
        | None => Ret (Fail 500 ErrInternalError "rand failed")
        | Some tok =>
            now <-- udo UNow ;;
            ok <-- udo (TxInsertToken (sha256_hex tok) (mkTokenRow (tr_username row) family (RFC3339 (now + refreshTokenLifetime)) None)) ;;
            if negb ok then Ret db_error
            else
              ok <-- udo TxCommit ;;
              if negb ok then Ret db_error
              else
                writeAuthCookies r tok ;;;
                Ret (OkSession access tok (whole_seconds tokenExpiry))
        end
  end.

Definition refresh_tx (r : httpRequest) (hash : string) : uprog auth_answer :=
  row <-- udo (TxToken hash) ;;
  match row with
  | Err NoRows => Ret (Fail 401 ErrInvalidToken "Invalid refresh token")
  | Err _ => Ret (Fail 500 ErrDBError "Database error")
  | Ok row =>
      match tr_consumed row with
      | Some _ => reused row
      | None =>
          (* the clock is read only where the expiry could be *)
          expired <-- (match parse_RFC3339 (tr_expires row) with
                       | None => Ret true
                       | Some expires => now <-- udo UNow ;; Ret (expires <? now)
                       end) ;;
          if expired : bool then drop_token hash "Refresh token expired"
          else
            there <-- user_exists (tr_username row) ;;
            if negb there then drop_token hash "User no longer exists"
            else
              family <-- own_family (tr_family row) ;;
              match family with
              | None => Ret (Fail 500 ErrInternalError "rand failed")
              | Some family => rotate r hash row family
              end
      end
  end.

(** [body]: the token of a client without the cookie. *)
Definition Refresh (r : httpRequest) (body : option string) : uprog auth_answer :=
  let raw := match hq_RefreshCookie r with None | Some "" => default "" body | Some cookie => cookie end in
  if raw ==s "" then Ret (Fail 400 ErrInvalidRequest "Missing refresh_token")
  else
    udo RefreshLock ;;;
    began <-- udo TxBegin ;;
    a <-- (if began : bool then a <-- refresh_tx r (sha256_hex raw) ;; udo TxRollback ;;; Ret a
           else Ret (Fail 500 ErrDBError "Database error")) ;;
    udo RefreshUnlock ;;;
    Ret a.

Definition pruneRefreshTokens : uprog unit :=
  cutoff <-- udo UNow ;;
  udo (DBDeleteTokens (SelStale (RFC3339 cutoff) (RFC3339 (cutoff - 24 * Hour)))) ;;; Ret tt.

(** Whether every session's refresh token went. *)
Definition EndSessions : uprog bool :=
  udo RefreshLock ;;;
  ok <-- udo (DBDeleteTokens SelAll) ;;
  udo SwapKey ;;;
  udo ClearTickets ;;;
  udo RefreshUnlock ;;;
  Ret ok.

Definition MintWSTicket (username : string) : uprog auth_answer :=
  user_or_refuse (Fail 401 ErrMissingToken "no username in context") username
    (ticket <-- udo (MintTicket username) ;;
     Ret (if ticket ==s "" then Fail 500 ErrInternalError "Failed to issue ticket" else OkTicket ticket)).
End Auth.
