(* ===== verification/AuthHost.v ===== *)
(** * The sign-in's goroutines over one panel

    Every request of /auth, the retention of refresh tokens and the end of all
    sessions, one call of one of them at a time, over the panel's database
    (SQLite, internal/db/sqlite.go) and its memory.  A transaction reads what
    the database held at its first statement; one that wrote commits only onto
    that same database. *)

From S2P Require Import Prelude GoStrings ApiCodes GoTime ClusterFSM Interact AuthGuards AuthApi.

#[local] Open Scope prog_scope.

(** ** The database *)

Record adminRow : Type := mkAdminRow { ad_password : string; ad_totp : option string; ad_recovery : option string }.
Record auth_db : Type := mkAuthDB { db_admins : gmap string adminRow; db_tokens : gmap string tokenRow }.

Definition set_tokens (m : gmap string tokenRow) (d : auth_db) : auth_db := mkAuthDB (db_admins d) m.
Definition set_admins (m : gmap string adminRow) (d : auth_db) : auth_db := mkAuthDB m (db_tokens d).

Definition selects (sel : tokenSel) (hash : string) (row : tokenRow) : bool :=
  match sel with
  | SelToken h => hash ==s h
  | SelFamily f => tr_family row ==s f
  | SelUser u => tr_username row ==s u
  | SelOtherFamilies u f => (tr_username row ==s u) && negb (tr_family row ==s f)
  | SelOtherTokens u h => (tr_username row ==s u) && negb (hash ==s h)
  | SelAll => true
  | SelStale cutoff old =>
      str_ltb (tr_expires row) cutoff || match tr_consumed row with Some at_ => str_ltb at_ old | None => false end
  end.
Definition delete_tokens (sel : tokenSel) (d : auth_db) : auth_db :=
  set_tokens (filter (fun kr => selects sel kr.1 kr.2 = false) (db_tokens d)) d.
Definition consume (at_ : string) (row : tokenRow) : tokenRow :=
  mkTokenRow (tr_username row) (tr_family row) (tr_expires row) (Some at_).

(** What a transaction writes. *)
Inductive tx_op : Type :=
| OpDelete (sel : tokenSel)
| OpConsume (hash at_ : string)
| OpInsert (hash : string) (row : tokenRow)
| OpAdmin (username password : string).
Definition apply_op (op : tx_op) (d : auth_db) : auth_db :=
  match op with
  | OpDelete sel => delete_tokens sel d
  | OpConsume hash at_ => set_tokens (alter (consume at_) hash (db_tokens d)) d
  | OpInsert hash row => set_tokens (<[hash := row]> (db_tokens d)) d
  | OpAdmin u pw => set_admins (<[u := mkAdminRow pw None None]> (db_admins d)) d
  end.
Definition apply_ops (ops : list tx_op) (d : auth_db) : auth_db := fold_left (fun d op => apply_op op d) ops d.

(** A transaction: what it reads, once it has read, and what it wrote. *)
Record tx : Type := mkTx { tx_base : option auth_db; tx_ops : list tx_op }.
Definition tx_read (d : auth_db) (t : tx) : auth_db := default d (tx_base t).
Definition tx_view (d : auth_db) (t : tx) : auth_db := apply_ops (tx_ops t) (tx_read d t).
Definition tx_touch (d : auth_db) (t : tx) : tx := mkTx (Some (tx_read d t)) (tx_ops t).
Definition tx_write (d : auth_db) (op : tx_op) (t : tx) : tx := mkTx (Some (tx_read d t)) (tx_ops t ++ [op]).

(** ** The panel *)

(** A code as it is checked: its secret, itself and its period. *)
Notation code_use := (string * string * Z)%type.
Definition use_key (u : code_use) : string := used_key u.1.1 u.1.2 u.2.

Record panel : Type := mkPanel {
  pn_db : auth_db;
  pn_txs : gmap nat tx;
  pn_now : Time;
  pn_attempts : login_limit;
  pn_setups : gmap string (list Time);
  pn_used : gmap string Z;
  pn_tickets : gmap string wsTicketEntry;
  pn_lock : option nat;                      (* who holds refreshMu *)
  (* what was ever done: who drew which token and family, the families a
     session was opened with and for whom, the tokens rotated away, the admins
     set up, each with how often the accounts had been forgotten by then, and
     how often they have been; and since the start, the codes under check and
     those accepted *)
  pn_drawn : gmap string nat;
  pn_drawn_families : gmap string nat;
  pn_issued : gmap string string;
  pn_spent : list string;
  pn_made : list (nat * string);
  pn_forgotten : nat;
  pn_checking : gmap nat code_use;
  pn_accepted : list code_use;
}.

Definition set_db (d : auth_db) (s : panel) : panel :=
  mkPanel d (pn_txs s) (pn_now s) (pn_attempts s) (pn_setups s) (pn_used s) (pn_tickets s) (pn_lock s)
    (pn_drawn s) (pn_drawn_families s) (pn_issued s) (pn_spent s) (pn_made s) (pn_forgotten s) (pn_checking s) (pn_accepted s).
Definition set_txs (m : gmap nat tx) (s : panel) : panel :=
  mkPanel (pn_db s) m (pn_now s) (pn_attempts s) (pn_setups s) (pn_used s) (pn_tickets s) (pn_lock s)
    (pn_drawn s) (pn_drawn_families s) (pn_issued s) (pn_spent s) (pn_made s) (pn_forgotten s) (pn_checking s) (pn_accepted s).
Definition set_now (t : Time) (s : panel) : panel :=
  mkPanel (pn_db s) (pn_txs s) t (pn_attempts s) (pn_setups s) (pn_used s) (pn_tickets s) (pn_lock s)
    (pn_drawn s) (pn_drawn_families s) (pn_issued s) (pn_spent s) (pn_made s) (pn_forgotten s) (pn_checking s) (pn_accepted s).
Definition set_limits (a : login_limit) (m : gmap string (list Time)) (s : panel) : panel :=
  mkPanel (pn_db s) (pn_txs s) (pn_now s) a m (pn_used s) (pn_tickets s) (pn_lock s)
    (pn_drawn s) (pn_drawn_families s) (pn_issued s) (pn_spent s) (pn_made s) (pn_forgotten s) (pn_checking s) (pn_accepted s).
Definition set_codes (used : gmap string Z) (checking : gmap nat code_use) (accepted : list code_use) (s : panel) : panel :=
  mkPanel (pn_db s) (pn_txs s) (pn_now s) (pn_attempts s) (pn_setups s) used (pn_tickets s) (pn_lock s)
    (pn_drawn s) (pn_drawn_families s) (pn_issued s) (pn_spent s) (pn_made s) (pn_forgotten s) checking accepted.
Definition set_tickets (m : gmap string wsTicketEntry) (s : panel) : panel :=
  mkPanel (pn_db s) (pn_txs s) (pn_now s) (pn_attempts s) (pn_setups s) (pn_used s) m (pn_lock s)
    (pn_drawn s) (pn_drawn_families s) (pn_issued s) (pn_spent s) (pn_made s) (pn_forgotten s) (pn_checking s) (pn_accepted s).
Definition set_lock (l : option nat) (s : panel) : panel :=
  mkPanel (pn_db s) (pn_txs s) (pn_now s) (pn_attempts s) (pn_setups s) (pn_used s) (pn_tickets s) l
    (pn_drawn s) (pn_drawn_families s) (pn_issued s) (pn_spent s) (pn_made s) (pn_forgotten s) (pn_checking s) (pn_accepted s).
Definition set_drawn (tokens families : gmap string nat) (s : panel) : panel :=
  mkPanel (pn_db s) (pn_txs s) (pn_now s) (pn_attempts s) (pn_setups s) (pn_used s) (pn_tickets s) (pn_lock s)
    tokens families (pn_issued s) (pn_spent s) (pn_made s) (pn_forgotten s) (pn_checking s) (pn_accepted s).
Definition set_past (issued : gmap string string) (spent : list string) (made : list (nat * string)) (s : panel) : panel :=
  mkPanel (pn_db s) (pn_txs s) (pn_now s) (pn_attempts s) (pn_setups s) (pn_used s) (pn_tickets s) (pn_lock s)
    (pn_drawn s) (pn_drawn_families s) issued spent made (pn_forgotten s) (pn_checking s) (pn_accepted s).

(** What a write to the database adds to what was ever done. *)
Definition note_op (op : tx_op) (s : panel) : panel :=
  match op with
  | OpDelete _ => s
  | OpConsume hash _ => set_past (pn_issued s) (hash :: pn_spent s) (pn_made s) s
  | OpInsert _ row => set_past (<[tr_family row := tr_username row]> (pn_issued s)) (pn_spent s) (pn_made s) s
  | OpAdmin u _ => set_past (pn_issued s) (pn_spent s) ((pn_forgotten s, u) :: pn_made s) s
  end.
Definition write_db (ops : list tx_op) (s : panel) : panel :=
  fold_left (fun s op => note_op op (set_db (apply_op op (pn_db s)) s)) ops s.

(** A statement of goroutine [i]'s transaction; none is open: nothing. *)
Definition in_tx {A} (s : panel) (i : nat) (none : A) (x : A) (s' : panel) (run : tx -> Prop) : Prop :=
  match pn_txs s !! i with
  | None => x = none /\ s' = s
  | Some t => run t
  end.
(** A read of it, and a write: a read that fails read nothing, and a write
    that fails wrote nothing. *)
Definition tx_reads {A} (s : panel) (i : nat) (failed x : A) (s' : panel) (answer : auth_db -> A) : Prop :=
  in_tx s i failed x s' (fun t =>
    x = answer (tx_view (pn_db s) t) /\ s' = set_txs (<[i := tx_touch (pn_db s) t]> (pn_txs s)) s \/
    x = failed /\ s' = s).
Definition tx_writes (s : panel) (i : nat) (op : tx_op) (fits : auth_db -> Prop) (x : bool) (s' : panel) : Prop :=
  in_tx s i false x s' (fun t =>
    x = true /\ fits (tx_view (pn_db s) t) /\ s' = set_txs (<[i := tx_write (pn_db s) op t]> (pn_txs s)) s \/
    x = false /\ s' = s).

(** A statement of its own: done, or failed and perhaps done. *)
Definition db_writes (s : panel) (ops : list tx_op) (fits : Prop) (x : bool) (s' : panel) : Prop :=
  fits /\ s' = write_db ops s \/ x = false /\ s' = s.

Section Host.
Variable sha256_hex : string -> string.
Variable CheckPassword : string -> string -> bool.
Variable marshal_hashes : list string -> string.
Variable unmarshal_hashes : string -> list string.
Variable RFC3339 : Time -> string.
Variable parse_RFC3339 : string -> option Time.
Variable ParseIP : string -> option IP.
Variable TokenExpiry : string.

(** What goroutine [i]'s call does to the panel, with its answer.  What is
    drawn at random was never drawn before. *)
Definition panel_step (s : panel) (i : nat) (c : ucall) : uanswer c -> panel -> Prop :=
  match c return uanswer c -> panel -> Prop with
  | UNow => fun x s' => x = pn_now s /\ s' = s
  | LimitAttempt ip => fun x s' =>
      let '(said, l) := limit_step (pn_now s) (Attempt ip) (pn_attempts s) in
      said = Some (ip, x) /\ s' = set_limits l (pn_setups s) s
  | LimitClear ip => fun _ s' => s' = set_limits (limit_step (pn_now s) (ClearAttempts ip) (pn_attempts s)).2 (pn_setups s) s
  | SetupAttempt ip => fun x s' =>
      let '(limited, m) := setup_attempt (pn_now s) ip (pn_setups s) in x = limited /\ s' = set_limits (pn_attempts s) m s
  | ReserveCode secret code => fun x s' =>
      let '(key, used) := reserve_code (pn_now s) secret code (pn_used s) in
      x = key /\
      s' = set_codes used
             (match key with
              | Some _ => <[i := (secret, code, Z.quot (Unix (pn_now s)) totpPeriod)]> (pn_checking s)
              | None => pn_checking s
              end) (pn_accepted s) s
  | CheckCode _ _ => fun x s' =>
      s' = match x : bool, pn_checking s !! i with
           | true, Some u => set_codes (pn_used s) (delete i (pn_checking s)) (u :: pn_accepted s) s
           | _, _ => s
           end
  | ReleaseCode key => fun _ s' => s' = set_codes (delete key (pn_used s)) (delete i (pn_checking s)) (pn_accepted s) s
  | MintTicket username => fun x s' =>
      exists ticket, let '(t, m) := AuthGuards.MintWSTicket ticket username (pn_now s) (pn_tickets s) in x = t /\ s' = set_tickets m s
  | ClearTickets => fun _ s' => s' = set_tickets (ClearWSTickets (pn_tickets s)) s
  | RefreshLock => fun _ s' => pn_lock s = None /\ s' = set_lock (Some i) s
  | RefreshUnlock => fun _ s' => s' = set_lock None s
  | RandToken => fun x s' =>
      match x with
      | None => s' = s
      | Some tok => sha256_hex tok ∉ dom (pn_drawn s) /\ s' = set_drawn (<[sha256_hex tok := i]> (pn_drawn s)) (pn_drawn_families s) s
      end
  | RandFamily => fun x s' =>
      match x with
      | None => s' = s
      | Some f => f ∉ dom (pn_drawn_families s) /\ f <> "" /\ s' = set_drawn (pn_drawn s) (<[f := i]> (pn_drawn_families s)) s
      end
  | DBAccount u => fun x s' =>
      s' = s /\ (x = Err OtherFailure \/
                 x = match db_admins (pn_db s) !! u with Some a => Ok (ad_password a, ad_totp a) | None => Err NoRows end)
  | DBRecovery u => fun x s' =>
      s' = s /\ (x = Err OtherFailure \/ x = match db_admins (pn_db s) !! u with Some a => Ok (ad_recovery a) | None => Err NoRows end)
  | DBAdmins => fun x s' => s' = s /\ (x = None \/ x = Some (size (db_admins (pn_db s))))
  | DBFamily hash u => fun x s' =>
      s' = s /\ (x = None \/ exists row, db_tokens (pn_db s) !! hash = Some row /\ tr_username row = u /\ x = Some (tr_family row))
  | DBUpdateAccount u pw totp => fun x s' =>
      s' = set_db (set_admins (alter (fun a => mkAdminRow pw totp (ad_recovery a)) u (db_admins (pn_db s))) (pn_db s)) s \/ x = false /\ s' = s
  | DBUpdateRecovery u codes => fun x s' =>
      s' = set_db (set_admins (alter (fun a => mkAdminRow (ad_password a) (ad_totp a) codes) u (db_admins (pn_db s))) (pn_db s)) s \/
      x = false /\ s' = s
  | DBInsertToken hash row => db_writes s [OpInsert hash row] (db_tokens (pn_db s) !! hash = None)
  | DBDeleteTokens sel => db_writes s [OpDelete sel] True
  | TxBegin => fun x s' => x = true /\ s' = set_txs (<[i := mkTx None []]> (pn_txs s)) s \/ x = false /\ s' = s
  | TxToken hash => fun x s' =>
      tx_reads s i (Err OtherFailure) x s' (fun d => match db_tokens d !! hash with Some row => Ok row | None => Err NoRows end)
  | TxAdminNamed u => fun x s' =>
      tx_reads s i None x s' (fun d => Some (match db_admins d !! u with Some _ => 1%nat | None => 0%nat end))
  | TxAdmins => fun x s' => tx_reads s i None x s' (fun d => Some (size (db_admins d)))
  | TxDeleteTokens sel => tx_writes s i (OpDelete sel) (fun _ => True)
  | TxConsume hash at_ => tx_writes s i (OpConsume hash at_) (fun _ => True)
  | TxInsertToken hash row => tx_writes s i (OpInsert hash row) (fun d => db_tokens d !! hash = None)
  | TxInsertAdmin u pw => tx_writes s i (OpAdmin u pw) (fun d => db_admins d !! u = None)
  | TxCommit => fun x s' =>
      let closed := set_txs (delete i (pn_txs s)) s in
      in_tx s i false x s' (fun t =>
        x = true /\ (tx_ops t = [] \/ tx_base t = Some (pn_db s)) /\ s' = write_db (tx_ops t) closed \/
        x = false /\ s' = closed)
  | TxRollback => fun _ s' => s' = set_txs (delete i (pn_txs s)) s
  | _ => fun _ s' => s' = s
  end.

(** The goroutines that start on a panel. *)
Inductive auth_request : uprog unit -> Prop :=
| req_login r body : auth_request (Login sha256_hex CheckPassword marshal_hashes unmarshal_hashes RFC3339 TokenExpiry r body ;;; Ret tt)
| req_logout r : auth_request (Logout sha256_hex r ;;; Ret tt)
| req_refresh r body : auth_request (Refresh sha256_hex RFC3339 parse_RFC3339 TokenExpiry r body ;;; Ret tt)
| req_setup r body : auth_request (SetupAdmin sha256_hex RFC3339 ParseIP TokenExpiry r body ;;; Ret tt)
| req_setup_status r : auth_request (GetSetupStatus ParseIP r ;;; Ret tt)
| req_setup_2fa r u : auth_request (Setup2FA r u ;;; Ret tt)
| req_verify_2fa r u body : auth_request (Verify2FA sha256_hex r u body ;;; Ret tt)
| req_disable_2fa r u body : auth_request (Disable2FA sha256_hex CheckPassword marshal_hashes r u body ;;; Ret tt)
| req_2fa_status u : auth_request (Get2FAStatus u ;;; Ret tt)
| req_password r u body : auth_request (ChangePassword sha256_hex CheckPassword r u body ;;; Ret tt)
| req_step_up r u pw : auth_request (VerifyStepUp CheckPassword r u pw ;;; Ret tt)
| req_codes r u : auth_request (RegenerateRecoveryCodes sha256_hex marshal_hashes r u ;;; Ret tt)
| req_codes_status u : auth_request (GetRecoveryStatus unmarshal_hashes u ;;; Ret tt)
| req_ticket u : auth_request (MintWSTicket u ;;; Ret tt)
| req_prune : auth_request (pruneRefreshTokens RFC3339)
| req_end_sessions : auth_request (EndSessions ;;; Ret tt).

(** The steps of the limit's pruner. *)
Definition prunes (op : limit_op) : Prop := match op with PruneBegin | PruneJudge _ | PruneDrop => True | _ => False end.

Record auth_host : Type := mkAuthHost { uh_panel : panel; uh_pool : list (uprog unit) }.

(** A join and the end of a membership (internal/cluster/join.go, convert.go,
    feature/cluster/handler.go) write the one account of the node over with the
    cluster's, and insert it where there is none. *)
Definition adopts (m m' : gmap string adminRow) : Prop :=
  exists u row, m' = <[u := row]> m /\ m = ∅ \/
    exists old a, m !! old = Some a /\ delete old m !! u = None /\ m' = <[u := row]> (delete old m).

Definition restarted (s : panel) : panel :=
  mkPanel (pn_db s) ∅ (pn_now s) no_attempts ∅ ∅ ∅ None
    (pn_drawn s) (pn_drawn_families s) (pn_issued s) (pn_spent s) (pn_made s) (pn_forgotten s) ∅ [].

(** A server that boots as an agent forgets its accounts
    (cmd/sfpanel/agent_boot.go): made a panel again, it asks for its first one
    as a fresh install does. *)
Definition forgetAccounts (s : panel) : panel :=
  mkPanel (set_admins ∅ (pn_db s)) (pn_txs s) (pn_now s) (pn_attempts s) (pn_setups s) (pn_used s) (pn_tickets s) (pn_lock s)
    (pn_drawn s) (pn_drawn_families s) (pn_issued s) (pn_spent s) (pn_made s) (S (pn_forgotten s)) (pn_checking s) (pn_accepted s).

(** A backup restored over the database begins another history: it is no
    step of this one. *)
Inductive auth_step : auth_host -> auth_host -> Prop :=
| auth_call h i c k x s :
    uh_pool h !! i = Some (Do c k) -> panel_step (uh_panel h) i c x s ->
    auth_step h (mkAuthHost s (<[i := k x]> (uh_pool h)))
| auth_more h p : auth_request p -> auth_step h (mkAuthHost (uh_panel h) (uh_pool h ++ [p]))
| auth_later h t : pn_now (uh_panel h) <= t -> auth_step h (mkAuthHost (set_now t (uh_panel h)) (uh_pool h))
| auth_prune_limit h op :
    prunes op ->
    auth_step h (mkAuthHost (set_limits (limit_step (pn_now (uh_panel h)) op (pn_attempts (uh_panel h))).2 (pn_setups (uh_panel h)) (uh_panel h)) (uh_pool h))
| auth_upgrade h ticket :
    auth_step h (mkAuthHost (set_tickets (ConsumeWSTicket ticket (pn_now (uh_panel h)) (pn_tickets (uh_panel h))).2 (uh_panel h)) (uh_pool h))
| auth_adopt h m :
    adopts (db_admins (pn_db (uh_panel h))) m ->
    auth_step h (mkAuthHost (set_db (set_admins m (pn_db (uh_panel h))) (uh_panel h)) (uh_pool h))
| auth_restart h : auth_step h (mkAuthHost (restarted (uh_panel h)) [])
| auth_agent h : auth_step h (mkAuthHost (forgetAccounts (restarted (uh_panel h))) []).

(** A panel over a database whose sessions are from before families. *)
Definition opened (d : auth_db) (now : Time) : auth_host :=
  mkAuthHost (mkPanel d ∅ now no_attempts ∅ ∅ ∅ None (gset_to_gmap 0%nat (dom (db_tokens d))) ∅ ∅ [] [] 0 ∅ []) [].
End Host.

(** ** What a goroutine knows *)

Record uknow : Type := mkUknow {
  kn_tok : option string;                    (* a token's hash drawn and not kept yet *)
  kn_fam : option string;                    (* a family drawn and not used yet *)
  kn_row : option (string * tokenRow);       (* the row the transaction read *)
  kn_empty : bool;                           (* it counted no admin *)
  kn_ops : option (list tx_op);              (* the open transaction's writes *)
  kn_key : option string;                    (* the slot of a code reserved *)
}.
Definition idle : uknow := mkUknow None None None false None None.

Definition family_of (k : uknow) (row : tokenRow) (family : string) : Prop :=
  if tr_family row ==s "" then kn_fam k = Some family else family = tr_family row.

(** The transactions that are committed: a deletion, a rotation, the first
    admin. *)
Definition whole (k : uknow) (ops : list tx_op) : Prop :=
  match ops with
  | [] | [OpDelete _] => True
  | [OpAdmin _ _] => kn_empty k = true
  | [OpConsume h _; OpInsert h' row'] =>
      kn_tok k = Some h' /\ tr_consumed row' = None /\
      exists row, kn_row k = Some (h, row) /\ tr_consumed row = None /\ tr_username row' = tr_username row /\
                  family_of k row (tr_family row')
  | _ => False
  end.

Section Know.
Variable sha256_hex : string -> string.

Definition uknow_ok (k : uknow) (a : uaction) : Prop :=
  match projT1 a with
  | RandToken => kn_tok k = None
  | RandFamily => kn_fam k = None
  | DBInsertToken h row => kn_tok k = Some h /\ kn_fam k = Some (tr_family row) /\ tr_consumed row = None /\ kn_ops k = None
  | TxBegin => kn_ops k = None
  | TxDeleteTokens _ => kn_ops k = Some []
  | TxConsume h _ => kn_ops k = Some [] /\ exists row, kn_row k = Some (h, row) /\ tr_consumed row = None
  | TxInsertToken h' row' =>
      kn_tok k = Some h' /\ tr_consumed row' = None /\
      exists h at_ row, kn_ops k = Some [OpConsume h at_] /\ kn_row k = Some (h, row) /\ tr_consumed row = None /\
        tr_username row' = tr_username row /\ family_of k row (tr_family row')
  | TxInsertAdmin _ _ => kn_ops k = Some [] /\ kn_empty k = true
  | TxCommit => exists ops, kn_ops k = Some ops /\ whole k ops
  | TxToken _ | TxAdmins => kn_ops k = Some []
  | ReserveCode _ _ => kn_key k = None
  | CheckCode _ _ => kn_key k <> None
  | ReleaseCode key => kn_key k = Some key
  | _ => True
  end.

Definition uknow_next (k : uknow) (a : uaction) : uknow :=
  match a with
  | existT c x =>
      let op (op : tx_op) (x : bool) :=
        if x then mkUknow (kn_tok k) (kn_fam k) (kn_row k) (kn_empty k) ((fun ops => ops ++ [op]) <$> kn_ops k) (kn_key k) else k in
      match c return uanswer c -> uknow with
      | RandToken => fun x => mkUknow (sha256_hex <$> x) (kn_fam k) (kn_row k) (kn_empty k) (kn_ops k) (kn_key k)
      | RandFamily => fun x => mkUknow (kn_tok k) x (kn_row k) (kn_empty k) (kn_ops k) (kn_key k)
      | DBInsertToken _ _ => fun _ => mkUknow None None (kn_row k) (kn_empty k) (kn_ops k) (kn_key k)
      | TxBegin => fun x => mkUknow (kn_tok k) (kn_fam k) None false (if x : bool then Some [] else kn_ops k) (kn_key k)
      | TxToken h => fun x =>
          match x with Ok row => mkUknow (kn_tok k) (kn_fam k) (Some (h, row)) (kn_empty k) (kn_ops k) (kn_key k) | Err _ => k end
      | TxAdmins => fun x =>
          match x with Some O => mkUknow (kn_tok k) (kn_fam k) (kn_row k) true (kn_ops k) (kn_key k) | _ => k end
      | TxDeleteTokens sel => op (OpDelete sel)
      | TxConsume h at_ => op (OpConsume h at_)
      | TxInsertToken h row => op (OpInsert h row)
      | TxInsertAdmin u pw => op (OpAdmin u pw)
      | TxCommit => fun _ => mkUknow None None None false None (kn_key k)
      | TxRollback => fun _ => mkUknow (kn_tok k) (kn_fam k) None false None (kn_key k)
      | ReserveCode _ _ => fun x => mkUknow (kn_tok k) (kn_fam k) (kn_row k) (kn_empty k) (kn_ops k) x
      | CheckCode _ _ => fun x =>
          if x : bool then mkUknow (kn_tok k) (kn_fam k) (kn_row k) (kn_empty k) (kn_ops k) None else k
      | ReleaseCode _ => fun _ => mkUknow (kn_tok k) (kn_fam k) (kn_row k) (kn_empty k) (kn_ops k) None
      | _ => fun _ => k
      end x
  end.
Definition uknow_monitor : umonitor := mkMonitor uknow uknow_ok uknow_next.
Definition usafe {A} (k : uknow) (p : uprog A) (Q : A -> uknow -> Prop) : Prop := wp anything uknow_monitor p k Q.
Definition whatever {A} (_ : A) (_ : uknow) : Prop := True.

(** Calls that change none of it. *)
Definition uplain (c : ucall) : Prop :=
  match c with
  | RandToken | RandFamily | DBInsertToken _ _ | TxBegin | TxDeleteTokens _ | TxConsume _ _ | TxInsertToken _ _
  | TxInsertAdmin _ _ | TxCommit | TxToken _ | TxAdmins | TxRollback | ReserveCode _ _ | CheckCode _ _ | ReleaseCode _ => False
  | _ => True
  end.
End Know.

(** ** The sessions of a panel, whatever is asked of it

    A refresh token is rotated away once, a family has one live token, an
    ended session never comes back, one admin is set up until the accounts are
    forgotten, and a code of the second factor is accepted once in its period. *)

Section Programs.
Variable sha256_hex : string -> string.
Variable CheckPassword : string -> string -> bool.
Variable marshal_hashes : list string -> string.
Variable unmarshal_hashes : string -> list string.
Variable RFC3339 : Time -> string.
Variable parse_RFC3339 : string -> option Time.
Variable ParseIP : string -> option IP.
Variable TokenExpiry : string.

Notation uknow_next := (uknow_next sha256_hex).
Notation uknow_monitor := (uknow_monitor sha256_hex).
Notation usafe := (usafe sha256_hex).
Notation issueRefreshToken := (issueRefreshToken sha256_hex RFC3339).

(** ** The goroutines keep to the rules *)

Lemma usafe_plain {A} (p : uprog A) k (Q : A -> uknow -> Prop) : only uplain p -> (forall a, Q a k) -> usafe k p Q.
Proof. apply wp_only. intros c x Hc. by destruct c. Qed.
Lemma usafe_then {A B} (p : uprog A) (f : A -> uprog B) k Q : only uplain p -> (forall a, usafe k (f a) Q) -> usafe k (pbind p f) Q.
Proof. intros Hp Hf. apply wp_bind, usafe_plain; done. Qed.
Lemma usafe_last {A B} (p : uprog A) (f : A -> uprog B) k :
  usafe k p whatever -> (forall a, only uplain (f a)) -> usafe k (pbind p f) whatever.
Proof. intros Hp Hf. apply wp_bind. eapply wp_mono; [exact Hp|]. intros a k' _. by apply usafe_plain. Qed.

(** One call, with what is known after it. *)
Ltac uknow_do x := apply wp_call; intros x _; split; [try done|cbn [uknow_monitor mn_next uknow_next kn_tok kn_fam kn_row kn_empty kn_ops kn_key]].
Ltac unfold_small := unfold user_or_refuse, on_leader, recordLoginEvent, recordSecurityEvent, insertSecurityAuditRow.

Lemma only_loadAdminAccount u : only uplain (loadAdminAccount u).
Proof. unfold loadAdminAccount. only_go. Qed.
Lemma only_sync u : only uplain (syncAccountToCluster u).
Proof. unfold syncAccountToCluster. only_go. Qed.
#[local] Hint Resolve only_loadAdminAccount only_sync : only_db.
Lemma only_persistAdminAccount u pw totp c : only uplain (persistAdminAccount u pw totp c).
Proof. unfold persistAdminAccount. only_go. Qed.
Lemma only_failClusterPersist e : only uplain (failClusterPersist e).
Proof. unfold failClusterPersist. only_go. Qed.
Lemma only_revokeOtherSessions r u : only uplain (revokeOtherSessions sha256_hex r u).
Proof. unfold revokeOtherSessions. only_go. Qed.
Lemma only_writeAuthCookies r tok : only uplain (writeAuthCookies r tok).
Proof. unfold writeAuthCookies, SetRefreshCookie, SetCSRFCookie. only_go. Qed.
Lemma only_loadRecoveryCodes u : only uplain (loadRecoveryCodes unmarshal_hashes u).
Proof. unfold loadRecoveryCodes. only_go. Qed.
Lemma only_persistRecoveryCodes u l c : only uplain (persistRecoveryCodes marshal_hashes u l c).
Proof. unfold persistRecoveryCodes. only_go. Qed.
Lemma only_sign_session u e : only uplain (sign_session u e).
Proof. unfold sign_session, GenerateToken. only_go. Qed.
Lemma only_clusterHasAdmin : only uplain clusterHasAdmin.
Proof. unfold clusterHasAdmin. only_go. Qed.
#[local] Hint Resolve only_persistAdminAccount only_failClusterPersist only_revokeOtherSessions only_writeAuthCookies : only_db.
#[local] Hint Resolve only_loadRecoveryCodes only_persistRecoveryCodes only_sign_session only_clusterHasAdmin : only_db.
Lemma only_recovery_codes n : only uplain (recovery_codes n).
Proof. induction n as [|n IH]; cbn [recovery_codes]; only_go. Qed.
Lemma only_consumeRecoveryCode u code :
  only uplain (consumeRecoveryCode sha256_hex marshal_hashes unmarshal_hashes u code).
Proof. unfold consumeRecoveryCode. only_go. Qed.
#[local] Hint Resolve only_recovery_codes only_consumeRecoveryCode : only_db.

Lemma usafe_ValidateCode {B} secret code (f : bool -> uprog B) k Q :
  kn_key k = None -> (forall ok, usafe k (f ok) Q) -> usafe k (pbind (ValidateCode secret code) f) Q.
Proof.
  destruct k as [tok fam row empty ops key]. cbn [kn_key]. intros -> Hf. apply wp_bind. unfold ValidateCode.
  uknow_do key. destruct key as [key|]; [|apply Hf]. uknow_do ok. destruct ok; [apply Hf|].
  uknow_do u. apply Hf.
Qed.

Lemma usafe_issue u : usafe idle (issueRefreshToken u) whatever.
Proof.
  unfold issueRefreshToken. uknow_do tok. destruct tok as [tok|]; [|done]. uknow_do fam. destruct fam as [fam|]; [|done].
  uknow_do now. by uknow_do ok.
Qed.

Lemma usafe_open_session r u failed then_ :
  only uplain then_ -> usafe idle (open_session sha256_hex RFC3339 TokenExpiry r u failed then_) whatever.
Proof.
  intros Ht. unfold open_session. apply usafe_then; [apply only_sign_session|]. intros [token|]; [|done].
  apply usafe_last; [apply usafe_issue|]. intros refresh. only_go.
Qed.

Lemma usafe_second_factor {B} req ip secret (f : option auth_answer -> uprog B) Q :
  (forall x, usafe idle (f x) Q) ->
  usafe idle (pbind (second_factor sha256_hex marshal_hashes unmarshal_hashes req ip secret) f) Q.
Proof.
  intros Hf. apply wp_bind. unfold second_factor. unfold_small. case_match; [apply Hf|]. case_match.
  { apply usafe_plain; [only_go|done]. }
  case_match; [apply Hf|]. apply usafe_ValidateCode; [done|]. intros ok. apply usafe_plain; [only_go|done].
Qed.

Lemma usafe_Login r body :
  usafe idle (Login sha256_hex CheckPassword marshal_hashes unmarshal_hashes RFC3339 TokenExpiry r body) whatever.
Proof.
  unfold Login. destruct body as [req|]; [|done]. do 2 (case_match; [done|]). uknow_do blocked. destruct blocked; [done|].
  apply usafe_then. { unfold login_account. unfold_small. only_go. }
  intros [a|[pw totp]]; [done|]. case_match; [apply usafe_plain; [unfold_small; only_go|done]|].
  apply usafe_second_factor. intros [a|]; [done|]. apply usafe_open_session. unfold_small. only_go.
Qed.

Lemma usafe_insert_admin {B} u hash (f : option auth_answer -> uprog B) :
  (forall x, usafe idle (f x) whatever) -> usafe idle (pbind (insert_admin u hash) f) whatever.
Proof.
  intros Hf. apply wp_bind. unfold insert_admin. uknow_do began. destruct began; [|apply Hf]. apply wp_bind.
  uknow_do count. destruct count as [[|n]|]; try (by uknow_do e; apply Hf).
  cbn [Nat.ltb Nat.leb]. uknow_do ok. destruct ok; [|by uknow_do e; apply Hf].
  uknow_do ok. { by eexists. } destruct ok; [apply Hf|]. by uknow_do e; apply Hf.
Qed.

Lemma usafe_SetupAdmin r body : usafe idle (SetupAdmin sha256_hex RFC3339 ParseIP TokenExpiry r body) whatever.
Proof.
  unfold SetupAdmin. case_match; [done|]. uknow_do limited. destruct limited; [done|]. destruct body as [req|]; [|done].
  do 2 (case_match; [done|]). destruct (validatePassword _); [done|].
  apply usafe_then; [apply only_clusterHasAdmin|]. intros [|]; [done|]. uknow_do hash. destruct hash as [hash|]; [|done].
  apply usafe_insert_admin. intros [a|]; [done|]. apply usafe_then; [apply only_sync|]. intros _.
  by apply usafe_open_session.
Qed.

Lemma usafe_Verify2FA r u body : usafe idle (Verify2FA sha256_hex r u body) whatever.
Proof.
  unfold Verify2FA. unfold_small. uknow_do sent. destruct sent; [done|]. case_match; [done|]. destruct body as [req|]; [|done].
  case_match; [done|]. apply usafe_ValidateCode; [done|]. intros ok. apply usafe_plain; [only_go|done].
Qed.

Lemma usafe_current_code {B} r u totp code (f : option auth_answer -> uprog B) Q :
  (forall x, usafe idle (f x) Q) -> usafe idle (pbind (current_code r u totp code) f) Q.
Proof.
  intros Hf. apply wp_bind. unfold current_code. unfold_small. case_match; [apply Hf|].
  case_match; [apply usafe_plain; [only_go|done]|]. apply usafe_ValidateCode; [done|]. intros ok. apply usafe_plain; [only_go|done].
Qed.

Lemma usafe_Disable2FA r u body : usafe idle (Disable2FA sha256_hex CheckPassword marshal_hashes r u body) whatever.
Proof.
  unfold Disable2FA. unfold_small. uknow_do sent. destruct sent; [done|]. uknow_do blocked. destruct blocked; [done|].
  case_match; [done|]. destruct body as [req|]; [|done]. case_match; [done|].
  apply usafe_then; [apply only_loadAdminAccount|]. intros [[[pw totp] c]|e]; [|by destruct e]. case_match; [apply usafe_plain; [only_go|done]|].
  apply usafe_current_code. intros x. apply usafe_plain; [only_go|done].
Qed.

Lemma usafe_rotate r hash row family k :
  k = mkUknow None (if tr_family row ==s "" then Some family else None) (Some (hash, row)) false (Some []) None ->
  tr_consumed row = None -> (tr_family row <> "" -> family = tr_family row) ->
  usafe k (rotate sha256_hex RFC3339 TokenExpiry r hash row family) whatever.
Proof.
  intros -> Hc Hf. unfold rotate. apply usafe_then; [apply only_sign_session|]. intros [access|]; [|done].
  uknow_do now. uknow_do ok. { split; [done|]. by exists row. } destruct ok; [|done]. cbn [negb]. uknow_do tok. destruct tok as [tok|]; [|done].
  uknow_do now'.
  assert (Hfam : forall tok ops, family_of (mkUknow tok (if tr_family row ==s "" then Some family else None) (Some (hash, row)) false ops None) row family).
  { intros tok' ops. unfold family_of. simpl. destruct (tr_family row ==s "") eqn:E; [done|]. apply Hf. by apply String.eqb_neq. }
  uknow_do ok. { split_and!; [done..|]. eexists hash, _, row. split_and!; try done. apply Hfam. } destruct ok; [|done].
  cbn [negb]. uknow_do ok. { eexists. split; [done|]. simpl. split_and!; [done..|]. exists row. split_and!; try done. }
  apply usafe_plain; [|done]. only_go.
Qed.

Lemma usafe_refresh_tx r hash :
  usafe (mkUknow None None None false (Some []) None)
    (refresh_tx sha256_hex RFC3339 parse_RFC3339 TokenExpiry r hash) whatever.
Proof.
  assert (Hdrop : forall text fam row, usafe (mkUknow None fam row false (Some []) None) (drop_token hash text) whatever).
  { intros text fam row. unfold drop_token. uknow_do ok. uknow_do ok'; [by destruct ok; eexists|]. done. }
  unfold refresh_tx. uknow_do row. destruct row as [row|e]; [|by destruct e]. destruct (tr_consumed row) as [at_|] eqn:Ec.
  { unfold reused. uknow_do ok. uknow_do ok'; [by destruct ok; eexists|]. done. }
  apply usafe_then; [only_go|]. intros expired. destruct expired; [apply Hdrop|].
  apply usafe_then; [unfold user_exists; only_go|]. intros there. destruct there; [|apply Hdrop]. cbn [negb]. apply wp_bind.
  unfold own_family. destruct (tr_family row ==s "") eqn:Ef.
  - intros fam _. split; [done|]. cbn [uknow_monitor mn_next uknow_next kn_tok kn_fam kn_row kn_empty kn_ops kn_key wp].
    destruct fam as [fam|]; [|done]. apply usafe_rotate; [by rewrite Ef|done|]. by apply String.eqb_eq in Ef.
  - cbn [wp]. apply usafe_rotate; [by rewrite Ef|done..].
Qed.

Lemma usafe_Refresh r body : usafe idle (Refresh sha256_hex RFC3339 parse_RFC3339 TokenExpiry r body) whatever.
Proof.
  unfold Refresh. case_match; [done|]. uknow_do l. uknow_do began. destruct began.
  - apply wp_bind, wp_bind. eapply wp_mono; [apply usafe_refresh_tx|]. intros a k _. uknow_do u. by uknow_do u'.
  - by uknow_do u.
Qed.

Lemma request_safe p :
  auth_request sha256_hex CheckPassword marshal_hashes unmarshal_hashes RFC3339 parse_RFC3339 ParseIP TokenExpiry p ->
  usafe idle p whatever.
Proof.
  intros [r body|r|r body|r body|r|r u|r u body|r u body|u|r u body|r u pw|r u|u|u| |].
  1: apply usafe_last; [apply usafe_Login|done].
  2: apply usafe_last; [apply usafe_Refresh|done].
  2: apply usafe_last; [apply usafe_SetupAdmin|done].
  4: apply usafe_last; [apply usafe_Verify2FA|done].
  4: apply usafe_last; [apply usafe_Disable2FA|done].
  all: apply usafe_plain; [|done].
  all: unfold Logout, ClearAuthCookies, GetSetupStatus, Setup2FA, Get2FAStatus, ChangePassword, VerifyStepUp,
    RegenerateRecoveryCodes, generateRecoveryCodes, GetRecoveryStatus, MintWSTicket, pruneRefreshTokens, EndSessions.
  all: unfold_small; only_go.
Qed.
End Programs.

(** ** The database *)

Definition live (d : auth_db) (f : string) : Prop :=
  exists h row, db_tokens d !! h = Some row /\ tr_family row = f /\ tr_consumed row = None.

Record db_ok (s : panel) : Prop := {
  dk_drawn h row : db_tokens (pn_db s) !! h = Some row -> h ∈ dom (pn_drawn s);
  dk_once : NoDup (pn_spent s);
  dk_spent h : h ∈ pn_spent s -> h ∈ dom (pn_drawn s) /\ forall row, db_tokens (pn_db s) !! h = Some row -> tr_consumed row <> None;
  dk_issued h row : db_tokens (pn_db s) !! h = Some row -> tr_family row <> "" -> pn_issued s !! tr_family row = Some (tr_username row);
  dk_families f : f ∈ dom (pn_issued s) -> f ∈ dom (pn_drawn_families s) /\ f <> "";
  dk_live h1 h2 r1 r2 :
    db_tokens (pn_db s) !! h1 = Some r1 -> db_tokens (pn_db s) !! h2 = Some r2 -> tr_consumed r1 = None -> tr_consumed r2 = None ->
    tr_family r1 = tr_family r2 -> tr_family r1 <> "" -> h1 = h2;
  dk_made : NoDup (pn_made s).*1 /\ (forall n, n ∈ (pn_made s).*1 -> (n <= pn_forgotten s)%nat) /\
            (pn_forgotten s ∈ (pn_made s).*1 -> db_admins (pn_db s) <> ∅);
}.

(** What goroutine [i] drew and has not kept yet. *)
Definition drawn_ok (s : panel) (i : nat) (tok fam : option string) : Prop :=
  (forall h, tok = Some h -> pn_drawn s !! h = Some i /\ db_tokens (pn_db s) !! h = None /\ h ∉ pn_spent s) /\
  (forall f, fam = Some f -> pn_drawn_families s !! f = Some i /\ f ∉ dom (pn_issued s) /\ f <> "").

(** An issued family's life ends for good. *)
Definition ends (s s' : panel) : Prop :=
  forall f, f ∈ dom (pn_issued s) -> f ∈ dom (pn_issued s') /\ (live (pn_db s') f -> live (pn_db s) f).
(** With an admin, there is one until the accounts are forgotten, and none is
    set up. *)
Definition settled (s s' : panel) : Prop :=
  (pn_forgotten s <= pn_forgotten s')%nat /\
  (pn_forgotten s' = pn_forgotten s -> db_admins (pn_db s) <> ∅ -> db_admins (pn_db s') <> ∅ /\ pn_made s' = pn_made s).
Definition steady (s s' : panel) : Prop := ends s s' /\ settled s s'.

(** A write by [i] that keeps to the rules. *)
Definition fair_write (s : panel) (i : nat) (s' : panel) : Prop :=
  db_ok s' /\ steady s s' /\ forall j tok fam, j <> i -> drawn_ok s j tok fam -> drawn_ok s' j tok fam.

Lemma delete_lookup sel d h row : db_tokens (delete_tokens sel d) !! h = Some row -> db_tokens d !! h = Some row.
Proof. simpl. rewrite map_lookup_filter_Some. by intros [? _]. Qed.

Lemma fair_delete s i sel : db_ok s -> fair_write s i (write_db [OpDelete sel] s).
Proof.
  intros [H1 H2 H3 H4 H5 H6 H7]. split_and!.
  - split; cbn [write_db fold_left note_op apply_op set_db pn_db pn_drawn pn_spent pn_issued pn_drawn_families pn_made]; try done.
    + intros h row ?%delete_lookup. by eapply H1.
    + intros h Hh. destruct (H3 h Hh) as [? Hc]. split; [done|]. intros row ?%delete_lookup. by apply Hc.
    + intros h row ?%delete_lookup. by eapply H4.
    + intros h1 h2 r1 r2 ?%delete_lookup ?%delete_lookup. by eapply H6.
  - split; [|done]. intros f Hf. split; [done|]. intros (h & row & Hr%delete_lookup & ?). by exists h, row.
  - intros j tok fam Hj [Ht Hf]. split; [|done]. intros h Hh. destruct (Ht h Hh) as (? & Hn & ?). split_and!; [done| |done].
    destruct (db_tokens (pn_db (write_db [OpDelete sel] s)) !! h) as [row|] eqn:E; [|done].
    by apply delete_lookup in E; rewrite Hn in E.
Qed.

(** A fresh token under a fresh family, or under the one of a token consumed
    with it. *)
Lemma fair_insert s i h row :
  db_ok s -> drawn_ok s i (Some h) (Some (tr_family row)) -> tr_consumed row = None ->
  fair_write s i (write_db [OpInsert h row] s).
Proof.
  intros [H1 H2 H3 H4 H5 H6 H7] [Ht Hf] Hc. destruct (Ht h eq_refl) as (Hd & Hn & Hs). destruct (Hf _ eq_refl) as (Hfd & Hfi & Hf0).
  assert (Hfam : forall h' r', db_tokens (pn_db s) !! h' = Some r' -> tr_family r' <> tr_family row).
  { intros h' r' Hr E. apply Hfi. rewrite <-E. apply elem_of_dom_2 with (tr_username r'). apply (H4 h'); [done|by rewrite E]. }
  split_and!.
  - split; cbn [write_db fold_left note_op apply_op set_db set_tokens set_past pn_db db_tokens db_admins pn_drawn pn_spent pn_issued pn_drawn_families pn_made]; try done.
    + intros h' r' [[<- <-]|[? ?]]%lookup_insert_Some; [by eapply elem_of_dom_2|by eapply H1].
    + intros h' Hh. destruct (H3 h' Hh) as [? Hc']. split; [done|]. intros r' [[<- <-]|[? ?]]%lookup_insert_Some; [done|by apply Hc'].
    + intros h' r' [[<- <-]|[? Hr]]%lookup_insert_Some Hne; [by rewrite lookup_insert_eq|].
      rewrite lookup_insert_ne; [by eapply H4|]. intros E. by apply (Hfam _ _ Hr).
    + intros f. rewrite dom_insert, elem_of_union, elem_of_singleton. intros [->|?]; [|by apply H5]. split; [by eapply elem_of_dom_2|done].
    + intros h1 h2 r1 r2 [[<- <-]|[? Hr1]]%lookup_insert_Some [[<- <-]|[? Hr2]]%lookup_insert_Some ? ? E ?; try done.
      * by destruct (Hfam _ _ Hr2).
      * by destruct (Hfam _ _ Hr1).
      * by eapply H6.
  - split; [|done]. intros f Hin. split; [cbn; rewrite dom_insert; set_solver|]. intros (h' & r' & Hr & E & ?). cbn in Hr.
    apply lookup_insert_Some in Hr as [[<- <-]|[? Hr]]; [by subst f|by exists h', r'].
  - intros j tok fam Hj [Ht' Hf']. split.
    + intros h' Hh. destruct (Ht' h' Hh) as (? & ? & ?). split_and!; [done| |done]. cbn. rewrite lookup_insert_ne; [done|]. congruence.
    + intros f Hff. destruct (Hf' f Hff) as (? & ? & ?). split_and!; [done| |done]. cbn. rewrite dom_insert, not_elem_of_union, not_elem_of_singleton.
      split; [congruence|done].
Qed.

(** The token of [row], consumed, gives way to one drawn for it. *)
Section Rotate.
Variables (s : panel) (i : nat) (h at_ : string) (row : tokenRow) (h' : string) (row' : tokenRow) (fam : option string).
Hypothesis Hdb : db_ok s.
Hypothesis Hdrawn : drawn_ok s i (Some h') fam.
Hypothesis Hrow : db_tokens (pn_db s) !! h = Some row.
Hypothesis Hc : tr_consumed row = None.
Hypothesis Hc' : tr_consumed row' = None.
Hypothesis Hu : tr_username row' = tr_username row.
Hypothesis Hfam : if tr_family row ==s "" then fam = Some (tr_family row') else tr_family row' = tr_family row.
Notation after := (write_db [OpConsume h at_; OpInsert h' row'] s).

Lemma rotated_lookup x r :
  db_tokens (pn_db after) !! x = Some r ->
  (x = h' /\ r = row') \/ (x = h /\ r = consume at_ row) \/ (x <> h /\ x <> h' /\ db_tokens (pn_db s) !! x = Some r).
Proof using Hrow.
  cbn. intros [[<- <-]|[? Hx]]%lookup_insert_Some; [by left|]. right.
  destruct (decide (x = h)) as [->|]; [|right; by rewrite lookup_alter_ne in Hx]. rewrite lookup_alter_eq, Hrow in Hx. simpl in Hx. left. by simplify_eq.
Qed.

(** The family of the new token: the old one's, or its own, fresh. *)
Lemma rotated_family :
  tr_family row' <> "" /\
  ((tr_family row' = tr_family row /\ pn_issued s !! tr_family row' = Some (tr_username row')) \/
   (tr_family row = "" /\ tr_family row' ∉ dom (pn_issued s) /\ pn_drawn_families s !! tr_family row' = Some i)).
Proof using Hdb Hdrawn Hrow Hu Hfam.
  destruct Hdrawn as [_ Hf]. destruct (tr_family row ==s "") eqn:E.
  - apply String.eqb_eq in E. destruct (Hf _ Hfam) as (? & ? & ?). split; [done|]. by right.
  - apply String.eqb_neq in E. rewrite Hfam. split; [done|]. left. split; [done|]. rewrite Hu. by apply (dk_issued s Hdb h).
Qed.

Lemma rotated_alone x r :
  db_tokens (pn_db s) !! x = Some r -> tr_consumed r = None -> x <> h -> tr_family r <> tr_family row'.
Proof using Hdb Hdrawn Hrow Hc Hu Hfam.
  intros Hx Hr Hxh E. destruct rotated_family as [Hne [[E' _]|(_ & Hni & _)]].
  - apply Hxh. apply (dk_live s Hdb x h r row); try done; congruence.
  - apply Hni. rewrite <-E. apply elem_of_dom_2 with (tr_username r). apply (dk_issued s Hdb x); [done|congruence].
Qed.

Lemma rotated_db : db_ok after.
Proof using Hdb Hdrawn Hrow Hc Hc' Hu Hfam.
  pose proof rotated_family as [Hne Hnew]. destruct Hdb as [H1 H2 H3 H4 H5 H6 H7]. destruct Hdrawn as [Ht _].
  destruct (Ht h' eq_refl) as (Hd & Hn & Hs). assert (Hhh : h <> h') by congruence. split.
  - intros x r [[-> ->]|[[-> ->]|(_ & _ & Hx)]]%rotated_lookup; [by eapply elem_of_dom_2|by eapply H1|by eapply H1].
  - cbn. constructor; [|done]. intros Hin. by destruct (H3 h Hin) as [_ Hcc]; apply (Hcc row).
  - intros x Hx. cbn in Hx. apply elem_of_cons in Hx as [->|Hx].
    + split; [by eapply H1|]. intros r [[-> ->]|[[_ ->]|(? & _)]]%rotated_lookup; done.
    + destruct (H3 x Hx) as [? Hcc]. split; [done|]. intros r [[-> ->]|[[_ ->]|(_ & _ & Hr)]]%rotated_lookup; [done|done|by apply Hcc].
  - intros x r Hr Hrf. cbn. apply rotated_lookup in Hr as [[-> ->]|[[-> ->]|(? & ? & Hx)]]; [by rewrite lookup_insert_eq| |].
    + cbn [consume tr_family tr_username] in *. destruct Hnew as [[E Hi]|[E _]]; [|done].
      rewrite <-E, lookup_insert_eq, Hu. done.
    + pose proof (H4 x r Hx Hrf) as Hi. destruct (decide (tr_family row' = tr_family r)) as [E|]; [|by rewrite lookup_insert_ne].
      rewrite E, lookup_insert_eq. destruct Hnew as [[_ Hi']|(_ & Hni & _)]; [rewrite E in Hi'; congruence|].
      destruct Hni. rewrite E. by eapply elem_of_dom_2.
  - intros f. cbn. rewrite dom_insert, elem_of_union, elem_of_singleton. intros [->|Hin]; [|by apply H5].
    split; [|done]. destruct Hnew as [[_ Hi]|(_ & _ & Hfd)]; [|by eapply elem_of_dom_2]. apply H5. by eapply elem_of_dom_2.
  - intros x y r1 r2 Hx Hy Hl1 Hl2 E Hrf.
    apply rotated_lookup in Hx as [[-> ->]|[[-> ->]|(? & ? & Hx)]]; apply rotated_lookup in Hy as [[-> ->]|[[-> ->]|(? & ? & Hy)]]; try done.
    + by destruct (rotated_alone y r2).
    + by destruct (rotated_alone x r1).
    + by apply (H6 x y r1 r2).
  - exact H7.
Qed.

Lemma fair_rotate : fair_write s i after.
Proof using Hdb Hdrawn Hrow Hc Hc' Hu Hfam.
  pose proof rotated_family as [Hne Hnew]. destruct Hdrawn as [Ht _]. destruct (Ht h' eq_refl) as (Hd & Hn & Hs).
  split_and!; [exact rotated_db| |].
  - split; [|done]. intros f Hin. split; [cbn; rewrite dom_insert; set_solver|].
    intros (x & r & [[-> ->]|[[-> ->]|(? & ? & Hx)]]%rotated_lookup & E & Hl); [|done|by exists x, r].
    subst f. destruct Hnew as [[E _]|(_ & Hni & _)]; [by exists h, row|done].
  - intros j tok fam' Hj [Ht' Hf']. split.
    + intros x Hx. destruct (Ht' x Hx) as (? & Hxn & Hxs). split_and!; [done| |].
      * destruct (db_tokens (pn_db after) !! x) as [r|] eqn:E; [|done].
        apply rotated_lookup in E as [[-> ->]|[[-> ->]|(? & ? & E)]]; congruence.
      * cbn. rewrite not_elem_of_cons. split; [congruence|done].
    + intros f Hff. destruct (Hf' f Hff) as (? & ? & ?). split_and!; [done| |done]. cbn. rewrite dom_insert, not_elem_of_union, not_elem_of_singleton.
      split; [|done]. intros ->. destruct Hnew as [[_ Hi]|(_ & _ & Hfd)]; [by apply elem_of_dom_2 in Hi|congruence].
Qed.
End Rotate.

Lemma fair_admin s i u pw : db_ok s -> db_admins (pn_db s) = ∅ -> fair_write s i (write_db [OpAdmin u pw] s).
Proof.
  intros [H1 H2 H3 H4 H5 H6 (H7 & H7' & H8)] He. split_and!.
  - split; try done. cbn. split_and!; [constructor; [intros Hin; by apply H8|done]| |intros _; apply insert_non_empty].
    intros n [->|Hn]%elem_of_cons; [done|by apply H7'].
  - by split.
  - done.
Qed.

(** ** The codes *)

Record code_ok (s : panel) : Prop := {
  ck_once : NoDup (map use_key (pn_accepted s));
  ck_checking i u : pn_checking s !! i = Some u -> use_key u ∉ map use_key (pn_accepted s);
  ck_apart i j u v : pn_checking s !! i = Some u -> pn_checking s !! j = Some v -> use_key u = use_key v -> i = j;
  ck_slot u : u ∈ pn_accepted s \/ (exists i, pn_checking s !! i = Some u) ->
    pn_used s !! use_key u = Some ((u.2 + 2) * totpPeriod) \/ (u.2 + 2) * totpPeriod < Unix (pn_now s);
}.

Lemma digits_dec_go fuel n acc : 0 <= n < 10 ^ Z.of_nat fuel -> digits_val (dec_go fuel n acc) 0 = digits_val acc n.
Proof.
  revert n acc. induction fuel as [|fuel IH]; intros n acc Hn; [simpl in Hn; by replace n with 0 by lia|].
  pose proof (digit_char_spec (n mod 10) (Z.mod_pos_bound n 10 eq_refl)) as [Hc Hv].
  pose proof (Z.mod_pos_bound n 10 eq_refl). pose proof (Z.div_mod n 10 ltac:(lia)) as Hdm.
  cbn [dec_go]. destruct (Z.ltb_spec n 10).
  - cbn [digits_val]. rewrite Hc, Hv. f_equal. rewrite Z.mod_small by lia. lia.
  - rewrite Nat2Z.inj_succ, Z.pow_succ_r in Hn by lia. rewrite IH.
    + cbn [digits_val]. rewrite Hc, Hv. f_equal. lia.
    + split; [apply Z.div_pos; lia|apply Z.div_lt_upper_bound; lia].
Qed.
Lemma digits_dec n : 0 <= n -> digits_val (dec n) 0 = Some n.
Proof. intros Hn. unfold dec. rewrite digits_dec_go; [done|]. split; [done|by apply dec_bound]. Qed.

Lemma digits_no_colon s x y : digits_val s x = Some y -> (":"%char : ascii) ∉ list_ascii_of_string s.
Proof.
  revert x. induction s as [|c s IH]; intros x; cbn [digits_val list_ascii_of_string]; [by intros _ ?%elem_of_nil|].
  destruct (is_digit c) eqn:E; [|done]. intros H [<-|Hin]%elem_of_cons; [done|by apply IH in H].
Qed.
Lemma itoa_no_colon z : (":"%char : ascii) ∉ list_ascii_of_string (itoa z).
Proof.
  unfold itoa. destruct (Z.ltb_spec z 0).
  - cbn. rewrite elem_of_cons. intros [?|Hin]; [done|]. revert Hin. eapply digits_no_colon, digits_dec. lia.
  - eapply digits_no_colon, digits_dec. lia.
Qed.
Lemma itoa_inj z z' : itoa z = itoa z' -> z = z'.
Proof.
  unfold itoa. destruct (Z.ltb_spec z 0), (Z.ltb_spec z' 0); intros E.
  - injection E as E. apply (f_equal (fun s => digits_val s 0)) in E. rewrite !digits_dec in E by lia. injection E. lia.
  - apply (f_equal (fun s => digits_val s 0)) in E. by rewrite (digits_dec z') in E by lia.
  - apply (f_equal (fun s => digits_val s 0)) in E. by rewrite (digits_dec z) in E by lia.
  - apply (f_equal (fun s => digits_val s 0)) in E. rewrite !digits_dec in E by lia. by injection E.
Qed.

Lemma after_colon l1 l2 x y : (":"%char : ascii) ∉ x -> (":"%char : ascii) ∉ y -> l1 ++ ":"%char :: x = l2 ++ ":"%char :: y -> x = y.
Proof.
  intros Hx Hy H. apply app_eq_inv in H as [(k & -> & H)|(k & -> & H)]; destruct k as [|c k]; simplify_list_eq; try done.
  - destruct Hy. apply elem_of_app. right. by left.
  - destruct Hx. apply elem_of_app. right. by left.
Qed.

Lemma use_key_period u v : use_key u = use_key v -> u.2 = v.2.
Proof.
  unfold use_key, used_key. intros E%(f_equal list_ascii_of_string). rewrite !list_ascii_app in E. cbn [list_ascii_of_string] in E.
  rewrite !app_assoc in E. rewrite <-!(app_assoc _ [":"%char]) in E.
  apply after_colon in E; [|apply itoa_no_colon..]. apply itoa_inj.
  rewrite <-(string_of_list_ascii_of_string (itoa u.2)), E. apply string_of_list_ascii_of_string.
Qed.

Lemma Unix_mono a b : a <= b -> Unix a <= Unix b.
Proof. unfold Unix. pose proof (Z.div_le_mono a b Second ltac:(done)). lia. Qed.

Notation use_at s secret code := (secret, code, Z.quot (Unix (pn_now s)) totpPeriod).

(** A slot that is free now was taken by no code of this period. *)
Lemma free_slot s u secret code used :
  code_ok s -> reserve_code (pn_now s) secret code (pn_used s) = (Some (use_key (use_at s secret code)), used) ->
  u ∈ pn_accepted s \/ (exists i, pn_checking s !! i = Some u) -> use_key u <> use_key (use_at s secret code).
Proof.
  intros Hc Hr Hu E. pose proof (use_key_period _ _ E) as Ep. cbn [fst snd] in Ep.
  assert (Hend : ~ (u.2 + 2) * totpPeriod < Unix (pn_now s)).
  { rewrite Ep. pose proof (Z.quot_rem' (Unix (pn_now s)) totpPeriod) as Hq.
    pose proof (Z.rem_bound_abs (Unix (pn_now s)) totpPeriod ltac:(done)) as Hb. unfold totpPeriod in *. simpl Z.abs in Hb. lia. }
  destruct (ck_slot s Hc u Hu) as [Hs|Hs]; [|done]. rewrite E in Hs.
  unfold reserve_code in Hr. cbv zeta in Hr. case_match; [done|]. rename select (_ = None) into Hn.
  rewrite map_lookup_filter_None in Hn. destruct Hn as [Hn|Hn]; [|by apply (Hn _ Hs)].
  change (pn_used s !! use_key (use_at s secret code) = None) in Hn. congruence.
Qed.

Lemma reserve_key now secret code used key used' :
  reserve_code now secret code used = (key, used') ->
  (key = None /\ used' = filter (fun kv : string * Z => ~ kv.2 < Unix now) used \/
   key = Some (use_key (secret, code, Z.quot (Unix now) totpPeriod)) /\
   used' = <[use_key (secret, code, Z.quot (Unix now) totpPeriod) := (Z.quot (Unix now) totpPeriod + 2) * totpPeriod]>
             (filter (fun kv : string * Z => ~ kv.2 < Unix now) used)).
Proof. unfold reserve_code. cbv zeta. case_match; intros [= <- <-]; [by left|by right]. Qed.

Lemma slot_kept (used : gmap string Z) k v now :
  used !! k = Some v \/ v < now -> filter (fun kv : string * Z => ~ kv.2 < now) used !! k = Some v \/ v < now.
Proof. intros [H|H]; [|by right]. destruct (decide (v < now)); [by right|left]. by apply map_lookup_filter_Some. Qed.

Lemma code_reserve s i secret code key used :
  code_ok s -> pn_checking s !! i = None -> reserve_code (pn_now s) secret code (pn_used s) = (key, used) ->
  let s' := set_codes used (match key with Some _ => <[i := use_at s secret code]> (pn_checking s) | None => pn_checking s end)
              (pn_accepted s) s in
  code_ok s' /\ key = use_key <$> pn_checking s' !! i.
Proof.
  intros Hc Hi Hr. cbv zeta. pose proof Hc as [H1 H2 H3 H4].
  destruct (reserve_key _ _ _ _ _ _ Hr) as [[-> ->]|[-> ->]]; cbn [set_codes pn_accepted pn_checking pn_used pn_now].
  - split; [|by rewrite Hi]. split; cbn; try done. intros u Hu. by apply slot_kept, H4.
  - split; [|by rewrite lookup_insert_eq]. pose proof (free_slot s) as Hfree.
    assert (Hf : forall u, u ∈ pn_accepted s \/ (exists i, pn_checking s !! i = Some u) -> use_key u <> use_key (use_at s secret code)).
    { intros u. by apply (Hfree u secret code _ Hc Hr). }
    split; cbn [set_codes pn_accepted pn_checking pn_used pn_now]; [done| | |].
    + intros j u [[<- <-]|[? Hj]]%lookup_insert_Some; [|by eapply H2]. intros (v & Hv & Hin)%list_elem_of_fmap. by apply (Hf v); [left|].
    + intros j1 j2 u v [[<- <-]|[? Hj1]]%lookup_insert_Some [[<- <-]|[? Hj2]]%lookup_insert_Some E; [done| | |by eapply H3].
      * destruct (Hf v); [right; by exists j2|done].
      * destruct (Hf u); [right; by exists j1|done].
    + intros u Hu. destruct (decide (use_key u = use_key (use_at s secret code))) as [E|Hne].
      * rewrite E, lookup_insert_eq. left. by rewrite (use_key_period _ _ E).
      * rewrite lookup_insert_ne by done. apply slot_kept, H4. destruct Hu as [?|[j Hj]]; [by left|right].
        apply lookup_insert_Some in Hj as [[_ <-]|[_ Hj]]; [done|by exists j].
Qed.

Lemma code_accept s i u :
  code_ok s -> pn_checking s !! i = Some u -> code_ok (set_codes (pn_used s) (delete i (pn_checking s)) (u :: pn_accepted s) s).
Proof.
  intros [H1 H2 H3 H4] Hi. split; cbn [set_codes pn_accepted pn_checking pn_used pn_now map].
  - constructor; [by eapply H2|done].
  - intros j v [Hj Hv]%lookup_delete_Some. rewrite not_elem_of_cons. split; [|by eapply H2]. intros E. apply Hj. by eapply H3.
  - intros j1 j2 v w [_ ?]%lookup_delete_Some [_ ?]%lookup_delete_Some. by eapply H3.
  - intros v Hv. apply H4. destruct Hv as [[->|Hv]%elem_of_cons|[j [_ Hj]%lookup_delete_Some]]; eauto.
Qed.

Lemma code_release s i u :
  code_ok s -> pn_checking s !! i = Some u ->
  code_ok (set_codes (delete (use_key u) (pn_used s)) (delete i (pn_checking s)) (pn_accepted s) s).
Proof.
  intros [H1 H2 H3 H4] Hi. split; cbn [set_codes pn_accepted pn_checking pn_used pn_now].
  - done.
  - intros j v [_ Hv]%lookup_delete_Some. by eapply H2.
  - intros j1 j2 v w [_ ?]%lookup_delete_Some [_ ?]%lookup_delete_Some. by eapply H3.
  - intros v Hv. assert (Hne : use_key u <> use_key v).
    { intros E. destruct Hv as [Hv|[j [Hj Hv]%lookup_delete_Some]].
      - apply (H2 i u Hi). rewrite E. by apply list_elem_of_fmap_2.
      - apply Hj. by eapply H3. }
    rewrite lookup_delete_ne by done. apply H4. destruct Hv as [?|[j [_ Hj]%lookup_delete_Some]]; eauto.
Qed.

Lemma code_later s t : code_ok s -> pn_now s <= t -> code_ok (set_now t s).
Proof.
  intros [H1 H2 H3 H4] Ht. split; cbn; try done. intros u Hu. destruct (H4 u Hu) as [?|?]; [by left|right].
  pose proof (Unix_mono _ _ Ht). lia.
Qed.

(** ** What a goroutine knows is so *)

Definition tx_known (s : panel) (i : nat) (k : uknow) : Prop :=
  match kn_ops k with
  | None => pn_txs s !! i = None
  | Some ops => exists t, pn_txs s !! i = Some t /\ tx_ops t = ops /\
      (forall h row, kn_row k = Some (h, row) -> exists b, tx_base t = Some b /\ db_tokens b !! h = Some row) /\
      (kn_empty k = true -> exists b, tx_base t = Some b /\ db_admins b = ∅)
  end.
Record know_ok (s : panel) (i : nat) (k : uknow) : Prop := {
  ko_drawn : drawn_ok s i (kn_tok k) (kn_fam k);
  ko_tx : tx_known s i k;
  ko_key : kn_key k = use_key <$> pn_checking s !! i;
}.

(** What a call of [i] keeps to, whoever else is at work. *)
Record kept (s : panel) (i : nat) (k' : uknow) (s' : panel) : Prop := {
  kp_db : db_ok s';
  kp_code : code_ok s';
  kp_steady : steady s s';
  kp_own : know_ok s' i k';
  kp_drawn j tok fam : j <> i -> drawn_ok s j tok fam -> drawn_ok s' j tok fam;
  kp_txs j : j <> i -> pn_txs s' !! j = pn_txs s !! j;
  kp_checking j : j <> i -> pn_checking s' !! j = pn_checking s !! j;
}.

Lemma kept_others s i k' s' j k : kept s i k' s' -> j <> i -> know_ok s j k -> know_ok s' j k.
Proof.
  intros [_ _ _ _ H1 H2 H3] Hj [Hd Ht Hk]. split; [by apply H1| |by rewrite H3]. unfold tx_known in *. by rewrite H2.
Qed.

Definition core (s : panel) := (pn_db s, pn_drawn s, pn_drawn_families s, pn_issued s, (pn_spent s, (pn_made s, pn_forgotten s))).
Lemma core_db s s' : core s' = core s -> db_ok s -> db_ok s'.
Proof. intros [= E1 E2 E3 E4 E5 E6 E7] [H1 H2 H3 H4 H5 H6 H7]. split; rewrite ?E1, ?E2, ?E3, ?E4, ?E5, ?E6, ?E7; done. Qed.
Lemma core_drawn s s' i tok fam : core s' = core s -> drawn_ok s i tok fam -> drawn_ok s' i tok fam.
Proof. intros [= E1 E2 E3 E4 E5 E6 E7]. unfold drawn_ok. by rewrite E1, E2, E3, E4, E5. Qed.
Lemma core_steady s s' : core s' = core s -> steady s s'.
Proof. intros [= E1 E2 E3 E4 E5 E6 E7]. split; [intros f Hf; by rewrite E1, E4|]. unfold settled. by rewrite E1, E6, E7. Qed.

Section Steps.
Variables (s : panel) (i : nat) (k : uknow).
Hypothesis Hdb : db_ok s.
Hypothesis Hcode : code_ok s.
Hypothesis Hk : know_ok s i k.

(** Calls that leave the database, the transactions and the codes alone. *)
Lemma kept_same s' :
  core s' = core s -> pn_txs s' = pn_txs s -> (pn_now s', pn_used s', pn_checking s', pn_accepted s') = (pn_now s, pn_used s, pn_checking s, pn_accepted s) ->
  kept s i k s'.
Proof using Hdb Hcode Hk.
  intros Ec Et [= E1 E2 E3 E4]. split.
  - by apply (core_db s).
  - destruct Hcode as [H1 H2 H3 H4]. split; rewrite ?E1, ?E2, ?E3, ?E4; done.
  - by apply core_steady.
  - destruct Hk as [Hd Ht Hkey]. split; [by apply (core_drawn s)| |by rewrite E3]. unfold tx_known. by rewrite Et.
  - intros j tok fam _. by apply core_drawn.
  - by rewrite Et.
  - by rewrite E3.
Qed.

(** Those of a transaction, while it is open. *)
Lemma kept_txs m k' :
  (forall j, j <> i -> m !! j = pn_txs s !! j) -> tx_known (set_txs m s) i k' ->
  drawn_ok s i (kn_tok k') (kn_fam k') -> kn_key k' = kn_key k -> kept s i k' (set_txs m s).
Proof using Hdb Hcode Hk.
  intros Hm Ht Hd Hkey. split; try done.
  - by apply (core_db s).
  - by destruct Hcode as [H1 H2 H3 H4]; split.
  - split; [done|done|]. rewrite Hkey. apply Hk.
Qed.

(** Those of the codes. *)
Lemma kept_codes used checking accepted k' :
  code_ok (set_codes used checking accepted s) -> (forall j, j <> i -> checking !! j = pn_checking s !! j) ->
  kn_key k' = use_key <$> checking !! i -> (kn_tok k', kn_fam k', kn_row k', kn_empty k', kn_ops k') = (kn_tok k, kn_fam k, kn_row k, kn_empty k, kn_ops k) ->
  kept s i k' (set_codes used checking accepted s).
Proof using Hdb Hcode Hk.
  intros Hc Hj Hkey [= E1 E2 E3 E4 E5]. destruct Hk as [Hd Ht _]. split; try done; [by apply (core_db s)|].
  split; [rewrite E1, E2; done| |done]. unfold tx_known in *. by rewrite E3, E4, E5.
Qed.

(** A write to the database that keeps to the rules. *)
Lemma kept_write ops s1 k' :
  fair_write s1 i (write_db ops s1) -> core s1 = core s -> code_ok (write_db ops s1) ->
  (forall j, j <> i -> pn_txs (write_db ops s1) !! j = pn_txs s !! j) -> pn_checking (write_db ops s1) = pn_checking s ->
  drawn_ok (write_db ops s1) i (kn_tok k') (kn_fam k') -> tx_known (write_db ops s1) i k' -> kn_key k' = kn_key k ->
  kept s i k' (write_db ops s1).
Proof using Hk.
  intros (Hd & He & Hdr) Ec Hc Htx Hch Hown Hkn Hkey. split; [done|done| | | |done|by rewrite Hch].
  - pose proof Ec as [= E1 _ _ E4 _ E6 E7]. destruct He as [He Hs]. split; [intros f; rewrite <-E4, <-E1; apply He|].
    unfold settled. rewrite <-E1, <-E6, <-E7. exact Hs.
  - split; [done|done|]. rewrite Hkey, Hch. apply Hk.
  - intros j tok fam Hj Hdj. apply Hdr; [done|]. by apply (core_drawn s).
Qed.

Lemma kept_admins m : (db_admins (pn_db s) <> ∅ -> m <> ∅) -> kept s i k (set_db (set_admins m (pn_db s)) s).
Proof using Hdb Hcode Hk.
  intros Hm. destruct Hk as [Hd Ht Hkey]. split; try done.
  - destruct Hdb as [H1 H2 H3 H4 H5 H6 (H7 & H7' & H8)]. split; try done. split_and!; [done|done|]. intros ?. by apply Hm, H8.
  - by destruct Hcode as [H1 H2 H3 H4]; split.
  - split; [done|]. split; [done|]. intros _ He. split; [by apply Hm|done].
Qed.
End Steps.

Lemma write_db_frame ops s :
  pn_txs (write_db ops s) = pn_txs s /\
  (pn_now (write_db ops s), pn_used (write_db ops s), pn_checking (write_db ops s), pn_accepted (write_db ops s)) =
  (pn_now s, pn_used s, pn_checking s, pn_accepted s).
Proof.
  unfold write_db. revert s. induction ops as [|op ops IH]; intros s; [done|]. cbn [fold_left].
  destruct (IH (note_op op (set_db (apply_op op (pn_db s)) s))) as [-> ->]. by destruct op.
Qed.
Lemma write_db_code ops s : code_ok s -> code_ok (write_db ops s).
Proof. destruct (write_db_frame ops s) as [_ [= E1 E2 E3 E4]]. intros [H1 H2 H3 H4]. split; rewrite ?E1, ?E2, ?E3, ?E4; done. Qed.

(** A commit: what was written goes in whole. *)
Lemma kept_commit s i k ops t :
  db_ok s -> code_ok s -> know_ok s i k -> kn_ops k = Some ops -> whole k ops -> pn_txs s !! i = Some t -> tx_ops t = ops ->
  ops = [] \/ tx_base t = Some (pn_db s) ->
  kept s i (mkUknow None None None false None (kn_key k)) (write_db ops (set_txs (delete i (pn_txs s)) s)).
Proof.
  intros Hdb Hcode Hk Eops Hw Et Eto Hbase. set (s1 := set_txs (delete i (pn_txs s)) s).
  assert (Hdb1 : db_ok s1) by by apply (core_db s).
  assert (Hfair : ops <> [] -> fair_write s1 i (write_db ops s1)).
  { intros Hne. destruct Hbase as [->|Hbase]; [done|]. destruct Hk as [Hd Htx _]. unfold tx_known in Htx. rewrite Eops in Htx.
    destruct Htx as (t' & Et' & _ & Hrow & Hemp). rewrite Et in Et'. injection Et' as <-. rewrite Hbase in Hrow, Hemp.
    destruct ops as [|op ops]; [done|]. destruct op as [sel|h at_|h row|u pw], ops as [|op2 ops]; try done.
    - by apply fair_delete.
    - destruct op2 as [| |h' row'|]; try done. destruct ops; [|done].
      destruct Hw as (Ht & Hc' & row & Hkr & Hc & Hu & Hf). destruct (Hrow _ _ Hkr) as (b & [= <-] & Hb).
      apply (fair_rotate s1 i h at_ row h' row' (kn_fam k)); try done. rewrite <-Ht. by apply (core_drawn s).
    - destruct (Hemp Hw) as (b & [= <-] & Hb). by apply fair_admin. }
  destruct (write_db_frame ops s1) as [Etx [= E1 E2 E3 E4]]. destruct ops as [|op ops].
  - apply kept_txs with (k := k); try done.
    + intros j Hj. by rewrite lookup_delete_ne.
    + unfold tx_known. cbn. apply lookup_delete_eq.
  - apply (kept_write s i k); try done; [by apply Hfair|by apply write_db_code; destruct Hcode; split|..].
    + intros j Hj. rewrite Etx. cbn. by rewrite lookup_delete_ne.
    + unfold tx_known. cbn [kn_ops]. rewrite Etx. cbn. apply lookup_delete_eq.
Qed.

Section Panel.
Variable sha256_hex : string -> string.
Variable CheckPassword : string -> string -> bool.
Variable marshal_hashes : list string -> string.
Variable unmarshal_hashes : string -> list string.
Variable RFC3339 : Time -> string.
Variable parse_RFC3339 : string -> option Time.
Variable ParseIP : string -> option IP.
Variable TokenExpiry : string.

Notation panel_step := (panel_step sha256_hex).
Notation uknow_next := (uknow_next sha256_hex).
Notation usafe := (usafe sha256_hex).
Notation auth_request :=
  (auth_request sha256_hex CheckPassword marshal_hashes unmarshal_hashes RFC3339 parse_RFC3339 ParseIP TokenExpiry).
Notation auth_step :=
  (auth_step sha256_hex CheckPassword marshal_hashes unmarshal_hashes RFC3339 parse_RFC3339 ParseIP TokenExpiry).

Lemma know_tx s i k ops : know_ok s i k -> kn_ops k = Some ops ->
  exists t, pn_txs s !! i = Some t /\ tx_ops t = ops /\
    (forall h row, kn_row k = Some (h, row) -> exists b, tx_base t = Some b /\ db_tokens b !! h = Some row) /\
    (kn_empty k = true -> exists b, tx_base t = Some b /\ db_admins b = ∅).
Proof. intros [_ Ht _] E. unfold tx_known in Ht. by rewrite E in Ht. Qed.

(** A statement of an open transaction, with what it lets know. *)
Lemma kept_tx s i k k' ops t' :
  db_ok s -> code_ok s -> know_ok s i k -> (kn_tok k', kn_fam k', kn_key k') = (kn_tok k, kn_fam k, kn_key k) ->
  kn_ops k' = Some ops -> tx_ops t' = ops ->
  (forall h row, kn_row k' = Some (h, row) -> exists b, tx_base t' = Some b /\ db_tokens b !! h = Some row) ->
  (kn_empty k' = true -> exists b, tx_base t' = Some b /\ db_admins b = ∅) ->
  kept s i k' (set_txs (<[i := t']> (pn_txs s)) s).
Proof.
  intros Hdb Hcode Hk [= E1 E2 E3] Eops Et Hrow Hemp. apply kept_txs with (k := k); try done.
  - intros j Hj. by rewrite lookup_insert_ne.
  - unfold tx_known. rewrite Eops. exists t'. cbn. by rewrite lookup_insert_eq.
  - rewrite E1, E2. apply Hk.
Qed.

(** A write of it. *)
Lemma kept_tx_write s i k op ops fits x s' :
  db_ok s -> code_ok s -> know_ok s i k -> kn_ops k = Some ops -> tx_writes s i op fits x s' ->
  kept s i (if x then mkUknow (kn_tok k) (kn_fam k) (kn_row k) (kn_empty k) ((fun ops => ops ++ [op]) <$> kn_ops k) (kn_key k) else k) s'.
Proof.
  intros Hdb Hcode Hk Eops Hw. destruct (know_tx _ _ _ _ Hk Eops) as (t & Et & Eto & Hrow & Hemp).
  unfold tx_writes, in_tx in Hw. rewrite Et in Hw. destruct Hw as [(-> & _ & ->)|[-> ->]]; [|by apply kept_same].
  apply kept_tx with (k := k) (ops := ops ++ [op]); try done; cbn [kn_ops kn_row kn_empty tx_write tx_ops tx_base].
  - by rewrite Eops.
  - by rewrite Eto.
  - intros h row Hr. destruct (Hrow h row Hr) as (b & Eb & ?). exists b. unfold tx_read. by rewrite Eb.
  - intros He. destruct (Hemp He) as (b & Eb & ?). exists b. unfold tx_read. by rewrite Eb.
Qed.

Lemma kept_draw_token s i k tok :
  db_ok s -> code_ok s -> know_ok s i k -> sha256_hex tok ∉ dom (pn_drawn s) ->
  kept s i (mkUknow (Some (sha256_hex tok)) (kn_fam k) (kn_row k) (kn_empty k) (kn_ops k) (kn_key k))
    (set_drawn (<[sha256_hex tok := i]> (pn_drawn s)) (pn_drawn_families s) s).
Proof.
  intros Hdb Hcode Hk Hnew. pose proof Hdb as [H1 H2 H3 H4 H5 H6 H7].
  assert (Hno : db_tokens (pn_db s) !! sha256_hex tok = None) by (apply eq_None_not_Some; intros [row Hr]; by eapply Hnew, H1).
  assert (Hns : sha256_hex tok ∉ pn_spent s) by (intros Hin; by apply Hnew, H3).
  split; try done.
  - split; cbn; try done.
    + intros h row Hr. apply dom_insert. set_solver.
    + intros h Hh. destruct (H3 h Hh). split; [set_solver|done].
  - by destruct Hcode; split.
  - destruct Hk as [[Ht Hf] Htx Hkey]. split; [|done|done]. split; [|done]. intros h [= <-]. cbn. by rewrite lookup_insert_eq.
  - intros j tok' fam Hj [Ht Hf]. split; [|done]. intros h Hh. destruct (Ht h Hh) as (Hd & ?). split; [|done].
    cbn. rewrite lookup_insert_ne; [done|]. intros E. apply Hnew. rewrite E. by eapply elem_of_dom_2.
Qed.

Lemma kept_draw_family s i k f :
  db_ok s -> code_ok s -> know_ok s i k -> f ∉ dom (pn_drawn_families s) -> f <> "" ->
  kept s i (mkUknow (kn_tok k) (Some f) (kn_row k) (kn_empty k) (kn_ops k) (kn_key k))
    (set_drawn (pn_drawn s) (<[f := i]> (pn_drawn_families s)) s).
Proof.
  intros Hdb Hcode Hk Hnew Hne. pose proof Hdb as [H1 H2 H3 H4 H5 H6 H7].
  assert (Hni : f ∉ dom (pn_issued s)) by (intros Hin; by apply Hnew, H5).
  split; try done.
  - split; cbn; try done. intros g Hg. destruct (H5 g Hg). split; [set_solver|done].
  - by destruct Hcode; split.
  - destruct Hk as [[Ht Hf] Htx Hkey]. split; [|done|done]. split; [done|]. intros g [= <-]. cbn. by rewrite lookup_insert_eq.
  - intros j tok' fam Hj [Ht Hf]. split; [done|]. intros g Hg. destruct (Hf g Hg) as (Hd & ?). split; [|done].
    cbn. rewrite lookup_insert_ne; [done|]. intros E. apply Hnew. rewrite E. by eapply elem_of_dom_2.
Qed.

Lemma kept_forget s i k k' s' :
  kept s i k s' -> (forall h, kn_tok k' = Some h -> kn_tok k = Some h) -> (forall f, kn_fam k' = Some f -> kn_fam k = Some f) ->
  (kn_row k', kn_empty k', kn_ops k', kn_key k') = (kn_row k, kn_empty k, kn_ops k, kn_key k) -> kept s i k' s'.
Proof.
  intros [H1 H2 H3 [[Hd1 Hd2] Htx Hkey] H5 H6 H7] Ht Hf [= E1 E2 E3 E4]. split; try done. split.
  - split; [intros h Hh; by apply Hd1, Ht|intros f Hff; by apply Hd2, Hf].
  - unfold tx_known in *. by rewrite E1, E2, E3.
  - by rewrite E4.
Qed.


(** ** Every call keeps the rules *)

Lemma kept_insert s i k h row x s' :
  db_ok s -> code_ok s -> know_ok s i k -> uknow_ok k (uact (DBInsertToken h row) x) ->
  panel_step s i (DBInsertToken h row) x s' -> kept s i (mkUknow None None (kn_row k) (kn_empty k) (kn_ops k) (kn_key k)) s'.
Proof.
  intros Hdb Hcode Hk (Ht & Hf & Hc & Ho) [[_ ->]|[_ ->]].
  - destruct (write_db_frame [OpInsert h row] s) as [Etx _]. apply (kept_write s i k); try done.
    + apply fair_insert; [done| |done]. rewrite <-Ht, <-Hf. apply Hk.
    + by apply write_db_code.
    + unfold tx_known. cbn [kn_ops]. rewrite Ho. rewrite Etx. destruct Hk as [_ Htx _]. unfold tx_known in Htx. by rewrite Ho in Htx.
  - apply (kept_forget s i k); [by apply kept_same|done..].
Qed.

Lemma kept_delete s i k sel x s' :
  db_ok s -> code_ok s -> know_ok s i k -> panel_step s i (DBDeleteTokens sel) x s' -> kept s i k s'.
Proof.
  intros Hdb Hcode Hk [[_ ->]|[_ ->]]; [|by apply kept_same]. apply (kept_write s i k); try done.
  - by apply fair_delete.
  - by apply write_db_code.
  - (* its own draws: a deletion takes rows away *)
    destruct Hk as [[Ht Hf] _ _]. split; [|done]. intros h Hh. destruct (Ht h Hh) as (? & Hn & ?). split_and!; [done| |done].
    destruct (db_tokens (pn_db (write_db [OpDelete sel] s)) !! h) as [row|] eqn:E; [|done].
    by apply delete_lookup in E; rewrite Hn in E.
  - destruct Hk as [_ Htx _]. exact Htx.
Qed.

Lemma kept_admin_write s i k u f x s' :
  db_ok s -> code_ok s -> know_ok s i k ->
  s' = set_db (set_admins (alter f u (db_admins (pn_db s))) (pn_db s)) s \/ x = false /\ s' = s -> kept s i k s'.
Proof.
  intros Hdb Hcode Hk [->|[_ ->]]; [|by apply kept_same]. apply kept_admins; try done.
  intros Hne E. apply Hne. apply map_eq. intros j. rewrite lookup_empty. destruct (db_admins (pn_db s) !! j) as [a|] eqn:Ej; [|done].
  assert (Hj : is_Some (alter f u (db_admins (pn_db s)) !! j)) by (apply lookup_alter_is_Some; by exists a).
  rewrite E, lookup_empty in Hj. by destruct Hj.
Qed.

Lemma kept_begin s i k x s' :
  db_ok s -> code_ok s -> know_ok s i k -> uknow_ok k (uact TxBegin x) -> panel_step s i TxBegin x s' ->
  kept s i (uknow_next k (uact TxBegin x)) s'.
Proof.
  intros Hdb Hcode Hk Ho Hs. cbn in Ho. cbn [uknow_next uact act]. destruct Hs as [[-> ->]|[-> ->]].
  - apply kept_tx with (k := k) (ops := []); done.
  - destruct (kept_same s i k Hdb Hcode Hk s eq_refl eq_refl eq_refl) as [H1 H2 H3 [Hd Htx Hkey] H5 H6 H7].
    split; try done. split; [done| |done]. unfold tx_known in *. cbn [kn_ops]. by rewrite Ho in *.
Qed.

Lemma kept_rollback s i k s' :
  db_ok s -> code_ok s -> know_ok s i k -> s' = set_txs (delete i (pn_txs s)) s ->
  kept s i (mkUknow (kn_tok k) (kn_fam k) None false None (kn_key k)) s'.
Proof.
  intros Hdb Hcode Hk ->. apply kept_txs with (k := k); try done.
  - intros j Hj. by rewrite lookup_delete_ne.
  - unfold tx_known. cbn. apply lookup_delete_eq.
  - apply Hk.
Qed.

(** A read of the open transaction, which wrote nothing yet. *)
Lemma tx_reads_inv {A} s i k (failed x : A) s' answer :
  know_ok s i k -> kn_ops k = Some [] -> tx_reads s i failed x s' answer ->
  (exists b, x = answer b /\ s' = set_txs (<[i := mkTx (Some b) []]> (pn_txs s)) s /\
     (forall h row, kn_row k = Some (h, row) -> db_tokens b !! h = Some row) /\ (kn_empty k = true -> db_admins b = ∅)) \/
  x = failed /\ s' = s.
Proof.
  intros Hk Eops Hr. destruct (know_tx _ _ _ _ Hk Eops) as (t & Et & Eto & Hrow & Hemp).
  unfold tx_reads, in_tx in Hr. rewrite Et in Hr. destruct Hr as [[-> ->]|]; [|by right]. left.
  exists (tx_read (pn_db s) t). unfold tx_view, tx_touch. rewrite Eto. split_and!; [done|done| |].
  - intros h row Hh. destruct (Hrow h row Hh) as (b & Eb & ?). unfold tx_read. by rewrite Eb.
  - intros He. destruct (Hemp He) as (b & Eb & ?). unfold tx_read. by rewrite Eb.
Qed.

Lemma kept_read_token s i k h x s' :
  db_ok s -> code_ok s -> know_ok s i k -> kn_ops k = Some [] -> panel_step s i (TxToken h) x s' ->
  kept s i (uknow_next k (uact (TxToken h) x)) s'.
Proof.
  intros Hdb Hcode Hk Eops Hr. cbn [panel_step] in Hr.
  destruct (tx_reads_inv _ _ _ _ _ _ _ Hk Eops Hr) as [(b & -> & -> & Hrow & Hemp)|[-> ->]]; [|by apply kept_same].
  cbn [uknow_next uact act]. destruct (db_tokens b !! h) as [row|] eqn:Eb.
  - apply kept_tx with (k := k) (ops := []); try done; cbn.
    + intros h' row' [= <- <-]. by exists b.
    + intros He. exists b. split; [done|]. by apply Hemp.
  - apply kept_tx with (k := k) (ops := []); try done; cbn.
    + intros h' row' Hr'. exists b. split; [done|]. by apply Hrow.
    + intros He. exists b. split; [done|]. by apply Hemp.
Qed.

Lemma kept_count s i k x s' :
  db_ok s -> code_ok s -> know_ok s i k -> kn_ops k = Some [] -> panel_step s i TxAdmins x s' ->
  kept s i (uknow_next k (uact TxAdmins x)) s'.
Proof.
  intros Hdb Hcode Hk Eops Hr. cbn [panel_step] in Hr.
  destruct (tx_reads_inv _ _ _ _ _ _ _ Hk Eops Hr) as [(b & -> & -> & Hrow & Hemp)|[-> ->]]; [|by apply kept_same].
  cbn [uknow_next uact act].
  assert (Hr' : forall h row, kn_row k = Some (h, row) -> exists b', tx_base (mkTx (Some b) []) = Some b' /\ db_tokens b' !! h = Some row).
  { intros h row Hh. exists b. split; [done|]. by apply Hrow. }
  destruct (size (db_admins b)) eqn:Es; apply kept_tx with (k := k) (ops := []); try done; cbn.
  - intros _. exists b. split; [done|]. by apply map_size_empty_inv.
  - intros He. exists b. split; [done|]. by apply Hemp.
Qed.

Lemma kept_named s i k u x s' :
  db_ok s -> code_ok s -> know_ok s i k -> panel_step s i (TxAdminNamed u) x s' -> kept s i k s'.
Proof.
  intros Hdb Hcode Hk Hr. cbn [panel_step] in Hr. unfold tx_reads, in_tx in Hr.
  destruct (pn_txs s !! i) as [t|] eqn:Et; [|destruct Hr as [_ ->]; by apply kept_same].
  destruct Hr as [[_ ->]|[_ ->]]; [|by apply kept_same]. destruct (kn_ops k) as [ops|] eqn:Eops.
  - destruct (know_tx _ _ _ _ Hk Eops) as (t' & Et' & Eto & Hrow & Hemp). rewrite Et in Et'. injection Et' as <-.
    apply kept_tx with (k := k) (ops := ops); try done; unfold tx_touch, tx_read; cbn [tx_base].
    + intros h row Hh. destruct (Hrow h row Hh) as (b & Eb & ?). exists b. by rewrite Eb.
    + intros He. destruct (Hemp He) as (b & Eb & ?). exists b. by rewrite Eb.
  - destruct Hk as [_ Htx _]. unfold tx_known in Htx. rewrite Eops, Et in Htx. done.
Qed.

Lemma kept_call s i k c x s' :
  db_ok s -> code_ok s -> know_ok s i k -> uknow_ok k (uact c x) -> panel_step s i c x s' -> kept s i (uknow_next k (uact c x)) s'.
Proof.
  intros Hdb Hcode Hk Hok Hs. destruct c; try (by (cbn in Hs; repeat case_match; destruct_and?; subst; apply kept_same)).
  - (* ReserveCode *) cbn in Hs, Hok. destruct (reserve_code _ _ _ _) as [key used] eqn:Er. destruct Hs as [-> ->].
    destruct Hk as [Hd Htx Hkey]. rewrite Hok in Hkey. symmetry in Hkey. apply fmap_None in Hkey as Hch.
    destruct (code_reserve s i secret code key used Hcode Hch Er) as [Hc' Hkey'].
    apply kept_codes with (k := k); try done; [by split; rewrite ?Hok|].
    intros j Hj. destruct key; [by rewrite lookup_insert_ne|done].
  - (* CheckCode *) cbn in Hs, Hok. destruct x; [|subst; by apply kept_same]. cbn [uknow_next uact act].
    destruct (pn_checking s !! i) as [u|] eqn:Eu; [|destruct Hk as [_ _ Hkey]; by rewrite Eu in Hkey]. subst s'.
    apply kept_codes with (k := k); try done; [by apply code_accept| |].
    + intros j Hj. by rewrite lookup_delete_ne.
    + cbn. by rewrite lookup_delete_eq.
  - (* ReleaseCode *) cbn in Hs, Hok. cbn [uknow_next uact act]. destruct (pn_checking s !! i) as [u|] eqn:Eu; [|destruct Hk as [_ _ Hkey]; rewrite Eu in Hkey; cbn in Hkey; congruence].
    destruct Hk as [Hd Htx Hkey]. rewrite Eu, Hok in Hkey. injection Hkey as ->. subst s'.
    apply kept_codes with (k := k); try done; [by split; rewrite ?Eu, ?Hok|by apply code_release| |].
    + intros j Hj. by rewrite lookup_delete_ne.
    + cbn. by rewrite lookup_delete_eq.
  - (* MintTicket *) destruct Hs as [ticket Hs]. destruct (AuthGuards.MintWSTicket _ _ _ _) as [t m]. destruct Hs as [-> ->]. by apply kept_same.
  - (* RandToken *) cbn [panel_step uknow_next uact act] in *. destruct x as [tok|].
    + destruct Hs as [Hn ->]. by apply kept_draw_token.
    + subst s'. apply (kept_forget s i k); [by apply kept_same|done..].
  - (* RandFamily *) cbn [panel_step uknow_next uact act] in *. destruct x as [f|].
    + destruct Hs as (Hn & Hne & ->). by apply kept_draw_family.
    + subst s'. apply (kept_forget s i k); [by apply kept_same|done..].
  - by eapply kept_admin_write.
  - by eapply kept_admin_write.
  - by apply (kept_insert s i k hash row x).
  - by apply (kept_delete s i k sel x).
  - by apply kept_begin.
  - by apply kept_read_token.
  - by eapply kept_named.
  - by apply kept_count.
  - exact (kept_tx_write s i k (OpDelete _) _ _ _ _ Hdb Hcode Hk Hok Hs).
  - destruct Hok as [Ho _]. exact (kept_tx_write s i k (OpConsume _ _) _ _ _ _ Hdb Hcode Hk Ho Hs).
  - destruct Hok as (_ & _ & h & at_ & row' & Ho & _). exact (kept_tx_write s i k (OpInsert _ _) _ _ _ _ Hdb Hcode Hk Ho Hs).
  - destruct Hok as [Ho _]. exact (kept_tx_write s i k (OpAdmin _ _) _ _ _ _ Hdb Hcode Hk Ho Hs).
  - (* TxCommit *) destruct Hok as (ops & Eops & Hw). cbn [panel_step] in Hs. cbn [uknow_next uact act].
    destruct (know_tx _ _ _ _ Hk Eops) as (t & Et & Eto & _). unfold in_tx in Hs. rewrite Et in Hs.
    destruct Hs as [(-> & Hb & ->)|[-> ->]].
    + rewrite Eto in Hb |- *. by apply (kept_commit s i k ops t).
    + apply (kept_forget s i (mkUknow (kn_tok k) (kn_fam k) None false None (kn_key k))); [by apply kept_rollback|done..].
  - by apply kept_rollback.
Qed.

(** ** Whatever is asked of the panel *)

Record host_ok (h : auth_host) : Prop := {
  ho_db : db_ok (uh_panel h);
  ho_code : code_ok (uh_panel h);
  ho_pool : exists ks, Forall2 (fun k p => usafe k p whatever) ks (uh_pool h) /\
                       (forall i k, ks !! i = Some k -> know_ok (uh_panel h) i k);
  ho_later i : (length (uh_pool h) <= i)%nat -> pn_txs (uh_panel h) !! i = None /\ pn_checking (uh_panel h) !! i = None;
}.

(** A step that leaves the goroutines be, and what they know. *)
Lemma host_same h s :
  host_ok h -> db_ok s -> code_ok s ->
  (forall i tok fam, drawn_ok (uh_panel h) i tok fam -> drawn_ok s i tok fam) ->
  pn_txs s = pn_txs (uh_panel h) -> pn_checking s = pn_checking (uh_panel h) -> host_ok (mkAuthHost s (uh_pool h)).
Proof.
  intros [_ _ (ks & Hp & Hk) Hl] Hdb Hcode Hd Ht Hc. split; [done|done| |].
  - exists ks. split; [done|]. intros i k Hi. destruct (Hk i k Hi) as [Hdr Htx Hkey]. split; [by apply Hd| |].
    + unfold tx_known in *. cbn. by rewrite Ht.
    + cbn. by rewrite Hc.
  - intros i Hi. cbn. rewrite Ht, Hc. by apply Hl.
Qed.

Lemma host_call h i c k x s :
  host_ok h -> uh_pool h !! i = Some (Do c k) -> panel_step (uh_panel h) i c x s ->
  host_ok (mkAuthHost s (<[i := k x]> (uh_pool h))) /\ steady (uh_panel h) s.
Proof.
  intros [Hdb Hcode (ks & Hp & Hk) Hl] Hi Hs. destruct (Forall2_lookup_r _ _ _ _ _ Hp Hi) as (kn & Hki & Hsafe).
  destruct (Hsafe x I) as [Hok Hnext]. pose proof (kept_call _ _ _ _ _ _ Hdb Hcode (Hk i kn Hki) Hok Hs) as Hkept.
  pose proof (lookup_lt_Some _ _ _ Hi) as Hlt. split; [|apply Hkept]. split; [apply Hkept..| |].
  - exists (<[i := uknow_next kn (uact c x)]> ks). split; [by apply Forall2_insert|].
    intros j kj [(<- & <- & _)|[Hne Hj]]%list_lookup_insert_Some; [apply Hkept|].
    apply (kept_others _ _ _ _ _ _ Hkept); [congruence|by apply Hk].
  - cbn [uh_pool uh_panel]. rewrite length_insert. intros j Hj. rewrite (kp_txs _ _ _ _ Hkept), (kp_checking _ _ _ _ Hkept) by lia. by apply Hl.
Qed.

Lemma adopts_one m m' : adopts m m' -> m' <> ∅.
Proof. intros (u & row & [[-> _]|(old & a & _ & _ & ->)]); apply insert_non_empty. Qed.

Lemma restarted_ok h : host_ok h -> host_ok (mkAuthHost (restarted (uh_panel h)) []).
Proof.
  intros [Hdb _ _ _]. split; [by apply (core_db (uh_panel h))| | |done].
  - split; cbn; [constructor|..]; try done. intros u [Hu|[i Hi]]; [by apply elem_of_nil in Hu|done].
  - exists []. split; [constructor|]. by intros i k ?.
Qed.

Lemma forgetAccounts_ok h : host_ok h -> host_ok (mkAuthHost (forgetAccounts (restarted (uh_panel h))) []).
Proof.
  intros Ho. destruct (restarted_ok h Ho) as [Hdb Hcode _ _]. split; [| | |done].
  - destruct Hdb as [H1 H2 H3 H4 H5 H6 (H7 & H7' & _)]. split; try done. cbn. split_and!; [done| |].
    + intros n Hn. specialize (H7' n Hn). cbn in H7'. lia.
    + intros Hn. specialize (H7' _ Hn). cbn in H7'. lia.
  - by destruct Hcode; split.
  - exists []. split; [constructor|]. by intros i k ?.
Qed.

Lemma host_step_ok h h' : host_ok h -> auth_step h h' -> host_ok h' /\ steady (uh_panel h) (uh_panel h').
Proof.
  intros Ho Hs. pose proof Ho as [Hdb Hcode (ks & Hp & Hk) Hl]. destruct Hs as [h i c k x s Hi Hs|h p Hr|h t Ht|h op Hop|h ticket|h m Hm|h|h].
  - by apply (host_call h i c k x s).
  - split; [|by apply core_steady]. pose proof (Forall2_length _ _ _ Hp) as Elen. split; [done|done| |].
    + exists (ks ++ [idle]). split; [apply Forall2_app; [done|]; constructor; [by eapply request_safe|constructor]|].
      intros i k [Hi|[Hge Hi]]%lookup_app_Some; [by apply Hk|]. apply list_lookup_singleton_Some in Hi as [E <-].
      destruct (Hl i ltac:(lia)) as [Ht Hc]. split; [by split; intros ? ?| |cbn; by rewrite Hc]. exact Ht.
    + cbn. rewrite length_app. intros i Hi. apply Hl. lia.
  - split; [|by apply core_steady]. apply host_same; try done; [by apply (core_db (uh_panel h))|by apply code_later].
  - split; [|by apply core_steady]. apply host_same; try done; [by apply (core_db (uh_panel h))|by destruct Hcode; split].
  - split; [|by apply core_steady]. apply host_same; try done; [by apply (core_db (uh_panel h))|by destruct Hcode; split].
  - assert (Hkept : forall i, know_ok (uh_panel h) i idle -> kept (uh_panel h) i idle (set_db (set_admins m (pn_db (uh_panel h))) (uh_panel h))).
    { intros i Hi. apply kept_admins; [done..|]. intros _. by eapply adopts_one. }
    destruct (Hl (length (uh_pool h)) ltac:(lia)) as [Ht Hc].
    destruct (Hkept (length (uh_pool h))) as [H1 H2 H3 _ _ _ _]; [split; [by split; intros ? ?|exact Ht|cbn; by rewrite Hc]|].
    split; [|done]. apply host_same; done.
  - split; [by apply restarted_ok|by apply core_steady].
  - split; [by apply forgetAccounts_ok|]. split; [by intros f Hf|]. split; cbn; [lia|]. intros E. lia.
Qed.

Lemma steady_trans s1 s2 s3 : steady s1 s2 -> steady s2 s3 -> steady s1 s3.
Proof.
  intros [He1 Hs1] [He2 Hs2]. split.
  - intros f Hf. destruct (He1 f Hf) as [Hf2 Hl1]. destruct (He2 f Hf2) as [? Hl2]. split; [done|]. auto.
  - destruct Hs1 as [Hf1 Hs1], Hs2 as [Hf2 Hs2]. split; [lia|]. intros Ef Ha.
    destruct (Hs1 ltac:(lia) Ha) as [Ha2 E1]. destruct (Hs2 ltac:(lia) Ha2) as [? E2]. split; [done|congruence].
Qed.

Lemma host_steps_ok h h' : rtc auth_step h h' -> host_ok h -> host_ok h' /\ steady (uh_panel h) (uh_panel h').
Proof.
  induction 1 as [h|h1 h2 h3 H12 _ IH]; intros Ho; [split; [done|by apply core_steady]|].
  destruct (host_step_ok _ _ Ho H12) as [Ho2 Hs1]. destruct (IH Ho2) as [? Hs2]. split; [done|]. by eapply steady_trans.
Qed.

(** A database from before families. *)
Definition legacy (d : auth_db) : Prop := forall h row, db_tokens d !! h = Some row -> tr_family row = "".

Lemma opened_ok d now : legacy d -> host_ok (opened d now).
Proof.
  intros Hd. split; cbn; [|split|exists []; by split|done].
  - split; cbn; try done.
    + intros h row Hr. rewrite dom_gset_to_gmap. by eapply elem_of_dom_2.
    + constructor.
    + intros h Hh. by apply elem_of_nil in Hh.
    + intros h row Hr Hne. by rewrite (Hd h row Hr) in Hne.
    + intros h1 h2 r1 r2 H1 _ _ _ _ Hne. by rewrite (Hd h1 r1 H1) in Hne.
    + split_and!; [constructor|..]; intros; set_solver.
  - constructor.
  - done.
  - done.
  - intros u [Hu|[i Hi]]; [by apply elem_of_nil in Hu|done].
Qed.

(** C6: refresh tokens over any interleaving of the panel's requests, with its
    restarts: each is rotated away at most once and is no live token after it;
    a family has at most one live token; and every token of a family is the
    user's that family's session was opened for. *)
Theorem refresh_sessions d now h :
  legacy d -> rtc auth_step (opened d now) h ->
  NoDup (pn_spent (uh_panel h)) /\
  (forall hash row, db_tokens (pn_db (uh_panel h)) !! hash = Some row ->
     (hash ∈ pn_spent (uh_panel h) -> tr_consumed row <> None) /\
     (tr_family row <> "" -> pn_issued (uh_panel h) !! tr_family row = Some (tr_username row))) /\
  (forall hash1 hash2 row1 row2,
     db_tokens (pn_db (uh_panel h)) !! hash1 = Some row1 -> db_tokens (pn_db (uh_panel h)) !! hash2 = Some row2 ->
     tr_consumed row1 = None -> tr_consumed row2 = None -> tr_family row1 = tr_family row2 -> tr_family row1 <> "" ->
     hash1 = hash2).
Proof.
  intros Hd Hs. destruct (host_steps_ok _ _ Hs (opened_ok d now Hd)) as [[[H1 H2 H3 H4 H5 H6 H7] _ _ _] _].
  split_and!; [done| |done]. intros hash row Hr. split; [intros Hh; by apply (H3 hash Hh)|by eapply H4].
Qed.

(** C14: A session that has ended stays ended: once no live refresh token of a
    family is left, by a sign-out, a token used twice, a password changed
    elsewhere, the end of all sessions or its expiry, no request ever makes
    one again. *)
Theorem ended_sessions_stay d now h h' f :
  legacy d -> rtc auth_step (opened d now) h -> rtc auth_step h h' ->
  f ∈ dom (pn_issued (uh_panel h)) -> ~ live (pn_db (uh_panel h)) f -> ~ live (pn_db (uh_panel h')) f.
Proof.
  intros Hd Hs Hs' Hf Hl. destruct (host_steps_ok _ _ Hs (opened_ok d now Hd)) as [Ho _].
  destruct (host_steps_ok _ _ Hs' Ho) as [_ [He _]]. intros Hl'. by apply Hl, (He f Hf).
Qed.

(** C26: however many first-run setups run at once, at most one admin is made
    by one between one time the node's accounts are forgotten and the next -
    when the server boots as an agent - and none while the node has an admin. *)
Theorem one_admin_set_up d now h h' :
  legacy d -> rtc auth_step (opened d now) h -> rtc auth_step h h' ->
  NoDup (pn_made (uh_panel h')).*1 /\
  (db_admins (pn_db (uh_panel h)) <> ∅ -> pn_forgotten (uh_panel h') = pn_forgotten (uh_panel h) ->
   db_admins (pn_db (uh_panel h')) <> ∅ /\ pn_made (uh_panel h') = pn_made (uh_panel h)).
Proof.
  intros Hd Hs Hs'. destruct (host_steps_ok _ _ Hs (opened_ok d now Hd)) as [Ho _].
  destruct (host_steps_ok _ _ Hs' Ho) as [[[_ _ _ _ _ _ [H _]] _ _ _] [_ [_ Hset]]]. split; [done|]. intros Ha Hf. by apply Hset.
Qed.

(** C27: until the panel restarts, a code of the second factor is accepted for
    a secret at most once in a period, however many requests bring it at
    once: sign-ins, a second factor being set up or taken off. *)
Theorem codes_accepted_once d now h :
  legacy d -> rtc auth_step (opened d now) h -> NoDup (pn_accepted (uh_panel h)).
Proof.
  intros Hd Hs. destruct (host_steps_ok _ _ Hs (opened_ok d now Hd)) as [[_ [H _ _ _] _ _] _]. by apply NoDup_fmap_1 in H.
Qed.
End Panel.
