(* ===== verification/AuthFacts.v ===== *)
(** * What the sign-in's guards keep

    The login limit, the signature of internal requests, and the gates of the
    handlers: what must have been checked before a session is opened or an
    account is changed. *)

From S2P Require Import ApiCodes Prelude GoStrings GoTime ClusterFSM Interact AuthGuards AuthApi.

#[local] Open Scope prog_scope.

(** ** The login limit *)

Fixpoint limit_run (ops : list (Time * limit_op)) (l : login_limit) : login_limit :=
  match ops with
  | [] => l
  | (now, op) :: ops => limit_run ops (limit_step now op l).2
  end.

#[export] Instance loginAttempt_dec : EqDecision loginAttempt.
Proof. solve_decision. Defined.

(** An entry that still counts: its block is on, or its minute runs. *)
Definition counting (now : Time) (a : loginAttempt) : bool :=
  (now <? la_blockedUntil a) || (now - la_firstAt a <=? rateLimitWindow).
(** The limit forgets an address whose entry still counts: one is cleared, the
    panel restarts, or the pruner drops an entry that changed since it was
    judged. *)
Definition forgets (now : Time) (ip : string) (op : limit_op) (l : login_limit) : bool :=
  match ll_attempts l !! ip with
  | None => false
  | Some a =>
      counting now a &&
      match op with
      | ClearAttempts ip' => ip' ==s ip
      | PruneDrop => match ll_pruning l with Some (_, Some (ip', judged)) => (ip' ==s ip) && negb (bool_decide (judged = a)) | _ => false end
      | LimitRestart => true
      | _ => false
      end
  end.
(** How often it does. *)
Fixpoint forgotten (ip : string) (ops : list (Time * limit_op)) (l : login_limit) : nat :=
  match ops with
  | [] => 0
  | (now, op) :: ops => (if forgets now ip op l then 1 else 0) + forgotten ip ops (limit_step now op l).2
  end.

Definition attempt_ok (now : Time) (a : loginAttempt) : Prop :=
  1 <= la_count a /\ la_firstAt a <= now /\ (rateLimitMaxAttempts <= la_count a -> la_firstAt a + rateLimitWindow < la_blockedUntil a).
Definition limits_ok (now : Time) (m : gmap string loginAttempt) : Prop := forall ip a, m !! ip = Some a -> attempt_ok now a.
(** The pruner at work judged what it is to drop idle, by an earlier clock. *)
Definition pruner_ok (now : Time) (l : login_limit) : Prop :=
  forall began judged, ll_pruning l = Some (began, judged) ->
    began <= now /\ forall ip a, judged = Some (ip, a) -> idle_attempt began a = true.
Definition limit_ok (now : Time) (l : login_limit) : Prop := limits_ok now (ll_attempts l) /\ pruner_ok now l.

Lemma attempt_step_ok now ip m : limits_ok now m -> limits_ok now (preRecordLoginAttempt now ip m).2.
Proof.
  intros Hm. unfold preRecordLoginAttempt.
  assert (Hput : forall a, attempt_ok now a -> limits_ok now (<[ip := a]> m)).
  { intros a Ha ip' a'. intros [[<- <-]|[_ Hl]]%lookup_insert_Some; [done|by eapply Hm]. }
  assert (Hfresh : attempt_ok now (fresh_attempt now)) by (unfold attempt_ok, rateLimitMaxAttempts; simpl; lia).
  destruct (m !! ip) as [a|] eqn:E; [|by apply Hput]. destruct (Hm ip a E) as (H1 & H2 & H3).
  destruct (Z.ltb_spec now (la_blockedUntil a)); [done|]. destruct (Z.ltb_spec rateLimitWindow (now - la_firstAt a)); [by apply Hput|].
  apply Hput. unfold attempt_ok. simpl. split_and!; [lia|done|].
  destruct (Z.leb_spec rateLimitMaxAttempts (la_count a + 1)); [|lia]. unfold rateLimitWindow, rateLimitBlockDuration, Minute, Second in *. lia.
Qed.

Lemma limit_step_ok now op l : limit_ok now l -> limit_ok now (limit_step now op l).2.
Proof.
  intros [Hm Hp]. assert (Hdel : forall ip, limits_ok now (delete ip (ll_attempts l))).
  { intros ip ip' a [_ Ha]%lookup_delete_Some. by eapply Hm. }
  destruct op as [ip|ip| |ip| |]; simpl.
  - pose proof (attempt_step_ok now ip (ll_attempts l) Hm) as H. by destruct (preRecordLoginAttempt now ip (ll_attempts l)).
  - split; [apply Hdel|done].
  - split; [done|]. by intros ? ? [= <- <-].
  - unfold pruneLoginAttempts_judge. destruct (ll_pruning l) as [[began [?|]]|] eqn:Ep; try done.
    destruct (ll_attempts l !! ip) as [a|]; [|done]. split; [done|]. intros ? ? [= <- <-].
    split; [by eapply Hp|]. intros ip' a'. by destruct (idle_attempt began a) eqn:E; intros [= <- <-].
  - unfold pruneLoginAttempts_drop. destruct (ll_pruning l) as [[began [[ip a]|]]|] eqn:Ep; try done.
    split; [apply Hdel|]. intros ? ? [= <- <-]. by split; [eapply Hp|].
  - by split.
Qed.

Lemma limit_later t t' l : t <= t' -> limit_ok t l -> limit_ok t' l.
Proof.
  intros Ht [Hm Hp]. split.
  - intros ip a Ha. destruct (Hm ip a Ha) as (? & ? & ?). unfold attempt_ok. split_and!; [done|lia|done].
  - intros began judged E. destruct (Hp began judged E). split; [lia|done].
Qed.

(** Times that never go back, from [t] on. *)
Fixpoint from (t : Time) {A} (ops : list (Time * A)) : Prop :=
  match ops with
  | [] => True
  | (now, _) :: ops => t <= now /\ from now ops
  end.

Lemma limit_run_ok t before ops l :
  limit_ok t l -> from t (before ++ ops) -> exists t', limit_ok t' (limit_run before l) /\ from t' ops.
Proof.
  revert t l. induction before as [|[now op] before IH]; intros t l Hl Hf; simpl in *; [by exists t|]. destruct Hf as [Ht Hf].
  apply (IH now (limit_step now op l).2); [|done]. by apply limit_step_ok, (limit_later t).
Qed.

(** How many attempts may pass still, up to [D]. *)
Definition allowance (D : Time) (e : option loginAttempt) : Z :=
  match e with
  | None => 5
  | Some a =>
      if D <? la_blockedUntil a then 0
      else if D - la_firstAt a <=? rateLimitWindow then Z.max 0 (5 - la_count a)
      else Z.max 5 (9 - la_count a)
  end.

Lemma allowance_range D e : 0 <= allowance D e.
Proof. unfold allowance. repeat case_match; lia. Qed.
Lemma allowance_fresh D now : D - now <= rateLimitWindow -> allowance D (Some (fresh_attempt now)) <= 4.
Proof. intros H. unfold allowance. simpl. destruct (D <? 0); [lia|]. apply Z.leb_le in H. rewrite H. lia. Qed.

Lemma attempt_spends D now ip m :
  limits_ok now m -> now <= D <= now + rateLimitWindow ->
  (if (preRecordLoginAttempt now ip m).1 then 0 else 1) + allowance D ((preRecordLoginAttempt now ip m).2 !! ip) <= allowance D (m !! ip).
Proof.
  intros Hm HD. pose proof (allowance_fresh D now ltac:(lia)) as Hf. unfold preRecordLoginAttempt.
  destruct (m !! ip) as [a|] eqn:E; cbn [fst snd]; [|rewrite lookup_insert_eq; cbn [allowance] in *; lia].
  destruct (Hm ip a E) as (H1 & H2 & H3). destruct (Z.ltb_spec now (la_blockedUntil a)); [cbn [fst snd]; rewrite E; lia|].
  destruct (Z.ltb_spec rateLimitWindow (now - la_firstAt a)); cbn [fst snd]; rewrite lookup_insert_eq.
  - unfold allowance at 2. destruct (Z.ltb_spec D (la_blockedUntil a)); [lia|]. destruct (Z.leb_spec (D - la_firstAt a) rateLimitWindow); lia.
  - unfold allowance. cbn [la_count la_firstAt la_blockedUntil]. unfold rateLimitWindow, rateLimitMaxAttempts, rateLimitBlockDuration, Minute, Second in *.
    destruct (Z.leb_spec 5 (la_count a + 1)); 
      repeat match goal with
      | |- context [?x <? ?y] => destruct (Z.ltb_spec x y)
      | |- context [?x <=? ?y] => destruct (Z.leb_spec x y)
      end; lia.
Qed.

Lemma other_attempt now ip ip' m : ip <> ip' -> (preRecordLoginAttempt now ip' m).2 !! ip = m !! ip.
Proof.
  intros Hne. unfold preRecordLoginAttempt. repeat case_match; cbn [snd]; try done; by rewrite lookup_insert_ne.
Qed.

(** An entry that does not count may be forgotten. *)
Lemma forget_spends D now ip op l e :
  now <= D <= now + rateLimitWindow -> e = None \/ e = ll_attempts l !! ip ->
  (e = None -> forall a, ll_attempts l !! ip = Some a -> counting now a = true -> forgets now ip op l = true) ->
  allowance D e <= allowance D (ll_attempts l !! ip) + 5 * (if forgets now ip op l then 1 else 0).
Proof.
  intros HD He Hf. pose proof (allowance_range D (ll_attempts l !! ip)) as Hr.
  destruct He as [->| ->]; [|case_match; lia]. destruct (ll_attempts l !! ip) as [a|] eqn:E; [|case_match; simpl in *; lia].
  destruct (counting now a) eqn:Ec; [rewrite (Hf eq_refl a eq_refl Ec); simpl in *; lia|]. unfold counting in Ec.
  apply orb_false_iff in Ec as [E1 E2]. apply Z.ltb_ge in E1. apply Z.leb_gt in E2. unfold allowance at 1 2.
  destruct (Z.ltb_spec D (la_blockedUntil a)); [lia|]. destruct (Z.leb_spec (D - la_firstAt a) rateLimitWindow); [lia|].
  case_match; lia.
Qed.

(** A drop of what was judged, unchanged since, forgets nothing that counts. *)
Lemma judged_counts_not now began a : began <= now -> idle_attempt began a = true -> counting now a = false.
Proof.
  intros Hb Hi. unfold idle_attempt, rateLimitWindow, Second in *. apply andb_true_iff in Hi as [H1 H2]. apply Z.ltb_lt in H1, H2.
  unfold counting, rateLimitWindow, Second. apply orb_false_iff. split; [apply Z.ltb_ge|apply Z.leb_gt]; lia.
Qed.

Lemma drop_spends D now ip l :
  limit_ok now l -> now <= D <= now + rateLimitWindow ->
  allowance D (ll_attempts (pruneLoginAttempts_drop l) !! ip) <=
  allowance D (ll_attempts l !! ip) + 5 * (if forgets now ip PruneDrop l then 1 else 0).
Proof.
  intros [_ Hp] HD. unfold pruneLoginAttempts_drop. destruct (ll_pruning l) as [[began [[ip' judged]|]]|] eqn:E;
    try (apply forget_spends; [done|by right|]; intros Hn a Ha; cbn in Hn; congruence).
  cbn [ll_attempts]. destruct (decide (ip' = ip)) as [->|Hne].
  2: { rewrite lookup_delete_ne by done. case_match; lia. }
  rewrite lookup_delete_eq. apply forget_spends; [done|by left|]. intros _ a Ha Hc. unfold forgets. rewrite Ha, Hc, E, String.eqb_refl.
  simpl. apply negb_true_iff, bool_decide_eq_false. intros ->. destruct (Hp _ _ E) as [Hb Hi].
  by rewrite (judged_counts_not now began a Hb (Hi _ _ eq_refl)) in Hc.
Qed.

Lemma step_spends D now ip op l :
  limit_ok now l -> now <= D <= now + rateLimitWindow ->
  (if decide ((limit_step now op l).1 = Some (ip, false)) then 1 else 0) + allowance D (ll_attempts (limit_step now op l).2 !! ip) <=
  allowance D (ll_attempts l !! ip) + 5 * (if forgets now ip op l then 1 else 0).
Proof.
  intros Hok HD. destruct op as [ip'|ip'| |ip'| |]; cbn [limit_step].
  - assert (E : forgets now ip (Attempt ip') l = false) by (unfold forgets; case_match; [apply andb_false_r|done]). rewrite E.
    pose proof (attempt_spends D now ip (ll_attempts l) (proj1 Hok) HD) as Hsp. destruct (decide (ip' = ip)) as [->|Hne].
    + destruct (preRecordLoginAttempt now ip _) as [[|] m]; simpl in *; [rewrite decide_False by congruence|rewrite decide_True by done]; lia.
    + pose proof (other_attempt now ip ip' (ll_attempts l) ltac:(congruence)) as Ho.
      destruct (preRecordLoginAttempt now ip' _) as [b m]. simpl in *. rewrite decide_False by congruence. rewrite Ho. lia.
  - cbn [fst snd ll_attempts set_attempts]. rewrite decide_False by done. destruct (decide (ip' = ip)) as [->|Hne].
    + rewrite lookup_delete_eq. apply forget_spends; [done|by left|]. intros _ a Ha Hc. unfold forgets. by rewrite Ha, Hc, String.eqb_refl.
    + rewrite lookup_delete_ne by done. destruct (forgets _ _ _ _); lia.
  - cbn [fst snd pruneLoginAttempts_begin ll_attempts]. rewrite decide_False by done. destruct (forgets _ _ _ _); lia.
  - cbn [fst snd]. rewrite decide_False by done. replace (ll_attempts (pruneLoginAttempts_judge ip' l)) with (ll_attempts l).
    + destruct (forgets _ _ _ _); lia.
    + unfold pruneLoginAttempts_judge. by repeat case_match.
  - cbn [fst snd]. rewrite decide_False by done. pose proof (drop_spends D now ip l Hok HD). lia.
  - cbn [fst snd ll_attempts no_attempts]. rewrite decide_False, lookup_empty by done. apply forget_spends; [done|by left|].
    intros _ a Ha Hc. unfold forgets. by rewrite Ha, Hc.
Qed.

Lemma admitted_allowance D ip ops t l :
  limit_ok t l -> from t ops -> t <= D -> Forall (fun o => o.1 <= D <= o.1 + rateLimitWindow) ops ->
  Z.of_nat (admitted ip ops l) <= allowance D (ll_attempts l !! ip) + 5 * Z.of_nat (forgotten ip ops l).
Proof.
  revert t l. induction ops as [|[now op] ops IH]; intros t l Hl Hf HD Hops; cbn [admitted forgotten from] in *.
  { pose proof (allowance_range D (ll_attempts l !! ip)). lia. }
  destruct Hf as [Ht Hf]. inversion Hops as [|? ? Hnow Hops']; subst. cbn [fst snd] in Hnow.
  pose proof (limit_later _ _ _ Ht Hl) as Hl'. pose proof (limit_step_ok now op l Hl') as Hok.
  specialize (IH now (limit_step now op l).2 Hok Hf ltac:(lia) Hops'). pose proof (step_spends D now ip op l Hl' Hnow) as Hsp.
  destruct (limit_step now op l) as [x l']. cbn [fst snd] in *. destruct (decide (x = Some (ip, false))), (forgets now ip op l); lia.
Qed.

(** C34: whatever else has happened at the login limit before, in any minute
    no more than eight attempts of one address pass it - five of one it does
    not know - and five more each time in it that the limit forgets the
    address while its minute or its block still runs: when one proved its
    password and is cleared, when the panel restarts, or when the pruner drops
    an entry that changed since it was judged. *)
Theorem login_attempts_bounded ip before t ops :
  from 0 (before ++ ops) -> Forall (fun o => t <= o.1 <= t + rateLimitWindow) ops ->
  let l := limit_run before no_attempts in
  (admitted ip ops l <= 8 + 5 * forgotten ip ops l)%nat /\
  (ll_attempts l !! ip = None -> (admitted ip ops l <= 5 + 5 * forgotten ip ops l)%nat).
Proof.
  intros Hall Hops l. destruct (limit_run_ok 0 before ops no_attempts) as (t' & Hok & Hf); [by split|done|].
  assert (Hb : Z.of_nat (admitted ip ops l) <= allowance (t + rateLimitWindow) (ll_attempts l !! ip) + 5 * Z.of_nat (forgotten ip ops l)).
  { destruct ops as [|[now op] ops]; [cbn; pose proof (allowance_range (t + rateLimitWindow) (ll_attempts l !! ip)); lia|].
    apply (admitted_allowance _ ip _ t'); [done|done| |].
    - inversion Hops; subst. simpl in *. lia.
    - eapply Forall_impl; [exact Hops|]. intros o Ho. cbn beta in Ho. lia. }
  split; [|intros E; rewrite E in Hb; simpl in Hb; lia]. destruct (ll_attempts l !! ip) as [a|] eqn:E; [|simpl in Hb; lia].
  destruct (proj1 Hok ip a E) as (H1 & _ & _). unfold allowance in Hb. repeat case_match; lia.
Qed.

(** ** Requests between nodes *)

Section Proxy.
Variable hmac_hex : string -> string -> string.
Notation IsInternalProxyRequest := (IsInternalProxyRequest hmac_hex).

(** A request as its header is checked: the accepted secrets, each with the
    clock as it judged the stamp and the nonce. *)
Record proxy_check : Type := mkProxyCheck {
  px_accept : list string; px_times : list (Time * Time); px_header : string; px_method : string; px_path : string;
}.
Definition check (e : proxy_check) (cache : gmap string Time) : bool * gmap string Time :=
  IsInternalProxyRequest (px_accept e) (px_times e) (px_header e) (px_method e) (px_path e) cache.
Definition check_all (es : list proxy_check) (cache : gmap string Time) : gmap string Time :=
  fold_left (fun cache e => (check e cache).2) es cache.

(** The clock never goes back, and a nonce is judged within [lag] of its stamp. *)
Definition lag : Duration := 900 * Millisecond.
Fixpoint ticks (t : Time) (times : list (Time * Time)) : Prop :=
  match times with
  | [] => True
  | (checked, now) :: times => t <= checked <= now /\ now <= checked + lag /\ ticks now times
  end.

Definition header_stamp (header : string) : Z := default 0 (atoi (default "" (splitByteN 3 header ":" !! 0%nat))).
Definition header_nonce (header : string) : string := default "" (splitByteN 3 header ":" !! 1%nat).

Lemma validateV2_inv secret header method path checked now cache ok cache' :
  validateV2 hmac_hex secret header method path checked now cache = (ok, cache') ->
  cache' = cache /\ ok = false \/
  registerNonce now (header_nonce header) cache = (ok, cache') /\
  UnixMilli checked - 30000 <= header_stamp header <= UnixMilli checked + 30000.
Proof.
  unfold validateV2, header_nonce, header_stamp. intros H. destruct (splitByteN 3 header ":") as [|ts [|nonce [|mac [|? ?]]]]; simplify_eq; try by left.
  destruct (atoi ts) as [v|] eqn:E; [|simplify_eq; by left]. cbv zeta in H. case_match eqn:Eo; [simplify_eq; by left|].
  apply orb_false_iff in Eo as [H1%Z.ltb_ge H2%Z.ltb_ge]. case_match; [|simplify_eq; by left]. right. split; [done|].
  cbn [lookup list_lookup default from_option id]. rewrite E. cbn [default from_option id].
  change (proxyClockSkew / Millisecond) with 30000 in *. lia.
Qed.

(** A nonce that was seen holds until its time is over. *)
Definition held (nonce : string) (seen t : Time) (cache : gmap string Time) : Prop :=
  t <= seen + nonceCacheTTL -> cache !! nonce = Some seen.

Lemma record_own now nonce cache : record_nonce now nonce cache !! nonce = Some now.
Proof.
  unfold record_nonce. cbv zeta. case_match; [|by rewrite lookup_insert_eq]. apply map_lookup_filter_Some.
  split; [by rewrite lookup_insert_eq|]. cbn. unfold nonceCacheTTL, proxyClockSkew, Second. lia.
Qed.
Lemma record_other now nonce cache n s : nonce <> n -> record_nonce now nonce cache !! n = Some s -> cache !! n = Some s.
Proof.
  intros Hne. unfold record_nonce. cbv zeta. case_match; [|by rewrite lookup_insert_ne]. intros [Hl _]%map_lookup_filter_Some.
  by rewrite lookup_insert_ne in Hl.
Qed.
Lemma record_keeps now nonce cache n s : nonce <> n -> now <= s + nonceCacheTTL -> cache !! n = Some s -> record_nonce now nonce cache !! n = Some s.
Proof.
  intros Hne Ht Hl. unfold record_nonce. cbv zeta. case_match; [|by rewrite lookup_insert_ne]. apply map_lookup_filter_Some.
  split; [by rewrite lookup_insert_ne|]. cbn. lia.
Qed.

Lemma register_cases now nonce (cache : gmap string Time) ok cache' :
  registerNonce now nonce cache = (ok, cache') ->
  (exists s, cache !! nonce = Some s /\ cache' = cache /\
     (ok = true /\ now <= s + sameRequestWindow \/ ok = false /\ s + sameRequestWindow < now <= s + nonceCacheTTL)) \/
  ok = true /\ cache' = record_nonce now nonce cache /\ (forall s, cache !! nonce = Some s -> s + nonceCacheTTL < now).
Proof.
  unfold registerNonce, Time in *. destruct (cache !! nonce) as [s|]; [|intros [= <- <-]; by right].
  destruct (Z.leb_spec (now - s) sameRequestWindow); [|destruct (Z.leb_spec (now - s) nonceCacheTTL)]; intros [= <- <-].
  - left. exists s. split_and!; [done..|]. left. split; [done|lia].
  - left. exists s. split_and!; [done..|]. right. split; [done|lia].
  - right. split_and!; [done..|]. intros ? [= <-]. lia.
Qed.

Lemma held_register nonce seen t now nonce' cache :
  held nonce seen t cache -> t <= now -> held nonce seen now (registerNonce now nonce' cache).2.
Proof.
  intros Hh Ht Hn. specialize (Hh ltac:(lia)). destruct (registerNonce now nonce' cache) as [ok cache'] eqn:E.
  destruct (register_cases _ _ _ _ _ E) as [(s & _ & -> & _)|(_ & -> & Hs)]; [done|]. cbn [snd].
  destruct (decide (nonce' = nonce)) as [->|]; [apply Hs in Hh; lia|by apply record_keeps].
Qed.

(** Nothing was seen in the future. *)
Definition seen_by (t : Time) (cache : gmap string Time) : Prop := forall n s, cache !! n = Some s -> s <= t.
Lemma seen_register t now nonce cache : seen_by t cache -> t <= now -> seen_by now (registerNonce now nonce cache).2.
Proof.
  intros Hs Ht n s. destruct (registerNonce now nonce cache) as [ok cache'] eqn:E. cbn [snd].
  destruct (register_cases _ _ _ _ _ E) as [(s' & _ & -> & _)|(_ & -> & _)]; [intros Hl; apply Hs in Hl; lia|].
  destruct (decide (nonce = n)) as [->|Hne]; [rewrite record_own; intros [= <-]; lia|]. intros Hl%record_other; [|done]. apply Hs in Hl. lia.
Qed.

(** What a cache keeps as time goes on. *)
Definition onward (t : Time) (cache : gmap string Time) (t' : Time) (cache' : gmap string Time) : Prop :=
  t <= t' /\ (seen_by t cache -> seen_by t' cache') /\ forall nonce seen, held nonce seen t cache -> held nonce seen t' cache'.
Lemma onward_later t t' cache : t <= t' -> onward t cache t' cache.
Proof.
  intros Ht. split_and!; [done| |].
  - intros Hs n s Hl. apply Hs in Hl. lia.
  - intros nonce seen Hh Hle. apply Hh. lia.
Qed.
Lemma onward_trans t1 c1 t2 c2 t3 c3 : onward t1 c1 t2 c2 -> onward t2 c2 t3 c3 -> onward t1 c1 t3 c3.
Proof. intros (? & ? & ?) (? & ? & ?). split_and!; [lia|auto|auto]. Qed.
Lemma onward_register t now nonce cache ok cache' :
  t <= now -> registerNonce now nonce cache = (ok, cache') -> onward t cache now cache'.
Proof.
  intros Ht E. change cache' with (ok, cache').2. rewrite <-E. split_and!; [done| |].
  - intros Hs. by eapply seen_register.
  - intros n s Hh. by eapply held_register.
Qed.

Definition end_of (t : Time) (times : list (Time * Time)) : Time := fold_left (fun _ ct => ct.2) times t.
Lemma end_of_later t times : ticks t times -> t <= end_of t times.
Proof. revert t. induction times as [|[c n] times IH]; intros t; simpl; [lia|]. intros (? & _ & H%IH). lia. Qed.

(** How a header was accepted: the nonce judged on a cache the first one led
    to, at a time of the check's. *)
Definition accepted_at (times : list (Time * Time)) (header : string) (t : Time) (cache : gmap string Time) (t' : Time) (cache' : gmap string Time) : Prop :=
  exists checked now cache1, (checked, now) ∈ times /\ t <= checked <= now /\ now <= checked + lag /\ now <= t' /\ onward t cache now cache1 /\
    registerNonce now (header_nonce header) cache1 = (true, cache') /\
    UnixMilli checked - 30000 <= header_stamp header <= UnixMilli checked + 30000.

Lemma accepted_onward accept times header method path t cache ok cache' :
  accepted_by hmac_hex accept times header method path cache = (ok, cache') -> ticks t times ->
  onward t cache (end_of t times) cache' /\ (ok = true -> accepted_at times header t cache (end_of t times) cache').
Proof.
  revert times t cache. induction accept as [|secret accept IH]; intros times t cache; simpl.
  { intros [= <- <-] Ht. split; [|done]. by apply onward_later, end_of_later. }
  destruct times as [|[checked now] times]; [intros [= <- <-] _; split; [by apply onward_later|done]|].
  intros E Ht. pose proof Ht as ([Ht1 Ht2] & Hlag & Hticks). pose proof (end_of_later _ _ Hticks) as Hend. cbn [end_of fold_left] in *.
  assert (Hon : forall cache1, onward t cache now cache1 -> accepted_by hmac_hex accept times header method path cache1 = (ok, cache') ->
    onward t cache (end_of now times) cache' /\ (ok = true -> accepted_at ((checked, now) :: times) header t cache (end_of now times) cache')).
  { intros cache1 H1 E1. destruct (IH _ _ _ E1 Hticks) as [H2 Hacc]. split; [by eapply onward_trans|]. intros Hok.
    destruct (Hacc Hok) as (c & n & cache2 & ? & ? & ? & ? & H3 & ? & ?). exists c, n, cache2. split_and!; try done; try lia; [by right|]. by eapply onward_trans. }
  case_match; [apply (Hon cache); [apply onward_later; lia|done]|].
  destruct (validateV2 hmac_hex secret header method path checked now cache) as [ok1 cache1] eqn:Ev.
  destruct (validateV2_inv _ _ _ _ _ _ _ _ _ Ev) as [[-> ->]|[Hr Hst]]; [apply (Hon cache); [apply onward_later; lia|done]|].
  assert (Htn : t <= now) by lia. pose proof (onward_register t now _ _ _ _ Htn Hr) as Hreg. destruct ok1; [|by apply (Hon cache1)].
  injection E as <- <-. split; [eapply onward_trans; [exact Hreg|by apply onward_later]|]. intros _.
  exists checked, now, cache. split_and!; try done; try lia; [by left|]. apply onward_later. lia.
Qed.

Lemma check_onward e t cache ok cache' :
  check e cache = (ok, cache') -> ticks t (px_times e) ->
  onward t cache (end_of t (px_times e)) cache' /\ (ok = true -> accepted_at (px_times e) (px_header e) t cache (end_of t (px_times e)) cache').
Proof.
  unfold check, IsInternalProxyRequest. intros E Ht. destruct (px_accept e) eqn:Ea; [|case_match].
  1, 2: injection E as <- <-; split; [by apply onward_later, end_of_later|done].
  by eapply accepted_onward.
Qed.

(** The checks one after the other. *)
Fixpoint checks_from (t : Time) (es : list proxy_check) : Prop :=
  match es with
  | [] => True
  | e :: es => ticks t (px_times e) /\ checks_from (end_of t (px_times e)) es
  end.
Fixpoint end_all (t : Time) (es : list proxy_check) : Time :=
  match es with [] => t | e :: es => end_all (end_of t (px_times e)) es end.

Lemma check_all_onward es t cache : checks_from t es -> onward t cache (end_all t es) (check_all es cache).
Proof.
  revert t cache. induction es as [|e es IH]; intros t cache; cbn [checks_from end_all]; [intros _; by apply onward_later|].
  intros [Ht Hes]. unfold check_all. cbn [fold_left]. destruct (check e cache) as [ok cache'] eqn:E.
  destruct (check_onward _ _ _ _ _ E Ht) as [H _]. eapply onward_trans; [exact H|]. by apply IH.
Qed.
Lemma checks_from_app t es es' : checks_from t (es ++ es') <-> checks_from t es /\ checks_from (end_all t es) es'.
Proof. revert t. induction es as [|e es IH]; intros t; simpl; [tauto|]. rewrite IH. tauto. Qed.

Lemma UnixMilli_gap a b n : UnixMilli a <= UnixMilli b + n -> a < b + (n + 1) * Millisecond.
Proof. unfold UnixMilli, Millisecond. intros H. pose proof (Z.div_mod a 1000000 ltac:(lia)). pose proof (Z.div_mod b 1000000 ltac:(lia)).
  pose proof (Z.mod_pos_bound a 1000000 ltac:(lia)). pose proof (Z.mod_pos_bound b 1000000 ltac:(lia)). lia. Qed.

(** C35: until the panel restarts - the nonces it has seen are in its memory, a
    restart forgets them - and as long as the headers are checked one after
    another, each nonce registered at most 0.9 s after its stamp was judged
    ([checks_from], [lag]): a header another node signed admits one request.
    Accepted again, it is within 50 ms of the first time, as the checks of one
    request are, unless it was stamped more than 29 s ahead of this node's
    clock - whatever requests come in between, and whichever secrets are
    accepted. *)
Theorem proxy_header_once before e1 mid e2 :
  checks_from 0 (before ++ e1 :: mid ++ [e2]) ->
  px_header e2 = px_header e1 ->
  (forall checked now, (checked, now) ∈ px_times e1 -> header_stamp (px_header e1) <= UnixMilli checked + 29000) ->
  (check e1 (check_all before ∅)).1 = true ->
  (check e2 (check_all (before ++ e1 :: mid) ∅)).1 = true ->
  exists checked1 now1 checked2 now2,
    (checked1, now1) ∈ px_times e1 /\ (checked2, now2) ∈ px_times e2 /\ now2 <= now1 + sameRequestWindow.
Proof.
  intros Hf Eh Hstamp H1 H2. set (c0 := check_all before ∅) in *. apply checks_from_app in Hf as [Hb Hf]. simpl in Hf.
  destruct Hf as [Ht1 Hf]. apply checks_from_app in Hf as [Hmid [Ht2 _]].
  destruct (check_all_onward before 0 ∅ Hb) as (_ & Hseen & _). specialize (Hseen ltac:(by intros n s ?)). fold c0 in Hseen.
  destruct (check e1 c0) as [ok1 c1] eqn:E1. simpl in H1. subst ok1.
  destruct (check_onward _ _ _ _ _ E1 Ht1) as [_ Hacc1]. specialize (Hacc1 eq_refl). destruct Hacc1 as (k1 & n1 & d1 & Hin1 & Hk1 & Hl1 & Hn1 & (_ & Hs1 & _) & Hr1 & Hst1).
  assert (Eall : check_all (before ++ e1 :: mid) ∅ = check_all mid c1).
  { unfold check_all. rewrite fold_left_app. simpl. fold (check_all before ∅). fold c0. by rewrite E1. }
  rewrite Eall in H2. destruct (check e2 (check_all mid c1)) as [ok2 c2] eqn:E2. simpl in H2. subst ok2.
  destruct (check_onward _ _ _ _ _ E2 Ht2) as [_ Hacc2]. specialize (Hacc2 eq_refl). destruct Hacc2 as (k2 & n2 & d2 & Hin2 & Hk2 & Hl2 & Hn2 & (_ & _ & Hh2) & Hr2 & Hst2).
  exists k1, n1, k2, n2. split_and!; [done|done|]. rewrite Eh in Hr2, Hst2.
  (* the nonce's record after the first *)
  assert (Hrec : exists seen, seen <= n1 <= seen + sameRequestWindow /\ c1 !! header_nonce (px_header e1) = Some seen).
  { destruct (register_cases _ _ _ _ _ Hr1) as [(s & Hs & -> & [[_ Hw]|[? _]])|(_ & -> & _)]; [|done|].
    - exists s. split_and!; [by apply (Hs1 Hseen _ _ Hs)|done|done].
    - exists n1. rewrite record_own. unfold sameRequestWindow, Millisecond. split_and!; [lia|lia|done]. }
  destruct Hrec as (seen & Hseen1 & Hc1).
  assert (Hheld : held (header_nonce (px_header e1)) seen n2 d2).
  { apply Hh2. destruct (check_all_onward mid (end_of (end_all 0 before) (px_times e1)) c1 Hmid) as (_ & _ & Hm). apply Hm. by intros _. }
  (* its time is not over *)
  pose proof (Hstamp _ _ Hin1). pose proof (UnixMilli_gap k2 k1 59000 ltac:(lia)) as Hgap.
  assert (Hin : n2 <= seen + nonceCacheTTL).
  { unfold lag, sameRequestWindow, nonceCacheTTL, proxyClockSkew, Millisecond, Second in *. lia. }
  specialize (Hheld Hin).
  destruct (register_cases _ _ _ _ _ Hr2) as [(s & Hs & _ & [[_ Hw]|[? _]])|(_ & _ & Ho)]; [|done|].
  - unfold Time in *. rewrite Hheld in Hs. injection Hs as <-. lia.
  - apply Ho in Hheld. lia.
Qed.
End Proxy.

(** ** A protected route *)

Section Routes.
Variable hmac_hex : string -> string -> string.
Variable jwt_parse : string -> string -> option string.
Variable accept : list string.
Notation internal := (internal hmac_hex accept).
Notation authorized := (authorized hmac_hex jwt_parse accept).

(** The token a request brings: in its header, or on three paths in its URL. *)
Definition brings (r : httpRequest) (token : string) : Prop :=
  (exists scheme, splitByteN 2 (hq_Authorization r) " " = [scheme; token] /\ ToLower scheme = "bearer") \/
  (hq_Authorization r = "" /\ hq_QueryToken r <> "" /\ allowsQueryToken (hq_Path r) = true /\ token = hq_QueryToken r).
(** It is no forgery of another site's: it changes nothing, comes from a node,
    opens a session of its own, comes without the panel's cookies or shows it
    can read them. *)
Definition unforged (r : httpRequest) (signed : bool) : Prop :=
  csrfSafeMethods (hq_Method r) = true \/ signed = true \/ csrf_bootstrap (hq_Path r) = true \/
  (hq_CSRFCookie r = None /\ hq_RefreshCookie r = None /\ hasPrefix (hq_Authorization r) "Bearer " = true) \/
  (hq_CSRFHeader r <> "" /\ hq_CSRFCookie r = Some (hq_CSRFHeader r)).

Lemma bearer_split token : splitByteN 2 ("Bearer " +:+ token) " " = ["Bearer"; token].
Proof. done. Qed.

Lemma JWT_through secret r times cache u cache' :
  JWTMiddleware hmac_hex jwt_parse accept secret r times cache = (Through u, cache') ->
  cache' = (internal r times cache).2 /\
  ((internal r times cache).1 = true /\ u = relayed_user r \/
   exists token, brings r token /\ secret <> "" /\ jwt_parse token secret = Some u).
Proof.
  unfold JWTMiddleware. destruct (internal r times cache) as [[|] cache1]; cbn [fst snd]; [intros [= <- <-]; by auto|].
  assert (Hp : forall token, ParseToken jwt_parse token secret = Some u -> secret <> "" /\ jwt_parse token secret = Some u).
  { intros token. unfold ParseToken. destruct (secret ==s "") eqn:E; [done|]. by apply String.eqb_neq in E. }
  destruct (hq_Authorization r ==s "") eqn:Ea; go_bools.
  - destruct (_ && _) eqn:Eq; [|done]. go_bools. rewrite bearer_split. cbn [ToLower]. change (ToLower "Bearer" ==s "bearer") with true. cbv iota.
    destruct (ParseToken jwt_parse (hq_QueryToken r) secret) as [v|] eqn:Et; [|done]. intros [= -> <-]. split; [done|]. right.
    exists (hq_QueryToken r). split; [right; by split_and!|by apply Hp].
  - destruct (splitByteN 2 (hq_Authorization r) " ") as [|scheme [|token [|]]] eqn:Es; try done. destruct (ToLower scheme ==s "bearer") eqn:El; [|done].
    go_bools. destruct (ParseToken jwt_parse token secret) as [v|] eqn:Et; [|done]. intros [= -> <-]. split; [done|]. right.
    exists token. split; [left; by exists scheme|by apply Hp].
Qed.

(** A request reaches a protected route of a manager only signed by a node,
    or with a valid token of a key there is, and unforged. *)
Lemma authorized_checked secret r times1 times2 cache u cache' :
  authorized secret r times1 times2 cache = (Through u, cache') ->
  let cache1 := (internal r times1 cache).2 in
  ((internal r times1 cache).1 = true /\ u = relayed_user r \/
   exists token, brings r token /\ secret <> "" /\ jwt_parse token secret = Some u) /\
  unforged r (internal r times2 cache1).1.
Proof.
  unfold AuthGuards.authorized. destruct (JWTMiddleware _ _ _ _ _ _ _) as [[v|] cache1] eqn:Ej; [|done].
  intros H. destruct (JWT_through _ _ _ _ _ _ Ej) as [-> Hj]. cbv zeta. unfold CSRFProtect in H.
  destruct (csrfSafeMethods (hq_Method r)) eqn:Em; [injection H as <- _; split; [done|by left]|].
  destruct (internal r times2 _) as [[|] cache2] eqn:Ei; cbn [fst]; [injection H as <- _; split; [done|right; by left]|].
  destruct (csrf_bootstrap (hq_Path r)) eqn:Eb; [injection H as <- _; split; [done|do 2 right; by left]|].
  destruct (_ && _ && _) eqn:Ec.
  - go_bools. injection H as <- _. split; [done|]. do 3 right. left. by split_and!; [eapply bool_decide_eq_true_1..|].
  - unfold double_submit in H. destruct (hq_CSRFCookie r) as [cookie|] eqn:Ek; [|done]. destruct cookie as [|c cookie]; [done|].
    destruct (hq_CSRFHeader r ==s "") eqn:Eh; [done|]. destruct (hq_CSRFHeader r ==s String c cookie) eqn:Ed; [|done]. go_bools.
    injection H as <- _. split; [done|]. do 4 right. rewrite Ek, Ed. split; [congruence|done].
Qed.
End Routes.

(** ** What a handler must have been told *)

(** Further calls that are all allowed. *)
Lemma wp_granted {A} (ok : list uaction -> uaction -> Prop) (p : uprog A) past Q :
  (forall more a, ok (past ++ more) a) -> (forall a more, Q a (past ++ more)) -> wp anything (history ok) p past Q.
Proof.
  revert past. induction p as [a|c k IH|]; intros past Hok HQ; simpl; [|intros x _|done].
  - specialize (HQ a []). by rewrite app_nil_r in HQ.
  - split; [specialize (Hok []); by rewrite app_nil_r in Hok|]. apply IH.
    + intros more a. rewrite <-app_assoc. apply Hok.
    + intros a more. rewrite <-app_assoc. apply HQ.
Qed.

Section Gates.
Variable sha256_hex : string -> string.
Variable CheckPassword : string -> string -> bool.
Variable marshal_hashes : list string -> string.
Variable unmarshal_hashes : string -> list string.
Variable RFC3339 : Time -> string.
Variable TokenExpiry : string.

Notation Login := (Login sha256_hex CheckPassword marshal_hashes unmarshal_hashes RFC3339 TokenExpiry).
Notation consumeRecoveryCode := (consumeRecoveryCode sha256_hex marshal_hashes unmarshal_hashes).
Notation hashRecoveryCode := (hashRecoveryCode sha256_hex).

(** Calls that open no session and change no account. *)
Definition asking (c : ucall) : Prop :=
  match c with
  | SignToken _ _ _ | DBInsertToken _ _ | TxInsertToken _ _ | TxInsertAdmin _ _ | SetCookie _ | LimitClear _ | SetAccount _ | DBUpdateAccount _ _ _ => False
  | _ => True
  end.

(** The account of [u] as it was read: the cluster's, the node's own where
    the cluster has none. *)
Definition account_read (past : list uaction) (u pw totp : string) : Prop :=
  (exists a, uact (GetAccount u) (Some a) ∈ past /\ ac_Password a = pw /\ ac_TOTPSecret a = totp) \/
  (uact (GetAccount u) None ∈ past /\ exists t, uact (DBAccount u) (Ok (pw, t)) ∈ past /\ totp_text t = totp).
(** A code of the second factor that was free and is right. *)
Definition code_given (past : list uaction) (secret code : string) : Prop :=
  exists key, uact (ReserveCode secret code) (Some key) ∈ past /\ uact (CheckCode secret code) true ∈ past.
(** A recovery code found among the account's, and taken off them for good. *)
Definition recovery_spent (past : list uaction) (u code : string) : Prop :=
  exists hashes idx, hashes !! idx = Some (hashRecoveryCode code) /\
    let rest := take idx hashes ++ drop (S idx) hashes in
    (uact (GetRecoveryCodes u) hashes ∈ past /\ uact (SetRecoveryCodes u rest) None ∈ past \/
     exists raw, uact (DBRecovery u) (Ok (Some raw)) ∈ past /\ unmarshal_hashes raw = hashes /\
       uact (DBUpdateRecovery u (if (0 <? length rest)%nat then Some (marshal_hashes rest) else None)) true ∈ past).

Section Asking.
Variable ok : list uaction -> uaction -> Prop.
Hypothesis Hok : forall past c x, asking c -> ok past (uact c x).
Notation watched p past Q := (wp anything (history ok) p past Q).

Lemma wp_loadAdminAccount {A} u (f : result auth_error (string * string * bool) -> uprog A) past Q :
  (forall past' pw totp cl, since asking past past' -> account_read past' u pw totp -> watched (f (Ok (pw, totp, cl))) past' Q) ->
  (forall past' e, since asking past past' -> watched (f (Err e)) past' Q) ->
  watched (pbind (loadAdminAccount u) f) past Q.
Proof using Hok.
  intros Hf He. pose proof (since_refl asking past) as H0. apply wp_bind. unfold loadAdminAccount. asked acct. destruct acct as [a|].
  - apply Hf; [done|]. left. by exists a.
  - asked row. destruct row as [[pw t]|e]; [|by apply He]. apply Hf; [done|]. right. split; [done|]. by exists t.
Qed.

Lemma wp_login_account {A} u ip (f : auth_answer + string * string -> uprog A) past Q :
  (forall past' pw totp, since asking past past' -> account_read past' u pw totp -> watched (f (inr (pw, totp))) past' Q) ->
  (forall past' st code msg, watched (f (inl (AuthFail st code msg))) past' Q) ->
  watched (pbind (login_account u ip) f) past Q.
Proof using Hok.
  intros Hf He. pose proof (since_refl asking past) as H0. apply wp_bind. unfold login_account. asked acct. destruct acct as [a|].
  - apply Hf; [done|]. left. by exists a.
  - asked row. destruct row as [[pw t]|[]]; [| |apply He..].
    + apply Hf; [done|]. right. split; [done|]. by exists t.
    + unfold recordLoginEvent, insertSecurityAuditRow. asked w. apply He.
Qed.

Lemma wp_ValidateCode {A} secret code (f : bool -> uprog A) past Q :
  (forall past', since asking past past' -> code_given past' secret code -> watched (f true) past' Q) ->
  (forall past', since asking past past' -> watched (f false) past' Q) ->
  watched (pbind (ValidateCode secret code) f) past Q.
Proof using Hok.
  intros Ht Hf. pose proof (since_refl asking past) as H0. apply wp_bind. unfold ValidateCode. asked key. destruct key as [key|]; [|by apply Hf].
  asked b. destruct b; [apply Ht; [done|]; by exists key|]. asked w. by apply Hf.
Qed.

Lemma index_of_lookup l s i : index_of l s = Some i -> l !! i = Some s.
Proof.
  revert i. induction l as [|x l IH]; intros i; simpl; [done|]. destruct (x ==s s) eqn:E; go_bools.
  - intros [= <-]. by rewrite E.
  - destruct (index_of l s) as [j|]; [|done]. intros [= <-]. by apply IH.
Qed.

Definition codes_read (past : list uaction) (u : string) (hashes : list string) (cluster : bool) : Prop :=
  hashes = [] \/
  if cluster then uact (GetRecoveryCodes u) hashes ∈ past
  else exists raw, uact (DBRecovery u) (Ok (Some raw)) ∈ past /\ unmarshal_hashes raw = hashes.

Lemma wp_loadRecoveryCodes {A} u (f : result auth_error (list string * bool) -> uprog A) past Q :
  (forall past' hashes cl, since asking past past' -> codes_read past' u hashes cl -> watched (f (Ok (hashes, cl))) past' Q) ->
  (forall past' e, since asking past past' -> watched (f (Err e)) past' Q) ->
  watched (pbind (loadRecoveryCodes unmarshal_hashes u) f) past Q.
Proof using Hok.
  intros Hf He. pose proof (since_refl asking past) as H0. apply wp_bind. unfold loadRecoveryCodes. asked acct. destruct acct as [a|].
  - asked here. destruct here; [|apply Hf; [done|by left]]. asked hashes. apply Hf; [done|by right].
  - asked raw. destruct raw as [[raw|]|e]; [|apply Hf; [done|by left]|by apply He].
    destruct (raw ==s "") eqn:E; cbn [wp].
    + apply Hf; [done|by left].
    + apply Hf; [done|]. right. by exists raw.
Qed.

Lemma wp_consumeRecoveryCode {A} u code (f : result auth_error bool -> uprog A) past Q :
  (forall past', since asking past past' -> recovery_spent past' u code -> watched (f (Ok true)) past' Q) ->
  (forall past', since asking past past' -> watched (f (Ok false)) past' Q) ->
  (forall past' e, since asking past past' -> watched (f (Err e)) past' Q) ->
  watched (pbind (consumeRecoveryCode u code) f) past Q.
Proof using Hok.
  intros Ht Hf He. apply wp_bind. unfold consumeRecoveryCode. apply wp_loadRecoveryCodes; [|intros p e Hp; by apply He].
  intros p hashes cl H0 Hread. destruct (index_of hashes (hashRecoveryCode code)) as [i|] eqn:Ei; [|by apply Hf].
  apply index_of_lookup in Ei. destruct Hread as [->|Hread]; [done|]. unfold persistRecoveryCodes. apply wp_bind. destruct cl.
  - asked here. destruct here; [|by apply He]. intros err _. split; [by apply Hok|].
    pose proof (since_one asking p0 (SetRecoveryCodes u (take i hashes ++ drop (S i) hashes)) err I) as Hp'.
    assert (Hm' : uact (SetRecoveryCodes u (take i hashes ++ drop (S i) hashes)) err ∈ p0 ++ [uact (SetRecoveryCodes u (take i hashes ++ drop (S i) hashes)) err])
      by (apply elem_of_app; right; by left).
    cbn [wp mn_next history]. set (p1 := p0 ++ _) in *. since_on Hp'. destruct err as [e|]; [by apply He|]. apply Ht; [done|]. exists hashes, i. split; [done|]. by left.
  - destruct Hread as (raw & Hraw & Eraw). asked b. destruct b; [|by apply He]. apply Ht; [done|].
    exists hashes, i. split; [done|]. right. by exists raw.
Qed.
End Asking.

(** ** A sign-in *)

(** What a sign-in must have found before it opens a session. *)
Definition signed_in (ip : string) (req : loginRequest) (past : list uaction) : Prop :=
  uact (LimitAttempt ip) false ∈ past /\
  exists pw totp, account_read past (lq_Username req) pw totp /\ CheckPassword (lq_Password req) pw = true /\
    (totp = "" \/
     lq_RecoveryCode req = "" /\ code_given past totp (lq_TOTPCode req) \/
     lq_RecoveryCode req <> "" /\ (String.length (lq_RecoveryCode req) <= 64)%nat /\ recovery_spent past (lq_Username req) (lq_RecoveryCode req)).
Definition sign_in_rule (ip : string) (req : loginRequest) (past : list uaction) (a : uaction) : Prop :=
  asking (projT1 a) \/ signed_in ip req past.

Definition grows (past past' : list uaction) : Prop := forall a, a ∈ past -> a ∈ past'.
Lemma grows_app past more : grows past (past ++ more).
Proof. intros a Ha. apply elem_of_app. by left. Qed.
Lemma grows_app2 past m1 m2 : grows past ((past ++ m1) ++ m2).
Proof. intros a Ha. by apply grows_app, grows_app. Qed.
Lemma grows_since past past' : since asking past past' -> grows past past'.
Proof. intros Hs a. by eapply since_keep. Qed.
Lemma account_grows past past' u pw totp : grows past past' -> account_read past u pw totp -> account_read past' u pw totp.
Proof. intros Hg [(a & ? & ?)|(? & t & ? & ?)]; [left; exists a; auto|right; split; [auto|exists t; auto]]. Qed.
Lemma code_grows past past' secret code : grows past past' -> code_given past secret code -> code_given past' secret code.
Proof. intros Hg (key & ? & ?). exists key. auto. Qed.
Lemma recovery_grows past past' u code : grows past past' -> recovery_spent past u code -> recovery_spent past' u code.
Proof.
  intros Hg (hashes & i & Hi & [[? ?]|(raw & ? & ? & ?)]); exists hashes, i; (split; [done|]); [left; auto|right; exists raw; auto].
Qed.
Lemma signed_in_grows ip req past past' : grows past past' -> signed_in ip req past -> signed_in ip req past'.
Proof.
  intros Hg (Hl & pw & totp & Ha & Hpw & Hf). split; [auto|]. exists pw, totp. split; [by eapply account_grows|]. split; [done|].
  destruct Hf as [?|[[? ?]|(? & ? & ?)]]; [by left|right; left|right; right]; split_and!; try done; [by eapply code_grows|by eapply recovery_grows].
Qed.

Definition is_session (a : auth_answer) : Prop := match a with OkSession _ _ _ => True | _ => False end.

Lemma wp_second_factor {A} ok (ip : string) req past secret (f : option auth_answer -> uprog A) (Q : A -> list uaction -> Prop) :
  (forall past c x, asking c -> ok past (uact c x)) ->
  (forall past', since asking past past' ->
     secret = "" \/
     lq_RecoveryCode req = "" /\ code_given past' secret (lq_TOTPCode req) \/
     lq_RecoveryCode req <> "" /\ (String.length (lq_RecoveryCode req) <= 64)%nat /\ recovery_spent past' (lq_Username req) (lq_RecoveryCode req) ->
     wp anything (history ok) (f None) past' Q) ->
  (forall past' st code msg, wp anything (history ok) (f (Some (AuthFail st code msg))) past' Q) ->
  wp anything (history ok) (pbind (second_factor sha256_hex marshal_hashes unmarshal_hashes req ip secret) f) past Q.
Proof.
  intros Hok Hf He. pose proof (since_refl asking past) as H0. apply wp_bind. unfold second_factor, recordLoginEvent, insertSecurityAuditRow.
  destruct (secret ==s "") eqn:Es; go_bools; [apply Hf; [done|by left]|]. destruct (lq_RecoveryCode req ==s "") eqn:Er; cbn [negb]; go_bools.
  - destruct (lq_TOTPCode req ==s ""); [apply He|]. apply wp_ValidateCode; [done|..].
    + intros p Hp Hc. apply Hf; [done|]. right. by left.
    + intros p Hp. asked w. apply He.
  - destruct (Nat.ltb_spec 64 (String.length (lq_RecoveryCode req))); [asked w; apply He|].
    apply wp_consumeRecoveryCode; [done|..].
    + intros p Hp Hc. apply Hf; [done|]. right. right. split_and!; [done|lia|done].
    + intros p Hp. asked w. apply He.
    + intros p e Hp. destruct e; apply He.
Qed.

(** C11: whatever the panel's memory, its database and its cluster answer, a
    sign-in signs a token, keeps a refresh token, sets a cookie or clears the
    login limit only after the limit let this attempt of its address through,
    the password matched the account as it was read - the cluster's, the
    node's own where there is none - and, where the account has a second
    factor, a free code of it was right or one of the account's recovery codes
    was taken off it with the store's word. *)
Theorem Login_admits r req tr o :
  exec (Login r (Some req)) tr o ->
  (forall tr1 a tr2, tr = tr1 ++ a :: tr2 -> asking (projT1 a) \/ signed_in (hq_RealIP r) req tr1) /\
  (forall a, o = Some a -> is_session a -> signed_in (hq_RealIP r) req tr).
Proof.
  intros He. apply (history_sound (sign_in_rule (hq_RealIP r) req) (Login r (Some req)) (fun a past => is_session a -> signed_in (hq_RealIP r) req past)); [|done].
  assert (Hrule : forall past c x, asking c -> sign_in_rule (hq_RealIP r) req past (uact c x)) by (intros past c x Hc; by left).
  pose proof (since_refl asking ([] : list uaction)) as H0. unfold AuthApi.Login.
  case_match; [done|]. case_match; [done|]. asked blocked. destruct blocked; [done|].
  apply wp_login_account; [done| |intros p' st code msg; done]. intros p1 pw totp Hp1 Hacct. since_on Hp1.
  destruct (CheckPassword (lq_Password req) pw) eqn:Ec; cbn [negb].
  2: { unfold recordLoginEvent, insertSecurityAuditRow. asked w. done. }
  apply wp_second_factor; [done| |intros p' st code msg; done]. intros p2 Hp2 Hfactor.
  assert (Hin : signed_in (hq_RealIP r) req p2).
  { split; [by eapply since_keep|]. exists pw, totp. split_and!; [|done|done]. eapply account_grows; [|exact Hacct]. by apply grows_since. }
  apply wp_granted.
  - intros more a. right. eapply signed_in_grows; [apply grows_app|done].
  - intros a more _. eapply signed_in_grows; [apply grows_app|done].
Qed.

(** ** A change of an account *)

(** The account [u] may be made to hold [pw] and [totp]. *)
Notation grant := (list uaction -> string -> string -> string -> Prop).
(** The writes of an account are granted ones; the cluster may be told what
    the node's own row holds. *)
Definition account_rule (granted : grant) (past : list uaction) (a : uaction) : Prop :=
  match projT1 a with
  | DBUpdateAccount u pw t => granted past u pw (totp_text t)
  | SetAccount c =>
      granted past (ac_Username c) (ac_Password c) (ac_TOTPSecret c) \/
      exists t, uact (DBAccount (ac_Username c)) (Ok (ac_Password c, t)) ∈ past /\ totp_text t = ac_TOTPSecret c
  | SignToken _ _ _ | DBInsertToken _ _ | TxInsertToken _ _ | TxInsertAdmin _ _ => False
  | _ => True
  end.
Definition stored (past : list uaction) (u pw totp : string) : Prop :=
  uact (SetAccount (mkAdminAccount u pw totp 0)) None ∈ past \/
  exists t, uact (DBUpdateAccount u pw t) true ∈ past /\ totp_text t = totp.
(** A success is said of a granted write that was stored, here or by the
    leader. *)
Definition changed (granted : grant) (u : string) (a : auth_answer) (past : list uaction) : Prop :=
  match a with
  | OkMessage _ => uact ToLeader (Some a) ∈ past \/ exists pw totp, granted past u pw totp /\ stored past u pw totp
  | _ => True
  end.

(** The password is changed: by the limit's leave, to a hash of the new one,
    by who knows the old; the second factor stays. *)
Definition may_change_password (ip username : string) (req : changePasswordRequest) : grant := fun past u pw totp =>
  u = username /\ uact (LimitAttempt ip) false ∈ past /\ validatePassword (cq_NewPassword req) = None /\
  uact (HashPassword (cq_NewPassword req)) (Some pw) ∈ past /\
  exists old, account_read past username old totp /\ CheckPassword (cq_CurrentPassword req) old = true.
(** The second factor is taken off: by the limit's leave, by who knows the
    password and has a code of it; the password stays. *)
Definition may_disable_2fa (ip username : string) (req : disable2FARequest) : grant := fun past u pw totp =>
  u = username /\ totp = "" /\ uact (LimitAttempt ip) false ∈ past /\
  exists secret, account_read past username pw secret /\ CheckPassword (dq_Password req) pw = true /\
    (secret = "" \/ code_given past secret (dq_TOTPCode req)).
(** It is set: by who has a code of the new one; the password stays. *)
Definition may_verify_2fa (username : string) (req : verify2FARequest) : grant := fun past u pw totp =>
  u = username /\ totp = vq_Secret req /\ totp <> "" /\ code_given past totp (vq_Code req) /\
  exists old, account_read past username pw old.

Section Change.
Variable granted : grant.
Hypothesis Hgrows : forall past past' u pw totp, grows past past' -> granted past u pw totp -> granted past' u pw totp.
Variable u : string.
Notation changing p past := (wp anything (history (account_rule granted)) p past (changed granted u)).

Lemma asking_rule past c x : asking c -> account_rule granted past (uact c x).
Proof. by destruct c. Qed.

(** What comes after the write: nothing that needs a grant. *)
Definition after (c : ucall) : Prop := match c with LimitClear _ => True | _ => asking c end.
Lemma after_rule past c x : after c -> account_rule granted past (uact c x).
Proof. by destruct c. Qed.

Lemma grows_of P past past' : since P past past' -> grows past past'.
Proof. intros Hs a. by eapply since_keep. Qed.
Lemma stored_grows past past' pw totp : grows past past' -> stored past u pw totp -> stored past' u pw totp.
Proof. intros Hg [?|(t & ? & ?)]; [left; auto|right; exists t; auto]. Qed.

Lemma changing_after p past pw totp :
  granted past u pw totp -> stored past u pw totp -> only after p -> changing p past.
Proof using Hgrows.
  intros Hgr Hst Hp. apply (wp_quiet _ after); [done|apply after_rule|]. intros a more _. destruct a; try done. right. exists pw, totp.
  split; [eapply Hgrows; [apply grows_app|done]|eapply stored_grows; [apply grows_app|done]].
Qed.
Lemma changing_refused p past : only asking p -> yields (fun a => match a with AuthFail _ _ _ => True | _ => False end) p -> changing p past.
Proof.
  revert past. induction p as [a|c k IH|]; intros past; simpl; [by destruct a| |done]. intros [Hc Hk] Hy x _.
  split; [by apply asking_rule|]. by apply IH.
Qed.

Lemma changing_persist pw totp cl (f : option auth_error -> uprog auth_answer) past :
  granted past u pw totp -> only after (f None) ->
  (forall past' e, changing (f (Some e)) past') -> changing (pbind (persistAdminAccount u pw totp cl) f) past.
Proof using Hgrows.
  intros Hgr Hf He. apply wp_bind. unfold persistAdminAccount. destruct cl.
  - intros here _. split; [done|]. cbn [mn_next history]. destruct here; [|apply He]. cbn [wp mn_next history]. intros err _. split.
    { left. cbn. eapply Hgrows; [apply grows_app|done]. }
    destruct err as [e|]; [apply He|]. apply (changing_after _ _ pw totp); [|left; apply elem_of_app; right; by left|done].
    eapply Hgrows; [apply grows_app2|done].
  - set (t := if totp ==s "" then None else Some totp).
    assert (Et : totp_text t = totp) by (unfold t; destruct (totp ==s "") eqn:E; go_bools; by subst).
    intros ok _. split; [cbn; by rewrite Et|]. cbn [mn_next history]. destruct ok; [|apply He]. apply wp_bind.
    set (past1 := past ++ _). assert (Hgr1 : granted past1 u pw totp) by (eapply Hgrows; [apply grows_app|done]).
    assert (Hst1 : stored past1 u pw totp) by (right; exists t; split; [apply elem_of_app; right; by left|done]).
    clearbody past1. unfold syncAccountToCluster. intros here _. split; [done|]. cbn [mn_next history].
    assert (Hend : forall past2, grows past1 past2 -> changing (f None) past2).
    { intros past2 Hg. apply (changing_after _ _ pw totp); [by eapply Hgrows|by eapply stored_grows|done]. }
    destruct here; [|by apply Hend, grows_app]. intros row _. split; [done|]. cbn [mn_next history].
    destruct row as [[pw' t']|e]; [|apply Hend, grows_app2]. intros err _. split.
    + right. exists t'. split; [apply elem_of_app; right; by left|done].
    + cbn [wp mn_next history]. apply Hend. intros a Ha. by apply grows_app, grows_app2.
Qed.

Lemma changing_on_leader f past :
  (forall past', since asking past past' -> changing f past') -> changing (on_leader f) past.
Proof.
  intros Hf sent _. split; [done|]. cbn [mn_next history]. destruct sent as [a|].
  - destruct a; try done. left. apply elem_of_app. right. by left.
  - apply Hf. by apply since_one.
Qed.
Lemma changing_failed e past : changing (failClusterPersist e) past.
Proof. apply changing_refused; [|unfold failClusterPersist]; destruct e; simpl; auto. Qed.
End Change.

Notation revokeOtherSessions := (revokeOtherSessions sha256_hex).
Notation persistRecoveryCodes := (persistRecoveryCodes marshal_hashes).

Lemma only_revoke r u : only after (revokeOtherSessions r u).
Proof. unfold AuthApi.revokeOtherSessions. only_go. Qed.
Lemma only_codes u l c : only after (persistRecoveryCodes u l c).
Proof. unfold AuthApi.persistRecoveryCodes. only_go. Qed.

Lemma grows_change_password ip u req : forall past past' v pw totp,
  grows past past' -> may_change_password ip u req past v pw totp -> may_change_password ip u req past' v pw totp.
Proof.
  intros past past' v pw totp Hg (-> & Hl & Hv & Hh & old & Ho & Hc). split_and!; [done|auto|done|auto|].
  exists old. split; [by eapply account_grows|done].
Qed.
Lemma grows_disable_2fa ip u req : forall past past' v pw totp,
  grows past past' -> may_disable_2fa ip u req past v pw totp -> may_disable_2fa ip u req past' v pw totp.
Proof.
  intros past past' v pw totp Hg (-> & -> & Hl & secret & Ho & Hc & Hs). split_and!; [done|done|auto|].
  exists secret. split_and!; [by eapply account_grows|done|]. destruct Hs; [by left|right; by eapply code_grows].
Qed.
Lemma grows_verify_2fa u req : forall past past' v pw totp,
  grows past past' -> may_verify_2fa u req past v pw totp -> may_verify_2fa u req past' v pw totp.
Proof.
  intros past past' v pw totp Hg (-> & -> & Hne & Hc & old & Ho). split_and!; [done|done|done|by eapply code_grows|].
  exists old. by eapply account_grows.
Qed.

(** What was read of the account is in the longer history. *)
Ltac account_on Hacct :=
  lazymatch type of Hacct with
  | account_read ?p _ _ _ => match goal with H : since _ p _ |- _ => apply (account_grows _ _ _ _ _ (grows_of _ _ _ H)) in Hacct end
  end.
Ltac refused := solve [done | apply changing_refused; [unfold recordSecurityEvent, insertSecurityAuditRow; only_go|simpl; auto]].

Lemma changing_ChangePassword r u req :
  wp anything (history (account_rule (may_change_password (hq_RealIP r) u req)))
    (ChangePassword sha256_hex CheckPassword r u (Some req)) [] (changed (may_change_password (hq_RealIP r) u req) u).
Proof.
  set (g := may_change_password (hq_RealIP r) u req). pose proof (asking_rule g) as Hrule.
  unfold ChangePassword. apply changing_on_leader. intros p0 Hp0. pose proof (since_refl asking p0) as H0.
  asked blocked. destruct blocked; [done|]. case_match; [done|]. destruct (validatePassword (cq_NewPassword req)) eqn:Ev; [done|].
  unfold user_or_refuse. case_match; [done|]. apply wp_loadAdminAccount; [done| |intros p' [] _; done].
  intros p1 pw totp cl Hp1 Hacct. since_on Hp1. destruct (CheckPassword (cq_CurrentPassword req) pw) eqn:Ec; cbn [negb]; [|refused].
  clear Hp1. pose proof (since_refl asking p1) as H1. asked hash. destruct hash as [hash|]; [|done]. account_on Hacct.
  apply (changing_persist g (grows_change_password _ _ _)).
  - split_and!; [done..|]. by exists pw.
  - pose proof only_revoke. unfold recordSecurityEvent, insertSecurityAuditRow. only_go.
  - intros p' e. apply changing_failed.
Qed.

Lemma changing_Verify2FA r u req :
  wp anything (history (account_rule (may_verify_2fa u req)))
    (Verify2FA sha256_hex r u (Some req)) [] (changed (may_verify_2fa u req) u).
Proof.
  set (g := may_verify_2fa u req). pose proof (asking_rule g) as Hrule.
  unfold Verify2FA. apply changing_on_leader. intros p0 Hp0. unfold user_or_refuse. case_match; [done|].
  destruct (_ || _) eqn:Eb; [done|]. go_bools. apply wp_ValidateCode; [done| |intros p' _; cbn [negb]; refused].
  intros p1 Hp1 Hcode. cbn [negb]. apply wp_loadAdminAccount; [done| |].
  2: { intros p' e _. destruct e; refused. }
  intros p2 pw totp cl Hp2 Hacct. apply (code_grows _ _ _ _ (grows_of _ _ _ Hp2)) in Hcode.
  apply (changing_persist g (grows_verify_2fa _ _)).
  - split_and!; [done..|]. by exists totp.
  - pose proof only_revoke. unfold recordSecurityEvent, insertSecurityAuditRow. only_go.
  - intros p' e. apply changing_failed.
Qed.

Lemma changing_Disable2FA r u req :
  wp anything (history (account_rule (may_disable_2fa (hq_RealIP r) u req)))
    (Disable2FA sha256_hex CheckPassword marshal_hashes r u (Some req)) [] (changed (may_disable_2fa (hq_RealIP r) u req) u).
Proof.
  set (g := may_disable_2fa (hq_RealIP r) u req). pose proof (asking_rule g) as Hrule.
  unfold Disable2FA. apply changing_on_leader. intros p0 Hp0. pose proof (since_refl asking p0) as H0.
  asked blocked. destruct blocked; [done|]. unfold user_or_refuse. case_match; [done|]. case_match; [done|].
  apply wp_loadAdminAccount; [done| |intros p' [] _; done].
  intros p1 pw secret cl Hp1 Hacct. since_on Hp1. destruct (CheckPassword (dq_Password req) pw) eqn:Ec; cbn [negb]; [|refused].
  assert (Hgo : forall p2, since asking p1 p2 -> secret = "" \/ code_given p2 secret (dq_TOTPCode req) ->
    wp anything (history (account_rule g)) (err <-- persistAdminAccount u pw "" cl ;;
      match err with
      | Some e => failClusterPersist e
      | None => persistRecoveryCodes u [] cl ;;; revokeOtherSessions r u ;;; udo (LimitClear (hq_RealIP r)) ;;;
          recordSecurityEvent r u "2fa_disable" "success" 200 ;;; Ret (OkMessage "2FA disabled successfully")
      end) p2 (changed g u)).
  { intros p2 Hp2 Hfactor. account_on Hacct. since_on Hp2. apply (changing_persist g (grows_disable_2fa _ _ _)).
    - split_and!; [done..|]. by exists secret.
    - pose proof only_revoke. pose proof only_codes. unfold recordSecurityEvent, insertSecurityAuditRow. only_go.
    - intros p' e. apply changing_failed. }
  unfold current_code. apply wp_bind. destruct (secret ==s "") eqn:Es; go_bools; [apply Hgo; [apply since_refl|by left]|].
  case_match; [clear Hgo; unfold recordSecurityEvent, insertSecurityAuditRow; pose proof (since_refl asking p1); by asked w|].
  apply wp_ValidateCode; [done| |].
  - intros p2 Hp2 Hcode. apply Hgo; [done|by right].
  - intros p2 Hp2. unfold recordSecurityEvent, insertSecurityAuditRow. by asked w.
Qed.

(** C20: whatever is answered on the way, a change of the password, and the
    taking off and setting of a second factor, write the account only as
    granted - by the limit's leave and the current password, the new password
    as the policy wants it and hashed; by the password and a right code of the
    active factor; by a right code of the new one - leave the rest of the
    account as it was read, open no session, and say so only of a write that
    was stored. *)
Theorem account_writes_guarded r u :
  (forall req tr o, exec (ChangePassword sha256_hex CheckPassword r u (Some req)) tr o ->
     let g := may_change_password (hq_RealIP r) u req in
     (forall tr1 a tr2, tr = tr1 ++ a :: tr2 -> account_rule g tr1 a) /\ (forall a, o = Some a -> changed g u a tr)) /\
  (forall req tr o, exec (Disable2FA sha256_hex CheckPassword marshal_hashes r u (Some req)) tr o ->
     let g := may_disable_2fa (hq_RealIP r) u req in
     (forall tr1 a tr2, tr = tr1 ++ a :: tr2 -> account_rule g tr1 a) /\ (forall a, o = Some a -> changed g u a tr)) /\
  (forall req tr o, exec (Verify2FA sha256_hex r u (Some req)) tr o ->
     let g := may_verify_2fa u req in
     (forall tr1 a tr2, tr = tr1 ++ a :: tr2 -> account_rule g tr1 a) /\ (forall a, o = Some a -> changed g u a tr)).
Proof.
  split_and!; intros req tr o He g.
  - eapply history_sound; [apply changing_ChangePassword|done].
  - eapply history_sound; [apply changing_Disable2FA|done].
  - eapply history_sound; [apply changing_Verify2FA|done].
Qed.

(** ** A refresh *)

Variable parse_RFC3339 : string -> option Time.
Notation Refresh := (Refresh sha256_hex RFC3339 parse_RFC3339 TokenExpiry).

Definition no_cookie (c : ucall) : Prop := match c with SetCookie _ => False | _ => True end.

(** The rotation [tok] comes of: the token presented was found live and in
    time, its user is there still, and the transaction that consumed it and
    kept [tok]'s hash in its family was committed. *)
Definition user_found (past : list uaction) (u : string) : Prop :=
  (exists a, uact (GetAccount u) (Some a) ∈ past) \/ exists n, uact (TxAdminNamed u) (Some (S n)) ∈ past.
Definition rotated (hash : string) (past : list uaction) (tok : string) : Prop :=
  exists row family expires now at_ later,
    uact (TxToken hash) (Ok row) ∈ past /\ tr_consumed row = None /\
    parse_RFC3339 (tr_expires row) = Some expires /\ uact UNow now ∈ past /\ now <= expires /\
    user_found past (tr_username row) /\
    (if tr_family row ==s "" then uact RandFamily (Some family) ∈ past else family = tr_family row) /\
    uact (TxConsume hash at_) true ∈ past /\ uact RandToken (Some tok) ∈ past /\
    uact (TxInsertToken (sha256_hex tok) (mkTokenRow (tr_username row) family later None)) true ∈ past /\ uact TxCommit true ∈ past.
Definition presented (r : httpRequest) (body : option string) : string :=
  match hq_RefreshCookie r with None | Some "" => default "" body | Some cookie => cookie end.
Definition refresh_rule (hash : string) (past : list uaction) (a : uaction) : Prop :=
  no_cookie (projT1 a) \/ exists tok, rotated hash past tok.
Definition refreshed (hash : string) (a : auth_answer) (past : list uaction) : Prop :=
  match a with OkSession _ tok _ => rotated hash past tok | _ => True end.

Lemma rotated_grows hash past past' tok : grows past past' -> rotated hash past tok -> rotated hash past' tok.
Proof.
  intros Hg (row & fam & e & now & at_ & later & ? & ? & ? & ? & ? & Hu & Hf & ? & ? & ? & ?). exists row, fam, e, now, at_, later.
  split_and!; try done; try by apply Hg.
  - destruct Hu as [[a ?]|[n ?]]; [left; exists a; auto|right; exists n; auto].
  - destruct (tr_family row ==s ""); auto.
Qed.

Section Rotation.
Variable hash : string.
Notation watched p past Q := (wp anything (history (refresh_rule hash)) p past Q).
Lemma no_cookie_rule past c x : no_cookie c -> refresh_rule hash past (uact c x).
Proof. by left. Qed.

Lemma only_sign u e : only no_cookie (sign_session u e).
Proof. unfold sign_session, GenerateToken. only_go. Qed.

Lemma wp_rotate r row family expires now past :
  uact (TxToken hash) (Ok row) ∈ past -> tr_consumed row = None -> parse_RFC3339 (tr_expires row) = Some expires ->
  uact UNow now ∈ past -> now <= expires -> user_found past (tr_username row) ->
  (if tr_family row ==s "" then uact RandFamily (Some family) ∈ past else family = tr_family row) ->
  watched (rotate sha256_hex RFC3339 TokenExpiry r hash row family) past (refreshed hash).
Proof.
  intros Hrow Hc He Hnow Hle Hu Hf. pose proof (since_refl no_cookie past) as H0. unfold rotate.
  apply (wp_quietly no_cookie); [apply no_cookie_rule|apply only_sign|]. intros access p1 Hp1.
  destruct access as [access|]; [|done]. pose proof no_cookie_rule as Hrule.
  clear H0. pose proof (since_refl no_cookie p1) as H0.
  asked now1. asked ok1. destruct ok1; [|done]. cbn [negb]. asked tok. destruct tok as [tok|]; [|done].
  asked now2. asked ok2. destruct ok2; [|done]. cbn [negb]. asked ok3. destruct ok3; [|done]. cbn [negb].
  match goal with |- wp _ _ _ ?p _ => assert (Hg : grows past p) end.
  { intros a Ha. eapply since_keep; [eassumption|]. by eapply since_keep. }
  match goal with |- wp _ _ _ ?p _ => assert (Hrot : rotated hash p tok) end.
  { exists row, family, expires, now, (RFC3339 now1), (RFC3339 (now2 + refreshTokenLifetime)). split_and!; try done; try by apply Hg.
    - destruct Hu as [[a ?]|[n ?]]; [left; exists a; auto|right; exists n; auto].
    - destruct (tr_family row ==s ""); auto. }
  apply wp_bind, wp_granted.
  - intros more a. right. exists tok. eapply rotated_grows; [apply grows_app|done].
  - intros [] more. eapply rotated_grows; [apply grows_app|done].
Qed.

Lemma wp_refresh_tx r past :
  watched (refresh_tx sha256_hex RFC3339 parse_RFC3339 TokenExpiry r hash) past (refreshed hash).
Proof.
  pose proof no_cookie_rule as Hrule. pose proof (since_refl no_cookie past) as H0.
  assert (Hdrop : forall text p, watched (drop_token hash text) p (refreshed hash)).
  { intros text q. unfold drop_token. pose proof (since_refl no_cookie q). asked ok1. asked ok2. done. }
  unfold refresh_tx. asked row. destruct row as [row|[]]; [|done..]. destruct (tr_consumed row) as [at_|] eqn:Ec.
  { unfold reused. asked ok1. asked ok2. by destruct ok2. }
  apply wp_bind. destruct (parse_RFC3339 (tr_expires row)) as [expires|] eqn:Ee; [|apply Hdrop].
  asked now. cbn [wp]. destruct (Z.ltb_spec expires now); [apply Hdrop|]. apply wp_bind.
  assert (Hthere : forall q, since no_cookie past q -> uact (TxToken hash) (Ok row) ∈ q -> uact UNow now ∈ q -> user_found q (tr_username row) ->
    watched (family <-- own_family (tr_family row) ;;
      match family with
      | None => Ret (Fail 500 ErrInternalError "rand failed")
      | Some family => rotate sha256_hex RFC3339 TokenExpiry r hash row family
      end) q (refreshed hash)).
  { intros q Hq Hrow Hnow Hu. unfold own_family. apply wp_bind. destruct (tr_family row ==s "") eqn:Ef.
    - intros family _. split; [by left|]. cbn [wp mn_next history]. destruct family as [family|]; [|done].
      apply (wp_rotate r row family expires now); try done; try by apply grows_app.
      + destruct Hu as [[a ?]|[n ?]]; [left; exists a; by apply grows_app|right; exists n; by apply grows_app].
      + rewrite Ef. apply elem_of_app. right. by left.
    - apply (wp_rotate r row (tr_family row) expires now); try done. by rewrite Ef. }
  unfold user_exists. asked acct. destruct acct as [a|]; [apply Hthere; try done; left; by exists a|].
  asked count. destruct count as [[|n]|]; [apply Hdrop| |apply Hdrop]. apply Hthere; try done. right. by exists n.
Qed.
End Rotation.

(** C19: whatever the database, the cluster and the random source answer, a
    refresh sets a cookie and answers with a session only where the token
    presented was found live and in time, its user still there, and the
    transaction that consumed it and kept the next one's hash in its family
    was committed; the token answered with is that one. *)
Theorem Refresh_rotates r body tr o :
  exec (Refresh r body) tr o ->
  let hash := sha256_hex (presented r body) in
  (forall tr1 a tr2, tr = tr1 ++ a :: tr2 -> refresh_rule hash tr1 a) /\ (forall a, o = Some a -> refreshed hash a tr).
Proof.
  intros He hash. eapply history_sound; [|exact He]. pose proof (no_cookie_rule hash) as Hrule. unfold AuthApi.Refresh. fold (presented r body). fold hash.
  case_match; [done|]. pose proof (since_refl no_cookie ([] : list uaction)) as H0. asked l. asked began. destruct began; [|by asked u].
  apply wp_bind, wp_bind. eapply wp_mono; [apply wp_refresh_tx|]. intros a p2 Ha.
  pose proof (since_refl no_cookie p2). asked u. asked u'. destruct a; try done. eapply rotated_grows; [|exact Ha]. by eapply grows_of.
Qed.
End Gates.
