(* ===== verification/AuthWitness.v ===== *)
(** * The sign-in at work

    A panel with one account, its requests run call by call: the theorems of
    the sign-in at concrete runs, and what the runs show of its limits. *)

From S2P Require Import ApiCodes Prelude GoStrings GoTime ClusterFSM Interact AuthGuards AuthApi.
From S2P Require Import AuthHost AuthFacts.

#[local] Open Scope prog_scope.

(** ** A panel that answers *)

Definition same_text (s : string) : string := s.
Definition check_plain (pw hash : string) : bool := pw ==s hash.
Definition join_hashes (l : list string) : string := join l ",".
Definition split_hashes (s : string) : list string := splitByte s ",".
(** A time to the second. *)
Definition write_time (t : Time) : string := itoa (t / Second).
Definition read_time (s : string) : option Time := (fun n => n * Second) <$> atoi s.
Definition at_home (_ : string) : option IP := Some [127; 0; 0; 1].

#[local] Instance admin_row_dec : EqDecision adminRow.
Proof. solve_decision. Defined.
#[local] Instance token_row_dec : EqDecision tokenRow.
Proof. solve_decision. Defined.
#[local] Instance auth_db_dec : EqDecision auth_db.
Proof. solve_decision. Defined.

(** One answer of the panel to each call: the first token, family and code
    that were not drawn yet, right codes, no cluster. *)
Definition nth_text (prefix : string) (n : nat) : string := prefix +:+ itoa (Z.of_nat n).
Definition answer (s : panel) (i : nat) (c : ucall) : uanswer c * panel :=
  match c return uanswer c * panel with
  | UNow => (pn_now s, s)
  | LimitAttempt ip =>
      let '(said, l) := limit_step (pn_now s) (Attempt ip) (pn_attempts s) in
      (match said with Some (_, blocked) => blocked | None => false end, set_limits l (pn_setups s) s)
  | LimitClear ip => (tt, set_limits (limit_step (pn_now s) (ClearAttempts ip) (pn_attempts s)).2 (pn_setups s) s)
  | SetupAttempt ip => let '(limited, m) := setup_attempt (pn_now s) ip (pn_setups s) in (limited, set_limits (pn_attempts s) m s)
  | ReserveCode secret code =>
      let '(key, used) := reserve_code (pn_now s) secret code (pn_used s) in
      (key, set_codes used
              (match key with
               | Some _ => <[i := (secret, code, Z.quot (Unix (pn_now s)) totpPeriod)]> (pn_checking s)
               | None => pn_checking s
               end) (pn_accepted s) s)
  | CheckCode secret code =>
      (true, match pn_checking s !! i with
             | Some u => set_codes (pn_used s) (delete i (pn_checking s)) (u :: pn_accepted s) s
             | None => s
             end)
  | ReleaseCode key => (tt, set_codes (delete key (pn_used s)) (delete i (pn_checking s)) (pn_accepted s) s)
  | MintTicket username =>
      let '(t, m) := AuthGuards.MintWSTicket (Some "ticket") username (pn_now s) (pn_tickets s) in (t, set_tickets m s)
  | ClearTickets => (tt, set_tickets (ClearWSTickets (pn_tickets s)) s)
  | RefreshLock => (tt, set_lock (Some i) s)
  | RefreshUnlock => (tt, set_lock None s)
  | JWTSecret => ("key", s)
  | RandToken =>
      let tok := nth_text "token" (size (pn_drawn s)) in
      if decide (tok ∈ dom (pn_drawn s)) then (None, s) else (Some tok, set_drawn (<[tok := i]> (pn_drawn s)) (pn_drawn_families s) s)
  | RandFamily =>
      let f := nth_text "family" (size (pn_drawn_families s)) in
      if decide (f ∈ dom (pn_drawn_families s)) then (None, s) else (Some f, set_drawn (pn_drawn s) (<[f := i]> (pn_drawn_families s)) s)
  | RandCSRF => ("csrf", s)
  | HashPassword pw => (Some pw, s)
  | SignToken username _ _ => (Some ("jwt of " +:+ username), s)
  | DBAccount u => (match db_admins (pn_db s) !! u with Some a => Ok (ad_password a, ad_totp a) | None => Err NoRows end, s)
  | DBRecovery u => (match db_admins (pn_db s) !! u with Some a => Ok (ad_recovery a) | None => Err NoRows end, s)
  | DBAdmins => (Some (size (db_admins (pn_db s))), s)
  | DBUpdateAccount u pw totp =>
      (true, set_db (set_admins (alter (fun a => mkAdminRow pw totp (ad_recovery a)) u (db_admins (pn_db s))) (pn_db s)) s)
  | DBUpdateRecovery u codes =>
      (true, set_db (set_admins (alter (fun a => mkAdminRow (ad_password a) (ad_totp a) codes) u (db_admins (pn_db s))) (pn_db s)) s)
  | DBInsertToken hash row =>
      if decide (db_tokens (pn_db s) !! hash = None) then (true, write_db [OpInsert hash row] s) else (false, s)
  | DBDeleteTokens sel => (true, write_db [OpDelete sel] s)
  | TxBegin => (true, set_txs (<[i := mkTx None []]> (pn_txs s)) s)
  | TxToken hash =>
      match pn_txs s !! i with
      | None => (Err OtherFailure, s)
      | Some t => (match db_tokens (tx_view (pn_db s) t) !! hash with Some row => Ok row | None => Err NoRows end,
                   set_txs (<[i := tx_touch (pn_db s) t]> (pn_txs s)) s)
      end
  | TxAdminNamed u =>
      match pn_txs s !! i with
      | None => (None, s)
      | Some t => (Some (match db_admins (tx_view (pn_db s) t) !! u with Some _ => 1%nat | None => 0%nat end),
                   set_txs (<[i := tx_touch (pn_db s) t]> (pn_txs s)) s)
      end
  | TxAdmins =>
      match pn_txs s !! i with
      | None => (None, s)
      | Some t => (Some (size (db_admins (tx_view (pn_db s) t))), set_txs (<[i := tx_touch (pn_db s) t]> (pn_txs s)) s)
      end
  | TxDeleteTokens sel =>
      match pn_txs s !! i with
      | None => (false, s)
      | Some t => (true, set_txs (<[i := tx_write (pn_db s) (OpDelete sel) t]> (pn_txs s)) s)
      end
  | TxConsume hash at_ =>
      match pn_txs s !! i with
      | None => (false, s)
      | Some t => (true, set_txs (<[i := tx_write (pn_db s) (OpConsume hash at_) t]> (pn_txs s)) s)
      end
  | TxInsertToken hash row =>
      match pn_txs s !! i with
      | None => (false, s)
      | Some t =>
          if decide (db_tokens (tx_view (pn_db s) t) !! hash = None)
          then (true, set_txs (<[i := tx_write (pn_db s) (OpInsert hash row) t]> (pn_txs s)) s) else (false, s)
      end
  | TxInsertAdmin u pw =>
      match pn_txs s !! i with
      | None => (false, s)
      | Some t =>
          if decide (db_admins (tx_view (pn_db s) t) !! u = None)
          then (true, set_txs (<[i := tx_write (pn_db s) (OpAdmin u pw) t]> (pn_txs s)) s) else (false, s)
      end
  | TxCommit =>
      match pn_txs s !! i with
      | None => (false, s)
      | Some t =>
          let closed := set_txs (delete i (pn_txs s)) s in
          if decide (tx_ops t = []) then (true, write_db (tx_ops t) closed)
          else match tx_base t with
               | Some b => if decide (b = pn_db s) then (true, write_db (tx_ops t) closed) else (false, closed)
               | None => (false, closed)
               end
      end
  | TxRollback => (tt, set_txs (delete i (pn_txs s)) s)
  | SwapKey | SetCookie _ | SubmitAudit _ => (tt, s)
  | RandCode | ToLeader | GetAccount _ | DBFamily _ _ | RandSecret _ => (None, s)
  | HasManager => (false, s)
  | LeaderID => ("", s)
  | AccountCount => (0%nat, s)
  | SetAccount _ | SetRecoveryCodes _ _ => (Some OtherFailure, s)
  | GetRecoveryCodes _ => ([], s)
  end.

Notation panel_step := (panel_step same_text).
Notation auth_step := (auth_step same_text check_plain join_hashes split_hashes write_time read_time at_home "24h").
Notation auth_request := (auth_request same_text check_plain join_hashes split_hashes write_time read_time at_home "24h").

Lemma answer_step s i c : pn_lock s = None \/ c <> RefreshLock -> panel_step s i c (answer s i c).1 (answer s i c).2.
Proof.
  intros Hl. destruct c; simpl; unfold db_writes, tx_reads, tx_writes, in_tx; try done.
  - by destruct (preRecordLoginAttempt _ _ _).
  - by destruct (setup_attempt _ _ _).
  - by destruct (reserve_code _ _ _ _).
  - by exists (Some "ticket").
  - by destruct Hl.
  - case_decide; [done|]. by split.
  - case_decide; [done|]. by split_and!.
  - split; [done|]. by right.
  - split; [done|]. by right.
  - split; [done|]. by right.
  - split; [done|]. by left.
  - by left.
  - by left.
  - case_decide; [by left|by right].
  - by left.
  - by left.
  - destruct (pn_txs s !! i); [by left|done].
  - destruct (pn_txs s !! i); [by left|done].
  - destruct (pn_txs s !! i); [by left|done].
  - destruct (pn_txs s !! i); [by left|done].
  - destruct (pn_txs s !! i); [by left|done].
  - destruct (pn_txs s !! i); [|done]. case_decide; [by left|by right].
  - destruct (pn_txs s !! i); [|done]. case_decide; [by left|by right].
  - destruct (pn_txs s !! i) as [t|]; [|done]. case_decide; [left; split_and!; [done|by left|done]|].
    destruct (tx_base t) as [b|] eqn:Eb; [|by right]. case_decide; [|by right]. left. subst b. split_and!; [done|by right|done].
Qed.

(** One call of goroutine [i]. *)
Definition turn (h : auth_host) (i : nat) : auth_host :=
  match uh_pool h !! i with
  | Some (Do c k) =>
      if (match c with RefreshLock => bool_decide (pn_lock (uh_panel h) = None) | _ => true end) then
        let x := answer (uh_panel h) i c in mkAuthHost x.2 (<[i := k x.1]> (uh_pool h))
      else h
  | _ => h
  end.
Definition turns (h : auth_host) (who : list nat) : auth_host := fold_left turn who h.

Lemma turn_step h i : rtc auth_step h (turn h i).
Proof.
  unfold turn. destruct (uh_pool h !! i) as [[a|c k|]|] eqn:Ei; try done. case_match eqn:Hd; [|done].
  apply rtc_once. apply (auth_call _ _ _ _ _ _ _ _ h i c k); [done|]. apply answer_step. destruct c; try (by right). left. by apply bool_decide_eq_true in Hd.
Qed.
Lemma turns_steps h who : rtc auth_step h (turns h who).
Proof. revert h. induction who as [|i who IH]; intros h; [done|]. etransitivity; [apply turn_step|apply IH]. Qed.

Definition ask (p : uprog unit) (h : auth_host) : auth_host := mkAuthHost (uh_panel h) (uh_pool h ++ [p]).
Lemma ask_step p h : auth_request p -> rtc auth_step h (ask p h).
Proof. intros Hp. apply rtc_once. by constructor. Qed.

(** ** Ada's panel *)

Definition ada : adminRow := mkAdminRow "correct horse battery" (Some "JBSWY3DP") (Some "abcdeabcde").
Definition ada_db : auth_db := mkAuthDB {["ada" := ada]} ∅.
Definition from_home : httpRequest :=
  mkRequest "POST" "/api/v1/auth/login" "/api/v1/auth/login" "127.0.0.1:9" "127.0.0.1" true "" "" "" "" "" "" "" "" None None.
Definition with_code : loginRequest := mkLogin "ada" "correct horse battery" "123456" "".
Definition with_recovery : loginRequest := mkLogin "ada" "correct horse battery" "" "ABCDE-ABCDE".
Definition login_of (req : loginRequest) : uprog unit :=
  Login same_text check_plain join_hashes split_hashes write_time "24h" from_home (Some req) ;;; Ret tt.
Definition refresh_of (tok : string) : uprog unit := Refresh same_text write_time read_time "24h" from_home (Some tok) ;;; Ret tt.
Definition noon : Time := (unixToInternal + 1767268800) * Second.

Definition signed_in_once : auth_host := turns (ask (login_of with_code) (opened ada_db noon)) (replicate 40 0%nat).
(** Refreshed, and the first token presented again. *)
Definition refreshed_once : auth_host := turns (ask (refresh_of "token0") signed_in_once) (replicate 40 1%nat).
Definition reused_once : auth_host := turns (ask (refresh_of "token0") refreshed_once) (replicate 40 2%nat).

(** Signed in again, by a recovery code. *)
Definition signed_in_again : auth_host := turns (ask (login_of with_recovery) reused_once) (replicate 40 3%nat).

Lemma ada_legacy : legacy ada_db.
Proof. by intros h row ?. Qed.
Lemma ada_signs_in req h : rtc auth_step (opened ada_db noon) h -> forall n i, rtc auth_step (opened ada_db noon) (turns (ask (login_of req) h) (replicate n i)).
Proof. intros Hh n i. etransitivity; [exact Hh|]. etransitivity; [apply ask_step; constructor|apply turns_steps]. Qed.
Lemma ada_refreshes tok h : rtc auth_step (opened ada_db noon) h -> forall n i, rtc auth_step (opened ada_db noon) (turns (ask (refresh_of tok) h) (replicate n i)).
Proof. intros Hh n i. etransitivity; [exact Hh|]. etransitivity; [apply ask_step; constructor|apply turns_steps]. Qed.
Lemma refreshed_steps : rtc auth_step (opened ada_db noon) refreshed_once.
Proof. by apply ada_refreshes, ada_signs_in. Qed.
Lemma reused_steps : rtc auth_step (opened ada_db noon) reused_once.
Proof. by apply ada_refreshes, refreshed_steps. Qed.
Lemma again_steps : rtc auth_step reused_once signed_in_again.
Proof. etransitivity; [apply ask_step; constructor|apply turns_steps]. Qed.

Lemma refresh_sessions_witness :
  pn_spent (uh_panel refreshed_once) = ["token0"] /\ NoDup (pn_spent (uh_panel refreshed_once)) /\
  size (db_tokens (pn_db (uh_panel refreshed_once))) = 2%nat.
Proof.
  split; [by vm_compute|]. split; [|by vm_compute].
  exact (proj1 (refresh_sessions same_text check_plain join_hashes split_hashes write_time read_time at_home "24h"
                  ada_db noon refreshed_once ada_legacy refreshed_steps)).
Defined.

Lemma no_family_left : ~ live (pn_db (uh_panel reused_once)) "family0".
Proof.
  assert (E : db_tokens (pn_db (uh_panel reused_once)) = ∅) by (apply (bool_decide_unpack _); by vm_compute).
  intros (h & row & Hr & _). by rewrite E in Hr.
Qed.
Lemma ended_sessions_stay_witness :
  db_tokens (pn_db (uh_panel signed_in_again)) <> ∅ /\ ~ live (pn_db (uh_panel signed_in_again)) "family0".
Proof.
  split; [apply (bool_decide_unpack _); by vm_compute|].
  apply (ended_sessions_stay same_text check_plain join_hashes split_hashes write_time read_time at_home "24h"
           ada_db noon reused_once signed_in_again "family0" ada_legacy reused_steps again_steps).
  - apply (bool_decide_unpack _). by vm_compute.
  - exact no_family_left.
Defined.

(** Two first-run setups at once, call by call in turn; the server then boots
    as an agent and, a panel again, is set up once more. *)
Definition no_db : auth_db := mkAuthDB ∅ ∅.
Definition setup_of (u : string) : uprog unit :=
  SetupAdmin same_text write_time at_home "24h" from_home (Some (mkSetupAdmin u "correct horse battery")) ;;; Ret tt.
Definition set_up_twice : auth_host :=
  turns (ask (setup_of "eve") (ask (setup_of "ada") (opened no_db noon))) (concat (replicate 30 [0; 1]%nat)).
Definition after_agent : auth_host := mkAuthHost (forgetAccounts (restarted (uh_panel set_up_twice))) [].
Definition set_up_again : auth_host := turns (ask (setup_of "eve") after_agent) (replicate 30 0%nat).
Lemma set_up_steps : rtc auth_step (opened no_db noon) set_up_twice.
Proof.
  etransitivity; [apply (ask_step (setup_of "ada")), req_setup|].
  etransitivity; [apply (ask_step (setup_of "eve")), req_setup|apply turns_steps].
Qed.
Lemma set_up_again_steps : rtc auth_step (opened no_db noon) set_up_again.
Proof.
  etransitivity; [apply set_up_steps|]. eapply rtc_l; [apply auth_agent|].
  etransitivity; [apply (ask_step (setup_of "eve")), req_setup|apply turns_steps].
Qed.
Lemma one_admin_set_up_witness :
  pn_made (uh_panel set_up_twice) = [(0%nat, "ada")] /\
  pn_made (uh_panel set_up_again) = [(1%nat, "eve"); (0%nat, "ada")] /\ NoDup (pn_made (uh_panel set_up_again)).*1.
Proof.
  split; [by vm_compute|]. split; [by vm_compute|].
  refine (proj1 (one_admin_set_up same_text check_plain join_hashes split_hashes write_time read_time at_home "24h"
                   no_db noon set_up_again set_up_again _ set_up_again_steps (rtc_refl _ _))).
  by intros h row ?.
Defined.

(** The code of a sign-in, brought again in its period. *)
Definition code_twice : auth_host := turns (ask (login_of with_code) signed_in_once) (replicate 40 1%nat).
Lemma code_twice_steps : rtc auth_step (opened ada_db noon) code_twice.
Proof. by apply ada_signs_in, ada_signs_in. Qed.
Lemma codes_accepted_once_witness :
  size (pn_issued (uh_panel code_twice)) = 1%nat /\ NoDup (pn_accepted (uh_panel code_twice)).
Proof.
  split; [by vm_compute|].
  exact (codes_accepted_once same_text check_plain join_hashes split_hashes write_time read_time at_home "24h"
           ada_db noon code_twice ada_legacy code_twice_steps).
Defined.

(** ** What the runs show of the limits *)

(** Half a minute later the same code opens a second session: it is spent
    under the period it is brought in, and [totp.Validate] takes a code of the
    period before. *)
Definition half_a_minute_on : auth_host :=
  mkAuthHost (set_now (noon + 30 * Second) (uh_panel signed_in_once)) (uh_pool signed_in_once).
Definition code_next_period : auth_host := turns (ask (login_of with_code) half_a_minute_on) (replicate 40 1%nat).
Lemma half_a_minute_steps : rtc auth_step (opened ada_db noon) half_a_minute_on.
Proof.
  transitivity signed_in_once; [exact (ada_signs_in with_code _ (rtc_refl _ _) 40 0%nat)|].
  apply rtc_once, (auth_later _ _ _ _ _ _ _ _ signed_in_once (noon + 30 * Second)). by vm_compute.
Qed.
Lemma code_again_next_period :
  rtc auth_step (opened ada_db noon) code_next_period /\ size (pn_issued (uh_panel code_next_period)) = 2%nat /\
  map (fun u : string * string * Z => u.1) (pn_accepted (uh_panel code_next_period)) = [("JBSWY3DP", "123456"); ("JBSWY3DP", "123456")].
Proof. split_and!; [exact (ada_signs_in with_code _ half_a_minute_steps 40 1%nat)|by vm_compute..]. Qed.

(** Two sign-ins at once with the account's one recovery code both open a
    session: the codes are read, and written back less one, in two steps. *)
Definition recovery_twice : auth_host :=
  turns (ask (login_of with_recovery) (ask (login_of with_recovery) (opened ada_db noon)))
    (concat (replicate 30 [0; 1]%nat)).
Lemma recovery_code_twice :
  rtc auth_step (opened ada_db noon) recovery_twice /\ size (pn_issued (uh_panel recovery_twice)) = 2%nat.
Proof.
  split; [|by vm_compute]. etransitivity; [apply (ask_step (login_of with_recovery)), req_login|].
  etransitivity; [apply (ask_step (login_of with_recovery)), req_login|apply turns_steps].
Qed.

(** A session alone sets a second factor of its own over the one that is
    there: no password, no code of that one. *)
Definition factor_replaced : auth_host :=
  turns (ask (Verify2FA same_text from_home "ada" (Some (mkVerify2FA "MFRGGZDF" "000000")) ;;; Ret tt) (opened ada_db noon))
    (replicate 40 0%nat).
Lemma second_factor_replaced :
  rtc auth_step (opened ada_db noon) factor_replaced /\
  ad_totp <$> db_admins (pn_db (uh_panel factor_replaced)) !! "ada" = Some (Some "MFRGGZDF").
Proof. split; [|by vm_compute]. etransitivity; [apply ask_step; constructor|apply turns_steps]. Qed.

(** ** One request alone *)

Fixpoint alone {A} (n : nat) (s : panel) (p : uprog A) : list uaction * option A :=
  match n, p with
  | S n, Do c k => let x := answer s 0%nat c in let r := alone n x.2 (k x.1) in (uact c x.1 :: r.1, r.2)
  | _, Ret a => ([], Some a)
  | _, _ => ([], None)
  end.
Lemma alone_runs {A} n s (p : uprog A) : Interact.exec p (alone n s p).1 (alone n s p).2.
Proof. revert s p. induction n as [|n IH]; intros s [a|c k|]; simpl; by constructor. Qed.

Definition at_start : panel := uh_panel (opened ada_db noon).
Definition login_run := alone 40 at_start (Login same_text check_plain join_hashes split_hashes write_time "24h" from_home (Some with_code)).
Lemma Login_admits_witness :
  login_run.2 = Some (OkSession "jwt of ada" "token0" 86400) /\
  signed_in same_text check_plain join_hashes split_hashes "127.0.0.1" with_code login_run.1.
Proof.
  split; [by vm_compute|].
  exact (proj2 (Login_admits same_text check_plain join_hashes split_hashes write_time "24h" from_home with_code login_run.1 login_run.2
                  (alone_runs _ _ _)) (OkSession "jwt of ada" "token0" 86400) ltac:(by vm_compute) I).
Defined.

Definition refresh_run := alone 40 (uh_panel signed_in_once) (Refresh same_text write_time read_time "24h" from_home (Some "token0")).
Lemma Refresh_rotates_witness :
  refresh_run.2 = Some (OkSession "jwt of ada" "token1" 86400) /\
  rotated same_text read_time "token0" refresh_run.1 "token1".
Proof.
  split; [by vm_compute|].
  exact (proj2 (Refresh_rotates same_text write_time "24h" read_time from_home (Some "token0") refresh_run.1 refresh_run.2
                  (alone_runs _ _ _)) (OkSession "jwt of ada" "token1" 86400) ltac:(by vm_compute)).
Defined.

Definition new_password : changePasswordRequest := mkChangePassword "correct horse battery" "staple and correct".
Definition password_run := alone 40 at_start (ChangePassword same_text check_plain from_home "ada" (Some new_password)).
Lemma account_writes_guarded_witness :
  password_run.2 = Some (OkMessage "Password changed successfully") /\
  changed (may_change_password check_plain "127.0.0.1" "ada" new_password) "ada" (OkMessage "Password changed successfully") password_run.1.
Proof.
  split; [by vm_compute|].
  exact (proj2 (proj1 (account_writes_guarded same_text check_plain join_hashes from_home "ada") new_password password_run.1 password_run.2
                  (alone_runs _ _ _)) _ ltac:(by vm_compute)).
Defined.

(** ** The guards *)

Definition tries (ip : string) (seconds : list Z) : list (Time * limit_op) := map (fun s => (s * Second, Attempt ip)) seconds.
(** Eight of eleven within a minute, after the first; and five more of six
    after one of them proved its password. *)
Definition first_try : list (Time * limit_op) := tries "ip" [1].
Definition eleven_tries : list (Time * limit_op) := tries "ip" [58; 59; 60; 62; 63; 64; 65; 66; 67; 68; 69].
Definition proven : list (Time * limit_op) := [(69 * Second, ClearAttempts "ip")].
Definition six_tries : list (Time * limit_op) := tries "ip" [70; 71; 72; 73; 74; 75].
Lemma login_attempts_bounded_witness :
  let before := limit_run first_try no_attempts in
  admitted "ip" eleven_tries before = 8%nat /\ forgotten "ip" eleven_tries before = 0%nat /\
  admitted "ip" (eleven_tries ++ proven ++ six_tries) before = 13%nat /\
  (admitted "ip" (eleven_tries ++ proven ++ six_tries) before <=
   8 + 5 * forgotten "ip" (eleven_tries ++ proven ++ six_tries) before)%nat.
Proof.
  split; [by vm_compute|]. split; [by vm_compute|]. split; [by vm_compute|].
  refine (proj1 (login_attempts_bounded "ip" first_try (58 * Second) (eleven_tries ++ proven ++ six_tries) _ _)).
  - by vm_compute.
  - repeat (constructor; [by vm_compute|]). constructor.
Defined.

Definition keyed (key text : string) : string := key +:+ text.
Definition signed_header : string := SignProxyRequestV2With keyed "secret" "POST" "/api/v1/files" "0011" noon.
Definition checked_at (t : Time) : proxy_check :=
  mkProxyCheck ["old"; "secret"] [(t, t); (t, t)] signed_header "POST" "/api/v1/files".
(** The two checks of one request, and a replay a second later. *)
Lemma proxy_header_once_witness :
  (check keyed (checked_at (noon + 2 * Second)) (check_all keyed [checked_at noon; checked_at (noon + 10 * Millisecond)] ∅)).1 = false /\
  exists checked1 now1 checked2 now2,
    (checked1, now1) ∈ px_times (checked_at noon) /\ (checked2, now2) ∈ px_times (checked_at (noon + 10 * Millisecond)) /\
    now2 <= now1 + sameRequestWindow.
Proof.
  split; [by vm_compute|].
  refine (proxy_header_once keyed [] (checked_at noon) [] (checked_at (noon + 10 * Millisecond)) _ eq_refl _ _ _).
  - by vm_compute.
  - intros c n H. assert (c = noon) as -> by (by repeat (apply elem_of_cons in H as [H|H]; [congruence|]); apply elem_of_nil in H). by vm_compute.
  - by vm_compute.
  - by vm_compute.
Defined.

(** A nonce's time is twice the clocks' allowance and no more: a header
    stamped the whole allowance ahead is taken again a moment after it. *)
Definition ahead_header : string := SignProxyRequestV2With keyed "secret" "POST" "/api/v1/files" "0011" (noon + proxyClockSkew).
Definition ahead_at (checked now : Time) : proxy_check := mkProxyCheck ["secret"] [(checked, now)] ahead_header "POST" "/api/v1/files".
Lemma nonce_outlived :
  (check keyed (ahead_at noon noon) ∅).1 = true /\
  (check keyed (ahead_at (noon + nonceCacheTTL) (noon + nonceCacheTTL + 1000)) (check_all keyed [ahead_at noon noon] ∅)).1 = true.
Proof. split; by vm_compute. Qed.
